(* ===== verification/_CoqProject ===== *)
-Q . S2P
Prelude.v
Bits.v
Arith64.v
Address.v
Atomic.v
Spinlock.v
AtomicBitmap.v
Array.v
UtilString.v
ArrayList.v
Queue.v
ArrayListBlockingQueue.v
ArrayBlockingQueue.v
HashMap.v
Path.v
Color.v
Pool.v
Streams.v
MemoryFilesystem.v
Filesystem.v
FilesystemService.v
Storage.v
BufferedStreams.v
PrintStream.v
Terminal.v
Keyboard.v
NetworkAddress.v
Headers.v
Checksum.v
NetworkStack.v
NetworkSpec.v
BlockMemoryManager.v
BitmapMemoryManager.v
SlabAllocator.v
PagingAreaManager.v
TableMemoryManager.v
PageFrameAllocator.v
VirtualAddressSpace.v
FreeListMemoryManager.v
FreeListHeap.v
MemoryService.v
Time.v
Scheduler.v
SchedulerSpec.v
ProcessService.v
