(* ===== verification/Prelude.v ===== *)
(** * hhuOS: a verification development

    hhuOS is a small operating system in C++ for the x86: a kernel with paging,
    a preemptive scheduler, file systems and a network stack, and a library
    ([src/lib/util]) that the kernel and the user programs share. The
    development models the parts of both that carry the system's own logic.

    ** Parts and files

    Foundations
    - [Prelude.v]: outcomes of code ([Ok], [Throw], [Fault], [Loops]) with their
      monad, fixed-width integers ([u32], [s32], [wrap]), array accesses, loops.
    - [Bits.v]: bitwise lemmas and the tactic [zbits].
    - [Arith64.v]: [lib/util/math/arith64.c], shifts and division on 64 bits.
    - [Address.v]: [lib/util/base/Address], ranges and strings in raw memory.

    Synchronisation
    - [Atomic.v]: [lib/util/async/Atomic], [IdGenerator].
    - [Spinlock.v]: [Spinlock], [ReentrantSpinlock], alone and interleaved.
    - [AtomicBitmap.v]: [lib/util/async/AtomicBitmap], alone and interleaved.

    Collections and data
    - [Array.v], [ArrayList.v], [HashMap.v], [Pool.v]: the classes of these names
      in [lib/util/collection].
    - [Queue.v] is the interface [Queue.h] as a type class; [ArrayListBlockingQueue.v]
      and [ArrayBlockingQueue.v] are its two implementations.
    - [UtilString.v]: [lib/util/base/String]. [Time.v]: [lib/util/time/Timestamp], [Date].
    - [Path.v]: the paths of [lib/util/io/file/File]. [Color.v]: [lib/util/graphic/Color].

    Streams and the terminal
    - [Streams.v] has the interfaces of streams as type classes with their laws, and the streams
      on byte arrays; [BufferedStreams.v]: buffers, pipes and queues as streams;
      [PrintStream.v]: [lib/util/io/stream/PrintStream] and [String::format].
    - [Terminal.v]: [lib/util/graphic/Terminal] over any screen (a type class with laws), with the frame buffer
      and the text mode as screens; [Keyboard.v]: [lib/util/io/key], from scan codes to lines.

    Files and storage
    - [Filesystem.v]: [filesystem/Filesystem] with the driver interface as a type class, and the mount table;
      [MemoryFilesystem.v]: the driver in memory, [filesystem/memory];
      [FilesystemService.v]: [kernel/service/FilesystemService] and [kernel/process/FileDescriptorManager], descriptors and working directories.
    - [Storage.v]: [device/storage], storage devices as a type class with laws, and partition tables.

    Network
    - [NetworkAddress.v], [Headers.v], [Checksum.v]: addresses, packet headers and checksums;
      [NetworkStack.v]: [kernel/network] for Ethernet, ARP, IPv4, ICMP and UDP; [NetworkSpec.v]: its theorems.

    Memory management
    - [BlockMemoryManager.v] is the interface of the block allocators as a type
      class; [BitmapMemoryManager.v] implements it and [SlabAllocator.v] is built of six
      of them.
    - [PagingAreaManager.v]: blocks for page tables. [PageTableSupply], its contract,
      is what the next three files rely on.
    - [VirtualAddressSpace.v]: [kernel/memory/Paging], [VirtualAddressSpace].
    - [TableMemoryManager.v], [PageFrameAllocator.v]: page frames with use counts.
    - [MemoryService.v]: [kernel/service/MemoryService], which puts page tables,
      page frames, slabs and heaps together.
    - [FreeListMemoryManager.v]: the heap on the headers in memory;
      [FreeListHeap.v]: the abstract heap it refines.

    Processes
    - [Scheduler.v]: [kernel/process/Scheduler] with the parts of [Thread],
      [Process] and [Fpu] it uses; [SchedulerSpec.v]: its invariant and theorems.
    - [ProcessService.v]: [kernel/service/ProcessService], [Process] and the two cleaners
      on the state of the scheduler, with the invariant of both.

    ** How code is modelled

    A class is a record of its fields and a method is a function from the
    arguments and the object to an [outcome] of the result and the new object. An
    exception is [Throw] with the error code of [Exception.h]; a null or dangling
    pointer and a raw index out of range are [Fault]; a call that would spin until
    another thread acts, and a loop whose fuel has run out, are [Loops]. Integers are
    [Z] reduced to their width where the C++ type reduces them. Objects that
    several others point to are values in a table indexed by address, and the
    pointers are the addresses. Operands whose order of evaluation C++ leaves open (the stream reads of
    [NumberUtil] that are joined by [|]) are evaluated from left to right.

    Locks, counters and bitmaps that several threads share are also modelled as
    the sequence of their memory accesses, interleaved by an arbitrary schedule.

    ** What the theorems show

    - Collections refine lists, queues and finite maps for every sequence of
      requests, exceptions included; the places where they do not are stated as theorems
      with the input that shows it.
    - Locks exclude; two threads never get the same bit of a bitmap.
    - Every allocator hands out memory that was free and disjoint from all memory in
      use, and giving it back undoes the allocation: bitmap, slabs, paging area,
      page frames, heap. When the heap unmaps the pages of a large free block, the header
      right behind that block can be lost with them; [freeMemory_spec] says when.
    - A mapped page has exactly the translation that was asked for, in the address
      spaces that should see it, and every other translation stays. The page directory with virtual
      addresses, which the code follows, and the one with physical addresses, which the processor
      follows, lead to the same page tables ([backed], [processor_finds]).
    - The scheduler keeps every thread at one place, runs ready threads in turn while sleeping ones wake up,
      and keeps the floating point state of each thread.
    - A killed or ended process leaves no thread behind but the one that frees its memory, no other
      process changes, and the cleaner deletes no thread that is ready or asleep.
    - Strings, dates, colours and numbers: round trips, and functional specifications of the searches
      and conversions.
    - Streams deliver the bytes that were written, in order, through every buffer and pipe.
    - The scan codes of a text, the decoder and the terminal together deliver the typed lines to the reader; text and
      the escape sequences of the cursor have their effect on every screen that satisfies the laws.
    - The drivers and the mount table implement one tree of files; descriptors of a file share its contents;
      paths are canonical.
    - Partitions are written, read and deleted without changing other sectors.
    - Headers round trip, the checksums are those of RFC 1071, and a UDP datagram sent by one
      stack arrives at the socket of the other.

    ** Fuel

    Loops without a structural bound have fuel, and the theorems prove that what they
    are given is enough: the walks over the free list of the heap visit at most
    as many chunks as there are headers; [unmap] recurses at most once per page
    table in use ([unmap_total]); the loops of [Date] run at most once per year and
    twelve months; [checkSleepList] once per entry; the search of
    [allocatePhysicalMemory] once per frame. The idle loop of [block] runs until a thread
    becomes ready; [sleep_returns] gives the number of rounds. A pipe is read and written in two rounds
    (its ring wraps once), the checksum loops run once per 16 bits of the longest packet, a packet has three
    layers, a number has at most 33 digits, a format one round per character, the list of logical
    partitions one round per record, the cleaners one per queued object, and the report of the
    cursor position is echoed without an end code, so that one level is enough.

    ** Not modelled

    Device drivers, interrupt controllers, timers and firmware tables, which access
    hardware registers; the boot code and the assembly that switches stacks; the
    loader of executables, which runs in the address space it fills; the file systems on disks and the virtual
    file systems of processes and firmware tables (FatFs is a submodule), which are further drivers below the laws of
    [Filesystem.v]; floating point code (blending of colours, printing of such numbers, graphics, games); printf and
    scanf, and the C library, which has string functions of its own for programs in C; fonts, stb_image and the ports
    of other programs, which are third-party code and data. *)

From stdpp Require Export base tactics list numbers gmap.
From Stdlib Require Export ZArith Lia Bool.

Open Scope Z_scope.

(** ** Results of C++ code *)

(** [Util::Exception::Error]: the CPU's exceptions and the software exceptions. *)
Inductive Error :=
| DIVIDE_BY_ZERO | DEBUG | NON_MASKABLE_INTERRUPT | BREAKPOINT
| OVERFLOW | BOUND_RANGE_EXCEEDED | INVALID_OPCODE | DEVICE_NOT_AVAILABLE
| DOUBLE_FAULT | COPROCESSOR_SEGMENT_OVERRUN | INVALID_TSS | SEGMENT_NOT_PRESENT
| STACK_SEGMENT_FAULT | GENERAL_PROTECTION_FAULT | PAGE_FAULT | RESERVED_01
| X87_FLOATING_POINT_EXCEPTION | ALIGNMENT_CHECK | MACHINE_CHECK | SIMD_FLOATING_POINT_EXCEPTION
| VIRTUALIZATION_EXCEPTION | RESERVED_02 | RESERVED_03 | RESERVED_04
| RESERVED_05 | RESERVED_06 | RESERVED_07 | RESERVED_08
| RESERVED_09 | RESERVED_10 | SECURITY_EXCEPTION | RESERVED_11
(* software exceptions *)
| NULL_POINTER | OUT_OF_BOUNDS | INVALID_ARGUMENT | KEY_NOT_FOUND
| ILLEGAL_STATE | OUT_OF_MEMORY | OUT_OF_PHYSICAL_MEMORY | OUT_OF_PAGING_MEMORY
| ILLEGAL_PAGE_ACCESS | CLASS_NOT_FOUND | PAGING_ERROR | UNSUPPORTED_OPERATION.

#[export] Instance Error_eq_dec : EqDecision Error.
Proof. solve_decision. Defined.

(** What running a piece of code gives: a value, an exception raised with
    [Util::Exception::throwException] (or by the CPU), undefined behaviour (a
    null or dangling pointer, a raw array index out of range), or no result
    yet: a loop whose fuel ran out, or a caller that spins in a
    [Thread::yield] loop. *)
Inductive outcome (A : Type) :=
| Ok (a : A)
| Throw (e : Error)
| Fault
| Loops.
Arguments Ok {A} a.
Arguments Throw {A} e.
Arguments Fault {A}.
Arguments Loops {A}.

#[export] Instance outcome_ret : MRet outcome := fun A a => Ok a.
#[export] Instance outcome_bind : MBind outcome := fun A B f m =>
  match m with
  | Ok a => f a
  | Throw e => Throw e
  | Fault => Fault
  | Loops => Loops
  end.
#[export] Instance outcome_fmap : FMap outcome := fun A B f m =>
  match m with
  | Ok a => Ok (f a)
  | Throw e => Throw e
  | Fault => Fault
  | Loops => Loops
  end.

Definition of_option {A} (o : option A) : outcome A :=
  match o with Some a => Ok a | None => Fault end.

Lemma bind_ok {A B} (m : outcome A) (f : A -> outcome B) b :
  (m ≫= f) = Ok b <-> exists a, m = Ok a /\ f a = Ok b.
Proof.
  destruct m; cbn; split; try (by intros [? [? ?]]); try done.
  - eauto.
  - by intros [? [[= ->] ?]].
Qed.

(** ** Machine integers: a [w]-bit integer is a [Z] reduced modulo [2^w] *)

Definition wrap (w z : Z) : Z := z mod 2 ^ w.
Definition swrap (w z : Z) : Z := (z + 2 ^ (w - 1)) mod 2 ^ w - 2 ^ (w - 1).

Definition u8 (z : Z) : Z := wrap 8 z.
Definition u16 (z : Z) : Z := wrap 16 z.
Definition u32 (z : Z) : Z := wrap 32 z.
Definition u64 (z : Z) : Z := wrap 64 z.
Definition s8 (z : Z) : Z := swrap 8 z.
Definition s16 (z : Z) : Z := swrap 16 z.
Definition s32 (z : Z) : Z := swrap 32 z.
Definition s64 (z : Z) : Z := swrap 64 z.

Definition UINT32_MAX : Z := 4294967295.

Definition in_u (w z : Z) : Prop := 0 <= z < 2 ^ w.
Definition in_s (w z : Z) : Prop := - 2 ^ (w - 1) <= z < 2 ^ (w - 1).

Lemma wrap_small w z : in_u w z -> wrap w z = z.
Proof. apply Z.mod_small. Qed.

Lemma wrap_range w z : 0 <= w -> in_u w (wrap w z).
Proof. intros. apply Z.mod_pos_bound. apply Z.pow_pos_nonneg; lia. Qed.

Lemma pow2_half w : 0 < w -> 2 ^ w = 2 * 2 ^ (w - 1).
Proof. intros. rewrite <- Z.pow_succ_r by lia. f_equal. lia. Qed.

Lemma swrap_small w z : 0 < w -> in_s w z -> swrap w z = z.
Proof.
  unfold in_s, swrap. intros Hw H. rewrite (pow2_half w) by done.
  rewrite Z.mod_small; lia.
Qed.

Lemma swrap_range w z : 0 < w -> in_s w (swrap w z).
Proof.
  unfold in_s, swrap. intros Hw.
  assert (0 < 2 ^ w) by (apply Z.pow_pos_nonneg; lia).
  pose proof (Z.mod_pos_bound (z + 2 ^ (w - 1)) (2 ^ w)) as Hb.
  pose proof (pow2_half w). lia.
Qed.

Lemma wrap_swrap w z : 0 < w -> wrap w (swrap w z) = wrap w z.
Proof. intros. unfold wrap, swrap. rewrite Zminus_mod_idemp_l. f_equal. lia. Qed.

Lemma swrap_wrap w z : 0 < w -> swrap w (wrap w z) = swrap w z.
Proof. intros. unfold wrap, swrap. rewrite Zplus_mod_idemp_l. done. Qed.

Lemma wrap_add_l w x y : wrap w (wrap w x + y) = wrap w (x + y).
Proof. apply Zplus_mod_idemp_l. Qed.
Lemma wrap_add_r w x y : wrap w (x + wrap w y) = wrap w (x + y).
Proof. apply Zplus_mod_idemp_r. Qed.
Lemma wrap_sub_l w x y : wrap w (wrap w x - y) = wrap w (x - y).
Proof. apply Zminus_mod_idemp_l. Qed.
Lemma wrap_sub_r w x y : wrap w (x - wrap w y) = wrap w (x - y).
Proof. apply Zminus_mod_idemp_r. Qed.

Lemma swrap_add_l w x y : swrap w (swrap w x + y) = swrap w (x + y).
Proof.
  unfold swrap. set (h := 2 ^ (w - 1)). replace ((x + h) mod 2 ^ w - h + y + h) with ((x + h) mod 2 ^ w + y) by lia.
  rewrite Zplus_mod_idemp_l. f_equal. f_equal. lia.
Qed.

(** [unfold_ints] exposes the constants, so that [lia] sees the bounds;
    [wrap_small!] removes every reduction whose argument is in range. *)
Ltac unfold_ints :=
  unfold u8, u16, u32, u64, s8, s16, s32, s64, in_u, in_s, UINT32_MAX in *;
  change (2 ^ 7) with 128 in *; change (2 ^ 8) with 256 in *;
  change (2 ^ 15) with 32768 in *; change (2 ^ 16) with 65536 in *;
  change (2 ^ (8 - 1)) with 128 in *; change (2 ^ (16 - 1)) with 32768 in *;
  change (2 ^ (32 - 1)) with 2147483648 in *;
  change (2 ^ (64 - 1)) with 9223372036854775808 in *;
  change (2 ^ 31) with 2147483648 in *; change (2 ^ 32) with 4294967296 in *;
  change (2 ^ 63) with 9223372036854775808 in *;
  change (2 ^ 64) with 18446744073709551616 in *.

Ltac wrap_solve := unfold_ints; lia.

Ltac unwrap :=
  unfold u8, u16, u32, u64, s8, s16, s32, s64 in *;
  repeat first
    [ rewrite wrap_small by wrap_solve
    | rewrite swrap_small by wrap_solve ].

(** Comparison operators of the source give [bool]; [cmp_cases] does the case
    analysis on the ones in the goal and gives [lia] the facts. *)
Ltac cmp_case :=
  match goal with
  | |- context [?a <? ?b] => destruct (Z.ltb_spec a b)
  | |- context [?a <=? ?b] => destruct (Z.leb_spec a b)
  | |- context [?a =? ?b] => destruct (Z.eqb_spec a b)
  end.
Ltac cmp_cases := repeat (cmp_case; cbn [negb andb orb Z.b2z]; try lia).

(** [mcbn] runs the binds of results that are known and unfolds nothing else. *)
Ltac mcbn := cbn [mbind outcome_bind fmap outcome_fmap fst snd negb].

Ltac deex :=
  repeat match goal with
  | H : exists _, _ |- _ => let x := fresh "x" in destruct H as [x H]
  | H : _ /\ _ |- _ => destruct H
  end.

(** ** Raw arrays: [new T[n]], [a[i]] and [a[i] = x] without a bounds check *)

Definition aget {A} (l : list A) (i : Z) : outcome A :=
  if i <? 0 then Fault else of_option (l !! Z.to_nat i).

Definition aset {A} (l : list A) (i : Z) (x : A) : outcome (list A) :=
  if (i <? 0) || (Z.of_nat (length l) <=? i) then Fault
  else Ok (<[Z.to_nat i := x]> l).

Definition zlen {A} (l : list A) : Z := Z.of_nat (length l).

Lemma aget_ok {A} (l : list A) i x :
  aget l i = Ok x <-> 0 <= i /\ l !! Z.to_nat i = Some x.
Proof.
  unfold aget, of_option. destruct (Z.ltb_spec i 0).
  - split; [done | lia].
  - destruct (l !! Z.to_nat i); split; [..|by intros [_ ?]];
      [intros [= ->]; done | intros [_ [= ->]]; done | done].
Qed.

Lemma aget_in {A} (l : list A) i :
  0 <= i < zlen l -> exists x, aget l i = Ok x /\ l !! Z.to_nat i = Some x.
Proof.
  unfold zlen. intros H. destruct (lookup_lt_is_Some_2 l (Z.to_nat i)) as [x Hx].
  { lia. }
  exists x. rewrite aget_ok. split_and!; auto; lia.
Qed.

Lemma aset_in {A} (l : list A) i x :
  0 <= i < zlen l -> aset l i x = Ok (<[Z.to_nat i := x]> l).
Proof.
  unfold aset, zlen. intros H.
  destruct (Z.ltb_spec i 0), (Z.leb_spec (Z.of_nat (length l)) i); done || lia.
Qed.

Lemma zlen_insert {A} (l : list A) (i : nat) x : zlen (<[i := x]> l) = zlen l.
Proof. unfold zlen. by rewrite length_insert. Qed.

Lemma zlen_nonneg {A} (l : list A) : 0 <= zlen l.
Proof. unfold zlen. lia. Qed.

#[export] Instance zlen_Permutation {A} : Proper (Permutation ==> eq) (@zlen A).
Proof. intros k l H. unfold zlen. by rewrite H. Qed.

Lemma zlen_app {A} (k l : list A) : zlen (k ++ l) = zlen k + zlen l.
Proof. unfold zlen. rewrite length_app. lia. Qed.

Lemma zlen_cons {A} (x : A) l : zlen (x :: l) = zlen l + 1.
Proof. unfold zlen. cbn [length]. lia. Qed.

(** Unsigned division and remainder; a zero divisor is the CPU's divide error. *)
Definition udiv (a b : Z) : outcome Z := if b =? 0 then Throw DIVIDE_BY_ZERO else Ok (a / b).
Definition umod (a b : Z) : outcome Z := if b =? 0 then Throw DIVIDE_BY_ZERO else Ok (a mod b).

Lemma udiv_ok a b : b <> 0 -> udiv a b = Ok (a / b).
Proof. unfold udiv. by destruct (Z.eqb_spec b 0). Qed.
Lemma umod_ok a b : b <> 0 -> umod a b = Ok (a mod b).
Proof. unfold umod. by destruct (Z.eqb_spec b 0). Qed.

(** ** Loops *)

(** [for (i = lo; i < lo + n; i++) body] where the body leaves the loop only by
    an exception. *)
Fixpoint for_up {S} (n : nat) (i : Z) (body : Z -> S -> outcome S) (s : S) : outcome S :=
  match n with
  | O => Ok s
  | Datatypes.S n => body i s ≫= for_up n (i + 1) body
  end.

(** [while (cond) body], with fuel. *)
Fixpoint while {S} (fuel : nat) (cond : S -> bool) (body : S -> outcome S) (s : S) : outcome S :=
  if cond s then
    match fuel with
    | O => Loops
    | Datatypes.S fuel => body s ≫= while fuel cond body
    end
  else Ok s.

(** Total correctness of a counting loop from a loop invariant. *)
Lemma for_up_inv {S} (I : Z -> S -> Prop) body n i s :
  I i s ->
  (forall k s, i <= k < i + Z.of_nat n -> I k s ->
     exists s', body k s = Ok s' /\ I (k + 1) s') ->
  exists s', for_up n i body s = Ok s' /\ I (i + Z.of_nat n) s'.
Proof.
  revert i s. induction n as [|n IH]; intros i s Hi Hstep.
  - exists s. split; [done|]. by rewrite Z.add_0_r.
  - destruct (Hstep i s) as (s1 & Hb & H1); [lia|done|].
    destruct (IH (i + 1) s1) as (s2 & Hf & H2); [done| |].
    + intros k s' Hk. apply Hstep. lia.
    + exists s2. cbn [for_up]. rewrite Hb. cbn. split; [done|].
      replace (i + Z.of_nat (Datatypes.S n)) with (i + 1 + Z.of_nat n) by lia. done.
Qed.

(** Total correctness of a [while] loop from an invariant and a variant: with
    fuel at least the variant the loop ends, in a state where the invariant
    holds and the condition does not. *)
Lemma while_inv {S} (I : S -> Prop) (m : S -> nat) cond body fuel s :
  I s -> (m s <= fuel)%nat ->
  (forall s, I s -> cond s = true ->
     exists s', body s = Ok s' /\ I s' /\ (m s' < m s)%nat) ->
  exists s', while fuel cond body s = Ok s' /\ I s' /\ cond s' = false.
Proof.
  intros HI Hm Hstep. revert s HI Hm.
  induction fuel as [|fuel IH]; intros s HI Hm; cbn [while].
  - destruct (cond s) eqn:Hc; [|eauto].
    destruct (Hstep s HI Hc) as (s' & _ & _ & ?). lia.
  - destruct (cond s) eqn:Hc; [|eauto].
    destruct (Hstep s HI Hc) as (s' & Hb & HI' & ?). rewrite Hb. cbn.
    apply IH; [done|lia].
Qed.

(** [for (i = hi; i > hi - n; i--) body] *)
Fixpoint for_down {S} (n : nat) (i : Z) (body : Z -> S -> outcome S) (s : S) : outcome S :=
  match n with
  | O => Ok s
  | Datatypes.S n => body i s ≫= for_down n (i - 1) body
  end.

Lemma for_down_inv {S} (I : Z -> S -> Prop) body n i s :
  I i s ->
  (forall k s, i - Z.of_nat n < k <= i -> I k s ->
     exists s', body k s = Ok s' /\ I (k - 1) s') ->
  exists s', for_down n i body s = Ok s' /\ I (i - Z.of_nat n) s'.
Proof.
  revert i s. induction n as [|n IH]; intros i s Hi Hstep.
  - exists s. split; [done|]. by rewrite Z.sub_0_r.
  - destruct (Hstep i s) as (s1 & Hb & H1); [lia|done|].
    destruct (IH (i - 1) s1) as (s2 & Hf & H2); [done| |].
    + intros k s' Hk. apply Hstep. lia.
    + exists s2. cbn [for_down]. rewrite Hb. cbn. split; [done|].
      replace (i - Z.of_nat (Datatypes.S n)) with (i - 1 - Z.of_nat n) by lia. done.
Qed.

(** [for (i = lo; i < lo + n; i++) body] where the body may return. *)
Fixpoint for_find {S R} (n : nat) (i : Z) (body : Z -> S -> outcome (option R * S)) (s : S) : outcome (option R * S) :=
  match n with
  | O => Ok (None, s)
  | Datatypes.S n =>
    '(r, s) ← body i s;
    match r with Some x => Ok (Some x, s) | None => for_find n (i + 1) body s end
  end.

Lemma for_find_add {S R} (m n : nat) i (body : Z -> S -> outcome (option R * S)) s :
  for_find (m + n) i body s =
  ('(r, s) ← for_find m i body s;
   match r with Some x => Ok (Some x, s) | None => for_find n (i + Z.of_nat m) body s end).
Proof.
  revert i s. induction m as [|m IH]; intros i s; cbn [for_find Nat.add].
  - mcbn. by rewrite Z.add_0_r.
  - destruct (body i s) as [[[x|] s1]| | |]; mcbn; try done. rewrite IH.
    destruct (for_find m (i + 1) body s1) as [[[x|] s2]| | |]; mcbn; try done. f_equal. lia.
Qed.

Lemma for_find_inv {S R} (I : Z -> S -> Prop) (Q : R -> S -> Prop) body n i s :
  I i s ->
  (forall k s, i <= k < i + Z.of_nat n -> I k s ->
     exists r s', body k s = Ok (r, s') /\ match r with Some x => Q x s' | None => I (k + 1) s' end) ->
  exists r s', for_find n i body s = Ok (r, s') /\
    match r with Some x => Q x s' | None => I (i + Z.of_nat n) s' end.
Proof.
  revert i s. induction n as [|n IH]; intros i s Hi Hstep; cbn [for_find].
  - exists None, s. split; [done|]. by rewrite Z.add_0_r.
  - destruct (Hstep i s) as (r & s1 & -> & H1); [lia|done|]. mcbn. destruct r as [x|]; [eauto|].
    destruct (IH (i + 1) s1 H1) as (r & s2 & Hf & H2).
    + intros k s' Hk. apply Hstep. lia.
    + exists r, s2. split; [done|]. destruct r; [done|].
      replace (i + Z.of_nat (Datatypes.S n)) with (i + 1 + Z.of_nat n) by lia. done.
Qed.

(** ** Element types *)

(** The [operator!=] of a template argument; scalars and pointers have the
    built-in one. *)
Class NotEq (T : Type) := op_ne : T -> T -> bool.
#[export] Instance builtin_ne `{EqDecision T} : NotEq T | 10 := fun x y => bool_decide (x <> y).

(** ** Lists *)

(** [lookups] computes with lookups in arrays that were built with [take],
    [drop], [insert], [delete], by cases on the indices. *)
Ltac lookups :=
  repeat first
    [ rewrite list_lookup_insert | rewrite list_lookup_delete | rewrite lookup_take
    | rewrite lookup_drop ];
  repeat case_decide; try lia; try done; try (f_equal; lia).

Definition copy_loop {A} (n : nat) (src dst : list A) : outcome (list A) :=
  for_up n 0 (fun i d => x ← aget src i; aset d i x) dst.

Lemma copy_loop_spec {A} n (src dst : list A) :
  (n <= length src)%nat -> (n <= length dst)%nat ->
  copy_loop n src dst = Ok (take n src ++ drop n dst).
Proof.
  intros Hs Hd.
  destruct (for_up_inv (fun i d => d = take (Z.to_nat i) src ++ drop (Z.to_nat i) dst)
    (fun i d => x ← aget src i; aset d i x) n 0 dst) as (d & Hd' & ->); [done| |].
  - intros k s Hk ->. destruct (aget_in src k) as (x & Hx & Hx'); [unfold zlen; lia|].
    rewrite Hx. cbn. rewrite aset_in.
    2:{ unfold zlen. rewrite length_app, length_take, length_drop. lia. }
    eexists. split; [done|]. replace (Z.to_nat (k + 1)) with (Datatypes.S (Z.to_nat k)) by lia.
    rewrite (take_S_r _ _ _ Hx'). rewrite insert_app_r_alt by (rewrite length_take; lia).
    rewrite length_take_le by lia. rewrite Nat.sub_diag, <- app_assoc. f_equal.
    destruct (drop (Z.to_nat k) dst) as [|y rest] eqn:E.
    { apply (f_equal length) in E. rewrite length_drop in E. cbn in E. lia. }
    cbn. f_equal. replace (Datatypes.S (Z.to_nat k)) with (Z.to_nat k + 1)%nat by lia.
    by rewrite <- drop_drop, E.
  - unfold copy_loop. rewrite Hd'. by rewrite Z.add_0_l, Nat2Z.id.
Qed.

(** Moving the elements behind [index] one slot down, as array deletion does. *)
Lemma shift_down_loop {A} (el : list A) index n :
  0 <= index -> index + Z.of_nat n < zlen el ->
  exists el',
    for_up n 0 (fun i e => x ← aget e (index + i + 1); aset e (index + i) x) el = Ok el' /\
    length el' = length el /\
    forall j, el' !! j = if decide (Z.to_nat index <= j < Z.to_nat index + n)%nat then el !! S j else el !! j.
Proof.
  intros Hi Hn. unfold zlen in Hn.
  destruct (for_up_inv (fun i e => length e = length el /\
     forall j, e !! j = if decide (Z.to_nat index <= j < Z.to_nat index + Z.to_nat i)%nat then el !! S j else el !! j)
    (fun i e => x ← aget e (index + i + 1); aset e (index + i) x) n 0 el) as (el' & Hel & Hl & Hlk).
  - split; [done|]. intros j. case_decide; [lia|done].
  - intros k e Hk [Hl He]. destruct (aget_in e (index + k + 1)) as (x & Hx & Hx'); [unfold zlen; lia|].
    rewrite Hx. cbn. rewrite aset_in by (unfold zlen; lia). eexists. split; [done|].
    split; [by rewrite length_insert|]. intros j. rewrite list_lookup_insert, !He.
    rewrite He in Hx'. repeat case_decide; try lia; try done. rewrite <- Hx'. f_equal. lia.
  - exists el'. split_and!; [done|done|]. intros j. rewrite Hlk. repeat case_decide; (done || lia).
Qed.

(** Moving the elements from [index] on one slot up, as array insertion does. *)
Lemma shift_up_loop {A} (el : list A) index len :
  0 <= index <= len -> len < zlen el ->
  exists el',
    for_down (Z.to_nat (len - index)) len (fun i e => x ← aget e (i - 1); aset e i x) el = Ok el' /\
    length el' = length el /\
    forall j, el' !! j = if decide (Z.to_nat index < j <= Z.to_nat len)%nat then el !! (j - 1)%nat else el !! j.
Proof.
  intros Hi Hn. unfold zlen in Hn.
  destruct (for_down_inv (fun i e => length e = length el /\
     forall j, e !! j = if decide (Z.to_nat i < j <= Z.to_nat len)%nat then el !! (j - 1)%nat else el !! j)
    (fun i e => x ← aget e (i - 1); aset e i x) (Z.to_nat (len - index)) len el) as (el' & Hel & Hl & Hlk).
  - split; [done|]. intros j. case_decide; [lia|done].
  - intros k e Hk [Hl He]. destruct (aget_in e (k - 1)) as (x & Hx & Hx'); [unfold zlen; lia|].
    rewrite Hx. cbn. rewrite aset_in by (unfold zlen; lia). eexists. split; [done|].
    split; [by rewrite length_insert|]. intros j. rewrite list_lookup_insert, !He.
    rewrite He in Hx'. repeat case_decide; try lia; try done. rewrite <- Hx'. f_equal. lia.
  - exists el'. split_and!; [done|done|]. intros j. rewrite Hlk.
    replace (len - Z.of_nat (Z.to_nat (len - index))) with index by lia. done.
Qed.

(** Unlike [cbn], rewriting leaves the argument of the bound function alone. *)
Lemma ok_bind {A B} (f : A -> outcome B) x : mbind f (Ok x) = f x.
Proof. done. Qed.

(** ** Loops over lists whose tests can fail *)

Fixpoint findM {A} (p : A -> outcome bool) (l : list A) : outcome (option (nat * A)) :=
  match l with
  | [] => Ok None
  | x :: l =>
    b ← p x;
    if (b : bool) then Ok (Some (O, x))
    else r ← findM p l; Ok (match r with Some (i, y) => Some (S i, y) | None => None end)
  end.

Fixpoint filterM {A} (p : A -> outcome bool) (l : list A) : outcome (list A) :=
  match l with
  | [] => Ok []
  | x :: l => b ← p x; k ← filterM p l; Ok (if (b : bool) then x :: k else k)
  end.

Fixpoint foldM {A S} (f : A -> S -> outcome S) (l : list A) (s : S) : outcome S :=
  match l with [] => Ok s | x :: l => s ← f x s; foldM f l s end.

(** [a || b] and [a && b] of tests that can fail. *)
Definition orM (a b : outcome bool) : outcome bool := x ← a; if (x : bool) then Ok true else b.
Definition andM (a b : outcome bool) : outcome bool := x ← a; if (x : bool) then b else Ok false.

(** [ArrayList::contains] and [ArrayList::remove] of the first element that is equal. *)
Definition containsM {A} (p : A -> outcome bool) (l : list A) : outcome bool :=
  r ← findM p l; Ok (match r with Some _ => true | None => false end).
Definition removeM {A} (p : A -> outcome bool) (l : list A) : outcome (bool * list A) :=
  r ← findM p l; Ok (match r with Some (i, _) => (true, delete i l) | None => (false, l) end).

(** Loops whose tests do not fail. *)

Lemma findM_pure {A} (p : A -> outcome bool) (q : A -> bool) l :
  (forall x, x ∈ l -> p x = Ok (q x)) -> findM p l = Ok (list_find (fun x => q x = true) l).
Proof.
  induction l as [|x l IH]; intros Hp; [done|]. cbn [findM list_find]. rewrite Hp by (by left). mcbn.
  destruct (decide (q x = true)) as [E|E]; [by rewrite E|]. destruct (q x); [done|].
  rewrite IH by (intros y Hy; apply Hp; by right). mcbn. destruct (list_find _ l) as [[i y]|]; done.
Qed.

Lemma filterM_pure {A} (p : A -> outcome bool) (q : A -> bool) l :
  (forall x, x ∈ l -> p x = Ok (q x)) -> filterM p l = Ok (filter (fun x => q x = true) l).
Proof.
  induction l as [|x l IH]; intros Hp; [done|]. cbn [filterM]. rewrite Hp by (by left). mcbn.
  rewrite IH by (intros y Hy; apply Hp; by right). mcbn. rewrite filter_cons. destruct (q x); [by rewrite decide_True|by rewrite decide_False].
Qed.

Lemma foldM_pure {A S} (f : A -> S -> outcome S) (g : A -> S -> S) l s :
  (forall x s, x ∈ l -> f x s = Ok (g x s)) -> foldM f l s = Ok (fold_left (fun s x => g x s) l s).
Proof.
  revert s. induction l as [|x l IH]; intros s Hf; [done|]. cbn [foldM fold_left]. rewrite Hf by (by left). mcbn. apply IH. intros y s' Hy. apply Hf. by right.
Qed.
