(* ===== verification/Bits.v ===== *)
(** * Bit-level lemmas shared by the components

    Bits of wrapped values, of disjoint combinations and of masks; the tactic
    [zbits] proves equations between bitwise expressions bit by bit. *)

From S2P Require Import Prelude.
Open Scope Z_scope.

Create HintDb zbits.

Lemma testbit_wrap w z i : 0 <= w -> 0 <= i -> Z.testbit (wrap w z) i = (i <? w) && Z.testbit z i.
Proof.
  intros Hw Hi. unfold wrap. destruct (Z.ltb_spec i w).
  - by rewrite Z.mod_pow2_bits_low.
  - rewrite Z.mod_pow2_bits_high; [done|]. lia.
Qed.

Lemma testbit_shiftl z n i : 0 <= i -> Z.testbit (z ≪ n) i = (n <=? i) && Z.testbit z (i - n).
Proof.
  intros Hi. rewrite Z.shiftl_spec by done. destruct (Z.leb_spec n i); [done|].
  rewrite Z.testbit_neg_r; [done|lia].
Qed.

Lemma testbit_high w z i : in_u w z -> w <= i -> Z.testbit z i = false.
Proof.
  unfold in_u. intros [H0 H1] Hi. destruct (decide (z = 0)) as [->|Hz].
  - apply Z.testbit_0_l.
  - apply Z.bits_above_log2; [done|]. apply Z.log2_lt_pow2 in H1; lia.
Qed.

Lemma testbit_ones w i : 0 <= w -> 0 <= i -> Z.testbit (2 ^ w - 1) i = (i <? w).
Proof.
  intros. replace (2 ^ w - 1) with (Z.ones w) by (rewrite Z.ones_equiv; lia).
  destruct (Z.ltb_spec i w).
  - apply Z.ones_spec_low; lia.
  - apply Z.ones_spec_high; lia.
Qed.

Lemma testbit_pow2 n i : 0 <= n -> Z.testbit (2 ^ n) i = (n =? i).
Proof. intros. by rewrite Z.pow2_bits_eqb. Qed.

Lemma testbit_bool_inj x y :
  (forall i, 0 <= i -> Z.testbit x i = Z.testbit y i) -> x = y.
Proof. apply Z.bits_inj'. Qed.

(** A number without bits from [w] on is a [w]-bit number. *)
Lemma in_u_bits w z : 0 <= w -> (forall i, w <= i -> Z.testbit z i = false) -> in_u w z.
Proof.
  intros Hw H. replace z with (wrap w z); [by apply wrap_range|]. apply testbit_bool_inj. intros i Hi.
  rewrite testbit_wrap by done. destruct (Z.ltb_spec i w); [done|]. by rewrite H.
Qed.

Lemma setbit_range w z i : in_u w z -> 0 <= i < w -> in_u w (Z.setbit z i).
Proof.
  intros Hz Hi. apply in_u_bits; [lia|]. intros j Hj. rewrite Z.setbit_neq by lia. by apply (testbit_high w).
Qed.

Lemma clearbit_range w z i : in_u w z -> 0 <= i < w -> in_u w (Z.clearbit z i).
Proof.
  intros Hz Hi. apply in_u_bits; [lia|]. intros j Hj. rewrite Z.clearbit_neq by lia. by apply (testbit_high w).
Qed.

Lemma setbit_id z i : 0 <= i -> Z.testbit z i = true -> Z.setbit z i = z.
Proof.
  intros Hi Hz. apply testbit_bool_inj. intros j Hj. rewrite Z.setbit_eqb by done.
  by destruct (Z.eqb_spec i j) as [<-|].
Qed.

Lemma clearbit_id z i : 0 <= i -> Z.testbit z i = false -> Z.clearbit z i = z.
Proof.
  intros Hi Hz. apply testbit_bool_inj. intros j Hj. rewrite Z.clearbit_eqb.
  destruct (Z.eqb_spec i j) as [<-|]; [by rewrite Hz|]. by rewrite andb_true_r.
Qed.

(** Numbers without a common bit add up like their disjunction. *)
Lemma lor_disjoint_add x y :
  (forall i, 0 <= i -> Z.testbit x i && Z.testbit y i = false) -> Z.lor x y = x + y.
Proof.
  intros H.
  assert (Z.land x y = 0) as Hl.
  { apply Z.bits_inj'. intros i Hi. rewrite Z.land_spec, Z.bits_0. auto. }
  rewrite Z.add_nocarry_lxor by done. symmetry. by apply Z.lxor_lor.
Qed.

Lemma lor_shift_add lo hi w :
  0 <= w -> in_u w lo -> Z.lor lo (hi ≪ w) = lo + hi * 2 ^ w.
Proof.
  intros Hw Hlo. rewrite lor_disjoint_add.
  - by rewrite Z.shiftl_mul_pow2.
  - intros i Hi. rewrite testbit_shiftl by done. destruct (Z.leb_spec w i).
    + by rewrite (testbit_high w lo).
    + apply andb_false_r.
Qed.

(** The mask of the bits [k .. w-1]. *)
Lemma testbit_mask w k i : 0 <= k <= w -> 0 <= i -> Z.testbit (2 ^ w - 2 ^ k) i = (k <=? i) && (i <? w).
Proof.
  intros Hk Hi. replace (2 ^ w - 2 ^ k) with ((2 ^ (w - k) - 1) ≪ k).
  2:{ rewrite Z.shiftl_mul_pow2 by lia. rewrite Z.mul_sub_distr_r, <- Z.pow_add_r by lia. f_equal; [f_equal|]; lia. }
  rewrite testbit_shiftl by done. destruct (Z.leb_spec k i); [|done]. rewrite testbit_ones by lia.
  cbn [andb]. destruct (Z.ltb_spec (i - k) (w - k)), (Z.ltb_spec i w); (done || lia).
Qed.

Lemma land_align w k a : 0 <= k <= w -> in_u w a -> Z.land a (2 ^ w - 2 ^ k) = a / 2 ^ k * 2 ^ k.
Proof.
  intros Hk Ha. rewrite <- Z.shiftl_mul_pow2, <- Z.shiftr_div_pow2 by lia.
  apply testbit_bool_inj. intros i Hi. rewrite Z.land_spec, testbit_mask, testbit_shiftl by done.
  destruct (Z.leb_spec k i); cbn [andb]; [|apply andb_false_r].
  rewrite Z.shiftr_spec by lia. replace (i - k + k) with i by lia.
  destruct (Z.ltb_spec i w); [apply andb_true_r|]. by rewrite (testbit_high w a).
Qed.

(** The mask of the bits [k .. w-1] tests whether a [w]-bit number is below [2^k]. *)
Lemma land_high_mask w k a :
  0 <= k <= w -> in_u w a -> (Z.land a (2 ^ w - 2 ^ k) =? 0) = (a <? 2 ^ k).
Proof.
  intros Hk Ha.
  rewrite land_align by done.
  assert (0 < 2 ^ k) by (apply Z.pow_pos_nonneg; lia). unfold in_u in Ha.
  destruct (Z.ltb_spec a (2 ^ k)).
  - rewrite Z.div_small by lia. done.
  - apply Z.eqb_neq. pose proof (Z.div_le_lower_bound a (2 ^ k) 1). nia.
Qed.

(** The mask of the low [k] bits tests divisibility by [2^k]. *)
Lemma land_low_mask k a : 0 <= k -> (Z.land a (2 ^ k - 1) =? 0) = (a mod 2 ^ k =? 0).
Proof.
  intros. replace (2 ^ k - 1) with (Z.ones k) by (rewrite Z.ones_equiv; lia).
  by rewrite Z.land_ones.
Qed.

(** The sign bit of a [w]-bit pattern. *)
Lemma testbit_top w r : 0 < w -> in_u w r -> Z.testbit r (w - 1) = (2 ^ (w - 1) <=? r).
Proof.
  unfold in_u. intros Hw Hr. pose proof (pow2_half w Hw) as Hp.
  assert (0 < 2 ^ (w - 1)) by (apply Z.pow_pos_nonneg; lia).
  apply eq_true_iff_eq. rewrite Z.testbit_true, Z.leb_le by lia.
  destruct (Z.le_gt_cases (2 ^ (w - 1)) r).
  - split; [done|intros _]. rewrite <- (Z.div_unique r (2 ^ (w - 1)) 1 (r - 2 ^ (w - 1))); [done| |]; lia.
  - rewrite Z.div_small by lia. split; [discriminate|lia].
Qed.

Lemma swrap_cases w z :
  0 < w -> swrap w z = if Z.testbit z (w - 1) then wrap w z - 2 ^ w else wrap w z.
Proof.
  intros Hw. pose proof (wrap_range w z ltac:(lia)) as Hr.
  assert (Z.testbit z (w - 1) = (2 ^ (w - 1) <=? wrap w z)) as ->.
  { rewrite <- testbit_top by done. rewrite testbit_wrap by lia.
    destruct (Z.ltb_spec (w - 1) w); [done|lia]. }
  rewrite <- (swrap_wrap w z) by done. unfold in_u in Hr. pose proof (pow2_half w Hw).
  unfold swrap. destruct (Z.leb_spec (2 ^ (w - 1)) (wrap w z)).
  - rewrite <- (Z.mod_unique_pos _ (2 ^ w) 1 (wrap w z - 2 ^ (w - 1))); lia.
  - rewrite Z.mod_small; lia.
Qed.

Lemma testbit_swrap w z i :
  0 < w -> 0 <= i ->
  Z.testbit (swrap w z) i = if i <? w then Z.testbit z i else Z.testbit z (w - 1).
Proof.
  intros Hw Hi. rewrite swrap_cases by done.
  pose proof (wrap_range w z ltac:(lia)) as Hr.
  destruct (Z.testbit z (w - 1)) eqn:Ht.
  - replace (wrap w z - 2 ^ w) with (wrap w z + (-1) * 2 ^ w) by lia.
    rewrite <- lor_shift_add by (done || lia).
    rewrite Z.lor_spec, testbit_wrap, testbit_shiftl by lia.
    destruct (Z.ltb_spec i w), (Z.leb_spec w i); try lia; cbn; [apply orb_false_r|].
    apply Z.bits_m1. lia.
  - rewrite testbit_wrap by lia. by destruct (Z.ltb_spec i w).
Qed.

Lemma swrap_eq w x y : 0 < w -> wrap w x = wrap w y -> swrap w x = swrap w y.
Proof. intros Hw H. rewrite <- (swrap_wrap w x), <- (swrap_wrap w y), H by done. done. Qed.

(** [zbits]: an equation between bitwise expressions, bit by bit.  Every
    comparison between the bit index and a shift width is decided by cases. *)
Ltac zbits_step :=
  first
    [ progress (cbn [andb orb xorb negb])
    | rewrite Z.lor_spec | rewrite Z.land_spec | rewrite Z.lxor_spec
    | rewrite Z.bits_0
    | rewrite Z.testbit_neg_r by lia
    | rewrite testbit_swrap by lia
    | rewrite testbit_wrap by lia
    | rewrite testbit_shiftl by lia
    | rewrite Z.shiftr_spec by lia
    | rewrite andb_false_r | rewrite andb_true_r | rewrite orb_false_r
    | match goal with
      | |- context [?a <? ?b] => destruct (Z.ltb_spec a b); try lia
      | |- context [?a <=? ?b] => destruct (Z.leb_spec a b); try lia
      end ].
Ltac zbits :=
  apply Z.bits_inj'; let i := fresh "i" in let Hi := fresh "Hi" in intros i Hi;
  unfold u8, u16, u32, u64, s8, s16, s32, s64;
  repeat zbits_step; try done; try (f_equal; lia).
