(* ===== verification/Arith64.v ===== *)
(** * 64-bit integer arithmetic on a 32-bit machine

    Model of [src/lib/util/math/arith64.c], the replacement for libgcc's integer
    routines every 64-bit shift and division of the kernel is compiled to.  A
    64-bit value is the [Z] of its C type: [arith64_u64] in [0, 2^64),
    [arith64_s64] in [-2^63, 2^63).  Signed intermediate results are reduced to
    two's complement. *)

From S2P Require Import Prelude Bits.
Open Scope Z_scope.

(** ** The macros *)

Record arith64_word := mkWord { lo : Z; hi : Z }.

Definition word_of (n : Z) : arith64_word := mkWord (u32 n) (u32 (n ≫ 32)).
Definition word_u64 (w : arith64_word) : Z := Z.lor (lo w) (hi w ≪ 32).
Definition word_s64 (w : arith64_word) : Z := s64 (word_u64 w).

Definition arith64_hi (n : Z) : Z := hi (word_of n).
Definition arith64_lo (n : Z) : Z := lo (word_of n).

(** [!x] for an integer *)
Definition lnot (x : Z) : Z := Z.b2z (x =? 0).

(** [arith64_neg(a, b)]: the 64-bit pattern [a], negated if [b] is negative *)
Definition arith64_neg (a b : Z) : Z :=
  u64 (Z.lxor a (u64 (Z.b2z (0 <=? b) - 1)) + Z.b2z (b <? 0)).

Definition arith64_abs (a : Z) : Z := arith64_neg (u64 a) a.

(** ** The routines *)

Definition __absvdi2 (a : Z) : Z := s64 (arith64_abs a).

Definition __ashldi3 (a b : Z) : Z :=
  let w := word_of a in
  let b := Z.land b 63 in
  if 32 <=? b then
    word_s64 (mkWord 0 (u32 (lo w ≪ (b - 32))))
  else if negb (b =? 0) then
    let hi' := Z.lor (lo w ≫ (32 - b)) (u32 (hi w ≪ b)) in
    word_s64 (mkWord (u32 (lo w ≪ b)) hi')
  else word_s64 w.

Definition __ashrdi3 (a b : Z) : Z :=
  let w := word_of a in
  let b := Z.land b 63 in
  if 32 <=? b then
    let lo' := u32 (s32 (hi w) ≫ (b - 32)) in
    word_s64 (mkWord lo' (u32 (s32 (hi w) ≫ 31)))
  else if negb (b =? 0) then
    let lo' := Z.lor (u32 (hi w ≪ (32 - b))) (lo w ≫ b) in
    word_s64 (mkWord lo' (u32 (s32 (hi w) ≫ b)))
  else word_s64 w.

Definition __lshrdi3 (a b : Z) : Z :=
  let w := word_of a in
  let b := Z.land b 63 in
  if 32 <=? b then
    word_u64 (mkWord (hi w ≫ (b - 32)) 0)
  else if negb (b =? 0) then
    let lo' := Z.lor (u32 (hi w ≪ (32 - b))) (lo w ≫ b) in
    word_u64 (mkWord lo' (hi w ≫ b))
  else word_u64 w.

(** One line [b = !(a & mask) << k; n += b; a <<= b;] of the leading-zero
    search, on [w]-bit values; the state is [(a, n)]. *)
Definition clz_step (w mask k : Z) (s : Z * Z) : Z * Z :=
  let '(a, n) := s in
  let b := lnot (Z.land a mask) ≪ k in
  (wrap w (a ≪ b), n + b).

Definition __clzsi2 (a : Z) : Z :=
  let s := (a, 0) in
  let s := clz_step 32 0xffff0000 4 s in
  let s := clz_step 32 0xff000000 3 s in
  let s := clz_step 32 0xf0000000 2 s in
  let s := clz_step 32 0xc0000000 1 s in
  let '(a, n) := s in
  n + lnot (Z.land a 0x80000000).

Definition __clzdi2 (a : Z) : Z :=
  let s := (a, 0) in
  let s := clz_step 64 0xffffffff00000000 5 s in
  let s := clz_step 64 0xffff000000000000 4 s in
  let s := clz_step 64 0xff00000000000000 3 s in
  let s := clz_step 64 0xf000000000000000 2 s in
  let s := clz_step 64 0xc000000000000000 1 s in
  let '(a, n) := s in
  n + lnot (Z.land a 0x8000000000000000).

(** One line [b = !(a & mask) << k; n += b; a >>= b;] of the trailing-zero
    search. *)
Definition ctz_step (mask k : Z) (s : Z * Z) : Z * Z :=
  let '(a, n) := s in
  let b := lnot (Z.land a mask) ≪ k in
  (a ≫ b, n + b).

Definition __ctzsi2 (a : Z) : Z :=
  let s := (a, 0) in
  let s := ctz_step 0x0000ffff 4 s in
  let s := ctz_step 0x000000ff 3 s in
  let s := ctz_step 0x0000000f 2 s in
  let s := ctz_step 0x00000003 1 s in
  let '(a, n) := s in
  n + lnot (Z.land a 0x00000001).

Definition __ctzdi2 (a : Z) : Z :=
  let s := (a, 0) in
  let s := ctz_step 0x00000000ffffffff 5 s in
  let s := ctz_step 0x000000000000ffff 4 s in
  let s := ctz_step 0x00000000000000ff 3 s in
  let s := ctz_step 0x000000000000000f 2 s in
  let s := ctz_step 0x0000000000000003 1 s in
  let '(a, n) := s in
  n + lnot (Z.land a 0x0000000000000001).

(** One iteration of the long division; the state is [(rem, a, wrap)]. *)
Definition divmod_step (b : Z) (s : Z * Z * Z) : Z * Z * Z :=
  let '(rem, a, wr) := s in
  let rem := Z.lor (u64 (rem ≪ 1)) (a ≫ 63) in
  let a := Z.lor (u64 (a ≪ 1)) (Z.land wr 1) in
  let wr := u64 (s64 (b - rem - 1) ≫ 63) in
  let rem := u64 (rem - Z.land b wr) in
  (rem, a, wr).

(** [while (bits-- > 0)] runs its body [bits] times. *)
Fixpoint divmod_loop (bits : nat) (b : Z) (s : Z * Z * Z) : Z * Z * Z :=
  match bits with
  | O => s
  | S bits => divmod_loop bits b (divmod_step b s)
  end.

(** The result is the quotient and what is stored through [c]; every caller
    passes either a valid pointer or null, and the null caller ignores the
    second part.  [1 / x] with [x = 0] raises the CPU's divide error. *)
Definition __divmoddi4 (a b : Z) : outcome (Z * Z) :=
  if a <? b then Ok (0, a)
  else
    let long_division :=
      let bits := s8 (__clzdi2 b - __clzdi2 a + 1) in
      let '(rem, a, wr) := divmod_loop (Z.to_nat bits) b (a ≫ bits, u64 (a ≪ (64 - bits)), 0) in
      Ok (Z.lor (u64 (a ≪ 1)) (Z.land wr 1), rem) in
    if arith64_hi b =? 0 then
      if b =? 0 then Throw DIVIDE_BY_ZERO
      else if b =? 1 then Ok (a, 0)
      else if arith64_hi a =? 0 then
        Ok (arith64_lo a / arith64_lo b, arith64_lo a mod arith64_lo b)
      else long_division
    else long_division.

Definition __divdi3 (a b : Z) : outcome Z :=
  '(q, _) ← __divmoddi4 (arith64_abs a) (arith64_abs b);
  Ok (s64 (arith64_neg q (Z.lxor a b))).

Definition __ffsdi2 (a : Z) : Z := if negb (a =? 0) then __ctzdi2 a + 1 else 0.

Definition __moddi3 (a b : Z) : outcome Z :=
  '(_, r) ← __divmoddi4 (arith64_abs a) (arith64_abs b);
  Ok (s64 (arith64_neg r a)).

Definition __popcountsi2 (a : Z) : Z :=
  let a := u32 (a - Z.land (a ≫ 1) 0x55555555) in
  let a := u32 (Z.land (a ≫ 2) 0x33333333 + Z.land a 0x33333333) in
  let a := Z.land (u32 (a + (a ≫ 4))) 0x0F0F0F0F in
  let a := u32 (a + (a ≫ 16)) in
  Z.land (u32 (a + (a ≫ 8))) 63.

Definition __popcountdi2 (a : Z) : Z :=
  let a := u64 (a - Z.land (a ≫ 1) 0x5555555555555555) in
  let a := u64 (Z.land (a ≫ 2) 0x3333333333333333 + Z.land a 0x3333333333333333) in
  let a := Z.land (u64 (a + (a ≫ 4))) 0x0F0F0F0F0F0F0F0F in
  let a := u64 (a + (a ≫ 32)) in
  let a := u64 (a + (a ≫ 16)) in
  Z.land (u64 (a + (a ≫ 8))) 127.

Definition __udivdi3 (a b : Z) : outcome Z := fst <$> __divmoddi4 a b.
Definition __umoddi3 (a b : Z) : outcome Z := snd <$> __divmoddi4 a b.

(** ** Shifts *)

Lemma land_63 b : Z.land b 63 = b mod 64.
Proof. change 63 with (Z.ones 6). by rewrite Z.land_ones. Qed.

Ltac shift_cases b :=
  rewrite land_63; pose proof (Z.mod_pos_bound b 64 ltac:(lia));
  let k := fresh "k" in set (k := b mod 64) in *;
  unfold word_s64, word_u64, word_of; cbn [lo hi];
  destruct (Z.leb_spec 32 k); [|destruct (Z.eqb_spec k 0) as [->|]; cbn [negb]];
  cbn [lo hi].

(** The 64-bit shift routines, assembled from two 32-bit words, are the
    mathematical shifts by [b mod 64]: left shift reduced to the signed 64-bit
    range, arithmetic and logical right shift as floor division by the power
    of two. *)
Theorem shift_routines_spec a b u :
  in_s 64 a -> in_u 64 u ->
  __ashldi3 a b = s64 (a * 2 ^ (b mod 64)) /\
  __ashrdi3 a b = a / 2 ^ (b mod 64) /\
  __lshrdi3 u b = u / 2 ^ (b mod 64).
Proof.
  intros Ha Hu. pose proof (Z.mod_pos_bound b 64 ltac:(lia)).
  rewrite <- Z.shiftl_mul_pow2, <- !Z.shiftr_div_pow2 by lia. split_and!.
  - unfold __ashldi3. shift_cases b; apply swrap_eq; try lia; zbits.
  - rewrite <- (swrap_small 64 a) at 2 by (done || lia).
    unfold __ashrdi3. shift_cases b; zbits.
  - rewrite <- (wrap_small 64 u) at 2 by done.
    unfold __lshrdi3. shift_cases b; zbits.
Qed.

Lemma shift_routines_witness :
  __ashldi3 (-5) 33 = -42949672960 /\ __ashrdi3 (-5) 33 = -1 /\ __lshrdi3 (2 ^ 63 + 1) 97 = 2 ^ 30.
Proof.
  destruct (shift_routines_spec (-5) 33 0) as (-> & -> & _); [done..|].
  destruct (shift_routines_spec 0 97 (2 ^ 63 + 1)) as (_ & _ & ->); [done..|].
  by vm_compute.
Defined.

(** ** Counting zeros *)

Definition clz_inv (w d L : Z) (s : Z * Z) : Prop :=
  2 ^ (w - d) <= s.1 < 2 ^ w /\ Z.log2 s.1 = L + s.2.

Lemma clz_step_inv w mask k L s :
  0 <= k -> 2 ^ (k + 1) <= w -> mask = 2 ^ w - 2 ^ (w - 2 ^ k) ->
  clz_inv w (2 ^ (k + 1)) L s -> clz_inv w (2 ^ k) L (clz_step w mask k s).
Proof.
  destruct s as [a n]. unfold clz_inv, clz_step. cbn [fst snd]. intros Hk Hw -> [Ha HL].
  rewrite (Z.pow_add_r 2 k 1) in * by lia. change (2 ^ 1) with 2 in *.
  assert (0 < 2 ^ k) by (apply Z.pow_pos_nonneg; lia).
  assert (0 < 2 ^ (w - 2 ^ k * 2)) by (apply Z.pow_pos_nonneg; lia).
  unfold lnot. rewrite land_high_mask by (unfold in_u; lia).
  destruct (Z.ltb_spec a (2 ^ (w - 2 ^ k))); cbn [Z.b2z].
  - rewrite Z.shiftl_1_l, Z.shiftl_mul_pow2 by lia.
    assert (2 ^ w = 2 ^ (w - 2 ^ k) * 2 ^ 2 ^ k) as Hw2.
    { rewrite <- Z.pow_add_r by lia. f_equal. lia. }
    assert (2 ^ (w - 2 ^ k) = 2 ^ (w - 2 ^ k * 2) * 2 ^ 2 ^ k) as Hw3.
    { rewrite <- Z.pow_add_r by lia. f_equal. lia. }
    assert (0 < 2 ^ 2 ^ k) by (apply Z.pow_pos_nonneg; lia).
    rewrite wrap_small by (unfold in_u; nia). split; [nia|].
    rewrite Z.log2_mul_pow2 by lia. lia.
  - rewrite Z.shiftl_0_l, Z.shiftl_0_r, Z.add_0_r, wrap_small by (unfold in_u; lia). lia.
Qed.

Lemma clz_last w mask L s :
  2 <= w -> mask = 2 ^ w - 2 ^ (w - 1) -> clz_inv w 2 L s ->
  s.2 + lnot (Z.land s.1 mask) = w - 1 - L.
Proof.
  destruct s as [a n]. unfold clz_inv. cbn [fst snd]. intros Hw -> [Ha HL].
  assert (0 < 2 ^ (w - 2)) by (apply Z.pow_pos_nonneg; lia).
  unfold lnot. rewrite land_high_mask by (unfold in_u; lia).
  destruct (Z.ltb_spec a (2 ^ (w - 1))); cbn [Z.b2z].
  - rewrite (Z.log2_unique a (w - 2)) in HL; [lia|lia|].
    replace (Z.succ (w - 2)) with (w - 1) by lia. lia.
  - rewrite (Z.log2_unique a (w - 1)) in HL; [lia|lia|].
    replace (Z.succ (w - 1)) with w by lia. lia.
Qed.

Lemma clzsi2_log2 a : 0 < a < 2 ^ 32 -> __clzsi2 a = 31 - Z.log2 a.
Proof.
  intros Ha. unfold __clzsi2.
  assert (clz_inv 32 32 (Z.log2 a) (a, 0)) as H by (split; cbn -[Z.log2]; lia).
  apply (clz_step_inv 32 0xffff0000 4) in H; [|done..].
  apply (clz_step_inv 32 0xff000000 3) in H; [|done..].
  apply (clz_step_inv 32 0xf0000000 2) in H; [|done..].
  apply (clz_step_inv 32 0xc0000000 1) in H; [|done..].
  apply (clz_last 32 0x80000000) in H; [|done..]. cbv zeta.
  destruct (clz_step 32 0xc0000000 1 _). exact H.
Qed.

Lemma clzdi2_log2 a : 0 < a < 2 ^ 64 -> __clzdi2 a = 63 - Z.log2 a.
Proof.
  intros Ha. unfold __clzdi2.
  assert (clz_inv 64 64 (Z.log2 a) (a, 0)) as H by (split; cbn -[Z.log2]; lia).
  apply (clz_step_inv 64 0xffffffff00000000 5) in H; [|done..].
  apply (clz_step_inv 64 0xffff000000000000 4) in H; [|done..].
  apply (clz_step_inv 64 0xff00000000000000 3) in H; [|done..].
  apply (clz_step_inv 64 0xf000000000000000 2) in H; [|done..].
  apply (clz_step_inv 64 0xc000000000000000 1) in H; [|done..].
  apply (clz_last 64 0x8000000000000000) in H; [|done..]. cbv zeta.
  destruct (clz_step 64 0xc000000000000000 1 _). exact H.
Qed.

Definition ctz_inv (d a0 : Z) (s : Z * Z) : Prop :=
  0 <= s.2 /\ a0 = s.1 * 2 ^ s.2 /\ s.1 mod 2 ^ d <> 0.

Lemma ctz_step_inv mask k a0 s :
  0 <= k -> mask = 2 ^ 2 ^ k - 1 ->
  ctz_inv (2 ^ (k + 1)) a0 s -> ctz_inv (2 ^ k) a0 (ctz_step mask k s).
Proof.
  destruct s as [a n]. unfold ctz_inv, ctz_step. cbn [fst snd]. intros Hk -> (Hn & Ha & Hd).
  assert (0 < 2 ^ k) by (apply Z.pow_pos_nonneg; lia).
  unfold lnot. rewrite land_low_mask by lia.
  destruct (Z.eqb_spec (a mod 2 ^ 2 ^ k) 0) as [E|E]; cbn [Z.b2z].
  - rewrite Z.shiftl_1_l, Z.shiftr_div_pow2 by lia.
    assert (0 < 2 ^ 2 ^ k) by (apply Z.pow_pos_nonneg; lia).
    assert (a = 2 ^ 2 ^ k * (a / 2 ^ 2 ^ k)) as Hq by (apply Z_div_exact_full_2; lia).
    split_and!; [lia| |].
    + rewrite Z.pow_add_r by lia. rewrite Ha, Hq at 1. ring.
    + intros Hm. apply Hd. rewrite Hq, (Z.pow_add_r 2 k 1) by lia. change (2 ^ 1) with 2.
      replace (2 ^ k * 2) with (2 ^ k + 2 ^ k) by lia.
      rewrite Z.pow_add_r, Z.mul_mod_distr_l by lia. rewrite Hm. lia.
  - rewrite Z.shiftl_0_l, Z.shiftr_0_r, Z.add_0_r. done.
Qed.

Lemma ctz_last a0 s :
  ctz_inv 2 a0 s -> 
  exists m, Z.odd m = true /\ a0 = m * 2 ^ (s.2 + lnot (Z.land s.1 1)) /\ 0 <= s.2 + lnot (Z.land s.1 1).
Proof.
  destruct s as [a n]. unfold ctz_inv, lnot. cbn [fst snd]. intros (Hn & Ha & Hd).
  change 1 with (2 ^ 1 - 1). rewrite land_low_mask by lia. change (2 ^ 1) with 2. change (2 ^ 2) with 4 in *.
  destruct (Z.eqb_spec (a mod 2) 0) as [E|E]; cbn [Z.b2z].
  - exists (a / 2). split_and!; [|rewrite Z.pow_add_r by lia; change (2 ^ 1) with 2|lia].
    + rewrite Zodd_mod. apply Z.eqb_eq.
      pose proof (Z.div_mod a 2). pose proof (Z.mod_pos_bound (a / 2) 2).
      destruct (decide ((a / 2) mod 2 = 0)) as [E2|]; [|lia]. exfalso. apply Hd.
      pose proof (Z.div_mod (a / 2) 2). replace a with (a / 2 / 2 * 4) by lia. apply Z.mod_mul. lia.
    + pose proof (Z.div_mod a 2). rewrite Ha. replace a with (2 * (a / 2)) at 1 by lia. ring.
  - exists a. rewrite Z.add_0_r. split_and!; [|done|done].
    rewrite Zodd_mod. apply Z.eqb_eq. pose proof (Z.mod_pos_bound a 2). lia.
Qed.

Lemma ctzsi2_spec a :
  0 < a < 2 ^ 32 -> exists m, Z.odd m = true /\ a = m * 2 ^ __ctzsi2 a /\ 0 <= __ctzsi2 a.
Proof.
  intros Ha. unfold __ctzsi2.
  assert (ctz_inv 32 a (a, 0)) as H.
  { split_and!; cbn [fst snd]; [lia|lia|]. rewrite Z.mod_small; lia. }
  apply (ctz_step_inv 0xffff 4) in H; [|done..].
  apply (ctz_step_inv 0xff 3) in H; [|done..].
  apply (ctz_step_inv 0xf 2) in H; [|done..].
  apply (ctz_step_inv 0x3 1) in H; [|done..].
  apply ctz_last in H. cbv zeta. by destruct (ctz_step 0x3 1 _).
Qed.

Lemma ctzdi2_spec a :
  0 < a < 2 ^ 64 -> exists m, Z.odd m = true /\ a = m * 2 ^ __ctzdi2 a /\ 0 <= __ctzdi2 a.
Proof.
  intros Ha. unfold __ctzdi2.
  assert (ctz_inv 64 a (a, 0)) as H.
  { split_and!; cbn [fst snd]; [lia|lia|]. rewrite Z.mod_small; lia. }
  apply (ctz_step_inv 0xffffffff 5) in H; [|done..].
  apply (ctz_step_inv 0xffff 4) in H; [|done..].
  apply (ctz_step_inv 0xff 3) in H; [|done..].
  apply (ctz_step_inv 0xf 2) in H; [|done..].
  apply (ctz_step_inv 0x3 1) in H; [|done..].
  apply ctz_last in H. cbv zeta. by destruct (ctz_step 0x3 1 _).
Qed.

(** ** Division *)

(** [(a >> 63)] and the wrap mask as numbers *)
Lemma neg_mask b : 0 <= b < 2 ^ 64 -> Z.land b (2 ^ 64 - 1) = b.
Proof.
  intros. change (2 ^ 64 - 1) with (Z.ones 64). rewrite Z.land_ones by lia.
  apply Z.mod_small. lia.
Qed.

Lemma sign_mask x : in_s 64 x -> u64 (s64 x ≫ 63) = if x <? 0 then 2 ^ 64 - 1 else 0.
Proof.
  intros Hx. unfold s64. rewrite swrap_small by (done || lia).
  rewrite Z.shiftr_div_pow2 by lia. unfold in_s in Hx. change (64 - 1) with 63 in Hx.
  destruct (Z.ltb_spec x 0).
  - rewrite <- (Z.div_unique x (2 ^ 63) (-1) (x + 2 ^ 63)) by lia. done.
  - rewrite Z.div_small by lia. done.
Qed.

Lemma lor_double_bit x c : 0 <= c < 2 -> Z.lor (2 * x) c = 2 * x + c.
Proof.
  intros. rewrite Z.lor_comm. replace (2 * x) with (x ≪ 1) by (rewrite Z.shiftl_mul_pow2 by lia; lia).
  rewrite lor_shift_add, Z.shiftl_mul_pow2 by (unfold in_u; lia). lia.
Qed.

Lemma land_1_mask c : Z.land (if c : bool then 2 ^ 64 - 1 else 0) 1 = Z.b2z c.
Proof. by destruct c. Qed.

(** What the long division has computed when [m] numerator bits are left: the
    quotient and remainder of the numerator without its low [m] bits.  The last
    quotient bit is still in [wrap]. *)
Definition div_inv (a0 b m : Z) (s : Z * Z * Z) : Prop :=
  let '(rem, a, wr) := s in
  let h := a0 / 2 ^ m in
  rem = h mod b /\
  a = (a0 mod 2 ^ m) * 2 ^ (64 - m) + h / b / 2 /\
  wr = (if Z.odd (h / b) then 2 ^ 64 - 1 else 0).

Lemma halves a0 m :
  0 < m ->
  let A := a0 mod 2 ^ m in
  let bit := A / 2 ^ (m - 1) in
  0 <= bit < 2 /\ a0 / 2 ^ (m - 1) = 2 * (a0 / 2 ^ m) + bit /\
  A = bit * 2 ^ (m - 1) + a0 mod 2 ^ (m - 1).
Proof.
  intros Hm. cbv zeta. pose proof (pow2_half m Hm) as Hp.
  assert (0 < 2 ^ (m - 1)) by (apply Z.pow_pos_nonneg; lia).
  pose proof (Z.mod_pos_bound a0 (2 ^ m) ltac:(lia)).
  set (bit := a0 mod 2 ^ m / 2 ^ (m - 1)).
  assert (0 <= bit < 2).
  { unfold bit. split; [apply Z.div_pos; lia|]. apply Z.div_lt_upper_bound; lia. }
  pose proof (Z.div_mod a0 (2 ^ m) ltac:(lia)).
  pose proof (Z.div_mod (a0 mod 2 ^ m) (2 ^ (m - 1)) ltac:(lia)) as Hd. fold bit in Hd.
  pose proof (Z.mod_pos_bound (a0 mod 2 ^ m) (2 ^ (m - 1)) ltac:(lia)) as Hmm.
  assert (a0 = 2 ^ (m - 1) * (2 * (a0 / 2 ^ m) + bit) + a0 mod 2 ^ m mod 2 ^ (m - 1)) as He by nia.
  split_and!; [lia|lia| |].
  - symmetry. eapply Z.div_unique; [left; eassumption|exact He].
  - rewrite <- (Z.mod_unique a0 (2 ^ (m - 1)) _ _ (or_introl Hmm) He). lia.
Qed.

Lemma div_digit h b rem2 Q :
  0 < b -> 0 <= rem2 < 2 * b -> h = b * (2 * Q) + rem2 ->
  h / b = 2 * Q + Z.b2z (b <=? rem2) /\ h mod b = rem2 - (if b <=? rem2 then b else 0).
Proof.
  intros Hb Hr ->. destruct (Z.leb_spec b rem2); cbn [Z.b2z].
  - split; [symmetry; apply (Z.div_unique _ _ _ (rem2 - b))|symmetry; apply (Z.mod_unique _ _ (2 * Q + 1))]; lia.
  - split; [symmetry; apply (Z.div_unique _ _ _ rem2)|symmetry; apply (Z.mod_unique _ _ (2 * Q))]; lia.
Qed.

Lemma divmod_step_inv a0 b m s :
  in_u 64 a0 -> 0 < b < 2 ^ 64 -> 0 < m <= 64 ->
  (b <= 2 ^ 63 \/ b <= a0 / 2 ^ (m - 1)) ->
  div_inv a0 b m s -> div_inv a0 b (m - 1) (divmod_step b s).
Proof.
  destruct s as [[rem a] wr]. unfold div_inv, divmod_step. cbv zeta.
  intros Ha Hb Hm Hbig (-> & -> & ->).
  destruct (halves a0 m) as (Hbit & Hh & HA); [lia|].
  set (h := a0 / 2 ^ m) in *. set (A := a0 mod 2 ^ m) in *.
  set (bit := A / 2 ^ (m - 1)) in *. set (h' := a0 / 2 ^ (m - 1)) in *.
  assert (0 < 2 ^ (m - 1)) by (apply Z.pow_pos_nonneg; lia).
  assert (0 < 2 ^ (64 - m)) by (apply Z.pow_pos_nonneg; lia).
  assert (2 ^ 64 = 2 ^ (m - 1) * 2 ^ (65 - m)) as Hp64.
  { rewrite <- Z.pow_add_r by lia. f_equal. lia. }
  assert (2 ^ (65 - m) = 2 * 2 ^ (64 - m)) as Hp65 by (rewrite <- Z.pow_succ_r by lia; f_equal; lia).
  pose proof (Z.mod_pos_bound a0 (2 ^ (m - 1)) ltac:(lia)) as Hlow.
  pose proof (Z.div_mod h b ltac:(lia)) as Hdm. pose proof (Z.mod_pos_bound h b ltac:(lia)) as Hrem.
  set (Q := h / b) in *. unfold in_u in Ha.
  assert (0 <= h' < 2 ^ 64) as Hh'.
  { unfold h'. split; [apply Z.div_pos; lia|]. apply Z.div_lt_upper_bound; nia. }
  assert (0 <= h < 2 ^ (64 - m)) as Hhm.
  { unfold h. split; [apply Z.div_pos; lia|]. apply Z.div_lt_upper_bound; [lia|].
    rewrite <- Z.pow_add_r by lia. replace (m + (64 - m)) with 64 by lia. lia. }
  assert (0 <= Q <= h) as HQ.
  { unfold Q. split; [apply Z.div_pos; lia|]. apply Z.div_le_upper_bound; nia. }
  set (half := Q / 2). assert (Q = 2 * half + Z.b2z (Z.odd Q)) as HQ2 by (unfold half; rewrite <- Z.div2_div; apply Z.div2_odd).
  assert (0 <= Z.b2z (Z.odd Q) < 2) by (destruct (Z.odd Q); cbn; lia).
  set (low := a0 mod 2 ^ (m - 1)) in *.
  (* the top bit of [a], and [a] shifted *)
  assert ((A * 2 ^ (64 - m) + half) ≫ 63 = bit) as ->.
  { rewrite Z.shiftr_div_pow2 by lia. symmetry.
    assert (2 ^ 63 = 2 ^ (m - 1) * 2 ^ (64 - m)) by (rewrite <- Z.pow_add_r by lia; f_equal; lia).
    apply (Z.div_unique _ _ _ (low * 2 ^ (64 - m) + half)); nia. }
  assert (u64 ((A * 2 ^ (64 - m) + half) ≪ 1) = 2 * (low * 2 ^ (64 - m) + half)) as ->.
  { rewrite Z.shiftl_mul_pow2 by lia. unfold u64, wrap. symmetry.
    apply (Z.mod_unique _ _ bit); nia. }
  assert (Z.lor (u64 ((h mod b) ≪ 1)) bit = 2 * (h mod b) + bit) as ->.
  { rewrite Z.shiftl_mul_pow2 by lia. change (2 ^ 1) with 2. rewrite (Z.mul_comm _ 2).
    unfold u64. rewrite wrap_small by (unfold in_u; nia). by apply lor_double_bit. }
  rewrite land_1_mask, lor_double_bit by lia.
  set (rem2 := 2 * (h mod b) + bit) in *.
  assert (0 <= rem2 < 2 * b) by lia.
  destruct (div_digit h' b rem2 Q) as [Hq Hr]; [lia|lia|lia|].
  assert (b <= 2 ^ 63 \/ b <= rem2) as Hsign.
  { destruct (Z.le_gt_cases b (2 ^ 63)); [by left|right].
    assert (h mod b = h) by (apply Z.mod_small; lia). lia. }
  rewrite sign_mask by (unfold in_s; change (64 - 1) with 63; lia).
  assert ((b - rem2 - 1 <? 0) = (b <=? rem2)) as -> by cmp_cases.
  split_and!.
  - rewrite Hr. destruct (Z.leb_spec b rem2).
    + rewrite neg_mask by lia. unfold u64. rewrite wrap_small; [lia|unfold in_u; lia].
    + rewrite Z.land_0_r. unfold u64. rewrite wrap_small; [lia|unfold in_u; lia].
  - rewrite Hq. replace (64 - (m - 1)) with (65 - m) by lia. rewrite Hp65.
    replace ((2 * Q + Z.b2z (b <=? rem2)) / 2) with Q; [lia|].
    apply (Z.div_unique _ _ _ (Z.b2z (b <=? rem2))); [|lia]. destruct (b <=? rem2); cbn; lia.
  - rewrite Hq. rewrite Z.odd_add, Z.odd_mul. cbn [Z.odd andb]. by destruct (b <=? rem2).
Qed.

Lemma divmod_loop_inv a0 b n s :
  in_u 64 a0 -> 0 < b < 2 ^ 64 -> Z.of_nat n <= 64 ->
  (b <= 2 ^ 63 \/ ((n <= 1)%nat /\ b <= a0)) ->
  div_inv a0 b (Z.of_nat n) s -> div_inv a0 b 0 (divmod_loop n b s).
Proof.
  intros Ha Hb. revert s. induction n as [|n IH]; intros s Hn Hbig Hs; [done|].
  cbn [divmod_loop]. apply IH; [lia|lia|].
  replace (Z.of_nat n) with (Z.of_nat (S n) - 1) by lia.
  apply divmod_step_inv; [done|done|lia| |done].
  destruct Hbig as [?|[? ?]]; [by left|right].
  replace (Z.of_nat (S n) - 1) with 0 by lia. by rewrite Z.div_1_r.
Qed.

Lemma word_halves n :
  in_u 64 n -> n = arith64_lo n + arith64_hi n * 2 ^ 32 /\ in_u 32 (arith64_lo n) /\ in_u 32 (arith64_hi n).
Proof.
  intros Hn. unfold arith64_lo, arith64_hi, word_of. cbn [lo hi].
  pose proof (wrap_range 32 n ltac:(lia)). split_and!; [|done|apply wrap_range; lia].
  rewrite Z.shiftr_div_pow2 by lia. unfold in_u in Hn. unfold u32.
  rewrite (wrap_small 32 (n / 2 ^ 32)).
  - unfold wrap. pose proof (Z.div_mod n (2 ^ 32)). lia.
  - split; [apply Z.div_pos; lia|]. apply Z.div_lt_upper_bound; lia.
Qed.

Lemma div_inv_init a b n :
  0 < b -> 0 <= n <= 64 -> 0 <= a -> a < b * 2 ^ n -> 0 <= n ->
  div_inv a b n (a ≫ n, u64 (a ≪ (64 - n)), 0).
Proof.
  intros Hb Hn Ha Hlt _. unfold div_inv. cbv zeta.
  assert (0 < 2 ^ n) by (apply Z.pow_pos_nonneg; lia).
  assert (0 <= a / 2 ^ n < b).
  { split; [apply Z.div_pos; lia|]. apply Z.div_lt_upper_bound; lia. }
  rewrite Z.shiftr_div_pow2, Z.shiftl_mul_pow2 by lia.
  rewrite (Z.mod_small (a / 2 ^ n)), (Z.div_small (a / 2 ^ n)) by lia. split_and!; [done| |done].
  change (0 / 2) with 0. rewrite Z.add_0_r. unfold u64, wrap.
  replace (2 ^ 64) with (2 ^ n * 2 ^ (64 - n)) by (rewrite <- Z.pow_add_r by lia; f_equal; lia).
  rewrite Z.mul_mod_distr_r; [done|lia|]. apply Z.pow_nonzero; lia.
Qed.

Lemma long_division_spec a b :
  in_u 64 a -> 0 < b <= a -> 2 <= b ->
  let bits := s8 (__clzdi2 b - __clzdi2 a + 1) in
  let '(rem, a', wr) := divmod_loop (Z.to_nat bits) b (a ≫ bits, u64 (a ≪ (64 - bits)), 0) in
  Z.lor (u64 (a' ≪ 1)) (Z.land wr 1) = a / b /\ rem = a mod b.
Proof.
  unfold in_u. intros Ha Hb Hb2. rewrite !clzdi2_log2 by lia.
  pose proof (Z.log2_spec a ltac:(lia)). pose proof (Z.log2_spec b ltac:(lia)).
  pose proof (Z.log2_le_mono b a ltac:(lia)).
  assert (Z.log2 a < 64) by (apply Z.log2_lt_pow2; lia).
  assert (1 <= Z.log2 b) by (apply Z.log2_le_pow2; lia).
  assert (s8 (63 - Z.log2 b - (63 - Z.log2 a) + 1) = Z.log2 a - Z.log2 b + 1) as ->.
  { unfold s8. rewrite swrap_small; [lia|lia|]. unfold in_s. change (2 ^ (8 - 1)) with 128. lia. }
  set (n := Z.log2 a - Z.log2 b + 1). cbv zeta.
  assert (div_inv a b 0 (divmod_loop (Z.to_nat n) b (a ≫ n, u64 (a ≪ (64 - n)), 0))) as Hinv.
  { apply divmod_loop_inv; [done|lia|lia| |].
    - destruct (Z.le_gt_cases b (2 ^ 63)); [by left|right].
      assert (Z.log2 b = 63) by (apply Z.log2_unique; lia). lia.
    - rewrite Z2Nat.id by lia. apply div_inv_init; [lia|lia|lia| |lia].
      assert (b * 2 ^ n >= 2 ^ Z.log2 b * 2 ^ n) by (apply Z.le_ge, Z.mul_le_mono_nonneg_r; [apply Z.pow_nonneg|]; lia).
      rewrite <- Z.pow_add_r in * by lia. replace (Z.log2 b + n) with (Z.succ (Z.log2 a)) in * by lia. lia. }
  destruct (divmod_loop _ _ _) as [[rem a'] wr]. unfold div_inv in Hinv. cbv zeta in Hinv.
  rewrite Z.div_1_r, Z.mod_1_r, Z.mul_0_l, Z.add_0_l in Hinv. destruct Hinv as (-> & -> & ->).
  split; [|done]. rewrite land_1_mask, Z.shiftl_mul_pow2 by lia. change (2 ^ 1) with 2. rewrite (Z.mul_comm _ 2).
  pose proof (Z.div2_odd (a / b)) as Hdiv2. rewrite Z.div2_div in Hdiv2.
  assert (0 <= a / b <= a) by (split; [apply Z.div_pos; lia|apply Z.div_le_upper_bound; nia]).
  assert (0 <= Z.b2z (Z.odd (a / b)) < 2) by (destruct (Z.odd (a / b)); cbn; lia).
  unfold u64. rewrite wrap_small by (unfold in_u; lia). rewrite lor_double_bit; lia.
Qed.

(** C37: unsigned 64-bit division.  For every numerator and every non-zero
    divisor the routine ends and gives the quotient and the remainder: the
    shift-subtract loop with its sign-extension mask included. *)
Theorem divmoddi4_spec a b :
  in_u 64 a -> in_u 64 b -> b <> 0 -> __divmoddi4 a b = Ok (a / b, a mod b).
Proof.
  intros Ha Hb Hz. unfold __divmoddi4. pose proof (word_halves a Ha) as (Ea & La & _).
  pose proof (word_halves b Hb) as (Eb & Lb & _). unfold in_u in *.
  destruct (Z.ltb_spec a b); [rewrite Z.div_small, Z.mod_small by lia; done|].
  destruct (Z.eqb_spec b 0); [done|]. destruct (Z.eqb_spec b 1) as [->|].
  { rewrite Z.div_1_r, Z.mod_1_r. done. }
  pose proof (long_division_spec a b ltac:(done) ltac:(lia) ltac:(lia)) as Hl. cbv zeta in Hl |- *.
  destruct (divmod_loop _ _ _) as [[rem a'] wr]. destruct Hl as [-> ->].
  destruct (Z.eqb_spec (arith64_hi b) 0) as [Eh|]; [|done].
  destruct (Z.eqb_spec (arith64_hi a) 0) as [Eh'|]; [|done].
  rewrite Eh in Eb. rewrite Eh' in Ea. rewrite Z.mul_0_l, Z.add_0_r in *. by rewrite <- Ea, <- Eb.
Qed.

Lemma divmoddi4_witness :
  __divmoddi4 (2 ^ 64 - 1) (2 ^ 63 + 5) = Ok (1, 2 ^ 63 - 6).
Proof. rewrite (divmoddi4_spec (2 ^ 64 - 1) (2 ^ 63 + 5)); [reflexivity | split | split |]; done. Defined.

(** A zero divisor raises the CPU's divide error, on every entry point. *)
Lemma divmoddi4_zero a : in_u 64 a -> __divmoddi4 a 0 = Throw DIVIDE_BY_ZERO.
Proof.
  intros [Ha _]. unfold __divmoddi4. destruct (Z.ltb_spec a 0); [lia|]. done.
Qed.

Lemma lxor_ones a : in_u 64 a -> Z.lxor a (2 ^ 64 - 1) = 2 ^ 64 - 1 - a.
Proof.
  intros Ha. change (2 ^ 64 - 1) with (Z.ones 64).
  assert (a + Z.lxor a (Z.ones 64) = Z.ones 64) as H; [|lia].
  rewrite Z.add_nocarry_lxor.
  - by rewrite <- Z.lxor_assoc, Z.lxor_nilpotent, Z.lxor_0_l.
  - apply Z.bits_inj'. intros i Hi. rewrite Z.land_spec, Z.lxor_spec, Z.bits_0.
    destruct (Z.lt_ge_cases i 64).
    + rewrite Z.ones_spec_low by lia. by destruct (Z.testbit a i).
    + by rewrite (testbit_high 64 a).
Qed.

Lemma arith64_neg_spec a b : in_u 64 a -> arith64_neg a b = if b <? 0 then u64 (- a) else a.
Proof.
  intros Ha. unfold arith64_neg. destruct (Z.ltb_spec b 0), (Z.leb_spec 0 b); try lia; cbn [Z.b2z].
  - change (u64 (0 - 1)) with (2 ^ 64 - 1). rewrite lxor_ones by done.
    unfold u64, wrap. symmetry. rewrite <- (Z_mod_plus_full (- a) 1). f_equal. lia.
  - change (u64 (1 - 1)) with 0. rewrite Z.lxor_0_r, Z.add_0_r. by apply wrap_small.
Qed.

Lemma arith64_abs_spec a : in_s 64 a -> arith64_abs a = Z.abs a.
Proof.
  unfold in_s. change (64 - 1) with 63. intros Ha. unfold arith64_abs.
  rewrite arith64_neg_spec by (apply wrap_range; lia). unfold u64.
  destruct (Z.ltb_spec a 0).
  - rewrite <- (Z.sub_0_l (wrap 64 a)), wrap_sub_r, wrap_small; [lia|]. unfold in_u. lia.
  - rewrite wrap_small; [lia|]. unfold in_u. lia.
Qed.

Lemma s64_neg q b :
  in_u 64 q -> s64 (arith64_neg q b) = s64 (if b <? 0 then - q else q).
Proof.
  intros Hq. rewrite arith64_neg_spec by done. destruct (b <? 0); [|done].
  unfold s64, u64. by rewrite swrap_wrap.
Qed.

Lemma abs_div_range a b : in_s 64 a -> b <> 0 -> in_u 64 (Z.abs a / Z.abs b) /\ in_u 64 (Z.abs a mod Z.abs b).
Proof.
  unfold in_s, in_u. change (64 - 1) with 63. intros Ha Hb.
  assert (0 <= Z.abs a / Z.abs b <= Z.abs a).
  { split; [apply Z.div_pos; lia|]. apply Z.div_le_upper_bound; nia. }
  pose proof (Z.mod_le (Z.abs a) (Z.abs b)). pose proof (Z.mod_pos_bound (Z.abs a) (Z.abs b)). lia.
Qed.

(** Signed 64-bit division and remainder truncate toward zero, like C's
    [/] and [%]; the quotient is reduced to 64 bits, which matters only for
    [LLONG_MIN / -1]; a zero divisor raises the divide error. *)
Theorem signed_division_spec a b :
  in_s 64 a -> in_s 64 b ->
  __divdi3 a b = (if b =? 0 then Throw DIVIDE_BY_ZERO else Ok (s64 (Z.quot a b))) /\
  __moddi3 a b = (if b =? 0 then Throw DIVIDE_BY_ZERO else Ok (Z.rem a b)).
Proof.
  intros Ha Hb. unfold __divdi3, __moddi3. rewrite !arith64_abs_spec by done.
  assert (in_u 64 (Z.abs a) /\ in_u 64 (Z.abs b)) as [Hua Hub].
  { unfold in_u, in_s in *. change (64 - 1) with 63 in *. lia. }
  destruct (Z.eqb_spec b 0) as [->|Hz]; [by rewrite divmoddi4_zero|].
  rewrite divmoddi4_spec by (done || lia). cbn.
  destruct (abs_div_range a b) as [Hq Hr]; [done..|]. rewrite !s64_neg by done. split; f_equal.
  - rewrite Z.quot_div by done. f_equal. pose proof (Z.lxor_nonneg a b).
    assert (a = 0 -> Z.abs a / Z.abs b = 0) by (intros ->; apply Z.div_0_l; lia).
    generalize dependent (Z.abs a / Z.abs b). intros q ? ?.
    destruct (Z.ltb_spec (Z.lxor a b) 0), (Z.sgn_spec a), (Z.sgn_spec b); nia.
  - rewrite Z.rem_mod by done. unfold s64. rewrite swrap_small; [|lia|].
    + assert (a = 0 -> Z.abs a mod Z.abs b = 0) by (intros ->; apply Z.mod_0_l; lia).
      generalize dependent (Z.abs a mod Z.abs b). intros r ? ?.
      destruct (Z.ltb_spec a 0), (Z.sgn_spec a); nia.
    + pose proof (Z.mod_pos_bound (Z.abs a) (Z.abs b)). unfold in_s in *. change (64 - 1) with 63 in *.
      destruct (a <? 0); lia.
Qed.

Lemma signed_division_witness :
  __divdi3 (-17) 5 = Ok (-3) /\ __moddi3 (-17) 5 = Ok (-2).
Proof. apply (signed_division_spec (-17) 5); done. Defined.

(** ** Population count *)

Fixpoint bitsum (n : nat) (a : Z) : Z :=
  match n with O => 0 | S n => a mod 2 + bitsum n (a / 2) end.

(** A byte repeated [n] times, and a function applied to each of [n] bytes. *)
Fixpoint rep (m : Z) (n : nat) : Z :=
  match n with O => 0 | S n => m + 256 * rep m n end.
Fixpoint pack (f : Z -> Z) (n : nat) (a : Z) : Z :=
  match n with O => 0 | S n => f (a mod 256) + 256 * pack f n (a / 256) end.

Definition byte (r : Z) : Prop := 0 <= r < 256.

(** A decidable statement about all bytes is decided by evaluation. *)
Lemma forall_byte (P : Z -> bool) :
  forallb P (seqZ 0 256) = true -> forall r, byte r -> P r = true.
Proof.
  rewrite forallb_forall. intros H r Hr. apply H. apply list_elem_of_In, elem_of_seqZ.
  unfold byte in Hr. lia.
Qed.

Lemma byte_mod a : byte (a mod 256).
Proof. apply Z.mod_pos_bound. lia. Qed.

Lemma pack_compose f g n a :
  (forall r, byte r -> byte (g r)) -> pack f n (pack g n a) = pack (fun r => f (g r)) n a.
Proof.
  intros Hg. revert a. induction n as [|n IH]; intros a; cbn [pack]; [done|].
  pose proof (Hg _ (byte_mod a)) as Hb. unfold byte in Hb.
  rewrite (Z.mul_comm 256), Z_mod_plus_full, Z.mod_small, Z.div_add, Z.div_small by lia.
  by rewrite Z.add_0_l, IH.
Qed.

Lemma pack_ext f g n a :
  (forall r, byte r -> f r = g r) -> pack f n a = pack g n a.
Proof.
  intros H. revert a. induction n as [|n IH]; intros a; cbn [pack]; [done|].
  by rewrite (H _ (byte_mod a)), IH.
Qed.

Lemma byte_split r q i : byte r -> 0 <= i ->
  Z.testbit (r + 256 * q) i = if i <? 8 then Z.testbit r i else Z.testbit q (i - 8).
Proof.
  intros Hr Hi. replace (r + 256 * q) with (Z.lor r (q ≪ 8)).
  2:{ rewrite lor_shift_add by (done || lia). lia. }
  rewrite Z.lor_spec, testbit_shiftl by done.
  destruct (Z.ltb_spec i 8), (Z.leb_spec 8 i); try lia; cbn; [apply orb_false_r|].
  by rewrite (testbit_high 8 r).
Qed.

(** Masking after a right shift by [s] works on bytes when the mask keeps no bit
    that comes from the next byte. *)
Lemma land_shift_bytes s m n r q :
  0 <= s <= 8 -> 0 <= m < 2 ^ (8 - s) -> byte r ->
  Z.land ((r + 256 * q) ≫ s) (m + 256 * n) = Z.land (r ≫ s) m + 256 * Z.land (q ≫ s) n.
Proof.
  intros Hs Hm Hr.
  assert (byte m) as Hmb.
  { split; [lia|]. change 256 with (2 ^ 8). pose proof (Z.pow_le_mono_r 2 (8 - s) 8). lia. }
  assert (byte (Z.land (r ≫ s) m)) as Hb.
  { split; [apply Z.land_nonneg; lia|]. change 256 with (2 ^ 8).
    destruct (decide (Z.land (r ≫ s) m = 0)) as [->|]; [lia|].
    assert (0 <= Z.land (r ≫ s) m) by (apply Z.land_nonneg; lia).
    apply Z.log2_lt_pow2; [lia|].
    assert (0 <= r ≫ s) by (apply Z.shiftr_nonneg; unfold byte in Hr; lia).
    pose proof (Z.log2_land (r ≫ s) m ltac:(lia) ltac:(lia)).
    assert (Z.log2 m < 8); [|lia]. destruct (decide (m = 0)) as [->|]; [done|].
    apply Z.log2_lt_pow2; unfold byte in Hmb; lia. }
  apply Z.bits_inj'. intros i Hi.
  rewrite Z.land_spec, Z.shiftr_spec, !byte_split by (done || lia).
  rewrite !Z.land_spec, !Z.shiftr_spec by lia.
  destruct (Z.ltb_spec i 8), (Z.ltb_spec (i + s) 8); try lia.
  - done.
  - rewrite (testbit_high (8 - s) m), !andb_false_r by (done || lia). done.
  - rewrite Z.shiftr_spec by lia. do 2 f_equal. lia.
Qed.

Definition swar1 (r : Z) : Z := r - Z.land (r ≫ 1) 0x55.
Definition swar2 (r : Z) : Z := Z.land (r ≫ 2) 0x33 + Z.land r 0x33.
Definition swar3 (r : Z) : Z := Z.land (r + (r ≫ 4)) 0x0F.

Lemma byte_parts a : a = a mod 256 + 256 * (a / 256).
Proof. pose proof (Z.div_mod a 256). lia. Qed.

Lemma pow256_S (n : nat) : 256 ^ Z.of_nat (S n) = 256 * 256 ^ Z.of_nat n.
Proof. rewrite Nat2Z.inj_succ, Z.pow_succ_r by lia. done. Qed.

Lemma div256_range a (n : nat) :
  0 <= a < 256 ^ Z.of_nat (S n) -> 0 <= a / 256 < 256 ^ Z.of_nat n.
Proof.
  rewrite pow256_S. intros. split; [apply Z.div_pos; lia|]. apply Z.div_lt_upper_bound; lia.
Qed.

Lemma swar1_pack n a :
  0 <= a < 256 ^ Z.of_nat n -> a - Z.land (a ≫ 1) (rep 0x55 n) = pack swar1 n a.
Proof.
  revert a. induction n as [|n IH]; intros a Ha; cbn [pack rep].
  - rewrite Z.land_0_r. cbn in Ha. lia.
  - rewrite <- IH by by apply div256_range. rewrite (byte_parts a) at 1 2.
    rewrite land_shift_bytes by (apply byte_mod || lia). unfold swar1. lia.
Qed.

Lemma swar2_pack n a :
  0 <= a < 256 ^ Z.of_nat n ->
  Z.land (a ≫ 2) (rep 0x33 n) + Z.land a (rep 0x33 n) = pack swar2 n a.
Proof.
  revert a. induction n as [|n IH]; intros a Ha; cbn [pack rep].
  - rewrite !Z.land_0_r. cbn in Ha. lia.
  - rewrite <- IH by by apply div256_range. rewrite (byte_parts a) at 1 2.
    rewrite land_shift_bytes by (apply byte_mod || lia).
    rewrite <- (Z.shiftr_0_r (a mod 256 + _)), land_shift_bytes by (apply byte_mod || lia).
    rewrite !Z.shiftr_0_r. unfold swar2. lia.
Qed.

Lemma swar3_pack g n a :
  (forall r, byte r -> 0 <= g r <= 68 /\ g r mod 16 <= 4) ->
  Z.land (pack g n a + (pack g n a ≫ 4)) (rep 0x0F n) = pack (fun r => swar3 (g r)) n a /\
  0 <= pack g n a /\ pack g n a mod 16 <= 4.
Proof.
  intros Hg. revert a. induction n as [|n IH]; intros a; cbn [pack rep]; [done|].
  destruct (IH (a / 256)) as (IH1 & Hq & Hq16). destruct (Hg _ (byte_mod a)) as [Hr Hr16].
  set (r := g (a mod 256)) in *. set (q := pack g n (a / 256)) in *. rewrite <- IH1. clear IH IH1.
  split; [|split; [lia|]].
  - pose proof (Z.div_mod q 16). pose proof (Z.mod_pos_bound q 16).
    replace (r + 256 * q + ((r + 256 * q) ≫ 4))
      with (r + (r ≫ 4) + 16 * (q mod 16) + 256 * (q + (q ≫ 4))).
    2:{ rewrite !Z.shiftr_div_pow2 by lia. change (2 ^ 4) with 16.
        replace (r + 256 * q) with (r + 16 * q * 16) by lia. rewrite Z.div_add by lia. lia. }
    set (t := r + (r ≫ 4) + 16 * (q mod 16)).
    assert (byte t) as Ht.
    { unfold t, byte. rewrite Z.shiftr_div_pow2 by lia. change (2 ^ 4) with 16.
      pose proof (Z.div_lt_upper_bound r 16 5). pose proof (Z.div_pos r 16). lia. }
    rewrite <- (Z.shiftr_0_r (t + _)), land_shift_bytes by (done || lia). rewrite !Z.shiftr_0_r.
    f_equal. unfold swar3, t. change 15 with (Z.ones 4). rewrite !Z.land_ones by lia. change (2 ^ 4) with 16.
    rewrite (Z.mul_comm 16), Z_mod_plus_full. done.
  - replace (r + 256 * q) with (r + 16 * q * 16) by lia. by rewrite Z_mod_plus_full.
Qed.

Lemma swar_bytes r :
  byte r -> byte (swar1 r) /\ (0 <= swar2 (swar1 r) <= 68 /\ swar2 (swar1 r) mod 16 <= 4) /\
            swar3 (swar2 (swar1 r)) = bitsum 8 r.
Proof.
  intros Hr.
  pose proof (forall_byte (fun r =>
    (0 <=? swar1 r) && (swar1 r <? 256) && (0 <=? swar2 (swar1 r)) && (swar2 (swar1 r) <=? 68) &&
    (swar2 (swar1 r) mod 16 <=? 4) && (swar3 (swar2 (swar1 r)) =? bitsum 8 r)) eq_refl r Hr) as H.
  cbv beta in H. unfold byte. lia.
Qed.

Lemma bitsum_mod k a : bitsum k (a mod 2 ^ Z.of_nat k) = bitsum k a.
Proof.
  revert a. induction k as [|k IH]; intros a; [done|]. cbn [bitsum].
  rewrite Nat2Z.inj_succ, Z.pow_succ_r by lia.
  assert (0 < 2 ^ Z.of_nat k) by (apply Z.pow_pos_nonneg; lia).
  rewrite Z.rem_mul_r by lia. rewrite (Z.mul_comm 2 (_ mod _)), Z_mod_plus_full, Zmod_mod.
  rewrite Z.div_add by lia. rewrite (Z.div_small (a mod 2)) by (apply Z.mod_pos_bound; lia).
  by rewrite Z.add_0_l, IH.
Qed.

Lemma bitsum_app k n a : bitsum (k + n) a = bitsum k a + bitsum n (a / 2 ^ Z.of_nat k).
Proof.
  revert a. induction k as [|k IH]; intros a; cbn [bitsum Nat.add].
  - by rewrite Z.div_1_r.
  - rewrite IH, Z.div_div by lia. rewrite Nat2Z.inj_succ, Z.pow_succ_r by lia. lia.
Qed.

Lemma bitsum_byte n a :
  bitsum (8 + n) a = bitsum 8 (a mod 256) + bitsum n (a / 256).
Proof. rewrite bitsum_app. f_equal. symmetry. apply (bitsum_mod 8). Qed.

Lemma bitsum_range k a : 0 <= bitsum k a <= Z.of_nat k.
Proof.
  revert a. induction k as [|k IH]; intros a; cbn [bitsum]; [lia|].
  pose proof (IH (a / 2)). pose proof (Z.mod_pos_bound a 2). lia.
Qed.

Lemma pack_range g n a :
  (forall r, byte r -> byte (g r)) -> 0 <= pack g n a < 256 ^ Z.of_nat n.
Proof.
  intros Hg. revert a. induction n as [|n IH]; intros a; cbn [pack]; [cbn; lia|].
  rewrite pow256_S. pose proof (IH (a / 256)). destruct (Hg _ (byte_mod a)). lia.
Qed.

(** The first three steps leave in each byte the number of its bits. *)
Lemma swar_pack n a :
  0 <= a < 256 ^ Z.of_nat n ->
  let a1 := wrap (8 * Z.of_nat n) (a - Z.land (a ≫ 1) (rep 0x55 n)) in
  let a2 := wrap (8 * Z.of_nat n) (Z.land (a1 ≫ 2) (rep 0x33 n) + Z.land a1 (rep 0x33 n)) in
  Z.land (wrap (8 * Z.of_nat n) (a2 + (a2 ≫ 4))) (rep 0x0F n) = pack (bitsum 8) n a.
Proof.
  intros Ha. cbv zeta.
  assert (forall x, 0 <= x < 256 ^ Z.of_nat n -> wrap (8 * Z.of_nat n) x = x) as Hw.
  { intros x Hx. apply wrap_small. unfold in_u. rewrite Z.pow_mul_r by lia. done. }
  rewrite swar1_pack by done. rewrite (Hw (pack swar1 n a)) by (apply pack_range, swar_bytes).
  rewrite swar2_pack by (apply pack_range, swar_bytes).
  rewrite pack_compose by apply swar_bytes.
  set (g := fun r => swar2 (swar1 r)).
  assert (forall r, byte r -> byte (g r)) as Hg.
  { intros r Hr. destruct (swar_bytes r Hr) as (_ & [? _] & _). unfold byte, g. lia. }
  rewrite (Hw (pack g n a)) by by apply pack_range.
  destruct (swar3_pack g n a) as (H3 & _).
  { intros r Hr. apply (swar_bytes r Hr). }
  rewrite <- (pack_ext (fun r => swar3 (g r)) (bitsum 8)) by apply swar_bytes.
  rewrite <- H3. unfold wrap. rewrite <- !Z.land_ones, <- Z.land_assoc by lia. f_equal.
  rewrite Z.land_comm, Z.land_ones by lia. apply Z.mod_small. rewrite Z.pow_mul_r by lia.
  change (2 ^ 8) with 256. clear. induction n as [|n IH]; [cbn; lia|]. rewrite pow256_S. cbn [rep]. lia.
Qed.

(** Adding up the bytes. *)
Lemma shiftr_parts k q r : 0 <= k -> 0 <= r < 2 ^ k -> (r + 2 ^ k * q) ≫ k = q.
Proof.
  intros. rewrite Z.shiftr_div_pow2 by done. symmetry. apply (Z.div_unique _ _ _ r); lia.
Qed.

(** the innermost reduction, when its argument is in range *)
Ltac wrap_inner w :=
  match goal with
  | |- context [wrap w ?x] =>
      lazymatch x with context [wrap] => fail | _ => rewrite (wrap_small w x) by (unfold in_u; lia) end
  end.

Lemma fold_bytes4 b0 b1 b2 b3 :
  0 <= b0 <= 8 -> 0 <= b1 <= 8 -> 0 <= b2 <= 8 -> 0 <= b3 <= 8 ->
  let a := b0 + 256 * (b1 + 256 * (b2 + 256 * b3)) in
  let a := wrap 32 (a + (a ≫ 16)) in
  Z.land (wrap 32 (a + (a ≫ 8))) 63 = b0 + b1 + b2 + b3.
Proof.
  intros ? ? ? ?. cbv zeta. change 63 with (Z.ones 6). rewrite Z.land_ones by lia.
  replace (b0 + 256 * (b1 + 256 * (b2 + 256 * b3)))
    with (b0 + 256 * b1 + 2 ^ 16 * (b2 + 256 * b3)) by lia.
  rewrite shiftr_parts by lia. wrap_inner 32.
  replace (b0 + 256 * b1 + 2 ^ 16 * (b2 + 256 * b3) + (b2 + 256 * b3))
    with (b0 + b2 + 2 ^ 8 * (b1 + b3 + 256 * (b2 + 256 * b3))) by lia.
  rewrite shiftr_parts by lia. wrap_inner 32.
  symmetry. apply (Z.mod_unique_pos _ _ (4 * (b1 + b3 + 257 * (b2 + 256 * b3)))); lia.
Qed.

Lemma fold_bytes8 b0 b1 b2 b3 b4 b5 b6 b7 :
  0 <= b0 <= 8 -> 0 <= b1 <= 8 -> 0 <= b2 <= 8 -> 0 <= b3 <= 8 ->
  0 <= b4 <= 8 -> 0 <= b5 <= 8 -> 0 <= b6 <= 8 -> 0 <= b7 <= 8 ->
  let h := b4 + 256 * (b5 + 256 * (b6 + 256 * b7)) in
  let a := b0 + 256 * (b1 + 256 * (b2 + 256 * (b3 + 256 * h))) in
  let a := wrap 64 (a + (a ≫ 32)) in
  let a := wrap 64 (a + (a ≫ 16)) in
  Z.land (wrap 64 (a + (a ≫ 8))) 127 = b0 + b1 + b2 + b3 + b4 + b5 + b6 + b7.
Proof.
  intros ? ? ? ? ? ? ? ?. set (h := b4 + 256 * (b5 + 256 * (b6 + 256 * b7))). cbv zeta.
  assert (0 <= h <= 8 * 16843009) by lia.
  change 127 with (Z.ones 7). rewrite Z.land_ones by lia.
  replace (b0 + 256 * (b1 + 256 * (b2 + 256 * (b3 + 256 * h))))
    with (b0 + 256 * (b1 + 256 * (b2 + 256 * b3)) + 2 ^ 32 * h) by lia.
  rewrite shiftr_parts by lia. wrap_inner 64.
  replace (b0 + 256 * (b1 + 256 * (b2 + 256 * b3)) + 2 ^ 32 * h + h)
    with (b0 + b4 + 256 * (b1 + b5) + 2 ^ 16 * (b2 + b6 + 256 * (b3 + b7) + 2 ^ 16 * h)) by lia.
  set (m := b2 + b6 + 256 * (b3 + b7) + 2 ^ 16 * h).
  rewrite shiftr_parts by lia. wrap_inner 64.
  replace (b0 + b4 + 256 * (b1 + b5) + 2 ^ 16 * m + m)
    with (b0 + b4 + b2 + b6 + 2 ^ 8 * (b1 + b5 + (b3 + b7) + 2 ^ 8 * (m + h))) by lia.
  rewrite shiftr_parts by lia. wrap_inner 64.
  symmetry. apply (Z.mod_unique_pos _ _ (2 * (b1 + b5 + (b3 + b7) + 257 * (m + h)))); lia.
Qed.

(** The branch-free population counts give the number of one bits, for
    every 32-bit and every 64-bit value. *)
Theorem popcount_spec a b :
  in_u 32 a -> in_u 64 b -> __popcountsi2 a = bitsum 32 a /\ __popcountdi2 b = bitsum 64 b.
Proof.
  intros Ha Hb. split.
  - pose proof (swar_pack 4 a Ha) as Hs. cbv zeta in Hs.
    change (8 * Z.of_nat 4) with 32 in Hs. unfold __popcountsi2, u32. cbv zeta.
    change 0x55555555 with (rep 0x55 4). change 0x33333333 with (rep 0x33 4).
    change 0x0F0F0F0F with (rep 0x0F 4). rewrite Hs. clear Hs. cbn [pack]. rewrite Z.mul_0_r, Z.add_0_r.
    rewrite fold_bytes4 by apply bitsum_range.
    rewrite (bitsum_byte 24), (bitsum_byte 16), (bitsum_byte 8).
    pose proof (bitsum_mod 8 (a / 256 / 256 / 256)) as E. change (2 ^ Z.of_nat 8) with 256 in E. lia.
  - pose proof (swar_pack 8 b Hb) as Hs. cbv zeta in Hs.
    change (8 * Z.of_nat 8) with 64 in Hs. unfold __popcountdi2, u64. cbv zeta.
    change 0x5555555555555555 with (rep 0x55 8). change 0x3333333333333333 with (rep 0x33 8).
    change 0x0F0F0F0F0F0F0F0F with (rep 0x0F 8). rewrite Hs. clear Hs. cbn [pack]. rewrite Z.mul_0_r, Z.add_0_r.
    rewrite fold_bytes8 by apply bitsum_range.
    rewrite (bitsum_byte 56), (bitsum_byte 48), (bitsum_byte 40), (bitsum_byte 32), (bitsum_byte 24), (bitsum_byte 16), (bitsum_byte 8).
    pose proof (bitsum_mod 8 (b / 256 / 256 / 256 / 256 / 256 / 256 / 256)) as E. change (2 ^ Z.of_nat 8) with 256 in E. lia.
Qed.

Lemma popcount_witness : __popcountsi2 0xdeadbeef = 24 /\ __popcountdi2 (2 ^ 64 - 1) = 64.
Proof.
  destruct (popcount_spec 0xdeadbeef (2 ^ 64 - 1)) as [-> ->]; [done..|]. split; reflexivity.
Defined.
