(* ===== verification/Address.v ===== *)
(** * Address.v: raw memory

    [lib/util/base/Address] at its instance [Address<uint32_t>]: pointer arithmetic,
    typed accesses and the range and string operations on byte-addressed memory.
    A [T] that is added to a pointer wraps around at [2^32]. *)

From stdpp Require Import functions.
From S2P Require Import Prelude Bits.

(** Byte-addressed memory. *)
Definition Memory := Z -> Z.

Definition bytes_ok (m : Memory) : Prop := forall a, in_u 8 (m a).

(** ** Sequences of bytes *)

Fixpoint write_bytes (a : Z) (l : list Z) (m : Memory) : Memory :=
  match l with [] => m | b :: l => write_bytes (u32 (a + 1)) l (<[a := b]> m) end.

Fixpoint read_bytes (n : nat) (a : Z) (m : Memory) : list Z :=
  match n with O => [] | S n => m a :: read_bytes n (u32 (a + 1)) m end.

(** Little-endian numbers. *)
Fixpoint le_combine (l : list Z) : Z :=
  match l with [] => 0 | b :: l => Z.lor b (le_combine l ≪ 8) end.

Fixpoint le_split (n : nat) (v : Z) : list Z :=
  match n with O => [] | S n => Z.land v 255 :: le_split n (v ≫ 8) end.

(** ** Operations *)
Module Address.

Definition eq_address (address other : Z) : bool := address =? other.
Definition ne_address (address other : Z) : bool := negb (address =? other).
Definition get (address : Z) : Z := address.
Definition set (address newAddress : Z) : Z := newAddress.
Definition add (address value : Z) : Z := set address (u32 (address + value)).
Definition subtract (address value : Z) : Z := set address (u32 (address - value)).

Definition alignUp (address alignment : Z) : Z :=
  if alignment =? 0 then set address address
  else let alignment := u32 (alignment - 1) in
       set address (Z.land (u32 (address + alignment)) (u32 (Z.lnot alignment))).

Definition getByte (address offset : Z) (m : Memory) : Z := m (u32 (address + offset)).
Definition getShort (address offset : Z) (m : Memory) : Z := le_combine (read_bytes 2 (u32 (address + offset)) m).
Definition getInt (address offset : Z) (m : Memory) : Z := le_combine (read_bytes 4 (u32 (address + offset)) m).
Definition getLong (address offset : Z) (m : Memory) : Z := le_combine (read_bytes 8 (u32 (address + offset)) m).

Definition setByte (address value offset : Z) (m : Memory) : Memory := <[u32 (address + offset) := value]> m.
Definition setShort (address value offset : Z) (m : Memory) : Memory := write_bytes (u32 (address + offset)) (le_split 2 value) m.
Definition setInt (address value offset : Z) (m : Memory) : Memory := write_bytes (u32 (address + offset)) (le_split 4 value) m.
Definition setLong (address value offset : Z) (m : Memory) : Memory := write_bytes (u32 (address + offset)) (le_split 8 value) m.

(** [for (i = 0; pointer[i] != 0; i++) {}], with fuel: memory need not hold a
    terminated string. *)
Fixpoint stringLength_loop (fuel : nat) (pointer i : Z) (m : Memory) : outcome Z :=
  match fuel with
  | O => Loops
  | S fuel => if m (u32 (pointer + i)) =? 0 then Ok i else stringLength_loop fuel pointer (u32 (i + 1)) m
  end.

Definition stringLength (fuel : nat) (address : Z) (m : Memory) : outcome Z := stringLength_loop fuel address 0 m.

(** [while (n-- > 0) *target++ = value] *)
Fixpoint fill_bytes (n : nat) (target value : Z) (m : Memory) : Memory :=
  match n with O => m | S n => fill_bytes n (u32 (target + 1)) value (<[target := value]> m) end.

Fixpoint fill_longs (n : nat) (target value : Z) (m : Memory) : Memory :=
  match n with O => m | S n => fill_longs n (u32 (target + 8)) value (write_bytes target (le_split 8 value) m) end.

Definition setRange (address value length : Z) (m : Memory) : Memory :=
  if length <? 16 then fill_bytes (Z.to_nat length) address value m
  else
    let alignDifference := address mod 8 in
    let beforeAlignTarget := address in
    let remainingBlocks := u32 (length - alignDifference) / 8 in
    let target := u32 (address + alignDifference) in
    let longValue := value in
    let longValue := Z.lor (Z.lor (Z.lor (Z.lor (Z.lor (Z.lor (Z.lor longValue (u64 (longValue ≪ 8)))
      (u64 (longValue ≪ 16))) (u64 (longValue ≪ 24))) (u64 (longValue ≪ 32))) (u64 (longValue ≪ 40)))
      (u64 (longValue ≪ 48))) (u64 (longValue ≪ 56)) in
    let remainingBytes := u32 (length - alignDifference) mod 8 in
    let restTarget := u32 (target + u32 (remainingBlocks * 8)) in
    let m := fill_bytes (Z.to_nat alignDifference) beforeAlignTarget value m in
    let m := fill_longs (Z.to_nat remainingBlocks) target longValue m in
    fill_bytes (Z.to_nat remainingBytes) restTarget value m.

(** [while (n-- > 0) *target++ = *source++] *)
Fixpoint copy_bytes (n : nat) (target source : Z) (m : Memory) : Memory :=
  match n with O => m | S n => copy_bytes n (u32 (target + 1)) (u32 (source + 1)) (<[target := m source]> m) end.

Fixpoint copy_longs (n : nat) (target source : Z) (m : Memory) : Memory :=
  match n with
  | O => m
  | S n => copy_longs n (u32 (target + 8)) (u32 (source + 8))
             (write_bytes target (le_split 8 (le_combine (read_bytes 8 source m))) m)
  end.

Definition copyRange (address sourceAddress length : Z) (m : Memory) : Memory :=
  if length <? 16 then copy_bytes (Z.to_nat length) address sourceAddress m
  else
    let alignDifference := address mod 8 in
    let remainingBlocks := u32 (length - alignDifference) / 8 in
    let source := u32 (sourceAddress + alignDifference) in
    let target := u32 (address + alignDifference) in
    let remainingBytes := u32 (length - alignDifference) mod 8 in
    let restSource := u32 (source + u32 (remainingBlocks * 8)) in
    let restTarget := u32 (target + u32 (remainingBlocks * 8)) in
    let m := copy_bytes (Z.to_nat alignDifference) address sourceAddress m in
    let m := copy_longs (Z.to_nat remainingBlocks) target source m in
    copy_bytes (Z.to_nat remainingBytes) restTarget restSource m.

Fixpoint copyString_loop (fuel : nat) (target source i : Z) (m : Memory) : outcome (Z * Memory) :=
  match fuel with
  | O => Loops
  | S fuel =>
    if m (u32 (source + i)) =? 0 then Ok (i, m)
    else copyString_loop fuel target source (u32 (i + 1)) (<[u32 (target + i) := m (u32 (source + i))]> m)
  end.

Definition copyString (fuel : nat) (address sourceAddress : Z) (m : Memory) : outcome Memory :=
  '(i, m) ← copyString_loop fuel address sourceAddress 0 m;
  Ok (<[u32 (address + i) := 0]> m).

(** [copyString] with [maxBytes]: both loops stop at [maxBytes]. *)
Fixpoint copyMax_loop (n : nat) (target source i : Z) (m : Memory) : Z * Memory :=
  match n with
  | O => (i, m)
  | S n =>
    if m (u32 (source + i)) =? 0 then (i, m)
    else copyMax_loop n target source (u32 (i + 1)) (<[u32 (target + i) := m (u32 (source + i))]> m)
  end.

Definition copyString_max (address sourceAddress maxBytes : Z) (m : Memory) : Memory :=
  let '(i, m) := copyMax_loop (Z.to_nat maxBytes) address sourceAddress 0 m in
  let m := <[u32 (address + i) := 0]> m in
  fill_bytes (Z.to_nat (maxBytes - i)) (u32 (address + i)) 0 m.

Fixpoint compareRange_loop (n : nat) (pointer other i : Z) (m : Memory) : Z :=
  match n with
  | O => i
  | S n => if m (u32 (pointer + i)) =? m (u32 (other + i)) then compareRange_loop n pointer other (u32 (i + 1)) m else i
  end.

Definition compareRange (address otherAddress length : Z) (m : Memory) : Z :=
  let i := compareRange_loop (Z.to_nat length) address otherAddress 0 m in
  if i =? length then 0 else m (u32 (address + i)) - m (u32 (otherAddress + i)).

Fixpoint compareString_loop (fuel : nat) (pointer other i : Z) (m : Memory) : outcome Z :=
  match fuel with
  | O => Loops
  | S fuel =>
    let a := m (u32 (pointer + i)) in
    let b := m (u32 (other + i)) in
    if negb (a =? 0) && negb (b =? 0) && (a =? b) then compareString_loop fuel pointer other (u32 (i + 1)) m else Ok i
  end.

Definition compareString (fuel : nat) (address otherAddress : Z) (m : Memory) : outcome Z :=
  i ← compareString_loop fuel address otherAddress 0 m;
  Ok (m (u32 (address + i)) - m (u32 (otherAddress + i))).

Fixpoint searchCharacter_loop (fuel : nat) (pointer character i : Z) (m : Memory) : outcome Z :=
  match fuel with
  | O => Loops
  | S fuel =>
    if negb (m (u32 (pointer + i)) =? 0) && negb (m (u32 (pointer + i)) =? character)
    then searchCharacter_loop fuel pointer character (u32 (i + 1)) m else Ok i
  end.

Definition searchCharacter (fuel : nat) (address character : Z) (m : Memory) : outcome Z :=
  i ← searchCharacter_loop fuel address character 0 m;
  Ok (if m (u32 (address + i)) =? 0 then set address 0 else add address i).

End Address.

(** ** Bytes in memory *)

Lemma mem_insert_eq (m : Memory) a b : (<[a := b]> m : Memory) a = b.
Proof. apply fn_lookup_insert. Qed.
Lemma mem_insert_ne (m : Memory) a b x : x <> a -> (<[a := b]> m : Memory) x = m x.
Proof. intros Hx. by apply fn_lookup_insert_ne. Qed.

Lemma write_bytes_lookup a l m x :
  0 <= a -> a + zlen l <= 2 ^ 32 ->
  write_bytes a l m x = if (a <=? x) && (x <? a + zlen l) then default 0 (l !! Z.to_nat (x - a)) else m x.
Proof.
  revert a m. induction l as [|b l IH]; intros a m Ha Hl; cbn [write_bytes].
  - unfold zlen. cbn [length Z.of_nat]. rewrite Z.add_0_r. destruct (Z.leb_spec a x), (Z.ltb_spec x a); (done || lia).
  - unfold zlen in *. cbn [length] in *. rewrite Nat2Z.inj_succ in *. destruct (decide (l = [])) as [->|Hne].
    + cbn [write_bytes length] in *. change (Z.succ (Z.of_nat 0)) with 1 in *. destruct (decide (x = a)) as [->|Hx].
      * rewrite mem_insert_eq, Z.sub_diag. cmp_cases. done.
      * rewrite mem_insert_ne by done. cmp_cases; done.
    + assert (0 < Z.of_nat (length l)) by (destruct l; [done|cbn; lia]).
      replace (u32 (a + 1)) with (a + 1) by (unwrap; lia). rewrite IH by lia. destruct (decide (x = a)) as [->|Hx].
      * rewrite mem_insert_eq, Z.sub_diag. cmp_cases. done.
      * rewrite mem_insert_ne by done. replace (a + 1 + Z.of_nat (length l)) with (a + Z.succ (Z.of_nat (length l))) by lia.
        destruct (Z.leb_spec (a + 1) x), (Z.leb_spec a x); try lia; [|done]. cbn [andb].
        destruct (x <? a + Z.succ (Z.of_nat (length l))); [|done].
        replace (Z.to_nat (x - a)) with (S (Z.to_nat (x - (a + 1)))) by lia. done.
Qed.

Lemma write_bytes_app a l1 l2 m :
  0 <= a -> a + zlen l1 < 2 ^ 32 \/ l2 = [] ->
  write_bytes a (l1 ++ l2) m = write_bytes (u32 (a + zlen l1)) l2 (write_bytes a l1 m).
Proof.
  intros Ha [Hl| ->]; [|by rewrite app_nil_r]. revert a m Ha Hl. induction l1 as [|b l1 IH]; intros a m Ha Hl.
  - unfold zlen. cbn. rewrite Z.add_0_r. unfold u32. rewrite wrap_small; [done|]. unfold zlen in Hl. cbn in Hl. unfold in_u. lia.
  - unfold zlen in *. cbn [length app write_bytes] in *. rewrite Nat2Z.inj_succ in *.
    replace (u32 (a + 1)) with (a + 1) by (unwrap; lia). rewrite IH by lia. do 2 f_equal. lia.
Qed.

Lemma read_bytes_length n a m : length (read_bytes n a m) = n.
Proof. revert a. induction n as [|n IH]; intros a; cbn; [done|]. by rewrite IH. Qed.

Lemma read_bytes_lookup n a m i :
  0 <= a -> a + Z.of_nat n <= 2 ^ 32 -> (i < n)%nat -> read_bytes n a m !! i = Some (m (a + Z.of_nat i)).
Proof.
  revert a i. induction n as [|n IH]; intros a i Ha Hn Hi; [lia|]. cbn [read_bytes]. destruct i as [|i].
  - cbn. by rewrite Z.add_0_r.
  - change ((?x :: ?l) !! S i) with (l !! i). replace (u32 (a + 1)) with (a + 1) by (unwrap; lia).
    rewrite IH by lia. do 2 f_equal. lia.
Qed.

Lemma read_bytes_ext n a m m' :
  0 <= a -> a + Z.of_nat n <= 2 ^ 32 -> (forall x, a <= x < a + Z.of_nat n -> m x = m' x) -> read_bytes n a m = read_bytes n a m'.
Proof.
  intros Ha Hn Hx. apply list_eq_same_length with n; [by rewrite read_bytes_length..|]. intros i x y Hi.
  rewrite !read_bytes_lookup by done. intros [= <-] [= <-]. apply Hx. lia.
Qed.

Lemma read_bytes_app n1 n2 a m :
  0 <= a -> a + Z.of_nat n1 < 2 ^ 32 \/ n2 = O ->
  read_bytes (n1 + n2) a m = read_bytes n1 a m ++ read_bytes n2 (u32 (a + Z.of_nat n1)) m.
Proof.
  intros Ha Hn. revert a Ha Hn. induction n1 as [|n1 IH]; intros a Ha Hn.
  - cbn. destruct Hn as [Hn| ->]; [|done]. rewrite Z.add_0_r. unfold u32. rewrite wrap_small; [done|]. unfold in_u. lia.
  - cbn [Nat.add read_bytes app]. f_equal. destruct Hn as [Hn| ->]; [|by rewrite Nat.add_0_r; cbn; rewrite app_nil_r].
    replace (u32 (a + 1)) with (a + 1) by (unwrap; lia). rewrite IH by lia. do 2 f_equal. f_equal. lia.
Qed.

(** ** Little-endian numbers *)

Lemma le_combine_range l : Forall (in_u 8) l -> in_u (8 * zlen l) (le_combine l).
Proof.
  unfold zlen. induction 1 as [|b l Hb Hl IH]; cbn [le_combine length]; [cbn; unfold in_u; lia|].
  apply in_u_bits; [lia|]. intros i Hi. rewrite Z.lor_spec, testbit_shiftl by lia.
  rewrite (testbit_high 8 b) by (done || lia). cbn [orb].
  rewrite (testbit_high (8 * Z.of_nat (length l)) (le_combine l)) by (done || lia). apply andb_false_r.
Qed.

Lemma le_split_combine l : Forall (in_u 8) l -> le_split (length l) (le_combine l) = l.
Proof.
  induction 1 as [|b l Hb Hl IH]; [done|]. cbn [length le_split le_combine]. f_equal.
  - apply testbit_bool_inj. intros i Hi. change 255 with (2 ^ 8 - 1). rewrite Z.land_spec, Z.lor_spec, testbit_ones, testbit_shiftl by lia.
    destruct (Z.ltb_spec i 8), (Z.leb_spec 8 i); try lia; cbn [andb]; rewrite ?orb_false_r, ?andb_true_r, ?andb_false_r; [done|].
    symmetry. by apply (testbit_high 8).
  - etransitivity; [|exact IH]. f_equal. apply testbit_bool_inj. intros i Hi. rewrite Z.shiftr_spec, Z.lor_spec, testbit_shiftl by lia.
    rewrite (testbit_high 8 b) by (done || lia). destruct (Z.leb_spec 8 (i + 8)); [|lia]. cbn [orb andb]. f_equal. lia.
Qed.

(** ** Ranges *)
Import Address.Address.

Lemma fill_bytes_write n a v m : fill_bytes n a v m = write_bytes a (replicate n v) m.
Proof. revert a m. induction n as [|n IH]; intros a m; cbn; [done|]. apply IH. Qed.

(** The eight bytes of the repeated value, by computation for every byte. *)
Definition spread (v : Z) : Z :=
  Z.lor (Z.lor (Z.lor (Z.lor (Z.lor (Z.lor (Z.lor v (u64 (v ≪ 8))) (u64 (v ≪ 16))) (u64 (v ≪ 24)))
    (u64 (v ≪ 32))) (u64 (v ≪ 40))) (u64 (v ≪ 48))) (u64 (v ≪ 56)).

Lemma spread_bytes v : in_u 8 v -> le_split 8 (spread v) = replicate 8 v.
Proof.
  intros Hv. assert (H : Forall (fun v => le_split 8 (spread v) = replicate 8 v) (Z.of_nat <$> seq 0 256)).
  { apply (bool_decide_unpack _). vm_compute. done. }
  apply (proj1 (Forall_forall _ _) H). apply list_elem_of_fmap. exists (Z.to_nat v). unfold in_u in Hv. 
  split; [lia|]. apply elem_of_seq. lia.
Qed.

Lemma fill_longs_write n a v m :
  0 <= a -> a + 8 * Z.of_nat n <= 2 ^ 32 -> in_u 8 v ->
  fill_longs n a (spread v) m = write_bytes a (replicate (8 * n) v) m.
Proof.
  intros Ha Hn Hv. revert a m Ha Hn. induction n as [|n IH]; intros a m Ha Hn; [done|]. cbn [fill_longs].
  rewrite spread_bytes by done. replace (8 * S n)%nat with (8 + 8 * n)%nat by lia. rewrite replicate_add.
  assert (Hz : zlen (replicate 8 v) = 8) by done.
  rewrite write_bytes_app; [|done|destruct n; [by right|left; rewrite Hz; lia]]. rewrite Hz.
  destruct (decide (n = O)) as [->|]; [done|].
  replace (u32 (a + 8)) with (a + 8) by (unwrap; lia). apply IH; lia.
Qed.

Lemma setRange_write address value length m :
  0 <= address -> 0 <= length < 2 ^ 32 -> address + length <= 2 ^ 32 -> in_u 8 value ->
  setRange address value length m = write_bytes address (replicate (Z.to_nat length) value) m.
Proof.
  intros Ha Hl Hmax Hv. unfold setRange. destruct (Z.ltb_spec length 16); [apply fill_bytes_write|]. cbv zeta. fold (spread value).
  pose proof (Z.mod_pos_bound address 8 eq_refl) as Hd. set (d := address mod 8) in *.
  replace (u32 (length - d)) with (length - d) by (unwrap; lia).
  pose proof (Z.div_mod (length - d) 8 ltac:(lia)) as Hdm. pose proof (Z.mod_pos_bound (length - d) 8 eq_refl) as Hr.
  set (k := (length - d) / 8) in *. set (r := (length - d) mod 8) in *.
  replace (u32 (address + d)) with (address + d) by (unwrap; lia).
  replace (u32 (k * 8)) with (k * 8) by (unwrap; lia).
  rewrite !fill_bytes_write, fill_longs_write by (done || lia).
  replace (Z.to_nat length) with (Z.to_nat d + (8 * Z.to_nat k + Z.to_nat r))%nat by lia.
  rewrite !replicate_add. rewrite write_bytes_app by (unfold zlen; rewrite ?length_replicate; lia).
  unfold zlen. rewrite length_replicate, Z2Nat.id by lia. replace (u32 (address + d)) with (address + d) by (unwrap; lia).
  rewrite write_bytes_app; [|lia|].
  - unfold zlen. rewrite length_replicate. do 2 f_equal. lia.
  - unfold zlen. rewrite length_replicate. destruct (decide (r = 0)) as [E|]; [right; by rewrite E|left; lia].
Qed.

(** The blockwise setRange gives the same memory as setting the bytes one
    by one. *)
Theorem setRange_bytes address value length m x :
  in_u 32 address -> in_u 32 length -> address + length <= 2 ^ 32 -> in_u 8 value ->
  setRange address value length m x = if (address <=? x) && (x <? address + length) then value else m x.
Proof.
  unfold in_u. intros Ha Hl Hmax Hv. rewrite setRange_write by (done || lia).
  rewrite write_bytes_lookup; unfold zlen; rewrite ?length_replicate; [|lia..]. rewrite Z2Nat.id by lia.
  cmp_cases; [|done..]. rewrite lookup_replicate_2 by lia. done.
Qed.

Lemma setRange_bytes_witness : setRange 0x1003 0xab 40 (fun _ => 0) 0x102a = 0xab.
Proof. rewrite (setRange_bytes 0x1003 0xab 40 (fun _ => 0) 0x102a); [done|unfold in_u; lia..]. Defined.

(** Two ranges of [n] bytes that have no byte in common. *)
Definition apart (t s n : Z) : Prop := t + n <= s \/ s + n <= t.

Lemma write_bytes_outside a l m x :
  0 <= a -> a + zlen l <= 2 ^ 32 -> x < a \/ a + zlen l <= x -> write_bytes a l m x = m x.
Proof. intros. rewrite write_bytes_lookup by done. cmp_cases; done. Qed.

Lemma write_bytes_ok a l m : bytes_ok m -> Forall (in_u 8) l -> bytes_ok (write_bytes a l m).
Proof.
  intros Hm Hl. revert a m Hm. induction Hl as [|b l Hb Hl IH]; intros a m Hm; cbn; [done|]. apply IH.
  intros x. destruct (decide (x = a)) as [->|]; [by rewrite mem_insert_eq|by rewrite mem_insert_ne].
Qed.

Lemma read_bytes_ok n a m : bytes_ok m -> Forall (in_u 8) (read_bytes n a m).
Proof. intros Hm. revert a. induction n as [|n IH]; intros a; cbn; constructor; [apply Hm|apply IH]. Qed.

Lemma zlen_read n a m : zlen (read_bytes n a m) = Z.of_nat n.
Proof. unfold zlen. by rewrite read_bytes_length. Qed.

Lemma copy_bytes_write n t s m :
  0 <= t -> 0 <= s -> t + Z.of_nat n <= 2 ^ 32 -> s + Z.of_nat n <= 2 ^ 32 -> apart t s (Z.of_nat n) ->
  copy_bytes n t s m = write_bytes t (read_bytes n s m) m.
Proof.
  unfold apart. revert t s m. induction n as [|n IH]; intros t s m Ht Hs Hmt Hms Ha; [done|]. cbn [copy_bytes read_bytes write_bytes].
  destruct (decide (n = O)) as [->|]; [done|].
  replace (u32 (t + 1)) with (t + 1) by (unwrap; lia). replace (u32 (s + 1)) with (s + 1) by (unwrap; lia).
  rewrite IH by lia. f_equal. apply read_bytes_ext; [lia|lia|]. intros x Hx. apply mem_insert_ne. lia.
Qed.

Lemma copy_longs_write n t s m :
  bytes_ok m -> 0 <= t -> 0 <= s -> t + 8 * Z.of_nat n <= 2 ^ 32 -> s + 8 * Z.of_nat n <= 2 ^ 32 -> apart t s (8 * Z.of_nat n) ->
  copy_longs n t s m = write_bytes t (read_bytes (8 * n) s m) m.
Proof.
  unfold apart. revert t s m. induction n as [|n IH]; intros t s m Hm Ht Hs Hmt Hms Ha; [done|]. cbn [copy_longs].
  pose proof (le_split_combine (read_bytes 8 s m) (read_bytes_ok 8 s m Hm)) as Hsp. rewrite read_bytes_length in Hsp. rewrite Hsp.
  replace (8 * S n)%nat with (8 + 8 * n)%nat by lia.
  rewrite read_bytes_app; [|done|destruct n; [by right|left; lia]].
  rewrite write_bytes_app; [|done|rewrite zlen_read; destruct n; [by right|left; lia]]. rewrite zlen_read.
  change (Z.of_nat 8) with 8. destruct (decide (n = O)) as [->|]; [done|].
  replace (u32 (t + 8)) with (t + 8) by (unwrap; lia). replace (u32 (s + 8)) with (s + 8) by (unwrap; lia).
  rewrite IH; try lia; [|by apply write_bytes_ok, read_bytes_ok]. f_equal. apply read_bytes_ext; [lia|lia|].
  intros x Hx. apply write_bytes_outside; rewrite ?zlen_read; lia.
Qed.

Lemma copyRange_write t s n m :
  bytes_ok m -> 0 <= t -> 0 <= s -> 0 <= n < 2 ^ 32 -> t + n <= 2 ^ 32 -> s + n <= 2 ^ 32 -> apart t s n ->
  copyRange t s n m = write_bytes t (read_bytes (Z.to_nat n) s m) m.
Proof.
  intros Hm Ht Hs Hn Hmt Hms Ha. unfold copyRange. destruct (Z.ltb_spec n 16).
  { apply copy_bytes_write; rewrite ?Z2Nat.id by lia; (done || lia). }
  cbv zeta. unfold apart in *.
  pose proof (Z.mod_pos_bound t 8 eq_refl) as Hd. set (d := t mod 8) in *.
  replace (u32 (n - d)) with (n - d) by (unwrap; lia).
  pose proof (Z.div_mod (n - d) 8 ltac:(lia)) as Hdm. pose proof (Z.mod_pos_bound (n - d) 8 eq_refl) as Hr.
  set (k := (n - d) / 8) in *. set (r := (n - d) mod 8) in *.
  replace (u32 (t + d)) with (t + d) by (unwrap; lia). replace (u32 (s + d)) with (s + d) by (unwrap; lia).
  replace (u32 (k * 8)) with (8 * k) by (unwrap; lia).
  rewrite (copy_bytes_write (Z.to_nat d)) by (rewrite ?Z2Nat.id by lia; unfold apart; lia).
  set (m1 := write_bytes t (read_bytes (Z.to_nat d) s m) m).
  assert (Hm1 : bytes_ok m1) by (by apply write_bytes_ok, read_bytes_ok).
  assert (H1 : forall x, s + d <= x < s + n -> m1 x = m x).
  { intros x Hx. apply write_bytes_outside; rewrite ?zlen_read; lia. }
  rewrite copy_longs_write; rewrite ?Z2Nat.id by lia; try (done || lia || (unfold apart; lia)).
  set (m2 := write_bytes (t + d) (read_bytes (8 * Z.to_nat k) (s + d) m1) m1).
  assert (H2 : forall x, s + d + 8 * k <= x < s + n -> m2 x = m x).
  { intros x Hx. unfold m2. rewrite write_bytes_outside; rewrite ?zlen_read; try lia. apply H1. lia. }
  replace (Z.to_nat n) with (Z.to_nat d + (8 * Z.to_nat k + Z.to_nat r))%nat by lia.
  rewrite read_bytes_app by lia. rewrite write_bytes_app by (rewrite ?zlen_read; lia). rewrite zlen_read, Z2Nat.id by lia.
  replace (u32 (t + d)) with (t + d) by (unwrap; lia). replace (u32 (s + d)) with (s + d) by (unwrap; lia). fold m1.
  rewrite read_bytes_app; [|lia|destruct (decide (r = 0)) as [->|]; [by right|left; lia]].
  rewrite write_bytes_app; [|lia|rewrite zlen_read; destruct (decide (r = 0)) as [->|]; [by right|left; lia]].
  rewrite zlen_read. replace (Z.of_nat (8 * Z.to_nat k)) with (8 * k) by lia.
  rewrite <- (read_bytes_ext (8 * Z.to_nat k) (s + d) m1 m) by (lia || (intros x Hx; apply H1; lia)). fold m2.
  destruct (decide (r = 0)) as [E|]; [rewrite E; done|].
  replace (u32 (t + d + 8 * k)) with (t + d + 8 * k) by (unwrap; lia). replace (u32 (s + d + 8 * k)) with (s + d + 8 * k) by (unwrap; lia).
  rewrite copy_bytes_write by (rewrite ?Z2Nat.id by lia; unfold apart; lia). f_equal.
  apply read_bytes_ext; [lia|lia|]. intros x Hx. apply H2. lia.
Qed.

(** The blockwise copyRange copies every byte between ranges that do not
    overlap and changes no other byte. *)
Theorem copyRange_spec address source length m x :
  bytes_ok m -> in_u 32 address -> in_u 32 source -> in_u 32 length -> address + length <= 2 ^ 32 -> source + length <= 2 ^ 32 ->
  apart address source length ->
  copyRange address source length m x =
  if (address <=? x) && (x <? address + length) then m (source + (x - address)) else m x.
Proof.
  unfold in_u. intros Hm Ha Hs Hl Hmt Hms Hap. rewrite copyRange_write by (done || lia).
  rewrite write_bytes_lookup; rewrite ?zlen_read; [|lia..]. rewrite Z2Nat.id by lia. cmp_cases; [|done..].
  rewrite read_bytes_lookup by lia. cbn [from_option id]. unfold default. cbn. f_equal. lia.
Qed.

Lemma copyRange_spec_witness : copyRange 0x2005 0x1000 50 (fun x => x mod 256) 0x2020 = 0x1b.
Proof.
  rewrite (copyRange_spec 0x2005 0x1000 50 (fun x => x mod 256) 0x2020); [done|..].
  - intros a. apply Z.mod_pos_bound. done.
  - unfold in_u. lia.
  - unfold in_u. lia.
  - unfold in_u. lia.
  - lia.
  - lia.
  - unfold apart. lia.
Defined.

(** ** Strings *)

(** A terminated string: the bytes [l], none of them zero, and a zero byte. *)
Definition cstring (a : Z) (l : list Z) (m : Memory) : Prop :=
  0 <= a /\ a + zlen l < 2 ^ 32 /\ Forall (fun b => 0 < b < 256) l /\
  (forall i b, l !! i = Some b -> m (a + Z.of_nat i) = b) /\ m (a + zlen l) = 0.

Lemma cstring_tail a b l m : cstring a (b :: l) m -> m a = b /\ 0 < b < 256 /\ cstring (a + 1) l m /\ a + 1 < 2 ^ 32.
Proof.
  unfold cstring, zlen. intros (H0 & Hmax & Hl & Hb & He). cbn [length] in *. rewrite Nat2Z.inj_succ in *.
  apply Forall_cons in Hl as [Hb0 Hl]. split_and!; try lia; try done.
  - specialize (Hb 0%nat b eq_refl). by rewrite Z.add_0_r in Hb.
  - intros i c Hi. specialize (Hb (S i) c Hi). rewrite <- Hb. f_equal. lia.
  - rewrite <- He. f_equal. lia.
Qed.

Lemma cstring_nil a m : cstring a [] m -> m a = 0.
Proof. unfold cstring, zlen. cbn. intros (_ & _ & _ & _ & H). by rewrite Z.add_0_r in H. Qed.

(** The loops count from the start of the string; these lemmas let them start at
    any offset [i]. *)
Lemma offset_add p i : 0 <= p -> 0 <= i -> p + i < 2 ^ 32 -> u32 (p + i) = p + i.
Proof. intros. unwrap. done. Qed.

Lemma stringLength_loop_ok fuel p i l m :
  0 <= p -> 0 <= i -> cstring (p + i) l m -> (length l < fuel)%nat -> stringLength_loop fuel p i m = Ok (i + zlen l).
Proof.
  intros Hp. revert i fuel. induction l as [|b l IH]; intros i fuel Hi Hs Hf; (destruct fuel as [|fuel]; [cbn in Hf; lia|]); cbn [stringLength_loop].
  - pose proof (cstring_nil _ _ Hs) as Hz. destruct Hs as (_ & Hmax & _). unfold zlen in *. cbn in Hmax.
    rewrite offset_add, Hz by lia. cbn. f_equal. lia.
  - apply cstring_tail in Hs as (Hb & Hb0 & Hs & Hmax). rewrite offset_add, Hb by lia. destruct (Z.eqb_spec b 0); [lia|].
    replace (u32 (i + 1)) with (i + 1) by (unwrap; lia). rewrite IH; [|lia|by rewrite Z.add_assoc|cbn in Hf; lia].
    f_equal. unfold zlen. cbn [length]. lia.
Qed.

Lemma stringLength_ok fuel a l m : cstring a l m -> (length l < fuel)%nat -> stringLength fuel a m = Ok (zlen l).
Proof.
  intros Hs Hf. unfold stringLength. rewrite (stringLength_loop_ok fuel a 0 l m); [done|apply Hs|done| |done]. by rewrite Z.add_0_r.
Qed.

(** The difference of two strings at the first position where they differ. *)
Fixpoint first_difference (l1 l2 : list Z) : Z :=
  match l1, l2 with
  | [], [] => 0
  | [], b :: _ => - b
  | a :: _, [] => a
  | a :: l1, b :: l2 => if a =? b then first_difference l1 l2 else a - b
  end.

Lemma compareString_ok fuel p1 p2 i l1 l2 m :
  0 <= p1 -> 0 <= p2 -> 0 <= i -> cstring (p1 + i) l1 m -> cstring (p2 + i) l2 m -> (length l1 < fuel)%nat ->
  exists j, compareString_loop fuel p1 p2 i m = Ok j /\ m (u32 (p1 + j)) - m (u32 (p2 + j)) = first_difference l1 l2.
Proof.
  intros Hp1 Hp2. revert i fuel l2. induction l1 as [|a l1 IH]; intros i fuel l2 Hi H1 H2 Hf;
    (destruct fuel as [|fuel]; [cbn in Hf; lia|]); cbn [compareString_loop].
  - pose proof (cstring_nil _ _ H1) as Hz. pose proof H1 as (_ & Hmax1 & _). pose proof H2 as (_ & Hmax2 & _). unfold zlen in *. cbn in Hmax1.
    rewrite !offset_add, Hz by lia. cbn [Z.eqb negb andb]. exists i. rewrite !offset_add, Hz by lia. split; [done|].
    destruct l2 as [|b l2]; [by rewrite (cstring_nil _ _ H2)|]. apply cstring_tail in H2 as (-> & _). cbn. lia.
  - apply cstring_tail in H1 as (Ha & Ha0 & H1 & Hmax1). pose proof H2 as (_ & Hmax2 & _). unfold zlen in Hmax2.
    rewrite !offset_add, Ha by lia. destruct (Z.eqb_spec a 0); [lia|]. cbn [negb andb].
    destruct l2 as [|b l2].
    + rewrite (cstring_nil _ _ H2). cbn [Z.eqb negb andb]. exists i. rewrite !offset_add, Ha, (cstring_nil _ _ H2) by lia.
      split; [done|]. cbn. lia.
    + apply cstring_tail in H2 as (Hb & Hb0 & H2 & Hmax2'). rewrite Hb. destruct (Z.eqb_spec b 0); [lia|]. cbn [negb andb first_difference].
      destruct (Z.eqb_spec a b) as [<-|].
      * replace (u32 (i + 1)) with (i + 1) by (unwrap; lia). apply IH; rewrite ?Z.add_assoc; try (done || lia). cbn in Hf. lia.
      * exists i. rewrite !offset_add, Ha, Hb by lia. done.
Qed.

Lemma first_difference_zero l1 l2 :
  Forall (fun b => 0 < b < 256) l1 -> Forall (fun b => 0 < b < 256) l2 -> first_difference l1 l2 = 0 <-> l1 = l2.
Proof.
  intros H1. revert l2. induction H1 as [|a l1 Ha H1 IH]; intros l2 H2; destruct H2 as [|b l2 Hb H2]; cbn; try (split; [lia|done]); [done|].
  destruct (Z.eqb_spec a b) as [<-|Hne]; [rewrite IH by done; split; congruence|split; [lia|congruence]].
Qed.

(** CompareString ends, gives the difference at the first position where
    two strings differ, and 0 exactly for equal strings; stringLength gives
    the length. *)
Theorem compareString_spec fuel a1 a2 l1 l2 m :
  cstring a1 l1 m -> cstring a2 l2 m -> (length l1 < fuel)%nat ->
  exists d, compareString fuel a1 a2 m = Ok d /\ d = first_difference l1 l2 /\ (d = 0 <-> l1 = l2) /\
    stringLength fuel a1 m = Ok (zlen l1).
Proof.
  intros H1 H2 Hf. destruct (compareString_ok fuel a1 a2 0 l1 l2 m) as (j & E & Hd); rewrite ?Z.add_0_r; try done; [apply H1|apply H2|].
  exists (first_difference l1 l2). unfold compareString. rewrite E. mcbn. rewrite Hd. split_and!; try done.
  - apply first_difference_zero; [apply H1|apply H2].
  - by apply stringLength_ok.
Qed.

Lemma cstring_frame a l m m' : cstring a l m -> (forall x, a <= x <= a + zlen l -> m' x = m x) -> cstring a l m'.
Proof.
  intros (H0 & Hmax & Hl & Hb & He) Hm. split_and!; try done.
  - intros i b Hi. rewrite Hm; [by apply Hb|]. apply lookup_lt_Some in Hi. unfold zlen. lia.
  - rewrite Hm; [done|]. unfold zlen. lia.
Qed.

Lemma copyString_loop_ok fuel t s i l m :
  0 <= t -> 0 <= s -> 0 <= i -> cstring (s + i) l m -> t + i + zlen l < 2 ^ 32 -> apart (t + i) (s + i) (zlen l + 1) ->
  (length l < fuel)%nat ->
  copyString_loop fuel t s i m = Ok (i + zlen l, write_bytes (t + i) l m).
Proof.
  intros Ht Hs. unfold apart. revert i fuel m. induction l as [|b l IH]; intros i fuel m Hi Hc Hmax Ha Hf;
    (destruct fuel as [|fuel]; [cbn in Hf; lia|]); cbn [copyString_loop].
  - pose proof (cstring_nil _ _ Hc) as Hz. destruct Hc as (_ & Hm & _). unfold zlen in *. cbn in Hm.
    rewrite offset_add, Hz by lia. cbn [Z.eqb]. cbn. do 2 f_equal. lia.
  - apply cstring_tail in Hc as (Hb & Hb0 & Hc & Hm). unfold zlen in *. cbn [length] in *. rewrite Nat2Z.inj_succ in *.
    rewrite !offset_add, Hb by lia. destruct (Z.eqb_spec b 0); [lia|]. replace (u32 (i + 1)) with (i + 1) by (unwrap; lia).
    rewrite IH; try lia.
    + cbn [write_bytes]. replace (u32 (t + i + 1)) with (t + (i + 1)) by (unwrap; lia). do 2 f_equal. lia.
    + rewrite Z.add_assoc. eapply cstring_frame; [exact Hc|]. intros x Hx. apply mem_insert_ne. unfold zlen in Hx. lia.
Qed.

Lemma write_bytes_snoc a l b m :
  0 <= a -> a + zlen l < 2 ^ 32 -> write_bytes a (l ++ [b]) m = <[a + zlen l := b]> (write_bytes a l m).
Proof. intros Ha Hl. rewrite write_bytes_app by auto. cbn [write_bytes]. rewrite offset_add; [done|done|unfold zlen; lia|done]. Qed.

Lemma copyString_ok fuel t s l m :
  cstring s l m -> 0 <= t -> t + zlen l < 2 ^ 32 -> apart t s (zlen l + 1) -> (length l < fuel)%nat ->
  copyString fuel t s m = Ok (write_bytes t (l ++ [0]) m).
Proof.
  intros Hc Ht Hmax Ha Hf. unfold copyString. rewrite (copyString_loop_ok fuel t s 0 l m); rewrite ?Z.add_0_r; try done; [|apply Hc].
  mcbn. rewrite Z.add_0_l, offset_add by (unfold zlen in *; lia). by rewrite write_bytes_snoc.
Qed.

Lemma copyMax_loop_ok n t s i l m :
  0 <= t -> 0 <= s -> 0 <= i -> cstring (s + i) l m -> t + i + zlen l < 2 ^ 32 -> apart (t + i) (s + i) (zlen l + 1) ->
  copyMax_loop n t s i m = (i + Z.of_nat (Nat.min n (length l)), write_bytes (t + i) (take n l) m).
Proof.
  intros Ht Hs. unfold apart. revert i n m. induction l as [|b l IH]; intros i n m Hi Hc Hmax Ha;
    (destruct n as [|n]; [cbn; f_equal; lia|]); cbn [copyMax_loop].
  - pose proof (cstring_nil _ _ Hc) as Hz. destruct Hc as (_ & Hm & _). unfold zlen in *. cbn in Hm.
    rewrite offset_add, Hz by lia. cbn. f_equal. lia.
  - apply cstring_tail in Hc as (Hb & Hb0 & Hc & Hm). unfold zlen in *. cbn [length] in *. rewrite Nat2Z.inj_succ in *.
    rewrite !offset_add, Hb by lia. destruct (Z.eqb_spec b 0); [lia|]. replace (u32 (i + 1)) with (i + 1) by (unwrap; lia).
    rewrite IH; try lia.
    + cbn [write_bytes take Nat.min]. replace (u32 (t + i + 1)) with (t + (i + 1)) by (unwrap; lia). f_equal. lia.
    + rewrite Z.add_assoc. eapply cstring_frame; [exact Hc|]. intros x Hx. apply mem_insert_ne. unfold zlen in Hx. lia.
Qed.

(** What [copyString] writes with a limit: the string cut off at the limit, and
    zeros up to it, at least one. *)
Definition padded (l : list Z) (n : nat) : list Z := take n l ++ replicate (Nat.max 1 (n - length l)) 0.

(** CopyString with a limit of n writes n bytes when the string is shorter,
    and n + 1 bytes, one past the limit, when it is not. *)
Theorem copyString_max_spec t s l maxBytes m :
  cstring s l m -> in_u 32 maxBytes -> 0 <= t -> t + zlen l < 2 ^ 32 -> t + maxBytes < 2 ^ 32 -> apart t s (zlen l + 1) ->
  (forall x, copyString_max t s maxBytes m x = write_bytes t (padded l (Z.to_nat maxBytes)) m x) /\
  zlen (padded l (Z.to_nat maxBytes)) = if maxBytes <=? zlen l then maxBytes + 1 else maxBytes.
Proof.
  intros Hc Hn Ht Hmax Hmax2 Ha. unfold in_u in Hn. set (n := Z.to_nat maxBytes). unfold copyString_max. fold n.
  rewrite (copyMax_loop_ok n t s 0 l m); rewrite ?Z.add_0_r; try done; [|apply Hc].
  rewrite Z.add_0_l. set (i := Z.of_nat (Nat.min n (length l))). unfold zlen in *.
  assert (Hi : 0 <= i <= maxBytes) by (unfold i, n; lia). assert (Hlt : Z.of_nat (length (take n l)) = i) by (rewrite length_take; unfold i; lia).
  replace (u32 (t + i)) with (t + i) by (unwrap; lia). rewrite fill_bytes_write. split.
  - intros x. unfold padded. rewrite write_bytes_app; [|done|left; unfold zlen; rewrite Hlt; lia]. unfold zlen. rewrite Hlt.
    replace (u32 (t + i)) with (t + i) by (unwrap; lia).
    destruct (Z.to_nat (maxBytes - i)) as [|k] eqn:Ek.
    + replace (Nat.max 1 (n - length l)) with 1%nat by (unfold n in *; lia). done.
    + replace (Nat.max 1 (n - length l)) with (S k) by (unfold n in *; lia). 
      rewrite !(write_bytes_lookup (t + i)) by (unfold zlen; rewrite ?length_replicate; lia).
      unfold zlen. rewrite length_replicate. cmp_cases; try done; apply mem_insert_ne; lia.
  - unfold padded. rewrite length_app, length_take, length_replicate. destruct (Z.leb_spec maxBytes (Z.of_nat (length l))); unfold n; lia.
Qed.

Definition hello : list Z := [104; 101; 108; 108; 111].
Definition hello_memory : Memory := fun a => if (0x1000 <=? a) && (a <? 0x1005) then default 0 (hello !! Z.to_nat (a - 0x1000)) else 0.

Lemma hello_string : cstring 0x1000 hello hello_memory.
Proof.
  unfold cstring, zlen, hello. cbn [length]. split_and!; try lia; try done.
  - repeat constructor; lia.
  - intros i b Hi. do 5 (destruct i as [|i]; [by injection Hi as <-|]). done.
Qed.

Lemma compareString_spec_witness : exists d, compareString 10 0x1000 0x1000 hello_memory = Ok d /\ d = 0.
Proof.
  destruct (compareString_spec 10 0x1000 0x1000 hello hello hello_memory) as (d & E & _ & [_ Hd] & _).
  - apply hello_string.
  - apply hello_string.
  - cbn. lia.
  - exists d. split; [done|]. by apply Hd.
Defined.

(** Copying "hello" with a limit of three writes four bytes. *)
Lemma copyString_max_spec_witness : copyString_max 0x2000 0x1000 3 hello_memory 0x2003 = 0 /\
  zlen (padded hello 3) = 4.
Proof.
  destruct (copyString_max_spec 0x2000 0x1000 hello 3 hello_memory) as [Hx Hl].
  - apply hello_string.
  - unfold in_u. lia.
  - lia.
  - done.
  - lia.
  - unfold apart, zlen. cbn. lia.
  - split; [rewrite Hx; vm_compute; reflexivity|exact Hl].
Defined.
