(* ===== verification/Atomic.v ===== *)
(** * Atomic.v: atomic read-modify-write operations and the id generator

    [lib/util/async/Atomic.h] and [Atomic.cpp] wrap a reference to an integer
    of 8, 16 or 32 bits; every operation is one locked x86 instruction on the
    referenced cell (or a loop of them). An operation is a function from the
    value of the cell to its result and the new value: one application is one
    indivisible step, which is how the concurrent models of the locks and of
    the bitmap use it. *)

From S2P Require Import Prelude.

(** The six instantiations of the template. *)
Inductive IntType := int8_t | uint8_t | int16_t | uint16_t | int32_t | uint32_t.

Definition width (ty : IntType) : Z :=
  match ty with
  | int8_t | uint8_t => 8
  | int16_t | uint16_t => 16
  | int32_t | uint32_t => 32
  end.

Definition signed (ty : IntType) : bool :=
  match ty with
  | int8_t | int16_t | int32_t => true
  | uint8_t | uint16_t | uint32_t => false
  end.

(** Conversion of an integer to the type [T]. *)
Definition conv (ty : IntType) (z : Z) : Z :=
  if signed ty then swrap (width ty) z else wrap (width ty) z.

Definition in_type (ty : IntType) (z : Z) : Prop :=
  if signed ty then in_s (width ty) z else in_u (width ty) z.

Section Atomic.
Context (ty : IntType).

(** [lock xchg]: the cell takes the new value. *)
Definition exchange (value newValue : Z) : Z := newValue.

(** [lock xadd]: the cell takes the sum, the register the old value. *)
Definition fetchAndAdd (value addend : Z) : Z * Z := (value, conv ty (value + addend)).

(** [lock cmpxchg]: the result is the old value; the cell changes only when
    it was equal to [oldValue]. *)
Definition compareAndExchange (value oldValue newValue : Z) : Z * Z :=
  (value, if value =? oldValue then newValue else value).

Definition get (value : Z) : Z := value.

Definition compareAndSet (value expectedValue newValue : Z) : bool * Z :=
  let '(old, value') := compareAndExchange value expectedValue newValue in
  (old =? expectedValue, value').

(** The loop variable [oldValue] is a [uint32_t], whatever [T] is. Run alone,
    the loop reads and compares the same value. *)
Fixpoint getAndSet (fuel : nat) (value newValue : Z) : outcome (Z * Z) :=
  match fuel with
  | O => Loops
  | Datatypes.S fuel =>
    let oldValue := u32 (get value) in
    let '(success, value') := compareAndSet value (conv ty oldValue) newValue in
    if success then Ok (conv ty oldValue, value') else getAndSet fuel value' newValue
  end.

Definition set (value newValue : Z) : Z := exchange value newValue.

Definition fetchAndSub (value subtrahend : Z) : Z * Z := fetchAndAdd value (conv ty (subtrahend * (-1))).

Definition fetchAndInc (value : Z) : Z * Z := fetchAndAdd value 1.

Definition fetchAndDec (value : Z) : Z * Z := fetchAndAdd value (conv ty (-1)).

(** [add], [sub], [inc] and [dec] are the fetch-and operations under other
    names; they, too, return the old value. *)
Definition add (value addend : Z) : Z * Z := fetchAndAdd value addend.
Definition sub (value subtrahend : Z) : Z * Z := fetchAndSub value subtrahend.
Definition inc (value : Z) : Z * Z := fetchAndInc value.
Definition dec (value : Z) : Z * Z := fetchAndDec value.

(** [bt], [bts] and [btr] on a memory operand address the bit string that
    starts at the cell: an index outside the cell reaches other memory. The
    8-bit specializations throw. The bit of the value is the carry flag. *)
Definition bit_operand (index : Z) : outcome Z :=
  if width ty =? 8 then Throw INVALID_ARGUMENT
  else if (0 <=? index) && (index <? width ty) then Ok index else Fault.

Definition bitTest (value index : Z) : outcome bool :=
  i ← bit_operand index; Ok (Z.testbit (wrap (width ty) value) i).

Definition bitSet (value index : Z) : outcome Z :=
  i ← bit_operand index; Ok (conv ty (Z.setbit (wrap (width ty) value) i)).

Definition bitReset (value index : Z) : outcome Z :=
  i ← bit_operand index; Ok (conv ty (Z.clearbit (wrap (width ty) value) i)).

Definition bitTestAndSet (value index : Z) : outcome (bool * Z) :=
  i ← bit_operand index;
  Ok (Z.testbit (wrap (width ty) value) i, conv ty (Z.setbit (wrap (width ty) value) i)).

Definition bitTestAndReset (value index : Z) : outcome (bool * Z) :=
  i ← bit_operand index;
  Ok (Z.testbit (wrap (width ty) value) i, conv ty (Z.clearbit (wrap (width ty) value) i)).

(** ** Id generator ([IdGenerator.h], [IdGenerator.cpp]) *)

Definition IdGenerator_init : Z := 0.

Definition next (idCounter : Z) : Z * Z := fetchAndInc idCounter.

Fixpoint next_n (n : nat) (idCounter : Z) : list Z * Z :=
  match n with
  | O => ([], idCounter)
  | Datatypes.S n =>
    let '(id, idCounter) := next idCounter in
    let '(ids, idCounter) := next_n n idCounter in
    (id :: ids, idCounter)
  end.

End Atomic.

(** ** Lemmas *)

Lemma width_pos ty : 0 < width ty.
Proof. by destruct ty. Qed.

Lemma conv_range ty z : in_type ty (conv ty z).
Proof.
  unfold conv, in_type. pose proof (width_pos ty).
  destruct (signed ty); [apply swrap_range|apply wrap_range]; lia.
Qed.

Lemma conv_id ty z : in_type ty z -> conv ty z = z.
Proof.
  unfold conv, in_type. pose proof (width_pos ty).
  destruct (signed ty); [apply swrap_small|apply wrap_small]; done.
Qed.

Lemma conv_mod ty z : conv ty z mod 2 ^ width ty = z mod 2 ^ width ty.
Proof.
  unfold conv. pose proof (width_pos ty). pose proof (Z.pow_pos_nonneg 2 (width ty)).
  destruct (signed ty); [by apply wrap_swrap|]. unfold wrap. apply Z.mod_mod. lia.
Qed.

Lemma conv_eq ty a b : conv ty a = conv ty b <-> a mod 2 ^ width ty = b mod 2 ^ width ty.
Proof.
  split.
  - intros H. by rewrite <- (conv_mod ty a), <- (conv_mod ty b), H.
  - intros H. unfold conv, wrap, swrap. destruct (signed ty); [|done].
    by rewrite <- (Zplus_mod_idemp_l a), H, Zplus_mod_idemp_l.
Qed.

Lemma conv_add ty a b : conv ty (conv ty a + b) = conv ty (a + b).
Proof. apply conv_eq. by rewrite <- Zplus_mod_idemp_l, conv_mod, Zplus_mod_idemp_l. Qed.

Lemma conv_u32 ty z : conv ty (u32 z) = conv ty z.
Proof.
  apply conv_eq. unfold u32, wrap. apply Z.mod_mod_divide.
  exists (2 ^ (32 - width ty)). by destruct ty.
Qed.

Lemma getAndSet_ok ty fuel value newValue :
  in_type ty value -> (0 < fuel)%nat -> getAndSet ty fuel value newValue = Ok (value, newValue).
Proof.
  intros Hv Hf. destruct fuel as [|fuel]; [lia|]. cbn [getAndSet]. unfold get.
  rewrite conv_u32, conv_id by done. unfold compareAndSet, compareAndExchange.
  by rewrite Z.eqb_refl.
Qed.

Lemma next_n_ids ty n c :
  next_n ty n c = ((fun k => if decide (k = 0%nat) then c else conv ty (c + Z.of_nat k)) <$> seq 0 n,
                   if decide (n = 0%nat) then c else conv ty (c + Z.of_nat n)).
Proof.
  revert c. induction n as [|n IH]; intros c; [done|]. cbn [next_n]. unfold next, fetchAndInc, fetchAndAdd.
  rewrite IH. rewrite <- cons_seq, fmap_cons, <- fmap_S_seq, <- list_fmap_compose. f_equal.
  - f_equal. apply list_fmap_ext. intros j k Hk. cbn. destruct (decide (k = 0%nat)) as [->|].
    + done.
    + rewrite conv_add. f_equal. lia.
  - cbn. destruct (decide (n = 0%nat)) as [->|]; [done|]. rewrite conv_add. f_equal. lia.
Qed.

(** ** The bit operations on a 32-bit cell *)

Lemma bit_operand_32 index : 0 <= index < 32 -> bit_operand uint32_t index = Ok index.
Proof. intros. unfold bit_operand. cbn [width]. cmp_cases; done. Qed.

(** The first 2^w ids of a generator for a w-bit type are pairwise
    distinct. *)
Theorem ids_distinct ty n :
  Z.of_nat n <= 2 ^ width ty -> NoDup (next_n ty n IdGenerator_init).1.
Proof.
  intros Hn. rewrite next_n_ids. cbn [fst]. unfold IdGenerator_init.
  assert (Hf : forall k, (if decide (k = 0%nat) then 0 else conv ty (0 + Z.of_nat k)) = conv ty (Z.of_nat k)).
  { intros k. case_decide; subst; [|done]. by destruct ty. }
  apply NoDup_fmap_2_strong; [|apply NoDup_seq].
  intros x y Hx%elem_of_seq Hy%elem_of_seq. rewrite !Hf, conv_eq.
  rewrite !Z.mod_small by lia. lia.
Qed.

Lemma ids_distinct_witness : (next_n uint8_t 3 IdGenerator_init).1 = [0; 1; 2] /\ NoDup (next_n uint8_t 256 IdGenerator_init).1.
Proof. split; [reflexivity|]. apply ids_distinct. cbn. lia. Defined.
