(* ===== verification/Spinlock.v ===== *)
(** * Spinlock.v: spinlocks

    [lib/util/async/Spinlock] and [lib/util/async/ReentrantSpinlock]. The
    operations are given twice: as functions on the lock, run alone, and, for
    the reentrant lock, as the sequence of memory accesses the compiled code
    makes, interleaved by an arbitrary schedule. *)

From stdpp Require Import functions.
From S2P Require Import Prelude Atomic.

Definition SPINLOCK_UNLOCK : Z := UINT32_MAX.
Definition SPINLOCK_LOCK : Z := 1.

(** ** Spinlock *)
Module Spinlock.

Record Spinlock := mk { lockVar : Z }.

Definition Spinlock_new : Spinlock := mk SPINLOCK_UNLOCK.

Definition tryAcquire (l : Spinlock) : bool * Spinlock :=
  let '(success, v) := compareAndSet (lockVar l) SPINLOCK_UNLOCK SPINLOCK_LOCK in (success, mk v).

(** [while (!tryAcquire()) yield()]: run alone, the state does not change while
    the loop waits. *)
Fixpoint acquire (fuel : nat) (l : Spinlock) : outcome Spinlock :=
  match fuel with
  | O => Loops
  | Datatypes.S fuel =>
    let '(success, l) := tryAcquire l in
    if success then Ok l else acquire fuel l
  end.

Definition release (l : Spinlock) : Spinlock := mk (set (lockVar l) SPINLOCK_UNLOCK).

Definition isLocked (l : Spinlock) : bool := negb (get (lockVar l) =? SPINLOCK_UNLOCK).

(** [Lock::releaseAndReturn] *)
Definition releaseAndReturn {T} (l : Spinlock) (returnValue : T) : T * Spinlock :=
  let l := release l in (returnValue, l).

(** *** Threads sharing a spinlock *)

(** Every access of a thread to the lock is one locked instruction. A thread
    releases only a lock it holds. *)
Inductive op := Try | Rel.

Record state := st { lock : Spinlock; holders : list Z }.

Definition step (t : Z) (o : op) (s : state) : state :=
  match o with
  | Try => let '(success, l) := tryAcquire (lock s) in
           st l (if success then t :: holders s else holders s)
  | Rel => if bool_decide (t ∈ holders s)
           then st (release (lock s)) (filter (.≠ t) (holders s))
           else s
  end.

Definition run (sched : list (Z * op)) (s : state) : state :=
  foldl (fun s '(t, o) => step t o s) s sched.

Definition inv (s : state) : Prop :=
  (lockVar (lock s) = SPINLOCK_UNLOCK /\ holders s = []) \/
  (lockVar (lock s) = SPINLOCK_LOCK /\ exists t, holders s = [t]).

Lemma step_inv t o s : inv s -> inv (step t o s).
Proof.
  intros [[Hl Hh]|[Hl [u Hh]]]; destruct s as [[l] h]; cbn in *; subst; destruct o; cbn.
  - right. split; [done|]. by exists t.
  - by left.
  - right. split; [done|]. by exists u.
  - case_bool_decide as Ht; [|right; eauto]. left. rewrite list_elem_of_singleton in Ht. subst.
    split; [done|]. rewrite decide_False by (intros H; by apply H). done.
Qed.

(** Whatever the order in which threads try to acquire the spinlock and
    release it when they hold it, at most one holds it, isLocked tells
    whether one does, and a held lock refuses tryAcquire. *)
Theorem spinlock_mutual_exclusion sched :
  let s := run sched (st Spinlock_new []) in
  (length (holders s) <= 1)%nat /\ (isLocked (lock s) = true <-> holders s <> []) /\
  (holders s <> [] -> (tryAcquire (lock s)).1 = false).
Proof.
  cbv zeta. unfold run. assert (H : inv (st Spinlock_new [])) by by left.
  revert H. generalize (st Spinlock_new []). induction sched as [|[t o] sched IH]; intros s Hs.
  - cbn [foldl]. destruct s as [[l] h]. destruct Hs as [[Hl Hh]|[Hl [u Hh]]]; cbn in *; subst;
      (split_and!; [cbn; lia|split; done|done]).
  - cbn [foldl]. apply IH. by apply step_inv.
Qed.

Lemma acquire_released fuel l :
  (0 < fuel)%nat -> isLocked l = false -> exists l', acquire fuel l = Ok l' /\ isLocked l' = true.
Proof.
  intros Hf Hl. destruct fuel; [lia|]. destruct l as [v]. unfold isLocked, get in Hl. cbn in *.
  unfold tryAcquire, compareAndSet, compareAndExchange. cbn.
  destruct (Z.eqb_spec v SPINLOCK_UNLOCK); [|done]. eexists. split; done.
Qed.

End Spinlock.

(** ** Reentrant spinlock *)
Module ReentrantSpinlock.

(** [acquire] and [isLocked] are inherited; the constructor's base sets
    [lockVar] to [SPINLOCK_UNLOCK]. *)
Record ReentrantSpinlock := mk { lockVar : Z; depth : Z }.

Definition ReentrantSpinlock_new : ReentrantSpinlock := mk SPINLOCK_UNLOCK 0.

(** [isSchedulerInitialized() ? Thread::getCurrentThread().getId() : 0] *)
Definition threadId (initialized : bool) (current : Z) : Z := if initialized then current else 0.

Definition tryAcquire (id : Z) (l : ReentrantSpinlock) : bool * ReentrantSpinlock :=
  let '(first, v) := compareAndSet (lockVar l) SPINLOCK_UNLOCK id in
  let '(success, v) := if first then (true, v) else compareAndSet v id id in
  (success, mk v (if success then u32 (depth l + 1) else depth l)).

Definition release (id : Z) (l : ReentrantSpinlock) : ReentrantSpinlock :=
  let d := if get (lockVar l) =? id then u32 (depth l - 1) else depth l in
  let v := if d =? 0 then (compareAndSet (lockVar l) id SPINLOCK_UNLOCK).2 else lockVar l in
  mk v d.

Definition getDepth (l : ReentrantSpinlock) : Z := depth l.

(** *** The accesses of one thread *)

(** Where a thread is inside [tryAcquire] or [release]; [depth++] and [depth--]
    are a load and a store. *)
Inductive pc :=
| Outside
| TryFirst          (* compareAndSet(SPINLOCK_UNLOCK, threadId) *)
| TrySecond         (* compareAndSet(threadId, threadId) *)
| TryLoad | TryStore (d : Z)   (* depth++ *)
| RelRead           (* lockVarWrapper.get() == threadId *)
| RelLoad | RelStore (d : Z)   (* depth-- *)
| RelTest           (* depth == 0 *)
| RelUnlock.        (* compareAndSet(threadId, SPINLOCK_UNLOCK) *)

(** [held] counts what the thread has acquired and not yet released. *)
Record thread := th { at_ : pc; held : Z }.

Inductive call := TryAcquire | Release.

Record state := st { lock : ReentrantSpinlock; threads : Z -> thread }.

Definition init : state := st ReentrantSpinlock_new (fun _ => th Outside 0).

(** One access of thread [t]; a thread outside the lock's code starts the call
    [c] instead. *)
Definition step_thread (t : Z) (c : call) (l : ReentrantSpinlock) (r : thread) : ReentrantSpinlock * thread :=
  match at_ r with
  | Outside => (l, th (match c with TryAcquire => TryFirst | Release => RelRead end) (held r))
  | TryFirst =>
    let '(success, v) := compareAndSet (lockVar l) SPINLOCK_UNLOCK t in
    (mk v (depth l), th (if success then TryLoad else TrySecond) (held r))
  | TrySecond =>
    let '(success, v) := compareAndSet (lockVar l) t t in
    (mk v (depth l), th (if success then TryLoad else Outside) (held r))
  | TryLoad => (l, th (TryStore (depth l)) (held r))
  | TryStore d => (mk (lockVar l) (u32 (d + 1)), th Outside (held r + 1))
  | RelRead => (l, th (if get (lockVar l) =? t then RelLoad else RelTest) (held r))
  | RelLoad => (l, th (RelStore (depth l)) (held r))
  | RelStore d => (mk (lockVar l) (u32 (d - 1)), th RelTest (held r - 1))
  | RelTest => (l, th (if depth l =? 0 then RelUnlock else Outside) (held r))
  | RelUnlock => (mk (compareAndSet (lockVar l) t SPINLOCK_UNLOCK).2 (depth l), th Outside (held r))
  end.

Definition step (t : Z) (c : call) (s : state) : state :=
  let '(l, r) := step_thread t c (lock s) (threads s t) in
  st l (<[t := r]> (threads s)).

Definition run (sched : list (Z * call)) (s : state) : state :=
  foldl (fun s '(t, c) => step t c s) s sched.

(** Run without interference, the accesses are the calls. *)
Fixpoint run_alone (n : nat) (t : Z) (c : call) (p : ReentrantSpinlock * thread) : ReentrantSpinlock * thread :=
  match n with
  | O => p
  | Datatypes.S n =>
    let '(l, r) := step_thread t c p.1 p.2 in
    match at_ r with Outside => (l, r) | _ => run_alone n t c (l, r) end
  end.

Lemma cas_eq v new : compareAndSet v v new = (true, new).
Proof. unfold compareAndSet, compareAndExchange. by rewrite Z.eqb_refl. Qed.

Lemma cas_ne v expected new : v <> expected -> compareAndSet v expected new = (false, v).
Proof. intros H. unfold compareAndSet, compareAndExchange. by destruct (Z.eqb_spec v expected). Qed.

Lemma run_alone_S n t c l r :
  run_alone (S n) t c (l, r) =
  let '(l', r') := step_thread t c l r in
  match at_ r' with Outside => (l', r') | _ => run_alone n t c (l', r') end.
Proof. done. Qed.

Ltac alone := rewrite run_alone_S; cbn [step_thread at_ held lockVar depth]; unfold get.

Lemma run_alone_tryAcquire t l h :
  run_alone 5 t TryAcquire (l, th Outside h) =
  ((tryAcquire t l).2, th Outside (if (tryAcquire t l).1 then h + 1 else h)).
Proof.
  destruct l as [v d]. unfold tryAcquire. cbn [lockVar depth]. alone. alone.
  destruct (decide (v = SPINLOCK_UNLOCK)) as [->|E].
  - rewrite cas_eq. cbn [at_]. do 2 alone. done.
  - rewrite cas_ne by done. cbn [at_]. alone. destruct (decide (v = t)) as [->|E'].
    + rewrite cas_eq. cbn [at_]. do 2 alone. done.
    + by rewrite cas_ne.
Qed.

Lemma run_alone_release t l h :
  run_alone 6 t Release (l, th Outside h) =
  (release t l, th Outside (if lockVar l =? t then h - 1 else h)).
Proof.
  destruct l as [v d]. unfold release, get. cbn [lockVar depth]. alone. alone.
  destruct (Z.eqb_spec v t) as [->|E]; cbn [at_].
  - do 3 alone. destruct (Z.eqb_spec (u32 (d - 1)) 0); cbn [at_]; [|done]. alone. by rewrite cas_eq.
  - alone. destruct (Z.eqb_spec d 0); cbn [at_]; [|done]. alone. by rewrite cas_ne.
Qed.

(** *** The invariant *)

(** What holds of a thread that owns the lock: the depth is its count, except
    that a call is on the way. *)
Definition owner_ok (d : Z) (r : thread) : Prop :=
  0 <= held r /\ d = held r /\
  match at_ r with
  | Outside | TryFirst | TrySecond | RelRead | RelLoad => 0 < held r
  | TryLoad | RelTest => True
  | TryStore d' => d' = d
  | RelStore d' => d' = d /\ 0 < held r
  | RelUnlock => held r = 0
  end.

(** What holds of every other thread: it has acquired nothing and is at no
    place that changes the depth. *)
Definition other_ok (r : thread) : Prop :=
  held r = 0 /\
  match at_ r with
  | Outside | TryFirst | TrySecond | RelRead | RelTest | RelUnlock => True
  | TryLoad | TryStore _ | RelLoad | RelStore _ => False
  end.

Definition valid_id (t : Z) : Prop := 0 <= t < UINT32_MAX.

(** [n] bounds the number of acquisitions so far. *)
Definition inv (n : Z) (s : state) : Prop :=
  let v := lockVar (lock s) in
  let d := depth (lock s) in
  (v = SPINLOCK_UNLOCK -> d = 0) /\
  (v <> SPINLOCK_UNLOCK -> valid_id v /\ owner_ok d (threads s v) /\ d <= n) /\
  (forall u, valid_id u -> u <> v -> other_ok (threads s u)).

Lemma inv_init : inv 0 init.
Proof. split_and!; [done|done|]. intros u _ _. split; done. Qed.

Lemma step_owner t c l r n :
  lockVar l = t -> valid_id t -> owner_ok (depth l) r -> depth l <= n -> n + 1 < 2 ^ 32 ->
  let '(l', r') := step_thread t c l r in
  (lockVar l' = t /\ owner_ok (depth l') r' /\ depth l' <= n + 1) \/
  (lockVar l' = SPINLOCK_UNLOCK /\ depth l' = 0 /\ other_ok r').
Proof.
  destruct l as [v d], r as [p h]. unfold owner_ok. cbn [lockVar depth held at_].
  intros -> Ht (Hh & -> & Hp) Hn Hb.
  assert (HtU : t <> SPINLOCK_UNLOCK) by (unfold valid_id, SPINLOCK_UNLOCK in *; lia).
  assert ((t =? t) = true) by apply Z.eqb_refl.
  destruct p; unfold step_thread, get; cbn [at_ held lockVar depth].
  - left. destruct c; cbn [lockVar depth held at_]; split_and!; (done || lia).
  - rewrite cas_ne by done. left. cbn [lockVar depth held at_]. split_and!; (done || lia).
  - rewrite cas_eq. left. cbn [lockVar depth held at_]. split_and!; (done || lia).
  - left. cbn [lockVar depth held at_]. split_and!; (done || lia).
  - left. cbn [lockVar depth held at_]. subst d. unwrap. split_and!; (done || lia).
  - rewrite H. left. cbn [lockVar depth held at_]. split_and!; (done || lia).
  - left. cbn [lockVar depth held at_]. split_and!; (done || lia).
  - left. cbn [lockVar depth held at_]. destruct Hp as [-> ?]. unwrap. split_and!; (done || lia).
  - left. cbn [lockVar depth held at_]. destruct (Z.eqb_spec h 0); split_and!; (done || lia).
  - rewrite cas_eq. right. cbn [lockVar depth held at_ snd]. split; [done|]. split; [lia|]. split; [done|exact I].
Qed.

Lemma step_other t c l r :
  lockVar l <> t -> valid_id t -> (lockVar l = SPINLOCK_UNLOCK -> depth l = 0) -> other_ok r ->
  let '(l', r') := step_thread t c l r in
  (l' = l /\ other_ok r') \/
  (lockVar l = SPINLOCK_UNLOCK /\ l' = mk t 0 /\ owner_ok 0 r').
Proof.
  destruct l as [v d], r as [p h]. unfold other_ok. cbn [lockVar depth held at_].
  intros Hv Ht Hd [-> Hp].
  destruct p; unfold step_thread, get; cbn [at_ held lockVar depth]; try done.
  - left. destruct c; done.
  - destruct (decide (v = SPINLOCK_UNLOCK)) as [->|].
    + rewrite cas_eq. right. split; [done|]. by rewrite Hd.
    + rewrite cas_ne by done. left. done.
  - rewrite cas_ne by done. left. done.
  - left. destruct (Z.eqb_spec v t); done.
  - left. by destruct (d =? 0).
  - rewrite cas_ne by done. left. done.
Qed.

Lemma inv_step n t c s :
  valid_id t -> 0 <= n -> n + 1 < 2 ^ 32 -> inv n s -> inv (n + 1) (step t c s).
Proof.
  intros Ht Hn0 Hn (Hu & Ho & Hr). unfold step.
  assert (HtU : t <> SPINLOCK_UNLOCK) by (unfold valid_id, SPINLOCK_UNLOCK in *; lia).
  assert (Hrest : forall r', forall u, valid_id u -> u <> t -> u <> lockVar (lock s) ->
            other_ok (<[t := r']> (threads s) u)).
  { intros r' u ? ? ?. rewrite fn_lookup_insert_ne by done. by apply Hr. }
  destruct (decide (lockVar (lock s) = t)) as [E|E].
  - rewrite E in *. destruct (Ho HtU) as (_ & Hok & Hd).
    pose proof (step_owner t c (lock s) (threads s t) n E Ht Hok Hd Hn) as H.
    destruct (step_thread t c (lock s) (threads s t)) as [l' r'].
    destruct H as [(H1 & H2 & H3)|(H1 & H2 & H3)]; unfold inv; cbn [lock threads]; rewrite H1.
    + split_and!; [done| |auto]. intros _. by rewrite fn_lookup_insert.
    + split_and!; [done|done|]. intros u ? ?. destruct (decide (u = t)) as [->|]; [|auto].
      by rewrite fn_lookup_insert.
  - pose proof (step_other t c (lock s) (threads s t) E Ht Hu (Hr t Ht ltac:(done))) as H.
    destruct (step_thread t c (lock s) (threads s t)) as [l' r'].
    destruct H as [(-> & H2)|(H1 & -> & H3)]; unfold inv; cbn [lock threads lockVar depth].
    + split_and!; [done| |].
      * intros Hv. destruct (Ho Hv) as (H3 & H4 & H5). rewrite fn_lookup_insert_ne by done.
        split_and!; [done|done|lia].
      * intros u ? ?. destruct (decide (u = t)) as [->|]; [|auto]. by rewrite fn_lookup_insert.
    + split_and!; [done| |].
      * intros _. rewrite fn_lookup_insert. split_and!; [done|done|lia].
      * intros u Hvu ?. apply Hrest; [done..|]. rewrite H1. unfold valid_id, SPINLOCK_UNLOCK in *. lia.
Qed.

Lemma inv_run sched n s :
  Forall (fun p => valid_id p.1) sched -> 0 <= n -> n + zlen sched < 2 ^ 32 ->
  inv n s -> inv (n + zlen sched) (run sched s).
Proof.
  unfold zlen, run. revert n s. induction sched as [|[t c] sched IH]; intros n s Hs Hn0 Hn Hi; cbn [length foldl] in *.
  - by rewrite Z.add_0_r.
  - inversion Hs; subst. cbn [fst] in *. replace (n + Z.of_nat (S (length sched))) with (n + 1 + Z.of_nat (length sched)) by lia.
    apply IH; [done|lia|lia|]. apply inv_step; (done || lia).
Qed.

(** C27: For every interleaving of the memory accesses of tryAcquire and release
    of any threads, at most one thread holds the reentrant lock, lockVar
    names it, the depth is the number of its acquisitions, and when all are
    outside the lock is as new. *)
Theorem reentrant_mutual_exclusion sched :
  Forall (fun p => valid_id p.1) sched -> zlen sched < 2 ^ 32 ->
  let s := run sched init in
  (forall t, valid_id t -> 0 <= held (threads s t)) /\
  (forall t u, valid_id t -> valid_id u ->
     0 < held (threads s t) -> 0 < held (threads s u) -> t = u) /\
  (forall t, valid_id t -> 0 < held (threads s t) ->
     lockVar (lock s) = t /\ getDepth (lock s) = held (threads s t)) /\
  ((forall t, valid_id t -> threads s t = th Outside 0) ->
     lock s = ReentrantSpinlock_new).
Proof.
  intros Hs Hn s. destruct (inv_run sched 0 init Hs) as (Hu & Ho & Hr); [done|done|apply inv_init|].
  fold s in Hu, Ho, Hr.
  assert (Hh : forall t, valid_id t -> 0 < held (threads s t) -> lockVar (lock s) = t).
  { intros t Ht Hp. destruct (decide (lockVar (lock s) = t)); [done|]. destruct (Hr t) as [H _]; [done..|]. lia. }
  split_and!.
  - intros t Ht. destruct (decide (t = lockVar (lock s))) as [->|].
    + apply Ho. unfold valid_id, SPINLOCK_UNLOCK in *. lia.
    + destruct (Hr t) as [-> _]; done.
  - intros t u Ht Hu' H1 H2. rewrite <- (Hh t), <- (Hh u) by done. done.
  - intros t Ht Hp. pose proof (Hh t Ht Hp) as E. split; [done|]. unfold getDepth. subst t.
    apply Ho. unfold valid_id, SPINLOCK_UNLOCK in *. lia.
  - intros Hout. destruct (lock s) as [v d] eqn:E. cbn in *.
    destruct (decide (v = SPINLOCK_UNLOCK)) as [->|Hv]; [by rewrite Hu|].
    destruct (Ho Hv) as (H1 & (_ & _ & H2) & _). rewrite (Hout v H1) in H2. cbn in H2. lia.
Qed.

Lemma reentrant_mutual_exclusion_witness :
  let s := run (repeat (7, TryAcquire) 8 ++ repeat (9, TryAcquire) 3 ++ [(9, Release); (9, Release); (9, Release)]
                ++ repeat (7, TryAcquire) 2) init in
  held (threads s 7) = 2 /\ held (threads s 9) = 0 /\ getDepth (lock s) = 2.
Proof.
  cbv zeta. split_and!; [vm_compute; reflexivity..|].
  refine (proj2 (proj1 (proj2 (proj2 (reentrant_mutual_exclusion _ _ _))) 7 _ _)).
  - cbn [repeat app]. unfold valid_id, UINT32_MAX. repeat (constructor; [cbn [fst]; lia|]). constructor.
  - reflexivity.
  - unfold valid_id, UINT32_MAX. lia.
  - vm_compute. reflexivity.
Defined.

End ReentrantSpinlock.
