(* ===== verification/AtomicBitmap.v ===== *)
(** * AtomicBitmap.v: the atomic bitmap

    [lib/util/async/AtomicBitmap]: an array of 32-bit words, bit [31 - i % 32]
    of word [i / 32] for block [i]. [bits] is the abstract value, the list of
    the blocks' bits; every operation is specified by what it does to it. A
    second part interleaves the accesses of several threads. *)

From stdpp Require Import functions.
From S2P Require Import Prelude Bits Atomic.

Definition INVALID_INDEX : Z := 0xffffffff.

Record AtomicBitmap := mkBitmap { bitmap : list Z; arraySize : Z; blocks : Z }.

(** [new uint32_t[arraySize]] cleared with [setRange]. *)
Definition AtomicBitmap_new (blockCount : Z) : AtomicBitmap :=
  let size := if blockCount mod 32 =? 0 then blockCount / 32 else blockCount / 32 + 1 in
  mkBitmap (replicate (Z.to_nat size) 0) size blockCount.

Definition getSize (b : AtomicBitmap) : Z := blocks b.

Definition with_bitmap (b : AtomicBitmap) (l : list Z) : AtomicBitmap := mkBitmap l (arraySize b) (blocks b).

Definition set (block : Z) (b : AtomicBitmap) : outcome AtomicBitmap :=
  if block >=? blocks b then Ok b
  else
    let index := block / 32 in
    let bit := block mod 32 in
    w ← aget (bitmap b) index;
    w ← bitSet uint32_t w (31 - bit);
    with_bitmap b <$> aset (bitmap b) index w.

Definition unset (block : Z) (b : AtomicBitmap) : outcome AtomicBitmap :=
  if block >=? blocks b then Ok b
  else
    let index := block / 32 in
    let bit := block mod 32 in
    w ← aget (bitmap b) index;
    w ← bitReset uint32_t w (31 - bit);
    with_bitmap b <$> aset (bitmap b) index w.

Definition check (block : Z) (v : bool) (b : AtomicBitmap) : outcome bool :=
  if block >=? blocks b then Ok false
  else
    let index := block / 32 in
    let bit := block mod 32 in
    w ← aget (bitmap b) index;
    t ← bitTest uint32_t w (31 - bit);
    Ok (Bool.eqb t v).

(** One access: the test-and-set (or -reset) of block [i], with its old bit. *)
Definition testAndSet (i : Z) (b : AtomicBitmap) : outcome (bool * AtomicBitmap) :=
  let index := i / 32 in
  let bit := i mod 32 in
  w ← aget (bitmap b) index;
  '(old, w) ← bitTestAndSet uint32_t w (31 - bit);
  l ← aset (bitmap b) index w;
  Ok (old, with_bitmap b l).

Definition testAndReset (i : Z) (b : AtomicBitmap) : outcome (bool * AtomicBitmap) :=
  let index := i / 32 in
  let bit := i mod 32 in
  w ← aget (bitmap b) index;
  '(old, w) ← bitTestAndReset uint32_t w (31 - bit);
  l ← aset (bitmap b) index w;
  Ok (old, with_bitmap b l).

(** The loop from [i] on; [n] iterations are left. *)
Fixpoint findAndSet_loop (n : nat) (i : Z) (b : AtomicBitmap) : outcome (Z * AtomicBitmap) :=
  match n with
  | O => Ok (i, b)
  | Datatypes.S n =>
    '(old, b) ← testAndSet i b;
    if negb old then Ok (i, b) else findAndSet_loop n (i + 1) b
  end.

Definition findAndSet (b : AtomicBitmap) : outcome (Z * AtomicBitmap) :=
  '(i, b) ← findAndSet_loop (Z.to_nat (blocks b)) 0 b;
  Ok (if i =? blocks b then INVALID_INDEX else i, b).

Fixpoint findAndUnset_loop (n : nat) (i : Z) (b : AtomicBitmap) : outcome (Z * AtomicBitmap) :=
  match n with
  | O => Ok (i, b)
  | Datatypes.S n =>
    '(old, b) ← testAndReset i b;
    if old : bool then Ok (i, b) else findAndUnset_loop n (i + 1) b
  end.

Definition findAndUnset (b : AtomicBitmap) : outcome (Z * AtomicBitmap) :=
  '(i, b) ← findAndUnset_loop (Z.to_nat (blocks b)) 0 b;
  Ok (if i =? blocks b then INVALID_INDEX else i, b).

(** ** Abstract value *)

Definition word (b : AtomicBitmap) (k : nat) : Z := default 0 (bitmap b !! k).

Definition bit (b : AtomicBitmap) (i : Z) : bool := Z.testbit (word b (Z.to_nat (i / 32))) (31 - i mod 32).

Definition bits (b : AtomicBitmap) : list bool :=
  (fun k : nat => bit b (Z.of_nat k)) <$> seq 0 (Z.to_nat (blocks b)).

(** A bitmap of at most [2^32 - 1] blocks whose array covers them. *)
Definition wf (b : AtomicBitmap) : Prop :=
  0 <= blocks b < 2 ^ 32 /\
  arraySize b = (blocks b + 31) / 32 /\
  zlen (bitmap b) = arraySize b /\
  Forall (in_u 32) (bitmap b).

(** The bitmap with the bit of block [i] set to [v]. *)
Definition update (i : Z) (v : bool) (b : AtomicBitmap) : AtomicBitmap :=
  let w := word b (Z.to_nat (i / 32)) in
  with_bitmap b (<[Z.to_nat (i / 32) := if v then Z.setbit w (31 - i mod 32) else Z.clearbit w (31 - i mod 32)]> (bitmap b)).

(** ** Lemmas *)

Lemma bits_length b : 0 <= blocks b -> zlen (bits b) = blocks b.
Proof. intros. unfold zlen, bits. rewrite length_fmap, length_seq. lia. Qed.

Lemma bits_lookup b i : 0 <= i < blocks b -> bits b !! Z.to_nat i = Some (bit b i).
Proof.
  intros Hi. unfold bits. rewrite list_lookup_fmap, lookup_seq_lt by lia. cbn. by rewrite Z2Nat.id by lia.
Qed.

Lemma bits_lookup_nat b k :
  bits b !! k = if decide (Z.of_nat k < blocks b) then Some (bit b (Z.of_nat k)) else None.
Proof.
  unfold bits. rewrite list_lookup_fmap. case_decide.
  - by rewrite lookup_seq_lt by lia.
  - by rewrite lookup_seq_ge by lia.
Qed.

Lemma bm_index b i : wf b -> 0 <= i < blocks b -> 0 <= i / 32 < zlen (bitmap b).
Proof. intros (H1 & H2 & H3 & H4) Hi. rewrite H3, H2. Z.to_euclidean_division_equations. lia. Qed.

Lemma word_get b i :
  wf b -> 0 <= i < blocks b ->
  aget (bitmap b) (i / 32) = Ok (word b (Z.to_nat (i / 32))) /\ in_u 32 (word b (Z.to_nat (i / 32))).
Proof.
  intros Hwf Hi. pose proof (bm_index b i Hwf Hi) as Hx. destruct (aget_in _ _ Hx) as (w & Hw & Hl).
  unfold word. rewrite Hl. cbn. split; [done|]. destruct Hwf as (_ & _ & _ & Hf).
  by eapply Forall_lookup_1 in Hf.
Qed.

Lemma update_wf i v b : wf b -> 0 <= i < blocks b -> wf (update i v b).
Proof.
  intros Hwf Hi. pose proof (word_get b i Hwf Hi) as [_ Hw]. pose proof (Z.mod_pos_bound i 32 eq_refl).
  destruct Hwf as (H1 & H2 & H3 & H4). unfold update, wf. cbn [bitmap with_bitmap arraySize blocks].
  split; [done|]. split; [done|]. split.
  - by rewrite zlen_insert.
  - apply Forall_insert; [done|]. destruct v; [apply setbit_range|apply clearbit_range]; (done || lia).
Qed.

Lemma bit_update i v b j :
  wf b -> 0 <= i < blocks b -> 0 <= j < blocks b ->
  bit (update i v b) j = if decide (j = i) then v else bit b j.
Proof.
  intros Hwf Hi Hj. pose proof (bm_index b i Hwf Hi) as Hx. pose proof (bm_index b j Hwf Hj) as Hy.
  unfold bit, update, word at 1. cbn. unfold zlen in *. rewrite list_lookup_insert.
  case_decide as E.
  - destruct E as [E _]. apply Z2Nat.inj in E; [|lia..]. rewrite E. cbn.
    pose proof (Z.mod_pos_bound j 32 eq_refl). pose proof (Z.mod_pos_bound i 32 eq_refl).
    destruct (decide (j = i)) as [->|Hne].
    + destruct v; [apply Z.setbit_eq; lia|apply Z.clearbit_eq].
    + destruct v; [apply Z.setbit_neq|apply Z.clearbit_neq]; Z.to_euclidean_division_equations; lia.
  - rewrite decide_False; [done|]. intros ->. apply E. split; [done|lia].
Qed.

Lemma bits_update i v b :
  wf b -> 0 <= i < blocks b -> bits (update i v b) = <[Z.to_nat i := v]> (bits b).
Proof.
  intros Hwf Hi. pose proof (bits_length b ltac:(lia)) as Hl. unfold zlen in Hl. apply list_eq. intros k.
  rewrite list_lookup_insert, !bits_lookup_nat. change (blocks (update i v b)) with (blocks b).
  case_decide; [rewrite bit_update by (done || lia)|]; repeat case_decide; (done || lia).
Qed.

Lemma update_same i b : wf b -> 0 <= i < blocks b -> update i (bit b i) b = b.
Proof.
  intros Hwf Hi. unfold update, bit. destruct b as [l a n]. unfold with_bitmap. cbn in *. f_equal.
  apply list_insert_id. pose proof (bm_index _ i Hwf Hi) as Hx. cbn in Hx. unfold zlen in Hx.
  destruct (lookup_lt_is_Some_2 l (Z.to_nat (i / 32))) as [w Hw]; [lia|].
  unfold word. cbn. rewrite Hw. cbn. f_equal. pose proof (Z.mod_pos_bound i 32 eq_refl).
  destruct (Z.testbit w (31 - i mod 32)) eqn:E; [by rewrite setbit_id by (done || lia)|by rewrite clearbit_id by (done || lia)].
Qed.

Section access.
Context (b : AtomicBitmap) (i : Z) (Hwf : wf b) (Hi : 0 <= i < blocks b).

Lemma bit_ops_32 :
  let w := word b (Z.to_nat (i / 32)) in
  let k := 31 - i mod 32 in
  bit_operand uint32_t k = Ok k /\ wrap (width uint32_t) w = w /\
  conv uint32_t (Z.setbit w k) = Z.setbit w k /\ conv uint32_t (Z.clearbit w k) = Z.clearbit w k /\
  aget (bitmap b) (i / 32) = Ok w /\ forall w', aset (bitmap b) (i / 32) w' = Ok (<[Z.to_nat (i / 32) := w']> (bitmap b)).
Proof.
  cbv zeta. pose proof (Z.mod_pos_bound i 32 eq_refl). destruct (word_get b i Hwf Hi) as [Hg Hw].
  split_and!; [apply bit_operand_32; lia|by apply wrap_small|..|done|].
  - apply (wrap_small 32), setbit_range; (done || lia).
  - apply (wrap_small 32), clearbit_range; (done || lia).
  - intros w'. apply aset_in. by apply bm_index.
Qed.

Lemma testAndSet_eq : testAndSet i b = Ok (bit b i, update i true b).
Proof.
  destruct bit_ops_32 as (H1 & H2 & H3 & H4 & H5 & H6). unfold testAndSet, bitTestAndSet. cbv zeta.
  rewrite H5. mcbn. rewrite H1. mcbn. rewrite H2, H3, H6. done.
Qed.

Lemma testAndReset_eq : testAndReset i b = Ok (bit b i, update i false b).
Proof.
  destruct bit_ops_32 as (H1 & H2 & H3 & H4 & H5 & H6). unfold testAndReset, bitTestAndReset. cbv zeta.
  rewrite H5. mcbn. rewrite H1. mcbn. rewrite H2, H4, H6. done.
Qed.

Lemma bm_set_eq : set i b = Ok (update i true b).
Proof.
  destruct bit_ops_32 as (H1 & H2 & H3 & H4 & H5 & H6). unfold set, bitSet. cbv zeta.
  rewrite Z.geb_leb. destruct (Z.leb_spec (blocks b) i); [lia|].
  rewrite H5. mcbn. rewrite H1. mcbn. rewrite H2, H3, H6. done.
Qed.

Lemma bm_unset_eq : unset i b = Ok (update i false b).
Proof.
  destruct bit_ops_32 as (H1 & H2 & H3 & H4 & H5 & H6). unfold unset, bitReset. cbv zeta.
  rewrite Z.geb_leb. destruct (Z.leb_spec (blocks b) i); [lia|].
  rewrite H5. mcbn. rewrite H1. mcbn. rewrite H2, H4, H6. done.
Qed.

Lemma bm_check_eq v : check i v b = Ok (Bool.eqb (bit b i) v).
Proof.
  destruct bit_ops_32 as (H1 & H2 & H3 & H4 & H5 & H6). unfold check, bitTest. cbv zeta.
  rewrite Z.geb_leb. destruct (Z.leb_spec (blocks b) i); [lia|].
  rewrite H5. mcbn. rewrite H1. mcbn. by rewrite H2.
Qed.

End access.

(** Blocks outside the bitmap are ignored. *)
Lemma bm_outside i v b :
  blocks b <= i -> set i b = Ok b /\ unset i b = Ok b /\ check i v b = Ok false.
Proof.
  intros Hi. unfold set, unset, check. rewrite Z.geb_leb. by destruct (Z.leb_spec (blocks b) i); [|lia].
Qed.

(** The two searches stop at the first block with the bit they look for; the
    blocks before it are rewritten with the bit they have. *)
Section find.
Context (v : bool) (access : Z -> AtomicBitmap -> outcome (bool * AtomicBitmap)).
Context (Haccess : forall i b, wf b -> 0 <= i < blocks b -> access i b = Ok (bit b i, update i (negb v) b)).
Context (loop : nat -> Z -> AtomicBitmap -> outcome (Z * AtomicBitmap)).
Context (Hloop0 : forall i b, loop 0%nat i b = Ok (i, b)).
Context (HloopS : forall n i b, loop (S n) i b =
  '(old, b') ← access i b; if Bool.eqb old v then Ok (i, b') else loop n (i + 1) b').

Lemma find_loop_spec n i b :
  wf b -> 0 <= i -> i + Z.of_nat n = blocks b ->
  (exists k, i <= k < blocks b /\ bit b k = v /\ (forall j, i <= j < k -> bit b j = negb v) /\
     loop n i b = Ok (k, update k (negb v) b)) \/
  ((forall j, i <= j < blocks b -> bit b j = negb v) /\ loop n i b = Ok (blocks b, b)).
Proof.
  intros Hwf. revert i. induction n as [|n IH]; intros i Hi Hn.
  - right. split; [lia|]. rewrite Hloop0. do 2 f_equal. lia.
  - rewrite HloopS, Haccess by (done || lia). mcbn. destruct (Bool.eqb_spec (bit b i) v) as [E|E].
    + left. exists i. split_and!; (done || lia).
    + assert (Hb : bit b i = negb v) by (by destruct (bit b i), v).
      assert (update i (negb v) b = b) as -> by (rewrite <- Hb; apply update_same; (done || lia)).
      destruct (IH (i + 1)) as [(k & H1 & H2 & H3 & H4)|(H1 & H2)]; [lia|lia| |].
      * left. exists k. split_and!; [lia|lia|done| |done].
        intros j Hj. destruct (decide (j = i)) as [->|]; [done|apply H3; lia].
      * right. split; [|done]. intros j Hj. destruct (decide (j = i)) as [->|]; [done|apply H1; lia].
Qed.

Lemma find_loop_list b :
  wf b ->
  match list_find (.= v) (bits b) with
  | Some (k, _) => Z.of_nat k < blocks b /\ loop (Z.to_nat (blocks b)) 0 b = Ok (Z.of_nat k, update (Z.of_nat k) (negb v) b)
  | None => loop (Z.to_nat (blocks b)) 0 b = Ok (blocks b, b)
  end.
Proof.
  intros Hwf. pose proof Hwf as (Hb & _).
  destruct (find_loop_spec (Z.to_nat (blocks b)) 0 b) as [(k & H1 & H2 & H3 & ->)|(H1 & ->)]; [done|lia|lia| |].
  - assert (list_find (.= v) (bits b) = Some (Z.to_nat k, v)) as ->.
    { apply list_find_Some. rewrite bits_lookup, H2 by lia. split_and!; [done..|].
      intros j y Hj Hlt. rewrite bits_lookup_nat in Hj. case_decide; [|done]. injection Hj as <-.
      rewrite H3 by lia. by destruct v. }
    rewrite Z2Nat.id by lia. split; [lia|done].
  - assert (list_find (.= v) (bits b) = None) as ->; [|done].
    apply list_find_None, Forall_lookup. intros j y Hj. rewrite bits_lookup_nat in Hj.
    case_decide; [|done]. injection Hj as <-. rewrite H1 by lia. by destruct v.
Qed.

End find.

Lemma findAndSet_spec b :
  wf b ->
  findAndSet b = match list_find (.= false) (bits b) with
                 | Some (k, _) => Ok (Z.of_nat k, update (Z.of_nat k) true b)
                 | None => Ok (INVALID_INDEX, b)
                 end.
Proof.
  intros Hwf. unfold findAndSet.
  pose proof (find_loop_list false testAndSet (fun i b => testAndSet_eq b i) findAndSet_loop) as H.
  specialize (H ltac:(done)).
  specialize (H ltac:(intros n i b'; cbn [findAndSet_loop]; destruct (testAndSet i b') as [[[] ?]| | |]; done) b Hwf).
  destruct (list_find _ _) as [[k x]|]; [destruct H as [Hk ->]|rewrite H]; mcbn.
  - cbn [blocks update with_bitmap]. destruct (Z.eqb_spec (Z.of_nat k) (blocks b)); [lia|done].
  - by rewrite Z.eqb_refl.
Qed.

Lemma findAndUnset_spec b :
  wf b ->
  findAndUnset b = match list_find (.= true) (bits b) with
                   | Some (k, _) => Ok (Z.of_nat k, update (Z.of_nat k) false b)
                   | None => Ok (INVALID_INDEX, b)
                   end.
Proof.
  intros Hwf. unfold findAndUnset.
  pose proof (find_loop_list true testAndReset (fun i b => testAndReset_eq b i) findAndUnset_loop) as H.
  specialize (H ltac:(done)).
  specialize (H ltac:(intros n i b'; cbn [findAndUnset_loop]; destruct (testAndReset i b') as [[[] ?]| | |]; done) b Hwf).
  destruct (list_find _ _) as [[k x]|]; [destruct H as [Hk ->]|rewrite H]; mcbn.
  - cbn [blocks update with_bitmap]. destruct (Z.eqb_spec (Z.of_nat k) (blocks b)); [lia|done].
  - by rewrite Z.eqb_refl.
Qed.

(** ** The bitmap implements a list of bits *)

Inductive op := Set_ (block : Z) | Unset (block : Z) | Check (block : Z) (v : bool) | FindAndSet | FindAndUnset.

Definition op_ok (o : op) : Prop :=
  match o with Set_ i | Unset i | Check i _ => in_u 32 i | FindAndSet | FindAndUnset => True end.

(** Results: a truth value and an index. *)
Definition exec (o : op) (b : AtomicBitmap) : outcome ((bool * Z) * AtomicBitmap) :=
  match o with
  | Set_ i => b ← set i b; Ok ((true, 0), b)
  | Unset i => b ← unset i b; Ok ((true, 0), b)
  | Check i v => r ← check i v b; Ok ((r, 0), b)
  | FindAndSet => '(i, b) ← findAndSet b; Ok ((true, i), b)
  | FindAndUnset => '(i, b) ← findAndUnset b; Ok ((true, i), b)
  end.

Definition spec_find (v : bool) (l : list bool) : Z * list bool :=
  match list_find (.= v) l with
  | Some (k, _) => (Z.of_nat k, <[k := negb v]> l)
  | None => (INVALID_INDEX, l)
  end.

Definition spec (o : op) (l : list bool) : (bool * Z) * list bool :=
  match o with
  | Set_ i => ((true, 0), <[Z.to_nat i := true]> l)
  | Unset i => ((true, 0), <[Z.to_nat i := false]> l)
  | Check i v => ((bool_decide (l !! Z.to_nat i = Some v), 0), l)
  | FindAndSet => let '(i, l) := spec_find false l in ((true, i), l)
  | FindAndUnset => let '(i, l) := spec_find true l in ((true, i), l)
  end.

Fixpoint exec_all (os : list op) (b : AtomicBitmap) : outcome (list (bool * Z) * AtomicBitmap) :=
  match os with
  | [] => Ok ([], b)
  | o :: os => '(r, b) ← exec o b; '(rs, b) ← exec_all os b; Ok (r :: rs, b)
  end.

Fixpoint spec_all (os : list op) (l : list bool) : list (bool * Z) * list bool :=
  match os with
  | [] => ([], l)
  | o :: os => let '(r, l) := spec o l in let '(rs, l) := spec_all os l in (r :: rs, l)
  end.

Lemma new_wf n : in_u 32 n -> wf (AtomicBitmap_new n).
Proof.
  intros Hn. unfold_ints. unfold AtomicBitmap_new, wf. cbn [blocks arraySize bitmap].
  assert ((if n mod 32 =? 0 then n / 32 else n / 32 + 1) = (n + 31) / 32) as ->.
  { destruct (Z.eqb_spec (n mod 32) 0); Z.to_euclidean_division_equations; lia. }
  split; [done|]. split; [done|]. split.
  - unfold zlen. rewrite length_replicate. Z.to_euclidean_division_equations; lia.
  - by apply Forall_replicate.
Qed.

Lemma new_bits n : bits (AtomicBitmap_new n) = replicate (Z.to_nat n) false.
Proof.
  apply list_eq. intros k. rewrite bits_lookup_nat. cbn [blocks AtomicBitmap_new]. case_decide.
  - rewrite lookup_replicate_2 by lia. f_equal. unfold bit, word, AtomicBitmap_new. cbn [bitmap].
    assert (Hd : forall m j, default 0 (replicate m 0 !! j) = 0).
    { intros m j. destruct (replicate m 0 !! j) eqn:E; [|done]. by apply lookup_replicate_1 in E as [-> _]. }
    by rewrite Hd, Z.testbit_0_l.
  - symmetry. apply lookup_replicate_None. lia.
Qed.

Lemma update_ok i v b :
  wf b -> 0 <= i < blocks b ->
  wf (update i v b) /\ blocks (update i v b) = blocks b /\ bits (update i v b) = <[Z.to_nat i := v]> (bits b).
Proof. intros. split_and!; [by apply update_wf|done|by apply bits_update]. Qed.

Lemma bm_exec_refines o b :
  op_ok o -> wf b ->
  exists b', exec o b = Ok ((spec o (bits b)).1, b') /\ wf b' /\ blocks b' = blocks b /\
    bits b' = (spec o (bits b)).2.
Proof.
  intros Ho Hwf. pose proof Hwf as (Hb & _). pose proof (bits_length b ltac:(lia)) as Hl. unfold zlen in Hl.
  destruct o as [i|i|i v| |]; cbn [op_ok exec spec fst snd] in *; unfold in_u in *.
  - destruct (decide (i < blocks b)).
    + rewrite bm_set_eq by (done || lia). mcbn. eexists. split; [done|].
      apply update_ok; (done || lia).
    + destruct (bm_outside i true b) as (-> & _); [lia|]. mcbn. exists b.
      rewrite list_insert_ge by lia. done.
  - destruct (decide (i < blocks b)).
    + rewrite bm_unset_eq by (done || lia). mcbn. eexists. split; [done|].
      apply update_ok; (done || lia).
    + destruct (bm_outside i true b) as (_ & -> & _); [lia|]. mcbn. exists b.
      rewrite list_insert_ge by lia. done.
  - exists b. split; [|done]. destruct (decide (i < blocks b)).
    + rewrite bm_check_eq, bits_lookup by (done || lia). mcbn. do 3 f_equal.
      case_bool_decide as E; destruct (bit b i), v; try done; by destruct E.
    + destruct (bm_outside i v b) as (_ & _ & ->); [lia|]. mcbn. rewrite bits_lookup_nat.
      rewrite decide_False by lia. done.
  - rewrite findAndSet_spec by done. unfold spec_find. destruct (list_find _ _) as [[k x]|] eqn:E; mcbn; [|eauto].
    apply list_find_Some in E as (E & _). rewrite bits_lookup_nat in E. case_decide; [|done].
    eexists. split; [done|]. rewrite <- (Nat2Z.id k) at 4. apply update_ok; (done || lia).
  - rewrite findAndUnset_spec by done. unfold spec_find. destruct (list_find _ _) as [[k x]|] eqn:E; mcbn; [|eauto].
    apply list_find_Some in E as (E & _). rewrite bits_lookup_nat in E. case_decide; [|done].
    eexists. split; [done|]. rewrite <- (Nat2Z.id k) at 4. apply update_ok; (done || lia).
Qed.

(** Any sequence of set, unset, check, findAndSet and findAndUnset on a
    fresh bitmap gives the results of the same operations on a list of bits,
    and leaves a well-formed bitmap with exactly those bits. *)
Theorem AtomicBitmap_refines_bits n os :
  in_u 32 n -> Forall op_ok os ->
  exists b, exec_all os (AtomicBitmap_new n) = Ok ((spec_all os (replicate (Z.to_nat n) false)).1, b) /\
    wf b /\ bits b = (spec_all os (replicate (Z.to_nat n) false)).2.
Proof.
  intros Hn Hos. rewrite <- new_bits. pose proof (new_wf n Hn) as Hwf. revert Hwf.
  generalize (AtomicBitmap_new n). induction Hos as [|o os Ho _ IH]; intros b Hwf; cbn [exec_all spec_all]; [eauto|].
  destruct (bm_exec_refines o b Ho Hwf) as (b1 & -> & Hwf1 & _ & Hb1). mcbn.
  destruct (spec o (bits b)) as [r l]. cbn [fst snd] in *. subst l.
  destruct (IH b1 Hwf1) as (b2 & -> & Hwf2 & Hb2). mcbn.
  destruct (spec_all os (bits b1)) as [rs l]. eauto.
Qed.

Lemma AtomicBitmap_refines_bits_witness :
  exists b, exec_all [FindAndSet; FindAndSet; Unset 0; FindAndSet; FindAndSet; Check 32 true; Check 40 false; Set_ 39; FindAndUnset]
              (AtomicBitmap_new 40)
            = Ok ([(true, 0); (true, 1); (true, 0); (true, 0); (true, 2); (false, 0); (false, 0); (true, 0); (true, 0)], b) /\ wf b.
Proof.
  destruct (AtomicBitmap_refines_bits 40
    [FindAndSet; FindAndSet; Unset 0; FindAndSet; FindAndSet; Check 32 true; Check 40 false; Set_ 39; FindAndUnset])
    as (b & H & Hwf & _).
  - split; done.
  - repeat (constructor; [cbn; try done; split; done|]). constructor.
  - exists b. split; [|done]. rewrite H. vm_compute. reflexivity.
Defined.

(** ** Threads that share a bitmap *)
Module Shared.

(** A thread that wants a block runs [findAndSet], one test-and-set at a time,
    keeps the block it gets, and gives it back with [unset]. *)
Inductive pc := Idle | Scan (i : Z) | Owns (i : Z).

#[local] Instance pc_eq_dec : EqDecision pc.
Proof. solve_decision. Defined.

Record state := st { map : AtomicBitmap; threads : Z -> pc }.

Definition step_thread (r : pc) (b : AtomicBitmap) : outcome (pc * AtomicBitmap) :=
  match r with
  | Idle => Ok (Scan 0, b)
  | Scan i =>
    if i <? blocks b then
      '(old, b) ← testAndSet i b;
      Ok (if negb old then Owns i else Scan (i + 1), b)
    else Ok (Idle, b)
  | Owns i => b ← unset i b; Ok (Idle, b)
  end.

Definition step (t : Z) (s : state) : outcome state :=
  '(r, b) ← step_thread (threads s t) (map s);
  Ok (st b (<[t := r]> (threads s))).

Fixpoint run (sched : list Z) (s : state) : outcome state :=
  match sched with
  | [] => Ok s
  | t :: sched => step t s ≫= run sched
  end.

Definition init (n : Z) : state := st (AtomicBitmap_new n) (fun _ => Idle).

(** The steps of one thread alone are [findAndSet]. *)
Fixpoint run_alone (n : nat) (r : pc) (b : AtomicBitmap) : outcome (pc * AtomicBitmap) :=
  match n with
  | O => Ok (r, b)
  | S n => '(r, b) ← step_thread r b; match r with Scan _ => run_alone n r b | _ => Ok (r, b) end
  end.

Lemma run_alone_loop n i b :
  wf b -> 0 <= i -> i + Z.of_nat n = blocks b ->
  run_alone (S n) (Scan i) b =
  '(k, b') ← findAndSet_loop n i b; Ok (if k =? blocks b then Idle else Owns k, b').
Proof.
  intros Hwf. revert i. induction n as [|n IH]; intros i Hi Hn.
  - cbn -[Z.ltb]. destruct (Z.ltb_spec i (blocks b)); [lia|]. mcbn. destruct (Z.eqb_spec i (blocks b)); (done || lia).
  - change (run_alone (S (S n)) (Scan i) b) with
      ('(r, b) ← step_thread (Scan i) b; match r with Scan _ => run_alone (S n) r b | _ => Ok (r, b) end).
    cbn [findAndSet_loop step_thread]. destruct (Z.ltb_spec i (blocks b)); [|lia].
    rewrite testAndSet_eq by (done || lia). mcbn. destruct (bit b i) eqn:E; mcbn.
    + assert (update i true b = b) as -> by (rewrite <- E; apply update_same; (done || lia)).
      apply IH; lia.
    + destruct (Z.eqb_spec i (blocks b)); [lia|done].
Qed.

(** A block is set exactly when one thread owns it. *)
Definition inv (s : state) : Prop :=
  wf (map s) /\
  (forall t i, threads s t = Scan i -> 0 <= i) /\
  (forall t i, threads s t = Owns i -> 0 <= i < blocks (map s) /\ bit (map s) i = true) /\
  (forall i, 0 <= i < blocks (map s) -> bit (map s) i = true -> exists t, threads s t = Owns i) /\
  (forall t u i, threads s t = Owns i -> threads s u = Owns i -> t = u).

(** A step changes one thread and at most the bit of one block. *)
Lemma inv_insert s t r b :
  inv s -> wf b -> blocks b = blocks (map s) ->
  (forall i, r = Scan i -> 0 <= i) ->
  (forall i, 0 <= i < blocks b ->
     bit b i = if decide (r = Owns i) then true
               else if decide (threads s t = Owns i) then false else bit (map s) i) ->
  (forall i, r = Owns i -> 0 <= i < blocks b /\ bit (map s) i = false) ->
  inv (st b (<[t := r]> (threads s))).
Proof.
  intros (_ & Hs & Ho & Hc & Hu) Hwf Hb Hr Hbit Hown. split_and!; cbn [map threads]; [done|..].
  - intros u i. destruct (decide (u = t)) as [->|]; [rewrite fn_lookup_insert; auto|].
    rewrite fn_lookup_insert_ne by done. apply Hs.
  - intros u i. destruct (decide (u = t)) as [->|].
    + rewrite fn_lookup_insert. intros E. destruct (Hown i E) as [Hi _]. split; [done|].
      rewrite Hbit by done. by rewrite decide_True.
    + rewrite fn_lookup_insert_ne by done. intros E. destruct (Ho u i E) as [Hi Hbi].
      split; [lia|]. rewrite Hbit by lia. case_decide; [done|]. case_decide as E'; [|done].
      by rewrite (Hu u t i E E') in *.
  - intros i Hi. rewrite Hbit by done. case_decide as E; [intros _; exists t; by rewrite fn_lookup_insert|].
    case_decide as E'; [done|]. intros Hbi. destruct (Hc i) as [u Hu']; [lia|done|].
    exists u. rewrite fn_lookup_insert_ne; [done|]. intros <-. done.
  - intros u v i. destruct (decide (u = t)) as [->|], (decide (v = t)) as [->|];
      rewrite ?fn_lookup_insert, ?fn_lookup_insert_ne by done; [done|..|apply Hu].
    + intros E E'. destruct (Hown i E) as [_ Hf]. destruct (Ho v i E') as [_ Ht]. congruence.
    + intros E E'. destruct (Hown i E') as [_ Hf]. destruct (Ho u i E) as [_ Ht]. congruence.
Qed.

Lemma shared_inv_step t s : inv s -> exists s', step t s = Ok s' /\ inv s'.
Proof.
  intros Hinv. pose proof Hinv as (Hwf & Hs & Ho & _). unfold step, step_thread.
  destruct (threads s t) as [|i|i] eqn:E.
  - mcbn. eexists. split; [reflexivity|]. apply inv_insert; [done..| | |]; try done.
    + intros i [= <-]. done.
    + intros i Hi. rewrite decide_False by done. by rewrite decide_False by congruence.
  - destruct (Z.ltb_spec i (blocks (map s))) as [Hi|Hi].
    + pose proof (Hs t i E). rewrite testAndSet_eq by (done || lia). mcbn. eexists. split; [done|].
      apply inv_insert; [done|apply update_wf; (done || lia)|done|..].
      * intros j. destruct (bit (map s) i); cbn; intros [= <-]. lia.
      * cbn. intros j Hj. rewrite bit_update by (done || lia). rewrite E, (decide_False (P := Scan i = Owns j)) by done.
        destruct (bit (map s) i) eqn:Eb; cbn.
        -- rewrite (decide_False (P := Scan (i + 1) = Owns j)) by done. case_decide; [by subst|done].
        -- destruct (decide (j = i)) as [->|]; [by rewrite decide_True|]. rewrite decide_False by congruence. done.
      * intros j. destruct (bit (map s) i) eqn:Eb; cbn; intros [= <-]. split; [cbn; lia|done].
    + mcbn. eexists. split; [done|]. apply inv_insert; [done..| | |]; try done.
      intros j Hj. rewrite decide_False by done. by rewrite decide_False by congruence.
  - destruct (Ho t i E) as [Hi Hbi]. rewrite bm_unset_eq by done. mcbn. eexists. split; [done|].
    apply inv_insert; [done|by apply update_wf|done|done| |done].
    intros j Hj. cbn in Hj. rewrite bit_update by done.
    rewrite (decide_False (P := Idle = Owns j)) by done. rewrite E.
    destruct (decide (j = i)) as [->|]; [by rewrite decide_True|by rewrite decide_False by congruence].
Qed.

Lemma shared_inv_init n : in_u 32 n -> inv (init n).
Proof.
  intros Hn. split_and!; cbn; [by apply new_wf|done..| |done].
  intros i Hi Hb. pose proof (bits_lookup (AtomicBitmap_new n) i Hi) as H. rewrite new_bits, Hb in H.
  by apply lookup_replicate_1 in H as [? _].
Qed.

(** C28: Threads that take blocks with findAndSet and give them back with unset,
    their test-and-set accesses interleaved by any schedule, never own the
    same block, and a bit is set exactly when one of them owns the block. *)
Theorem findAndSet_exclusive n sched :
  in_u 32 n ->
  exists s, run sched (init n) = Ok s /\
    (forall t u i, threads s t = Owns i -> threads s u = Owns i -> t = u) /\
    (forall i, 0 <= i < n -> bit (map s) i = true <-> exists t, threads s t = Owns i).
Proof.
  intros Hn. assert (H : exists s, run sched (init n) = Ok s /\ inv s /\ blocks (map s) = n).
  { pose proof (shared_inv_init n Hn) as H. assert (Hb : blocks (map (init n)) = n) by done. revert H Hb.
    generalize (init n). induction sched as [|t sched IH]; intros s Hs Hb; [eauto|]. cbn [run].
    destruct (shared_inv_step t s Hs) as (s1 & H1 & Hi1). rewrite H1. mcbn. apply IH; [done|].
    unfold step, step_thread in H1. destruct Hs as (Hwf & Hsc & Ho & _).
    destruct (threads s t) as [|i|i] eqn:E.
    - by injection H1 as <-.
    - destruct (Z.ltb_spec i (blocks (map s))); [|by injection H1 as <-].
      pose proof (Hsc t i E). rewrite testAndSet_eq in H1 by (done || lia). by injection H1 as <-.
    - destruct (Ho t i E). rewrite bm_unset_eq in H1 by done. by injection H1 as <-. }
  destruct H as (s & Hr & (Hwf & _ & Ho & Hc & Hu) & Hb). exists s. split_and!; [done|done|].
  intros i Hi. split; [apply Hc; lia|]. intros [t Ht]. by apply (Ho t).
Qed.

Lemma findAndSet_exclusive_witness :
  exists s, run [1; 2; 1; 2; 2] (init 3) = Ok s /\ threads s 1 = Owns 0 /\ threads s 2 = Owns 1 /\
    (bit (map s) 2 = true <-> exists t, threads s t = Owns 2).
Proof.
  destruct (findAndSet_exclusive 3 [1; 2; 1; 2; 2]) as (s & H & _ & Hc); [split; done|].
  exists s. split; [done|]. split_and!; [injection H as <-; vm_compute; reflexivity..|apply Hc; lia].
Defined.

End Shared.
