(* ===== verification/Array.v ===== *)
(** * [Util::Array] and [Util::Iterator]

    Model of [src/lib/util/collection/Array.h] (an array whose index operator is
    checked, with its bubble sort) and of [src/lib/util/collection/Iterator.h]
    (an index into a copy of an array, what a range-based [for] over a
    collection uses). *)

From S2P Require Import Prelude.
From Stdlib Require Import Sorted.
Open Scope Z_scope.

Record Array (T : Type) := mkArray { array : list T; capacity : Z }.
Arguments mkArray {T} array capacity.
Arguments array {T} a.
Arguments capacity {T} a.

Section Operations.
Context {T : Type} (dflt : T).
(** [operator>] of the element type *)
Context (gt : T -> T -> bool).

Definition Array_new (capacity : Z) : Array T :=
  mkArray (replicate (Z.to_nat capacity) dflt) capacity.

(** The initializer-list and the copy constructor both copy element by element
    into a new array. *)
Definition Array_of (list : list T) : outcome (Array T) :=
  a ← copy_loop (length list) list (replicate (length list) dflt);
  Ok (mkArray a (zlen list)).

Definition Array_copy (other : Array T) : outcome (Array T) :=
  a ← copy_loop (Z.to_nat (capacity other)) (array other)
        (replicate (Z.to_nat (capacity other)) dflt);
  Ok (mkArray a (capacity other)).

(** [operator=]: the old array is deleted, its contents play no role. *)
Definition Array_assign (self other : Array T) : outcome (Array T) := Array_copy other.

(** [operator[]], read and write *)
Definition index_get (index : Z) (a : Array T) : outcome T :=
  if capacity a <=? index then Throw OUT_OF_BOUNDS else aget (array a) index.

Definition index_set (index : Z) (x : T) (a : Array T) : outcome (Array T) :=
  if capacity a <=? index then Throw OUT_OF_BOUNDS
  else l ← aset (array a) index x; Ok (mkArray l (capacity a)).

Definition length_ (a : Array T) : Z := capacity a.

Definition clear (a : Array T) : Array T := Array_new (capacity a).

(** [wrap(source, size)]: [source] is a raw array. *)
Definition wrap (source : list T) (size : Z) : outcome (Array T) :=
  for_up (Z.to_nat size) 0 (fun i tmp => x ← aget source i; index_set i x tmp) (Array_new size).

(** One [for] of the bubble sort, from index [i] to [bound = length - 1], an
    unsigned difference.  The state is the array and [hasChanged]; an index past
    the end throws, so the fuel [length + 1] is enough. *)
Fixpoint sort_pass (fuel : nat) (i bound : Z) (s : Array T * bool) : outcome (Array T * bool) :=
  if i <? bound then
    match fuel with
    | O => Loops
    | S fuel =>
        x ← index_get i s.1;
        y ← index_get (u32 (i + 1)) s.1;
        s ← (if gt x y then
               tmp ← index_get i s.1;
               y ← index_get (u32 (i + 1)) s.1;
               a ← index_set i y s.1;
               a ← index_set (u32 (i + 1)) tmp a;
               Ok (a, true)
             else Ok s);
        sort_pass fuel (i + 1) bound s
    end
  else Ok s.

Definition sort_fuel (a : Array T) : nat := S (length (array a) * length (array a)).

Definition sort (a : Array T) : outcome (Array T) :=
  let length_ := capacity a in
  fst <$> while (sort_fuel a) (fun s => s.2)
    (fun s => sort_pass (S (length (array a))) 0 (u32 (length_ - 1)) (s.1, false)) (a, true).

Context `{EqDecision T}.

(** A range-based [for] over the array itself: pointers from [begin] to [end]. *)
Definition contains (element : T) (a : Array T) : bool :=
  existsb (fun value => bool_decide (value = element)) (array a).

(** ** Invariant and behaviour *)

Definition wf (a : Array T) : Prop := zlen (array a) = capacity a /\ capacity a < 2 ^ 32.

Lemma index_get_spec i a :
  wf a -> 0 <= i ->
  index_get i a = match array a !! Z.to_nat i with Some x => Ok x | None => Throw OUT_OF_BOUNDS end.
Proof.
  intros [Hl _] Hi. unfold index_get, zlen in *. destruct (Z.leb_spec (capacity a) i).
  - by rewrite (proj2 (lookup_ge_None _ _)) by lia.
  - destruct (aget_in (array a) i) as (x & -> & ->); [unfold zlen; lia|done].
Qed.

Lemma index_set_spec i x a :
  wf a -> 0 <= i < capacity a ->
  index_set i x a = Ok (mkArray (<[Z.to_nat i := x]> (array a)) (capacity a)).
Proof.
  intros [Hl _] Hi. unfold index_set. destruct (Z.leb_spec (capacity a) i); [lia|].
  rewrite aset_in by lia. done.
Qed.

Lemma Array_copy_spec a : wf a -> Array_copy a = Ok a.
Proof.
  intros [Hl _]. unfold Array_copy, zlen in *. rewrite copy_loop_spec by (rewrite ?length_replicate; lia). cbn.
  rewrite take_ge, drop_ge by (rewrite ?length_replicate; lia). rewrite app_nil_r. by destruct a.
Qed.

(** ** The bubble sort *)

Fixpoint inversions (l : list T) : nat :=
  match l with
  | [] => 0
  | x :: l => length (filter (fun y => gt x y = true) l) + inversions l
  end.

Lemma filter_length_perm (P : T -> Prop) `{!forall x, Decision (P x)} l k :
  l ≡ₚ k -> length (filter P l) = length (filter P k).
Proof. by intros ->. Qed.

Hypothesis gt_asym : forall x y, gt x y = true -> gt y x = false.

Lemma inversions_swap l x y k :
  gt x y = true -> inversions (l ++ x :: y :: k) = S (inversions (l ++ y :: x :: k)).
Proof.
  intros Hxy. induction l as [|z l IH]; cbn [inversions app].
  - pose proof (gt_asym _ _ Hxy) as Hyx. rewrite !filter_cons.
    rewrite decide_True, decide_False by congruence. cbn [length]. lia.
  - rewrite IH. rewrite (filter_length_perm _ (l ++ x :: y :: k) (l ++ y :: x :: k)).
    + lia.
    + apply Permutation_app_head. constructor.
Qed.

Lemma inversions_bound l : (inversions l <= length l * length l)%nat.
Proof.
  induction l as [|x l IH]; cbn; [done|]. pose proof (length_filter (fun y => gt x y = true) l). nia.
Qed.

(** Swapping two neighbours in place. *)
Lemma swap_neighbours (l : list T) (i : nat) x y :
  l !! i = Some x -> l !! S i = Some y ->
  exists l1 l2, l = l1 ++ x :: y :: l2 /\ <[S i := x]> (<[i := y]> l) = l1 ++ y :: x :: l2.
Proof.
  intros Hx Hy. exists (take i l), (drop (S (S i)) l).
  assert (l = take i l ++ x :: y :: drop (S (S i)) l) as Hl.
  { rewrite <- (take_drop i l) at 1. f_equal. rewrite (drop_S l x i) by done. f_equal. by apply drop_S. }
  split; [done|]. rewrite Hl at 1. apply lookup_lt_Some in Hx as Hi.
  rewrite insert_app_r_alt by (rewrite length_take; lia). rewrite insert_app_r_alt by (rewrite length_take; lia).
  rewrite length_take_le by lia. rewrite Nat.sub_diag. replace (S i - i)%nat with 1%nat by lia. done.
Qed.

Lemma sort_pass_spec fuel i a c :
  wf a -> 0 < capacity a -> 0 <= i -> (Z.to_nat (capacity a - 1 - i) <= fuel)%nat ->
  exists a' c', sort_pass fuel i (capacity a - 1) (a, c) = Ok (a', c') /\
    wf a' /\ capacity a' = capacity a /\ array a' ≡ₚ array a /\
    (inversions (array a') <= inversions (array a))%nat /\
    (c' = true -> c = true \/ (inversions (array a') < inversions (array a))%nat) /\
    (c' = false -> c = false /\ a' = a /\
       forall j x y, (Z.to_nat i <= j)%nat -> array a !! j = Some x -> array a !! S j = Some y -> gt x y = false).
Proof.
  revert i a c. induction fuel as [|fuel IH]; intros i a c Hwf Hpos Hi Hf; cbn [sort_pass];
    destruct (Z.ltb_spec i (capacity a - 1)) as [Hlt|Hge]; try lia; pose proof Hwf as [Hl Hc]; unfold zlen in Hl.
  1, 3: exists a, c; split_and!; try done; [by left|]; intros ->; split_and!; try done;
    intros j x y Hj Hx Hy; apply lookup_lt_Some in Hy; lia.
  assert (u32 (i + 1) = i + 1) as -> by (apply wrap_small; unfold in_u; lia). cbn [fst].
  rewrite !index_get_spec by (done || lia). replace (Z.to_nat (i + 1)) with (S (Z.to_nat i)) by lia.
  destruct (lookup_lt_is_Some_2 (array a) (Z.to_nat i)) as [x Hx]; [lia|].
  destruct (lookup_lt_is_Some_2 (array a) (S (Z.to_nat i))) as [y Hy]; [lia|]. rewrite Hx, Hy. cbn.
  destruct (gt x y) eqn:Hg; cbn.
  - rewrite index_set_spec by (done || lia). cbn.
    set (a1 := mkArray (<[Z.to_nat i := y]> (array a)) (capacity a)).
    assert (wf a1) by (split; cbn; rewrite ?zlen_insert; unfold zlen; lia).
    rewrite index_set_spec by (done || (cbn; lia)). cbn. replace (Z.to_nat (i + 1)) with (S (Z.to_nat i)) by lia.
    destruct (swap_neighbours _ _ _ _ Hx Hy) as (l1 & l2 & E1 & E2). rewrite E2.
    set (a2 := mkArray (l1 ++ y :: x :: l2) (capacity a)).
    assert (wf a2) as Hwf2.
    { split; cbn; [|lia]. rewrite <- Hl, E1. unfold zlen. rewrite !length_app. done. }
    destruct (IH (i + 1) a2 true Hwf2) as (a' & c' & H1 & H2 & H3 & H4 & H5 & H6 & H7); [cbn; lia..|].
    exists a', c'. cbn [capacity a2] in *. split_and!; try done.
    + rewrite H4, E1. cbn. apply Permutation_app_head. constructor.
    + rewrite E1, inversions_swap by done. cbn [array a2] in H5. lia.
    + intros _. right. rewrite E1, inversions_swap by done. cbn [array a2] in H5. lia.
    + intros ->. by destruct H7.
  - destruct (IH (i + 1) a c Hwf) as (a' & c' & H1 & H2 & H3 & H4 & H5 & H6 & H7); [lia..|].
    exists a', c'. split_and!; try done. intros Hc'. destruct (H7 Hc') as (-> & -> & H8). split_and!; try done.
    intros j u v Hj Hu Hv. destruct (decide (j = Z.to_nat i)) as [->|]; [congruence|].
    eapply (H8 j); [lia|done|done].
Qed.

Lemma Sorted_lookup (R : T -> T -> Prop) (l : list T) :
  (forall j x y, l !! j = Some x -> l !! S j = Some y -> R x y) -> Sorted R l.
Proof.
  induction l as [|x l IH]; intros H; constructor.
  - apply IH. intros j u v. apply (H (S j)).
  - destruct l as [|y l]; constructor. by apply (H 0%nat).
Qed.

(** [Array::sort] ends and gives a sorted permutation of its argument, for
    every non-empty array and every asymmetric [operator>]; an empty array
    throws [OUT_OF_BOUNDS], because [length - 1] wraps around. *)
Theorem sort_spec a :
  wf a ->
  if capacity a =? 0 then sort a = Throw OUT_OF_BOUNDS
  else exists a', sort a = Ok a' /\ wf a' /\ array a' ≡ₚ array a /\ capacity a' = capacity a /\
         Sorted (fun x y => gt x y = false) (array a').
Proof.
  intros Hwf. pose proof Hwf as [Hl Hc]. unfold zlen in Hl. unfold sort.
  destruct (Z.eqb_spec (capacity a) 0) as [E|E].
  { assert (array a = []) as Ea by (apply nil_length_inv; lia). unfold sort_fuel.
    cbn [while snd]. rewrite Ea. cbn [length sort_pass].
    destruct (Z.ltb_spec 0 (u32 (capacity a - 1))) as [_|Hn]; [|rewrite E in Hn; by vm_compute in Hn].
    cbn [fst]. unfold index_get. rewrite E. done. }
  assert (u32 (capacity a - 1) = capacity a - 1) as -> by (apply wrap_small; unfold in_u; lia).
  destruct (while_inv
    (fun s => wf s.1 /\ capacity s.1 = capacity a /\ array s.1 ≡ₚ array a /\
       (s.2 = false -> Sorted (fun x y => gt x y = false) (array s.1)))
    (fun s => (if s.2 then 1 else 0) + inversions (array s.1))%nat (fun s : Array T * bool => s.2)
    (fun s => sort_pass (S (length (array a))) 0 (capacity a - 1) (s.1, false)) (sort_fuel a) (a, true))
    as ([a' c'] & Hw & (Hwf' & Hcap & Hperm & Hsort) & Hend).
  - split_and!; done.
  - unfold sort_fuel. pose proof (inversions_bound (array a)). cbn. lia.
  - intros [b c] (Hwb & Hcb & Hpb & _) Hcc. cbn in Hcc. subst c. cbn [fst snd] in *. rewrite <- Hcb.
    destruct (sort_pass_spec (S (length (array a))) 0 b false) as (b' & c' & -> & H2 & H3 & H4 & H5 & H6 & H7);
      [done|lia|lia|lia|]. exists (b', c'). cbn [fst snd]. split; [done|]. split.
    + split_and!; [done|lia|by rewrite H4|]. intros Hf. destruct (H7 Hf) as (_ & -> & H8).
      apply Sorted_lookup. intros j x y. apply H8. lia.
    + destruct c'; [|lia]. destruct (H6 eq_refl); [done|lia].
  - rewrite Hw. cbn in *. exists a'. split_and!; try done. auto.
Qed.
End Operations.

Lemma sort_spec_witness :
  exists a', sort Z.gtb (mkArray [5; 1; 4; 1; 3] 5) = Ok a' /\ wf a' /\ array a' ≡ₚ [5; 1; 4; 1; 3] /\
    capacity a' = 5 /\ Sorted (fun x y => (x >? y) = false) (array a').
Proof.
  apply (sort_spec Z.gtb ltac:(intros x y; lia) (mkArray [5; 1; 4; 1; 3] 5)). split; done.
Defined.

(** ** Iterators *)

Record Iterator (T : Type) := mkIterator { it_array : Array T; index : Z }.
Arguments mkIterator {T} it_array index.
Arguments it_array {T} i.
Arguments index {T} i.

Section Iteration.
Context {T : Type}.

(** [begin()] and [end()] of a collection whose [toArray()] is [a] *)
Definition begin_ (a : Array T) : Iterator T := mkIterator a 0.
Definition end_ (a : Array T) : Iterator T := mkIterator a (capacity a).

Definition it_deref (i : Iterator T) : outcome T := index_get (index i) (it_array i).
Definition it_ne (i other : Iterator T) : bool := negb (index i =? index other).
Definition it_incr (i : Iterator T) : Iterator T := mkIterator (it_array i) (u32 (index i + 1)).
Definition hasNext (i : Iterator T) : bool := index i <? capacity (it_array i).
Definition next (i : Iterator T) : outcome (T * Iterator T) :=
  let i := mkIterator (it_array i) (u32 (index i + 1)) in
  x ← index_get (u32 (index i - 1)) (it_array i);
  Ok (x, i).

(** [for (element : collection) body], and the loop [while (hasNext()) next()]. *)
Fixpoint range_for {S} (fuel : nat) (it stop : Iterator T) (body : T -> S -> S) (s : S) : outcome S :=
  if it_ne it stop then
    match fuel with
    | O => Loops
    | Datatypes.S fuel => x ← it_deref it; range_for fuel (it_incr it) stop body (body x s)
    end
  else Ok s.

Fixpoint drain {S} (fuel : nat) (it : Iterator T) (body : T -> S -> S) (s : S) : outcome S :=
  if hasNext it then
    match fuel with
    | O => Loops
    | Datatypes.S fuel => '(x, it) ← next it; drain fuel it body (body x s)
    end
  else Ok s.

(** Both ways of walking over a collection visit exactly its elements, in
    order, and end after as many steps as there are elements. *)
Theorem iteration_visits_all {St} (a : Array T) (body : T -> St -> St) s :
  wf a ->
  range_for (length (array a)) (begin_ a) (end_ a) body s = Ok (fold_left (fun s x => body x s) (array a) s) /\
  drain (length (array a)) (begin_ a) body s = Ok (fold_left (fun s x => body x s) (array a) s).
Proof.
  intros Hwf. pose proof Hwf as [Hl Hc]. unfold zlen in Hl.
  assert (forall n i (s : St), 0 <= i <= capacity a -> n = length (drop (Z.to_nat i) (array a)) ->
    let r := Ok (fold_left (fun s x => body x s) (drop (Z.to_nat i) (array a)) s) in
    range_for n (mkIterator a i) (end_ a) body s = r /\ drain n (mkIterator a i) body s = r) as H.
  2:{ apply (H (length (array a)) 0); [lia|done]. }
  induction n as [|n IH]; intros i s0 Hi Hn; rewrite length_drop in Hn;
    cbn [range_for drain]; unfold it_ne, hasNext; cbn [index it_array end_].
  - rewrite drop_ge by lia. destruct (Z.eqb_spec i (capacity a)), (Z.ltb_spec i (capacity a)); try lia. done.
  - destruct (Z.eqb_spec i (capacity a)), (Z.ltb_spec i (capacity a)); try lia. cbn [negb].
    destruct (lookup_lt_is_Some_2 (array a) (Z.to_nat i)) as [x Hx]; [lia|].
    unfold it_deref, next. cbn [index it_array].
    assert (u32 (i + 1) = i + 1) as E by (apply wrap_small; unfold in_u; lia).
    assert (u32 (i + 1 - 1) = i) as E' by (replace (i + 1 - 1) with i by lia; apply wrap_small; unfold in_u; lia).
    rewrite E, E'. rewrite index_get_spec by (done || lia). rewrite Hx. cbn. unfold it_incr. cbn [index it_array]. rewrite E.
    rewrite (drop_S _ _ _ Hx). replace (S (Z.to_nat i)) with (Z.to_nat (i + 1)) by lia.
    apply IH; [lia|]. rewrite length_drop. lia.
Qed.
End Iteration.

Lemma iteration_visits_all_witness :
  range_for 3 (begin_ (mkArray [4; 5; 6] 3)) (end_ (mkArray [4; 5; 6] 3)) (fun x s => s * 10 + x) 0 = Ok 456.
Proof. apply (iteration_visits_all (mkArray [4; 5; 6] 3) (fun x s => s * 10 + x) 0). split; done. Defined.
