(* ===== verification/UtilString.v ===== *)
(** * UtilString.v: strings

    [lib/util/base/String]. A string owns a buffer of [len + 1] characters, the last
    one zero. A character is the byte [0 .. 255] in memory; where the code computes
    with a [char] it is the signed number [s8] of that byte. Every string has a
    buffer of its own, so copying between two buffers is copying between lists (see
    [copyRange_spec] in [Address.v]); an access outside a buffer is a fault.
    An [Array<String>] is the list of its elements. *)

From S2P Require Import Prelude Bits.

Record String := mkString { buffer : list Z; len : Z }.

Definition newline : Z := 10.
Definition tab : Z := 9.
Definition space : Z := 32.
Definition CASE_OFFSET : Z := 32.

(** [Address(target + toff).copyRange(Address(source + soff), n)] *)
Definition copy_chars (target : list Z) (toff : Z) (source : list Z) (soff n : Z) : outcome (list Z) :=
  for_up (Z.to_nat n) 0 (fun i t => c ← aget source (soff + i); aset t (toff + i) c) target.

(** [new char[n]]; every character is written before it is read. *)
Definition new_chars (n : Z) : list Z := replicate (Z.to_nat n) 0.

(** ** Constructors *)

Definition String_empty : String := mkString [0] 0.
Definition String_char (character : Z) : String := mkString [character; 0] 1.

(** [stringLength] on a buffer. *)
Fixpoint chars_length (fuel : nat) (string : list Z) (i : Z) : outcome Z :=
  match fuel with
  | O => Loops
  | S fuel => c ← aget string i; if c =? 0 then Ok i else chars_length fuel string (i + 1)
  end.

(** The constructor from a C string; [None] is the null pointer. *)
Definition String_cstr (string : option (list Z)) : outcome String :=
  match string with
  | None => Ok (mkString [0] 0)
  | Some string =>
    len ← chars_length (S (length string)) string 0;
    buffer ← copy_chars (new_chars (u32 (len + 1))) 0 string 0 len;
    buffer ← aset buffer len 0;
    Ok (mkString buffer len)
  end.

Definition String_data (data : list Z) (length : Z) : outcome String :=
  buffer ← copy_chars (new_chars (u32 (length + 1))) 0 data 0 length;
  buffer ← aset buffer length 0;
  Ok (mkString buffer length).

Definition String_copy (other : String) : outcome String :=
  copied ← copy_chars (new_chars (u32 (len other + 1))) 0 (buffer other) 0 (len other);
  copied ← aset copied (len other) 0;
  Ok (mkString copied (len other)).

(** ** Operations *)

Definition length_ (s : String) : Z := len s.
Definition isEmpty (s : String) : bool := len s =? 0.

Definition hashCode (s : String) : outcome Z :=
  for_up (Z.to_nat (len s)) 0 (fun i hash => c ← aget (buffer s) i; Ok (u32 (hash + s8 c))) 0.

Definition substring (begin_ end_ : Z) (s : String) : outcome String :=
  if (begin_ >? end_) || (begin_ >=? len s) then Ok String_empty
  else
    let end_ := if end_ >? len s then len s else end_ in
    let length := end_ - begin_ in
    newBuffer ← copy_chars (new_chars (length + 1)) 0 (buffer s) begin_ length;
    newBuffer ← aset newBuffer length 0;
    String_cstr (Some newBuffer).

Definition substring_from (begin_ : Z) (s : String) : outcome String := substring begin_ (length_ s) s.

(** [for (i = start; i < len; i++) if (buffer[i] == character) return i;] *)
Definition indexOf_char (character start : Z) (s : String) : outcome Z :=
  '(r, _) ← for_find (Z.to_nat (len s - start)) start (fun i (u : unit) =>
     c ← aget (buffer s) i; Ok (if c =? character then Some i else None, u)) tt;
  Ok (default UINT32_MAX r).

(** The inner loop of [indexOf]: [inl] is the early return, [inr] the value of [j]
    after the loop. *)
Fixpoint match_loop (fuel : nat) (s other : String) (i j : Z) : outcome (unit + Z) :=
  match fuel with
  | O => Loops
  | S fuel =>
    if j <? len other then
      if u32 (i + j) >=? len s then Ok (inl tt)
      else
        a ← aget (buffer s) (u32 (i + j));
        b ← aget (buffer other) j;
        if negb (a =? b) then Ok (inr j) else match_loop fuel s other i (j + 1)
    else Ok (inr j)
  end.

Fixpoint indexOf_loop (n : nat) (s other : String) (i j : Z) : outcome Z :=
  match n with
  | O => Ok UINT32_MAX
  | S n =>
    a ← aget (buffer s) i;
    b ← aget (buffer other) 0;
    r ← (if a =? b then match_loop (S (Z.to_nat (len other))) s other i 1 else Ok (inr j));
    match r with
    | inl _ => Ok UINT32_MAX
    | inr j => if j =? len other then Ok i else indexOf_loop n s other (i + 1) j
    end
  end.

Definition indexOf (other : String) (start : Z) (s : String) : outcome Z :=
  indexOf_loop (Z.to_nat (len s - start)) s other start 0.

(** The loop of [split]; [fuel] bounds the number of delimiters found. *)
Fixpoint split_loop (fuel : nat) (s delimiter : String) (limit start end_ : Z) (result : list String)
  : outcome (Z * list String) :=
  if negb (end_ =? UINT32_MAX) && negb (u32 (zlen result + 1) =? limit) then
    match fuel with
    | O => Loops
    | S fuel =>
      element ← substring start end_ s;
      let result := if isEmpty element then result else result ++ [element] in
      let start := u32 (end_ + len delimiter) in
      end_ ← indexOf delimiter start s;
      split_loop fuel s delimiter limit start end_ result
    end
  else Ok (start, result).

Definition split (fuel : nat) (delimiter : String) (limit : Z) (s : String) : outcome (list String) :=
  if len s =? 0 then Ok []
  else
    end_ ← indexOf delimiter 0 s;
    '(start, result) ← split_loop fuel s delimiter limit 0 end_ [];
    element ← substring start (len s) s;
    Ok (if isEmpty element then result else result ++ [element]).

(** [buffer = reallocateMemory(buffer, len + other.len + 1)]: the old characters
    stay, then [other] is copied behind them with its terminator. *)
Definition append (s other : String) : outcome String :=
  let grown := take (Z.to_nat (u32 (len s + len other + 1))) (buffer s ++ new_chars (u32 (len s + len other + 1))) in
  b ← copy_chars grown (len s) (buffer other) 0 (u32 (len other + 1));
  Ok (mkString b (u32 (len s + len other))).

Definition plus (first second : String) : outcome String :=
  tmp ← String_copy first; append tmp second.

Definition plus_char (first : String) (second : Z) : outcome String :=
  tmp ← String_copy first; append tmp (String_char second).

Definition char_plus (first : Z) (second : String) : outcome String :=
  append (String_char first) second.

Definition plus_cstr (first : String) (second : list Z) : outcome String :=
  tmp ← String_copy first; t ← String_cstr (Some second); append tmp t.

Definition cstr_plus (first : list Z) (second : String) : outcome String :=
  tmp ← String_cstr (Some first); append tmp second.

(** [operator=] for two different strings. *)
Definition assign (other : String) : outcome String :=
  b ← copy_chars (new_chars (u32 (len other + 1))) 0 (buffer other) 0 (u32 (len other + 1));
  Ok (mkString b (len other)).

Definition remove (string s : String) : outcome String :=
  index ← indexOf string 0 s;
  if index =? UINT32_MAX then String_cstr (Some (buffer s))
  else
    a ← substring 0 index s;
    b ← substring (u32 (index + len string)) (len s) s;
    plus a b.

Fixpoint append_all (tmp : String) (tokens : list String) : outcome String :=
  match tokens with [] => Ok tmp | t :: tokens => tmp ← append tmp t; append_all tmp tokens end.

Definition removeAll (fuel : nat) (string s : String) : outcome String :=
  tokens ← split fuel string 0 s;
  append_all String_empty tokens.

(** [compareString] on two buffers. *)
Fixpoint compare_chars (fuel : nat) (a b : list Z) (i : Z) : outcome Z :=
  match fuel with
  | O => Loops
  | S fuel =>
    x ← aget a i;
    y ← aget b i;
    if negb (x =? 0) && negb (y =? 0) && (x =? y) then compare_chars fuel a b (i + 1) else Ok (x - y)
  end.

Definition equals (s other : String) : outcome bool :=
  d ← compare_chars (S (length (buffer s))) (buffer s) (buffer other) 0; Ok (d =? 0).

Definition differs (s other : String) : outcome bool :=
  d ← compare_chars (S (length (buffer s))) (buffer s) (buffer other) 0; Ok (negb (d =? 0)).

Definition beginsWith (string s : String) : outcome bool :=
  t ← substring 0 (len string) s; equals t string.

Definition endsWith (string s : String) : outcome bool :=
  t ← substring (u32 (len s - len string)) (len s) s; equals t string.

Definition index_get (index : Z) (s : String) : outcome Z := aget (buffer s) index.
Definition index_set (index value : Z) (s : String) : outcome String :=
  b ← aset (buffer s) index value; Ok (mkString b (len s)).

(** [elements[i]] of an [Array] throws outside of its bounds. *)
Definition element (elements : list String) (i : Z) : outcome String :=
  match elements !! Z.to_nat i with Some e => Ok e | None => Throw OUT_OF_BOUNDS end.

(** The loop runs to [size - 1], a huge number for an empty array; it ends at the
    exception of [elements[i]]. *)
Fixpoint join_loop (n : nat) (separator : String) (elements : list String) (i : Z) (tmp : String) : outcome String :=
  if i <? u32 (zlen elements - 1) then
    match n with
    | O => Loops
    | S n =>
      e ← element elements i;
      t ← plus e separator;
      tmp ← append tmp t;
      join_loop n separator elements (i + 1) tmp
    end
  else Ok tmp.

Definition join (separator : String) (elements : list String) : outcome String :=
  tmp ← join_loop (S (length elements)) separator elements 0 String_empty;
  e ← element elements (u32 (zlen elements - 1));
  append tmp e.

Definition isAlpha (c : Z) : bool := ((65 <=? s8 c) && (s8 c <=? 90)) || ((97 <=? s8 c) && (s8 c <=? 122)).
Definition isNumeric (c : Z) : bool := (48 <=? s8 c) && (s8 c <=? 57).

Definition toUpperCase (s : String) : outcome String :=
  tmp ← String_copy s;
  for_up (Z.to_nat (len s)) 0 (fun i tmp =>
    c ← index_get i tmp;
    if isAlpha c then if s8 c <=? 90 then Ok tmp else index_set i (u8 (s8 c - CASE_OFFSET)) tmp else Ok tmp) tmp.

Definition toLowerCase (s : String) : outcome String :=
  tmp ← String_copy s;
  for_up (Z.to_nat (len s)) 0 (fun i tmp =>
    c ← index_get i tmp;
    if isAlpha c then if s8 c >=? 97 then Ok tmp else index_set i (u8 (s8 c + CASE_OFFSET)) tmp else Ok tmp) tmp.

Definition contains (c : Z) (s : String) : outcome bool := i ← indexOf_char c 0 s; Ok (i <? UINT32_MAX).

Definition is_blank (c : Z) : bool := (c =? tab) || (c =? newline) || (c =? space).

(** The first loop of [strip]: [inl] is the early return of one character. *)
Fixpoint strip_start (n : nat) (s : String) (startIndex : Z) : outcome (Z + Z) :=
  match n with
  | O => Ok (inr startIndex)
  | S n =>
    element ← aget (buffer s) startIndex;
    if negb (is_blank element) then
      if startIndex =? u32 (len s - 1) then c ← aget (buffer s) startIndex; Ok (inl c) else Ok (inr startIndex)
    else strip_start n s (startIndex + 1)
  end.

Fixpoint strip_end (fuel : nat) (s : String) (startIndex endIndex : Z) : outcome Z :=
  if endIndex >? startIndex then
    match fuel with
    | O => Loops
    | S fuel =>
      element ← aget (buffer s) endIndex;
      if negb (is_blank element) then Ok endIndex else strip_end fuel s startIndex (endIndex - 1)
    end
  else Ok endIndex.

Definition strip (s : String) : outcome String :=
  r ← strip_start (Z.to_nat (len s)) s 0;
  match r with
  | inl c => Ok (String_char c)
  | inr startIndex =>
    endIndex ← strip_end (S (length (buffer s))) s startIndex (u32 (len s - 1));
    if (startIndex =? endIndex) && (len s >? 1) then Ok String_empty
    else substring startIndex (u32 (endIndex + 1)) s
  end.

(** ** Numbers *)

(** The loop of [parseInt] from the last character down to [limit]. *)
Fixpoint parse_loop (n : nat) (string : list Z) (i j result : Z) : outcome Z :=
  match n with
  | O => Ok result
  | S n =>
    c ← aget string i;
    if isNumeric c then parse_loop n string (i - 1) (s32 (j * 10)) (s32 (result + s32 ((s8 c - 48) * j)))
    else parse_loop n string (i - 1) j result
  end.

Definition parseInt (string : list Z) : outcome Z :=
  length ← chars_length (S (length string)) string 0;
  c ← aget string 0;
  let '(limit, modifier) := if c =? 45 then (1, -1) else (0, 1) in
  result ← parse_loop (Z.to_nat (length - limit)) string (length - 1) 1 0;
  Ok (s32 (result * modifier)).

Fixpoint parseHex_loop (n : nat) (string : list Z) (i j result : Z) : outcome Z :=
  match n with
  | O => Ok result
  | S n =>
    c ← aget string i;
    if isNumeric c then parseHex_loop n string (i - 1) (s32 (j * 16)) (s32 (result + s32 ((s8 c - 48) * j)))
    else if (65 <=? s8 c) && (s8 c <=? 70) then
      parseHex_loop n string (i - 1) (s32 (j * 16)) (s32 (result + s32 ((10 + s8 c - 65) * j)))
    else if (97 <=? s8 c) && (s8 c <=? 102) then
      parseHex_loop n string (i - 1) (s32 (j * 16)) (s32 (result + s32 ((10 + s8 c - 97) * j)))
    else parseHex_loop n string (i - 1) j result
  end.

Definition parseHexInt (string : list Z) : outcome Z :=
  length ← chars_length (S (length string)) string 0;
  parseHex_loop (Z.to_nat length) string (length - 1) 1 0.

Definition parseInt_String (string : String) : outcome Z := parseInt (buffer string).
Definition parseHexInt_String (string : String) : outcome Z := parseHexInt (buffer string).

(** * The characters of a string *)

Definition chars_ok (l : list Z) : Prop := Forall (fun c => 0 < c < 256) l.

(** The string [s] holds the characters [l]. *)
Definition repr (s : String) (l : list Z) : Prop :=
  buffer s = l ++ [0] /\ len s = zlen l /\ chars_ok l /\ zlen l < UINT32_MAX.

Lemma copy_chars_ok target toff source soff n :
  0 <= toff -> 0 <= soff -> 0 <= n -> toff + n <= zlen target -> soff + n <= zlen source ->
  copy_chars target toff source soff n =
  Ok (take (Z.to_nat toff) target ++ take (Z.to_nat n) (drop (Z.to_nat soff) source) ++ drop (Z.to_nat (toff + n)) target).
Proof.
  intros Ht Hs Hn Hlt Hls. unfold copy_chars, zlen in *.
  destruct (for_up_inv (fun i t => t = take (Z.to_nat toff) target ++ take (Z.to_nat i) (drop (Z.to_nat soff) source) ++
      drop (Z.to_nat (toff + i)) target)
    (fun i t => c ← aget source (soff + i); aset t (toff + i) c) (Z.to_nat n) 0 target) as (t & E & Ht').
  - rewrite Z.add_0_r. change (Z.to_nat 0) with 0%nat. by rewrite take_0, app_nil_l, take_drop.
  - intros i t Hi ->. destruct (aget_in source (soff + i)) as (c & Hc & Hc'); [unfold zlen; lia|]. rewrite Hc. mcbn.
    assert (Hl1 : length (take (Z.to_nat toff) target) = Z.to_nat toff) by (rewrite length_take; lia).
    assert (Hl2 : length (take (Z.to_nat i) (drop (Z.to_nat soff) source)) = Z.to_nat i) by (rewrite length_take, length_drop; lia).
    rewrite aset_in by (unfold zlen; rewrite !length_app, length_drop, Hl1, Hl2; lia). eexists. split; [done|].
    rewrite insert_app_r_alt by (rewrite Hl1; lia). f_equal. rewrite Hl1, insert_app_r_alt by (rewrite Hl2; lia). rewrite Hl2.
    replace (Z.to_nat (i + 1)) with (S (Z.to_nat i)) by lia.
    rewrite (take_S_r _ _ c) by (rewrite lookup_drop, <- Hc'; f_equal; lia). rewrite <- app_assoc. f_equal.
    replace (Z.to_nat (toff + i) - Z.to_nat toff - Z.to_nat i)%nat with 0%nat by lia.
    destruct (drop (Z.to_nat (toff + i)) target) as [|y l] eqn:Ed.
    { apply (f_equal length) in Ed. rewrite length_drop in Ed. cbn in Ed. lia. }
    cbn. f_equal. replace (Z.to_nat (toff + (i + 1))) with (Z.to_nat (toff + i) + 1)%nat by lia. by rewrite <- drop_drop, Ed.
  - rewrite E. f_equal. rewrite Ht'. rewrite Z.add_0_l, Z2Nat.id by lia. by rewrite Nat2Z.id || done.
Qed.

Lemma zlen_new n : 0 <= n -> zlen (new_chars n) = n.
Proof. intros. unfold zlen, new_chars. rewrite length_replicate. lia. Qed.

(** Copying [n] characters into a new buffer and writing the terminator. *)
Lemma copy_new_ok source soff n :
  0 <= n -> 0 <= soff -> soff + n <= zlen source ->
  (b ← copy_chars (new_chars (n + 1)) 0 source soff n; aset b n 0) = Ok (take (Z.to_nat n) (drop (Z.to_nat soff) source) ++ [0]).
Proof.
  intros Hn Hs Hl. rewrite copy_chars_ok by (rewrite ?zlen_new; lia). mcbn. change (Z.to_nat 0) with 0%nat. rewrite take_0, app_nil_l.
  assert (Hl2 : length (take (Z.to_nat n) (drop (Z.to_nat soff) source)) = Z.to_nat n).
  { unfold zlen in Hl. rewrite length_take, length_drop. lia. }
  unfold new_chars. rewrite drop_replicate. replace (Z.to_nat (n + 1) - Z.to_nat (0 + n))%nat with 1%nat by lia.
  rewrite aset_in by (unfold zlen; rewrite length_app, Hl2; cbn; lia).
  rewrite insert_app_r_alt by lia. rewrite Hl2, Nat.sub_diag. done.
Qed.

Lemma chars_length_ok fuel l rest i :
  0 <= i -> chars_ok (drop (Z.to_nat i) l) -> i <= zlen l -> (length l - Z.to_nat i < fuel)%nat ->
  chars_length fuel (l ++ 0 :: rest) i = Ok (zlen l).
Proof.
  unfold zlen. revert i. induction fuel as [|fuel IH]; intros i Hi Hl Hle Hf; [lia|]. cbn [chars_length].
  destruct (decide (i = Z.of_nat (length l))) as [->|Hne].
  - destruct (aget_in (l ++ 0 :: rest) (Z.of_nat (length l))) as (c & -> & Hc); [unfold zlen; rewrite length_app; cbn; lia|].
    rewrite Nat2Z.id, lookup_app_r, Nat.sub_diag in Hc by lia. injection Hc as <-. done.
  - destruct (aget_in (l ++ 0 :: rest) i) as (c & -> & Hc); [unfold zlen; rewrite length_app; cbn; lia|].
    rewrite lookup_app_l in Hc by lia. mcbn.
    assert (Hc0 : 0 < c < 256).
    { apply (proj1 (Forall_forall _ _) Hl), (list_elem_of_lookup_2 _ 0). rewrite lookup_drop, <- Hc. f_equal. lia. }
    destruct (Z.eqb_spec c 0); [lia|]. apply IH; [lia| |lia|lia].
    replace (Z.to_nat (i + 1)) with (Z.to_nat i + 1)%nat by lia. rewrite <- drop_drop. by apply Forall_drop.
Qed.

Lemma take_all (l : list Z) r : take (length l) (l ++ r) = l.
Proof. by rewrite take_app_length. Qed.

Lemma String_cstr_ok l rest : chars_ok l -> zlen l < UINT32_MAX ->
  exists s, String_cstr (Some (l ++ 0 :: rest)) = Ok s /\ repr s l.
Proof.
  intros Hl Hmax. unfold String_cstr. rewrite (chars_length_ok _ l rest 0); [|done|done|unfold zlen; lia|rewrite length_app; cbn; lia].
  mcbn. assert (H0 := zlen_nonneg l). replace (u32 (zlen l + 1)) with (zlen l + 1) by (unfold UINT32_MAX in *; unwrap; lia).
  pose proof (copy_new_ok (l ++ 0 :: rest) 0 (zlen l) ltac:(lia) ltac:(lia)) as E. unfold zlen in E at 2. rewrite length_app in E. specialize (E ltac:(unfold zlen; cbn; lia)).
  apply bind_ok in E as (b & E1 & E2). rewrite E1. mcbn. rewrite E2. mcbn. eexists. split; [done|].
  change (Z.to_nat 0) with 0%nat. rewrite drop_0. split_and!; try done. cbn. f_equal. unfold zlen. rewrite Nat2Z.id. apply take_all.
Qed.

Lemma repr_lookup s l i : repr s l -> 0 <= i < zlen l -> exists c, aget (buffer s) i = Ok c /\ l !! Z.to_nat i = Some c /\ 0 < c < 256.
Proof.
  intros (Hb & _ & Hl & _) Hi. rewrite Hb. destruct (aget_in (l ++ [0]) i) as (c & Hc & Hc').
  { unfold zlen in *. rewrite length_app. cbn. lia. }
  rewrite lookup_app_l in Hc' by (unfold zlen in Hi; lia). exists c. split_and!; try done; by apply (Forall_lookup_1 _ _ _ _ Hl Hc').
Qed.

Lemma String_copy_ok s l : repr s l -> exists s', String_copy s = Ok s' /\ repr s' l.
Proof.
  intros (Hb & Hl & Hc & Hm). unfold String_copy. rewrite Hl, Hb. assert (H0 := zlen_nonneg l).
  replace (u32 (zlen l + 1)) with (zlen l + 1) by (unfold UINT32_MAX in *; unwrap; lia).
  pose proof (copy_new_ok (l ++ [0]) 0 (zlen l) ltac:(lia) ltac:(lia)) as E. unfold zlen in E at 2. rewrite length_app in E. specialize (E ltac:(unfold zlen; cbn; lia)).
  apply bind_ok in E as (b & E1 & E2). rewrite E1. mcbn. rewrite E2. mcbn. eexists. split; [done|].
  change (Z.to_nat 0) with 0%nat. rewrite drop_0. split_and!; try done. cbn. unfold zlen. rewrite Nat2Z.id. by rewrite take_all.
Qed.

(** ** Substrings, concatenation, comparison *)

(** The characters from [b] up to [e]. *)
Definition sub (b e : Z) (l : list Z) : list Z :=
  if (b >? e) || (b >=? zlen l) then [] else take (Z.to_nat (Z.min e (zlen l) - b)) (drop (Z.to_nat b) l).

Lemma empty_repr : repr String_empty [].
Proof. split_and!; try done. constructor. Qed.

Lemma char_repr c : 0 < c < 256 -> repr (String_char c) [c].
Proof. intros Hc. split_and!; try done. by constructor. Qed.

Lemma chars_sub b e l : chars_ok l -> chars_ok (sub b e l).
Proof. intros Hl. unfold sub. destruct (_ || _); [constructor|]. by apply Forall_take, Forall_drop. Qed.

Lemma substring_ok b e s l : repr s l -> 0 <= b -> exists s', substring b e s = Ok s' /\ repr s' (sub b e l).
Proof.
  intros Hr Hb. pose proof Hr as (Hbuf & Hlen & Hc & Hm). unfold substring, sub. rewrite Hlen.
  destruct ((b >? e) || (b >=? zlen l)) eqn:E; [exists String_empty; split; [done|apply empty_repr]|].
  apply orb_false_iff in E as [E1 E2]. rewrite Z.gtb_ltb, Z.ltb_ge in E1. rewrite Z.geb_leb, Z.leb_gt in E2.
  set (e' := if e >? zlen l then zlen l else e). assert (He : e' = Z.min e (zlen l)) by (unfold e'; destruct (Z.gtb_spec e (zlen l)); lia).
  cbv zeta. rewrite He. set (n := Z.min e (zlen l) - b). rewrite Hbuf.
  pose proof (copy_new_ok (l ++ [0]) b n ltac:(lia) Hb) as Hcp. unfold zlen in Hcp at 1. rewrite length_app in Hcp.
  specialize (Hcp ltac:(unfold zlen in *; cbn; lia)). apply bind_ok in Hcp as (nb & C1 & C2). rewrite C1. mcbn. rewrite C2. mcbn.
  unfold zlen in *. rewrite drop_app_le, take_app_le by (rewrite ?length_drop; lia).
  apply String_cstr_ok; [by apply Forall_take, Forall_drop|].
  unfold zlen. rewrite length_take, length_drop. unfold UINT32_MAX in *. lia.
Qed.

Lemma append_ok s t l1 l2 :
  repr s l1 -> repr t l2 -> zlen l1 + zlen l2 < UINT32_MAX -> exists s', append s t = Ok s' /\ repr s' (l1 ++ l2).
Proof.
  intros (B1 & L1 & C1 & M1) (B2 & L2 & C2 & M2) Hmax. unfold append. rewrite L1, L2, B1, B2. unfold UINT32_MAX, zlen in *.
  replace (u32 (Z.of_nat (length l1) + Z.of_nat (length l2) + 1)) with (Z.of_nat (length l1) + Z.of_nat (length l2) + 1) by (unwrap; lia).
  replace (u32 (Z.of_nat (length l2) + 1)) with (Z.of_nat (length l2) + 1) by (unwrap; lia).
  replace (u32 (Z.of_nat (length l1) + Z.of_nat (length l2))) with (Z.of_nat (length l1) + Z.of_nat (length l2)) by (unwrap; lia).
  set (g := take _ _). assert (Hg : length g = (length l1 + length l2 + 1)%nat).
  { unfold g, new_chars. rewrite length_take, !length_app, length_replicate. cbn. lia. }
  rewrite copy_chars_ok; unfold zlen; rewrite ?length_app, ?Hg; try (cbn; lia). mcbn. eexists. split; [done|].
  split_and!; cbn [buffer len].
  - rewrite Nat2Z.id. replace (take (length l1) g) with l1.
    2:{ unfold g. rewrite take_take, Nat.min_l by lia. rewrite <- app_assoc. by rewrite take_app_length. }
    change (Z.to_nat 0) with 0%nat. rewrite drop_0, take_ge by (rewrite length_app; cbn; lia).
    rewrite drop_ge by (rewrite Hg; lia). by rewrite app_nil_r, app_assoc.
  - unfold zlen. rewrite length_app. lia.
  - by apply Forall_app.
  - unfold zlen, UINT32_MAX. rewrite length_app. lia.
Qed.

Lemma plus_ok s t l1 l2 :
  repr s l1 -> repr t l2 -> zlen l1 + zlen l2 < UINT32_MAX -> exists s', plus s t = Ok s' /\ repr s' (l1 ++ l2).
Proof.
  intros Hs Ht Hmax. destruct (String_copy_ok s l1 Hs) as (s1 & E & H1). unfold plus. rewrite E. mcbn. by apply append_ok.
Qed.

Lemma compare_chars_ok fuel l1 l2 r1 r2 i :
  chars_ok l1 -> chars_ok l2 -> 0 <= i -> (Z.to_nat i <= length l1)%nat -> take (Z.to_nat i) l1 = take (Z.to_nat i) l2 ->
  (Z.to_nat i <= length l2)%nat -> (length l1 - Z.to_nat i < fuel)%nat ->
  exists d, compare_chars fuel (l1 ++ 0 :: r1) (l2 ++ 0 :: r2) i = Ok d /\ (d = 0 <-> l1 = l2).
Proof.
  intros C1 C2. revert i. induction fuel as [|fuel IH]; intros i Hi H1 Heq H2 Hf; [lia|]. cbn [compare_chars].
  assert (Hget : forall l r, (Z.to_nat i <= length l)%nat -> chars_ok l -> exists c, aget (l ++ 0 :: r) i = Ok c /\
    ((l !! Z.to_nat i = Some c /\ 0 < c) \/ (Z.to_nat i = length l /\ c = 0))).
  { intros l r Hle Hl. destruct (aget_in (l ++ 0 :: r) i) as (c & Hc & Hc'); [unfold zlen; rewrite length_app; cbn; lia|]. exists c. split; [done|].
    destruct (decide (Z.to_nat i < length l)%nat).
    - left. rewrite lookup_app_l in Hc' by done. split; [done|]. by apply (Forall_lookup_1 _ _ _ _ Hl Hc').
    - right. replace (Z.to_nat i) with (length l) in * by lia. rewrite lookup_app_r, Nat.sub_diag in Hc' by lia. by injection Hc' as <-. }
  destruct (Hget l1 r1 H1 C1) as (x & -> & Hx). destruct (Hget l2 r2 H2 C2) as (y & -> & Hy). mcbn.
  destruct Hx as [[Hx Hx0]|[Hx ->]].
  - destruct (Z.eqb_spec x 0); [lia|]. cbn [negb andb]. destruct Hy as [[Hy Hy0]|[Hy ->]].
    + destruct (Z.eqb_spec y 0); [lia|]. cbn [negb andb]. destruct (Z.eqb_spec x y) as [<-|Hne].
      * pose proof (lookup_lt_Some _ _ _ Hx). pose proof (lookup_lt_Some _ _ _ Hy).
        apply IH; try lia. replace (Z.to_nat (i + 1)) with (S (Z.to_nat i)) by lia.
        by rewrite (take_S_r _ _ _ Hx), (take_S_r _ _ _ Hy), Heq.
      * exists (x - y). split; [done|]. split; [lia|]. intros ->. congruence.
    + cbn. exists (x - 0). split; [done|]. split; [lia|]. intros ->. pose proof (lookup_lt_Some _ _ _ Hx). lia.
  - cbn. destruct Hy as [[Hy Hy0]|[Hy ->]]; (eexists; split; [done|]).
    + split; [lia|]. intros ->. pose proof (lookup_lt_Some _ _ _ Hy). lia.
    + split; [intros _|done]. rewrite !take_ge in Heq by lia. done.
Qed.

Lemma equals_ok s t l1 l2 : repr s l1 -> repr t l2 -> equals s t = Ok (bool_decide (l1 = l2)).
Proof.
  intros (B1 & L1 & C1 & M1) (B2 & L2 & C2 & M2). unfold equals. rewrite B1, B2.
  destruct (compare_chars_ok (S (length (l1 ++ [0]))) l1 l2 [] [] 0) as (d & E & Hd); try done; try lia; [rewrite length_app; cbn; lia|].
  rewrite E. mcbn. f_equal. destruct (Z.eqb_spec d 0); [rewrite bool_decide_eq_true_2; tauto|rewrite bool_decide_eq_false_2; tauto].
Qed.

(** Equality, prefixes and suffixes are those of the characters. *)
Lemma prefix_suffix_spec s t l p :
  repr s l -> repr t p ->
  equals s t = Ok (bool_decide (l = p)) /\
  beginsWith t s = Ok (bool_decide (p `prefix_of` l)) /\ endsWith t s = Ok (bool_decide (p `suffix_of` l)).
Proof.
  intros Hs Ht. split; [by apply equals_ok|]. pose proof Hs as (_ & L1 & _ & M1). pose proof Ht as (_ & L2 & _ & M2).
  assert (N1 := zlen_nonneg l). assert (N2 := zlen_nonneg p). unfold UINT32_MAX in *. split.
  - unfold beginsWith. rewrite L2. destruct (substring_ok 0 (zlen p) s l Hs ltac:(lia)) as (s' & -> & Hs'). mcbn.
    rewrite (equals_ok _ _ _ _ Hs' Ht). f_equal. apply bool_decide_ext. unfold sub, zlen in *.
    destruct (Z.gtb_spec 0 (Z.of_nat (length p))); [lia|]. cbn [orb]. rewrite Z.geb_leb.
    destruct (Z.leb_spec (Z.of_nat (length l)) 0).
    + assert (l = []) as -> by (destruct l; [done|cbn in *; lia]). split; [intros <-; done|by intros ->%prefix_nil_inv].
    + change (Z.to_nat 0) with 0%nat. rewrite drop_0, Z.sub_0_r. split.
      * intros <-. apply prefix_take.
      * intros [k ->]. rewrite length_app. rewrite Z.min_l by lia. by rewrite Nat2Z.id, take_app_length.
  - unfold endsWith. rewrite L1, L2.
    pose proof (wrap_range 32 (zlen l - zlen p) ltac:(lia)) as Hw. fold (u32 (zlen l - zlen p)) in Hw. unfold in_u in Hw.
    destruct (substring_ok (u32 (zlen l - zlen p)) (zlen l) s l Hs ltac:(lia)) as (s' & -> & Hs'). mcbn.
    rewrite (equals_ok _ _ _ _ Hs' Ht). f_equal. apply bool_decide_ext.
    destruct (decide (zlen p <= zlen l)) as [Hle|Hgt].
    + replace (u32 (zlen l - zlen p)) with (zlen l - zlen p) by (unwrap; lia). unfold sub, zlen in *.
      destruct (Z.gtb_spec (Z.of_nat (length l) - Z.of_nat (length p)) (Z.of_nat (length l))); [lia|]. cbn [orb]. rewrite Z.geb_leb.
      destruct (Z.leb_spec (Z.of_nat (length l)) (Z.of_nat (length l) - Z.of_nat (length p))).
      * assert (p = []) as -> by (destruct p; [done|cbn in *; lia]). split; [intros _; by exists l; rewrite app_nil_r|done].
      * rewrite take_ge by (rewrite length_drop; lia). split.
        -- intros <-. apply suffix_drop.
        -- intros [k ->]. rewrite length_app. replace (Z.to_nat _) with (length k) by lia. by rewrite drop_app_length.
    + assert (Hsub : sub (u32 (zlen l - zlen p)) (zlen l) l = []).
      { unfold sub. replace (u32 (zlen l - zlen p)) with (zlen l - zlen p + 2 ^ 32).
        2:{ unfold u32, wrap. replace (zlen l - zlen p) with (zlen l - zlen p + 2 ^ 32 + (-1) * 2 ^ 32) at 2 by lia. rewrite Z.mod_add, Z.mod_small by lia. done. }
        destruct (Z.gtb_spec (zlen l - zlen p + 2 ^ 32) (zlen l)); [done|lia]. }
      rewrite Hsub. split.
      * intros <-. exfalso. apply Hgt. unfold zlen. cbn. lia.
      * intros [k ->]. unfold zlen in Hgt. rewrite length_app in Hgt. lia.
Qed.

(** ** Searching *)

(** The characters [p] stand in [l] at position [i]. *)
Definition occurs (l p : list Z) (i : Z) : Prop :=
  0 <= i < zlen l /\ take (length p) (drop (Z.to_nat i) l) = p.

(** [r] is the first position from [start] on where [P] holds, [UINT32_MAX] if
    there is none. *)
Definition first_index (P : Z -> Prop) (start r : Z) : Prop :=
  (r = UINT32_MAX /\ forall k, start <= k -> ~ P k) \/ (start <= r < UINT32_MAX /\ P r /\ forall k, start <= k < r -> ~ P k).

Lemma occurs_lookup l p i k c : occurs l p i -> p !! k = Some c -> l !! (Z.to_nat i + k)%nat = Some c.
Proof.
  intros [_ H] Hk. rewrite <- lookup_drop, <- Hk, <- H. symmetry. apply lookup_take_lt.
  apply lookup_lt_Some in Hk. done.
Qed.

Lemma occurs_fits l p i : occurs l p i -> i + zlen p <= zlen l.
Proof.
  intros [Hi H]. apply (f_equal length) in H. rewrite length_take, length_drop in H. unfold zlen in *. lia.
Qed.

Lemma match_loop_ok fuel s t l p i j :
  repr s l -> repr t p -> p <> [] -> 0 <= i < zlen l -> 1 <= j <= zlen p -> take (Z.to_nat j) (drop (Z.to_nat i) l) = take (Z.to_nat j) p ->
  (Z.to_nat (zlen p - j) < fuel)%nat ->
  (match_loop fuel s t i j = Ok (inr (zlen p)) /\ occurs l p i) \/
  (exists j', match_loop fuel s t i j = Ok (inr j') /\ 0 < j' < zlen p /\ ~ occurs l p i) \/
  (match_loop fuel s t i j = Ok (inl tt) /\ zlen l < i + zlen p).
Proof.
  intros Hs Ht Hp Hi. revert j. induction fuel as [|fuel IH]; intros j Hj Heq Hf; [lia|]. cbn [match_loop].
  pose proof Hs as (_ & L1 & _ & M1). pose proof Ht as (_ & L2 & _ & M2). rewrite L1, L2. unfold UINT32_MAX in *.
  destruct (Z.ltb_spec j (zlen p)) as [Hlt|Hge].
  - destruct (decide (zlen l <= i + j)) as [Hout|Hin].
    + right. right. destruct (decide (i + j < 2 ^ 32)).
      * replace (u32 (i + j)) with (i + j) by (unwrap; lia). rewrite Z.geb_leb. destruct (Z.leb_spec (zlen l) (i + j)); [|lia]. split; [done|lia].
      * exfalso. pose proof (f_equal length Heq) as Hl. rewrite !length_take, length_drop in Hl. unfold zlen in *. lia.
    + replace (u32 (i + j)) with (i + j) by (unwrap; lia). rewrite Z.geb_leb. destruct (Z.leb_spec (zlen l) (i + j)); [lia|].
      destruct (repr_lookup s l (i + j) Hs ltac:(lia)) as (a & -> & Ha & _). destruct (repr_lookup t p j Ht ltac:(lia)) as (b & -> & Hb & _).
      mcbn. destruct (Z.eqb_spec a b) as [<-|Hne]; cbn [negb].
      * apply IH; [lia| |lia]. replace (Z.to_nat (j + 1)) with (S (Z.to_nat j)) by lia.
        rewrite (take_S_r _ _ _ Hb), (take_S_r _ _ a), Heq; [done|]. rewrite lookup_drop, <- Ha. f_equal. lia.
      * right. left. exists j. split_and!; try done; try lia. intros Ho. apply Hne.
        pose proof (occurs_lookup _ _ _ _ _ Ho Hb) as Hl. replace (Z.to_nat i + Z.to_nat j)%nat with (Z.to_nat (i + j)) in Hl by lia. congruence.
  - left. replace j with (zlen p) in * by lia. split; [done|]. split; [done|]. unfold zlen in Heq. rewrite Nat2Z.id in Heq.
    rewrite Heq. apply take_ge. lia.
Qed.

Lemma indexOf_loop_ok n s t l p i j :
  repr s l -> repr t p -> 0 <= i -> n = Z.to_nat (zlen l - i) -> 0 <= j -> (p = [] -> j = 0) -> (p <> [] -> j < zlen p) ->
  exists r, indexOf_loop n s t i j = Ok r /\ first_index (occurs l p) i r.
Proof.
  intros Hs Ht. pose proof Hs as (_ & L1 & C1 & M1). pose proof Ht as (B2 & L2 & C2 & M2).
  revert i j. induction n as [|n IH]; intros i j Hi Hn Hj Hj0 Hjp; cbn [indexOf_loop].
  { exists UINT32_MAX. split; [done|]. left. split; [done|]. intros k Hk [Ho _]. lia. }
  destruct (repr_lookup s l i Hs ltac:(lia)) as (a & -> & Ha & Ha0). mcbn.
  assert (Hb : exists b, aget (buffer t) 0 = Ok b /\ match p with [] => b = 0 | c :: _ => b = c end).
  { rewrite B2. destruct p as [|c p]; eexists; (split; [done|done]). }
  destruct Hb as (b & -> & Hb). mcbn.
  assert (Hnext : ~ occurs l p i -> forall j, 0 <= j -> (p = [] -> j = 0) -> (p <> [] -> j < zlen p) ->
    exists r, indexOf_loop n s t (i + 1) j = Ok r /\ first_index (occurs l p) i r).
  { intros Hno j' H1 H2 H3. destruct (IH (i + 1) j') as (r & E & Hr); try done; try lia. exists r. split; [done|].
    destruct Hr as [[-> Hr]|(Hr1 & Hr2 & Hr3)]; [left|right].
    - split; [done|]. intros k Hk. destruct (decide (k = i)) as [->|]; [done|]. apply Hr. lia.
    - split_and!; try lia; try done. intros k Hk. destruct (decide (k = i)) as [->|]; [done|]. apply Hr3. lia. }
  assert (Hfound : occurs l p i -> first_index (occurs l p) i i).
  { intros Ho. right. unfold UINT32_MAX in *. split_and!; try lia; done. }
  destruct (decide (p = [])) as [->|Hp].
  { subst b. rewrite (Hj0 eq_refl). destruct (Z.eqb_spec a 0); [lia|]. mcbn. rewrite L2. cbn [zlen length Z.of_nat]. 
    exists i. split; [done|]. apply Hfound. split; [lia|]. by rewrite take_0. }
  destruct p as [|c p']; [done|]. subst b. set (p := c :: p') in *. destruct (Z.eqb_spec a c) as [->|Hne].
  - destruct (match_loop_ok (S (Z.to_nat (len t))) s t l p i 1 Hs Ht Hp) as [[E Ho]|[(j' & E & Hj' & Hno)|[E Hl]]].
    + lia.
    + unfold p, zlen. cbn. lia.
    + unfold p. change (Z.to_nat 1) with 1%nat. rewrite (take_S_r _ _ c); [done|]. rewrite lookup_drop, <- Ha. f_equal. lia.
    + rewrite L2. lia.
    + rewrite E. mcbn. rewrite L2, Z.eqb_refl. eauto.
    + rewrite E. mcbn. rewrite L2. destruct (Z.eqb_spec j' (zlen p)); [lia|]. apply Hnext; (done || lia).
    + rewrite E. mcbn. exists UINT32_MAX. split; [done|]. left. split; [done|]. intros k Hk Ho%occurs_fits. lia.
  - mcbn. rewrite L2. specialize (Hjp Hp). destruct (Z.eqb_spec j (zlen p)); [lia|]. apply Hnext; try done.
    intros Ho. apply Hne. pose proof (occurs_lookup _ _ _ 0%nat c Ho eq_refl) as H. rewrite Nat.add_0_r in H. congruence.
Qed.

Lemma indexOf_ok s t l p start :
  repr s l -> repr t p -> 0 <= start -> exists r, indexOf t start s = Ok r /\ first_index (occurs l p) start r.
Proof.
  intros Hs Ht Hst. unfold indexOf. apply (indexOf_loop_ok _ s t l p); try done.
  - by destruct Hs as (_ & -> & _).
  - destruct p as [|c p]; [done|]. intros _. unfold zlen. cbn. lia.
Qed.

Lemma indexOf_char_ok s l c start :
  repr s l -> 0 <= start -> exists r, indexOf_char c start s = Ok r /\ first_index (fun i => 0 <= i /\ l !! Z.to_nat i = Some c) start r.
Proof.
  intros Hs Hst. unfold indexOf_char. pose proof Hs as (_ & -> & _ & M).
  destruct (for_find_inv (fun i (_ : unit) => forall k, start <= k < i -> l !! Z.to_nat k <> Some c)
     (fun r (_ : unit) => start <= r < zlen l /\ l !! Z.to_nat r = Some c /\ forall k, start <= k < r -> l !! Z.to_nat k <> Some c)
     (fun i (u : unit) => c' ← aget (buffer s) i; Ok (if c' =? c then Some i else None, u)) (Z.to_nat (zlen l - start)) start tt)
    as (r & u & E & Hr).
  - intros k Hk. lia.
  - intros k [] Hk Hno. destruct (repr_lookup s l k Hs ltac:(lia)) as (a & -> & Ha & _). mcbn. eexists _, tt. split; [done|].
    destruct (Z.eqb_spec a c) as [->|Hne].
    + split_and!; try done; lia.
    + intros k' Hk'. destruct (decide (k' = k)) as [->|]; [congruence|]. apply Hno. lia.
  - rewrite E. mcbn. eexists. split; [done|]. destruct r as [r|]; cbn.
    + right. destruct Hr as (H1 & H2 & H3). split_and!; try lia; try done. intros k Hk [_ Hk']. by apply (H3 k).
    + left. split; [done|]. intros k Hk [_ Hk']. apply (Hr k); [|done]. apply lookup_lt_Some in Hk'. unfold zlen in *. lia.
Qed.

(** IndexOf gives the first position from start on where the other string,
    or the character, occurs, or UINT32_MAX; contains tells whether a
    character occurs. *)
Theorem string_indexOf_spec s t l p c start :
  repr s l -> repr t p -> 0 <= start ->
  (exists r, indexOf t start s = Ok r /\ first_index (occurs l p) start r) /\
  (exists r, indexOf_char c start s = Ok r /\ first_index (fun i => 0 <= i /\ l !! Z.to_nat i = Some c) start r) /\
  contains c s = Ok (bool_decide (c ∈ l)).
Proof.
  intros Hs Ht Hst. split_and!; [by apply indexOf_ok|by apply indexOf_char_ok|].
  unfold contains. destruct (indexOf_char_ok s l c 0 Hs ltac:(lia)) as (r & -> & Hr). mcbn. f_equal.
  destruct Hr as [[-> Hr]|(H1 & [H2 H3] & _)].
  - cbn. symmetry. apply bool_decide_eq_false_2. intros [i Hi]%list_elem_of_lookup. apply (Hr (Z.of_nat i)); [lia|].
    split; [lia|]. by rewrite Nat2Z.id.
  - destruct (Z.ltb_spec r UINT32_MAX); [|lia]. symmetry. apply bool_decide_eq_true_2. by eapply list_elem_of_lookup_2.
Qed.

(** ** Splitting and joining *)

(** The pieces of [l] between the characters [c]. *)
Fixpoint pieces (c : Z) (l : list Z) : list (list Z) :=
  match l with
  | [] => [[]]
  | b :: l =>
    if b =? c then [] :: pieces c l
    else match pieces c l with p :: ps => (b :: p) :: ps | [] => [[b]] end
  end.

Definition tokens (c : Z) (l : list Z) : list (list Z) := filter (.≠ []) (pieces c l).

Lemma pieces_none c l : c ∉ l -> pieces c l = [l].
Proof.
  induction l as [|b l IH]; intros Hc; cbn; [done|]. apply not_elem_of_cons in Hc as [Hb Hc].
  destruct (Z.eqb_spec b c); [done|]. by rewrite IH.
Qed.

Lemma pieces_app c l1 l2 : c ∉ l1 -> pieces c (l1 ++ c :: l2) = l1 :: pieces c l2.
Proof.
  induction l1 as [|b l1 IH]; intros Hc; cbn; [by rewrite Z.eqb_refl|]. apply not_elem_of_cons in Hc as [Hb Hc].
  destruct (Z.eqb_spec b c); [done|]. by rewrite IH.
Qed.

Lemma occurs_char l c i : occurs l [c] i <-> 0 <= i /\ l !! Z.to_nat i = Some c.
Proof.
  unfold occurs. split.
  - intros [Hi H]. split; [lia|]. rewrite <- (Nat.add_0_r (Z.to_nat i)), <- lookup_drop. cbn [length] in H.
    destruct (drop (Z.to_nat i) l) as [|x k]; [done|]. cbn in *. congruence.
  - intros [Hi H]. pose proof (lookup_lt_Some _ _ _ H). split; [unfold zlen; lia|]. by rewrite (drop_S _ _ _ H).
Qed.

(** The split at the first delimiter from [start] on. *)
Lemma first_piece l c start r :
  0 <= start -> first_index (occurs l [c]) start r -> r <> UINT32_MAX ->
  r < zlen l /\ c ∉ sub start r l /\ drop (Z.to_nat start) l = sub start r l ++ c :: drop (Z.to_nat (r + 1)) l.
Proof.
  intros Hs [[-> _]|(Hr & Ho & Hno)] Hne; [done|]. apply occurs_char in Ho as [_ Hc]. pose proof (lookup_lt_Some _ _ _ Hc) as Hlt.
  unfold zlen. split; [lia|]. unfold sub, zlen. destruct (Z.gtb_spec start r); [lia|]. rewrite Z.geb_leb.
  destruct (Z.leb_spec (Z.of_nat (length l)) start); [lia|]. cbn [orb]. rewrite Z.min_l by lia.
  replace (Z.to_nat (r + 1)) with (S (Z.to_nat r)) by lia. split.
  - intros [k Hk]%list_elem_of_lookup. pose proof (lookup_lt_Some _ _ _ Hk) as Hkl. rewrite length_take, length_drop in Hkl.
    rewrite lookup_take_lt, lookup_drop in Hk by lia. apply (Hno (start + Z.of_nat k)); [lia|]. apply occurs_char. split; [lia|].
    rewrite <- Hk. f_equal. lia.
  - rewrite <- (drop_S _ _ _ Hc). rewrite <- (take_drop (Z.to_nat (r - start)) (drop (Z.to_nat start) l)) at 1. f_equal.
    rewrite drop_drop. f_equal. lia.
Qed.

Lemma last_piece l c start :
  0 <= start -> first_index (occurs l [c]) start UINT32_MAX -> c ∉ drop (Z.to_nat start) l.
Proof.
  intros Hs [[_ Hno]|[Hr _]] [k Hk]%list_elem_of_lookup; [|lia]. rewrite lookup_drop in Hk.
  apply (Hno (start + Z.of_nat k)); [lia|]. apply occurs_char. split; [lia|]. rewrite <- Hk. f_equal. lia.
Qed.

Lemma sub_all l start : 0 <= start -> sub start (zlen l) l = drop (Z.to_nat start) l.
Proof.
  intros Hs. unfold sub, zlen. destruct (Z.gtb_spec start (Z.of_nat (length l))); cbn [orb]; [by rewrite drop_ge by lia|].
  rewrite Z.geb_leb. destruct (Z.leb_spec (Z.of_nat (length l)) start); [by rewrite drop_ge by lia|].
  rewrite Z.min_id, take_ge; [done|]. rewrite length_drop. lia.
Qed.

Lemma isEmpty_ok s l : repr s l -> isEmpty s = bool_decide (l = []).
Proof.
  intros (_ & L & _). unfold isEmpty. rewrite L. unfold zlen. destruct l as [|c l]; [done|]. cbn [length].
  destruct (Z.eqb_spec (Z.of_nat (S (length l))) 0); [lia|]. by rewrite bool_decide_eq_false_2.
Qed.

(** Adding an element when it is not empty. *)
Lemma add_token_ok s l result R :
  repr s l -> Forall2 repr result R -> Forall2 repr (if isEmpty s then result else result ++ [s]) (R ++ filter (.≠ []) [l]).
Proof.
  intros Hs HR. rewrite (isEmpty_ok s l Hs). case_bool_decide as E.
  - rewrite filter_cons_False by (by rewrite E; intros H; apply H). by rewrite filter_nil, app_nil_r.
  - rewrite filter_cons_True, filter_nil by done. apply Forall2_app; [done|]. by constructor.
Qed.

Lemma split_loop_ok fuel s d l c start end_ result R :
  repr s l -> repr d [c] -> 0 <= start <= zlen l -> first_index (occurs l [c]) start end_ -> Forall2 repr result R ->
  zlen R <= start -> (Z.to_nat (zlen l - start) <= fuel)%nat ->
  exists start' result' R', split_loop fuel s d 0 start end_ result = Ok (start', result') /\ Forall2 repr result' R' /\
    0 <= start' <= zlen l /\ R' ++ filter (.≠ []) [drop (Z.to_nat start') l] = R ++ tokens c (drop (Z.to_nat start) l).
Proof.
  intros Hs Hd. pose proof Hs as (_ & L1 & _ & M1). pose proof Hd as (_ & L2 & _ & _). change (zlen [c]) with 1 in L2.
  revert start end_ result R. induction fuel as [|fuel IH]; intros start end_ result R Hst Hfi HR HRl Hf; cbn [split_loop];
    assert (Hlen : zlen result = zlen R) by (unfold zlen; by rewrite (Forall2_length _ _ _ HR)); rewrite Hlen;
    assert (H0 := zlen_nonneg R); unfold UINT32_MAX in M1;
    replace (u32 (zlen R + 1)) with (zlen R + 1) by (unwrap; lia); (destruct (Z.eqb_spec (zlen R + 1) 0); [lia|]);
    destruct (Z.eqb_spec end_ UINT32_MAX) as [->|Hne]; cbn [negb andb].
  1,3: exists start, result, R; split_and!; try done; try lia; unfold tokens; by rewrite (pieces_none c _ (last_piece l c start (proj1 Hst) Hfi)).
  { destruct (first_piece _ _ _ _ (proj1 Hst) Hfi Hne) as [? _]. destruct Hfi as [[? _]|[? _]]; [done|]. lia. }
  destruct (first_piece _ _ _ _ (proj1 Hst) Hfi Hne) as (Hr & Hnc & Hdr). destruct Hfi as [[? _]|(Hfi & _)]; [done|].
  destruct (substring_ok start end_ s l Hs ltac:(lia)) as (e & -> & He). mcbn. rewrite L2.
  replace (u32 (end_ + 1)) with (end_ + 1) by (unwrap; lia).
  destruct (indexOf_ok s d l [c] (end_ + 1) Hs Hd ltac:(lia)) as (r & -> & Hfi'). mcbn.
  destruct (IH (end_ + 1) r _ _ ltac:(lia) Hfi' (add_token_ok _ _ _ _ He HR)) as (st & res & R' & E & HR' & Hst' & Heq).
  - pose proof (length_filter (.≠ []) [sub start end_ l]) as Hfl. cbn [length] in Hfl. unfold zlen in *. rewrite length_app. lia.
  - lia.
  - exists st, res, R'. split_and!; try done; try lia. rewrite Heq. unfold tokens. rewrite Hdr, pieces_app by done.
    rewrite <- app_assoc. f_equal. by rewrite <- filter_app.
Qed.

Lemma split_ok fuel s d l c :
  repr s l -> repr d [c] -> (length l <= fuel)%nat ->
  exists ts, split fuel d 0 s = Ok ts /\ Forall2 repr ts (tokens c l).
Proof.
  intros Hs Hd Hf. pose proof Hs as (_ & L1 & _ & M1). unfold split. rewrite L1.
  destruct (Z.eqb_spec (zlen l) 0) as [E|E].
  { unfold zlen in E. destruct l; [|cbn in E; lia]. exists []. split; [done|constructor]. }
  assert (H0 := zlen_nonneg l). destruct (indexOf_ok s d l [c] 0 Hs Hd ltac:(lia)) as (r & -> & Hfi). mcbn.
  destruct (split_loop_ok fuel s d l c 0 r [] [] Hs Hd ltac:(lia) Hfi) as (st & res & R & -> & HR & Hst & Heq).
  { constructor. } { done. } { unfold zlen. lia. }
  mcbn. destruct (substring_ok st (zlen l) s l Hs ltac:(lia)) as (e & -> & He). mcbn. eexists. split; [done|].
  rewrite sub_all in He by lia. pose proof (add_token_ok _ _ _ _ He HR) as H. rewrite Heq in H. exact H.
Qed.

(** Splitting at a character ends and gives the non-empty pieces between
    its occurrences; splitting a non-empty string at the empty string never
    ends. *)
Theorem split_spec s d l c :
  repr s l -> repr d [c] ->
  (exists ts, split (length l) d 0 s = Ok ts /\ Forall2 repr ts (tokens c l)) /\
  (forall fuel limit, l <> [] -> limit <> 1 -> split fuel String_empty limit s = Loops).
Proof.
  intros Hs Hd. split; [by apply split_ok|]. intros fuel limit Hne Hlim.
  pose proof Hs as (_ & L1 & _ & M1). assert (H0 : 0 < zlen l) by (unfold zlen; destruct l; [done|cbn; lia]).
  unfold split. rewrite L1. destruct (Z.eqb_spec (zlen l) 0); [lia|].
  assert (Hi : indexOf String_empty 0 s = Ok 0).
  { destruct (indexOf_ok s String_empty l [] 0 Hs empty_repr ltac:(lia)) as (r & -> & [[_ Hno]|(Hr & _ & Hno)]).
    - exfalso. apply (Hno 0); [lia|]. split; [lia|]. by rewrite take_0.
    - f_equal. destruct (decide (r = 0)); [done|]. exfalso. apply (Hno 0); [lia|]. split; [lia|]. by rewrite take_0. }
  rewrite Hi. mcbn. assert (Hl : split_loop fuel s String_empty limit 0 0 [] = Loops); [|by rewrite Hl].
  induction fuel as [|fuel IH]; cbn [split_loop]; change (zlen []) with 0; change (u32 (0 + 1)) with 1;
    (destruct (Z.eqb_spec 1 limit); [congruence|]); cbn [negb andb Z.eqb UINT32_MAX]; [done|].
  destruct (substring_ok 0 0 s l Hs ltac:(lia)) as (e & -> & He). mcbn.
  assert (Hsub : sub 0 0 l = []).
  { unfold sub. destruct (_ || _); [done|]. rewrite Z.min_l by lia. done. }
  rewrite Hsub in He. rewrite (isEmpty_ok e [] He). cbn [bool_decide]. rewrite bool_decide_eq_true_2 by done.
  change (u32 (0 + len String_empty)) with 0. rewrite Hi. mcbn. apply IH.
Qed.

(** The elements with the separator between them. *)
Fixpoint intercalate (sep : list Z) (ts : list (list Z)) : list Z :=
  match ts with [] => [] | [t] => t | t :: ts => t ++ sep ++ intercalate sep ts end.

Lemma join_loop_ok n sep d pre post elements tmp l :
  repr sep d -> Forall2 repr elements (pre ++ post) -> post <> [] -> repr tmp l ->
  zlen l + zlen (intercalate d post) < UINT32_MAX -> zlen (pre ++ post) < UINT32_MAX -> (length post <= n)%nat ->
  exists tmp' e, join_loop n sep elements (zlen pre) tmp = Ok tmp' /\ 
    element elements (u32 (zlen elements - 1)) = Ok e /\
    exists l' t, repr tmp' l' /\ repr e t /\ l' ++ t = l ++ intercalate d post /\ zlen l' + zlen t < UINT32_MAX.
Proof.
  intros Hsep. revert n pre tmp l. induction post as [|t post IH]; intros n pre tmp l He Hne Htmp Hmax Hbig Hn; [done|].
  assert (Hlen : zlen elements = zlen pre + 1 + zlen post).
  { unfold zlen. rewrite (Forall2_length _ _ _ He), length_app. cbn. lia. }
  assert (N1 := zlen_nonneg pre). assert (N2 := zlen_nonneg post). unfold UINT32_MAX in *.
  assert (Hbig' : zlen pre + 1 + zlen post < 4294967295) by (unfold zlen in *; rewrite length_app in Hbig; cbn in Hbig; lia).
  assert (Hel : exists e, elements !! length pre = Some e /\ repr e t).
  { destruct (Forall2_lookup_r _ _ _ (length pre) t He) as (e & H1 & H2); [by rewrite list_lookup_middle|]. eauto. }
  destruct Hel as (e & Hel & Ht). assert (Hel' : element elements (zlen pre) = Ok e) by (unfold element, zlen; by rewrite Nat2Z.id, Hel).
  destruct (list_eq_nil_dec post) as [->|Hpost].
  - change (zlen []) with 0 in *. exists tmp, e. rewrite Hlen. replace (u32 (zlen pre + 1 + 0 - 1)) with (zlen pre) by (unwrap; lia).
    split_and!.
    + destruct n; cbn [join_loop]; rewrite Hlen; (replace (u32 (zlen pre + 1 + 0 - 1)) with (zlen pre) by (unwrap; lia)); by rewrite Z.ltb_irrefl.
    + done.
    + exists l, t. by split_and!.
  - destruct n as [|n]; [cbn in Hn; lia|]. assert (0 < zlen post) by (unfold zlen; destruct post; [done|cbn; lia]).
    assert (Hint : intercalate d (t :: post) = t ++ d ++ intercalate d post) by (destruct post; done). rewrite Hint in *.
    unfold zlen in Hmax at 2. rewrite !length_app in Hmax. assert (N3 := zlen_nonneg l).
    cbn [join_loop]. rewrite Hlen. replace (u32 (zlen pre + 1 + zlen post - 1)) with (zlen pre + zlen post) by (unwrap; lia).
    destruct (Z.ltb_spec (zlen pre) (zlen pre + zlen post)); [|lia].
    rewrite Hel'. mcbn.
    destruct (plus_ok e sep t d Ht Hsep) as (e' & -> & He'); [unfold zlen, UINT32_MAX; lia|]. mcbn.
    destruct (append_ok tmp e' l (t ++ d) Htmp He') as (tmp' & -> & Htmp'); [unfold zlen, UINT32_MAX in *; rewrite length_app; lia|]. mcbn.
    replace (zlen pre + 1) with (zlen (pre ++ [t])) by (unfold zlen; rewrite length_app; cbn; lia).
    destruct (IH n (pre ++ [t]) tmp' (l ++ t ++ d)) as (tmp'' & e'' & E1 & E2 & l' & t' & R1 & R2 & Heq & Hb); try done.
    + by rewrite <- app_assoc.
    + unfold zlen, UINT32_MAX in *. rewrite !length_app. lia.
    + by rewrite <- app_assoc.
    + cbn in Hn. lia.
    + exists tmp'', e''. split_and!; [done| |].
      * rewrite Hlen in E2. replace (zlen pre + zlen post) with (u32 (zlen pre + 1 + zlen post - 1)) by (unwrap; lia). done.
      * exists l', t'. split_and!; try done. by rewrite Heq, <- !app_assoc.
Qed.

Lemma join_ok sep d elements ts :
  repr sep d -> Forall2 repr elements ts -> ts <> [] -> zlen (intercalate d ts) < UINT32_MAX -> zlen ts < UINT32_MAX ->
  exists s, join sep elements = Ok s /\ repr s (intercalate d ts).
Proof.
  intros Hsep He Hne Hmax Hbig. unfold join.
  destruct (join_loop_ok (S (length elements)) sep d [] ts elements String_empty []) as (tmp & e & E1 & E2 & l' & t & R1 & R2 & Heq & Hb); try done.
  - apply empty_repr.
  - rewrite (Forall2_length _ _ _ He). lia.
  - change (zlen []) with 0 in E1. rewrite E1. mcbn. rewrite E2. mcbn. rewrite <- (app_nil_l (intercalate d ts)), <- Heq. by apply append_ok.
Qed.

Lemma pieces_intercalate c ts : ts <> [] -> Forall (fun t => c ∉ t) ts -> pieces c (intercalate [c] ts) = ts.
Proof.
  intros Hne Hts. induction Hts as [|t ts Ht Hts IH]; [done|]. destruct ts as [|t' ts]; [by apply pieces_none|].
  change (intercalate [c] (t :: t' :: ts)) with (t ++ c :: intercalate [c] (t' :: ts)). rewrite pieces_app by done. by rewrite IH.
Qed.

(** Splitting what join made of non-empty strings without the separator
    character gives these strings. *)
Theorem join_split_roundtrip c elements ts :
  0 < c < 256 -> Forall2 repr elements ts -> ts <> [] -> Forall (fun t => t <> [] /\ c ∉ t) ts ->
  zlen (intercalate [c] ts) < UINT32_MAX -> zlen ts < UINT32_MAX ->
  exists s ts', join (String_char c) elements = Ok s /\
    split (length (intercalate [c] ts)) (String_char c) 0 s = Ok ts' /\ Forall2 repr ts' ts.
Proof.
  intros Hc He Hne Hts Hmax Hbig.
  destruct (join_ok (String_char c) [c] elements ts (char_repr c Hc) He Hne Hmax Hbig) as (s & Es & Hs).
  destruct (split_ok (length (intercalate [c] ts)) s (String_char c) _ c Hs (char_repr c Hc) ltac:(lia)) as (ts' & Et & Ht).
  exists s, ts'. split_and!; try done. unfold tokens in Ht. rewrite pieces_intercalate in Ht; [|done|by eapply Forall_impl; [exact Hts|intros ? []]].
  assert (Hf : filter (.≠ []) ts = ts); [|by rewrite Hf in Ht].
  clear -Hts. induction Hts as [|t ts [Ht _] _ IH]; [done|]. by rewrite filter_cons_True, IH.
Qed.

(** ** Blanks *)

Definition blank (c : Z) : Prop := is_blank c = true.
Definition not_blank (c : Z) : Prop := is_blank c = false.

Lemma repr_at s pre c post : repr s (pre ++ c :: post) -> aget (buffer s) (zlen pre) = Ok c.
Proof.
  intros Hs. destruct (repr_lookup s _ (zlen pre) Hs) as (c' & -> & Hc & _).
  - unfold zlen. rewrite length_app. cbn. lia.
  - unfold zlen in Hc. rewrite Nat2Z.id, list_lookup_middle in Hc by done. by injection Hc as <-.
Qed.

Lemma strip_start_blanks s pre post rest n :
  repr s (pre ++ post ++ rest) -> Forall blank post ->
  strip_start (length post + n) s (zlen pre) = strip_start n s (zlen (pre ++ post)).
Proof.
  revert pre. induction post as [|c post IH]; intros pre Hs Hb; [by rewrite app_nil_r|].
  apply Forall_cons in Hb as [Hc Hb]. cbn [length Nat.add strip_start]. rewrite (repr_at s pre c (post ++ rest) Hs). mcbn.
  unfold blank in Hc. rewrite Hc. cbn [negb]. replace (zlen pre + 1) with (zlen (pre ++ [c])) by (unfold zlen; rewrite length_app; cbn; lia).
  rewrite IH; [by rewrite <- app_assoc|by rewrite <- app_assoc|done].
Qed.

Lemma strip_end_blanks fuel s front post rest st :
  repr s (front ++ post ++ rest) -> Forall blank post -> st < zlen front -> (length post < fuel)%nat ->
  exists fuel', (0 < fuel')%nat /\ strip_end fuel s st (zlen (front ++ post) - 1) = strip_end fuel' s st (zlen front - 1).
Proof.
  revert fuel rest. induction post as [|c post IH] using rev_ind; intros fuel rest Hs Hb Hst Hf.
  - exists fuel. by rewrite app_nil_r.
  - apply Forall_app in Hb as [Hb Hc]. apply Forall_cons in Hc as [Hc _]. rewrite length_app in Hf. cbn in Hf.
    destruct fuel as [|fuel]; [lia|]. rewrite <- (app_assoc post [c] rest) in Hs.
    destruct (IH fuel ([c] ++ rest) Hs Hb Hst ltac:(lia)) as (fuel' & Hf' & E). exists fuel'. split; [done|]. rewrite <- E.
    cbn [strip_end]. rewrite app_assoc. assert (Hz : zlen ((front ++ post) ++ [c]) - 1 = zlen (front ++ post)) by (unfold zlen; rewrite (length_app _ [c]); cbn; lia).
    rewrite Hz. assert (st < zlen (front ++ post)) by (unfold zlen in *; rewrite length_app; lia).
    destruct (Z.gtb_spec (zlen (front ++ post)) st); [|lia]. rewrite (repr_at s (front ++ post) c rest); [|by rewrite <- app_assoc]. mcbn.
    unfold blank in Hc. by rewrite Hc.
Qed.

Lemma strip_end_stop fuel s front c rest st :
  repr s (front ++ c :: rest) -> not_blank c -> (0 < fuel)%nat -> strip_end fuel s st (zlen front) = Ok (zlen front).
Proof.
  intros Hs Hc Hf. destruct fuel as [|fuel]; [lia|]. cbn [strip_end]. destruct (zlen front >? st); [|done].
  rewrite (repr_at _ _ _ _ Hs). mcbn. unfold not_blank in Hc. by rewrite Hc.
Qed.

(** The characters without the blanks around them. *)
Definition stripped (l pre mid post : list Z) : Prop :=
  l = pre ++ mid ++ post /\ Forall blank pre /\ Forall blank post /\
  (mid = [] \/ exists c m, mid = c :: m /\ not_blank c /\ exists m' d, mid = m' ++ [d] /\ not_blank d).

Lemma sub_middle pre mid post : sub (zlen pre) (zlen (pre ++ mid)) (pre ++ mid ++ post) = mid \/ mid = [].
Proof.
  destruct mid as [|c mid]; [by right|left]. unfold sub, zlen. rewrite !length_app.
  destruct (Z.gtb_spec (Z.of_nat (length pre)) (Z.of_nat (length pre + length (c :: mid)))); [lia|]. rewrite Z.geb_leb.
  destruct (Z.leb_spec (Z.of_nat (length pre + (length (c :: mid) + length post))) (Z.of_nat (length pre))); [cbn in *; lia|]. cbn [orb].
  rewrite Z.min_l by lia. rewrite Nat2Z.id, drop_app_length.
  replace (Z.to_nat (Z.of_nat (length pre + length (c :: mid)) - Z.of_nat (length pre))) with (length (c :: mid)) by lia. by rewrite take_app_length.
Qed.

Lemma strip_blanks s l : repr s l -> l <> [] -> Forall blank l -> strip s = Ok String_empty.
Proof.
  intros Hs Hne Hb. unfold strip. pose proof Hs as (Hbuf & L1 & _ & M1). rewrite L1. unfold UINT32_MAX in M1.
  assert (Hpos : 0 < zlen l) by (unfold zlen; destruct l; [done|cbn; lia]).
  replace (u32 (zlen l - 1)) with (zlen l - 1) by (unwrap; lia).
  pose proof (strip_start_blanks s [] l [] 0) as E. rewrite app_nil_r, Nat.add_0_r in E.
  replace (Z.to_nat (zlen l)) with (length l) by (unfold zlen; lia). change (zlen []) with 0 in E. rewrite (E Hs Hb).
  cbn [strip_start app]. mcbn.
  assert (E2 : forall fuel, strip_end fuel s (zlen l) (zlen l - 1) = Ok (zlen l - 1)).
  { intros [|fuel]; cbn [strip_end]; destruct (Z.gtb_spec (zlen l - 1) (zlen l)); (lia || done). }
  rewrite E2. mcbn. destruct (Z.eqb_spec (zlen l) (zlen l - 1)); [lia|]. cbn [andb].
  unfold substring. by rewrite L1, Z.geb_leb, Z.leb_refl, orb_true_r.
Qed.

Lemma strip_middle s pre c m m' d post :
  repr s (pre ++ (c :: m) ++ post) -> Forall blank pre -> Forall blank post -> not_blank c -> c :: m = m' ++ [d] -> not_blank d ->
  exists s', strip s = Ok s' /\ repr s' (if bool_decide (m = [] /\ post <> []) then [] else c :: m).
Proof.
  intros Hs Hpre Hpost Hc Hm Hd. unfold strip. pose proof Hs as (Hbuf & L1 & C1 & M1). rewrite L1. unfold UINT32_MAX in M1.
  set (l := pre ++ (c :: m) ++ post) in *.
  assert (Hl : zlen l = zlen pre + 1 + zlen m + zlen post) by (unfold l, zlen; rewrite !length_app; cbn; lia).
  assert (N1 := zlen_nonneg pre). assert (N2 := zlen_nonneg m). assert (N3 := zlen_nonneg post).
  assert (Hm' : zlen m' = zlen m) by (apply (f_equal length) in Hm; rewrite length_app in Hm; unfold zlen; cbn in Hm; lia).
  replace (u32 (zlen l - 1)) with (zlen l - 1) by (unwrap; lia).
  replace (Z.to_nat (zlen l)) with (length pre + S (length (m ++ post)))%nat.
  2:{ rewrite Hl. unfold zlen. rewrite length_app. lia. }
  pose proof (strip_start_blanks s [] pre ((c :: m) ++ post) (S (length (m ++ post))) Hs Hpre) as E.
  change (zlen []) with 0 in E. rewrite E. cbn [app strip_start]. rewrite (repr_at s pre c (m ++ post) Hs). mcbn.
  unfold not_blank in Hc. rewrite Hc. cbn [negb]. rewrite L1. replace (u32 (zlen l - 1)) with (zlen l - 1) by (unwrap; lia).
  destruct (Z.eqb_spec (zlen pre) (zlen l - 1)) as [E1|E1]; mcbn.
  { assert (m = [] /\ post = []) as [-> ->] by (unfold zlen in *; destruct m, post; cbn in *; (done || lia)).
    rewrite bool_decide_eq_false_2 by tauto. exists (String_char c). split; [done|]. apply char_repr.
    unfold l in C1. apply Forall_app in C1 as [_ C1]. by apply Forall_cons in C1 as [? _]. }
  destruct (strip_end_blanks (S (length (buffer s))) s (pre ++ c :: m) post [] (zlen pre)) as (fuel' & Hf & E2).
  { rewrite app_nil_r, <- app_assoc. exact Hs. } { done. } { unfold zlen. rewrite length_app. cbn. lia. }
  { rewrite Hbuf. unfold l. rewrite !length_app. lia. }
  rewrite <- app_assoc in E2. fold l in E2. rewrite E2.
  replace (zlen (pre ++ c :: m) - 1) with (zlen (pre ++ m')) by (unfold zlen in *; rewrite !length_app; cbn; lia).
  rewrite (strip_end_stop fuel' s (pre ++ m') d post) by (try done; unfold l in Hs; rewrite Hm in Hs; by rewrite <- !app_assoc in *). mcbn.
  assert (Hpm : zlen (pre ++ m') = zlen pre + zlen m) by (unfold zlen in *; rewrite length_app; lia). rewrite Hpm.
  destruct (Z.eqb_spec (zlen pre) (zlen pre + zlen m)) as [E3|E3]; cbn [andb].
  - assert (m = []) as -> by (unfold zlen in *; destruct m; cbn in *; (done || lia)). change (zlen []) with 0 in *.
    assert (post <> []) by (intros ->; apply E1; change (zlen []) with 0 in *; lia).
    rewrite bool_decide_eq_true_2 by done. assert (0 < zlen post) by (unfold zlen; destruct post; [done|cbn; lia]).
    destruct (Z.gtb_spec (zlen l) 1); [|lia]. exists String_empty. split; [done|apply empty_repr].
  - rewrite bool_decide_eq_false_2 by (intros [-> _]; apply E3; change (zlen []) with 0; lia).
    replace (u32 (zlen pre + zlen m + 1)) with (zlen (pre ++ c :: m)) by (unfold zlen in *; rewrite length_app; cbn; unwrap; lia).
    destruct (substring_ok (zlen pre) (zlen (pre ++ c :: m)) s l Hs ltac:(lia)) as (s' & E4 & Hs'). exists s'. split; [done|].
    destruct (sub_middle pre (c :: m) post) as [E5|]; [|done]. unfold l in Hs'. by rewrite E5 in Hs'.
Qed.

(** Strip removes the blanks around a string, except that a single
    character followed by blanks is lost, and it reads outside of the buffer
    of an empty string. *)
Theorem strip_spec s l pre mid post :
  repr s l -> stripped l pre mid post ->
  match l with
  | [] => strip s = Fault
  | _ => exists s', strip s = Ok s' /\ repr s' (if bool_decide (length mid = 1%nat /\ post <> []) then [] else mid)
  end.
Proof.
  intros Hs (El & Hpre & Hpost & Hmid). destruct l as [|x l].
  - pose proof Hs as (Hbuf & L1 & _). unfold strip. rewrite L1, Hbuf. change (zlen []) with 0. change (Z.to_nat 0) with 0%nat.
    cbn [strip_start]. mcbn. change (u32 (0 - 1)) with 4294967295. cbn [length app strip_end Z.gtb Z.compare]. rewrite Hbuf. done.
  - rewrite El in Hs. destruct Hmid as [->|(c & m & -> & Hc & m' & d & Hm & Hd)].
    + rewrite bool_decide_eq_false_2 by (intros [? _]; done). exists String_empty. split; [|apply empty_repr].
      cbn [app] in El. apply (strip_blanks s (pre ++ post)); [done|by rewrite <- El|by apply Forall_app].
    + destruct (strip_middle s pre c m m' d post Hs Hpre Hpost Hc Hm Hd) as (s' & E & Hr). exists s'. split; [done|].
      assert (Hb : bool_decide (length (c :: m) = 1%nat /\ post <> []) = bool_decide (m = [] /\ post <> [])).
      { apply bool_decide_ext. cbn. destruct m; [tauto|]. split; [intros [? _]; done|intros [? _]; done]. }
      by rewrite Hb.
Qed.

(** ** Numbers *)

(** The decimal number that the digits among the characters spell. *)
Definition digits_value (l : list Z) : Z := fold_left (fun v c => if isNumeric c then v * 10 + (c - 48) else v) l 0.

Definition cong (x y : Z) : Prop := wrap 32 x = wrap 32 y.

Lemma cong_s32 x y : cong x y -> s32 x = s32 y.
Proof. intros H. unfold s32. rewrite <- (swrap_wrap 32 x), <- (swrap_wrap 32 y) by done. by rewrite H. Qed.

Lemma cong_of_s32 x : cong (s32 x) x.
Proof. apply wrap_swrap. done. Qed.

Lemma cong_add x y x' y' : cong x x' -> cong y y' -> cong (x + y) (x' + y').
Proof. unfold cong, wrap. intros Hx Hy. rewrite Z.add_mod, Hx, Hy, <- Z.add_mod by done. done. Qed.

Lemma cong_mul x y x' y' : cong x x' -> cong y y' -> cong (x * y) (x' * y').
Proof. unfold cong, wrap. intros Hx Hy. rewrite Z.mul_mod, Hx, Hy, <- Z.mul_mod by done. done. Qed.

#[export] Instance cong_equiv : Equivalence cong.
Proof. split; unfold cong; [done|by intros ? ?|intros ? ? ?; congruence]. Qed.
#[export] Instance cong_add_proper : Proper (cong ==> cong ==> cong) Z.add.
Proof. intros x x' Hx y y' Hy. by apply cong_add. Qed.
#[export] Instance cong_mul_proper : Proper (cong ==> cong ==> cong) Z.mul.
Proof. intros x x' Hx y y' Hy. by apply cong_mul. Qed.

Lemma numeric_s8 c : 0 < c < 256 -> isNumeric c = true -> s8 c = c.
Proof.
  intros Hc. unfold isNumeric. destruct (Z.ltb_spec c 128); [intros _; unfold s8; rewrite swrap_small; [done|done|unfold in_s; cbn; lia]|].
  unfold s8, swrap. change (2 ^ (8 - 1)) with 128. change (2 ^ 8) with 256.
  replace (c + 128) with (c - 128 + 1 * 256) by lia. rewrite Z.mod_add, Z.mod_small by lia. rewrite andb_true_iff, Z.leb_le. lia.
Qed.

Lemma digits_value_snoc l c : digits_value (l ++ [c]) = if isNumeric c then digits_value l * 10 + (c - 48) else digits_value l.
Proof. unfold digits_value. by rewrite fold_left_app. Qed.

Lemma parse_loop_ok pre l rest j result :
  chars_ok l ->
  exists r, parse_loop (length l) (pre ++ l ++ rest) (zlen pre + zlen l - 1) j result = Ok r /\
    cong r (result + j * digits_value l) /\ (s32 result = result -> s32 r = r).
Proof.
  revert rest j result. induction l as [|c l IH] using rev_ind; intros rest j result Hl.
  - exists result. split; [done|]. split; [|done]. unfold digits_value. cbn. by rewrite Z.mul_0_r, Z.add_0_r.
  - apply Forall_app in Hl as [Hl Hc]. apply Forall_cons in Hc as [Hc _]. rewrite length_app, Nat.add_comm. cbn [length Nat.add parse_loop].
    replace (zlen pre + zlen (l ++ [c]) - 1) with (zlen pre + zlen l) by (unfold zlen; rewrite length_app; cbn; lia).
    destruct (aget_in (pre ++ (l ++ [c]) ++ rest) (zlen pre + zlen l)) as (c' & -> & Hc'); [unfold zlen; rewrite !length_app; cbn; lia|].
    replace (Z.to_nat (zlen pre + zlen l)) with (length (pre ++ l)) in Hc' by (unfold zlen; rewrite length_app; lia).
    assert (Ea : pre ++ (l ++ [c]) ++ rest = (pre ++ l) ++ c :: rest) by (by rewrite <- !app_assoc).
    rewrite Ea, list_lookup_middle in Hc' by done. injection Hc' as <-. mcbn. rewrite <- (app_assoc l).
    rewrite digits_value_snoc. destruct (isNumeric c) eqn:En.
    + rewrite (numeric_s8 c Hc En).
      destruct (IH ([c] ++ rest) (s32 (j * 10)) (s32 (result + s32 ((c - 48) * j))) Hl) as (r & E & Hr & Hs). exists r. split; [exact E|].
      split; [|intros _; apply Hs, cong_s32, cong_of_s32].
      rewrite Hr, !cong_of_s32. replace (result + j * (digits_value l * 10 + (c - 48))) with (result + (c - 48) * j + j * 10 * digits_value l) by ring. done.
    + apply (IH ([c] ++ rest) j result Hl).
Qed.

Definition signed_value (l : list Z) : Z :=
  match l with [] => 0 | c :: l' => if c =? 45 then - digits_value l' else digits_value l end.

(** ParseInt gives the number the digits spell, with the sign, reduced to
    32 bits; other characters are ignored. *)
Theorem parseInt_spec l rest :
  chars_ok l ->
  parseInt (l ++ 0 :: rest) =
  Ok (s32 (signed_value l)).
Proof.
  intros Hl. unfold parseInt. rewrite (chars_length_ok _ l rest 0); [|done|done|unfold zlen; lia|rewrite length_app; cbn; lia]. mcbn.
  assert (Hpos : forall pre l' , l = pre ++ l' -> exists r, parse_loop (Z.to_nat (zlen l - zlen pre)) (l ++ 0 :: rest) (zlen l - 1) 1 0 = Ok r /\
    cong r (digits_value l')).
  { intros pre l' ->. apply Forall_app in Hl as [_ Hl']. destruct (parse_loop_ok pre l' (0 :: rest) 1 0 Hl') as (r & E & Hr & _).
    exists r. rewrite Z.add_0_l, Z.mul_1_l in Hr. split; [|done]. rewrite <- E, app_assoc.
    f_equal; unfold zlen; rewrite length_app; lia. }
  destruct l as [|c l].
  - destruct (Hpos [] [] eq_refl) as (r & E & Hr). cbn [app]. mcbn. change (zlen []) with 0 in *. done.
  - destruct (aget_in ((c :: l) ++ 0 :: rest) 0) as (c' & -> & Hc'); [unfold zlen; cbn; lia|]. injection Hc' as <-. mcbn.
    destruct (decide (c = 45)) as [->|Hne].
    + cbn [signed_value Z.eqb Pos.eqb]. destruct (Hpos [45] l eq_refl) as (r & E & Hr). change (zlen [45]) with 1 in E. rewrite E. mcbn. f_equal.
      apply cong_s32. rewrite Hr. replace (digits_value l * -1) with (- digits_value l) by ring. done.
    + cbn [signed_value]. destruct (Z.eqb_spec c 45); [done|].
      destruct (Hpos [] (c :: l) eq_refl) as (r & E & Hr). change (zlen []) with 0 in E. rewrite E. mcbn.
      f_equal. apply cong_s32. by rewrite Hr, Z.mul_1_r.
Qed.

(** ** Letters *)

Definition upper (c : Z) : Z := if (97 <=? c) && (c <=? 122) then c - 32 else c.
Definition lower (c : Z) : Z := if (65 <=? c) && (c <=? 90) then c + 32 else c.

(** What the two loops do with one character, for all characters by computation. *)
Definition to_upper (c : Z) : Z := if isAlpha c then if s8 c <=? 90 then c else u8 (s8 c - CASE_OFFSET) else c.
Definition to_lower (c : Z) : Z := if isAlpha c then if s8 c >=? 97 then c else u8 (s8 c + CASE_OFFSET) else c.

Lemma letters c : 0 < c < 256 ->
  to_upper c = upper c /\ to_lower c = lower c /\ 0 < upper c < 256 /\ 0 < lower c < 256.
Proof.
  intros Hc. assert (H : Forall (fun c => to_upper c = upper c /\ to_lower c = lower c /\ 0 < upper c < 256 /\ 0 < lower c < 256) (Z.of_nat <$> seq 1 255)).
  { apply (bool_decide_unpack _). vm_compute. done. }
  apply (proj1 (Forall_forall _ _) H). apply list_elem_of_fmap. exists (Z.to_nat c). split; [lia|]. apply elem_of_seq. lia.
Qed.

(** A loop that replaces every character. *)
Lemma map_chars_ok f body s l :
  repr s l -> (forall c, 0 < c < 256 -> 0 < f c < 256) ->
  (forall i tmp c, index_get i tmp = Ok c -> 0 < c < 256 ->
     (body i tmp = Ok tmp /\ f c = c) \/ body i tmp = index_set i (f c) tmp) ->
  exists s', for_up (length l) 0 body s = Ok s' /\ repr s' (f <$> l).
Proof.
  intros Hs Hf Hbody.
  destruct (for_up_inv (fun i tmp => repr tmp ((f <$> take (Z.to_nat i) l) ++ drop (Z.to_nat i) l)) body (length l) 0 s) as (s' & E & Hs').
  - change (Z.to_nat 0) with 0%nat. by rewrite take_0, drop_0.
  - intros i tmp Hi Ht. destruct (drop (Z.to_nat i) l) as [|c rest] eqn:Ed.
    { apply (f_equal length) in Ed. rewrite length_drop in Ed. cbn in Ed. lia. }
    assert (Hc : l !! Z.to_nat i = Some c) by (rewrite <- (Nat.add_0_r (Z.to_nat i)), <- lookup_drop, Ed; done).
    assert (Hc0 : 0 < c < 256) by (destruct Ht as (_ & _ & C & _); apply Forall_app in C as [_ C]; by apply Forall_cons in C as [? _]).
    set (pre := f <$> take (Z.to_nat i) l) in *. assert (Hl : zlen pre = i) by (unfold pre, zlen; rewrite length_fmap, length_take; lia).
    assert (Hg : index_get i tmp = Ok c) by (unfold index_get; rewrite <- Hl; by apply repr_at with rest).
    assert (Ed' : drop (Z.to_nat (i + 1)) l = rest).
    { replace (Z.to_nat (i + 1)) with (Z.to_nat i + 1)%nat by lia. by rewrite <- drop_drop, Ed. }
    assert (Ep : f <$> take (Z.to_nat (i + 1)) l = pre ++ [f c]).
    { replace (Z.to_nat (i + 1)) with (S (Z.to_nat i)) by lia. by rewrite (take_S_r _ _ _ Hc), fmap_app. }
    rewrite Ed', Ep, <- app_assoc. destruct (Hbody i tmp c Hg Hc0) as [[-> ->]| ->]; [eauto|].
    destruct Ht as (B & L & C & M). unfold index_set. rewrite B. rewrite aset_in by (unfold zlen in *; rewrite !length_app; cbn; lia). mcbn.
    eexists. split; [done|]. apply Forall_app in C as [C1 C2]. apply Forall_cons in C2 as [_ C2]. split_and!; cbn [buffer len].
    + rewrite <- app_assoc. unfold zlen in Hl. rewrite insert_app_r_alt by lia. replace (Z.to_nat i - length pre)%nat with 0%nat by lia. by rewrite <- app_assoc.
    + rewrite L. unfold zlen. by rewrite !length_app.
    + apply Forall_app. split; [done|]. constructor; [by apply Hf|done].
    + unfold zlen in *. rewrite !length_app in *. done.
  - exists s'. split; [done|]. rewrite Z.add_0_l, Nat2Z.id, drop_all, firstn_all, app_nil_r in Hs'. done.
Qed.

(** The conversions change letters of the other case and nothing else. *)
Lemma case_spec s l :
  repr s l ->
  (exists s', toUpperCase s = Ok s' /\ repr s' (upper <$> l)) /\ (exists s', toLowerCase s = Ok s' /\ repr s' (lower <$> l)).
Proof.
  intros Hs. destruct (String_copy_ok s l Hs) as (t & E & Ht). unfold toUpperCase, toLowerCase. rewrite E. mcbn.
  destruct Hs as (_ & -> & _). replace (Z.to_nat (zlen l)) with (length l) by (unfold zlen; lia).
  split; (apply map_chars_ok; [done|intros c Hc; apply (letters c Hc)|]); intros i tmp c -> Hc; mcbn;
    destruct (letters c Hc) as (Hu & Hl & _); unfold to_upper, to_lower in *.
  - rewrite <- Hu. destruct (isAlpha c); [|by left]. destruct (s8 c <=? 90); [by left|by right].
  - rewrite <- Hl. destruct (isAlpha c); [|by left]. destruct (s8 c >=? 97); [by left|by right].
Qed.

(** ** Removing *)

Lemma sub_prefix l r : 0 <= r <= zlen l -> sub 0 r l = take (Z.to_nat r) l.
Proof.
  intros Hr. unfold sub, zlen in *. destruct (Z.gtb_spec 0 r); [lia|]. rewrite Z.geb_leb. cbn [orb].
  destruct (Z.leb_spec (Z.of_nat (length l)) 0).
  - destruct l; [by rewrite take_nil|cbn in *; lia].
  - change (Z.to_nat 0) with 0%nat. rewrite drop_0. f_equal. lia.
Qed.

(** [remove] takes the first occurrence out, and nothing when there is none. *)
Lemma remove_spec s t l p :
  repr s l -> repr t p ->
  exists s', remove t s = Ok s' /\
    ((repr s' l /\ forall i, 0 <= i -> ~ occurs l p i) \/
     exists i, occurs l p i /\ (forall k, 0 <= k < i -> ~ occurs l p k) /\
       repr s' (take (Z.to_nat i) l ++ drop (Z.to_nat i + length p) l)).
Proof.
  intros Hs Ht. destruct (indexOf_ok s t l p 0 Hs Ht ltac:(lia)) as (r & E & Hr). unfold remove. rewrite E. mcbn.
  pose proof Hs as (B1 & L1 & C1 & M1). pose proof Ht as (_ & L2 & _ & M2). unfold UINT32_MAX in M1, M2.
  destruct Hr as [[-> Hno]|(Hr & Ho & Hno)].
  - rewrite Z.eqb_refl, B1. destruct (String_cstr_ok l [] C1) as (s' & E' & Hs'); [done|]. exists s'. eauto.
  - destruct (Z.eqb_spec r UINT32_MAX); [lia|]. pose proof (occurs_fits _ _ _ Ho) as Hfit. assert (N := zlen_nonneg p).
    destruct (substring_ok 0 r s l Hs ltac:(lia)) as (a & -> & Ha). mcbn. rewrite L1, L2.
    replace (u32 (r + zlen p)) with (r + zlen p) by (unwrap; lia).
    destruct (substring_ok (r + zlen p) (zlen l) s l Hs ltac:(lia)) as (b & -> & Hb). mcbn.
    rewrite sub_prefix in Ha by lia. rewrite sub_all in Hb by lia.
    destruct (plus_ok a b _ _ Ha Hb) as (s' & -> & Hs').
    { unfold zlen, UINT32_MAX in *. rewrite length_take, length_drop. lia. }
    exists s'. split; [done|]. right. exists r. split_and!; try done.
    replace (Z.to_nat r + length p)%nat with (Z.to_nat (r + zlen p)) by (unfold zlen; lia). done.
Qed.

(** ** Instances *)

Definition of_chars (l : list Z) : String := mkString (l ++ [0]) (zlen l).

Lemma of_chars_repr l : chars_ok l -> zlen l < UINT32_MAX -> repr (of_chars l) l.
Proof. intros Hl Hm. unfold repr. by split_and!. Qed.

(** "a/bc//d" *)
Definition path_chars : list Z := [97; 47; 98; 99; 47; 47; 100].

Lemma path_repr : repr (of_chars path_chars) path_chars.
Proof. apply of_chars_repr; [repeat constructor; lia|done]. Qed.

Lemma string_indexOf_spec_witness : exists r, indexOf (of_chars [47; 47]) 0 (of_chars path_chars) = Ok r /\
  first_index (occurs path_chars [47; 47]) 0 r.
Proof.
  destruct (string_indexOf_spec (of_chars path_chars) (of_chars [47; 47]) path_chars [47; 47] 97 0) as (H & _).
  - apply path_repr.
  - apply of_chars_repr; [repeat constructor; lia|done].
  - lia.
  - exact H.
Defined.

Lemma split_spec_witness : exists ts, split 7 (String_char 47) 0 (of_chars path_chars) = Ok ts /\
  Forall2 repr ts [[97]; [98; 99]; [100]].
Proof.
  destruct (split_spec (of_chars path_chars) (String_char 47) path_chars 47) as [H _].
  - apply path_repr.
  - by apply char_repr.
  - exact H.
Defined.

Lemma join_split_roundtrip_witness : exists s ts', join (String_char 47) [of_chars [97]; of_chars [98; 99]] = Ok s /\
  split 4 (String_char 47) 0 s = Ok ts' /\ Forall2 repr ts' [[97]; [98; 99]].
Proof.
  apply (join_split_roundtrip 47 [of_chars [97]; of_chars [98; 99]] [[97]; [98; 99]]).
  - lia.
  - repeat constructor; apply of_chars_repr; (done || (repeat constructor; lia)).
  - done.
  - apply (bool_decide_unpack _). vm_compute. done.
  - done.
  - done.
Defined.

(** The string " a " is stripped to the empty string. *)
Lemma strip_spec_witness : exists s', strip (of_chars [32; 97; 32]) = Ok s' /\ repr s' [].
Proof.
  apply (strip_spec (of_chars [32; 97; 32]) [32; 97; 32] [32] [97] [32]).
  - apply of_chars_repr; [repeat constructor; lia|done].
  - split_and!; [done|by repeat constructor|by repeat constructor|right].
    exists 97, []. split_and!; try done. by exists [], 97.
Defined.

Lemma parseInt_spec_witness : parseInt [45; 52; 50; 0] = Ok (-42).
Proof. apply (parseInt_spec [45; 52; 50] []). repeat constructor; lia. Defined.
