(* ===== verification/ArrayList.v ===== *)
(** * [Util::ArrayList]: a list backed by a growing array

    Model of [src/lib/util/collection/ArrayList.h].  The state has the fields of
    the class; [elements] is the array [new T[capacity]] gave, with its unused
    slots.  The functional behaviour is stated against plain lists:
    [contents l] are the first [length] slots.  A [Collection] argument is what
    its iterator walks over, a snapshot array of its elements. *)

From S2P Require Import Prelude.
Open Scope Z_scope.

Record ArrayList (T : Type) := mkArrayList {
  elements : list T;
  capacity : Z;
  len : Z
}.
Arguments mkArrayList {T} elements capacity len.
Arguments elements {T} a.
Arguments capacity {T} a.
Arguments len {T} a.

Definition DEFAULT_CAPACITY : Z := 8.

Section Operations.
Context {T : Type} `{NE : NotEq T}.
(** The value [new T[n]] leaves in a slot. *)
Context (dflt : T).

Definition new_array (n : Z) : list T := replicate (Z.to_nat n) dflt.

Definition ArrayList_empty : ArrayList T := mkArrayList [] 0 0.

Definition ArrayList_capacity (capacity : Z) : ArrayList T :=
  mkArrayList (new_array capacity) capacity 0.

Definition get (index : Z) (l : ArrayList T) : outcome T :=
  if len l <=? index then Throw OUT_OF_BOUNDS else aget (elements l) index.

(** [capacity] doubles until it is large enough.  Once the product has
    overflowed to 0 it stays 0, so a loop that has not ended after 33 rounds
    never ends. *)
Definition ensureCapacity (newCapacity : Z) (l : ArrayList T) : outcome (ArrayList T) :=
  let l := if capacity l =? 0
           then mkArrayList (new_array DEFAULT_CAPACITY) DEFAULT_CAPACITY (len l) else l in
  if newCapacity <=? capacity l then Ok l
  else
    let oldCapacity := capacity l in
    c ← while 33 (fun c => c <? newCapacity) (fun c => Ok (u32 (c * 2))) (capacity l);
    el ← copy_loop (Z.to_nat oldCapacity) (elements l) (new_array c);
    Ok (mkArrayList el c (len l)).

Definition add (element : T) (l : ArrayList T) : outcome (bool * ArrayList T) :=
  l ← ensureCapacity (u32 (len l + 1)) l;
  el ← aset (elements l) (len l) element;
  Ok (true, mkArrayList el (capacity l) (u32 (len l + 1))).

Fixpoint addAll (other : list T) (l : ArrayList T) : outcome (bool * ArrayList T) :=
  match other with
  | [] => Ok (true, l)
  | element :: other => '(_, l) ← add element l; addAll other l
  end.

Definition ArrayList_of (elements : list T) : outcome (ArrayList T) :=
  snd <$> addAll elements (ArrayList_capacity (zlen elements)).

Definition add_at (index : Z) (element : T) (l : ArrayList T) : outcome (ArrayList T) :=
  if len l <? index then Ok l
  else
    l ← ensureCapacity (u32 (len l + 1)) l;
    el ← for_down (Z.to_nat (len l - index)) (len l)
           (fun i el => x ← aget el (i - 1); aset el i x) (elements l);
    el ← aset el index element;
    Ok (mkArrayList el (capacity l) (u32 (len l + 1))).

Definition removeIndex (index : Z) (l : ArrayList T) : outcome (T * ArrayList T) :=
  if len l <=? index then Throw OUT_OF_BOUNDS
  else
    tmp ← aget (elements l) index;
    let numMoved := u32 (len l - index - 1) in
    el ← (if negb (numMoved =? 0) then
            for_up (Z.to_nat numMoved) 0
              (fun i el => x ← aget el (index + i + 1); aset el (index + i) x) (elements l)
          else Ok (elements l));
    Ok (tmp, mkArrayList el (capacity l) (u32 (len l - 1))).

Definition pop (l : ArrayList T) : outcome (T * ArrayList T) :=
  removeIndex (u32 (len l - 1)) l.

(** [for (index = 0; index < length && elements[index] != element; index++) {}];
    the fuel is the number of elements left. *)
Fixpoint indexOf_loop (fuel : nat) (index : Z) (element : T) (l : ArrayList T) : outcome Z :=
  if index <? len l then
    x ← aget (elements l) index;
    if op_ne x element then
      match fuel with O => Loops | S fuel => indexOf_loop fuel (index + 1) element l end
    else Ok index
  else Ok index.

Definition indexOf (element : T) (l : ArrayList T) : outcome Z :=
  index ← indexOf_loop (Z.to_nat (len l)) 0 element l;
  Ok (if index =? len l then UINT32_MAX else index).

Definition remove (element : T) (l : ArrayList T) : outcome (bool * ArrayList T) :=
  index ← indexOf element l;
  if len l <=? index then Ok (false, l)
  else '(_, l) ← removeIndex index l; Ok (true, l).

Fixpoint removeAll_loop (other : list T) (changed : bool) (l : ArrayList T) : outcome (bool * ArrayList T) :=
  match other with
  | [] => Ok (changed, l)
  | element :: other =>
      '(r, l) ← remove element l;
      removeAll_loop other (r || changed) l
  end.

Definition removeAll (other : list T) (l : ArrayList T) : outcome (bool * ArrayList T) :=
  removeAll_loop other false l.

Definition contains (element : T) (l : ArrayList T) : outcome bool :=
  index ← indexOf element l; Ok (index <? len l).

Fixpoint containsAll (other : list T) (l : ArrayList T) : outcome bool :=
  match other with
  | [] => Ok true
  | element :: other =>
      c ← contains element l;
      if negb c then Ok false else containsAll other l
  end.

Definition clear (l : ArrayList T) : ArrayList T := mkArrayList (elements l) (capacity l) 0.
Definition size (l : ArrayList T) : Z := len l.
Definition isEmpty (l : ArrayList T) : bool := len l =? 0.

Definition set (index : Z) (element : T) (l : ArrayList T) : outcome (ArrayList T) :=
  if len l <=? index then Ok l
  else el ← aset (elements l) index element; Ok (mkArrayList el (capacity l) (len l)).

Definition toArray (l : ArrayList T) : outcome (list T) :=
  copy_loop (Z.to_nat (len l)) (elements l) (new_array (len l)).

(** ** The invariant and the abstraction *)

Definition wf (l : ArrayList T) : Prop :=
  zlen (elements l) = capacity l /\ 0 <= len l <= capacity l /\ capacity l < 2 ^ 32.

Definition contents (l : ArrayList T) : list T := take (Z.to_nat (len l)) (elements l).

Lemma al_contents_length l : wf l -> zlen (contents l) = len l.
Proof. unfold wf, contents, zlen. intros. rewrite length_take. lia. Qed.

Lemma al_contents_lookup l (i : nat) :
  (i < Z.to_nat (len l))%nat -> contents l !! i = elements l !! i.
Proof. intros. unfold contents. rewrite lookup_take. by case_decide. Qed.

Lemma wf_empty : wf ArrayList_empty /\ contents ArrayList_empty = [].
Proof. done. Qed.

Lemma wf_capacity c :
  0 <= c < 2 ^ 32 -> wf (ArrayList_capacity c) /\ contents (ArrayList_capacity c) = [].
Proof.
  intros. unfold wf, ArrayList_capacity, new_array, zlen. cbn. rewrite length_replicate.
  split; [lia|]. done.
Qed.

Lemma doubling c new :
  0 < c < 2 ^ 32 -> c < new -> new <= 2 ^ 31 ->
  exists c', while 33 (fun c => c <? new) (fun c => Ok (u32 (c * 2))) c = Ok c' /\ new <= c' < 2 ^ 32.
Proof.
  intros Hc Hn Hm.
  destruct (while_inv (fun c => 0 < c < 2 ^ 32) (fun c => Z.to_nat (32 - Z.log2 c))
    (fun c => c <? new) (fun c => Ok (u32 (c * 2))) 33 c) as (c' & Hw & Hi & Hcond).
  - lia.
  - pose proof (Z.log2_nonneg c). lia.
  - intros s Hs Hlt%Z.ltb_lt. exists (s * 2). unfold u32. rewrite wrap_small by (unfold in_u; lia).
    split_and!; [done|lia|lia|]. rewrite Z.mul_comm, Z.log2_double by lia.
    assert (Z.log2 s < 32) by (apply Z.log2_lt_pow2; lia). lia.
  - exists c'. split; [done|]. apply Z.ltb_ge in Hcond. lia.
Qed.

Lemma ensureCapacity_spec new l :
  wf l -> len l <= new <= 2 ^ 31 ->
  exists l', ensureCapacity new l = Ok l' /\ wf l' /\ new <= capacity l' /\
    len l' = len l /\ contents l' = contents l.
Proof.
  intros Hwf Hnew. unfold ensureCapacity.
  set (l0 := if capacity l =? 0 then _ else l).
  assert (wf l0 /\ 0 < capacity l0 /\ len l0 = len l /\ contents l0 = contents l) as (Hwf0 & Hc0 & Hl0 & Hcon).
  { subst l0. destruct Hwf as (H1 & H2 & H3). destruct (Z.eqb_spec (capacity l) 0).
    - assert (len l = 0) as El by lia. unfold wf, contents. cbn. rewrite El. split_and!; done.
    - split_and!; try done. lia. }
  clearbody l0. destruct (Z.leb_spec new (capacity l0)).
  { exists l0. rewrite Hl0. auto. }
  destruct Hwf0 as (E1 & E2 & E3). unfold zlen in E1.
  destruct (doubling (capacity l0) new) as (c' & -> & Hc'); [lia..|]. cbn.
  rewrite copy_loop_spec by (unfold new_array; rewrite ?length_replicate; lia). cbn. eexists. split; [done|].
  unfold wf, contents, zlen, new_array in *. cbn. rewrite length_app, length_take, length_drop, length_replicate.
  split_and!; try lia. rewrite <- Hcon, Hl0. rewrite take_app_le by (rewrite length_take; lia).
  by rewrite take_take, Nat.min_l by lia.
Qed.

(** ** Every operation against lists *)

(** Two lists with the same lookups below the length are equal; used to compare
    the array prefix with the abstract list. *)
Lemma al_contents_eq l (k : list T) :
  wf l -> len l = zlen k -> (forall j, (j < length k)%nat -> elements l !! j = k !! j) ->
  contents l = k.
Proof.
  intros Hwf Hl H. apply list_eq. intros j. unfold contents. rewrite lookup_take. unfold zlen in Hl.
  case_decide; [apply H; lia|]. symmetry. apply lookup_ge_None. lia.
Qed.

Lemma wf_room l : wf l -> capacity l < 2 ^ 32 /\ 0 <= len l /\ zlen (elements l) = capacity l.
Proof. unfold wf. lia. Qed.

Lemma add_spec x l :
  wf l -> len l < 2 ^ 31 ->
  exists l', add x l = Ok (true, l') /\ wf l' /\ contents l' = contents l ++ [x].
Proof.
  intros Hwf Hlen. pose proof Hwf as (H1 & H2 & H3). unfold add, u32.
  rewrite wrap_small by (unfold in_u; lia).
  destruct (ensureCapacity_spec (len l + 1) l) as (l1 & -> & Hwf1 & Hcap & Hl1 & Hcon); [done|lia|]. cbn.
  pose proof Hwf1 as (E1 & E2 & E3).
  rewrite aset_in by lia. cbn. rewrite wrap_small by (unfold in_u; lia). eexists. split; [done|].
  assert (wf (mkArrayList (<[Z.to_nat (len l1) := x]> (elements l1)) (capacity l1) (len l1 + 1))) as Hwf2.
  { unfold wf. cbn. rewrite zlen_insert. lia. }
  split; [done|]. pose proof (al_contents_length l Hwf) as Hcl. unfold zlen in *.
  apply al_contents_eq; [done|unfold zlen; rewrite length_app; cbn; lia|].
  intros j Hj. rewrite length_app in Hj. cbn in Hj |- *. rewrite list_lookup_insert. case_decide.
  - rewrite lookup_app_r by lia. replace (j - _)%nat with 0%nat by lia. done.
  - rewrite lookup_app_l by lia. rewrite <- Hcon, al_contents_lookup by lia. done.
Qed.

Lemma add_at_spec i x l :
  wf l -> len l < 2 ^ 31 -> 0 <= i ->
  exists l', add_at i x l = Ok l' /\ wf l' /\
    contents l' = (if len l <? i then contents l
                   else take (Z.to_nat i) (contents l) ++ x :: drop (Z.to_nat i) (contents l)).
Proof.
  intros Hwf Hlen Hi. pose proof Hwf as (H1 & H2 & H3). unfold add_at, u32.
  destruct (Z.ltb_spec (len l) i); [eauto|].
  rewrite wrap_small by (unfold in_u; lia).
  destruct (ensureCapacity_spec (len l + 1) l) as (l1 & -> & Hwf1 & Hcap & Hl1 & Hcon); [done|lia|]. cbn.
  pose proof Hwf1 as (E1 & E2 & E3).
  destruct (shift_up_loop (elements l1) i (len l1)) as (el & -> & Hel & Hlk); [lia..|]. cbn.
  unfold zlen in *. rewrite aset_in by (unfold zlen; lia). cbn.
  rewrite wrap_small by (unfold in_u; lia). eexists. split; [done|].
  match goal with |- wf ?l /\ _ => assert (wf l) as Hwf2 end.
  { unfold wf. cbn. rewrite zlen_insert. unfold zlen. lia. }
  split; [done|]. pose proof (al_contents_length l Hwf) as Hcl. unfold zlen in Hcl.
  apply al_contents_eq; [done|unfold zlen; cbn; rewrite length_app, length_take; cbn; rewrite length_drop; lia|].
  intros j Hj. rewrite length_app, length_take in Hj. cbn in Hj |- *. rewrite length_drop in Hj.
  rewrite list_lookup_insert, Hlk, lookup_app, lookup_take.
  rewrite length_take_le by lia. repeat case_decide; try lia.
  - replace (j - Z.to_nat i)%nat with 0%nat by lia. done.
  - rewrite <- (al_contents_lookup l1), Hcon by lia.
    rewrite lookup_cons_ne_0, lookup_drop by lia. f_equal. lia.
  - rewrite <- (al_contents_lookup l1), Hcon by lia.
    destruct (lookup_lt_is_Some_2 (contents l) j) as [y ->]; [lia|done].
Qed.

Lemma removeIndex_spec i l :
  wf l -> 0 <= i < len l ->
  exists x l', removeIndex i l = Ok (x, l') /\ contents l !! Z.to_nat i = Some x /\
    wf l' /\ contents l' = delete (Z.to_nat i) (contents l).
Proof.
  intros Hwf Hi. pose proof Hwf as (H1 & H2 & H3). unfold removeIndex, u32.
  destruct (Z.leb_spec (len l) i); [lia|]. unfold zlen in H1.
  destruct (aget_in (elements l) i) as (x & Hx & Hx'); [unfold zlen; lia|]. rewrite Hx. cbn.
  rewrite !wrap_small by (unfold in_u; lia).
  assert (exists el, (if negb (len l - i - 1 =? 0) then
      for_up (Z.to_nat (len l - i - 1)) 0 (fun i0 el => x ← aget el (i + i0 + 1); aset el (i + i0) x) (elements l)
      else Ok (elements l)) = Ok el /\ length el = length (elements l) /\
      forall j, el !! j = if decide (Z.to_nat i <= j < Z.to_nat (len l - 1))%nat then elements l !! S j else elements l !! j)
    as (el & -> & Hel & Hlk).
  { destruct (Z.eqb_spec (len l - i - 1) 0); cbn [negb].
    - eexists. split_and!; [done|done|]. intros j. case_decide; [lia|done].
    - destruct (shift_down_loop (elements l) i (Z.to_nat (len l - i - 1))) as (el & -> & Hel & Hlk);
        [lia|unfold zlen; lia|]. exists el. split_and!; [done|done|]. intros j. rewrite Hlk.
      repeat case_decide; (done || lia). }
  cbn. eexists x, _. split; [done|]. split; [by rewrite al_contents_lookup by lia|].
  match goal with |- wf ?l /\ _ => assert (wf l) as Hwf2 end.
  { unfold wf, zlen. cbn. lia. }
  split; [done|]. pose proof (al_contents_length l Hwf) as Hcl. unfold zlen in Hcl.
  assert (length (delete (Z.to_nat i) (contents l)) = length (contents l) - 1)%nat as Hd.
  { apply length_delete, lookup_lt_is_Some. lia. }
  apply al_contents_eq; [done|unfold zlen; cbn; lia|]. intros j Hj. cbn.
  rewrite Hlk, list_lookup_delete. repeat case_decide; try lia; rewrite al_contents_lookup by lia; done.
Qed.

Lemma removeIndex_oob i l : len l <= i -> removeIndex i l = Throw OUT_OF_BOUNDS.
Proof. intros. unfold removeIndex. destruct (Z.leb_spec (len l) i); [done|lia]. Qed.

Lemma al_get_spec i l :
  wf l -> 0 <= i ->
  get i l = match contents l !! Z.to_nat i with Some x => Ok x | None => Throw OUT_OF_BOUNDS end.
Proof.
  intros Hwf Hi. pose proof (al_contents_length l Hwf) as Hcl. destruct Hwf as (H1 & H2 & H3).
  unfold get. unfold zlen in *. destruct (Z.leb_spec (len l) i).
  - by rewrite (proj2 (lookup_ge_None _ _)) by lia.
  - rewrite al_contents_lookup by lia. destruct (aget_in (elements l) i) as (x & -> & ->); [unfold zlen; lia|done].
Qed.

Lemma set_spec i x l :
  wf l -> 0 <= i ->
  exists l', set i x l = Ok l' /\ wf l' /\ contents l' = <[Z.to_nat i := x]> (contents l).
Proof.
  intros Hwf Hi. pose proof (al_contents_length l Hwf) as Hcl. pose proof Hwf as (H1 & H2 & H3).
  unfold set. unfold zlen in *. destruct (Z.leb_spec (len l) i).
  - eexists. split_and!; [done|done|]. by rewrite list_insert_ge by lia.
  - rewrite aset_in by (unfold zlen; lia). cbn. eexists. split; [done|].
    match goal with |- wf ?l /\ _ => assert (wf l) as Hwf2 end.
    { unfold wf. cbn. rewrite zlen_insert. unfold zlen. lia. }
    split; [done|]. unfold contents. cbn. by rewrite take_insert_lt by lia.
Qed.

Lemma al_clear_spec l : wf l -> wf (clear l) /\ contents (clear l) = [].
Proof. unfold wf, clear, contents. cbn. intros. split; [lia|done]. Qed.

Lemma toArray_spec l : wf l -> toArray l = Ok (contents l).
Proof.
  intros (H1 & H2 & H3). unfold toArray, new_array, zlen in *.
  rewrite copy_loop_spec by (rewrite ?length_replicate; lia).
  rewrite drop_ge by (rewrite length_replicate; lia). by rewrite app_nil_r.
Qed.

(** [indexOf] is the first index whose element is not different from the one
    searched, [UINT32_MAX] if there is none. *)
Definition first_index (x : T) (k : list T) : option nat :=
  fst <$> list_find (fun y => op_ne y x = false) k.

Lemma indexOf_loop_spec x l (n : nat) i :
  wf l -> 0 <= i -> (Z.to_nat (len l - i) <= n)%nat -> i <= len l ->
  indexOf_loop n i x l =
    Ok (match first_index x (drop (Z.to_nat i) (contents l)) with
        | Some j => i + Z.of_nat j | None => len l end).
Proof.
  intros Hwf. revert i. pose proof (al_contents_length l Hwf) as Hcl. pose proof Hwf as (H1 & H2 & H3).
  unfold zlen in *. induction n as [|n IH]; intros i Hi Hn Hle; cbn [indexOf_loop].
  { destruct (Z.ltb_spec i (len l)); [lia|]. rewrite drop_ge by lia. cbn. f_equal. lia. }
  destruct (Z.ltb_spec i (len l)).
  2:{ rewrite drop_ge by lia. cbn. f_equal. lia. }
  destruct (aget_in (elements l) i) as (y & -> & Hy); [unfold zlen; lia|]. cbn.
  rewrite <- al_contents_lookup in Hy by lia. rewrite (drop_S _ _ _ Hy). unfold first_index. cbn [list_find].
  destruct (op_ne y x) eqn:Hne; case_decide; try done; cbn; [|f_equal; lia].
  rewrite IH by lia. replace (Z.to_nat (i + 1)) with (S (Z.to_nat i)) by lia. unfold first_index.
  destruct (list_find _ _) as [[j z]|]; cbn; f_equal; lia.
Qed.

Lemma indexOf_spec x l :
  wf l -> indexOf x l = Ok (match first_index x (contents l) with
                            | Some j => Z.of_nat j | None => UINT32_MAX end).
Proof.
  intros Hwf. unfold indexOf. pose proof (al_contents_length l Hwf) as Hcl. pose proof Hwf as (H1 & H2 & H3).
  rewrite indexOf_loop_spec by (done || lia). cbn. rewrite drop_0. f_equal.
  destruct (first_index x (contents l)) as [j|] eqn:E.
  - unfold first_index in E. apply fmap_Some in E as ([j' y] & Hf & ->).
    apply list_find_Some in Hf as (Hf & _ & _). apply lookup_lt_Some in Hf. unfold zlen in *. cbn.
    destruct (Z.eqb_spec (0 + Z.of_nat j') (len l)); lia.
  - by rewrite Z.eqb_refl.
Qed.

Lemma first_index_lt x k j : first_index x k = Some j -> (j < length k)%nat.
Proof.
  unfold first_index. intros ([j' y] & Hf & ->)%fmap_Some.
  apply list_find_Some in Hf as (Hf & _ & _). by apply lookup_lt_Some in Hf.
Qed.

Definition list_remove (x : T) (k : list T) : bool * list T :=
  match first_index x k with Some j => (true, delete j k) | None => (false, k) end.

Lemma al_remove_spec x l :
  wf l -> len l < UINT32_MAX ->
  exists l', remove x l = Ok ((list_remove x (contents l)).1, l') /\ wf l' /\
    contents l' = (list_remove x (contents l)).2.
Proof.
  intros Hwf Hmax. unfold remove, list_remove. rewrite indexOf_spec by done. cbn.
  pose proof (al_contents_length l Hwf) as Hcl. unfold zlen in Hcl.
  destruct (first_index x (contents l)) as [j|] eqn:E.
  - apply first_index_lt in E. destruct (Z.leb_spec (len l) (Z.of_nat j)); [lia|].
    destruct (removeIndex_spec (Z.of_nat j) l) as (y & l' & -> & _ & Hwf' & Hc); [done|lia|].
    cbn. exists l'. rewrite Nat2Z.id in Hc. done.
  - destruct (Z.leb_spec (len l) UINT32_MAX); [|lia]. exists l. done.
Qed.

Lemma al_contains_spec x l :
  wf l -> len l < UINT32_MAX ->
  contains x l = Ok (bool_decide (is_Some (first_index x (contents l)))).
Proof.
  intros Hwf Hmax. unfold contains. rewrite indexOf_spec by done. cbn. f_equal.
  pose proof (al_contents_length l Hwf) as Hcl. unfold zlen in Hcl.
  destruct (first_index x (contents l)) as [j|] eqn:E.
  - apply first_index_lt in E. rewrite bool_decide_true by eauto. apply Z.ltb_lt. lia.
  - rewrite bool_decide_false by (intros [? ?]; done). apply Z.ltb_ge. lia.
Qed.
End Operations.

(** ** The class as a refinement of lists *)

Section Refinement.
Context {T : Type} `{NE : NotEq T} (dflt : T).

Lemma addAll_spec xs l :
  wf l -> len l + zlen xs < 2 ^ 31 ->
  exists l', addAll dflt xs l = Ok (true, l') /\ wf l' /\ contents l' = contents l ++ xs.
Proof.
  revert l. induction xs as [|x xs IH]; intros l Hwf Hl; cbn [addAll].
  - exists l. by rewrite app_nil_r.
  - unfold zlen in Hl. cbn in Hl. pose proof (al_contents_length l Hwf).
    destruct (add_spec dflt x l) as (l1 & -> & Hwf1 & Hc1); [done|lia|]. cbn.
    pose proof (al_contents_length l1 Hwf1) as Hcl. rewrite Hc1 in Hcl. unfold zlen in *. rewrite length_app in Hcl. cbn in Hcl.
    destruct (IH l1) as (l2 & -> & Hwf2 & Hc2); [done|unfold zlen; lia|].
    exists l2. by rewrite Hc2, Hc1, <- app_assoc.
Qed.

Fixpoint list_removeAll (xs : list T) (c : bool) (k : list T) : bool * list T :=
  match xs with
  | [] => (c, k)
  | x :: xs => let '(r, k) := list_remove x k in list_removeAll xs (r || c) k
  end.

Lemma list_remove_length x (k : list T) : (length (list_remove x k).2 <= length k)%nat.
Proof.
  unfold list_remove. destruct (first_index x k) as [j|] eqn:E; cbn; [|lia].
  apply first_index_lt in E. rewrite length_delete by (apply lookup_lt_is_Some; lia). lia.
Qed.

Lemma removeAll_loop_spec xs c l :
  wf l -> len l < UINT32_MAX ->
  exists l', removeAll_loop xs c l = Ok ((list_removeAll xs c (contents l)).1, l') /\ wf l' /\
    contents l' = (list_removeAll xs c (contents l)).2.
Proof.
  revert c l. induction xs as [|x xs IH]; intros c l Hwf Hl; cbn [removeAll_loop list_removeAll]; [eauto|].
  destruct (al_remove_spec x l) as (l1 & -> & Hwf1 & Hc1); [done..|]. cbn.
  pose proof (list_remove_length x (contents l)) as Hlen. rewrite <- Hc1 in Hlen.
  pose proof (al_contents_length l Hwf). pose proof (al_contents_length l1 Hwf1). unfold zlen in *.
  destruct (list_remove x (contents l)) as [r k]. cbn in *. subst k. apply IH; [done|lia].
Qed.

(** The operations as requests, and their results. *)
Inductive op :=
| Add (x : T) | AddAt (i : Z) (x : T) | AddAll (xs : list T)
| RemoveIndex (i : Z) | Pop | Remove (x : T) | RemoveAll (xs : list T)
| Set_ (i : Z) (x : T) | Clear | Get (i : Z) | IndexOf (x : T) | Contains (x : T) | ToArray.

Inductive result := RUnit | RBool (b : bool) | RElem (x : T) | RIndex (i : Z) | RArray (k : list T).

(** One request to the class. *)
Definition exec (o : op) (l : ArrayList T) : outcome (result * ArrayList T) :=
  match o with
  | Add x => '(b, l) ← add dflt x l; Ok (RBool b, l)
  | AddAt i x => l ← add_at dflt i x l; Ok (RUnit, l)
  | AddAll xs => '(b, l) ← addAll dflt xs l; Ok (RBool b, l)
  | RemoveIndex i => '(x, l) ← removeIndex i l; Ok (RElem x, l)
  | Pop => '(x, l) ← pop l; Ok (RElem x, l)
  | Remove x => '(b, l) ← remove x l; Ok (RBool b, l)
  | RemoveAll xs => '(b, l) ← removeAll xs l; Ok (RBool b, l)
  | Set_ i x => l ← set i x l; Ok (RUnit, l)
  | Clear => Ok (RUnit, clear l)
  | Get i => x ← get i l; Ok (RElem x, l)
  | IndexOf x => i ← indexOf x l; Ok (RIndex i, l)
  | Contains x => b ← contains x l; Ok (RBool b, l)
  | ToArray => a ← toArray dflt l; Ok (RArray a, l)
  end.

(** What the request means on a list. *)
Definition spec (o : op) (k : list T) : outcome (result * list T) :=
  match o with
  | Add x => Ok (RBool true, k ++ [x])
  | AddAt i x =>
      Ok (RUnit, if zlen k <? i then k else take (Z.to_nat i) k ++ x :: drop (Z.to_nat i) k)
  | AddAll xs => Ok (RBool true, k ++ xs)
  | RemoveIndex i =>
      match k !! Z.to_nat i with
      | Some x => Ok (RElem x, delete (Z.to_nat i) k) | None => Throw OUT_OF_BOUNDS end
  | Pop =>
      match last k with
      | Some x => Ok (RElem x, delete (length k - 1)%nat k) | None => Throw OUT_OF_BOUNDS end
  | Remove x => let '(b, k) := list_remove x k in Ok (RBool b, k)
  | RemoveAll xs => let '(b, k) := list_removeAll xs false k in Ok (RBool b, k)
  | Set_ i x => Ok (RUnit, <[Z.to_nat i := x]> k)
  | Clear => Ok (RUnit, [])
  | Get i => match k !! Z.to_nat i with Some x => Ok (RElem x, k) | None => Throw OUT_OF_BOUNDS end
  | IndexOf x =>
      Ok (RIndex (match first_index x k with Some j => Z.of_nat j | None => UINT32_MAX end), k)
  | Contains x => Ok (RBool (bool_decide (is_Some (first_index x k))), k)
  | ToArray => Ok (RArray k, k)
  end.

(** How many elements a request may add. *)
Definition growth (o : op) : Z :=
  match o with Add _ | AddAt _ _ => 1 | AddAll xs => zlen xs | _ => 0 end.

Definition op_ok (o : op) : Prop :=
  match o with AddAt i _ | RemoveIndex i | Set_ i _ | Get i => in_u 32 i | _ => True end.

Definition refines (c : outcome (result * ArrayList T)) (a : outcome (result * list T)) : Prop :=
  match a with
  | Ok (r, k) => exists l, c = Ok (r, l) /\ wf l /\ contents l = k
  | Throw e => c = Throw e
  | _ => False
  end.

Lemma removeIndex_refines i l :
  wf l -> 0 <= i ->
  refines ('(x, l) ← removeIndex i l; Ok (RElem x, l)) (spec (RemoveIndex i) (contents l)).
Proof.
  intros Hwf Hi. cbn [spec]. pose proof (al_contents_length l Hwf). unfold zlen in *.
  destruct (Z.lt_ge_cases i (len l)).
  - destruct (removeIndex_spec i l) as (x & l' & -> & -> & Hwf' & Hc); [done|lia|]. cbn. eauto.
  - rewrite removeIndex_oob by done. by rewrite (proj2 (lookup_ge_None _ _)) by lia.
Qed.

Lemma pop_refines l :
  wf l -> refines ('(x, l) ← pop l; Ok (RElem x, l)) (spec Pop (contents l)).
Proof.
  intros Hwf. unfold pop, u32. pose proof (al_contents_length l Hwf). pose proof Hwf as (_ & H2 & H3). unfold zlen in *.
  destruct (decide (len l = 0)) as [E|E].
  - cbn [spec]. rewrite removeIndex_oob by (rewrite E; done).
    destruct (contents l); [done|cbn in *; lia].
  - rewrite wrap_small by (unfold in_u; lia).
    pose proof (removeIndex_refines (len l - 1) l Hwf ltac:(lia)) as Hr. cbn [spec] in *.
    replace (Z.to_nat (len l - 1)) with (length (contents l) - 1)%nat in Hr by lia.
    rewrite last_lookup. replace (Nat.pred _) with (length (contents l) - 1)%nat by lia. exact Hr.
Qed.

Lemma al_exec_refines o l :
  wf l -> op_ok o -> len l + growth o < 2 ^ 31 -> refines (exec o l) (spec o (contents l)).
Proof.
  intros Hwf Hok Hg. pose proof (al_contents_length l Hwf) as Hcl. pose proof Hwf as (_ & H2 & _).
  assert (len l < UINT32_MAX).
  { destruct o; cbn in Hg; unfold UINT32_MAX; pose proof (@zlen_nonneg T); try lia. pose proof (H xs). lia. }
  destruct o; cbn [exec growth op_ok] in *; unfold in_u in *.
  - destruct (add_spec dflt x l) as (l' & -> & ? & ?); [done|lia|]. cbn. eauto.
  - destruct (add_at_spec dflt i x l) as (l' & -> & ? & ?); [done|lia|lia|]. cbn. rewrite Hcl. eauto.
  - destruct (addAll_spec xs l) as (l' & -> & ? & ?); [done|lia|]. cbn. eauto.
  - apply removeIndex_refines; [done|lia].
  - by apply pop_refines.
  - destruct (al_remove_spec x l) as (l' & -> & ? & ?); [done..|]. cbn.
    destruct (list_remove x (contents l)). cbn in *. eauto.
  - unfold removeAll. destruct (removeAll_loop_spec xs false l) as (l' & -> & ? & ?); [done..|]. cbn.
    destruct (list_removeAll xs false (contents l)). cbn in *. eauto.
  - destruct (set_spec i x l) as (l' & -> & ? & ?); [done|lia|]. cbn. eauto.
  - destruct (al_clear_spec l Hwf). cbn. eauto.
  - cbn [spec]. rewrite al_get_spec by (done || lia). destruct (contents l !! Z.to_nat i); cbn; eauto.
  - rewrite indexOf_spec by done. cbn. eauto.
  - rewrite al_contains_spec by done. cbn. eauto.
  - rewrite toArray_spec by done. cbn. eauto.
Qed.

Fixpoint run {S} (step : op -> S -> outcome (result * S)) (os : list op) (s : S) : outcome (list result * S) :=
  match os with
  | [] => Ok ([], s)
  | o :: os => '(r, s) ← step o s; '(rs, s) ← run step os s; Ok (r :: rs, s)
  end.

Definition total_growth (os : list op) : Z := foldr (fun o n => growth o + n) 0 os.

Lemma spec_growth o k r k' : spec o k = Ok (r, k') -> zlen k' <= zlen k + growth o.
Proof.
  unfold zlen. destruct o; cbn [spec growth]; intros H; simplify_eq; try lia.
  - rewrite length_app. cbn. lia.
  - destruct (zlen k <? i); [lia|]. rewrite length_app, length_take. cbn. rewrite length_drop. lia.
  - rewrite length_app. unfold zlen. lia.
  - destruct (k !! Z.to_nat i) eqn:E; simplify_eq. rewrite length_delete by eauto. lia.
  - destruct (last k) eqn:E; simplify_eq. rewrite last_lookup in E.
    rewrite length_delete; [lia|]. replace (length k - 1)%nat with (Nat.pred (length k)) by lia. eauto.
  - pose proof (list_remove_length x k). destruct (list_remove x k). simplify_eq. cbn in *. lia.
  - assert (forall c (k : list T), length (list_removeAll xs c k).2 <= length k)%nat as Hr.
    { clear. induction xs as [|x xs IH]; intros c k; cbn; [lia|].
      pose proof (list_remove_length x k). destruct (list_remove x k) as [r k1]. cbn in *.
      pose proof (IH (r || c) k1). lia. }
    pose proof (Hr false k). destruct (list_removeAll xs false k). simplify_eq. cbn in *. lia.
  - rewrite length_insert. lia.
  - cbn. lia.
  - destruct (k !! Z.to_nat i); simplify_eq. lia.
Qed.

(** C22: Any sequence of requests to an ArrayList that keeps it below 2^31
    elements gives the results and exceptions of the same requests on a
    list, without a fault. *)
Theorem ArrayList_refines_list os l :
  wf l -> Forall op_ok os -> len l + total_growth os < 2 ^ 31 ->
  match run spec os (contents l) with
  | Ok (rs, k) => exists l', run exec os l = Ok (rs, l') /\ wf l' /\ contents l' = k
  | Throw e => run exec os l = Throw e
  | _ => False
  end.
Proof.
  revert l. induction os as [|o os IH]; intros l Hwf Hok Hg; cbn [run]; [eauto|].
  apply Forall_cons in Hok as [Ho Hos]. cbn [total_growth foldr] in Hg. fold (total_growth os) in Hg.
  assert (0 <= total_growth os).
  { clear. induction os as [|o os IH]; cbn; [lia|]. fold (total_growth os).
    destruct o; cbn; try lia. pose proof (zlen_nonneg xs). lia. }
  pose proof (al_exec_refines o l Hwf Ho ltac:(lia)) as Hr. unfold refines in Hr.
  destruct (spec o (contents l)) as [[r k]|e| |] eqn:Hs; cbn; [|by rewrite Hr|done..].
  destruct Hr as (l1 & -> & Hwf1 & <-). cbn. apply spec_growth in Hs.
  rewrite (al_contents_length l), (al_contents_length l1) in Hs by done.
  specialize (IH l1 Hwf1 Hos ltac:(lia)).
  destruct (run spec os (contents l1)) as [[rs k]|e| |]; cbn; [|by rewrite IH|done..].
  destruct IH as (l2 & -> & ? & ?). cbn. eauto.
Qed.
End Refinement.

Lemma ArrayList_refines_list_witness :
  let os := [Add 3; Add 5; AddAt 1 4; Remove 3; AddAll [7; 8; 9; 1; 2; 6]; Pop; IndexOf 9; ToArray] in
  exists l, run (exec 0) os ArrayList_empty =
    Ok ([RBool true; RBool true; RUnit; RBool true; RBool true; RElem 6; RIndex 4;
         RArray [4; 5; 7; 8; 9; 1; 2]], l) /\ wf l /\ contents l = [4; 5; 7; 8; 9; 1; 2].
Proof.
  intros os. pose proof (ArrayList_refines_list 0 os ArrayList_empty) as H.
  assert (run spec os (contents ArrayList_empty) =
    Ok ([RBool true; RBool true; RUnit; RBool true; RBool true; RElem 6; RIndex 4;
         RArray [4; 5; 7; 8; 9; 1; 2]], [4; 5; 7; 8; 9; 1; 2])) as E by (vm_compute; reflexivity).
  rewrite E in H. apply H; [done|repeat constructor; done|done].
Defined.
