(* ===== verification/Queue.v ===== *)
(** * The contract of [Util::Queue] and what a client may rely on

    [src/lib/util/collection/Queue.h] is the interface two classes implement.
    The type class below states what they promise in terms of the sequence of
    queued elements; the FIFO theorem is proved once, for every implementation. *)

From S2P Require Import Prelude.
Open Scope Z_scope.

(** [poll] and [peek] spin in a [Thread::yield] loop while the queue is empty,
    which is the outcome [Loops]. *)
Class Queue (Q T : Type) := {
  q_wf : Q -> Prop;
  q_list : Q -> list T;
  (** how many elements the queue can hold *)
  q_room : Q -> Z;
  offer : T -> Q -> outcome (bool * Q);
  poll : Q -> outcome (T * Q);
  peek : Q -> outcome T;
  q_isEmpty : Q -> bool;
  q_size : Q -> Z;
  q_clear : Q -> Q;
  offer_room x q :
    q_wf q -> zlen (q_list q) < q_room q ->
    exists q', offer x q = Ok (true, q') /\ q_wf q' /\ q_list q' = q_list q ++ [x] /\ q_room q' = q_room q;
  poll_cons x k q :
    q_wf q -> q_list q = x :: k ->
    exists q', poll q = Ok (x, q') /\ q_wf q' /\ q_list q' = k /\ q_room q' = q_room q;
  poll_nil q : q_wf q -> q_list q = [] -> poll q = Loops;
  peek_head q : q_wf q -> peek q = match q_list q with x :: _ => Ok x | [] => Loops end;
  q_isEmpty_spec q : q_wf q -> q_isEmpty q = bool_decide (q_list q = []);
  q_size_spec q : q_wf q -> q_size q = zlen (q_list q);
  q_clear_spec q : q_wf q -> q_wf (q_clear q) /\ q_list (q_clear q) = [];
  (** [Collection::add], which waits for space where [offer] gives up *)
  q_add : T -> Q -> outcome (bool * Q);
  q_add_room x q : q_wf q -> zlen (q_list q) < q_room q -> q_add x q = offer x q
}.

Section Client.
Context `{QI : Queue Q T}.

Fixpoint offer_all (xs : list T) (q : Q) : outcome Q :=
  match xs with
  | [] => Ok q
  | x :: xs => '(_, q) ← offer x q; offer_all xs q
  end.

Fixpoint poll_n (n : nat) (q : Q) : outcome (list T * Q) :=
  match n with
  | O => Ok ([], q)
  | S n => '(x, q) ← poll q; '(xs, q) ← poll_n n q; Ok (x :: xs, q)
  end.

Lemma offer_all_spec xs q :
  q_wf q -> zlen (q_list q ++ xs) <= q_room q ->
  exists q', offer_all xs q = Ok q' /\ q_wf q' /\ q_list q' = q_list q ++ xs /\ q_room q' = q_room q.
Proof.
  revert q. induction xs as [|x xs IH]; intros q Hwf Hroom; cbn [offer_all].
  - exists q. by rewrite app_nil_r.
  - unfold zlen in *. rewrite length_app in Hroom. cbn in Hroom.
    destruct (offer_room x q) as (q1 & -> & Hwf1 & Hl1 & Hr1); [done|unfold zlen; lia|]. cbn.
    destruct (IH q1) as (q2 & -> & Hwf2 & Hl2 & Hr2); [done|rewrite Hl1, !length_app, Hr1; cbn; lia|].
    exists q2. split_and!; [done|done| |congruence]. by rewrite Hl2, Hl1, <- app_assoc.
Qed.

Lemma poll_n_spec xs k q :
  q_wf q -> q_list q = xs ++ k ->
  exists q', poll_n (length xs) q = Ok (xs, q') /\ q_wf q' /\ q_list q' = k /\ q_room q' = q_room q.
Proof.
  revert q. induction xs as [|x xs IH]; intros q Hwf Hl; cbn [poll_n length]; [eauto|].
  destruct (poll_cons x (xs ++ k) q) as (q1 & -> & Hwf1 & Hl1 & Hr1); [done|done|]. cbn.
  destruct (IH q1) as (q2 & -> & Hwf2 & Hl2 & Hr2); [done|done|]. cbn.
  exists q2. split_and!; (done || congruence).
Qed.

(** First in, first out: what was queued first comes out first, then what was
    offered, in order. *)
Lemma fifo xs q :
  q_wf q -> zlen (q_list q ++ xs) <= q_room q ->
  exists q1 q2, offer_all xs q = Ok q1 /\
    poll_n (length (q_list q ++ xs)) q1 = Ok (q_list q ++ xs, q2) /\ q_wf q2 /\ q_list q2 = [].
Proof.
  intros Hwf Hroom. destruct (offer_all_spec xs q) as (q1 & H1 & Hwf1 & Hl1 & Hr1); [done|done|].
  destruct (poll_n_spec (q_list q ++ xs) [] q1) as (q2 & H2 & Hwf2 & Hl2 & _); [done|by rewrite app_nil_r|].
  exists q1, q2. done.
Qed.
End Client.
