(* ===== verification/ArrayListBlockingQueue.v ===== *)
(** * [Util::ArrayListBlockingQueue]

    Model of [src/lib/util/collection/ArrayListBlockingQueue.h]: an unbounded
    queue that delegates to an [ArrayList]; the ready queue of the scheduler. *)

From S2P Require Import Prelude ArrayList Queue.
Open Scope Z_scope.

Record ArrayListBlockingQueue (T : Type) := mkQueue { elements : ArrayList T }.
Arguments mkQueue {T} elements.
Arguments elements {T} a.

Definition DEFAULT_CAPACITY : Z := 16.

Section Operations.
Context {T : Type} `{NE : NotEq T} (dflt : T).
Local Abbreviation queue := (ArrayListBlockingQueue T).

Definition Queue_new : queue := mkQueue (ArrayList_capacity dflt DEFAULT_CAPACITY).
Definition Queue_capacity (capacity : Z) : queue := mkQueue (ArrayList_capacity dflt capacity).

Definition offer (element : T) (q : queue) : outcome (bool * queue) :=
  '(b, l) ← ArrayList.add dflt element (elements q); Ok (b, mkQueue l).

Definition isEmpty (q : queue) : bool := ArrayList.isEmpty (elements q).

(** While the queue is empty the caller yields. *)
Definition poll (q : queue) : outcome (T * queue) :=
  if isEmpty q then Loops
  else '(x, l) ← ArrayList.removeIndex 0 (elements q); Ok (x, mkQueue l).

Definition peek (q : queue) : outcome T :=
  if isEmpty q then Loops else ArrayList.get 0 (elements q).

Definition get (index : Z) (q : queue) : outcome T := ArrayList.get index (elements q).

Definition add (element : T) (q : queue) : outcome (bool * queue) :=
  '(b, l) ← ArrayList.add dflt element (elements q); Ok (b, mkQueue l).

Definition addAll (other : list T) (q : queue) : outcome (bool * queue) :=
  '(b, l) ← ArrayList.addAll dflt other (elements q); Ok (b, mkQueue l).

Definition remove (element : T) (q : queue) : outcome (bool * queue) :=
  '(b, l) ← ArrayList.remove element (elements q); Ok (b, mkQueue l).

Definition removeAll (other : list T) (q : queue) : outcome (bool * queue) :=
  '(b, l) ← ArrayList.removeAll other (elements q); Ok (b, mkQueue l).

Definition contains (element : T) (q : queue) : outcome bool := ArrayList.contains element (elements q).
Definition containsAll (other : list T) (q : queue) : outcome bool := ArrayList.containsAll other (elements q).
Definition clear (q : queue) : queue := mkQueue (ArrayList.clear (elements q)).
Definition size (q : queue) : Z := ArrayList.size (elements q).
Definition toArray (q : queue) : outcome (list T) := ArrayList.toArray dflt (elements q).

Definition wf (q : queue) : Prop := ArrayList.wf (elements q).
Definition contents (q : queue) : list T := ArrayList.contents (elements q).

Lemma alq_offer_spec x q :
  wf q -> zlen (contents q) < 2 ^ 31 ->
  exists q', offer x q = Ok (true, q') /\ wf q' /\ contents q' = contents q ++ [x].
Proof.
  intros Hwf Hl. unfold offer. unfold contents in Hl. rewrite ArrayList.al_contents_length in Hl by done.
  destruct (add_spec dflt x (elements q)) as (l & -> & ? & ?); [done|done|]. cbn. eauto.
Qed.

Lemma isEmpty_spec q : wf q -> isEmpty q = bool_decide (contents q = []).
Proof.
  intros Hwf. pose proof (ArrayList.al_contents_length _ Hwf) as Hl. unfold isEmpty, ArrayList.isEmpty, contents in *.
  rewrite <- Hl. unfold zlen. destruct (ArrayList.contents (elements q)); [done|].
  rewrite bool_decide_false by done. apply Z.eqb_neq. cbn. lia.
Qed.

Lemma alq_poll_spec q :
  wf q ->
  match contents q with
  | x :: k => exists q', poll q = Ok (x, q') /\ wf q' /\ contents q' = k
  | [] => poll q = Loops
  end.
Proof.
  intros Hwf. unfold poll. rewrite isEmpty_spec by done.
  pose proof (ArrayList.al_contents_length _ Hwf) as Hl. unfold contents in *.
  destruct (ArrayList.contents (elements q)) as [|x k] eqn:E.
  - by rewrite bool_decide_true.
  - rewrite bool_decide_false by done. unfold zlen in Hl. cbn in Hl.
    destruct (removeIndex_spec 0 (elements q)) as (y & l & -> & Hy & Hwf' & Hc); [done|lia|].
    rewrite E in Hy, Hc. change (Z.to_nat 0) with 0%nat in *. cbn in Hy, Hc. simplify_eq. cbn.
    exists (mkQueue l). split_and!; done.
Qed.

Lemma alq_peek_spec q : wf q -> peek q = match contents q with x :: _ => Ok x | [] => Loops end.
Proof.
  intros Hwf. unfold peek. rewrite isEmpty_spec by done. unfold contents.
  rewrite al_get_spec by done. by destruct (ArrayList.contents (elements q)).
Qed.

(** The class implements the queue contract, with room for 2^31 elements. *)
#[export] Program Instance ArrayListBlockingQueue_Queue : Queue queue T := {|
  q_wf := wf; q_list := contents; q_room _ := 2 ^ 31;
  Queue.offer := offer; Queue.poll := poll; Queue.peek := peek;
  q_isEmpty := isEmpty; q_size := size; q_clear := clear; q_add := add
|}.
Next Obligation. intros x q Hwf Hl. destruct (alq_offer_spec x q) as (q' & ? & ? & ?); eauto. Qed.
Next Obligation. intros x k q Hwf Hl. pose proof (alq_poll_spec q Hwf) as H. rewrite Hl in H. deex. eauto. Qed.
Next Obligation. intros q Hwf Hl. pose proof (alq_poll_spec q Hwf) as H. by rewrite Hl in H. Qed.
Next Obligation. intros q Hwf. by apply alq_peek_spec. Qed.
Next Obligation. intros q Hwf. by apply isEmpty_spec. Qed.
Next Obligation. intros q Hwf. unfold size, ArrayList.size, contents. by rewrite ArrayList.al_contents_length. Qed.
Next Obligation. intros q Hwf. by apply ArrayList.al_clear_spec. Qed.
Next Obligation. done. Qed.

Lemma alq_remove_spec x q :
  wf q -> zlen (contents q) < UINT32_MAX ->
  exists q', remove x q = Ok ((list_remove x (contents q)).1, q') /\ wf q' /\ contents q' = (list_remove x (contents q)).2.
Proof.
  intros Hwf Hl. unfold remove. unfold contents in Hl. rewrite ArrayList.al_contents_length in Hl by done.
  destruct (ArrayList.al_remove_spec x (elements q)) as (l & -> & ? & ?); [done|done|]. cbn. eauto.
Qed.

Lemma alq_contains_spec x q :
  wf q -> zlen (contents q) < UINT32_MAX ->
  contains x q = Ok (bool_decide (is_Some (first_index x (contents q)))).
Proof.
  intros Hwf Hl. unfold contains. unfold contents in *. rewrite ArrayList.al_contents_length in Hl by done.
  by apply ArrayList.al_contains_spec.
Qed.

Lemma alq_get_spec i q :
  wf q -> 0 <= i -> get i q = match contents q !! Z.to_nat i with Some x => Ok x | None => Throw OUT_OF_BOUNDS end.
Proof. intros. by apply ArrayList.al_get_spec. Qed.
End Operations.
