(* ===== verification/ArrayBlockingQueue.v ===== *)
(** * [Util::ArrayBlockingQueue]: a bounded ring buffer

    Model of [src/lib/util/collection/ArrayBlockingQueue.h].  [tail] starts at
    [-1] as an unsigned number, so that [tail + 1] wraps to 0. *)

From S2P Require Import Prelude Array Queue.
Open Scope Z_scope.

Record ArrayBlockingQueue (T : Type) := mkRing {
  elements : list T;
  capacity : Z;
  head : Z;
  tail : Z;
  len : Z
}.
Arguments mkRing {T} elements capacity head tail len.
Arguments elements {T} a.
Arguments capacity {T} a.
Arguments head {T} a.
Arguments tail {T} a.
Arguments len {T} a.

Definition DEFAULT_CAPACITY : Z := 16.

Section Operations.
Context {T : Type} `{EqDecision T} (dflt : T).
Local Abbreviation queue := (ArrayBlockingQueue T).

Definition Ring_new (capacity : Z) : queue :=
  mkRing (replicate (Z.to_nat capacity) dflt) capacity 0 UINT32_MAX 0.

Definition offer (element : T) (q : queue) : outcome (bool * queue) :=
  if len q =? capacity q then Ok (false, q)
  else
    tail ← umod (u32 (tail q + 1)) (capacity q);
    el ← aset (elements q) tail element;
    Ok (true, mkRing el (capacity q) (head q) tail (u32 (len q + 1))).

Definition poll (q : queue) : outcome (T * queue) :=
  if len q =? 0 then Loops
  else
    element ← aget (elements q) (head q);
    head ← umod (u32 (head q + 1)) (capacity q);
    Ok (element, mkRing (elements q) (capacity q) head (tail q) (u32 (len q - 1))).

Definition peek (q : queue) : outcome T :=
  if len q =? 0 then Loops else aget (elements q) (head q).

(** [add] yields until there is room. *)
Definition add (element : T) (q : queue) : outcome (bool * queue) :=
  '(b, q) ← offer element q;
  if negb b then Loops else Ok (true, q).

Fixpoint addAll (other : list T) (q : queue) : outcome (bool * queue) :=
  match other with
  | [] => Ok (true, q)
  | element :: other => '(_, q) ← add element q; addAll other q
  end.

Definition remove (element : T) (q : queue) : outcome (bool * queue) := Throw UNSUPPORTED_OPERATION.
Definition removeAll (other : list T) (q : queue) : outcome (bool * queue) := Throw UNSUPPORTED_OPERATION.

(** [for (i = head; i < tail; i++)]: a raw array access, so an index past the
    end is a fault and the fuel, the array's size plus one, is enough. *)
Fixpoint contains_loop (fuel : nat) (i : Z) (element : T) (q : queue) : outcome bool :=
  if i <? tail q then
    x ← aget (elements q) i;
    if bool_decide (x = element) then Ok true
    else match fuel with O => Loops | S fuel => contains_loop fuel (i + 1) element q end
  else Ok false.

Definition contains (element : T) (q : queue) : outcome bool :=
  contains_loop (S (length (elements q))) (head q) element q.

Fixpoint containsAll (other : list T) (q : queue) : outcome bool :=
  match other with
  | [] => Ok true
  | element :: other =>
      c ← contains element q;
      if negb c then Ok false else containsAll other q
  end.

Definition isEmpty (q : queue) : bool := len q =? 0.
Definition clear (q : queue) : queue := mkRing (elements q) (capacity q) 0 UINT32_MAX 0.
Definition size (q : queue) : Z := len q.

Fixpoint toArray_loop (fuel : nat) (i : Z) (q : queue) (a : Array T) : outcome (Array T) :=
  if i <? tail q then
    match fuel with
    | O => Loops
    | S fuel =>
        x ← aget (elements q) i;
        a ← index_set i x a;
        toArray_loop fuel (i + 1) q a
    end
  else Ok a.

Definition toArray (q : queue) : outcome (Array T) :=
  toArray_loop (S (length (elements q))) (head q) q (Array_new dflt (len q)).

(** ** Invariant and abstraction *)

(** The slot of the [i]-th queued element. *)
Definition slot (q : queue) (i : Z) : Z := (head q + i) mod capacity q.

Definition wf (q : queue) : Prop :=
  zlen (elements q) = capacity q /\ 0 < capacity q < 2 ^ 31 /\ 0 <= head q < capacity q /\
  0 <= len q <= capacity q /\ in_u 32 (tail q) /\ u32 (tail q + 1) mod capacity q = slot q (len q).

Definition contents (q : queue) : list T :=
  omap (fun i => elements q !! Z.to_nat (slot q i)) (seqZ 0 (len q)).

Lemma slot_range q i : wf q -> 0 <= slot q i < capacity q.
Proof. intros (_ & H & _). apply Z.mod_pos_bound. lia. Qed.

Lemma slot_inj q i j :
  wf q -> 0 <= i < capacity q -> 0 <= j < capacity q -> slot q i = slot q j -> i = j.
Proof.
  intros (_ & H & Hh & _) Hi Hj E. unfold slot in E.
  pose proof (Z.div_mod (head q + i) (capacity q) ltac:(lia)).
  pose proof (Z.div_mod (head q + j) (capacity q) ltac:(lia)). rewrite E in *.
  assert ((head q + i) / capacity q = (head q + j) / capacity q); [|nia].
  pose proof (Z.mod_pos_bound (head q + j) (capacity q)). nia.
Qed.

(** On the indices of the array, a lookup always succeeds, so mapping with it is
    mapping a total function. *)
Lemma omap_total {A B} (f : A -> option B) (l : list A) :
  (forall x, x ∈ l -> is_Some (f x)) -> length (omap f l) = length l /\
  forall i x, l !! i = Some x -> omap f l !! i = f x.
Proof.
  induction l as [|a l IH]; intros H; cbn.
  - split; [done|]. intros. by rewrite lookup_nil in *.
  - destruct (H a) as [b Hb]; [constructor|]. rewrite Hb.
    destruct IH as [IH1 IH2]; [intros x Hx; apply H; by constructor|].
    split; [cbn; lia|]. intros [|i] x Hx; cbn in *; [congruence|by apply IH2].
Qed.

Lemma ring_contents_lookup q i :
  wf q -> 0 <= i < len q -> contents q !! Z.to_nat i = elements q !! Z.to_nat (slot q i).
Proof.
  intros Hwf Hi. destruct (omap_total (fun i => elements q !! Z.to_nat (slot q i)) (seqZ 0 (len q))) as [_ H].
  { intros x _. apply lookup_lt_is_Some. pose proof (slot_range q x Hwf). destruct Hwf as (Hl & _). unfold zlen in Hl. lia. }
  unfold contents. rewrite (H (Z.to_nat i) i); [done|]. apply lookup_seqZ. lia.
Qed.

Lemma ring_contents_length q : wf q -> zlen (contents q) = len q.
Proof.
  intros Hwf. destruct (omap_total (fun i => elements q !! Z.to_nat (slot q i)) (seqZ 0 (len q))) as [H _].
  { intros x _. apply lookup_lt_is_Some. pose proof (slot_range q x Hwf). destruct Hwf as (Hl & _). unfold zlen in Hl. lia. }
  unfold zlen, contents. rewrite H, length_seqZ. destruct Hwf as (_ & _ & _ & Hl & _). lia.
Qed.

Lemma ring_contents_eq q (k : list T) :
  wf q -> len q = zlen k ->
  (forall i, 0 <= i < len q -> elements q !! Z.to_nat (slot q i) = k !! Z.to_nat i) -> contents q = k.
Proof.
  intros Hwf Hl H. pose proof (ring_contents_length q Hwf) as Hc. unfold zlen in *. apply list_eq. intros j.
  destruct (decide (j < length k)%nat).
  - rewrite <- (Nat2Z.id j), ring_contents_lookup by (done || lia). apply H. lia.
  - rewrite !lookup_ge_None_2 by lia. done.
Qed.

Lemma Ring_new_wf c : 0 < c < 2 ^ 31 -> wf (Ring_new c) /\ contents (Ring_new c) = [].
Proof.
  intros Hc. split; [|done]. unfold wf, Ring_new, slot. cbn. unfold zlen. rewrite length_replicate.
  split_and!; try lia; try (unfold in_u, UINT32_MAX; lia). rewrite Z.mod_0_l by lia. done.
Qed.

Lemma offer_full x q : len q = capacity q -> offer x q = Ok (false, q).
Proof. intros E. unfold offer. by rewrite E, Z.eqb_refl. Qed.

Lemma ring_offer_spec x q :
  wf q -> len q < capacity q ->
  exists q', offer x q = Ok (true, q') /\ wf q' /\ contents q' = contents q ++ [x] /\ capacity q' = capacity q.
Proof.
  intros Hwf Hlt. pose proof Hwf as (Hl & Hc & Hh & Hn & Ht & Hs). unfold offer, umod, u32 in *.
  destruct (Z.eqb_spec (len q) (capacity q)); [lia|]. destruct (Z.eqb_spec (capacity q) 0); [lia|]. cbn.
  rewrite Hs. pose proof (slot_range q (len q) Hwf) as Hr. rewrite aset_in by lia. cbn.
  rewrite (wrap_small 32 (len q + 1)) by (unfold in_u; lia). eexists. split; [done|].
  match goal with |- wf ?r /\ _ => set (q' := r) end.
  assert (wf q') as Hwf'.
  { unfold wf, slot, q'. cbn. rewrite zlen_insert. split_and!; try lia; [unfold in_u; lia..|].
    unfold u32. rewrite wrap_small by (unfold in_u; lia). unfold slot. rewrite Zplus_mod_idemp_l. f_equal. lia. }
  split_and!; [done| |done]. pose proof (ring_contents_length q Hwf) as Hcl. unfold zlen in *.
  apply ring_contents_eq; [done|unfold zlen; rewrite length_app; cbn; lia|].
  intros i Hi. cbn in Hi. change (slot q' i) with (slot q i). unfold q'. cbn [elements].
  destruct (decide (i = len q)) as [->|].
  - rewrite list_lookup_insert_eq by lia. rewrite lookup_app_r by lia. replace (_ - _)%nat with 0%nat by lia. done.
  - rewrite list_lookup_insert_ne.
    + rewrite lookup_app_l by lia. by rewrite ring_contents_lookup by (done || lia).
    + intros E. apply Z2Nat.inj in E; [|lia|pose proof (slot_range q i Hwf); lia].
      apply (slot_inj q (len q) i) in E; [lia|done|lia|lia].
Qed.

Lemma ring_poll_spec x k q :
  wf q -> contents q = x :: k ->
  exists q', poll q = Ok (x, q') /\ wf q' /\ contents q' = k /\ capacity q' = capacity q.
Proof.
  intros Hwf Hk. pose proof (ring_contents_length q Hwf) as Hcl. rewrite Hk in Hcl. unfold zlen in Hcl. cbn in Hcl.
  pose proof Hwf as (Hl & Hc & Hh & Hn & Ht & Hs). unfold poll, umod, u32 in *.
  destruct (Z.eqb_spec (len q) 0); [lia|]. destruct (Z.eqb_spec (capacity q) 0); [lia|].
  destruct (aget_in (elements q) (head q)) as (y & -> & Hy); [lia|]. cbn.
  assert (y = x) as ->.
  { pose proof (ring_contents_lookup q 0 Hwf ltac:(lia)) as H0. rewrite Hk in H0. unfold slot in H0.
    rewrite Z.add_0_r, Z.mod_small in H0 by lia. rewrite Hy in H0. by injection H0. }
  rewrite !wrap_small by (unfold in_u; lia). eexists. split; [done|].
  match goal with |- wf ?r /\ _ => set (q' := r) end.
  assert (forall i, slot q' i = slot q (i + 1)) as Hslot.
  { intros i. unfold slot, q'. cbn. rewrite Zplus_mod_idemp_l. f_equal. lia. }
  assert (wf q') as Hwf'.
  { unfold wf. rewrite Hslot. unfold q'. cbn. replace (len q - 1 + 1) with (len q) by lia.
    pose proof (Z.mod_pos_bound (head q + 1) (capacity q)). split_and!; try lia; [unfold in_u in *; lia..|done]. }
  split_and!; [done| |done]. apply ring_contents_eq; [done|unfold zlen; cbn; lia|].
  intros i Hi. rewrite Hslot. cbn [elements len q'] in *. unfold q'. cbn [elements].
  rewrite <- ring_contents_lookup by (done || lia). rewrite Hk. replace (Z.to_nat (i + 1)) with (S (Z.to_nat i)) by lia. done.
Qed.

Lemma contents_nil q : wf q -> (len q =? 0) = bool_decide (contents q = []).
Proof.
  intros Hwf. rewrite <- (ring_contents_length q Hwf). unfold zlen. destruct (contents q); [done|].
  rewrite bool_decide_false by done. apply Z.eqb_neq. cbn. lia.
Qed.

Lemma ring_peek_spec q : wf q -> peek q = match contents q with x :: _ => Ok x | [] => Loops end.
Proof.
  intros Hwf. unfold peek. rewrite contents_nil by done. destruct (contents q) as [|x k] eqn:E.
  - by rewrite bool_decide_true.
  - rewrite bool_decide_false by done. destruct (ring_poll_spec x k q Hwf E) as (q' & Hp & _).
    unfold poll in Hp. rewrite contents_nil, E, bool_decide_false in Hp by done.
    apply bind_ok in Hp as (y & -> & Hp). apply bind_ok in Hp as (h & _ & Hp). congruence.
Qed.

Lemma ring_clear_spec q : wf q -> wf (clear q) /\ contents (clear q) = [].
Proof.
  intros (Hl & Hc & _). split; [|done]. unfold wf, clear, slot. cbn.
  split_and!; try lia; try (unfold in_u, UINT32_MAX; lia). rewrite Z.mod_0_l by lia. done.
Qed.

#[export] Program Instance ArrayBlockingQueue_Queue : Queue queue T := {|
  q_wf := wf; q_list := contents; q_room := capacity;
  Queue.offer := offer; Queue.poll := poll; Queue.peek := peek;
  q_isEmpty := isEmpty; q_size := size; q_clear := clear; q_add := add
|}.
Next Obligation. intros x q Hwf Hl. rewrite ring_contents_length in Hl by done. by apply ring_offer_spec. Qed.
Next Obligation. intros x k q Hwf Hl. by apply ring_poll_spec. Qed.
Next Obligation.
  intros q Hwf Hl. unfold poll. rewrite contents_nil by done. by rewrite bool_decide_true.
Qed.
Next Obligation. intros q Hwf. by apply ring_peek_spec. Qed.
Next Obligation. intros q Hwf. by apply contents_nil. Qed.
Next Obligation. intros q Hwf. symmetry. by apply ring_contents_length. Qed.
Next Obligation. intros q Hwf. by apply ring_clear_spec. Qed.
Next Obligation.
  intros x q Hwf Hl. rewrite ring_contents_length in Hl by done. destruct (ring_offer_spec x q Hwf Hl) as (q' & E & _).
  cbn. unfold add. by rewrite E.
Qed.

(** ** The class as a bounded queue *)

Inductive request := Offer (x : T) | Poll | Clear.
Inductive reply := Offered (b : bool) | Polled (x : T) | Cleared.

Definition exec (r : request) (q : queue) : outcome (reply * queue) :=
  match r with
  | Offer x => '(b, q) ← offer x q; Ok (Offered b, q)
  | Poll => '(x, q) ← poll q; Ok (Polled x, q)
  | Clear => Ok (Cleared, clear q)
  end.

(** What the requests mean for a queue of at most [c] elements; a poll of an
    empty queue waits. *)
Definition spec (c : Z) (r : request) (k : list T) : outcome (reply * list T) :=
  match r with
  | Offer x => if zlen k =? c then Ok (Offered false, k) else Ok (Offered true, k ++ [x])
  | Poll => match k with x :: k => Ok (Polled x, k) | [] => Loops end
  | Clear => Ok (Cleared, [])
  end.

Fixpoint run {St} (step : request -> St -> outcome (reply * St)) (rs : list request) (s : St) : outcome (list reply * St) :=
  match rs with
  | [] => Ok ([], s)
  | r :: rs => '(a, s) ← step r s; '(as_, s) ← run step rs s; Ok (a :: as_, s)
  end.

(** C23: the ring buffer refines a bounded FIFO queue.  Every sequence of
    requests, however often it wraps around the end of the array, gives the
    replies of the list queue of the same capacity: [offer] refuses exactly when
    [capacity] elements are queued, [poll] gives the oldest one and waits
    exactly when there is none; no access leaves the array. *)
Theorem ring_refines_queue rs q :
  wf q ->
  match run (spec (capacity q)) rs (contents q) with
  | Ok (replies, k) =>
      exists q', run exec rs q = Ok (replies, q') /\ wf q' /\ contents q' = k /\ capacity q' = capacity q
  | Loops => run exec rs q = Loops
  | _ => False
  end.
Proof.
  revert q. induction rs as [|r rs IH]; intros q Hwf; cbn [run]; [eauto 6|].
  assert (match spec (capacity q) r (contents q) with
          | Ok (a, k) => exists q', exec r q = Ok (a, q') /\ wf q' /\ contents q' = k /\ capacity q' = capacity q
          | Loops => exec r q = Loops | _ => False end) as Hr.
  { destruct r as [x| |]; cbn [spec exec].
    - rewrite ring_contents_length by done. destruct (Z.eqb_spec (len q) (capacity q)).
      + rewrite offer_full by done. cbn. eauto 6.
      + destruct (ring_offer_spec x q) as (q' & -> & ? & ? & ?); [done|destruct Hwf; lia|]. cbn. eauto 6.
    - destruct (contents q) as [|x k] eqn:E.
      + unfold poll. rewrite contents_nil, E by done. done.
      + destruct (ring_poll_spec x k q Hwf E) as (q' & -> & ? & ? & ?). cbn. eauto 6.
    - destruct (ring_clear_spec q Hwf) as [Hw Hc]. exists (clear q). done. }
  destruct (spec (capacity q) r (contents q)) as [[a k]| | |]; cbn; [|done|done|by rewrite Hr].
  destruct Hr as (q1 & -> & Hwf1 & <- & Hcap). cbn. specialize (IH q1 Hwf1). rewrite Hcap in IH.
  destruct (run (spec (capacity q)) rs (contents q1)) as [[as_ k]| | |]; cbn; [|done|done|by rewrite IH].
  destruct IH as (q2 & -> & ? & ? & ?). cbn. eauto 6.
Qed.

(** [contains] walks over the slots [head .. tail - 1]. *)
Lemma contains_loop_spec n i x q :
  wf q -> 0 <= i -> tail q < capacity q -> (Z.to_nat (tail q - i) <= n)%nat ->
  contains_loop n i x q =
    Ok (bool_decide (x ∈ take (Z.to_nat (tail q - i)) (drop (Z.to_nat i) (elements q)))).
Proof.
  intros Hwf. revert i. pose proof Hwf as (Hl & _). unfold zlen in Hl.
  induction n as [|n IH]; intros i Hi Ht Hn; cbn [contains_loop]; destruct (Z.ltb_spec i (tail q)); try lia.
  1, 3: replace (Z.to_nat (tail q - i)) with 0%nat by lia; done.
  destruct (aget_in (elements q) i) as (y & -> & Hy); [unfold zlen; lia|]. cbn.
  rewrite (drop_S _ _ _ Hy). replace (Z.to_nat (tail q - i)) with (S (Z.to_nat (tail q - (i + 1)))) by lia.
  cbn [take]. case_bool_decide as E.
  - subst y. rewrite bool_decide_true; [done|constructor].
  - rewrite IH by lia. replace (Z.to_nat (i + 1)) with (S (Z.to_nat i)) by lia. f_equal.
    apply bool_decide_ext. rewrite elem_of_cons. split; [by right|intros [->|?]; done].
Qed.

(** On a queue whose elements do not wrap around, [contains] looks at every
    element except the one offered last. *)
Theorem contains_misses_last x q :
  wf q -> head q <= tail q < capacity q -> len q = tail q - head q + 1 ->
  contains x q = Ok (bool_decide (x ∈ take (length (contents q) - 1) (contents q))).
Proof.
  intros Hwf Ht Hn. pose proof Hwf as (Hl & Hc & Hh & Hlen & _). unfold zlen in Hl.
  unfold contains. rewrite contains_loop_spec by (done || lia). f_equal. apply bool_decide_ext.
  pose proof (ring_contents_length q Hwf) as Hcl. unfold zlen in Hcl.
  enough (take (Z.to_nat (tail q - head q)) (drop (Z.to_nat (head q)) (elements q))
          = take (length (contents q) - 1) (contents q)) as -> by done.
  apply list_eq. intros j. rewrite !lookup_take, lookup_drop. repeat case_decide; try lia; [|done].
  rewrite <- (Nat2Z.id j) at 2. rewrite ring_contents_lookup by (done || lia). f_equal. unfold slot.
  rewrite Z.mod_small by lia. lia.
Qed.

(** A freshly constructed queue reads past the end of its array when it is asked
    for an element no slot holds: [tail] is [UINT32_MAX]. *)
Lemma contains_fresh_fault x c :
  0 < c < 2 ^ 31 -> x <> dflt -> contains x (Ring_new c) = Fault.
Proof.
  intros Hc Hx. unfold contains. change (head (Ring_new c)) with 0.
  assert (length (elements (Ring_new c)) = Z.to_nat c) as Hl by (cbn; apply length_replicate).
  rewrite Hl. assert (forall n i, 0 <= i <= c -> (Z.to_nat (c - i) < n)%nat -> contains_loop n i x (Ring_new c) = Fault) as H.
  2:{ apply H; lia. }
  induction n as [|n IH]; intros i Hi Hn; [lia|]. cbn [contains_loop]. change (tail (Ring_new c)) with UINT32_MAX.
  destruct (Z.ltb_spec i UINT32_MAX); [|unfold UINT32_MAX in *; lia].
  destruct (decide (i = c)) as [->|].
  - unfold aget. destruct (Z.ltb_spec c 0); [lia|]. rewrite lookup_ge_None_2 by lia. done.
  - destruct (aget_in (elements (Ring_new c)) i) as (y & -> & Hy); [unfold zlen; lia|]. cbn.
    cbn in Hy. apply lookup_replicate in Hy as [-> _]. rewrite bool_decide_false by done. apply IH; lia.
Qed.
End Operations.

Lemma ring_refines_queue_witness :
  exists q', run exec [Offer 1; Offer 2; Offer 3; Poll; Offer 4; Poll; Poll] (Ring_new 0 2) =
    Ok ([Offered true; Offered true; Offered false; Polled 1; Offered true; Polled 2; Polled 4], q') /\
    wf q' /\ contents q' = [] /\ capacity q' = 2.
Proof.
  apply (ring_refines_queue [Offer 1; Offer 2; Offer 3; Poll; Offer 4; Poll; Poll] (Ring_new 0 2)).
  apply Ring_new_wf. lia.
Defined.

Lemma contains_misses_last_witness :
  exists q, offer 7 (Ring_new 0 4) = Ok (true, q) /\ contains 7 q = Ok false.
Proof.
  eexists. split; [reflexivity|]. rewrite contains_misses_last; [reflexivity| |done|done].
  unfold wf, in_u, zlen, slot. cbn -[Z.pow]. split_and!; (done || lia).
Defined.
