(* ===== verification/HashMap.v ===== *)
(** * [Util::HashMap]: a hash table with chaining

    Model of [src/lib/util/collection/HashMap.h] and [HashNode.h].  A chain of
    [HashNode]s is the list of its nodes in link order; [next] of a node is the
    rest of the list.  The table is allocated by the first access. *)

From S2P Require Import Prelude.
Open Scope Z_scope.

Record HashNode (K V : Type) := mkNode { key : K; value : V }.
Arguments mkNode {K V} key value.
Arguments key {K V} h.
Arguments value {K V} h.

Record HashMap (K V : Type) := mkMap {
  table : list (list (HashNode K V));
  isInitialized : bool;
  tableSize : Z;
  count : Z
}.
Arguments mkMap {K V} table isInitialized tableSize count.
Arguments table {K V} h.
Arguments isInitialized {K V} h.
Arguments tableSize {K V} h.
Arguments count {K V} h.

(** The conversion [(uint32_t) key] of the key type. *)
Class ToU32 (K : Type) := to_u32 : K -> Z.
#[export] Instance Z_ToU32 : ToU32 Z := u32.

Definition DEFAULT_TABLE_SIZE : Z := 47.

Section Operations.
Context {K V : Type} `{EqDecision K} `{ToU32 K}.
Local Abbreviation node := (HashNode K V).
Local Abbreviation map := (HashMap K V).

Definition HashMap_new : map := mkMap [] false DEFAULT_TABLE_SIZE 0.
Definition HashMap_size (tableSize : Z) : map := mkMap [] false tableSize 0.

Definition initialize (m : map) : map :=
  mkMap (replicate (Z.to_nat (tableSize m)) []) true (tableSize m) (count m).

Definition ensure_init (m : map) : map := if negb (isInitialized m) then initialize m else m.

(** [while (entry != nullptr && entry->getKey() != key)]: the nodes passed, of
    which the last one is [previous], and the chain from [entry] on. *)
Fixpoint walk (k : K) (chain : list node) : list node * list node :=
  match chain with
  | [] => ([], [])
  | entry :: next =>
      if bool_decide (key entry <> k) then let '(p, r) := walk k next in (entry :: p, r)
      else ([], chain)
  end.

Definition put (k : K) (v : V) (m : map) : outcome map :=
  let m := ensure_init m in
  hash ← umod (to_u32 k) (tableSize m);
  chain ← aget (table m) hash;
  let '(previous, entry) := walk k chain in
  match entry with
  | [] =>
      t ← aset (table m) hash (previous ++ [mkNode k v]);
      Ok (mkMap t (isInitialized m) (tableSize m) (u32 (count m + 1)))
  | e :: next =>
      t ← aset (table m) hash (previous ++ mkNode (key e) v :: next);
      Ok (mkMap t (isInitialized m) (tableSize m) (count m))
  end.

(** The initializer-list constructor sets [count] to the length of the list
    before it inserts. *)
Fixpoint put_all (l : list (K * V)) (m : map) : outcome map :=
  match l with [] => Ok m | (k, v) :: l => m ← put k v m; put_all l m end.
Definition HashMap_of (l : list (K * V)) : outcome map :=
  put_all l (mkMap [] false DEFAULT_TABLE_SIZE (zlen l)).

Definition get (k : K) (m : map) : outcome (V * map) :=
  let m := ensure_init m in
  hash ← umod (to_u32 k) (tableSize m);
  chain ← aget (table m) hash;
  match (walk k chain).2 with
  | e :: _ => Ok (value e, m)
  | [] => Throw KEY_NOT_FOUND
  end.

Definition remove (k : K) (m : map) : outcome (V * map) :=
  let m := ensure_init m in
  hash ← umod (to_u32 k) (tableSize m);
  chain ← aget (table m) hash;
  let '(previous, entry) := walk k chain in
  match entry with
  | [] => Throw KEY_NOT_FOUND
  | e :: next =>
      t ← aset (table m) hash (previous ++ next);
      Ok (value e, mkMap t (isInitialized m) (tableSize m) (u32 (count m - 1)))
  end.

Definition containsKey (k : K) (m : map) : outcome bool :=
  if negb (isInitialized m) then Ok false
  else
    hash ← umod (to_u32 k) (tableSize m);
    chain ← aget (table m) hash;
    Ok (negb (bool_decide ((walk k chain).2 = []))).

Definition size (m : map) : Z := count m.

(** Deletes every chain. *)
Definition clear (m : map) : map :=
  let m := ensure_init m in
  mkMap (replicate (Z.to_nat (tableSize m)) []) (isInitialized m) (tableSize m) 0.

(** [keys] and [values] add every node of every chain to an [ArrayList] and
    return its array. *)
Definition keys (m : map) : list K := key <$> concat (table (ensure_init m)).
Definition values (m : map) : list V := value <$> concat (table (ensure_init m)).
End Operations.

(** ** Invariant and abstraction *)

Section Spec.
Context {K V : Type} `{Countable K} `{ToU32 K}.
Local Abbreviation node := (HashNode K V).
Local Abbreviation map := (HashMap K V).

Definition pairs (l : list node) : list (K * V) := (fun n => (key n, value n)) <$> l.

(** The finite map a table stands for. *)
Definition to_map (m : map) : gmap K V := list_to_map (pairs (concat (table m))).

Definition bucket (m : map) (k : K) : Z := to_u32 k mod tableSize m.

(** Before initialization the table is empty.  Afterwards it has [tableSize]
    chains, every node is in the chain its key hashes to, and no key occurs
    twice. *)
Definition wf (m : map) : Prop :=
  0 < tableSize m < 2 ^ 32 /\
  (if isInitialized m then
     zlen (table m) = tableSize m /\
     (forall i chain n, table m !! i = Some chain -> n ∈ chain -> Z.to_nat (bucket m (key n)) = i) /\
     NoDup (key <$> concat (table m))
   else table m = []).

Lemma concat_replicate_nil {A} n : concat (replicate n ([] : list A)) = [].
Proof. by induction n. Qed.

Lemma ensure_init_spec m :
  wf m -> wf (ensure_init m) /\ isInitialized (ensure_init m) = true /\
    tableSize (ensure_init m) = tableSize m /\ to_map (ensure_init m) = to_map m /\
    count (ensure_init m) = count m.
Proof.
  intros [Hs Hi]. unfold ensure_init. destruct (isInitialized m) eqn:E; cbn [negb]; [by rewrite <- E; unfold wf; rewrite E|].
  unfold wf, to_map. cbn. rewrite Hi, concat_replicate_nil. unfold zlen. rewrite length_replicate.
  split_and!; try done; try lia; [|constructor]. intros i chain n Hl%lookup_replicate Hn.
  destruct Hl as [-> _]. by apply elem_of_nil in Hn.
Qed.

Lemma walk_spec k (chain : list node) :
  let '(p, r) := walk k chain in
  chain = p ++ r /\ (forall n, n ∈ p -> key n <> k) /\
  match r with [] => True | e :: _ => key e = k end.
Proof.
  induction chain as [|e chain IH]; cbn; [split_and!; [done|by intros n ?%elem_of_nil|done]|].
  case_bool_decide as E.
  - destruct (walk k chain) as [p r]. destruct IH as (-> & Hp & Hr). split_and!; [done| |done].
    intros n [->|Hn]%elem_of_cons; auto.
  - split_and!; [done|by intros n ?%elem_of_nil|]. destruct (decide (key e = k)); [done|done].
Qed.

Lemma bucket_range m k : wf m -> 0 <= bucket m k < tableSize m.
Proof. intros [Hs _]. apply Z.mod_pos_bound. lia. Qed.

(** The whole table around the chain of a key. *)
Lemma table_split m k :
  wf m -> isInitialized m = true ->
  exists chain A B, table m !! Z.to_nat (bucket m k) = Some chain /\
    concat (table m) = A ++ chain ++ B /\
    (forall c, concat (<[Z.to_nat (bucket m k) := c]> (table m)) = A ++ c ++ B) /\
    (forall n, n ∈ A ++ B -> key n <> k).
Proof.
  intros Hwf Hi. pose proof (bucket_range m k Hwf) as Hb. destruct Hwf as [Hs Hw]. rewrite Hi in Hw.
  destruct Hw as (Hl & Hk & Hd). unfold zlen in Hl.
  destruct (lookup_lt_is_Some_2 (table m) (Z.to_nat (bucket m k))) as [chain Hc]; [lia|].
  set (i := Z.to_nat (bucket m k)) in *.
  exists chain, (concat (take i (table m))), (concat (drop (S i) (table m))).
  pose proof (take_drop_middle _ _ _ Hc) as Hsplit. split_and!; [done| | |].
  - rewrite <- Hsplit at 1. by rewrite concat_app.
  - intros c. rewrite insert_take_drop by lia. by rewrite concat_app.
  - intros n Hn. intros E.
    assert (exists j c, table m !! j = Some c /\ n ∈ c /\ j <> i) as (j & c & Hj & Hnc & Hne).
    { rewrite elem_of_app, !list_elem_of_In, !in_concat in Hn. setoid_rewrite <- list_elem_of_In in Hn.
      destruct Hn as [(c & Hc1 & Hc2)|(c & Hc1 & Hc2)]; apply list_elem_of_lookup in Hc1 as [j Hj].
      - rewrite lookup_take in Hj. case_decide; [|done]. exists j, c. split_and!; [done|done|lia].
      - rewrite lookup_drop in Hj. exists (S i + j)%nat, c. split_and!; [done|done|lia]. }
    apply Hne. rewrite <- (Hk j c n Hj Hnc), E. done.
Qed.

Lemma perm_middle {X} (A B c1 c2 : list X) x :
  A ++ (c1 ++ x :: c2) ++ B ≡ₚ x :: (A ++ (c1 ++ c2) ++ B).
Proof. rewrite <- (Permutation_middle c1 c2 x). cbn. by rewrite <- Permutation_middle. Qed.

(** The nodes of a table with the entry of one key singled out. *)
Lemma to_map_middle (A B c1 c2 : list node) k v :
  NoDup (key <$> (A ++ (c1 ++ mkNode k v :: c2) ++ B)) ->
  list_to_map (pairs (A ++ (c1 ++ mkNode k v :: c2) ++ B)) =
    <[k := v]> (list_to_map (pairs (A ++ (c1 ++ c2) ++ B)) : gmap K V) /\
  (list_to_map (pairs (A ++ (c1 ++ c2) ++ B)) : gmap K V) !! k = None /\
  NoDup (key <$> (A ++ (c1 ++ c2) ++ B)).
Proof.
  intros Hd.
  assert (A ++ (c1 ++ mkNode k v :: c2) ++ B ≡ₚ mkNode k v :: (A ++ (c1 ++ c2) ++ B)) as Hp
    by apply perm_middle.
  rewrite Hp in Hd. cbn in Hd. apply NoDup_cons in Hd as [Hn Hd].
  assert (forall l : list node, (pairs l).*1 = key <$> l) as Hpk.
  { intros l. unfold pairs. by rewrite <- list_fmap_compose. }
  split_and!; [|apply not_elem_of_list_to_map; by rewrite Hpk|done].
  rewrite (list_to_map_proper (M := gmap K) (pairs (A ++ (c1 ++ mkNode k v :: c2) ++ B))
             ((k, v) :: pairs (A ++ (c1 ++ c2) ++ B))).
  - done.
  - rewrite Hpk, Hp. cbn. by apply NoDup_cons.
  - unfold pairs. by rewrite Hp.
Qed.

Lemma NoDup_middle (A B c1 c2 : list node) k v v' :
  NoDup (key <$> (A ++ (c1 ++ mkNode k v :: c2) ++ B)) ->
  NoDup (key <$> (A ++ (c1 ++ mkNode k v' :: c2) ++ B)).
Proof. by rewrite !fmap_app. Qed.

(** Replacing the chain of [k] by one whose keys hash to the same place keeps
    the invariant. *)
Lemma wf_replace m k c (n : Z) :
  wf m -> isInitialized m = true ->
  (forall nd, nd ∈ c -> bucket m (key nd) = bucket m k) ->
  NoDup (key <$> concat (<[Z.to_nat (bucket m k) := c]> (table m))) ->
  wf (mkMap (<[Z.to_nat (bucket m k) := c]> (table m)) (isInitialized m) (tableSize m) n).
Proof.
  intros Hwf Hi Hc Hd. pose proof Hwf as [Hs Hw]. unfold wf in *. cbn in *. rewrite Hi in *.
  destruct Hw as (Hl & Hk & _). split; [done|]. split_and!; [by rewrite zlen_insert| |done].
  intros i chain nd. rewrite list_lookup_insert. case_decide as E; [|by apply Hk].
  intros [= <-] Hn. destruct E as [<- _]. unfold bucket in *. cbn. by rewrite (Hc nd).
Qed.

Lemma chain_bucket m k chain nd :
  wf m -> isInitialized m = true -> table m !! Z.to_nat (bucket m k) = Some chain -> nd ∈ chain ->
  bucket m (key nd) = bucket m k.
Proof.
  intros Hwf Hi Hc Hn. pose proof (bucket_range m k Hwf). pose proof (bucket_range m (key nd) Hwf).
  destruct Hwf as [_ Hw]. rewrite Hi in Hw. destruct Hw as (_ & Hk & _). pose proof (Hk _ _ _ Hc Hn). lia.
Qed.

(** The first steps every access shares. *)
Lemma access m k :
  wf m -> isInitialized m = true ->
  exists chain A B p r, umod (to_u32 k) (tableSize m) = Ok (bucket m k) /\ aget (table m) (bucket m k) = Ok chain /\
    table m !! Z.to_nat (bucket m k) = Some chain /\
    (forall c, aset (table m) (bucket m k) c = Ok (<[Z.to_nat (bucket m k) := c]> (table m))) /\
    walk k chain = (p, r) /\ chain = p ++ r /\ concat (table m) = A ++ (p ++ r) ++ B /\
    (forall c, concat (<[Z.to_nat (bucket m k) := c]> (table m)) = A ++ c ++ B) /\
    NoDup (key <$> concat (table m)) /\
    match r with
    | [] => to_map m !! k = None
    | e :: c2 => key e = k /\ to_map m = <[k := value e]> (list_to_map (pairs (A ++ (p ++ c2) ++ B))) /\
        (list_to_map (pairs (A ++ (p ++ c2) ++ B)) : gmap K V) !! k = None /\
        NoDup (key <$> (A ++ (p ++ c2) ++ B))
    end.
Proof.
  intros Hwf Hi. destruct (table_split m k Hwf Hi) as (chain & A & B & Hc & Hcat & Hins & Hab).
  pose proof (bucket_range m k Hwf) as Hb. pose proof Hwf as [Hs Hw]. rewrite Hi in Hw. destruct Hw as (Hl & _ & Hd).
  pose proof (walk_spec k chain) as Hwalk. destruct (walk k chain) as [p r] eqn:Ew. destruct Hwalk as (-> & Hp & Hr).
  exists (p ++ r), A, B, p, r. split_and!; try done.
  - apply umod_ok. lia.
  - apply aget_ok. split; [lia|done].
  - intros c. apply aset_in. lia.
  - destruct r as [|e c2].
    + unfold to_map. rewrite Hcat, app_nil_r. apply not_elem_of_list_to_map.
      unfold pairs. rewrite <- list_fmap_compose. intros (n & -> & Hn)%list_elem_of_fmap. cbn in *.
      rewrite !elem_of_app in Hn. destruct Hn as [Hn|[Hn|Hn]].
      * by apply (Hab n); [rewrite elem_of_app; left|].
      * by apply (Hp n).
      * by apply (Hab n); [rewrite elem_of_app; right|].
    + destruct e as [k' v]. cbn in Hr. subst k'. rewrite Hcat in Hd. destruct (to_map_middle A B p c2 k v Hd) as (H1 & H2 & H3).
      unfold to_map. rewrite Hcat. cbn. done.
Qed.

Lemma put_spec k v m :
  wf m ->
  exists m', put k v m = Ok m' /\ wf m' /\ tableSize m' = tableSize m /\
    to_map m' = <[k := v]> (to_map m) /\
    count m' = (if decide (is_Some (to_map m !! k)) then count m else u32 (count m + 1)).
Proof.
  intros Hwf0. destruct (ensure_init_spec m Hwf0) as (Hwf & Hi & Hs & Hm & Hc). unfold put. cbv zeta.
  set (m1 := ensure_init m) in *. rewrite <- Hm, <- Hc, <- Hs. clearbody m1. clear Hm Hc Hs Hwf0 m. rename m1 into m.
  destruct (access m k Hwf Hi) as (chain & A & B & p & r & -> & Hg & Hlk & Hset & Hwalk & Hpr & Hcat & Hins & Hd & Hr).
  cbn. rewrite Hg. cbn. rewrite Hwalk. destruct r as [|e c2].
  - rewrite Hset. cbn. eexists. split; [done|]. rewrite app_nil_r in *. subst chain. rewrite Hcat in Hd.
    assert (A ++ (p ++ [mkNode k v]) ++ B ≡ₚ mkNode k v :: (A ++ p ++ B)) as Hp.
    { by rewrite perm_middle, app_nil_r. }
    assert (k ∉ key <$> (A ++ p ++ B)) as Hnk.
    { intros Hk. unfold to_map in Hr. rewrite Hcat in Hr. apply not_elem_of_list_to_map in Hr.
      unfold pairs in Hr. rewrite <- list_fmap_compose in Hr. done. }
    assert (NoDup (key <$> (A ++ (p ++ [mkNode k v]) ++ B))) as Hd2 by (rewrite Hp; cbn; by apply NoDup_cons).
    split_and!; [|done| |].
    + apply wf_replace; [done|done| |by rewrite Hins].
      intros nd [Hn|Hn]%elem_of_app; [by eapply chain_bucket|]. by apply list_elem_of_singleton in Hn as ->.
    + unfold to_map. cbn [table]. rewrite Hins, Hcat.
      destruct (to_map_middle A B p [] k v Hd2) as (-> & _ & _). by rewrite app_nil_r.
    + cbn. rewrite Hr. by rewrite decide_False by (intros [? ?]; done).
  - rewrite Hset. cbn [mbind outcome_bind]. eexists. split; [done|]. destruct Hr as (Hk & Hmap & Hnone & Hnd). destruct e as [k' v0].
    cbn [key value] in *. subst k'. rewrite Hcat in Hd. pose proof (NoDup_middle A B p c2 k v0 v Hd) as Hd2. split_and!; [|done| |].
    + apply wf_replace; [done|done| |by rewrite Hins].
      intros nd [Hn|[->|Hn]%elem_of_cons]%elem_of_app; [|done|]; (eapply chain_bucket; [done|done|exact Hlk|]); rewrite Hpr.
      * apply elem_of_app. by left.
      * apply elem_of_app. right. by constructor.
    + rewrite Hmap. unfold to_map. cbn [table]. rewrite Hins. destruct (to_map_middle A B p c2 k v Hd2) as (-> & _ & _).
      by rewrite insert_insert_eq.
    + rewrite Hmap, lookup_insert_eq. by rewrite decide_True by eauto.
Qed.

Lemma hm_get_spec k m :
  wf m ->
  match to_map m !! k with
  | Some v => exists m', get k m = Ok (v, m') /\ wf m' /\ to_map m' = to_map m /\ count m' = count m
  | None => get k m = Throw KEY_NOT_FOUND
  end.
Proof.
  intros Hwf0. destruct (ensure_init_spec m Hwf0) as (Hwf & Hi & Hs & Hm & Hc). unfold get. cbv zeta.
  rewrite <- Hm, <- Hc. set (m1 := ensure_init m) in *. clearbody m1.
  destruct (access m1 k Hwf Hi) as (chain & A & B & p & r & -> & Hg & Hlk & Hset & Hwalk & Hpr & Hcat & Hins & Hd & Hr).
  cbn. rewrite Hg. cbn. rewrite Hwalk. cbn. destruct r as [|e c2].
  - by rewrite Hr.
  - assert (to_map m1 !! k = Some (value e)) as -> by (destruct Hr as (_ & -> & _); apply lookup_insert_eq).
    exists m1. done.
Qed.

Lemma hm_remove_spec k m :
  wf m ->
  match to_map m !! k with
  | Some v => exists m', remove k m = Ok (v, m') /\ wf m' /\ tableSize m' = tableSize m /\
      to_map m' = delete k (to_map m) /\ count m' = u32 (count m - 1)
  | None => remove k m = Throw KEY_NOT_FOUND
  end.
Proof.
  intros Hwf0. destruct (ensure_init_spec m Hwf0) as (Hwf & Hi & Hs & Hm & Hc). unfold remove. cbv zeta.
  rewrite <- Hm, <- Hc, <- Hs. set (m1 := ensure_init m) in *. clearbody m1.
  destruct (access m1 k Hwf Hi) as (chain & A & B & p & r & -> & Hg & Hlk & Hset & Hwalk & Hpr & Hcat & Hins & Hd & Hr).
  cbn. rewrite Hg. cbn. rewrite Hwalk. destruct r as [|e c2]; [by rewrite Hr|].
  rewrite Hset. cbn [mbind outcome_bind]. destruct Hr as (Hk & Hmap & Hnone & Hnd). rewrite Hmap, lookup_insert_eq.
  eexists. split; [done|]. split_and!; [|done| |done].
  - apply wf_replace; [done|done| |by rewrite Hins].
    intros nd [Hn|Hn]%elem_of_app; (eapply chain_bucket; [done|done|exact Hlk|]); rewrite Hpr; apply elem_of_app;
      [by left|right; by constructor].
  - unfold to_map. cbn [table]. rewrite Hins. by rewrite delete_insert_id.
Qed.

Lemma containsKey_spec k m :
  wf m -> containsKey k m = Ok (bool_decide (is_Some (to_map m !! k))).
Proof.
  intros Hwf. unfold containsKey. destruct (isInitialized m) eqn:Hi; cbn [negb].
  - destruct (access m k Hwf Hi) as (chain & A & B & p & r & -> & Hg & Hlk & Hset & Hwalk & Hpr & Hcat & Hins & Hd & Hr).
    cbn. rewrite Hg. cbn. rewrite Hwalk. cbn. f_equal. destruct r as [|e c2].
    + rewrite Hr. rewrite bool_decide_true, bool_decide_false by (done || by intros [? ?]). done.
    + destruct Hr as (_ & -> & _). rewrite lookup_insert_eq, bool_decide_false, bool_decide_true by (done || eauto). done.
  - destruct Hwf as [_ Hw]. rewrite Hi in Hw. unfold to_map. rewrite Hw. cbn. rewrite lookup_empty.
    by rewrite bool_decide_false by (intros [? ?]; done).
Qed.

Lemma hm_clear_spec m : wf m -> wf (clear m) /\ to_map (clear m) = ∅ /\ count (clear m) = 0.
Proof.
  intros Hwf0. destruct (ensure_init_spec m Hwf0) as (Hwf & Hi & Hs & Hm & Hc). unfold clear. cbv zeta.
  set (m1 := ensure_init m) in *. clearbody m1. destruct Hwf as [Hsz _]. unfold wf, to_map. cbn.
  rewrite Hi, concat_replicate_nil. unfold zlen. rewrite length_replicate. split_and!; try done; try lia; [|constructor].
  intros i chain n [-> _]%lookup_replicate Hn. by apply elem_of_nil in Hn.
Qed.

Lemma keys_spec m : wf m -> NoDup (keys m) /\ forall k, k ∈ keys m <-> is_Some (to_map m !! k).
Proof.
  intros Hwf0. destruct (ensure_init_spec m Hwf0) as (Hwf & Hi & _ & <- & _). unfold keys.
  set (m1 := ensure_init m) in *. clearbody m1. destruct Hwf as [_ Hw]. rewrite Hi in Hw. destruct Hw as (_ & _ & Hd).
  split; [done|]. intros k. assert (key <$> concat (table m1) = (pairs (concat (table m1))).*1) as E.
  { unfold pairs. by rewrite <- list_fmap_compose. }
  rewrite E. unfold to_map. destruct (list_to_map (pairs (concat (table m1))) !! k : option V) eqn:Hl.
  - split; [eauto|]. intros _. apply elem_of_list_to_map_2 in Hl. apply list_elem_of_fmap. by exists (k, v).
  - apply not_elem_of_list_to_map in Hl. split; [done|by intros [? ?]].
Qed.

(** ** The class as a finite map *)

Inductive request := Put (k : K) (v : V) | Get (k : K) | Remove (k : K) | ContainsKey (k : K) | Size | Clear.
Inductive reply := Done | Value (v : V) | Bool (b : bool) | Count (n : Z).

Definition exec (r : request) (m : map) : outcome (reply * map) :=
  match r with
  | Put k v => m ← put k v m; Ok (Done, m)
  | Get k => '(v, m) ← get k m; Ok (Value v, m)
  | Remove k => '(v, m) ← remove k m; Ok (Value v, m)
  | ContainsKey k => b ← containsKey k m; Ok (Bool b, m)
  | Size => Ok (Count (size m), m)
  | Clear => Ok (Done, clear m)
  end.

Definition spec (r : request) (g : gmap K V) : outcome (reply * gmap K V) :=
  match r with
  | Put k v => Ok (Done, <[k := v]> g)
  | Get k => match g !! k with Some v => Ok (Value v, g) | None => Throw KEY_NOT_FOUND end
  | Remove k => match g !! k with Some v => Ok (Value v, delete k g) | None => Throw KEY_NOT_FOUND end
  | ContainsKey k => Ok (Bool (bool_decide (is_Some (g !! k))), g)
  | Size => Ok (Count (u32 (Z.of_nat (base.size g))), g)
  | Clear => Ok (Done, ∅)
  end.

Fixpoint run {St} (step : request -> St -> outcome (reply * St)) (rs : list request) (s : St) : outcome (list reply * St) :=
  match rs with
  | [] => Ok ([], s)
  | r :: rs => '(a, s) ← step r s; '(as_, s) ← run step rs s; Ok (a :: as_, s)
  end.

(** The invariant with the element count. *)
Definition inv (m : map) : Prop := wf m /\ count m = u32 (Z.of_nat (base.size (to_map m))).

Lemma hm_exec_refines r m :
  inv m ->
  match spec r (to_map m) with
  | Ok (a, g) => exists m', exec r m = Ok (a, m') /\ inv m' /\ to_map m' = g
  | Throw e => exec r m = Throw e
  | _ => False
  end.
Proof.
  intros [Hwf Hcnt]. destruct r as [k v|k|k|k| |]; cbn [spec exec].
  - destruct (put_spec k v m Hwf) as (m' & -> & Hwf' & _ & Hm & Hc). cbn. exists m'. split_and!; [done| |done].
    split; [done|]. rewrite Hm, Hc, Hcnt. case_decide as E.
    + by rewrite map_size_insert_Some.
    + apply eq_None_not_Some in E. rewrite map_size_insert_None by done. unfold u32. rewrite wrap_add_l. f_equal. lia.
  - pose proof (hm_get_spec k m Hwf) as Hr. destruct (to_map m !! k); [|by rewrite Hr].
    destruct Hr as (m' & -> & Hwf' & Hm & Hc). cbn. exists m'. split_and!; [done| |done]. split; [done|congruence].
  - pose proof (hm_remove_spec k m Hwf) as Hr. destruct (to_map m !! k) eqn:E; [|by rewrite Hr].
    destruct Hr as (m' & -> & Hwf' & _ & Hm & Hc). cbn. exists m'. split_and!; [done| |done]. split; [done|].
    rewrite Hm, Hc, Hcnt. unfold u32. rewrite wrap_sub_l. f_equal.
    rewrite map_size_delete_Some by eauto. assert (base.size (to_map m) <> 0)%nat; [|lia].
    intros Hz%map_size_empty_inv. rewrite Hz in E. done.
  - rewrite containsKey_spec by done. cbn. exists m. done.
  - cbn. exists m. unfold size. rewrite Hcnt. done.
  - destruct (hm_clear_spec m Hwf) as (Hwf' & Hm & Hc). exists (clear m). split_and!; [done| |done]. split; [done|].
    rewrite Hm, Hc, map_size_empty. done.
Qed.

(** C21: [HashMap] refines finite maps.  Any sequence of requests gives the
    replies and the exceptions of the same requests on a mathematical finite
    map, whatever collisions the hash causes, [size] included; no access leaves
    the table and the invariant (every node in the chain its key hashes to, no
    key twice) holds throughout. *)
Theorem HashMap_refines_gmap rs m :
  inv m ->
  match run spec rs (to_map m) with
  | Ok (replies, g) => exists m', run exec rs m = Ok (replies, m') /\ inv m' /\ to_map m' = g
  | Throw e => run exec rs m = Throw e
  | _ => False
  end.
Proof.
  revert m. induction rs as [|r rs IH]; intros m Hinv; cbn [run]; [eauto|].
  pose proof (hm_exec_refines r m Hinv) as Hr.
  destruct (spec r (to_map m)) as [[a g]|e| |]; cbn; [|by rewrite Hr|done..].
  destruct Hr as (m1 & -> & Hinv1 & <-). cbn. specialize (IH m1 Hinv1).
  destruct (run spec rs (to_map m1)) as [[as_ g]|e| |]; cbn; [|by rewrite IH|done..].
  destruct IH as (m2 & -> & ? & ?). cbn. eauto.
Qed.

Lemma put_all_spec l m :
  wf m -> NoDup l.*1 -> (forall k, k ∈ l.*1 -> to_map m !! k = None) ->
  exists m', put_all l m = Ok m' /\ wf m' /\ to_map m' = list_to_map l ∪ to_map m /\
    u32 (count m') = u32 (count m + zlen l).
Proof.
  revert m. induction l as [|[k v] l IH]; intros m Hwf Hd Hn; cbn [put_all].
  - exists m. cbn. rewrite (left_id_L ∅ (∪)). split_and!; [done|done|done|]. unfold zlen. cbn. f_equal. lia.
  - cbn in Hd. apply NoDup_cons in Hd as [Hk Hd].
    destruct (put_spec k v m Hwf) as (m1 & -> & Hwf1 & _ & Hm1 & Hc1). cbn.
    rewrite decide_False in Hc1 by (rewrite Hn by constructor; by intros [? ?]).
    destruct (IH m1) as (m2 & -> & Hwf2 & Hm2 & Hc2); [done|done| |].
    { intros k' Hk'. rewrite Hm1, lookup_insert_ne by (intros ->; done). apply Hn. by constructor. }
    exists m2. split_and!; [done|done| |].
    + rewrite Hm2, Hm1. cbn. rewrite <- insert_union_r by (apply not_elem_of_list_to_map; done). by rewrite insert_union_l.
    + rewrite Hc2, Hc1. unfold u32, zlen. rewrite wrap_add_l. f_equal. cbn. lia.
Qed.

(** The initializer-list constructor holds the right elements but counts
    them twice: built from [n] pairs with distinct keys, its [size] is [2 n]. *)
Theorem initializer_list_counts_twice l :
  NoDup l.*1 ->
  exists m, HashMap_of l = Ok m /\ wf m /\ to_map m = list_to_map l /\
    u32 (size m) = u32 (2 * Z.of_nat (base.size (to_map m))).
Proof.
  intros Hd. unfold HashMap_of. destruct (put_all_spec l (mkMap [] false DEFAULT_TABLE_SIZE (zlen l))) as (m & -> & Hwf & Hm & Hc).
  - split; done.
  - done.
  - intros k _. apply lookup_empty.
  - exists m. unfold to_map at 2 in Hm. cbn in Hm. rewrite (right_id_L ∅ (∪)) in Hm. split_and!; [done|done|done|].
    unfold size. rewrite Hc, Hm. unfold zlen. f_equal. rewrite map_size_list_to_map by done. cbn. lia.
Qed.
End Spec.

Lemma HashMap_refines_gmap_witness :
  exists m, run exec [Put 1 10; Put 48 20; Put 1 11; Get 48; Get 1; Remove 1; ContainsKey 1; Size] (@HashMap_new Z Z) =
    Ok ([Done; Done; Done; Value 20; Value 11; Value 11; Bool false; Count 1], m) /\ inv m /\ to_map m = {[48 := 20]}.
Proof.
  pose proof (HashMap_refines_gmap [Put 1 10; Put 48 20; Put 1 11; Get 48; Get 1; Remove 1; ContainsKey 1; Size] (@HashMap_new Z Z)) as H.
  assert (run spec [Put 1 10; Put 48 20; Put 1 11; Get 48; Get 1; Remove 1; ContainsKey 1; Size] (to_map (@HashMap_new Z Z)) =
    Ok ([Done; Done; Done; Value 20; Value 11; Value 11; Bool false; Count 1], {[48 := 20]})) as E by (vm_compute; reflexivity).
  rewrite E in H. apply H. split; [split; done|done].
Defined.

Lemma initializer_list_witness :
  exists m, HashMap_of [(1, 10); (2, 20)] = Ok m /\ wf m /\ to_map m = list_to_map [(1, 10); (2, 20)] /\
    u32 (size m) = u32 (2 * Z.of_nat (base.size (to_map m))).
Proof.
  apply (initializer_list_counts_twice [(1, 10); (2, 20)]).
  apply (bool_decide_unpack _). by vm_compute.
Defined.
