(* ===== verification/Path.v ===== *)
(** * Path.v: paths of files

    [lib/util/io/file/File]: the canonical form of a path. The working directory of the current process is an
    argument. [canonical] says what the result is, in terms of the names on the path. *)

From S2P Require Import UtilString Prelude Bits.

(** ** [File::getCanonicalPath] *)
Module File.

Definition SEPARATOR : list Z := [47; 0].

(** One name of the path. *)
Definition parse_token (string : String) (parsedToken : list String) : outcome (list String) :=
  dot ← String_cstr (Some [46; 0]);
  b ← equals string dot;
  if (b : bool) then Ok parsedToken
  else
    dots ← String_cstr (Some [46; 46; 0]);
    b ← equals string dots;
    if (b : bool) then Ok (match parsedToken with [] => [] | _ => removelast parsedToken end)
    else Ok (parsedToken ++ [string]).

Fixpoint parse_tokens (token parsedToken : list String) : outcome (list String) :=
  match token with
  | [] => Ok parsedToken
  | string :: token => parsedToken ← parse_token string parsedToken; parse_tokens token parsedToken
  end.

(** [workingDirectory] is the path of the file that [getCurrentWorkingDirectory] returns; its canonical form is
    taken with the same working directory. *)
Fixpoint getCanonicalPath (fuel : nat) (workingDirectory path : String) : outcome String :=
  if isEmpty path then Ok String_empty
  else
    c ← index_get 0 path;
    absolutePath ← (
      if c =? 47 then String_copy path
      else
        match fuel with
        | O => Loops
        | S fuel => w ← getCanonicalPath fuel workingDirectory workingDirectory; t ← plus_cstr w SEPARATOR; UtilString.plus t path
        end);
    separator ← String_cstr (Some SEPARATOR);
    token ← UtilString.split (Z.to_nat (len absolutePath)) separator 0 absolutePath;
    parsedToken ← parse_tokens token [];
    match parsedToken with
    | [] => Ok String_empty
    | _ => j ← UtilString.join separator parsedToken; cstr_plus SEPARATOR j
    end.

(** [getName], [getParent] and [Process::getFileFromPath] *)
Definition getName (workingDirectory path : String) : outcome String :=
  p ← getCanonicalPath 1 workingDirectory path;
  separator ← String_cstr (Some SEPARATOR);
  splitPath ← UtilString.split (Z.to_nat (len p)) separator 0 p;
  if zlen splitPath =? 0 then Ok String_empty else element splitPath (zlen splitPath - 1).

Definition getParent (workingDirectory path : String) : outcome String :=
  p ← plus_cstr path [47; 46; 46; 0]; getCanonicalPath 1 workingDirectory p.

Definition getFileFromPath (workingDirectory path : String) : outcome String :=
  c ← index_get 0 path;
  if c =? 47 then String_copy path
  else w ← getCanonicalPath 1 workingDirectory workingDirectory; t ← plus_cstr w SEPARATOR; UtilString.plus t path.
End File.

(** ** Paths as sequences of names *)

Definition slash : Z := 47.
Definition dot : list Z := [46].
Definition dotdot : list Z := [46; 46].

(** The names on a path after the dots have been resolved. *)
Definition resolve_step (acc : list (list Z)) (t : list Z) : list (list Z) :=
  if decide (t = dot) then acc else if decide (t = dotdot) then removelast acc else acc ++ [t].

Definition resolve (ts : list (list Z)) : list (list Z) := fold_left resolve_step ts [].

(** The path of a sequence of names: a slash before each. *)
Definition path_of (ts : list (list Z)) : list Z := concat ((fun t => slash :: t) <$> ts).

Definition absolute (p : list Z) : Prop := exists q, p = slash :: q.
#[export] Instance absolute_dec p : Decision (absolute p).
Proof.
  destruct p as [|c q]; [right; intros [? [=]]|]. destruct (decide (c = slash)) as [->|Hc]; [left; by exists q|right; intros [? [= ->]]; done].
Defined.

(** The names that the path [p] stands for in the working directory [w]. *)
Definition canonical (w p : list Z) : list (list Z) :=
  if decide (p = []) then [] else if decide (absolute p) then resolve (tokens slash p) else resolve (resolve (tokens slash w) ++ tokens slash p).

(** A name of a file: not empty, no slash, no dots. *)
Definition name_ok (t : list Z) : Prop := t <> [] /\ slash ∉ t /\ t <> dot /\ t <> dotdot /\ chars_ok t.

Lemma pieces_ok c l : Forall (fun t => c ∉ t) (pieces c l).
Proof.
  induction l as [|x l IH]; cbn [pieces]; [constructor; [apply not_elem_of_nil|constructor]|].
  destruct (Z.eqb_spec x c) as [->|Hx]; [constructor; [apply not_elem_of_nil|done]|].
  destruct (pieces c l) as [|t ts]; [repeat constructor; intros [->|[]%elem_of_nil]%elem_of_cons; done|].
  apply Forall_cons in IH as [Ht IH]. constructor; [|done]. intros [->|Hin]%elem_of_cons; [done|]. by apply Ht.
Qed.

Lemma tokens_ok c l : Forall (fun t => t <> [] /\ c ∉ t) (tokens c l).
Proof.
  apply Forall_forall. intros t Ht. unfold tokens in Ht. apply list_elem_of_filter in Ht as [Hne Ht]. split; [done|].
  pose proof (pieces_ok c l) as Hp. rewrite Forall_forall in Hp. by apply Hp.
Qed.

Lemma pieces_chars c l : chars_ok l -> Forall chars_ok (pieces c l).
Proof.
  induction 1 as [|x l Hx Hl IH]; cbn [pieces]; [repeat constructor|]. destruct (Z.eqb_spec x c); [constructor; [constructor|done]|].
  destruct (pieces c l) as [|t ts].
  - constructor; [|constructor]. constructor; [done|constructor].
  - apply Forall_cons in IH as [Ht IH]. constructor; [by constructor|done].
Qed.

Lemma tokens_chars c l : chars_ok l -> Forall chars_ok (tokens c l).
Proof. intros Hl. apply Forall_forall. intros t [_ Ht]%list_elem_of_filter. pose proof (pieces_chars c l Hl) as H. rewrite Forall_forall in H. by apply H. Qed.

Lemma pieces_split c a b : pieces c (a ++ c :: b) = pieces c a ++ pieces c b.
Proof.
  induction a as [|x a IH]; cbn [pieces app]; [by rewrite Z.eqb_refl|]. rewrite IH. destruct (x =? c); [done|].
  destruct (pieces c a) as [|t ts] eqn:E; [|done]. exfalso. destruct a; cbn in E; [done|]. repeat case_match; done.
Qed.

Lemma tokens_split c a b : tokens c (a ++ c :: b) = tokens c a ++ tokens c b.
Proof. unfold tokens. by rewrite pieces_split, filter_app. Qed.

Lemma filter_nonempty (ts : list (list Z)) : Forall (fun t => t <> []) ts -> filter (.≠ []) ts = ts.
Proof. induction 1 as [|t ts Ht _ IH]; [done|]. by rewrite filter_cons_True, IH. Qed.

Lemma path_of_cons t ts : path_of (t :: ts) = slash :: t ++ path_of ts.
Proof. done. Qed.

Lemma path_of_app ts us : path_of (ts ++ us) = path_of ts ++ path_of us.
Proof. unfold path_of. by rewrite fmap_app, concat_app. Qed.

Lemma path_of_join ts : ts <> [] -> path_of ts = slash :: intercalate [slash] ts.
Proof.
  induction ts as [|t ts IH]; [done|]. intros _. rewrite path_of_cons. f_equal. destruct ts as [|u ts]; [apply app_nil_r|].
  rewrite IH by done. done.
Qed.

(** A path is read back as its names. *)
Lemma tokens_path_of ts : Forall (fun t => t <> [] /\ slash ∉ t) ts -> tokens slash (path_of ts) = ts.
Proof.
  induction 1 as [|t ts [Ht Hs] Hts IH]; [done|]. rewrite path_of_cons. change (slash :: t ++ path_of ts) with ([] ++ slash :: t ++ path_of ts).
  rewrite tokens_split. change (tokens slash []) with (@nil (list Z)). cbn [app]. destruct ts as [|u ts].
  - change (path_of []) with (@nil Z). rewrite app_nil_r. unfold tokens. rewrite pieces_none by done. apply filter_nonempty. by constructor.
  - rewrite path_of_cons in *. rewrite tokens_split. change (slash :: u ++ path_of ts) with ([] ++ slash :: u ++ path_of ts) in IH. rewrite tokens_split in IH. cbn [app] in IH. change (tokens slash []) with (@nil (list Z)) in IH. cbn [app] in IH.
    rewrite IH. unfold tokens at 1. rewrite pieces_none by done. rewrite filter_nonempty by (by constructor). done.
Qed.

(** *** Lengths *)

Lemma zlen_path_cons t ts : zlen (path_of (t :: ts)) = 1 + zlen t + zlen (path_of ts).
Proof. rewrite path_of_cons, zlen_cons, zlen_app. lia. Qed.

Lemma zlen_pieces c l : zlen (path_of (pieces c l)) = zlen l + 1.
Proof.
  induction l as [|x l IH]; [done|]. cbn [pieces]. rewrite zlen_cons. destruct (Z.eqb_spec x c).
  - rewrite zlen_path_cons, IH. change (zlen []) with 0. lia.
  - destruct (pieces c l) as [|t ts]; [change (zlen (path_of [])) with 0 in IH; pose proof (zlen_nonneg l); lia|].
    rewrite zlen_path_cons in *. rewrite zlen_cons. lia.
Qed.

Lemma zlen_path_filter ts : zlen (path_of (filter (.≠ []) ts)) <= zlen (path_of ts).
Proof.
  induction ts as [|t ts IH]; [done|]. rewrite filter_cons. pose proof (zlen_nonneg t). destruct (decide _); rewrite ?zlen_path_cons; lia.
Qed.

Lemma zlen_tokens c l : zlen (path_of (tokens c l)) <= zlen l + 1.
Proof. rewrite <- (zlen_pieces c l). apply zlen_path_filter. Qed.

Lemma zlen_path_app ts us : zlen (path_of (ts ++ us)) = zlen (path_of ts) + zlen (path_of us).
Proof. rewrite path_of_app. apply zlen_app. Qed.

Lemma zlen_path_count ts : zlen ts <= zlen (path_of ts).
Proof. induction ts as [|t ts IH]; [done|]. rewrite zlen_path_cons, zlen_cons. pose proof (zlen_nonneg t). lia. Qed.

Lemma zlen_path_removelast ts : zlen (path_of (removelast ts)) <= zlen (path_of ts).
Proof.
  destruct ts as [|t ts _] using rev_ind; [done|]. rewrite removelast_last, zlen_path_app. pose proof (zlen_nonneg (path_of [t])). lia.
Qed.

Lemma zlen_resolve_from ts acc : zlen (path_of (fold_left resolve_step ts acc)) <= zlen (path_of acc) + zlen (path_of ts).
Proof.
  revert acc. induction ts as [|t ts IH]; intros acc; cbn [fold_left]; [change (zlen (path_of [])) with 0; lia|].
  rewrite zlen_path_cons. pose proof (zlen_nonneg t). specialize (IH (resolve_step acc t)). unfold resolve_step in *. repeat case_decide.
  - lia.
  - pose proof (zlen_path_removelast acc). lia.
  - rewrite zlen_path_app, zlen_path_cons in IH. change (zlen (path_of [])) with 0 in IH. lia.
Qed.

Lemma zlen_resolve ts : zlen (path_of (resolve ts)) <= zlen (path_of ts).
Proof. pose proof (zlen_resolve_from ts []). change (zlen (path_of [])) with 0 in *. unfold resolve. lia. Qed.

(** *** Names *)

Lemma removelast_in {A} (x : A) l : x ∈ removelast l -> x ∈ l.
Proof. destruct l as [|y l _] using rev_ind; [done|]. rewrite removelast_last, elem_of_app. by left. Qed.

Lemma resolve_from_in ts acc t : t ∈ fold_left resolve_step ts acc -> t ∈ acc \/ (t ∈ ts /\ t <> dot /\ t <> dotdot).
Proof.
  revert acc. induction ts as [|u ts IH]; intros acc; cbn [fold_left]; [by left|]. intros Ht. destruct (IH _ Ht) as [H|(H & H1 & H2)].
  - unfold resolve_step in H. repeat case_decide; [by left|left; by apply removelast_in|]. apply elem_of_app in H as [H| ->%list_elem_of_singleton]; [by left|].
    right. split; [by left|done].
  - right. split; [by right|done].
Qed.

Lemma resolve_names ts : Forall (fun t => t <> [] /\ slash ∉ t /\ chars_ok t) ts -> Forall name_ok (resolve ts).
Proof.
  rewrite !Forall_forall. intros Hts t Ht. destruct (resolve_from_in ts [] t Ht) as [[]%elem_of_nil|(Hin & H1 & H2)].
  destruct (Hts t Hin) as (? & ? & ?). by split_and!.
Qed.

Lemma tokens_names l : chars_ok l -> Forall (fun t => t <> [] /\ slash ∉ t /\ chars_ok t) (tokens slash l).
Proof.
  intros Hl. pose proof (tokens_ok slash l) as H1. pose proof (tokens_chars slash l Hl) as H2. rewrite Forall_forall in *.
  intros t Ht. destruct (H1 t Ht). split_and!; [done|done|by apply H2].
Qed.

Lemma name_ok_token t : name_ok t -> t <> [] /\ slash ∉ t /\ chars_ok t.
Proof. intros (? & ? & _ & _ & ?). by split_and!. Qed.

Lemma canonical_names w p : chars_ok w -> chars_ok p -> Forall name_ok (canonical w p).
Proof.
  intros Hw Hp. unfold canonical. repeat case_decide; [constructor|by apply resolve_names, tokens_names|].
  apply resolve_names, Forall_app. split; [|by apply tokens_names].
  eapply Forall_impl; [by apply resolve_names, tokens_names|]. apply name_ok_token.
Qed.

(** Resolving names without dots changes nothing. *)
Lemma resolve_from_id ts acc : Forall name_ok ts -> fold_left resolve_step ts acc = acc ++ ts.
Proof.
  intros Hts. revert acc. induction Hts as [|t ts (_ & _ & H1 & H2 & _) _ IH]; intros acc; cbn [fold_left]; [by rewrite app_nil_r|].
  unfold resolve_step at 2. rewrite !decide_False by done. by rewrite IH, <- app_assoc.
Qed.

Lemma resolve_id ts : Forall name_ok ts -> resolve ts = ts.
Proof. apply resolve_from_id. Qed.

(** The canonical path is canonical. *)
Lemma canonical_path w ts : Forall name_ok ts -> canonical w (path_of ts) = ts.
Proof.
  intros Hts. unfold canonical. destruct ts as [|t ts]; [done|]. rewrite decide_False by done. rewrite decide_True by (by eexists).
  rewrite tokens_path_of; [by apply resolve_id|]. eapply Forall_impl; [exact Hts|]. intros ? (? & ? & _). done.
Qed.

(** ** [getCanonicalPath] refines [canonical] *)

Import File.

Lemma cstr_repr l : chars_ok l -> zlen l < UINT32_MAX -> exists s, String_cstr (Some (l ++ [0])) = Ok s /\ repr s l.
Proof. intros Hl Hn. destruct (String_cstr_ok l [] Hl Hn) as (s & E & Hs). by exists s. Qed.

Lemma slash_chars : chars_ok [slash].
Proof. constructor; [unfold slash; lia|constructor]. Qed.
Lemma dot_chars : chars_ok dot.
Proof. constructor; [lia|constructor]. Qed.
Lemma dotdot_chars : chars_ok dotdot.
Proof. constructor; [lia|]. constructor; [lia|constructor]. Qed.

Lemma parse_token_ok s t parsed ps :
  repr s t -> Forall2 repr parsed ps -> exists r, parse_token s parsed = Ok r /\ Forall2 repr r (resolve_step ps t).
Proof.
  intros Hs Hp. unfold parse_token, resolve_step.
  destruct (cstr_repr dot dot_chars ltac:(done)) as (d & Ed & Hd). change (dot ++ [0]) with [46; 0] in Ed. rewrite Ed. mcbn.
  rewrite (equals_ok _ _ _ _ Hs Hd). mcbn. case_bool_decide as E1; [rewrite decide_True by done; by exists parsed|rewrite decide_False by done].
  destruct (cstr_repr dotdot dotdot_chars ltac:(done)) as (e & Ee & He). change (dotdot ++ [0]) with [46; 46; 0] in Ee. rewrite Ee. mcbn.
  rewrite (equals_ok _ _ _ _ Hs He). mcbn. case_bool_decide as E2; [rewrite decide_True by done|rewrite decide_False by done].
  - eexists. split; [done|]. destruct ps as [|p ps _] using rev_ind; [apply Forall2_nil_inv_r in Hp as ->; constructor|].
    apply Forall2_app_inv_r in Hp as (l1 & l2 & H1 & H2 & ->). inversion H2 as [|x ? y ? Hx H3]; subst. apply Forall2_nil_inv_r in H3 as ->.
    destruct (l1 ++ [x]) eqn:E; [by destruct l1|]. rewrite <- E, !removelast_last. done.
  - eexists. split; [done|]. apply Forall2_app; [done|]. by constructor.
Qed.

Lemma parse_tokens_ok token ts parsed ps :
  Forall2 repr token ts -> Forall2 repr parsed ps -> exists r, parse_tokens token parsed = Ok r /\ Forall2 repr r (fold_left resolve_step ts ps).
Proof.
  intros Ht. revert parsed ps. induction Ht as [|s t token ts Hs Ht IH]; intros parsed ps Hp; cbn [parse_tokens fold_left]; [by exists parsed|].
  destruct (parse_token_ok s t parsed ps Hs Hp) as (r & -> & Hr). mcbn. by apply IH.
Qed.

Lemma plus_cstr_ok s l1 l2 :
  repr s l1 -> chars_ok l2 -> zlen l1 + zlen l2 < UINT32_MAX -> exists s', plus_cstr s (l2 ++ [0]) = Ok s' /\ repr s' (l1 ++ l2).
Proof.
  intros Hs Hl Hn. pose proof (zlen_nonneg l1). destruct (String_copy_ok s l1 Hs) as (s1 & E & H1). unfold plus_cstr. rewrite E. mcbn.
  destruct (cstr_repr l2 Hl ltac:(lia)) as (t & -> & Ht). mcbn. by apply append_ok.
Qed.

(** The part of [getCanonicalPath] behind the absolute path. *)
Lemma canonical_tail abs a :
  repr abs a -> zlen a < UINT32_MAX - 1 ->
  exists s, (separator ← String_cstr (Some SEPARATOR);
    token ← UtilString.split (Z.to_nat (len abs)) separator 0 abs;
    parsedToken ← parse_tokens token [];
    match parsedToken with
    | [] => Ok String_empty
    | _ => j ← UtilString.join separator parsedToken; cstr_plus SEPARATOR j
    end) = Ok s /\ repr s (path_of (resolve (tokens slash a))).
Proof.
  intros Ha Hn. destruct (cstr_repr [slash] slash_chars ltac:(done)) as (sep & Es & Hsep).
  change (Some SEPARATOR) with (Some ([slash] ++ [0])). rewrite Es. mcbn. pose proof Ha as (_ & La & _ & _). rewrite La.
  destruct (split_ok (Z.to_nat (zlen a)) abs sep a slash Ha Hsep ltac:(unfold zlen; lia)) as (token & -> & Ht). mcbn.
  destruct (parse_tokens_ok token _ [] [] Ht ltac:(constructor)) as (r & -> & Hr). mcbn. fold (resolve (tokens slash a)) in Hr.
  set (ts := resolve (tokens slash a)) in *.
  assert (Hts : zlen (path_of ts) <= zlen a + 1) by (pose proof (zlen_resolve (tokens slash a)); pose proof (zlen_tokens slash a); fold ts in H; lia).
  destruct r as [|e r].
  { apply Forall2_nil_inv_l in Hr. rewrite Hr. exists String_empty. split; [done|apply empty_repr]. }
  assert (Hne : ts <> []) by (intros E; rewrite E in Hr; by apply Forall2_nil_inv_r in Hr).
  rewrite path_of_join in * by done. rewrite zlen_cons in Hts.
  assert (Hcount : zlen ts <= zlen (intercalate [slash] ts) + 1) by (pose proof (zlen_path_count ts) as Hc; rewrite path_of_join, zlen_cons in Hc by done; lia).
  destruct (join_ok sep [slash] (e :: r) ts Hsep Hr Hne ltac:(lia) ltac:(lia)) as (j & -> & Hj). mcbn. unfold cstr_plus.
  change (Some SEPARATOR) with (Some ([slash] ++ [0])). rewrite Es. mcbn. change (slash :: intercalate [slash] ts) with ([slash] ++ intercalate [slash] ts).
  apply append_ok; [done|done|]. change (zlen [slash]) with 1. lia.
Qed.

Lemma index_first s l c : repr s (c :: l) -> index_get 0 s = Ok c.
Proof. intros (Hb & _). unfold index_get. rewrite Hb. done. Qed.

Lemma absolute_ok fuel w s p :
  repr s p -> absolute p -> zlen p < UINT32_MAX - 1 -> exists r, getCanonicalPath fuel w s = Ok r /\ repr r (path_of (resolve (tokens slash p))).
Proof.
  intros Hs [q ->] Hn. destruct (String_copy_ok s _ Hs) as (s' & Ec & Hs').
  destruct (canonical_tail s' _ Hs' Hn) as (r & Er & Hr). exists r. split; [|done].
  assert (E : isEmpty s = false) by (by rewrite (isEmpty_ok s _ Hs)).
  destruct fuel; cbn [getCanonicalPath]; rewrite E, (index_first s q slash Hs); mcbn; change (slash =? 47) with true; cbv iota; rewrite Ec; mcbn; exact Er.
Qed.

Lemma getCanonicalPath_ok fuel w s wl p :
  repr w wl -> repr s p -> absolute wl -> zlen wl + zlen p < 2 ^ 31 ->
  exists r, getCanonicalPath (S fuel) w s = Ok r /\ repr r (path_of (canonical wl p)).
Proof.
  intros Hw Hs Hwl Hn. pose proof (zlen_nonneg wl) as H0. pose proof (zlen_nonneg p) as H1. unfold UINT32_MAX in *. unfold canonical. case_decide as Hp.
  { subst p. exists String_empty. split; [|apply empty_repr]. cbn [getCanonicalPath]. by rewrite (isEmpty_ok s _ Hs), bool_decide_true. }
  case_decide as Ha; [apply absolute_ok; [done|done|unfold UINT32_MAX; lia]|].
  destruct p as [|c p]; [done|]. cbn [getCanonicalPath]. rewrite (isEmpty_ok s _ Hs), bool_decide_false, (index_first s p c Hs) by done. mcbn.
  destruct (Z.eqb_spec c 47) as [->|Hc]; [exfalso; apply Ha; by exists p|].
  destruct (absolute_ok fuel w w wl Hw Hwl ltac:(unfold UINT32_MAX; lia)) as (cw & -> & Hcw). mcbn.
  set (ws := resolve (tokens slash wl)) in *.
  assert (Hws : zlen (path_of ws) <= zlen wl + 1) by (pose proof (zlen_resolve (tokens slash wl)); pose proof (zlen_tokens slash wl); fold ws in H; lia).
  destruct (plus_cstr_ok cw _ [slash] Hcw slash_chars) as (t & Et & Ht); [change (zlen [slash]) with 1; unfold UINT32_MAX; lia|].
  change ([slash] ++ [0]) with SEPARATOR in Et. rewrite Et. mcbn.
  assert (Hlen : zlen (path_of ws ++ [slash]) + zlen (c :: p) < UINT32_MAX - 1) by (rewrite zlen_app; change (zlen [slash]) with 1; unfold UINT32_MAX; lia).
  destruct (plus_ok t s _ (c :: p) Ht Hs ltac:(lia)) as (a & -> & Haa). mcbn.
  destruct (canonical_tail a _ Haa) as (r & Er & Hr); [rewrite zlen_app; lia|]. exists r. split; [exact Er|].
  rewrite <- app_assoc in Hr. cbn [app] in Hr. rewrite tokens_split in Hr. rewrite tokens_path_of in Hr; [done|].
  pose proof Hw as (_ & _ & Hwc & _). eapply Forall_impl; [apply resolve_names, tokens_names; exact Hwc|]. intros ? (? & ? & _). done.
Qed.

(** C36: For an absolute working directory, getCanonicalPath ends with the path
    of the names that are left when "." is dropped and ".." removes the name
    before it, none of them empty, with a slash or dots; its canonical form
    is itself. *)
Theorem canonical_path_spec w s wl p :
  repr w wl -> repr s p -> absolute wl -> zlen wl + zlen p < 2 ^ 31 ->
  exists r, getCanonicalPath 1 w s = Ok r /\ repr r (path_of (canonical wl p)) /\ Forall name_ok (canonical wl p) /\
    exists r', getCanonicalPath 1 w r = Ok r' /\ repr r' (path_of (canonical wl p)).
Proof.
  intros Hw Hs Ha Hn. destruct (getCanonicalPath_ok 0 w s wl p Hw Hs Ha Hn) as (r & Er & Hr). exists r. split; [done|]. split; [done|].
  pose proof Hw as (_ & _ & Hwc & _). pose proof Hs as (_ & _ & Hsc & _). pose proof (canonical_names wl p Hwc Hsc) as Hok. split; [done|].
  set (ts := canonical wl p) in *. destruct (decide (ts = [])) as [E|E].
  - rewrite E in *. exists String_empty. split; [|apply empty_repr]. cbn [getCanonicalPath]. by rewrite (isEmpty_ok r _ Hr), bool_decide_true.
  - assert (Habs : absolute (path_of ts)) by (destruct ts; [done|]; by eexists). pose proof Hr as (_ & _ & _ & Hrn).
    assert (Hlen : zlen (path_of ts) < UINT32_MAX - 1).
    { unfold ts, canonical, UINT32_MAX. pose proof (zlen_nonneg p). pose proof (zlen_nonneg wl). repeat case_decide.
      - change (zlen (path_of [])) with 0. lia.
      - pose proof (zlen_resolve (tokens slash p)). pose proof (zlen_tokens slash p). lia.
      - pose proof (zlen_resolve (resolve (tokens slash wl) ++ tokens slash p)) as Hr1. rewrite zlen_path_app in Hr1.
        pose proof (zlen_resolve (tokens slash wl)). pose proof (zlen_tokens slash wl). pose proof (zlen_tokens slash p). lia. }
    destruct (absolute_ok 1 w r (path_of ts) Hr Habs Hlen) as (r' & Er' & Hr'). exists r'. split; [done|].
    rewrite tokens_path_of, resolve_id in Hr'; [done|done|]. eapply Forall_impl; [exact Hok|]. intros ? (? & ? & _). done.
Qed.

(** [/usr/./bin/..] and [../lib] in the directory [/usr/bin]. *)
Lemma canonical_path_spec_witness :
  (exists r, getCanonicalPath 1 (of_chars [47; 117; 47; 98]) (of_chars [46; 46; 47; 108]) = Ok r /\ repr r [47; 117; 47; 108]) /\
  (exists r, getCanonicalPath 1 (of_chars [47]) (of_chars [47; 117; 47; 46; 47; 98; 47; 46; 46]) = Ok r /\ repr r [47; 117]).
Proof.
  assert (C : forall l, bool_decide (Forall (fun c => 0 < c < 256) l) = true -> chars_ok l) by (intros l H; by apply bool_decide_eq_true in H).
  split.
  - destruct (canonical_path_spec (of_chars [47; 117; 47; 98]) (of_chars [46; 46; 47; 108]) [47; 117; 47; 98] [46; 46; 47; 108]) as (r & E & H & _);
      [apply of_chars_repr; [by apply C|done]|apply of_chars_repr; [by apply C|done]|by eexists|done|].
    exists r. split; [exact E|]. replace [47; 117; 47; 108] with (path_of (canonical [47; 117; 47; 98] [46; 46; 47; 108])) by (vm_compute; reflexivity). exact H.
  - destruct (canonical_path_spec (of_chars [47]) (of_chars [47; 117; 47; 46; 47; 98; 47; 46; 46]) [47] [47; 117; 47; 46; 47; 98; 47; 46; 46]) as (r & E & H & _);
      [apply of_chars_repr; [by apply C|done]|apply of_chars_repr; [by apply C|done]|by eexists|done|].
    exists r. split; [exact E|]. replace [47; 117] with (path_of (canonical [47] [47; 117; 47; 46; 47; 98; 47; 46; 46])) by (vm_compute; reflexivity). exact H.
Defined.

(** A relative working directory has no canonical path: its own canonical path is needed first. *)
Lemma relative_directory_loops fuel w wl : repr w wl -> wl <> [] -> ~ absolute wl -> getCanonicalPath fuel w w = Loops.
Proof.
  intros Hw Hne Ha. destruct wl as [|c l]; [done|].
  assert (E : isEmpty w = false) by (by rewrite (isEmpty_ok w _ Hw)).
  assert (Hc : (c =? 47) = false) by (apply Z.eqb_neq; intros ->; apply Ha; by exists l).
  induction fuel as [|fuel IH]; cbn [getCanonicalPath]; rewrite E, (index_first w l c Hw); mcbn; rewrite Hc; [done|]. by rewrite IH.
Qed.

(** [getFileFromPath], from which the working directory is set, gives an absolute path. *)
Lemma getFileFromPath_absolute w s wl p :
  repr w wl -> repr s p -> absolute wl -> p <> [] -> zlen wl + zlen p < 2 ^ 31 ->
  exists r q, getFileFromPath w s = Ok r /\ repr r q /\ absolute q /\ forall w', canonical w' q = canonical wl p.
Proof.
  intros Hw Hs Ha Hp Hn. destruct p as [|c p]; [done|]. unfold getFileFromPath. rewrite (index_first s p c Hs). mcbn.
  pose proof (zlen_nonneg wl). pose proof (zlen_nonneg (c :: p)). destruct (Z.eqb_spec c 47) as [->|Hc].
  - destruct (String_copy_ok s _ Hs) as (s' & -> & Hs'). exists s', (47 :: p). split_and!; [done|done|by exists p|]. intros w'. unfold canonical.
    rewrite !decide_False by done. rewrite !decide_True by (by exists p). done.
  - destruct (absolute_ok 1 w w wl Hw Ha ltac:(unfold UINT32_MAX; lia)) as (cw & -> & Hcw). mcbn.
    set (ws := resolve (tokens slash wl)) in *.
    assert (Hws : zlen (path_of ws) <= zlen wl + 1) by (pose proof (zlen_resolve (tokens slash wl)); pose proof (zlen_tokens slash wl); fold ws in H1; lia).
    destruct (plus_cstr_ok cw _ [slash] Hcw slash_chars) as (t & Et & Ht); [change (zlen [slash]) with 1; unfold UINT32_MAX; lia|].
    change ([slash] ++ [0]) with SEPARATOR in Et. rewrite Et. mcbn.
    destruct (plus_ok t s _ (c :: p) Ht Hs) as (a & -> & Haa); [rewrite zlen_app; change (zlen [slash]) with 1; unfold UINT32_MAX; lia|].
    rewrite <- app_assoc in Haa. cbn [app] in Haa.
    assert (Habs : absolute (path_of ws ++ slash :: c :: p)) by (destruct ws; by eexists).
    eexists _, _. split_and!; [done|exact Haa|done|]. intros w'. unfold canonical. rewrite (decide_False (P := path_of ws ++ _ = [])) by (by destruct (path_of ws)).
    rewrite (decide_True (P := absolute (path_of ws ++ _))) by done. rewrite (decide_False (P := c :: p = [])) by done.
    rewrite decide_False by (intros [? [= -> _]]; done).
    rewrite tokens_split, tokens_path_of; [done|]. pose proof Hw as (_ & _ & Hwc & _).
    eapply Forall_impl; [apply resolve_names, tokens_names; exact Hwc|]. intros ? (? & ? & _). done.
Qed.
