(* ===== verification/Color.v ===== *)
(** * Color.v: colours

    [lib/util/graphic/Color] without [blend], which computes with floating point numbers: a colour of four bytes and
    its encodings with 1 to 32 bits. *)

From S2P Require Import Prelude Bits.

Module Color.

Record Color := mkColor { red : Z; green : Z; blue : Z; alpha : Z }.

Definition rgb (r g b : Z) : Color := mkColor r g b 255.

Definition BRIGHTNESS_SHIFT : Z := 85.

(** ** Encodings *)

Definition getRGB32 (c : Color) : Z := u32 ((alpha c ≪ 24) + (red c ≪ 16) + (green c ≪ 8) + blue c).
Definition getRGB24 (c : Color) : Z := u32 ((red c ≪ 16) + (green c ≪ 8) + blue c).
Definition getRGB16 (c : Color) : Z := u16 (Z.lor (Z.lor (blue c ≫ 3) ((green c ≫ 2) ≪ 5)) ((red c ≫ 3) ≪ 11)).
Definition getRGB15 (c : Color) : Z := u16 (Z.lor (Z.lor (blue c ≫ 3) ((green c ≫ 3) ≪ 5)) ((red c ≫ 3) ≪ 10)).
Definition getRGB8 (c : Color) : Z := u8 (Z.lor (Z.lor (blue c ≫ 6) ((green c ≫ 5) ≪ 2)) ((red c ≫ 5) ≪ 5)).

Definition getRGB4 (c : Color) : Z :=
  let ret := u8 (Z.lor (Z.lor (blue c ≫ 7) ((green c ≫ 7) ≪ 1)) ((red c ≫ 7) ≪ 2)) in
  let brightness := (red c + green c + blue c) / 3 in
  if (ret =? 0) && (42 <? brightness) then u8 (ret + 8)
  else if (ret =? 7) && (brightness <? 212) then ret
  else if 127 <? brightness then u8 (ret + 8)
  else ret.

Definition getRGB2 (c : Color) : Z :=
  let r := negb (red c ≫ 7 =? 0) in
  let g := negb (green c ≫ 7 =? 0) in
  let b := negb (blue c ≫ 7 =? 0) in
  if negb b && negb g && negb r then 0
  else if (b || g) && negb r then 1
  else if (b || r) && negb g then 2
  else 3.

Definition getRGB1 (c : Color) : Z := if negb (red c ≫ 7 =? 0) || negb (green c ≫ 7 =? 0) || negb (blue c ≫ 7 =? 0) then 1 else 0.

Definition getColorForDepth (depth : Z) (c : Color) : Z :=
  if depth =? 32 then getRGB32 c else if depth =? 24 then getRGB24 c else if depth =? 16 then getRGB16 c else if depth =? 15 then getRGB15 c
  else if depth =? 8 then getRGB8 c else if depth =? 4 then getRGB4 c else if depth =? 2 then getRGB2 c else if depth =? 1 then getRGB1 c else getRGB32 c.

(** ** Decodings *)

Definition fromRGB32 (v : Z) : Color := mkColor (u8 (v ≫ 16)) (u8 (Z.land v 65280 ≫ 8)) (u8 (Z.land v 255)) (u8 (v ≫ 24)).
Definition fromRGB24 (v : Z) : Color := rgb (u8 (v ≫ 16)) (u8 (Z.land v 65280 ≫ 8)) (u8 (Z.land v 255)).
Definition fromRGB16 (v : Z) : Color := rgb (u8 ((v ≫ 11) * (256 / 32))) (u8 ((Z.land v 2016 ≫ 5) * (256 / 64))) (u8 (Z.land v 31 * (256 / 32))).
Definition fromRGB15 (v : Z) : Color := rgb (u8 ((v ≫ 10) * (256 / 32))) (u8 ((Z.land v 992 ≫ 5) * (256 / 32))) (u8 (Z.land v 31 * (256 / 32))).
Definition fromRGB8 (v : Z) : Color := rgb (u8 ((v ≫ 5) * (256 / 8))) (u8 ((Z.land v 28 ≫ 2) * (256 / 8))) (u8 (Z.land v 3 * (256 / 4))).

Definition fromRGB4 (v : Z) : Color :=
  if negb (Z.land v 8 =? 0) then rgb 85 85 85
  else rgb (if negb (Z.land v 4 =? 0) then 170 else 0) (if negb (Z.land v 2 =? 0) then 170 else 0) (if negb (Z.land v 1 =? 0) then 170 else 0).

Definition fromRGB2 (v : Z) : Color :=
  rgb (if negb (Z.land v 2 =? 0) then 170 else 0) (if negb (Z.land v 1 =? 0) then 170 else 0) (if negb (Z.lor (Z.land v 1) (Z.land v 2) =? 0) then 170 else 0).

Definition fromRGB1 (v : Z) : Color := let color := if negb (v =? 0) then 255 else 0 in rgb color color color.

(** The argument is converted to the type of the parameter. *)
Definition fromRGB (v depth : Z) : outcome Color :=
  if depth =? 32 then Ok (fromRGB32 v) else if depth =? 24 then Ok (fromRGB24 v) else if depth =? 16 then Ok (fromRGB16 (u16 v)) else if depth =? 15 then Ok (fromRGB15 (u16 v))
  else if depth =? 8 then Ok (fromRGB8 (u8 v)) else if depth =? 4 then Ok (fromRGB4 (u8 v)) else if depth =? 2 then Ok (fromRGB2 (u8 v)) else if depth =? 1 then Ok (fromRGB1 (u8 v))
  else Throw INVALID_ARGUMENT.

(** ** Brightness *)

Definition bright_byte (x : Z) : Z := let y := u8 (x + BRIGHTNESS_SHIFT) in if y <? x then 255 else y.
Definition bright (c : Color) : Color := rgb (bright_byte (red c)) (bright_byte (green c)) (bright_byte (blue c)).

Definition dim_byte (x : Z) : Z := let y := u8 (x - BRIGHTNESS_SHIFT) in if x <? y then 255 else y.
Definition dim (c : Color) : Color := rgb (dim_byte (red c)) (dim_byte (green c)) (dim_byte (blue c)).

Definition equal (c other : Color) : bool := (red c =? red other) && (green c =? green other) && (blue c =? blue other).
Definition withAlpha (a : Z) (c : Color) : Color := mkColor (red c) (green c) (blue c) a.

Definition BLACK : Color := rgb 0 0 0.
Definition RED : Color := rgb 170 0 0.
Definition GREEN : Color := rgb 0 170 0.
Definition YELLOW : Color := rgb 170 170 0.
Definition BLUE : Color := rgb 0 0 170.
Definition MAGENTA : Color := rgb 170 0 170.
Definition CYAN : Color := rgb 0 170 170.
Definition WHITE : Color := rgb 170 170 170.

(** ** Properties *)

Definition wf (c : Color) : Prop := in_u 8 (red c) /\ in_u 8 (green c) /\ in_u 8 (blue c) /\ in_u 8 (alpha c).

(** The encodings with up to 16 bits, checked value by value *)
Fixpoint all_from (n : nat) (i : Z) (f : Z -> bool) : bool := match n with O => true | S n => f i && all_from n (i + 1) f end.

Lemma all_from_ok n : forall i f v, all_from n i f = true -> i <= v < i + Z.of_nat n -> f v = true.
Proof.
  induction n as [|n IH]; intros i f v H Hv; [lia|]. cbn in H. apply andb_true_iff in H as [H1 H2]. destruct (decide (v = i)) as [->|]; [done|]. apply (IH (i + 1)); [done|lia].
Qed.

Lemma all_below n f v : 0 <= n -> all_from (Z.to_nat n) 0 f = true -> 0 <= v < n -> f v = true.
Proof. intros Hn H Hv. apply (all_from_ok _ _ _ _ H). rewrite Z2Nat.id by done. lia. Qed.

Definition survives (depth v : Z) : bool := match fromRGB v depth with Ok c => getColorForDepth depth c =? v | _ => false end.

Lemma survives_16 : all_from (Z.to_nat (2 ^ 16)) 0 (survives 16) = true.
Proof. vm_compute. reflexivity. Qed.
Lemma survives_15 : all_from (Z.to_nat (2 ^ 15)) 0 (survives 15) = true.
Proof. vm_compute. reflexivity. Qed.
Lemma survives_8 : all_from (Z.to_nat (2 ^ 8)) 0 (survives 8) = true.
Proof. vm_compute. reflexivity. Qed.
Lemma survives_small : all_from 4 0 (survives 2) && all_from 2 0 (survives 1) && all_from 9 0 (survives 4) = true.
Proof. vm_compute. reflexivity. Qed.

(** Those with 24 and 32 bits, byte by byte *)
Lemma bytes_of_word v : in_u 32 v ->
  u8 (v ≫ 16) = v / 2 ^ 16 mod 256 /\ u8 (Z.land v 65280 ≫ 8) = v / 2 ^ 8 mod 256 /\ u8 (Z.land v 255) = v mod 256 /\ u8 (v ≫ 24) = v / 2 ^ 24.
Proof.
  intros Hv. assert (Hb : forall x, 0 <= x mod 256 < 256) by (intros; apply Z.mod_pos_bound; lia). unfold u8, wrap. rewrite Z.shiftr_land. change (65280 ≫ 8) with (Z.ones 8). rewrite !Z.shiftr_div_pow2, Z.land_ones by lia. change (2 ^ 8) with 256. split_and!; [done| | |].
  - by rewrite Z.mod_mod by lia.
  - change 255 with (Z.ones 8). rewrite Z.land_ones by lia. change (2 ^ 8) with 256. rewrite Z.mod_mod by lia. done.
  - apply Z.mod_small. unfold in_u in Hv. split; [apply Z.div_pos; lia|apply Z.div_lt_upper_bound; lia].
Qed.

Lemma survives_24 v : 0 <= v < 2 ^ 24 -> survives 24 v = true.
Proof.
  intros Hv. unfold survives. cbn. apply Z.eqb_eq. destruct (bytes_of_word v ltac:(unfold in_u; lia)) as (E1 & E2 & E3 & _). unfold getRGB24, fromRGB24. cbn [red green blue rgb]. rewrite E1, E2, E3, !Z.shiftl_mul_pow2 by lia.
  change (2 ^ 16) with 65536 in *. change (2 ^ 8) with 256 in *. change (2 ^ 24) with 16777216 in *.
  pose proof (Z.div_mod v 256). pose proof (Z.div_mod (v / 256) 256). assert (v / 65536 = v / 256 / 256) by (rewrite Z.div_div by lia; done). assert (v / 65536 < 256) by (apply Z.div_lt_upper_bound; lia).
  assert (0 <= v / 65536) by (apply Z.div_pos; lia). rewrite (Z.mod_small (v / 65536)) by lia. unfold u32. rewrite wrap_small; [lia|]. unfold in_u. lia.
Qed.

Lemma survives_32 v : 0 <= v < 2 ^ 32 -> survives 32 v = true.
Proof.
  intros Hv. unfold survives. cbn. apply Z.eqb_eq. destruct (bytes_of_word v ltac:(unfold in_u; lia)) as (E1 & E2 & E3 & E4). unfold getRGB32, fromRGB32. cbn [red green blue alpha]. rewrite E1, E2, E3, E4, !Z.shiftl_mul_pow2 by lia.
  change (2 ^ 16) with 65536 in *. change (2 ^ 8) with 256 in *. change (2 ^ 24) with 16777216 in *. change (2 ^ 32) with 4294967296 in *.
  pose proof (Z.div_mod v 256). pose proof (Z.div_mod (v / 256) 256). pose proof (Z.div_mod (v / 65536) 256). assert (v / 65536 = v / 256 / 256) by (rewrite Z.div_div by lia; done). assert (v / 16777216 = v / 65536 / 256) by (rewrite Z.div_div by lia; done).
  unfold u32. rewrite wrap_small; [lia|]. unfold in_u. lia.
Qed.

(** Decoding a number and encoding the colour with the same depth gives the number back, for every depth but 4 bits; there
    only the numbers up to 8 survive. *)
Theorem color_roundtrip depth v :
  depth ∈ [32; 24; 16; 15; 8; 2; 1] /\ 0 <= v < 2 ^ depth \/ depth = 4 /\ 0 <= v <= 8 ->
  exists c, fromRGB v depth = Ok c /\ getColorForDepth depth c = v.
Proof.
  intros H. assert (Hs : survives depth v = true).
  { pose proof survives_small as Hsm. rewrite !andb_true_iff in Hsm. destruct Hsm as ((H2 & H1) & H4).
    destruct H as [[Hd Hv]|[-> Hv]]; [|apply (all_from_ok 9 0 (survives 4)); [done|lia]].
    repeat (apply elem_of_cons in Hd as [->|Hd]); [by apply survives_32|by apply survives_24|apply (all_below (2 ^ 16)); [lia|exact survives_16|done]|apply (all_below (2 ^ 15)); [lia|exact survives_15|done]|apply (all_below (2 ^ 8)); [lia|exact survives_8|done]|by apply (all_from_ok 4 0 (survives 2))|by apply (all_from_ok 2 0 (survives 1))|by apply elem_of_nil in Hd]. }
  unfold survives in Hs. destruct (fromRGB v depth) as [c| | |]; try done. exists c. split; [done|]. by apply Z.eqb_eq.
Qed.

Lemma color_roundtrip_witness : exists c, fromRGB 43981 16 = Ok c /\ getColorForDepth 16 c = 43981.
Proof. apply (color_roundtrip 16 43981). left. split; [right; right; left|split; [discriminate|reflexivity]]. Defined.

(** The bright colours with 4 bits all become grey, and dimming a dark colour makes it bright. *)
Lemma bright_codes_lost : fromRGB4 9 = fromRGB4 15 /\ getRGB4 (fromRGB4 12) = 8.
Proof. split; reflexivity. Qed.
Lemma dim_black_is_white : dim BLACK = rgb 255 255 255.
Proof. reflexivity. Qed.
End Color.
