(* ===== verification/Pool.v ===== *)
(** * Pool.v: the object pool

    [lib/util/collection/Pool.h]: an array of pointers with two bitmaps, one
    for the slots a writer has claimed, one for the slots that are filled. The
    pool is a bag: [contents] lists the pointers in it. *)

From S2P Require Import Array Prelude Atomic AtomicBitmap.

Section Pool.
(** [T *] *)
Context {P : Type} (dflt : P).

Record Pool := mkPool { array : Array.Array P; allocatedMap : AtomicBitmap; writtenMap : AtomicBitmap }.

Definition Pool_new (size : Z) : Pool :=
  mkPool (Array.Array_new dflt size) (AtomicBitmap_new size) (AtomicBitmap_new size).

Definition push (element : P) (p : Pool) : outcome (bool * Pool) :=
  '(index, am) ← findAndSet (allocatedMap p);
  if index =? INVALID_INDEX then Ok (false, mkPool (array p) am (writtenMap p))
  else
    a ← Array.index_set index element (array p);
    wm ← set index (writtenMap p);
    Ok (true, mkPool a am wm).

Definition pop (p : Pool) : outcome (P * Pool) :=
  '(index, wm) ← findAndUnset (writtenMap p);
  if index =? INVALID_INDEX then Throw ILLEGAL_STATE
  else
    element ← Array.index_get index (array p);
    am ← unset index (allocatedMap p);
    Ok (element, mkPool (array p) am wm).

Definition getCapacity (p : Pool) : Z := getSize (allocatedMap p).

Definition getFillingDegree (p : Pool) : outcome Z :=
  for_up (Z.to_nat (getSize (allocatedMap p))) 0
    (fun i degree => c ← check i true (allocatedMap p); Ok (if c : bool then u32 (degree + 1) else degree)) 0.

Definition isFull (p : Pool) : outcome bool :=
  d ← getFillingDegree p; Ok (d =? getSize (allocatedMap p)).

(** ** Abstract value *)

(** Between calls a slot is claimed exactly when it is filled. *)
Definition wf (p : Pool) : Prop :=
  Array.wf (array p) /\ AtomicBitmap.wf (allocatedMap p) /\ AtomicBitmap.wf (writtenMap p) /\
  blocks (allocatedMap p) = Array.capacity (array p) /\ blocks (writtenMap p) = Array.capacity (array p) /\
  bits (writtenMap p) = bits (allocatedMap p).

Definition slots (bs : list bool) (a : list P) : list P :=
  omap (fun '(b, x) => if b : bool then Some x else None) (zip bs a).

Definition contents (p : Pool) : list P := slots (bits (allocatedMap p)) (Array.array (array p)).

(** ** Lemmas on the slots *)

Lemma slots_app bs1 bs2 a1 a2 :
  length bs1 = length a1 -> slots (bs1 ++ bs2) (a1 ++ a2) = slots bs1 a1 ++ slots bs2 a2.
Proof. intros H. unfold slots. rewrite zip_with_app by done. by rewrite omap_app. Qed.

(** Filling the empty slot [k] adds one element, emptying the full slot [k]
    removes one. *)
Lemma slots_split bs a k :
  length bs = length a -> (k < length bs)%nat ->
  exists l r, (forall b x, slots (<[k := b]> bs) (<[k := x]> a) = l ++ (if b : bool then [x] else []) ++ r).
Proof.
  intros Hl Hk.
  exists (slots (take k bs) (take k a)), (slots (drop (S k) bs) (drop (S k) a)). intros b x.
  rewrite !insert_take_drop by lia. rewrite slots_app by (rewrite !length_take; lia). f_equal.
  change (b :: drop (S k) bs) with ([b] ++ drop (S k) bs).
  change (x :: drop (S k) a) with ([x] ++ drop (S k) a). rewrite slots_app by done. by destruct b.
Qed.

Lemma slots_fill bs a k x :
  length bs = length a -> bs !! k = Some false ->
  slots (<[k := true]> bs) (<[k := x]> a) ≡ₚ x :: slots bs a.
Proof.
  intros Hl Hb. pose proof (lookup_lt_Some _ _ _ Hb) as Hk.
  destruct (lookup_lt_is_Some_2 a k) as [y Hy]; [lia|].
  destruct (slots_split bs a k Hl Hk) as (l & r & H). rewrite H.
  assert (slots bs a = l ++ r) as ->.
  { rewrite <- (list_insert_id bs k false), <- (list_insert_id a k y), H by done. done. }
  cbn. by rewrite Permutation_middle.
Qed.

Lemma slots_take bs a k x :
  length bs = length a -> bs !! k = Some true -> a !! k = Some x ->
  slots bs a ≡ₚ x :: slots (<[k := false]> bs) a.
Proof.
  intros Hl Hb Hx. pose proof (lookup_lt_Some _ _ _ Hb) as Hk.
  destruct (slots_split bs a k Hl Hk) as (l & r & H).
  assert (slots bs a = l ++ [x] ++ r) as ->.
  { rewrite <- (list_insert_id bs k true), <- (list_insert_id a k x), H by done. done. }
  rewrite <- (list_insert_id a k x), H by done. cbn. by rewrite Permutation_middle.
Qed.

Lemma slots_cons b bs x a : slots (b :: bs) (x :: a) = if b : bool then x :: slots bs a else slots bs a.
Proof. unfold slots. cbn. by destruct b. Qed.

Lemma slots_length bs a : length bs = length a -> length (slots bs a) = length (filter (.= true) bs).
Proof.
  revert a. induction bs as [|b bs IH]; intros [|x a] H; try done. rewrite slots_cons, filter_cons.
  injection H as H. destruct b; cbn; by rewrite IH.
Qed.

Lemma slots_full bs a :
  length bs = length a -> length (slots bs a) = length bs <-> list_find (.= false) bs = None.
Proof.
  intros H. rewrite slots_length by done. rewrite list_find_None. clear H.
  induction bs as [|b bs IH]; [done|]. rewrite filter_cons, Forall_cons, <- IH.
  pose proof (length_filter (.= true) bs). destruct b; cbn [length].
  - rewrite decide_True by done. cbn [length]. split; [intros; split; [done|lia]|lia].
  - rewrite decide_False by done. split; [lia|by intros []].
Qed.

Lemma slots_empty bs a :
  length bs = length a -> slots bs a = [] <-> list_find (.= true) bs = None.
Proof.
  intros H. rewrite <- length_zero_iff_nil, slots_length by done. rewrite list_find_None. clear H.
  induction bs as [|b bs IH]; [done|]. rewrite filter_cons, Forall_cons, <- IH.
  destruct b; [rewrite decide_True by done|rewrite decide_False by done]; cbn [length].
  - split; [done|by intros []].
  - split; [done|by intros []].
Qed.

(** ** Behaviour *)

Section ops.
Context (p : Pool) (Hwf : wf p).

Lemma pool_lengths :
  0 <= Array.capacity (array p) < 2 ^ 32 /\ length (bits (allocatedMap p)) = length (Array.array (array p)) /\
  zlen (bits (allocatedMap p)) = Array.capacity (array p).
Proof.
  destruct Hwf as ([Ha _] & (Hb & _) & _ & H1 & _). pose proof (bits_length (allocatedMap p) ltac:(lia)) as H.
  unfold zlen in *. lia.
Qed.

Lemma pool_update v k a :
  0 <= k < Array.capacity (array p) -> zlen a = Array.capacity (array p) ->
  wf (mkPool (Array.mkArray a (Array.capacity (array p))) (update k v (allocatedMap p)) (update k v (writtenMap p))).
Proof.
  destruct Hwf as ((Ha & Hc) & Hwa & Hww & H1 & H2 & H3). intros Hk Hl. unfold wf. cbn.
  rewrite !bits_update, H3 by (done || lia).
  split; [done|]. split; [apply update_wf; (done || lia)|]. split; [apply update_wf; (done || lia)|]. done.
Qed.

Lemma push_spec x :
  match list_find (.= false) (bits (allocatedMap p)) with
  | Some _ => exists p', push x p = Ok (true, p') /\ wf p' /\ getCapacity p' = getCapacity p /\
      contents p' ≡ₚ x :: contents p
  | None => push x p = Ok (false, p)
  end.
Proof.
  pose proof pool_lengths as (Hc & Hl & Hz). pose proof Hwf as (Ha & Hwa & Hww & H1 & H2 & H3).
  unfold push. rewrite findAndSet_spec by done. destruct (list_find _ _) as [[k y]|] eqn:E; mcbn.
  - apply list_find_Some in E as (E & -> & _). pose proof (lookup_lt_Some _ _ _ E) as Hk. unfold zlen in Hz.
    destruct (Z.eqb_spec (Z.of_nat k) INVALID_INDEX); [unfold INVALID_INDEX in *; lia|].
    rewrite index_set_spec by (done || lia). mcbn. rewrite bm_set_eq by (done || lia). mcbn.
    eexists. split; [done|]. split; [apply pool_update; [lia|]|split; [done|]].
    + rewrite zlen_insert. unfold zlen. lia.
    + unfold contents. cbn. rewrite bits_update, Nat2Z.id by (done || lia). by apply slots_fill.
  - by destruct p.
Qed.

Lemma pop_spec :
  match list_find (.= true) (bits (allocatedMap p)) with
  | Some _ => exists x p', pop p = Ok (x, p') /\ wf p' /\ getCapacity p' = getCapacity p /\
      contents p ≡ₚ x :: contents p'
  | None => pop p = Throw ILLEGAL_STATE
  end.
Proof.
  pose proof pool_lengths as (Hc & Hl & Hz). pose proof Hwf as (Ha & Hwa & Hww & H1 & H2 & H3).
  unfold pop. rewrite findAndUnset_spec, H3 by done. destruct (list_find _ _) as [[k y]|] eqn:E; mcbn; [|done].
  apply list_find_Some in E as (E & -> & _). pose proof (lookup_lt_Some _ _ _ E) as Hk. unfold zlen in Hz.
  destruct (Z.eqb_spec (Z.of_nat k) INVALID_INDEX); [unfold INVALID_INDEX in *; lia|].
  rewrite index_get_spec, Nat2Z.id by (done || lia).
  destruct (lookup_lt_is_Some_2 (Array.array (array p)) k) as [x Hx]; [lia|]. rewrite Hx. mcbn.
  rewrite bm_unset_eq by (done || lia). mcbn. eexists _, _. split; [done|]. split; [|split; [done|]].
  - pose proof (pool_update false (Z.of_nat k) (Array.array (array p))) as Hp. destruct (array p). apply Hp; [lia|apply Ha].
  - unfold contents. cbn. rewrite bits_update, Nat2Z.id by (done || lia). by apply slots_take.
Qed.

Lemma getFillingDegree_spec : getFillingDegree p = Ok (zlen (contents p)).
Proof.
  pose proof pool_lengths as (Hc & Hl & Hz). pose proof Hwf as (Ha & Hwa & Hww & H1 & H2 & H3).
  unfold contents, zlen in *. rewrite slots_length by done. unfold getFillingDegree, getSize.
  destruct (for_up_inv (fun i d => d = zlen (filter (.= true) (take (Z.to_nat i) (bits (allocatedMap p)))))
    (fun i degree => c ← check i true (allocatedMap p); Ok (if c : bool then u32 (degree + 1) else degree))
    (Z.to_nat (blocks (allocatedMap p))) 0 0) as (d & Hd & ->); [done| |].
  - intros k d Hk ->. rewrite bm_check_eq by (done || lia). mcbn. eexists. split; [done|].
    replace (Z.to_nat (k + 1)) with (S (Z.to_nat k)) by lia.
    rewrite (take_S_r _ _ _ (bits_lookup (allocatedMap p) k ltac:(lia))), filter_app. unfold zlen.
    rewrite length_app, filter_cons, filter_nil.
    pose proof (length_filter (.= true) (take (Z.to_nat k) (bits (allocatedMap p)))) as Hf. rewrite length_take in Hf.
    destruct (bit (allocatedMap p) k); cbn [Bool.eqb length].
    + rewrite decide_True by done. cbn [length]. unwrap; lia.
    + rewrite decide_False by done. cbn [length]. lia.
  - rewrite Hd. do 2 f_equal. rewrite take_ge by lia. done.
Qed.

End ops.

Lemma pool_new_spec n : in_u 32 n -> wf (Pool_new n) /\ contents (Pool_new n) = [] /\ getCapacity (Pool_new n) = n.
Proof.
  intros Hn. pose proof (new_wf n Hn). unfold in_u in Hn. split_and!; [|unfold contents|done].
  - unfold wf, Pool_new. cbn. split; [|done]. split; [|cbn; lia]. unfold zlen. cbn. rewrite length_replicate. lia.
  - cbn. rewrite new_bits. generalize (Z.to_nat n). intros k. unfold slots. induction k; done.
Qed.

(** The pool is a bag of at most [getCapacity] elements. *)
Lemma pool_bag p x :
  wf p ->
  zlen (contents p) <= getCapacity p /\
  getFillingDegree p = Ok (zlen (contents p)) /\
  isFull p = Ok (bool_decide (zlen (contents p) = getCapacity p)) /\
  (if decide (zlen (contents p) = getCapacity p) then push x p = Ok (false, p)
   else exists p', push x p = Ok (true, p') /\ wf p' /\ getCapacity p' = getCapacity p /\
          contents p' ≡ₚ x :: contents p) /\
  (if decide (contents p = []) then pop p = Throw ILLEGAL_STATE
   else exists y p', pop p = Ok (y, p') /\ wf p' /\ getCapacity p' = getCapacity p /\
          contents p ≡ₚ y :: contents p').
Proof.
  intros Hwf. pose proof (pool_lengths p Hwf) as (Hc & Hl & Hz). pose proof Hwf as (_ & _ & _ & H1 & _).
  pose proof (slots_full _ _ Hl) as Hf. pose proof (slots_empty _ _ Hl) as He.
  pose proof (push_spec p Hwf x) as Hpush. pose proof (pop_spec p Hwf) as Hpop.
  assert (getCapacity p = zlen (bits (allocatedMap p))) as Hcap by (unfold getCapacity, getSize; lia).
  split_and!.
  - unfold contents, zlen in *. rewrite slots_length by done.
    pose proof (length_filter (.= true) (bits (allocatedMap p))). lia.
  - by apply getFillingDegree_spec.
  - unfold isFull. rewrite getFillingDegree_spec by done. mcbn. f_equal. unfold getCapacity. cmp_cases; case_bool_decide; done || lia.
  - fold (contents p) in Hf. case_decide as E; rewrite Hcap in E; unfold zlen in E.
    + by rewrite (proj1 Hf) in Hpush by lia.
    + destruct (list_find (.= false) _); [done|]. destruct E. f_equal. apply Hf. done.
  - fold (contents p) in He. case_decide as E.
    + by rewrite (proj1 He) in Hpop.
    + destruct (list_find (.= true) _); [done|]. destruct E. by apply He.
Qed.

(** ** Sequences of requests *)

Inductive op := Push (x : P) | Pop.

(** The elements that were accepted, the elements that came out, and the pool. *)
Fixpoint run (os : list op) (p : Pool) : outcome (list P * list P * Pool) :=
  match os with
  | [] => Ok ([], [], p)
  | Push x :: os =>
    '(pushed, p) ← push x p;
    '(i, o, p) ← run os p;
    Ok (if pushed : bool then x :: i else i, o, p)
  | Pop :: os =>
    '(x, p) ← pop p;
    '(i, o, p) ← run os p;
    Ok (i, x :: o, p)
  end.

Lemma run_conserves os p :
  wf p ->
  match run os p with
  | Ok (i, o, p') => wf p' /\ getCapacity p' = getCapacity p /\ contents p ++ i ≡ₚ o ++ contents p'
  | Throw e => e = ILLEGAL_STATE
  | _ => False
  end.
Proof.
  revert p. induction os as [|[x|] os IH]; intros p Hwf; cbn [run].
  - by rewrite app_nil_r.
  - destruct (pool_bag p x Hwf) as (_ & _ & _ & H & _). case_decide.
    + rewrite H. mcbn. specialize (IH p Hwf). by destruct (run os p) as [[[i o] p']| | |].
    + destruct H as (p1 & -> & Hwf1 & Hc1 & Hp). mcbn. specialize (IH p1 Hwf1).
      destruct (run os p1) as [[[i o] p']| | |]; mcbn; [|done..].
      destruct IH as (? & ? & Hi). split_and!; [done|congruence|]. rewrite <- Hi, Hp. cbn. by rewrite Permutation_middle.
  - destruct (pool_bag p dflt Hwf) as (_ & _ & _ & _ & H). case_decide.
    + by rewrite H.
    + destruct H as (y & p1 & -> & Hwf1 & Hc1 & Hp). mcbn. specialize (IH p1 Hwf1).
      destruct (run os p1) as [[[i o] p']| | |]; mcbn; [|done..].
      destruct IH as (? & ? & Hi). split_and!; [done|congruence|]. rewrite Hp. cbn. by rewrite Hi.
Qed.

(** Over any sequence of push and pop on a new pool, the accepted elements
    are those that came out and those still inside; an empty pool throws
    ILLEGAL_STATE; getFillingDegree and isFull count the elements inside. *)
Theorem Pool_conserves os n :
  in_u 32 n ->
  match run os (Pool_new n) with
  | Ok (i, o, p) =>
      i ≡ₚ o ++ contents p /\ zlen (contents p) <= n /\ getFillingDegree p = Ok (zlen (contents p)) /\
      isFull p = Ok (bool_decide (zlen (contents p) = n))
  | Throw e => e = ILLEGAL_STATE
  | _ => False
  end.
Proof.
  intros Hn. destruct (pool_new_spec n Hn) as (Hwf & Hc & Hcap). pose proof (run_conserves os _ Hwf) as H.
  destruct (run os (Pool_new n)) as [[[i o] p]| | |]; [|done..]. destruct H as (Hwf' & Hcap' & Hp). rewrite Hc in Hp.
  destruct (pool_bag p dflt Hwf') as (H1 & H2 & H3 & _). rewrite Hcap', Hcap in *. done.
Qed.
End Pool.

Lemma Pool_conserves_witness :
  exists p, run [Push 7; Push 8; Push 9; Pop; Push 5] (Pool_new 0 2) = Ok ([7; 8; 5], [7], p) /\
    [7; 8; 5] ≡ₚ [7] ++ contents p /\ isFull p = Ok true.
Proof.
  pose proof (Pool_conserves 0 [Push 7; Push 8; Push 9; Pop; Push 5] 2 ltac:(split; done)) as H.
  remember (run _ _) as r eqn:E in H. vm_compute in E. subst r. destruct H as (H1 & _ & _ & H2).
  eexists. split; [vm_compute; reflexivity|]. split; [exact H1|]. rewrite H2. vm_compute. reflexivity.
Defined.
