(* ===== verification/Streams.v ===== *)
(** * Streams.v: byte streams

    [lib/util/io/stream]: the interfaces [InputStream] and [OutputStream] as type
    classes, what they promise ([InputStreamLaws], [OutputStreamLaws]), and the streams
    on byte arrays, through buffers, pipes and queues that implement them.

    A byte is a [Z] from 0 to 255. A buffer is the list of the bytes that are allocated for
    it; [copyRange] between two buffers is [copy_chars] ([copyRange_spec] in [Address.v]
    shows that the blockwise code copies every byte). *)

From S2P Require Import UtilString Queue Prelude Bits.

(** What [new uint8_t[n]] finds in the cells it returns: the byte at each index, which
    no theorem assumes anything about. *)
Class FreshMemory := fresh : nat -> Z.

Definition new_bytes `{FreshMemory} (n : Z) : list Z := fresh <$> seq 0 (Z.to_nat n).

Lemma zlen_new_bytes `{FreshMemory} n : 0 <= n -> zlen (new_bytes n) = n.
Proof. intros. unfold zlen, new_bytes. rewrite length_fmap, length_seq. lia. Qed.

(** ** The interfaces *)

(** [read()] gives a byte or -1; [read(target, offset, length)] gives the number of bytes it
    has put into [target], or -1, with the new contents of [target]. *)
Class InputStream (St : Type) := {
  read : St -> outcome (Z * St);
  readBytes : list Z -> Z -> Z -> St -> outcome (Z * list Z * St)
}.

Class OutputStream (St : Type) := {
  write : Z -> St -> outcome St;
  writeBytes : list Z -> Z -> Z -> St -> outcome St;
  flush : St -> outcome St
}.

(** Bytes [off .. off + zlen l - 1] of [target] replaced by [l]. *)
Definition splice (target : list Z) (off : Z) (l : list Z) : list Z :=
  take (Z.to_nat off) target ++ l ++ drop (Z.to_nat (off + zlen l)) target.

(** The first [n] bytes of a list. *)
Definition ztake (n : Z) (l : list Z) : list Z := take (Z.to_nat n) l.
Definition zdrop (n : Z) (l : list Z) : list Z := drop (Z.to_nat n) l.

(** [in_data] is what is left to read. *)
Class InputStreamLaws (St : Type) `{InputStream St} := {
  in_wf : St -> Prop;
  in_data : St -> list Z;
  in_bytes s : in_wf s -> Forall (in_u 8) (in_data s);
  in_small s : in_wf s -> zlen (in_data s) < 2 ^ 31;
  read_cons s b l : in_wf s -> in_data s = b :: l -> exists s', read s = Ok (b, s') /\ in_wf s' /\ in_data s' = l;
  readBytes_some s target off n :
    in_wf s -> in_data s <> [] -> 0 <= n < 2 ^ 32 -> 0 <= off -> off + Z.min n (zlen (in_data s)) <= zlen target ->
    zlen target < 2 ^ 32 ->
    exists s', readBytes target off n s =
        Ok (Z.min n (zlen (in_data s)), splice target off (ztake n (in_data s)), s') /\
      in_wf s' /\ in_data s' = zdrop n (in_data s)
}.

(** A stream that reports its end. *)
Class FiniteInputStream (St : Type) `{InputStreamLaws St} := {
  read_end s : in_wf s -> in_data s = [] -> exists s', read s = Ok (-1, s') /\ in_wf s' /\ in_data s' = [];
  readBytes_end s target off n : in_wf s -> in_data s = [] -> 0 < n < 2 ^ 32 ->
    exists s', readBytes target off n s = Ok (-1, target, s') /\ in_wf s' /\ in_data s' = []
}.

(** [out_data] is what has been written, [out_room] how much more can be. *)
Class OutputStreamLaws (St : Type) `{OutputStream St} := {
  out_wf : St -> Prop;
  out_data : St -> list Z;
  out_room : St -> Z;
  write_ok s b : out_wf s -> in_u 8 b -> 0 < out_room s ->
    exists s', write b s = Ok s' /\ out_wf s' /\ out_data s' = out_data s ++ [b] /\ out_room s' = out_room s - 1;
  writeBytes_ok s source off n :
    out_wf s -> Forall (in_u 8) source -> 0 <= off -> 0 <= n <= out_room s -> off + n <= zlen source -> zlen source < 2 ^ 32 ->
    exists s', writeBytes source off n s = Ok s' /\ out_wf s' /\
      out_data s' = out_data s ++ ztake n (zdrop off source) /\ out_room s' = out_room s - n;
  flush_ok s : out_wf s ->
    exists s', flush s = Ok s' /\ out_wf s' /\ out_data s' = out_data s /\ out_room s' = out_room s
}.

(** ** Generic operations of [InputStream] *)

Section InputStreamOps.
Context `{IS : InputStream St} `{FreshMemory}.

Definition SKIP_BUFFER_SIZE : Z := 1024.

(** The string is built from all [length] bytes of the buffer, whatever [count] is. *)
Definition readString (length : Z) (s : St) : outcome (String * St) :=
  let tmpBuffer := new_bytes length in
  '(count, tmpBuffer, s) ← readBytes tmpBuffer 0 length s;
  ret ← (if count <=? 0 then Ok String_empty else String_data tmpBuffer length);
  Ok (ret, s).

Fixpoint readLine_loop (fuel : nat) (line : String) (currentChar : Z) (s : St) : outcome (String * Z * St) :=
  if negb (currentChar =? -1) && negb (currentChar =? 10) then
    match fuel with
    | O => Loops
    | S fuel =>
      line ← append line (String_char (u8 currentChar));
      '(currentChar, s) ← read s;
      readLine_loop fuel line currentChar s
    end
  else Ok (line, currentChar, s).

Definition readLine (fuel : nat) (s : St) : outcome (String * bool * St) :=
  '(currentChar, s) ← read s;
  '(line, currentChar, s) ← readLine_loop fuel String_empty currentChar s;
  Ok (line, isEmpty line && (currentChar =? -1), s).

Fixpoint skip_loop (fuel : nat) (bufferSize remaining : Z) (buffer : list Z) (s : St) : outcome (Z * St) :=
  if 0 <? remaining then
    match fuel with
    | O => Loops
    | S fuel =>
      '(skipped, buffer, s) ← readBytes buffer 0 (if remaining <? bufferSize then remaining else bufferSize) s;
      if skipped <=? 0 then Ok (remaining, s)
      else skip_loop fuel bufferSize (u32 (remaining - skipped)) buffer s
    end
  else Ok (remaining, s).

(** Every round but the last reads a byte or more. *)
Definition skip (amount : Z) (s : St) : outcome (Z * St) :=
  if amount <=? 0 then Ok (0, s)
  else
    let bufferSize := if SKIP_BUFFER_SIZE <? amount then SKIP_BUFFER_SIZE else amount in
    '(remaining, s) ← skip_loop (S (Z.to_nat amount)) bufferSize amount (new_bytes bufferSize) s;
    Ok (u32 (amount - remaining), s).
End InputStreamOps.

(** ** [ByteArrayInputStream] *)
Module ByteArrayInputStream.

Record ByteArrayInputStream := mk {
  buffer : list Z; size : Z; position : Z; enforceSizeLimit : bool; nullTerminated : bool
}.

Definition ByteArrayInputStream_new (buffer : list Z) (size : Z) : ByteArrayInputStream := mk buffer size 0 true false.

Definition set_position (p : Z) (s : ByteArrayInputStream) : ByteArrayInputStream :=
  mk (buffer s) (size s) p (enforceSizeLimit s) (nullTerminated s).

Definition read (s : ByteArrayInputStream) : outcome (Z * ByteArrayInputStream) :=
  if (size s <=? position s) && enforceSizeLimit s then Ok (-1, s)
  else
    b ← aget (buffer s) (position s);
    if nullTerminated s && (b =? 0) then Ok (0, s)
    else Ok (b, set_position (u32 (position s + 1)) s).

Definition peek (s : ByteArrayInputStream) : outcome Z := aget (buffer s) (position s).

Definition makeNullTerminated (s : ByteArrayInputStream) : ByteArrayInputStream :=
  mk (buffer s) (size s) (position s) (enforceSizeLimit s) true.

Definition disableSizeLimit (s : ByteArrayInputStream) : ByteArrayInputStream :=
  mk (buffer s) (size s) (position s) false (nullTerminated s).

Definition readBytes (targetBuffer : list Z) (offset length : Z) (s : ByteArrayInputStream)
    : outcome (Z * list Z * ByteArrayInputStream) :=
  if (size s <=? position s) && enforceSizeLimit s then Ok (-1, targetBuffer, s)
  else
    let count := if length <? u32 (size s - position s) then length else u32 (size s - position s) in
    targetBuffer ← copy_chars targetBuffer offset (buffer s) (position s) count;
    Ok (s32 count, targetBuffer, set_position (u32 (position s + count)) s).

Definition getBuffer (s : ByteArrayInputStream) : list Z := buffer s.
Definition getLength (s : ByteArrayInputStream) : Z := size s.
Definition getPosition (s : ByteArrayInputStream) : Z := position s.
Definition getRemaining (s : ByteArrayInputStream) : Z := u32 (size s - position s).
Definition isEmpty (s : ByteArrayInputStream) : bool := size s =? 0.
Definition isReadyToRead (s : ByteArrayInputStream) : bool := negb (isEmpty s).

(** A stream over [size] bytes as the constructor leaves it. *)
Definition wf (s : ByteArrayInputStream) : Prop :=
  0 <= position s <= size s /\ size s < 2 ^ 31 /\ size s <= zlen (buffer s) /\ Forall (in_u 8) (buffer s) /\
  enforceSizeLimit s = true /\ nullTerminated s = false.

Definition data (s : ByteArrayInputStream) : list Z := zdrop (position s) (ztake (size s) (buffer s)).

Lemma bais_data_length s : wf s -> zlen (data s) = size s - position s.
Proof.
  intros (Hp & Hs & Hb & _). unfold data, zlen, zdrop, ztake in *. rewrite length_drop, length_take. lia.
Qed.

#[global] Instance ByteArrayInputStream_InputStream : InputStream ByteArrayInputStream := Build_InputStream _ read readBytes.

Lemma bais_read_cons s b l :
  wf s -> data s = b :: l -> exists s', read s = Ok (b, s') /\ wf s' /\ data s' = l.
Proof.
  intros Hwf Hd. pose proof (bais_data_length s Hwf) as Hl. rewrite Hd, zlen_cons in Hl. pose proof (zlen_nonneg l).
  destruct Hwf as (Hp & Hs & Hb & Hby & He & Hn). unfold read. rewrite He, Hn.
  destruct (Z.leb_spec (size s) (position s)); [lia|]. cbn [andb].
  unfold data, zdrop, ztake in Hd.
  assert (Hlk : buffer s !! Z.to_nat (position s) = Some b).
  { rewrite <- (lookup_take_lt _ (Z.to_nat (size s))) by lia.
    rewrite <- (Nat.add_0_r (Z.to_nat (position s))), <- lookup_drop, Hd. done. }
  assert (Hg : aget (buffer s) (position s) = Ok b) by (apply aget_ok; split; [lia|done]).
  rewrite Hg. mcbn. cbn [andb]. replace (u32 (position s + 1)) with (position s + 1) by (unwrap; lia).
  eexists. split; [done|]. split; [by repeat split; cbn; try lia|].
  unfold data, zdrop, ztake. cbn [buffer size position set_position].
  replace (Z.to_nat (position s + 1)) with (Z.to_nat (position s) + 1)%nat by lia. rewrite <- drop_drop, Hd. done.
Qed.

Lemma bais_readBytes s target off n :
  wf s -> data s <> [] -> 0 <= n < 2 ^ 32 -> 0 <= off -> off + Z.min n (zlen (data s)) <= zlen target -> zlen target < 2 ^ 32 ->
  exists s', readBytes target off n s = Ok (Z.min n (zlen (data s)), splice target off (ztake n (data s)), s') /\
    wf s' /\ data s' = zdrop n (data s).
Proof.
  intros Hwf Hd Hn Ho Ht _. pose proof (bais_data_length s Hwf) as Hl. rewrite Hl in *.
  assert (position s <> size s).
  { intros E. apply Hd, nil_length_inv. unfold zlen in Hl. lia. }
  destruct Hwf as (Hp & Hs & Hb & Hby & He & Hnt). unfold readBytes. rewrite He.
  destruct (Z.leb_spec (size s) (position s)); [lia|]. cbn [andb].
  replace (u32 (size s - position s)) with (size s - position s) by (unwrap; lia).
  replace (if n <? size s - position s then n else size s - position s) with (Z.min n (size s - position s)) by (cmp_cases; lia).
  rewrite copy_chars_ok by lia. mcbn.
  replace (s32 (Z.min n (size s - position s))) with (Z.min n (size s - position s)) by (unwrap; lia).
  replace (u32 (position s + Z.min n (size s - position s))) with (position s + Z.min n (size s - position s)) by (unwrap; lia).
  assert (Htk : ztake n (data s) = take (Z.to_nat (Z.min n (size s - position s))) (drop (Z.to_nat (position s)) (buffer s))).
  { unfold data, ztake, zdrop. rewrite skipn_firstn_comm, firstn_firstn. f_equal. lia. }
  eexists. split; [|split].
  - f_equal. f_equal. f_equal. unfold splice. rewrite Htk. f_equal. f_equal. f_equal.
    unfold zlen. rewrite length_take, length_drop. unfold zlen in Hb. lia.
  - by repeat split; cbn; try lia.
  - unfold data, zdrop, ztake. cbn [buffer size position set_position]. rewrite drop_drop. 
    destruct (Z.min_spec n (size s - position s)) as [[? ->]|[? ->]].
    + f_equal. lia.
    + rewrite !drop_ge; [done|rewrite length_take; lia|rewrite length_take; lia].
Qed.

#[global] Program Instance ByteArrayInputStream_laws : InputStreamLaws ByteArrayInputStream := {|
  in_wf := wf; in_data := data;
  read_cons := bais_read_cons; readBytes_some := bais_readBytes
|}.
Next Obligation.
  intros s (_ & _ & _ & H & _). by apply Forall_drop, Forall_take.
Qed.
Next Obligation.
  intros s Hwf. rewrite bais_data_length by done. destruct Hwf as (? & ? & _). lia.
Qed.

#[global] Program Instance ByteArrayInputStream_finite : FiniteInputStream ByteArrayInputStream.
Next Obligation.
  intros s Hwf Hd. pose proof (bais_data_length s Hwf) as Hl. cbn in Hd. rewrite Hd in Hl. unfold zlen in Hl. cbn [length] in Hl.
  exists s. split; [|done]. cbn. unfold read. destruct Hwf as (? & ? & ? & ? & -> & ?).
  by destruct (Z.leb_spec (size s) (position s)); [|lia].
Qed.
Next Obligation.
  intros s target off n Hwf Hd _. pose proof (bais_data_length s Hwf) as Hl. cbn in Hd. rewrite Hd in Hl. unfold zlen in Hl. cbn [length] in Hl.
  exists s. split; [|done]. cbn. unfold readBytes. destruct Hwf as (? & ? & ? & ? & -> & ?).
  by destruct (Z.leb_spec (size s) (position s)); [|lia].
Qed.

Lemma bais_new_wf l :
  Forall (in_u 8) l -> zlen l < 2 ^ 31 ->
  wf (ByteArrayInputStream_new l (zlen l)) /\ data (ByteArrayInputStream_new l (zlen l)) = l.
Proof.
  intros Hb Hl. pose proof (zlen_nonneg l). split; [repeat split; cbn; (done || lia)|].
  unfold data, zdrop, ztake. cbn. rewrite take_ge by (unfold zlen; lia). done.
Qed.
End ByteArrayInputStream.

(** ** [ByteArrayOutputStream] *)
Module ByteArrayOutputStream.

Record ByteArrayOutputStream := mk {
  buffer : list Z; size : Z; position : Z; allocatedBuffer : bool; enforceSizeLimit : bool
}.

Definition DEFAULT_BUFFER_SIZE : Z := 32.

Section ByteArrayOutputStream.
Context `{FreshMemory}.

Definition ByteArrayOutputStream_size (size : Z) : ByteArrayOutputStream := mk (new_bytes size) size 0 true false.
Definition ByteArrayOutputStream_new : ByteArrayOutputStream := ByteArrayOutputStream_size DEFAULT_BUFFER_SIZE.

(** Over a buffer of the caller, of which [size] bytes may be used. *)
Definition ByteArrayOutputStream_buffer (buffer : list Z) (size : Z) : ByteArrayOutputStream := mk buffer size 0 false false.

Definition getContent_bytes (target : list Z) (length : Z) (s : ByteArrayOutputStream) : outcome (list Z) :=
  copy_chars target 0 (buffer s) 0 (if length <? size s then length else size s).

Definition getContent (s : ByteArrayOutputStream) : outcome String := String_data (buffer s) (position s).
Definition getLength (s : ByteArrayOutputStream) : Z := position s.
Definition isEmpty (s : ByteArrayOutputStream) : bool := position s =? 0.
Definition getBuffer (s : ByteArrayOutputStream) : list Z := buffer s.
Definition getPosition (s : ByteArrayOutputStream) : Z := position s.
Definition sizeLimitReached (s : ByteArrayOutputStream) : bool := enforceSizeLimit s && (position s =? size s).

Definition set_position (p : Z) (s : ByteArrayOutputStream) : ByteArrayOutputStream :=
  mk (buffer s) (size s) p (allocatedBuffer s) (enforceSizeLimit s).
Definition set_buffer (b : list Z) (s : ByteArrayOutputStream) : ByteArrayOutputStream :=
  mk b (size s) (position s) (allocatedBuffer s) (enforceSizeLimit s).

Definition reset (s : ByteArrayOutputStream) : ByteArrayOutputStream := set_position 0 s.
Definition setEnforceSizeLimit (value : bool) (s : ByteArrayOutputStream) : ByteArrayOutputStream :=
  mk (buffer s) (size s) (position s) (allocatedBuffer s) value.

(** [while (newSize < position + count) newSize *= 2]: a size other than 0 that is doubled 32 times
    is 0 modulo [2^32], and 0 is never large enough. *)
Definition newSize_loop (newSize needed : Z) : outcome Z :=
  while 33 (fun newSize => newSize <? needed) (fun newSize => Ok (u32 (newSize * 2))) newSize.

(** The number of bytes that may be written. *)
Definition ensureRemainingCapacity (count : Z) (s : ByteArrayOutputStream) : outcome (Z * ByteArrayOutputStream) :=
  if u32 (position s + count) <? size s then Ok (count, s)
  else if enforceSizeLimit s then Ok (u32 (size s - position s), s)
  else if negb (enforceSizeLimit s) && negb (allocatedBuffer s) then Ok (count, s)
  else
    newSize ← newSize_loop (u32 (size s * 2)) (u32 (position s + count));
    newBuffer ← copy_chars (new_bytes newSize) 0 (buffer s) 0 (position s);
    Ok (count, mk newBuffer newSize (position s) (allocatedBuffer s) (enforceSizeLimit s)).

Definition write (c : Z) (s : ByteArrayOutputStream) : outcome ByteArrayOutputStream :=
  '(n, s) ← ensureRemainingCapacity 1 s;
  if negb (n =? 0) then
    b ← aset (buffer s) (position s) c;
    Ok (set_position (u32 (position s + 1)) (set_buffer b s))
  else Ok s.

Definition writeBytes (sourceBuffer : list Z) (offset length : Z) (s : ByteArrayOutputStream) : outcome ByteArrayOutputStream :=
  '(length, s) ← ensureRemainingCapacity length s;
  b ← copy_chars (buffer s) (position s) sourceBuffer offset length;
  Ok (set_position (u32 (position s + length)) (set_buffer b s)).

Definition wf (s : ByteArrayOutputStream) : Prop :=
  0 <= position s <= size s /\ 0 < size s < 2 ^ 32 /\ zlen (buffer s) = size s /\ position s < 2 ^ 31 /\
  allocatedBuffer s = true /\ enforceSizeLimit s = false /\ Forall (in_u 8) (ztake (position s) (buffer s)).

Definition data (s : ByteArrayOutputStream) : list Z := ztake (position s) (buffer s).
Definition room (s : ByteArrayOutputStream) : Z := 2 ^ 31 - 1 - position s.

#[global] Instance ByteArrayOutputStream_OutputStream : OutputStream ByteArrayOutputStream :=
  Build_OutputStream _ write writeBytes (fun s => Ok s).

Lemma baos_data_length s : wf s -> zlen (data s) = position s.
Proof. intros (Hp & Hs & Hb & _). unfold data, ztake, zlen in *. rewrite length_take. lia. Qed.

Lemma newSize_loop_ok n needed :
  0 < n -> n < 2 ^ 32 -> needed < 2 ^ 31 ->
  exists n', newSize_loop n needed = Ok n' /\ needed <= n' < 2 ^ 32 /\ n <= n'.
Proof.
  intros Hn Hn2 Hneed. unfold newSize_loop.
  set (m := fun x => Z.to_nat (32 - Z.log2 x)).
  destruct (while_inv (fun x => n <= x < 2 ^ 32) m (fun x => x <? needed) (fun x => Ok (u32 (x * 2))) 33 n)
    as (n' & E & Hn' & Hc).
  - lia.
  - unfold m. pose proof (Z.log2_nonneg n). lia.
  - intros x Hx Hlt. apply Z.ltb_lt in Hlt. eexists. split; [done|]. unwrap.
    split; [lia|]. unfold m. rewrite Z.mul_comm, Z.log2_double by lia.
    pose proof (Z.log2_lt_pow2 x 31 ltac:(lia)) as [Hl _]. specialize (Hl ltac:(lia)). lia.
  - exists n'. apply Z.ltb_ge in Hc. split; [done|]. lia.
Qed.

Lemma ensureRemainingCapacity_ok count s :
  wf s -> 0 <= count <= room s ->
  exists s', ensureRemainingCapacity count s = Ok (count, s') /\ wf s' /\ data s' = data s /\ position s' = position s /\
    position s' + count <= size s'.
Proof.
  intros Hwf Hc. pose proof (baos_data_length s Hwf) as Hl. pose proof Hwf as (Hp & Hs & Hb & Hp2 & Ha & He & Hby).
  unfold room in Hc. unfold ensureRemainingCapacity.
  replace (u32 (position s + count)) with (position s + count) by (unwrap; lia).
  destruct (Z.ltb_spec (position s + count) (size s)). { exists s. split_and!; (done || lia). }
  rewrite Ha, He. cbn [negb andb].
  replace (u32 (size s * 2)) with (size s * 2) by (unwrap; lia).
  destruct (newSize_loop_ok (size s * 2) (position s + count)) as (n & -> & Hn & Hn2); [lia..|]. mcbn.
  rewrite copy_chars_ok by (rewrite ?zlen_new_bytes; lia). mcbn. change (Z.to_nat 0) with 0%nat. rewrite take_0, app_nil_l, drop_0.
  assert (Hlen : length (take (Z.to_nat (position s)) (buffer s)) = Z.to_nat (position s)).
  { rewrite length_take. unfold zlen in Hb. lia. }
  eexists. split; [done|].
  assert (Hd : ztake (position s) (take (Z.to_nat (position s)) (buffer s) ++
     drop (Z.to_nat (0 + position s)) (new_bytes n)) = ztake (position s) (buffer s)).
  { unfold ztake. rewrite take_app_le by lia. by rewrite firstn_firstn, Nat.min_id. }
  split; [|split; [exact Hd|cbn; split; [done|lia]]].
  repeat split; cbn; try (done || lia).
  - pose proof (zlen_new_bytes n) as Hz. unfold zlen in *. rewrite length_app, Hlen, length_drop. lia.
  - rewrite Hd. done.
Qed.

Lemma baos_append s l off src n :
  wf s -> 0 <= off -> 0 <= n -> off + n <= zlen src -> position s + n <= size s -> n <= room s ->
  l = ztake n (zdrop off src) -> Forall (in_u 8) l ->
  exists b, copy_chars (buffer s) (position s) src off n = Ok b /\
    let s' := set_position (u32 (position s + n)) (set_buffer b s) in
    wf s' /\ data s' = data s ++ l /\ room s' = room s - n.
Proof.
  intros Hwf Ho Hn Hon Hcap Hr -> Hf. pose proof Hwf as (Hp & Hs & Hb & Hp2 & Ha & He & Hby). unfold room in *.
  rewrite copy_chars_ok by lia. eexists. split; [done|]. cbv zeta.
  set (s' := set_position _ _).
  assert (Hlen : length (take (Z.to_nat (position s)) (buffer s)) = Z.to_nat (position s)).
  { rewrite length_take. unfold zlen in Hb. lia. }
  assert (Hlen2 : length (take (Z.to_nat n) (drop (Z.to_nat off) src)) = Z.to_nat n).
  { rewrite length_take, length_drop. unfold zlen in Hon. lia. }
  assert (Hpos : u32 (position s + n) = position s + n) by (unwrap; lia).
  assert (Hd : data s' = data s ++ ztake n (zdrop off src)).
  { unfold data, s', ztake, zdrop. cbn [buffer position set_position set_buffer]. rewrite Hpos.
    replace (Z.to_nat (position s + n)) with (length (take (Z.to_nat (position s)) (buffer s)) + length (take (Z.to_nat n) (drop (Z.to_nat off) src)))%nat by lia.
    rewrite app_assoc, <- length_app, take_app_length. done. }
  split; [|split; [done|cbn; rewrite Hpos; lia]].
  repeat split; cbn; rewrite ?Hpos; try (done || lia).
  - unfold zlen in *. rewrite !length_app, Hlen, Hlen2, length_drop. lia.
  - change (Forall (in_u 8) (ztake (position s + n) (buffer s'))).
    rewrite <- Hpos. change (Forall (in_u 8) (data s')). rewrite Hd. apply Forall_app. done.
Qed.

Lemma baos_write s b :
  wf s -> in_u 8 b -> 0 < room s ->
  exists s', write b s = Ok s' /\ wf s' /\ data s' = data s ++ [b] /\ room s' = room s - 1.
Proof.
  intros Hwf Hb Hr. unfold write.
  destruct (ensureRemainingCapacity_ok 1 s) as (s1 & -> & Hwf1 & Hd1 & Hp1 & Hc1); [done|lia|]. mcbn. cbn [Z.eqb negb].
  destruct (baos_append s1 [b] 0 [b] 1) as (buf & E & Hwf2 & Hd2 & Hr2); try (done || lia).
  { unfold room in *. lia. }
  { by constructor. }
  unfold copy_chars in E. change (Z.to_nat 1) with 1%nat in E. cbn [for_up] in E.
  change (aget [b] (0 + 0)) with (Ok b) in E. rewrite Z.add_0_r in E. cbn [mbind outcome_bind] in E.
  destruct (aset (buffer s1) (position s1) b) as [x| | |] eqn:Ex; cbn in E; [|done..]. injection E as ->. mcbn.
  eexists. split; [done|]. split_and!; [done|by rewrite Hd2, Hd1|rewrite Hr2; unfold room; lia].
Qed.

Lemma baos_writeBytes s source off n :
  wf s -> Forall (in_u 8) source -> 0 <= off -> 0 <= n <= room s -> off + n <= zlen source -> zlen source < 2 ^ 32 ->
  exists s', writeBytes source off n s = Ok s' /\ wf s' /\ data s' = data s ++ ztake n (zdrop off source) /\ room s' = room s - n.
Proof.
  intros Hwf Hs Ho Hn Hon _. unfold writeBytes.
  destruct (ensureRemainingCapacity_ok n s) as (s1 & -> & Hwf1 & Hd1 & Hp1 & Hc1); [done|lia|]. mcbn.
  destruct (baos_append s1 (ztake n (zdrop off source)) off source n) as (buf & -> & Hwf2 & Hd2 & Hr2); try (done || lia).
  { unfold room in *. lia. }
  { by apply Forall_take, Forall_drop. }
  mcbn. eexists. split; [done|]. split_and!; [done|by rewrite Hd2, Hd1|rewrite Hr2; unfold room; lia].
Qed.

#[global] Program Instance ByteArrayOutputStream_laws : OutputStreamLaws ByteArrayOutputStream := {|
  out_wf := wf; out_data := data; out_room := room; write_ok := baos_write; writeBytes_ok := baos_writeBytes
|}.
Next Obligation. intros s Hwf. exists s. done. Qed.

Lemma baos_size_wf n : 0 < n < 2 ^ 32 -> wf (ByteArrayOutputStream_size n) /\ data (ByteArrayOutputStream_size n) = [].
Proof.
  intros Hn. assert (data (ByteArrayOutputStream_size n) = []) as Hd by done. split; [|done].
  repeat split; cbn; try (done || lia). apply zlen_new_bytes. lia.
Qed.
End ByteArrayOutputStream.
End ByteArrayOutputStream.

(** ** What the generic operations do on every stream *)

Section InputStreamSpec.
Context `{FIS : FiniteInputStream St} `{FreshMemory}.

Lemma zdrop_zdrop m n (l : list Z) : 0 <= m -> 0 <= n -> zdrop m (zdrop n l) = zdrop (n + m) l.
Proof. intros. unfold zdrop. rewrite drop_drop. f_equal. lia. Qed.

Lemma zlen_zdrop n (l : list Z) : 0 <= n -> zlen (zdrop n l) = Z.max 0 (zlen l - n).
Proof. intros. unfold zdrop, zlen. rewrite length_drop. lia. Qed.

Lemma zlen_ztake n (l : list Z) : 0 <= n -> zlen (ztake n l) = Z.min n (zlen l).
Proof. intros. unfold ztake, zlen. rewrite length_take. lia. Qed.

Lemma zlen_splice target off l :
  0 <= off -> off + zlen l <= zlen target -> zlen (splice target off l) = zlen target.
Proof.
  intros. unfold splice, zlen in *. rewrite !length_app, length_take, length_drop. lia.
Qed.

Lemma zlen_nil_iff (l : list Z) : zlen l = 0 <-> l = [].
Proof. unfold zlen. destruct l; cbn; split; intros; (done || lia). Qed.

Lemma zdrop_all n (l : list Z) : zlen l <= n -> zdrop n l = [].
Proof. intros. unfold zdrop, zlen in *. apply drop_ge. lia. Qed.

Lemma splice_splice t off a b :
  0 <= off -> off + zlen a + zlen b <= zlen t -> splice (splice t off a) (off + zlen a) b = splice t off (a ++ b).
Proof.
  intros Ho Hf. unfold splice. pose proof (zlen_nonneg a). pose proof (zlen_nonneg b).
  assert (Hl : length (take (Z.to_nat off) t ++ a) = Z.to_nat (off + zlen a)).
  { unfold zlen in *. rewrite length_app, length_take. lia. }
  rewrite (app_assoc _ a (drop _ _)).
  rewrite (take_app_le _ _ (Z.to_nat (off + zlen a))), (take_ge (_ ++ a)) by lia. rewrite <- !app_assoc. f_equal. f_equal. f_equal.
  rewrite app_assoc, zlen_app. rewrite drop_app_ge by (rewrite Hl; lia). rewrite drop_drop. f_equal. rewrite Hl. lia.
Qed.

Lemma zdrop_app_le n (k l : list Z) : n <= zlen k -> zdrop n (k ++ l) = zdrop n k ++ l.
Proof. intros. unfold zdrop, zlen in *. apply drop_app_le. lia. Qed.

(** A prefix in two pieces. *)
Lemma ztake_split a b n (l : list Z) :
  0 <= a -> 0 <= b -> a <= zlen l -> b = Z.min (n - a) (zlen l - a) -> a <= n -> ztake a l ++ ztake b (zdrop a l) = ztake n l.
Proof.
  intros Ha Hb Hal Hbm Han. unfold ztake, zdrop, zlen in *. rewrite <- (take_drop (Z.to_nat a) l) at 3.
  rewrite take_app, firstn_firstn, length_take.
  f_equal; [f_equal; lia|]. destruct (Z.min_spec (n - a) (Z.of_nat (length l) - a)) as [[? E]|[? E]]; rewrite E in Hbm.
  - f_equal. lia.
  - rewrite !take_ge; [done|rewrite length_drop; lia..].
Qed.

Lemma skip_loop_ok fuel bufferSize remaining buffer s :
  in_wf s -> 0 < bufferSize < 2 ^ 32 -> zlen buffer = bufferSize -> 0 <= remaining < 2 ^ 32 -> (Z.to_nat remaining < fuel)%nat ->
  exists s', skip_loop fuel bufferSize remaining buffer s = Ok (remaining - Z.min remaining (zlen (in_data s)), s') /\
    in_wf s' /\ in_data s' = zdrop remaining (in_data s).
Proof.
  revert remaining buffer s. induction fuel as [|fuel IH]; intros remaining buffer s Hwf Hbs Hb Hr Hf; [lia|].
  cbn [skip_loop]. pose proof (zlen_nonneg (in_data s)) as Hlen0. pose proof (in_small s Hwf).
  destruct (Z.ltb_spec 0 remaining); [|exists s; replace remaining with 0 by lia; rewrite Z.min_l by lia; done].
  set (n := if remaining <? bufferSize then remaining else bufferSize).
  assert (Hn : 0 < n /\ n <= remaining /\ n <= bufferSize) by (unfold n; cmp_cases; lia).
  destruct (decide (in_data s = [])) as [E|E].
  - destruct (readBytes_end s buffer 0 n) as (s1 & -> & Hwf1 & Hd1); [done|done|lia|]. mcbn. cbn [Z.leb Z.compare].
    exists s1. rewrite E, Hd1. unfold zlen. cbn [length Z.of_nat]. rewrite Z.min_r, Z.sub_0_r by lia. split_and!; [done..|].
    unfold zdrop. by rewrite drop_nil.
  - destruct (readBytes_some s buffer 0 n) as (s1 & -> & Hwf1 & Hd1); [done|done|lia..|]. mcbn.
    assert (0 < zlen (in_data s)) by (rewrite <- zlen_nil_iff in E; lia).
    destruct (Z.leb_spec (Z.min n (zlen (in_data s))) 0); [lia|].
    replace (u32 (remaining - Z.min n (zlen (in_data s)))) with (remaining - Z.min n (zlen (in_data s))) by (unwrap; lia).
    destruct (IH (remaining - Z.min n (zlen (in_data s))) (splice buffer 0 (ztake n (in_data s))) s1) as (s2 & -> & Hwf2 & Hd2);
      [done|lia| |lia|lia|].
    { rewrite zlen_splice; [done|lia|]. rewrite zlen_ztake by lia. lia. }
    exists s2. rewrite Hd2, Hd1, zlen_zdrop by lia. split_and!; [|done|].
    + f_equal. f_equal. lia.
    + destruct (Z.min_spec n (zlen (in_data s))) as [[? ->]|[? ->]].
      * rewrite zdrop_zdrop by lia. f_equal. lia.
      * rewrite (zdrop_all n), (zdrop_all remaining) by lia. unfold zdrop. by rewrite drop_nil.
Qed.

(** [skip] passes over the bytes that are asked for, or over what is left, and says how many. *)
Lemma skip_ok amount s :
  in_wf s -> 0 <= amount < 2 ^ 32 ->
  exists s', skip amount s = Ok (Z.min amount (zlen (in_data s)), s') /\ in_wf s' /\ in_data s' = zdrop amount (in_data s).
Proof.
  intros Hwf Ha. unfold skip. pose proof (zlen_nonneg (in_data s)). destruct (Z.leb_spec amount 0).
  - exists s. replace amount with 0 by lia. rewrite Z.min_l by lia. done.
  - unfold SKIP_BUFFER_SIZE. set (b := if 1024 <? amount then 1024 else amount).
    assert (Hb : 0 < b < 2 ^ 32) by (unfold b; cmp_cases; lia).
    destruct (skip_loop_ok (S (Z.to_nat amount)) b amount (new_bytes b) s) as (s1 & -> & Hwf1 & Hd1);
      [done|done|apply zlen_new_bytes; lia|lia|lia|].
    mcbn. exists s1. split_and!; [|done..]. f_equal. f_equal. unwrap. lia.
Qed.

Lemma readLine_loop_ok l rest fuel line k s c :
  repr line k -> chars_ok (k ++ l) -> ~ 10 ∈ l -> in_wf s -> zlen (k ++ l) < UINT32_MAX ->
  (length l <= fuel)%nat ->
  match l with
  | [] => match rest with [] => c = -1 /\ in_data s = [] | r :: rest => c = 10 /\ r = 10 /\ in_data s = rest end
  | x :: l => c = x /\ in_data s = l ++ rest
  end ->
  match rest with [] => True | r :: _ => r = 10 end ->
  exists line' s', readLine_loop fuel line c s = Ok (line', (match rest with [] => -1 | _ => 10 end), s') /\ repr line' (k ++ l) /\
    in_wf s' /\ in_data s' = match rest with [] => [] | _ :: rest => rest end.
Proof.
  revert fuel line k s c. induction l as [|x l IH]; intros fuel line k s c Hline Hok Hnl Hwf Hmax Hf Hc Hrest.
  - exists line, s. rewrite app_nil_r. split; [|split; [done|]].
    + destruct rest as [|r rest]; destruct Hc as [-> ?]; destruct fuel; done.
    + destruct rest as [|r rest]; naive_solver.
  - destruct fuel as [|fuel]; [cbn in Hf; lia|]. destruct Hc as [-> Hd]. cbn [readLine_loop].
    assert (Hx : 0 < x < 256).
    { apply Forall_app in Hok as [_ Hok]. by apply Forall_cons in Hok as [? _]. }
    apply not_elem_of_cons in Hnl as [Hx10 Hnl].
    destruct (Z.eqb_spec x (-1)); [lia|]. destruct (Z.eqb_spec x 10); [lia|]. cbn [negb andb].
    replace (u8 x) with x by (unwrap; lia).
    assert (Hxs : repr (String_char x) [x]). { repeat split. constructor; [lia|done]. }
    destruct (append_ok line (String_char x) k [x] Hline Hxs) as (line1 & -> & Hline1).
    { rewrite zlen_app in Hmax. rewrite zlen_cons in Hmax. pose proof (zlen_nonneg l). unfold zlen at 2. cbn. lia. }
    mcbn.
    assert (exists c1 s1, read s = Ok (c1, s1) /\ in_wf s1 /\
      match l with
      | [] => match rest with [] => c1 = -1 /\ in_data s1 = [] | r :: rest => c1 = 10 /\ r = 10 /\ in_data s1 = rest end
      | x :: l => c1 = x /\ in_data s1 = l ++ rest
      end) as (c1 & s1 & -> & Hwf1 & Hc1).
    { destruct l as [|y l]; [destruct rest as [|r rest]|].
      - destruct (read_end s) as (s1 & ? & ? & ?); [done|by rewrite Hd|]. by exists (-1), s1.
      - subst r. destruct (read_cons s 10 rest) as (s1 & ? & ? & ?); [done|by rewrite Hd|]. by exists 10, s1.
      - destruct (read_cons s y (l ++ rest)) as (s1 & ? & ? & ?); [done|by rewrite Hd|]. by exists y, s1. }
    mcbn. destruct (IH fuel line1 (k ++ [x]) s1 c1) as (line2 & s2 & E & Hr2 & Hwf2 & Hd2); try (done || (rewrite <- app_assoc; done)).
    { cbn in Hf. lia. }
    exists line2, s2. rewrite E. split_and!; [done| |done|done]. by rewrite <- app_assoc in Hr2.
Qed.

(** [readLine] gives the bytes up to the next line feed or the end of the stream, takes the line feed, and reports the
    end exactly when nothing was left. *)
Theorem readLine_spec fuel s l rest :
  in_wf s -> in_data s = l ++ rest -> chars_ok l -> ~ 10 ∈ l -> rest = [] \/ (exists k, rest = 10 :: k) -> (length l <= fuel)%nat ->
  exists line s', readLine fuel s = Ok (line, bool_decide (l = [] /\ rest = []), s') /\ repr line l /\
    in_wf s' /\ in_data s' = tail rest.
Proof.
  intros Hwf Hd Hok Hnl Hrest Hf.
  assert (Hmax : zlen l < UINT32_MAX).
  { pose proof (in_small s Hwf) as Hs. rewrite Hd, zlen_app in Hs. pose proof (zlen_nonneg rest). unfold UINT32_MAX. lia. }
  assert (exists c s1, read s = Ok (c, s1) /\ in_wf s1 /\
    match l with
    | [] => match rest with [] => c = -1 /\ in_data s1 = [] | r :: rest => c = 10 /\ r = 10 /\ in_data s1 = rest end
    | x :: l => c = x /\ in_data s1 = l ++ rest
    end) as (c & s1 & E & Hwf1 & Hc).
  { destruct l as [|x l]; [destruct Hrest as [->|(k & ->)]|].
    - destruct (read_end s) as (s1 & ? & ? & ?); [done|done|]. by exists (-1), s1.
    - destruct (read_cons s 10 k) as (s1 & ? & ? & ?); [done|done|]. by exists 10, s1.
    - destruct (read_cons s x (l ++ rest)) as (s1 & ? & ? & ?); [done|done|]. by exists x, s1. }
  unfold readLine. rewrite E. mcbn.
  destruct (readLine_loop_ok l rest fuel String_empty [] s1 c) as (line & s2 & -> & Hr & Hwf2 & Hd2); try done.
  { repeat split. constructor. }
  { by destruct Hrest as [->|(k & ->)]. }
  mcbn. exists line, s2. split; [|split; [done|split; [done|by destruct rest]]]. f_equal. f_equal. f_equal.
  destruct Hr as (_ & Hl & _). unfold isEmpty. rewrite Hl. unfold zlen.
  destruct l; [destruct Hrest as [->|(k & ->)]|]; [by rewrite bool_decide_true|by rewrite bool_decide_false by naive_solver..].
Qed.

(** A [readString] that gets fewer bytes than it asks for takes the rest of the string from
    the memory that it has allocated. *)
Lemma readString_short s n :
  in_wf s -> 0 < zlen (in_data s) <= n -> n < UINT32_MAX ->
  exists s', readString n s = Ok (mkString (in_data s ++ zdrop (zlen (in_data s)) (new_bytes n) ++ [0]) n, s') /\ in_data s' = [].
Proof.
  intros Hwf Hl Hn. unfold readString, UINT32_MAX in *.
  destruct (readBytes_some s (new_bytes n) 0 n) as (s1 & -> & Hwf1 & Hd1); [done| |lia|lia|rewrite zlen_new_bytes; lia|rewrite zlen_new_bytes; lia|].
  { intros E. rewrite E in Hl. unfold zlen in Hl. cbn in Hl. lia. }
  mcbn. destruct (Z.leb_spec (Z.min n (zlen (in_data s))) 0); [lia|].
  assert (Ht : ztake n (in_data s) = in_data s) by (unfold ztake; apply take_ge; unfold zlen in Hl; lia). rewrite Ht.
  set (b := splice _ _ _). assert (Hb : zlen b = n).
  { unfold b. rewrite zlen_splice; [apply zlen_new_bytes; lia|lia|]. rewrite zlen_new_bytes; lia. }
  unfold String_data. replace (u32 (n + 1)) with (n + 1) by (unwrap; lia).
  pose proof (copy_new_ok b 0 n) as E. destruct (copy_chars _ _ _ _ _) as [x| | |]; [|exfalso; by specialize (E ltac:(lia) ltac:(lia) ltac:(lia))..].
  cbn [mbind outcome_bind] in E |- *. rewrite E by lia. mcbn. exists s1. split; [|rewrite Hd1; apply zdrop_all; lia].
  f_equal. f_equal. f_equal. change (Z.to_nat 0) with 0%nat. rewrite drop_0, take_ge by (unfold zlen in Hb; lia).
  unfold b, splice. change (Z.to_nat 0) with 0%nat. rewrite take_0, app_nil_l, <- app_assoc. done.
Qed.

End InputStreamSpec.

(** ** Sequences of writes *)

Section OutputStreamSpec.
Context `{OSL : OutputStreamLaws St}.

Inductive output := Byte (b : Z) | Bytes (l : list Z).

Definition output_bytes (o : output) : list Z := match o with Byte b => [b] | Bytes l => l end.

Definition do_output (o : output) (s : St) : outcome St :=
  match o with Byte b => write b s | Bytes l => writeBytes l 0 (zlen l) s end.

Fixpoint do_outputs (os : list output) (s : St) : outcome St :=
  match os with [] => Ok s | o :: os => s ← do_output o s; do_outputs os s end.

Lemma writeBytes_all s l :
  out_wf s -> Forall (in_u 8) l -> zlen l <= out_room s -> zlen l < 2 ^ 32 ->
  exists s', writeBytes l 0 (zlen l) s = Ok s' /\ out_wf s' /\ out_data s' = out_data s ++ l /\ out_room s' = out_room s - zlen l.
Proof.
  intros Hwf Hl Hr H32. pose proof (zlen_nonneg l).
  destruct (writeBytes_ok s l 0 (zlen l)) as (s' & ? & ? & Hd & ?); [done|done|lia..|]. exists s'. split_and!; [done|done| |done].
  rewrite Hd. f_equal. unfold ztake, zdrop. change (Z.to_nat 0) with 0%nat. rewrite drop_0. apply take_ge. unfold zlen. lia.
Qed.

Lemma do_outputs_ok os s :
  out_wf s -> Forall (in_u 8) (concat (output_bytes <$> os)) -> zlen (concat (output_bytes <$> os)) <= out_room s ->
  zlen (concat (output_bytes <$> os)) < 2 ^ 32 ->
  exists s', do_outputs os s = Ok s' /\ out_wf s' /\ out_data s' = out_data s ++ concat (output_bytes <$> os) /\
    out_room s' = out_room s - zlen (concat (output_bytes <$> os)).
Proof.
  revert s. induction os as [|o os IH]; intros s Hwf Hb Hr H32; cbn [do_outputs].
  - exists s. cbn. rewrite app_nil_r. unfold zlen. cbn. split_and!; (done || lia).
  - cbn [fmap list_fmap concat] in *. fold (@fmap list _ _ _ output_bytes os) in *. apply Forall_app in Hb as [Hb1 Hb2].
    rewrite zlen_app in *. pose proof (zlen_nonneg (output_bytes o)). pose proof (zlen_nonneg (concat (output_bytes <$> os))).
    assert (exists s1, do_output o s = Ok s1 /\ out_wf s1 /\ out_data s1 = out_data s ++ output_bytes o /\
      out_room s1 = out_room s - zlen (output_bytes o)) as (s1 & -> & Hwf1 & Hd1 & Hr1).
    { destruct o as [b|l]; cbn [output_bytes do_output] in *; [|apply writeBytes_all; (done || lia)].
      apply write_ok; [done|by inversion Hb1|]. unfold zlen in Hr. cbn in Hr. lia. }
    mcbn. destruct (IH s1) as (s2 & -> & ? & Hd2 & Hr2); [done..|lia|lia|]. exists s2.
    split_and!; [done|done|by rewrite Hd2, Hd1, <- app_assoc|lia].
Qed.
End OutputStreamSpec.

(** ** [ByteArrayOutputStream]: growing, limited and empty buffers *)
Module ByteArrayOutputStreamSpec.
Import ByteArrayOutputStream.

Section Spec.
Context `{FreshMemory}.

(** C26: Any sequence of byte and array writes to a ByteArrayOutputStream that
    grows appends exactly those bytes to what the stream holds. *)
Theorem writes_append os n :
  0 < n < 2 ^ 32 -> Forall (in_u 8) (concat (output_bytes <$> os)) -> zlen (concat (output_bytes <$> os)) < 2 ^ 31 ->
  exists s, do_outputs os (ByteArrayOutputStream_size n) = Ok s /\
    getLength s = zlen (concat (output_bytes <$> os)) /\ ztake (getLength s) (getBuffer s) = concat (output_bytes <$> os).
Proof.
  intros Hn Hb Hl. destruct (baos_size_wf n Hn) as [Hwf Hd].
  destruct (do_outputs_ok os (ByteArrayOutputStream_size n)) as (s & E & Hwf' & Hd' & _); [done|done| |lia|].
  { cbn. unfold room. cbn. lia. }
  cbn [out_wf out_data ByteArrayOutputStream_laws] in *. rewrite Hd, app_nil_l in Hd'.
  exists s. split; [done|]. pose proof (baos_data_length s Hwf') as Hp. unfold getLength, getBuffer. rewrite <- Hp, Hd'.
  split; [done|]. rewrite <- Hd', Hp. done.
Qed.

Lemma newSize_loop_zero needed : 0 < needed -> newSize_loop 0 needed = Loops.
Proof.
  intros Hn. unfold newSize_loop. assert (Hc : (0 <? needed) = true) by (apply Z.ltb_lt; lia).
  assert (G : forall fuel, while fuel (fun x => x <? needed) (fun x => Ok (u32 (x * 2))) 0 = Loops); [|apply G].
  induction fuel as [|fuel IH]; cbn [while]; rewrite Hc; [done|]. mcbn. exact IH.
Qed.

(** A stream created with size 0 never ends its first write: the new size is zero for ever. *)
Theorem empty_buffer_never_grows c l off n :
  0 < n < 2 ^ 32 ->
  write c (ByteArrayOutputStream_size 0) = Loops /\ writeBytes l off n (ByteArrayOutputStream_size 0) = Loops.
Proof.
  intros Hn. unfold write, writeBytes, ensureRemainingCapacity. cbn [position size enforceSizeLimit allocatedBuffer ByteArrayOutputStream_size negb andb].
  split.
  - change (u32 (0 + 1) <? 0) with false. cbn [mbind outcome_bind]. change (u32 (0 * 2)) with 0. by rewrite newSize_loop_zero.
  - rewrite Z.add_0_l. replace (u32 n) with n by (unwrap; lia). destruct (Z.ltb_spec n 0); [lia|].
    change (u32 (0 * 2)) with 0. by rewrite newSize_loop_zero by lia.
Qed.

(** A limited stream: [size] bytes of a buffer, and no more. *)
Definition limited (s : ByteArrayOutputStream) : Prop :=
  0 <= position s <= size s /\ size s < 2 ^ 31 /\ size s <= zlen (buffer s) /\ enforceSizeLimit s = true.

Lemma limited_capacity n s :
  limited s -> 0 <= n < 2 ^ 31 -> ensureRemainingCapacity n s = Ok (Z.min n (size s - position s), s).
Proof.
  intros (Hp & Hs & Hb & He) Hn. unfold ensureRemainingCapacity. rewrite He.
  replace (u32 (position s + n)) with (position s + n) by (unwrap; lia).
  destruct (Z.ltb_spec (position s + n) (size s)); [by rewrite Z.min_l by lia|].
  rewrite Z.min_r by lia. f_equal. f_equal. unwrap. lia.
Qed.

Lemma limited_copy l n s :
  limited s -> 0 <= n <= zlen l -> n <= size s - position s ->
  exists b, copy_chars (buffer s) (position s) l 0 n = Ok b /\
    limited (set_position (u32 (position s + n)) (set_buffer b s)) /\
    data (set_position (u32 (position s + n)) (set_buffer b s)) = data s ++ ztake n l.
Proof.
  intros (Hp & Hs & Hb & He) Hn Hc. rewrite copy_chars_ok by lia. eexists. split; [done|].
  replace (u32 (position s + n)) with (position s + n) by (unwrap; lia). unfold zlen in *.
  assert (Hl1 : length (take (Z.to_nat (position s)) (buffer s)) = Z.to_nat (position s)) by (rewrite length_take; lia).
  change (Z.to_nat 0) with 0%nat. rewrite drop_0.
  assert (Hl2 : length (take (Z.to_nat n) l) = Z.to_nat n) by (rewrite length_take; lia).
  split.
  - repeat split; cbn; try (done || lia). unfold zlen. rewrite !length_app, Hl1, Hl2, length_drop. lia.
  - unfold data, ztake. cbn. replace (Z.to_nat (position s + n)) with (length (take (Z.to_nat (position s)) (buffer s)) + length (take (Z.to_nat n) l))%nat by lia.
    rewrite app_assoc, <- length_app, take_app_length. done.
Qed.

Lemma limited_output o s :
  limited s -> zlen (output_bytes o) < 2 ^ 31 ->
  exists s', do_output o s = Ok s' /\ limited s' /\ size s' = size s /\ data s' = ztake (size s) (data s ++ output_bytes o).
Proof.
  intros Hl Hn. pose proof Hl as (Hp & Hs & Hb & He). pose proof (zlen_nonneg (output_bytes o)) as H0.
  set (n := Z.min (zlen (output_bytes o)) (size s - position s)).
  assert (Hlen : length (data s) = Z.to_nat (position s)) by (unfold data, ztake, zlen in *; rewrite length_take; lia).
  assert (Hcut : data s ++ ztake n (output_bytes o) = ztake (size s) (data s ++ output_bytes o)).
  { unfold ztake at 2. rewrite take_app, (take_ge (data s)) by lia. f_equal. unfold ztake, n, zlen in *.
    destruct (Z.min_spec (Z.of_nat (length (output_bytes o))) (size s - position s)) as [[? ->]|[? ->]].
    - rewrite !take_ge; [done|lia..].
    - f_equal. lia. }
  destruct (limited_copy (output_bytes o) n s Hl) as (b & E & Hl' & Hd); [unfold n; lia..|].
  destruct o as [c|l]; cbn [output_bytes] in *.
  - change (do_output (Byte c) s) with (write c s). unfold write. rewrite limited_capacity by (done || lia). mcbn. change (zlen [c]) with 1 in n. fold n.
    destruct (Z.eqb_spec n 0) as [En|En]; cbn [negb].
    + exists s. rewrite <- Hcut, En. unfold ztake at 1. cbn. rewrite app_nil_r. done.
    + assert (n = 1) as En1 by lia. rewrite En1 in E, Hl', Hd.
      unfold copy_chars in E. change (Z.to_nat 1) with 1%nat in E. cbn [for_up] in E.
      change (aget [c] (0 + 0)) with (Ok c) in E. rewrite Z.add_0_r in E. cbn [mbind outcome_bind] in E.
      destruct (aset (buffer s) (position s) c) as [x| | |] eqn:Ex; cbn in E; [|done..]. injection E as ->. mcbn.
      eexists. split; [done|]. split_and!; [done|done|]. rewrite Hd, <- Hcut, En1. done.
  - change (do_output (Bytes l) s) with (writeBytes l 0 (zlen l) s). unfold writeBytes. rewrite limited_capacity by (done || lia). mcbn. fold n. rewrite E. mcbn.
    eexists. split; [done|]. split_and!; [done|done|]. by rewrite Hd, Hcut.
Qed.

Lemma take_take_app (n : nat) (k l : list Z) : take n (take n k ++ l) = take n (k ++ l).
Proof.
  destruct (decide (n <= length k)%nat).
  - rewrite !take_app_le by (rewrite ?length_take; lia). by rewrite firstn_firstn, Nat.min_id.
  - by rewrite (take_ge k) by lia.
Qed.

Lemma limited_outputs os s :
  limited s -> zlen (concat (output_bytes <$> os)) < 2 ^ 31 ->
  exists s', do_outputs os s = Ok s' /\ limited s' /\ size s' = size s /\
    data s' = ztake (size s) (data s ++ concat (output_bytes <$> os)).
Proof.
  revert s. induction os as [|o os IH]; intros s Hl Hn; cbn [do_outputs].
  - exists s. cbn. rewrite app_nil_r. split_and!; [done..|]. destruct Hl as (Hp & Hs & Hb & He).
    unfold ztake. rewrite take_ge; [done|]. unfold data, ztake. rewrite length_take. lia.
  - cbn [fmap list_fmap concat] in *. fold (@fmap list _ _ _ output_bytes os) in *. rewrite zlen_app in Hn.
    pose proof (zlen_nonneg (output_bytes o)). pose proof (zlen_nonneg (concat (output_bytes <$> os))).
    destruct (limited_output o s Hl) as (s1 & -> & Hl1 & Hs1 & Hd1); [lia|]. mcbn.
    destruct (IH s1 Hl1) as (s2 & -> & Hl2 & Hs2 & Hd2); [lia|]. exists s2. split_and!; [done|done|congruence|].
    rewrite Hd2, Hs1, Hd1. unfold ztake. rewrite app_assoc. apply take_take_app.
Qed.

End Spec.

#[local] Instance sevens : FreshMemory := fun _ => 7.

Lemma writes_append_witness : exists s,
  do_outputs [Byte 1; Bytes [2; 3; 4]; Byte 5] (ByteArrayOutputStream_size 2) = Ok s /\
  getLength s = 5 /\ ztake (getLength s) (getBuffer s) = [1; 2; 3; 4; 5].
Proof.
  apply (writes_append [Byte 1; Bytes [2; 3; 4]; Byte 5] 2); [lia| |reflexivity].
  cbn. repeat constructor; unfold in_u; lia.
Defined.

Lemma empty_buffer_never_grows_witness :
  write 65 (ByteArrayOutputStream_size 0) = Loops /\
  writeBytes [65; 66] 0 2 (ByteArrayOutputStream_size 0) = Loops.
Proof. apply (empty_buffer_never_grows 65 [65; 66] 0 2). lia. Defined.

(** Two lines and the end of the stream. *)
Lemma readLine_spec_witness : exists line s',
  readLine 8 (ByteArrayInputStream.ByteArrayInputStream_new [72; 105; 10; 33] 4) = Ok (line, false, s') /\
  repr line [72; 105] /\ in_wf s' /\ in_data s' = [33].
Proof.
  destruct (readLine_spec 8 (ByteArrayInputStream.ByteArrayInputStream_new [72; 105; 10; 33] 4) [72; 105] [10; 33])
    as (line & s' & E & Hr & Hwf & Hd).
  - apply (ByteArrayInputStream.bais_new_wf [72; 105; 10; 33]); [repeat constructor; unfold in_u; lia|done].
  - reflexivity.
  - repeat constructor.
  - set_solver.
  - right. by eexists.
  - cbn. lia.
  - exists line, s'. split_and!; [exact E|exact Hr|exact Hwf|exact Hd].
Defined.

End ByteArrayOutputStreamSpec.
