(* ===== verification/MemoryFilesystem.v ===== *)
(** * MemoryFilesystem.v: the file system in memory

    [filesystem/memory]: nodes, the operations on them, and [MemoryDriver], which finds, creates and deletes nodes
    by path. Nodes are objects in a table indexed by address, because a directory and every open file refer to the same
    node; an address that is not in the table any more is a dangling pointer.

    A [Util::String] is the sequence of its characters here: [split] at the separator is [tokens slash] ([split_ok]), and
    [==] is equality ([UtilString.equals_ok]). *)

From S2P Require Import UtilString Streams Path Prelude Bits.

Module MemoryFs.

(** ** Data *)

Inductive FileType := REGULAR | DIRECTORY | CHARACTER.

#[export] Instance FileType_eq_dec : EqDecision FileType.
Proof. solve_decision. Defined.

(** The classes derived from [MemoryNode]. [StringNode] holds the text that the [getString] of a subclass builds. *)
Inductive Node :=
| MemoryDirectoryNode (name : list Z) (children : list Z)
| MemoryFileNode (name : list Z) (data : list Z) (length : Z)
| BufferNode (name : list Z) (buffer : list Z) (length : Z)
| StringNode (name : list Z) (text : list Z)
| NullNode (name : list Z)
| ZeroNode (name : list Z).

(** [nextAddress] is the address of the next node. *)
Record MemoryDriver := mk { nodes : gmap Z Node; rootNode : Z; nextAddress : Z }.

Definition set_nodes (n : gmap Z Node) (d : MemoryDriver) : MemoryDriver := mk n (rootNode d) (nextAddress d).

Definition node_at (p : Z) (d : MemoryDriver) : outcome Node := of_option (nodes d !! p).

(** [new] and [delete] of a node *)
Definition new_node (n : Node) (d : MemoryDriver) : Z * MemoryDriver :=
  (nextAddress d, mk (<[nextAddress d := n]> (nodes d)) (rootNode d) (nextAddress d + 1)).
Definition delete_node (p : Z) (d : MemoryDriver) : MemoryDriver := set_nodes (delete p (nodes d)) d.

Definition MemoryDriver_new : MemoryDriver := mk {[1 := MemoryDirectoryNode [] []]} 1 2.

(** ** Nodes *)

Definition getName (n : Node) : list Z :=
  match n with
  | MemoryDirectoryNode name _ | MemoryFileNode name _ _ | BufferNode name _ _ | StringNode name _ | NullNode name | ZeroNode name => name
  end.

Definition getType (n : Node) : FileType :=
  match n with
  | MemoryDirectoryNode _ _ => DIRECTORY
  | MemoryFileNode _ _ _ | BufferNode _ _ _ | StringNode _ _ => REGULAR
  | NullNode _ | ZeroNode _ => CHARACTER
  end.

Definition getLength (n : Node) : Z :=
  match n with
  | MemoryFileNode _ _ length | BufferNode _ _ length => length
  | StringNode _ text => zlen text
  | _ => 0
  end.

Fixpoint names_of (children : list Z) (d : MemoryDriver) : outcome (list (list Z)) :=
  match children with
  | [] => Ok []
  | c :: children => n ← node_at c d; l ← names_of children d; Ok (getName n :: l)
  end.

Definition getChildren (n : Node) (d : MemoryDriver) : outcome (list (list Z)) :=
  match n with MemoryDirectoryNode _ children => names_of children d | _ => Ok [] end.

(** [reinterpret_cast<MemoryDirectoryNode*>(p)->getChildByName(childName)]: anything but a directory is undefined behaviour. *)
Definition getChildByName (p : Z) (childName : list Z) (d : MemoryDriver) : outcome (option Z) :=
  n ← node_at p d;
  match n with
  | MemoryDirectoryNode _ children =>
    r ← findM (fun c => n ← node_at c d; Ok (bool_decide (getName n = childName))) children;
    Ok (match r with Some (_, c) => Some c | None => None end)
  | _ => Fault
  end.

Definition addChild (p node : Z) (d : MemoryDriver) : outcome MemoryDriver :=
  n ← node_at p d;
  match n with
  | MemoryDirectoryNode name children => Ok (set_nodes (<[p := MemoryDirectoryNode name (children ++ [node])]> (nodes d)) d)
  | _ => Fault
  end.

(** [children.remove(node)] *)
Definition removeChild (p node : Z) (d : MemoryDriver) : outcome MemoryDriver :=
  n ← node_at p d;
  match n with
  | MemoryDirectoryNode name children =>
    '(_, children) ← removeM (fun c => Ok (c =? node)) children;
    Ok (set_nodes (<[p := MemoryDirectoryNode name children]> (nodes d)) d)
  | _ => Fault
  end.

(** ** Reading and writing *)

(** The part of [length] bytes in [buffer] that begins at [pos]. *)
Definition read_range (buffer : list Z) (length : Z) (targetBuffer : list Z) (pos numBytes : Z) : outcome (Z * list Z) :=
  if length <=? pos then Ok (0, targetBuffer)
  else
    let numBytes := if length <? u64 (pos + numBytes) then u64 (length - pos) else numBytes in
    t ← copy_chars targetBuffer 0 buffer (u32 pos) (u32 numBytes);
    Ok (numBytes, t).

Definition MemoryFileNode_readData (data : list Z) (length : Z) := read_range data length.
Definition BufferNode_readData (buffer : list Z) (length : Z) := read_range buffer length.
Definition StringNode_readData (text : list Z) := read_range (text ++ [0]) (zlen text).
Definition ZeroNode_readData (targetBuffer : list Z) (numBytes : Z) : outcome (Z * list Z) :=
  t ← copy_chars targetBuffer 0 (new_chars (u32 numBytes)) 0 (u32 numBytes); Ok (numBytes, t).

(** The virtual functions [readData] and [writeData] *)
Definition readData (n : Node) (targetBuffer : list Z) (pos numBytes : Z) : outcome (Z * list Z) :=
  match n with
  | MemoryDirectoryNode _ _ => Throw UNSUPPORTED_OPERATION
  | MemoryFileNode _ data length => MemoryFileNode_readData data length targetBuffer pos numBytes
  | BufferNode _ buffer length => BufferNode_readData buffer length targetBuffer pos numBytes
  | StringNode _ text => StringNode_readData text targetBuffer pos numBytes
  | NullNode _ => Ok (0, targetBuffer)
  | ZeroNode _ => ZeroNode_readData targetBuffer numBytes
  end.

(** [MemoryFileNode::writeData]: a file that gets longer, or is written up to its end, is copied into new memory. *)
Definition MemoryFileNode_writeData (data : list Z) (length : Z) (sourceBuffer : list Z) (pos numBytes : Z) : outcome (list Z * Z) :=
  '(data, length) ← (
    if length <=? u64 (pos + numBytes) then
      let newLength := u64 (pos + numBytes) in
      newData ← copy_chars (new_chars (u32 newLength)) 0 data 0 (u32 length);
      Ok (newData, newLength)
    else Ok (data, length));
  data ← copy_chars data (u32 pos) sourceBuffer 0 (u32 numBytes);
  Ok (data, length).

Definition writeData (n : Node) (sourceBuffer : list Z) (pos numBytes : Z) : outcome (Z * Node) :=
  match n with
  | MemoryDirectoryNode _ _ => Throw UNSUPPORTED_OPERATION
  | MemoryFileNode name data length => '(data, length) ← MemoryFileNode_writeData data length sourceBuffer pos numBytes; Ok (numBytes, MemoryFileNode name data length)
  | NullNode _ => Ok (numBytes, n)
  | BufferNode _ _ _ | StringNode _ _ | ZeroNode _ => Ok (0, n)
  end.

(** The same through a [MemoryWrapperNode], which refers to the node at address [p]. *)
Definition wrapper_readData (p : Z) (targetBuffer : list Z) (pos numBytes : Z) (d : MemoryDriver) : outcome (Z * list Z) :=
  n ← node_at p d; readData n targetBuffer pos numBytes.

Definition wrapper_writeData (p : Z) (sourceBuffer : list Z) (pos numBytes : Z) (d : MemoryDriver) : outcome (Z * MemoryDriver) :=
  n ← node_at p d; '(r, n) ← writeData n sourceBuffer pos numBytes; Ok (r, set_nodes (<[p := n]> (nodes d)) d).

Definition wrapper_getType (p : Z) (d : MemoryDriver) : outcome FileType := n ← node_at p d; Ok (getType n).
Definition wrapper_getLength (p : Z) (d : MemoryDriver) : outcome Z := n ← node_at p d; Ok (getLength n).
Definition wrapper_getName (p : Z) (d : MemoryDriver) : outcome (list Z) := n ← node_at p d; Ok (getName n).
Definition wrapper_getChildren (p : Z) (d : MemoryDriver) : outcome (list (list Z)) := n ← node_at p d; getChildren n d.

(** ** [MemoryDriver] *)

(** The loop over the directories of a path; [None] when it leaves the function. *)
Fixpoint walk (tokens : list (list Z)) (currentDir : Z) (d : MemoryDriver) : outcome (option Z) :=
  match tokens with
  | [] => Ok (Some currentDir)
  | token :: tokens =>
    r ← getChildByName currentDir token d;
    match r with
    | None => Ok None
    | Some c =>
      n ← node_at c d;
      if decide (getType n = DIRECTORY) then walk tokens c d else Ok None
    end
  end.

(** [tokens[tokens.length() - 1]] *)
Definition last_token (tokens : list (list Z)) : outcome (list Z) :=
  match last tokens with Some t => Ok t | None => Throw OUT_OF_BOUNDS end.

(** The node that a new [MemoryWrapperNode] refers to. *)
Definition getNode (path : list Z) (d : MemoryDriver) : outcome (option Z) :=
  if zlen path =? 0 then Ok (Some (rootNode d))
  else
    let tokens := tokens slash path in
    if zlen tokens =? 0 then Ok (Some (rootNode d))
    else
      r ← walk (removelast tokens) (rootNode d) d;
      match r with
      | None => Ok None
      | Some currentDir => token ← last_token tokens; getChildByName currentDir token d
      end.

(** For an empty path, [tokens.length() - 1] is the largest number and the loop ends at the exception of [tokens[0]]. *)
Definition createNode (path : list Z) (type : FileType) (d : MemoryDriver) : outcome (bool * MemoryDriver) :=
  if decide (type <> DIRECTORY /\ type <> REGULAR) then Throw INVALID_ARGUMENT
  else
    let tokens := tokens slash path in
    if (0 <? zlen path) && (zlen tokens =? 0) then Ok (false, d)
    else if zlen tokens =? 0 then Throw OUT_OF_BOUNDS
    else
      r ← walk (removelast tokens) (rootNode d) d;
      match r with
      | None => Ok (false, d)
      | Some currentDir =>
        name ← last_token tokens;
        r ← getChildByName currentDir name d;
        match r with
        | Some _ => Ok (false, d)
        | None =>
          let newNode := if decide (type = DIRECTORY) then MemoryDirectoryNode name [] else MemoryFileNode name [] 0 in
          let '(p, d) := new_node newNode d in
          d ← addChild currentDir p d;
          Ok (true, d)
        end
      end.

Definition deleteNode (path : list Z) (d : MemoryDriver) : outcome (bool * MemoryDriver) :=
  let tokens := tokens slash path in
  if (0 <? zlen path) && (zlen tokens =? 0) then Ok (false, d)
  else if zlen tokens =? 0 then Throw OUT_OF_BOUNDS
  else
    r ← walk (removelast tokens) (rootNode d) d;
    match r with
    | None => Ok (false, d)
    | Some currentDir =>
      name ← last_token tokens;
      r ← getChildByName currentDir name d;
      match r with
      | None => Ok (false, d)
      | Some p =>
        n ← node_at p d;
        children ← getChildren n d;
        if 0 <? zlen children then Ok (false, d)
        else d ← removeChild currentDir p d; Ok (true, delete_node p d)
      end
    end.

(** The kernel adds nodes of its own, [node], below the directory [path]. *)
Definition addNode (path : list Z) (node : Node) (d : MemoryDriver) : outcome (bool * MemoryDriver) :=
  r ← walk (tokens slash path) (rootNode d) d;
  match r with
  | None => Ok (false, d)
  | Some currentDir =>
    r ← getChildByName currentDir (getName node) d;
    match r with
    | Some _ => Ok (false, d)
    | None => let '(p, d) := new_node node d in d ← addChild currentDir p d; Ok (true, d)
    end
  end.

(** ** The tree of nodes *)

(** The child of the directory [p] with name [t]. *)
Definition child (d : MemoryDriver) (p : Z) (t : list Z) : option Z :=
  match nodes d !! p with
  | Some (MemoryDirectoryNode _ cs) => snd <$> list_find (fun c => getName <$> nodes d !! c = Some t) cs
  | _ => None
  end.

(** The node at the end of a path. *)
Fixpoint locate_from (d : MemoryDriver) (p : Z) (ts : list (list Z)) : option Z :=
  match ts with [] => Some p | t :: ts => c ← child d p t; locate_from d c ts end.
Definition locate (d : MemoryDriver) (ts : list (list Z)) : option Z := locate_from d (rootNode d) ts.

Definition parent (d : MemoryDriver) (p c : Z) : Prop := exists n cs, nodes d !! p = Some (MemoryDirectoryNode n cs) /\ c ∈ cs.
Definition name_at (d : MemoryDriver) (c : Z) : option (list Z) := getName <$> nodes d !! c.

(** The length of a file is that of its data. *)
Definition file_ok (n : Node) : Prop := match n with MemoryFileNode _ data length => length = zlen data | _ => True end.

(** Every child exists, has a name of its own in its directory, and is in no other directory. *)
Record wf (d : MemoryDriver) : Prop := {
  wf_root : exists n cs, nodes d !! rootNode d = Some (MemoryDirectoryNode n cs);
  wf_children p c : parent d p c -> is_Some (nodes d !! c) /\ c <> rootNode d;
  wf_names p c1 c2 : parent d p c1 -> parent d p c2 -> name_at d c1 = name_at d c2 -> c1 = c2;
  wf_nodup p n cs : nodes d !! p = Some (MemoryDirectoryNode n cs) -> NoDup cs;
  wf_parent p q c : parent d p c -> parent d q c -> p = q;
  wf_next p : is_Some (nodes d !! p) -> p < nextAddress d;
  wf_files p n : nodes d !! p = Some n -> file_ok n
}.

Lemma child_spec d p t c : wf d -> child d p t = Some c <-> parent d p c /\ name_at d c = Some t.
Proof.
  intros Hwf. unfold child. split.
  - destruct (nodes d !! p) as [[n cs| | | | |]|] eqn:E; try done. destruct (list_find _ cs) as [[i c']|] eqn:Ef; [|done]. intros [= <-].
    apply list_find_Some in Ef as (Hi & Hn & _). split; [|done]. exists n, cs. split; [done|by eapply list_elem_of_lookup_2].
  - intros [(n & cs & Hp & Hc) Hnd]. rewrite Hp. destruct (list_find _ cs) as [[i c']|] eqn:Ef.
    + cbn. f_equal. apply list_find_Some in Ef as (Hi & Hn & _). apply (wf_names d Hwf p).
      * exists n, cs. split; [done|by eapply list_elem_of_lookup_2].
      * by exists n, cs.
      * unfold name_at in *. congruence.
    + apply list_find_None in Ef. rewrite Forall_forall in Ef. exfalso. by apply (Ef c Hc).
Qed.

Lemma child_none d p t c : wf d -> child d p t = None -> parent d p c -> name_at d c <> Some t.
Proof. intros Hwf Hn Hp Ht. assert (child d p t = Some c) by by apply child_spec. congruence. Qed.

Lemma locate_from_app d p ts us : locate_from d p (ts ++ us) = q ← locate_from d p ts; locate_from d q us.
Proof. revert p. induction ts as [|t ts IH]; intros p; [done|]. cbn. destruct (child d p t); [apply IH|done]. Qed.

Lemma locate_snoc d ts t : locate d (ts ++ [t]) = q ← locate d ts; child d q t.
Proof. unfold locate. rewrite locate_from_app. destruct (locate_from d _ ts) as [q|]; [|done]. cbn. by destruct (child d q t). Qed.

Lemma locate_snoc_inv d ts t c : locate d (ts ++ [t]) = Some c -> exists q, locate d ts = Some q /\ child d q t = Some c.
Proof. rewrite locate_snoc. destruct (locate d ts) as [q|]; [|done]. cbn. eauto. Qed.

Lemma locate_node d ts p : wf d -> locate d ts = Some p -> is_Some (nodes d !! p).
Proof.
  intros Hwf. destruct ts as [|t ts _] using rev_ind; intros E.
  - injection E as <-. destruct (wf_root d Hwf) as (n & cs & ->). by eexists.
  - apply locate_snoc_inv in E as (q & _ & E). apply child_spec in E as [Hp _]; [|done]. by apply (wf_children d Hwf) in Hp as [? _].
Qed.

(** A node has one path. *)
Lemma locate_inj d ts us p : wf d -> locate d ts = Some p -> locate d us = Some p -> ts = us.
Proof.
  intros Hwf. revert us p. induction ts as [|t ts IH] using rev_ind; intros us p Ht Hu.
  - destruct us as [|u us _] using rev_ind; [done|]. injection Ht as <-. apply locate_snoc_inv in Hu as (q & _ & Hc).
    apply child_spec in Hc as [Hp _]; [|done]. by apply (wf_children d Hwf) in Hp as [_ []].
  - apply locate_snoc_inv in Ht as (q & Hq & Hc). apply child_spec in Hc as [Hp Hn]; [|done].
    destruct us as [|u us _] using rev_ind.
    + injection Hu as <-. by apply (wf_children d Hwf) in Hp as [_ []].
    + apply locate_snoc_inv in Hu as (q' & Hq' & Hc'). apply child_spec in Hc' as [Hp' Hn']; [|done].
      assert (q = q') as <- by (by eapply (wf_parent d Hwf)). rewrite (IH us q Hq Hq'). congruence.
Qed.

(** ** The operations on the tree *)

Lemma getChildByName_ok d p n cs t :
  wf d -> nodes d !! p = Some (MemoryDirectoryNode n cs) -> getChildByName p t d = Ok (child d p t).
Proof.
  intros Hwf Hp. unfold getChildByName, child. assert (E : node_at p d = Ok (MemoryDirectoryNode n cs)) by (unfold node_at; by rewrite Hp). rewrite E, Hp, ok_bind.
  rewrite (findM_pure _ (fun c => bool_decide (getName <$> nodes d !! c = Some t))).
  - rewrite ok_bind. f_equal.
    transitivity (snd <$> list_find (fun c => bool_decide (getName <$> nodes d !! c = Some t) = true) cs).
    + destruct (list_find _ cs) as [[i c]|]; reflexivity.
    + f_equal. apply list_find_ext. intros c. apply bool_decide_eq_true.
  - intros c Hc. destruct (wf_children d Hwf p c) as [[nd Hnd] _]; [by exists n, cs|]. unfold node_at. rewrite Hnd. cbn. f_equal. apply bool_decide_ext.
    split; [by intros ->|by intros [= ->]].
Qed.

Definition is_dir (d : MemoryDriver) (p : Z) : Prop := exists n cs, nodes d !! p = Some (MemoryDirectoryNode n cs).

#[export] Instance is_dir_dec d p : Decision (is_dir d p).
Proof.
  destruct (nodes d !! p) as [[n cs| | | | |]|] eqn:E; try (right; intros (? & ? & H); congruence). left. by exists n, cs.
Defined.

Lemma getType_dir n : getType n = DIRECTORY <-> exists m cs, n = MemoryDirectoryNode m cs.
Proof. split; [destruct n; try done; eauto|by intros (? & ? & ->)]. Qed.

(** The loop over the directories finds the directory at the end of the path. *)
Lemma walk_ok d ts p :
  wf d -> is_dir d p -> exists r, walk ts p d = Ok r /\ forall q, r = Some q <-> locate_from d p ts = Some q /\ is_dir d q.
Proof.
  intros Hwf. revert p. induction ts as [|t ts IH]; intros p Hp; cbn [walk locate_from].
  - exists (Some p). split; [done|]. intros q. split; [by intros [= <-]|by intros [? _]].
  - destruct Hp as (n & cs & Hp). rewrite (getChildByName_ok d p n cs t Hwf Hp), ok_bind. destruct (child d p t) as [c|] eqn:Ec.
    2:{ exists None. split; [done|]. intros q. split; [done|by intros [[=] _]]. }
    apply child_spec in Ec as [Hpc _]; [|done]. destruct (wf_children d Hwf p c Hpc) as [[nd Hnd] _]. unfold node_at. rewrite Hnd. cbn [of_option]. rewrite ok_bind.
    destruct (decide (getType nd = DIRECTORY)) as [Ht|Ht].
    + apply IH. apply getType_dir in Ht as (? & ? & ->). by eexists _, _.
    + exists None. split; [done|]. intros q. split; [done|]. intros [Hq Hdq]. exfalso. apply Ht. apply getType_dir. cbn in Hq.
      destruct ts as [|u ts]; cbn in Hq; [destruct Hdq as (m' & ds' & Hq'); exists m', ds'; congruence|].
      unfold child in Hq. rewrite Hnd in Hq. by destruct nd.
Qed.

Lemma last_token_ok ts : ts <> [] -> exists init t, ts = init ++ [t] /\ removelast ts = init /\ last_token ts = Ok t.
Proof.
  intros Hne. destruct ts as [|t init _] using rev_ind; [done|]. exists init, t. split_and!; [done|apply removelast_last|]. unfold last_token. by rewrite last_snoc.
Qed.

Lemma tokens_nil_path path : tokens slash path <> [] -> zlen path =? 0 = false /\ (zlen (tokens slash path) =? 0) = false.
Proof.
  intros Hne. split; apply Z.eqb_neq; unfold zlen; [destruct path; [done|cbn; lia]|]. destruct (tokens slash path); [done|cbn; lia].
Qed.

Lemma getNode_ok d path : wf d -> getNode path d = Ok (locate d (tokens slash path)).
Proof.
  intros Hwf. unfold getNode. destruct (decide (tokens slash path = [])) as [E|E].
  - rewrite E. by destruct (zlen path =? 0).
  - destruct (tokens_nil_path path E) as [-> ->]. destruct (last_token_ok _ E) as (init & t & -> & -> & ->).
    destruct (walk_ok d init (rootNode d) Hwf (wf_root d Hwf)) as (r & -> & Hr). rewrite ok_bind, locate_snoc. fold (locate d init) in Hr. destruct r as [q|].
    + destruct (proj1 (Hr q) eq_refl) as [-> (n & cs & Hq)]. rewrite ok_bind. by apply (getChildByName_ok d q n cs).
    + destruct (locate d init) as [q|] eqn:El; [|done]. cbn. unfold child. destruct (nodes d !! q) as [[n cs| | | | |]|] eqn:Eq; try done.
      exfalso. assert (None = Some q) by (apply Hr; split; [done|by eexists _, _]). done.
Qed.

(** ** Adding and removing a node *)

(** The tree without addresses: what a path leads to, with the children of a directory left out. *)
Definition strip (n : Node) : Node := match n with MemoryDirectoryNode name _ => MemoryDirectoryNode name [] | _ => n end.
Definition view (d : MemoryDriver) (ts : list (list Z)) : option Node := p ← locate d ts; strip <$> nodes d !! p.

Lemma view_locate d ts : wf d -> view d ts = None <-> locate d ts = None.
Proof.
  intros Hwf. unfold view. destruct (locate d ts) as [p|] eqn:E; [|done]. cbn. split; [|done].
  destruct (locate_node d ts p Hwf E) as [n ->]. done.
Qed.

Lemma view_dir d ts : (exists n, view d ts = Some (MemoryDirectoryNode n [])) <-> exists p, locate d ts = Some p /\ is_dir d p.
Proof.
  unfold view, is_dir. destruct (locate d ts) as [p|]; cbn; [|split; [by intros (? & ?)|by intros (? & ? & ?)]]. split.
  - destruct (nodes d !! p) as [[n cs| | | | |]|] eqn:E; intros (m & Hm); try done. exists p. split; [done|]. by exists n, cs.
  - intros (q & [= <-] & n & cs & ->). by exists n.
Qed.

(** Two trees that differ only in the child [name] of the directory at [init] differ only in the paths through that child. *)
Section update.
  Context (d d' : MemoryDriver) (init : list (list Z)) (name : list Z) (dir : Z) (Hwf : wf d) (Hroot : rootNode d' = rootNode d).
  Context (Hdir : locate d init = Some dir).
  Context (Hchild : forall q t, is_Some (nodes d !! q) -> ~ (q = dir /\ t = name) -> child d' q t = child d q t).

Lemma locate_other us : ~ (init ++ [name]) `prefix_of` us -> locate d' us = locate d us.
Proof.
  induction us as [|t us IH] using rev_ind; intros Hp; [unfold locate; cbn; by rewrite Hroot|].
  rewrite !locate_snoc, IH by (intros Hp'; apply Hp; by apply prefix_app_r). destruct (locate d us) as [q|] eqn:Eq; [|done]. cbn.
  apply Hchild; [by eapply locate_node|]. intros [-> ->]. apply Hp. by rewrite (locate_inj d us init dir Hwf Eq Hdir).
Qed.

Lemma locate_dir : locate d' init = Some dir.
Proof.
  rewrite locate_other; [done|]. intros Hp. apply prefix_length in Hp. rewrite length_app in Hp. cbn in Hp. lia.
Qed.

Lemma locate_changed : locate d' (init ++ [name]) = child d' dir name.
Proof. rewrite locate_snoc, locate_dir. done. Qed.

Lemma locate_below rest : (forall p, child d' dir name = Some p -> forall t, child d' p t = None) -> rest <> [] -> locate d' ((init ++ [name]) ++ rest) = None.
Proof.
  intros Hn Hr. destruct rest as [|t rest]; [done|]. unfold locate. rewrite locate_from_app. fold (locate d' (init ++ [name])). rewrite locate_changed.
  destruct (child d' dir name) as [p|] eqn:E; [|done]. cbn. by rewrite (Hn p eq_refl t).
Qed.
End update.

(** [n] becomes the last child of the directory [dir]. *)
Definition attached (d : MemoryDriver) (dir : Z) (m : list Z) (cs : list Z) (n : Node) : MemoryDriver :=
  mk (<[dir := MemoryDirectoryNode m (cs ++ [nextAddress d])]> (<[nextAddress d := n]> (nodes d))) (rootNode d) (nextAddress d + 1).

(** The child [c] leaves the directory [dir]. *)
Definition detached (d : MemoryDriver) (dir : Z) (m : list Z) (cs : list Z) (c : Z) : MemoryDriver :=
  mk (delete c (<[dir := MemoryDirectoryNode m (filter (.≠ c) cs)]> (nodes d))) (rootNode d) (nextAddress d).

Section attach.
  Context (d : MemoryDriver) (dir : Z) (m cs : list Z) (n : Node) (Hwf : wf d) (Hdir : nodes d !! dir = Some (MemoryDirectoryNode m cs)).
  Context (Hleaf : strip n = n) (Hfile : file_ok n) (Hfree : child d dir (getName n) = None).
  Notation nx := (nextAddress d).
  Notation d' := (attached d dir m cs n).

Lemma next_fresh : nodes d !! nx = None.
Proof. destruct (nodes d !! nx) eqn:E; [|done]. assert (nx < nx) by (apply (wf_next d Hwf); by eexists). lia. Qed.

Lemma attached_ne : nx <> dir.
Proof. intros E. rewrite <- E, next_fresh in Hdir. done. Qed.

Lemma attached_old q : q <> dir -> q <> nx -> nodes d' !! q = nodes d !! q.
Proof. intros H1 H2. cbn. by rewrite !lookup_insert_ne. Qed.

Lemma attached_dir : nodes d' !! dir = Some (MemoryDirectoryNode m (cs ++ [nx])).
Proof. cbn. by rewrite lookup_insert_eq. Qed.

Lemma attached_new : nodes d' !! nx = Some n.
Proof. cbn. pose proof attached_ne. rewrite lookup_insert_ne by done. by rewrite lookup_insert_eq. Qed.

Lemma attached_name c : c <> nx -> name_at d' c = name_at d c.
Proof.
  intros Hc. unfold name_at. destruct (decide (c = dir)) as [->|Hd]; [by rewrite attached_dir, Hdir|by rewrite attached_old].
Qed.

Lemma attached_parent p c : parent d' p c <-> (p = dir /\ c = nx) \/ parent d p c.
Proof.
  unfold parent. destruct (decide (p = dir)) as [->|Hd].
  - rewrite attached_dir, Hdir. split.
    + intros (n' & cs' & [= <- <-] & Hin). apply elem_of_app in Hin as [Hin|Hin%list_elem_of_singleton]; [right; by exists m, cs|by left].
    + intros [[_ ->]|(n' & cs' & [= <- <-] & Hin)]; exists m, (cs ++ [nx]); (split; [done|]); apply elem_of_app; [right; by apply list_elem_of_singleton|by left].
  - destruct (decide (p = nx)) as [->|Hn].
    + rewrite attached_new, next_fresh. split; [|by intros [[]|(?&?&?&?)]]. intros (n' & cs' & [= ->] & Hin). cbn in Hleaf. injection Hleaf as <-. by apply not_elem_of_nil in Hin.
    + rewrite attached_old by done. split; [by right|by intros [[]|?]].
Qed.

Lemma old_child p c : parent d p c -> c <> nx.
Proof. intros Hp ->. apply (wf_children d Hwf) in Hp as [[? H] _]. by rewrite next_fresh in H. Qed.

Lemma old_parent p c : parent d p c -> p <> nx.
Proof. intros Hp ->. destruct Hp as (n' & cs' & Hp & _). by rewrite next_fresh in Hp. Qed.

Lemma attached_wf : wf d'.
Proof.
  split.
  - cbn [rootNode attached]. destruct (wf_root d Hwf) as (rn & rcs & Hr). destruct (decide (rootNode d = dir)) as [->|Hd]; [by eexists _, _; apply attached_dir|].
    exists rn, rcs. rewrite attached_old; [done|done|]. intros E. rewrite E, next_fresh in Hr. done.
  - intros p c [[-> ->]|Hp]%attached_parent.
    + rewrite attached_new. split; [by eexists|]. intros E. destruct (wf_root d Hwf) as (rn & rcs & Hr). change (rootNode d') with (rootNode d) in E. rewrite <- E, next_fresh in Hr. done.
    + destruct (wf_children d Hwf p c Hp) as [[nd Hnd] Hr]. split; [|done]. destruct (decide (c = dir)) as [->|Hd]; [by eexists; apply attached_dir|].
      exists nd. rewrite attached_old; [done|done|by eapply old_child].
  - intros p c1 c2 [[-> ->]|H1]%attached_parent [[E ->]|H2]%attached_parent Hn; [done| | |].
    + exfalso. rewrite (attached_name c2) in Hn by (by eapply old_child). apply (child_none d dir (getName n) c2 Hwf Hfree H2). rewrite <- Hn. unfold name_at. by rewrite attached_new.
    + subst p. exfalso. rewrite (attached_name c1) in Hn by (by eapply old_child). apply (child_none d dir (getName n) c1 Hwf Hfree H1). rewrite Hn. unfold name_at. by rewrite attached_new.
    + rewrite !attached_name in Hn by (by eapply old_child). by apply (wf_names d Hwf p).
  - intros p n' cs' Hp. destruct (decide (p = dir)) as [->|Hd].
    + rewrite attached_dir in Hp. injection Hp as <- <-. apply NoDup_app. split_and!; [by eapply (wf_nodup d Hwf)| |apply NoDup_singleton].
      intros c Hc ->%list_elem_of_singleton. apply (old_child dir nx); [by exists m, cs|done].
    + destruct (decide (p = nx)) as [->|Hx]; [|rewrite attached_old in Hp by done; by eapply (wf_nodup d Hwf)].
      rewrite attached_new in Hp. injection Hp as ->. cbn in Hleaf. injection Hleaf as <-. constructor.
  - intros p q c [[-> ->]|Hp]%attached_parent [[-> E]|Hq]%attached_parent; [done| | |by eapply (wf_parent d Hwf)].
    + by apply old_child in Hq.
    + subst c. by apply old_child in Hp.
  - intros p [nd Hnd]. cbn [nextAddress attached]. destruct (decide (p = nx)) as [->|Hx]; [lia|]. assert (p < nx); [|lia]. apply (wf_next d Hwf).
    destruct (decide (p = dir)) as [->|Hd]; [by eexists|]. rewrite attached_old in Hnd by done. by eexists.
  - intros p nd Hnd. destruct (decide (p = nx)) as [->|Hx]; [rewrite attached_new in Hnd; by injection Hnd as <-|].
    destruct (decide (p = dir)) as [->|Hd]; [rewrite attached_dir in Hnd; by injection Hnd as <-|]. rewrite attached_old in Hnd by done. by eapply (wf_files d Hwf).
Qed.

Lemma attached_child : child d' dir (getName n) = Some nx.
Proof. apply child_spec; [apply attached_wf|]. split; [apply attached_parent; by left|]. unfold name_at. by rewrite attached_new. Qed.

Lemma attached_child_old q t : is_Some (nodes d !! q) -> ~ (q = dir /\ t = getName n) -> child d' q t = child d q t.
Proof.
  intros Hq Hne. apply option_eq. intros c. rewrite (child_spec d q t c Hwf), (child_spec d' q t c attached_wf), attached_parent. split.
  - intros [[[-> ->]|Hp] Hn]; [|split; [done|]; rewrite attached_name in Hn; [done|by eapply old_child]].
    exfalso. apply Hne. split; [done|]. unfold name_at in Hn. rewrite attached_new in Hn. by injection Hn.
  - intros [Hp Hn]. split; [by right|]. rewrite attached_name; [done|by eapply old_child].
Qed.

Lemma attached_leaf t : child d' nx t = None.
Proof.
  destruct (child d' nx t) as [c|] eqn:E; [|done]. apply child_spec in E as [[[E _]|Hp]%attached_parent _]; [by apply attached_ne in E| |apply attached_wf].
  by apply old_parent in Hp.
Qed.
End attach.

Section detach.
  Context (d : MemoryDriver) (dir : Z) (m cs : list Z) (c : Z) (Hwf : wf d) (Hdir : nodes d !! dir = Some (MemoryDirectoryNode m cs)).
  Context (Hin : c ∈ cs) (Hempty : forall x, ~ parent d c x).
  Notation d' := (detached d dir m cs c).

Lemma detached_child_of : parent d dir c.
Proof. by exists m, cs. Qed.

Lemma detached_ne : c <> dir.
Proof. intros E. pose proof detached_child_of as Hp. rewrite <- E in Hp. by apply Hempty in Hp. Qed.

Lemma detached_old q : q <> dir -> q <> c -> nodes d' !! q = nodes d !! q.
Proof. intros H1 H2. cbn. rewrite lookup_delete_ne by done. by rewrite lookup_insert_ne. Qed.

Lemma detached_dir : nodes d' !! dir = Some (MemoryDirectoryNode m (filter (.≠ c) cs)).
Proof. cbn. rewrite lookup_delete_ne by apply detached_ne. by rewrite lookup_insert_eq. Qed.

Lemma detached_gone : nodes d' !! c = None.
Proof. cbn. by rewrite lookup_delete_eq. Qed.

Lemma detached_name x : x <> c -> name_at d' x = name_at d x.
Proof.
  intros Hx. unfold name_at. destruct (decide (x = dir)) as [->|Hd]; [by rewrite detached_dir, Hdir|by rewrite detached_old].
Qed.

Lemma detached_parent p x : parent d' p x <-> parent d p x /\ x <> c.
Proof.
  destruct (decide (p = c)) as [->|Hc].
  - split; [intros (? & ? & H & _); by rewrite detached_gone in H|intros [[]%Hempty _]].
  - unfold parent. destruct (decide (p = dir)) as [->|Hd].
    + rewrite detached_dir, Hdir. split.
      * intros (n' & cs' & [= <- <-] & Hx). apply list_elem_of_filter in Hx as [? ?]. split; [by exists m, cs|done].
      * intros [(n' & cs' & [= <- <-] & Hx) ?]. eexists m, _. split; [done|]. by apply list_elem_of_filter.
    + rewrite detached_old by done. split; [|by intros [? _]]. intros Hp. split; [done|]. intros ->. apply Hd. by apply (wf_parent d Hwf p dir c Hp), detached_child_of.
Qed.

Lemma detached_some q : is_Some (nodes d !! q) -> q <> c -> is_Some (nodes d' !! q).
Proof. intros Hq Hc. destruct (decide (q = dir)) as [->|Hd]; [by eexists; apply detached_dir|by rewrite detached_old]. Qed.

Lemma detached_wf : wf d'.
Proof.
  assert (Hroot : rootNode d <> c) by (intros E; by destruct (wf_children d Hwf dir c detached_child_of) as [_ []]).
  split.
  - cbn [rootNode detached]. destruct (wf_root d Hwf) as (rn & rcs & Hr). destruct (decide (rootNode d = dir)) as [->|Hd]; [by eexists _, _; apply detached_dir|].
    exists rn, rcs. by rewrite detached_old.
  - intros p x [Hp Hx]%detached_parent. destruct (wf_children d Hwf p x Hp) as [Hs Hr]. split; [by apply detached_some|done].
  - intros p c1 c2 [H1 Hc1]%detached_parent [H2 Hc2]%detached_parent Hn. rewrite !detached_name in Hn by done. by apply (wf_names d Hwf p).
  - intros p n' cs' Hp. destruct (decide (p = dir)) as [->|Hd].
    + rewrite detached_dir in Hp. injection Hp as <- <-. apply NoDup_filter. by eapply (wf_nodup d Hwf).
    + destruct (decide (p = c)) as [->|Hx]; [by rewrite detached_gone in Hp|]. rewrite detached_old in Hp by done. by eapply (wf_nodup d Hwf).
  - intros p q x [Hp _]%detached_parent [Hq _]%detached_parent. by eapply (wf_parent d Hwf).
  - intros p [nd Hnd]. apply (wf_next d Hwf). destruct (decide (p = c)) as [->|Hc]; [by rewrite detached_gone in Hnd|].
    destruct (decide (p = dir)) as [->|Hd]; [by eexists|]. rewrite detached_old in Hnd by done. by eexists.
  - intros p nd Hnd. destruct (decide (p = c)) as [->|Hc]; [by rewrite detached_gone in Hnd|].
    destruct (decide (p = dir)) as [->|Hd]; [rewrite detached_dir in Hnd; by injection Hnd as <-|]. rewrite detached_old in Hnd by done. by eapply (wf_files d Hwf).
Qed.

Lemma detached_child t : name_at d c = Some t -> child d' dir t = None.
Proof.
  intros Ht. destruct (child d' dir t) as [x|] eqn:E; [|done]. apply (child_spec d' dir t x detached_wf) in E as [[Hp Hx]%detached_parent Hn].
  rewrite detached_name in Hn by done. exfalso. apply Hx. apply (wf_names d Hwf dir x c Hp detached_child_of). congruence.
Qed.

Lemma detached_child_old q t : name_at d c <> Some t \/ q <> dir -> child d' q t = child d q t.
Proof.
  intros Hne. apply option_eq. intros x. rewrite (child_spec d q t x Hwf), (child_spec d' q t x detached_wf), detached_parent. split.
  - intros [[Hp Hx] Hn]. by rewrite detached_name in Hn.
  - intros [Hp Hn]. assert (x <> c) as Hx; [|by rewrite detached_name]. intros ->. destruct Hne as [?|Hq]; [done|].
    apply Hq. by apply (wf_parent d Hwf q dir c Hp), detached_child_of.
Qed.
End detach.

(** ** What the operations do to the tree *)

Lemma view_below d ts rest : wf d -> view d ts = None -> view d (ts ++ rest) = None.
Proof.
  intros Hwf Hv. apply view_locate; [done|]. apply view_locate in Hv; [|done]. unfold locate in *. by rewrite locate_from_app, Hv.
Qed.

Lemma attached_view d init dir m cs n us :
  wf d -> locate d init = Some dir -> nodes d !! dir = Some (MemoryDirectoryNode m cs) -> strip n = n -> file_ok n -> child d dir (getName n) = None ->
  view (attached d dir m cs n) us = if decide (us = init ++ [getName n]) then Some n else view d us.
Proof.
  intros Hwf Hl Hd Hs Hk Hf. set (d' := attached d dir m cs n). pose proof (attached_child_old d dir m cs n Hwf Hd Hs Hk Hf) as Hold.
  destruct (decide ((init ++ [getName n]) `prefix_of` us)) as [[rest ->]|Hp].
  - destruct (decide (rest = [])) as [->|Hr].
    + rewrite app_nil_r, decide_True by done. unfold view. rewrite (locate_changed d d' init _ dir) by done. unfold d'. rewrite attached_child by done. cbn [mbind option_bind].
      rewrite (attached_new d dir m cs n) by done. cbn. by rewrite Hs.
    + rewrite decide_False by (intros E; apply Hr; by rewrite <- (app_nil_r (init ++ _)) in E at 2; apply app_inv_head in E).
      assert (Hn : view d ((init ++ [getName n]) ++ rest) = None).
      { apply view_below; [done|]. apply view_locate; [done|]. by rewrite locate_snoc, Hl. }
      rewrite Hn. apply view_locate; [by apply attached_wf|]. apply (locate_below d d' init _ dir); try done.
      unfold d'. rewrite attached_child by done. intros p [= <-] t. by apply attached_leaf.
  - rewrite decide_False by (intros ->; by apply Hp). unfold view. rewrite (locate_other d d' init (getName n) dir) by done.
    destruct (locate d us) as [p|] eqn:E; [|done]. cbn [mbind option_bind]. destruct (decide (p = dir)) as [->|Hpd]; [unfold d'; by rewrite attached_dir, Hd|].
    unfold d'. rewrite attached_old; [done|done|]. intros ->. destruct (locate_node d us _ Hwf E) as [? H]. by rewrite next_fresh in H.
Qed.

Lemma detached_view d init dir m cs c nd us :
  wf d -> locate d init = Some dir -> nodes d !! dir = Some (MemoryDirectoryNode m cs) -> c ∈ cs -> nodes d !! c = Some nd -> (forall x, ~ parent d c x) ->
  view (detached d dir m cs c) us = if decide (us = init ++ [getName nd]) then None else view d us.
Proof.
  intros Hwf Hl Hd Hin Hc He. set (d' := detached d dir m cs c). assert (Hname : name_at d c = Some (getName nd)) by (unfold name_at; by rewrite Hc).
  assert (Hchild : child d dir (getName nd) = Some c) by (apply child_spec; [done|]; split; [by exists m, cs|done]).
  assert (Hold : forall q t, is_Some (nodes d !! q) -> ~ (q = dir /\ t = getName nd) -> child d' q t = child d q t).
  { intros q t _ Hne. apply detached_child_old; try done. destruct (decide (q = dir)) as [->|]; [left|by right]. rewrite Hname. intros [= <-]. by apply Hne. }
  assert (Hgone : child d' dir (getName nd) = None) by by apply detached_child.
  assert (Hwf' : wf d') by by apply detached_wf.
  destruct (decide ((init ++ [getName nd]) `prefix_of` us)) as [[rest ->]|Hp].
  - assert (Hn : view d' (init ++ [getName nd]) = None) by (apply view_locate; [done|]; by rewrite (locate_changed d d' init _ dir)).
    rewrite (view_below d' _ rest Hwf' Hn). destruct (decide (rest = [])) as [->|Hr]; [by rewrite app_nil_r, decide_True by done|].
    rewrite decide_False by (intros E; apply Hr; by rewrite <- (app_nil_r (init ++ _)) in E at 2; apply app_inv_head in E).
    symmetry. apply view_locate; [done|]. destruct rest as [|t rest]; [done|]. unfold locate. rewrite locate_from_app. fold (locate d (init ++ [getName nd])).
    rewrite locate_snoc, Hl. cbn. rewrite Hchild. cbn. destruct (child d c t) as [x|] eqn:E; [|done]. apply child_spec in E as [[]%He _]. done.
  - rewrite decide_False by (intros ->; by apply Hp). unfold view. rewrite (locate_other d d' init (getName nd) dir) by done.
    destruct (locate d us) as [p|] eqn:E; [|done]. cbn [mbind option_bind]. destruct (decide (p = dir)) as [->|Hpd]; [unfold d'; by rewrite detached_dir, Hd|].
    unfold d'. rewrite detached_old; [done|done|]. intros ->. apply Hp. rewrite (locate_inj d us (init ++ [getName nd]) c Hwf E); [done|]. by rewrite locate_snoc, Hl.
Qed.

(** The node that [createNode] makes. *)
Definition fresh_node (type : FileType) (name : list Z) : Node :=
  if decide (type = DIRECTORY) then MemoryDirectoryNode name [] else MemoryFileNode name [] 0.

Lemma fresh_node_name type name : getName (fresh_node type name) = name /\ strip (fresh_node type name) = fresh_node type name /\ file_ok (fresh_node type name).
Proof. unfold fresh_node. by case_decide. Qed.

Lemma addChild_attached d dir m cs n :
  wf d -> nodes d !! dir = Some (MemoryDirectoryNode m cs) ->
  addChild dir (nextAddress d) (snd (new_node n d)) = Ok (attached d dir m cs n).
Proof.
  intros Hwf Hd. unfold addChild, new_node, node_at. cbn [snd nodes]. pose proof (attached_ne d dir m cs Hwf Hd) as Hne.
  rewrite lookup_insert_ne by done. rewrite Hd. cbn [of_option]. by rewrite ok_bind.
Qed.

Lemma attach_ok d init dir m cs n :
  wf d -> locate d init = Some dir -> nodes d !! dir = Some (MemoryDirectoryNode m cs) -> strip n = n -> file_ok n -> child d dir (getName n) = None ->
  exists d', addChild dir (nextAddress d) (snd (new_node n d)) = Ok d' /\ wf d' /\
    forall us, view d' us = if decide (us = init ++ [getName n]) then Some n else view d us.
Proof.
  intros Hwf Hl Hd Hs Hk Hf. exists (attached d dir m cs n). split_and!; [by apply addChild_attached|by apply attached_wf|].
  intros us. by apply attached_view.
Qed.

(** An operation that returns [b] has the effect [f] on the tree if [b] is [true] and none otherwise. *)
Definition effect (d : MemoryDriver) (r : outcome (bool * MemoryDriver)) (guard : Prop) (ts : list (list Z)) (v : option Node) : Prop :=
  exists b d', r = Ok (b, d') /\ wf d' /\ (b = true <-> guard) /\
    forall us, view d' us = if (b : bool) then (if decide (us = ts) then v else view d us) else view d us.

Lemma no_effect d guard ts v : wf d -> ~ guard -> effect d (Ok (false, d)) guard ts v.
Proof. intros Hwf Hg. exists false, d. by split_and!. Qed.

Lemma split_tokens path init name :
  tokens slash path = init ++ [name] -> (zlen (tokens slash path) =? 0) = false /\ removelast (tokens slash path) = init /\ last_token (tokens slash path) = Ok name.
Proof.
  intros E. rewrite E. split_and!; [apply Z.eqb_neq; unfold zlen; rewrite length_app; cbn; lia|apply removelast_last|unfold last_token; by rewrite last_snoc].
Qed.

Lemma dir_view d init q : locate d init = Some q -> (exists m, view d init = Some (MemoryDirectoryNode m [])) <-> is_dir d q.
Proof. intros Hl. rewrite view_dir, Hl. split; [by intros (? & [= <-] & ?)|by exists q]. Qed.

(** The end of [createNode] and [addNode]: [n] is added to the directory at [init] unless it has a child of that name. *)
Lemma insert_ok d init n name :
  wf d -> strip n = n -> file_ok n -> getName n = name ->
  effect d (r ← walk init (rootNode d) d;
            match r with
            | None => Ok (false, d)
            | Some currentDir =>
              r ← getChildByName currentDir name d;
              match r with
              | Some _ => Ok (false, d)
              | None => let '(p, d) := new_node n d in d ← addChild currentDir p d; Ok (true, d)
              end
            end)
    (view d (init ++ [name]) = None /\ exists m, view d init = Some (MemoryDirectoryNode m [])) (init ++ [name]) (Some n).
Proof.
  intros Hwf Hs Hk <-. destruct (walk_ok d init (rootNode d) Hwf (wf_root d Hwf)) as (r & -> & Hr). rewrite ok_bind. fold (locate d init) in Hr. destruct r as [q|].
  2:{ apply no_effect; [done|]. intros [_ (p & Hp)%view_dir]. by apply Hr in Hp. }
  destruct (proj1 (Hr q) eq_refl) as [Hl (m & cs & Hq)]. rewrite (getChildByName_ok d q m cs _ Hwf Hq), ok_bind.
  destruct (child d q (getName n)) as [c|] eqn:Ec.
  { apply no_effect; [done|]. intros [Hv _]. apply view_locate in Hv; [|done]. rewrite locate_snoc, Hl in Hv. cbn in Hv. congruence. }
  destruct (attach_ok d init q m cs n) as (d' & Ha & Hwf' & Hv); [done..|].
  rewrite (surjective_pairing (new_node _ d)). change (fst (new_node _ d)) with (nextAddress d). rewrite Ha, ok_bind.
  exists true, d'. split_and!; [done|done| |done]. split; [|done]. intros _. split.
  - apply view_locate; [done|]. by rewrite locate_snoc, Hl.
  - apply (dir_view d init q Hl). by exists m, cs.
Qed.

Lemma createNode_ok d path init name type :
  wf d -> tokens slash path = init ++ [name] -> type = DIRECTORY \/ type = REGULAR ->
  effect d (createNode path type d) (view d (init ++ [name]) = None /\ exists m, view d init = Some (MemoryDirectoryNode m []))
    (init ++ [name]) (Some (fresh_node type name)).
Proof.
  intros Hwf Hts Hty. unfold createNode. rewrite decide_False by (destruct Hty as [-> | ->]; by intros [? ?]).
  destruct (split_tokens path init name Hts) as (-> & -> & ->). rewrite andb_false_r.
  destruct (fresh_node_name type name) as (Hn & Hs & Hk). exact (insert_ok d init _ name Hwf Hs Hk Hn).
Qed.

Lemma addNode_ok d path n :
  wf d -> strip n = n -> file_ok n ->
  effect d (addNode path n d) (view d (tokens slash path ++ [getName n]) = None /\ exists m, view d (tokens slash path) = Some (MemoryDirectoryNode m []))
    (tokens slash path ++ [getName n]) (Some n).
Proof. intros Hwf Hs Hk. by apply insert_ok. Qed.

Lemma names_of_length d cs : (forall c, c ∈ cs -> is_Some (nodes d !! c)) -> exists l, names_of cs d = Ok l /\ length l = length cs.
Proof.
  induction cs as [|c cs IH]; intros Hc; cbn [names_of]; [by exists []|]. destruct (Hc c) as [n Hn]; [by left|]. unfold node_at. rewrite Hn. cbn [of_option].
  rewrite ok_bind. destruct IH as (l & -> & Hl); [intros; apply Hc; by right|]. rewrite ok_bind. exists (getName n :: l). split; [done|cbn; lia].
Qed.

(** A node has no children in [getChildren] exactly when no path goes on behind it. *)
Lemma getChildren_ok d p n :
  wf d -> nodes d !! p = Some n -> exists l, getChildren n d = Ok l /\ ((0 <? zlen l) = false <-> forall x, ~ parent d p x).
Proof.
  intros Hwf Hp. destruct n as [m cs| | | | |]; cbn [getChildren]; try (exists []; split; [done|]; split; [|done]; intros _ x (? & ? & H & _); congruence).
  destruct (names_of_length d cs) as (l & Hl & Hlen); [intros c Hc; apply (wf_children d Hwf p c); by exists m, cs|]. exists l. split; [done|].
  unfold zlen. rewrite Hlen. destruct cs as [|c cs].
  - split; [|done]. intros _ x (? & ? & H & Hx). rewrite Hp in H. injection H as <- <-. by apply not_elem_of_nil in Hx.
  - split; [intros H; exfalso; apply Z.ltb_ge in H; cbn [length] in H; lia|]. intros H. exfalso. apply (H c). exists m, (c :: cs). split; [done|by left].
Qed.

Lemma list_filter_all {A} (P : A -> Prop) `{!forall x, Decision (P x)} l : Forall P l -> filter P l = l.
Proof. induction 1 as [|x l Hx _ IH]; [done|]. by rewrite filter_cons_True, IH. Qed.

Lemma remove_filter (l : list Z) (p : Z) :
  NoDup l -> exists b, removeM (fun c => Ok (c =? p)) l = Ok (b, filter (.≠ p) l).
Proof.
  intros Hnd. unfold removeM. rewrite (findM_pure _ (fun c => c =? p)) by done. rewrite ok_bind. destruct (list_find _ l) as [[i x]|] eqn:E.
  - apply list_find_Some in E as (Hi & Hx & _). apply Z.eqb_eq in Hx as ->. exists true. do 2 f_equal.
    rewrite delete_take_drop. rewrite <- (take_drop_middle l i p Hi) in Hnd |- * at 3. rewrite filter_app, filter_cons_False by (intros H; by apply H).
    apply NoDup_app in Hnd as (_ & H1 & H2). apply NoDup_cons in H2 as [H2 _].
    rewrite !list_filter_all; [done| |]; apply Forall_forall; intros y Hy ->; [done|]. apply (H1 p Hy). by left.
  - apply list_find_None in E. exists false. do 2 f_equal. rewrite list_filter_all; [done|]. eapply Forall_impl; [done|]. cbn. intros y Hy ->. apply Hy. by apply Z.eqb_eq.
Qed.

Lemma childless_view d ts c :
  wf d -> locate d ts = Some c -> (is_Some (view d ts) /\ forall t, view d (ts ++ [t]) = None) <-> forall x, ~ parent d c x.
Proof.
  intros Hwf Hloc. split.
  - intros [_ H] x Hx. destruct (wf_children d Hwf c x Hx) as [[nx Hnx] _]. specialize (H (getName nx)). apply view_locate in H; [|done].
    rewrite locate_snoc, Hloc in H. cbn in H. apply (child_none d c (getName nx) x Hwf H Hx). unfold name_at. by rewrite Hnx.
  - intros H. destruct (locate_node d ts c Hwf Hloc) as [nd Hnd]. split; [unfold view; rewrite Hloc; cbn; rewrite Hnd; by eexists|]. intros t. apply view_locate; [done|].
    rewrite locate_snoc, Hloc. cbn. destruct (child d c t) as [x|] eqn:E; [|done]. apply child_spec in E as [Hx _]; [by apply H in Hx|done].
Qed.

Lemma deleteNode_ok d path init name :
  wf d -> tokens slash path = init ++ [name] ->
  effect d (deleteNode path d) (is_Some (view d (init ++ [name])) /\ forall t, view d ((init ++ [name]) ++ [t]) = None) (init ++ [name]) None.
Proof.
  intros Hwf Hts. unfold deleteNode. destruct (split_tokens path init name Hts) as (-> & -> & ->). rewrite andb_false_r.
  destruct (walk_ok d init (rootNode d) Hwf (wf_root d Hwf)) as (r & -> & Hr). rewrite ok_bind. fold (locate d init) in Hr. destruct r as [q|].
  2:{ apply no_effect; [done|]. intros [[v Hv] _]. destruct (locate d (init ++ [name])) as [c|] eqn:E; [|apply view_locate in E; [congruence|done]].
      apply locate_snoc_inv in E as (q & Hq & (Hp & _)%child_spec); [|done]. destruct Hp as (m & cs & Hp & _). assert (None = Some q); [|done].
      apply Hr. split; [done|]. by exists m, cs. }
  destruct (proj1 (Hr q) eq_refl) as [Hl (m & cs & Hq)]. rewrite ok_bind, (getChildByName_ok d q m cs name Hwf Hq), ok_bind.
  assert (Hloc : locate d (init ++ [name]) = child d q name) by (by rewrite locate_snoc, Hl).
  destruct (child d q name) as [c|] eqn:Ec.
  2:{ apply no_effect; [done|]. intros [[v Hv] _]. apply view_locate in Hloc; [congruence|done]. }
  apply child_spec in Ec as [Hpar Hname]; [|done]. destruct (wf_children d Hwf q c Hpar) as [[nd Hnd] _]. unfold node_at. rewrite Hnd. cbn [of_option]. rewrite ok_bind.
  destruct (getChildren_ok d c nd Hwf Hnd) as (l & -> & Hcs). rewrite ok_bind.
  pose proof (childless_view d (init ++ [name]) c Hwf Hloc) as Hg.
  destruct (0 <? zlen l) eqn:El; [apply no_effect; [done|]; rewrite Hg, <- Hcs; done|].
  assert (He : forall x, ~ parent d c x) by by apply Hcs. destruct Hpar as (m' & cs' & Hq' & Hin). rewrite Hq in Hq'. injection Hq' as <- <-.
  unfold removeChild, node_at. rewrite Hq. cbn [of_option]. rewrite ok_bind. destruct (remove_filter cs c) as (b & ->); [by eapply (wf_nodup d Hwf)|]. rewrite !ok_bind.
  unfold name_at in Hname. rewrite Hnd in Hname. injection Hname as <-.
  exists true, (detached d q m cs c). split_and!; [done|by apply detached_wf|by rewrite Hg|]. intros us. by apply detached_view.
Qed.

(** ** The contents of a file *)

(** [l] written at [pos]: bytes between the old end and [pos] are zero. *)
Definition overwrite (old : list Z) (pos : Z) (l : list Z) : list Z :=
  take (Z.to_nat pos) (old ++ new_chars (pos - zlen old)) ++ l ++ drop (Z.to_nat (pos + zlen l)) old.

Lemma zlen_overwrite old pos l : 0 <= pos -> zlen (overwrite old pos l) = Z.max (zlen old) (pos + zlen l).
Proof.
  intros Hp. unfold overwrite, new_chars, zlen. rewrite !length_app, length_take, length_app, length_replicate, length_drop. lia.
Qed.

Lemma size_small z : 0 <= z < 2 ^ 32 -> u32 z = z /\ u64 z = z.
Proof. intros Hz. split; apply wrap_small; wrap_solve. Qed.

Lemma read_range_ok data target pos n :
  0 <= pos -> 0 <= n -> pos + n < 2 ^ 32 -> zlen data < 2 ^ 32 -> n <= zlen target ->
  let k := Z.max 0 (Z.min n (zlen data - pos)) in
  read_range data (zlen data) target pos n = Ok (k, take (Z.to_nat k) (drop (Z.to_nat pos) data) ++ drop (Z.to_nat k) target).
Proof.
  intros Hp Hn Hs Hd Ht k. unfold read_range. rewrite (proj2 (size_small (pos + n) ltac:(lia))). destruct (Z.leb_spec (zlen data) pos) as [Hl|Hl].
  - replace k with 0 by (unfold k; lia). done.
  - assert (Hk : (if zlen data <? pos + n then u64 (zlen data - pos) else n) = k).
    { unfold k. destruct (Z.ltb_spec (zlen data) (pos + n)); [rewrite (proj2 (size_small (zlen data - pos) ltac:(lia)))|]; lia. }
    rewrite Hk. assert (0 <= k <= n /\ k <= zlen data - pos) by (unfold k; lia). rewrite (proj1 (size_small k ltac:(lia))), (proj1 (size_small pos ltac:(lia))).
    rewrite copy_chars_ok by lia. rewrite ok_bind. change (Z.to_nat 0) with 0%nat. by rewrite take_0, app_nil_l.
Qed.

Lemma MemoryFileNode_writeData_ok data src pos n :
  0 <= pos -> 0 <= n <= zlen src -> pos + n < 2 ^ 32 -> zlen data < 2 ^ 32 ->
  let r := overwrite data pos (take (Z.to_nat n) src) in
  MemoryFileNode_writeData data (zlen data) src pos n = Ok (r, zlen r).
Proof.
  intros Hp Hn Hs Hd r. assert (Hl : zlen (take (Z.to_nat n) src) = n) by (unfold zlen in *; rewrite length_take; lia).
  unfold r. rewrite zlen_overwrite, Hl by done. unfold MemoryFileNode_writeData, overwrite. pose proof (zlen_nonneg data).
  destruct (size_small (pos + n)) as [Hw1 Hw2]; [lia|]. rewrite Hl, Hw2, (proj1 (size_small pos ltac:(lia))), (proj1 (size_small n ltac:(lia))). destruct (Z.leb_spec (zlen data) (pos + n)) as [Hg|Hg].
  - rewrite Hw1, (proj1 (size_small (zlen data) ltac:(lia))). rewrite copy_chars_ok by (rewrite ?zlen_new; lia). rewrite !ok_bind. change (Z.to_nat 0) with 0%nat.
    rewrite take_0, app_nil_l, drop_0, Z.add_0_l. unfold new_chars at 1. rewrite drop_replicate.
    assert (take (Z.to_nat (zlen data)) data = data) as -> by (apply take_ge; unfold zlen; lia).
    set (pad := replicate _ 0). assert (Hpad : zlen pad = pos + n - zlen data) by (unfold pad, zlen in *; rewrite length_replicate; lia).
    rewrite copy_chars_ok by (rewrite ?zlen_app; lia). rewrite ok_bind, drop_0. f_equal. f_equal; [|lia].
    assert (drop (Z.to_nat (pos + n)) (data ++ pad) = drop (Z.to_nat (pos + n)) data) as ->.
    { rewrite !drop_ge; [done|unfold zlen in *; lia|]. rewrite length_app. unfold zlen in *. lia. }
    f_equal. rewrite !take_app. f_equal. unfold pad, new_chars. rewrite !take_replicate. f_equal. unfold zlen in *. lia.
  - rewrite ok_bind. rewrite copy_chars_ok by lia. rewrite ok_bind, drop_0. f_equal. f_equal; [|lia].
    f_equal. rewrite take_app_le; [done|unfold zlen in *; lia].
Qed.

(** Writing to the file at [p] leaves the tree as it is. *)
Section contents.
  Context (d : MemoryDriver) (p : Z) (name data data' : list Z) (Hwf : wf d).
  Context (Hp : nodes d !! p = Some (MemoryFileNode name data (zlen data))).
  Notation d' := (set_nodes (<[p := MemoryFileNode name data' (zlen data')]> (nodes d)) d).

Lemma written_lookup q : nodes d' !! q = if decide (q = p) then Some (MemoryFileNode name data' (zlen data')) else nodes d !! q.
Proof. cbn. case_decide as E; [by rewrite E, lookup_insert_eq|by rewrite lookup_insert_ne]. Qed.

Lemma written_dir q n cs : nodes d' !! q = Some (MemoryDirectoryNode n cs) <-> nodes d !! q = Some (MemoryDirectoryNode n cs).
Proof. rewrite written_lookup. case_decide as E; [|done]. rewrite E, Hp. split; intros; discriminate. Qed.

Lemma written_parent q c : parent d' q c <-> parent d q c.
Proof. unfold parent. split; intros (n & cs & H & Hc); exists n, cs; (split; [by apply written_dir|done]). Qed.

Lemma written_name q : name_at d' q = name_at d q.
Proof. unfold name_at. rewrite written_lookup. case_decide as E; [by rewrite E, Hp|done]. Qed.

Lemma written_some q : is_Some (nodes d' !! q) <-> is_Some (nodes d !! q).
Proof. rewrite written_lookup. case_decide as E; [|done]. rewrite E, Hp. split; by eexists. Qed.

Lemma written_wf : wf d'.
Proof.
  split.
  - destruct (wf_root d Hwf) as (n & cs & Hr). exists n, cs. by apply written_dir.
  - intros q c Hq. rewrite written_some. apply (wf_children d Hwf q). by apply written_parent.
  - intros q c1 c2 H1 H2. rewrite !written_name. apply (wf_names d Hwf q); by apply written_parent.
  - intros q n cs Hq. eapply (wf_nodup d Hwf). by apply written_dir in Hq.
  - intros q1 q2 c H1 H2. apply (wf_parent d Hwf _ _ c); by apply written_parent.
  - intros q. rewrite written_some. apply (wf_next d Hwf).
  - intros q n. rewrite written_lookup. case_decide; [by intros [= <-]|apply (wf_files d Hwf)].
Qed.

Lemma written_locate us : locate d' us = locate d us.
Proof.
  induction us as [|t us IH] using rev_ind; [done|]. rewrite !locate_snoc, IH. destruct (locate d us) as [q|]; [|done]. cbn [mbind option_bind].
  apply option_eq. intros c. rewrite (child_spec d' q t c written_wf), (child_spec d q t c Hwf). by rewrite written_parent, written_name.
Qed.

Lemma written_view ts us :
  locate d ts = Some p -> view d' us = if decide (us = ts) then Some (MemoryFileNode name data' (zlen data')) else view d us.
Proof.
  intros Hts. unfold view. rewrite written_locate. case_decide as E; [rewrite E, Hts; cbn [mbind option_bind]; by rewrite written_lookup, decide_True|].
  destruct (locate d us) as [q|] eqn:Eq; [|done]. cbn [mbind option_bind]. rewrite written_lookup, decide_False; [done|]. intros ->.
  apply E. by apply (locate_inj d us ts p).
Qed.
End contents.

(** ** Theorems *)

Lemma driver_new_wf : wf MemoryDriver_new.
Proof.
  assert (H : forall p n, nodes MemoryDriver_new !! p = Some n -> p = 1 /\ n = MemoryDirectoryNode [] []).
  { cbn. intros p n Hp. by apply lookup_singleton_Some in Hp as [<- <-]. }
  assert (Hn : forall p c, ~ parent MemoryDriver_new p c).
  { intros p c (n & cs & Hp & Hc). apply H in Hp as [_ [= -> ->]]. by apply not_elem_of_nil in Hc. }
  split.
  - by exists [], [].
  - by intros p c Hp%Hn.
  - by intros p c1 c2 Hp%Hn.
  - intros p n cs Hp. apply H in Hp as [_ [= -> ->]]. constructor.
  - by intros p q c Hp%Hn.
  - intros p [n Hp]. apply H in Hp as [-> _]. done.
  - intros p n Hp. by apply H in Hp as [_ ->].
Qed.

Lemma writeData_ok n src pos k r n' :
  writeData n src pos k = Ok (r, n') -> file_ok n -> 0 <= pos -> 0 <= k <= zlen src -> pos + k < 2 ^ 32 -> (forall name data l, n = MemoryFileNode name data l -> l < 2 ^ 32) ->
  n' = n \/ exists name data, n = MemoryFileNode name data (zlen data) /\ n' = MemoryFileNode name (overwrite data pos (take (Z.to_nat k) src)) (zlen (overwrite data pos (take (Z.to_nat k) src))).
Proof.
  intros E Hok Hp Hk Hs Hl. destruct n as [| name data l| | | |]; cbn in E; try discriminate; try (injection E as <- <-; by left). right. exists name, data.
  cbn in Hok. subst l. specialize (Hl name data _ eq_refl). rewrite MemoryFileNode_writeData_ok in E by lia. rewrite ok_bind in E. injection E as <- <-. done.
Qed.

(** The states of a driver; a process writes below 4 GiB. *)
Inductive reach : MemoryDriver -> Prop :=
| reach_new : reach MemoryDriver_new
| reach_create d path type b d' : reach d -> createNode path type d = Ok (b, d') -> reach d'
| reach_delete d path b d' : reach d -> deleteNode path d = Ok (b, d') -> reach d'
| reach_add d path n b d' : reach d -> strip n = n -> file_ok n -> addNode path n d = Ok (b, d') -> reach d'
| reach_write d p src pos k r d' :
    reach d -> 0 <= pos -> 0 <= k <= zlen src -> pos + k < 2 ^ 32 -> (forall name data l, nodes d !! p = Some (MemoryFileNode name data l) -> l < 2 ^ 32) ->
    wrapper_writeData p src pos k d = Ok (r, d') -> reach d'.

Lemma effect_wf d r guard ts v b d' : effect d r guard ts v -> r = Ok (b, d') -> wf d'.
Proof. intros (b' & d'' & -> & Hwf & _) [= <- <-]. done. Qed.

Lemma wrapper_writeData_wf d p src pos k r d' :
  wf d -> 0 <= pos -> 0 <= k <= zlen src -> pos + k < 2 ^ 32 -> (forall name data l, nodes d !! p = Some (MemoryFileNode name data l) -> l < 2 ^ 32) ->
  wrapper_writeData p src pos k d = Ok (r, d') -> wf d'.
Proof.
  intros Hwf Hp Hk Hs Hl. unfold wrapper_writeData, node_at. destruct (nodes d !! p) as [n|] eqn:En; [|done]. cbn [of_option]. rewrite ok_bind.
  destruct (writeData n src pos k) as [[r' n']| | |] eqn:E; try done. rewrite ok_bind. intros [= <- <-].
  destruct (writeData_ok n src pos k r' n' E) as [->|(name & data & -> & ->)]; try done; [by eapply (wf_files d Hwf)| | |].
  - intros name data l ->. by apply (Hl name data).
  - unfold set_nodes. rewrite insert_id by done. by destruct d.
  - by apply (written_wf d p name data).
Qed.

Lemma tokens_cases path : tokens slash path = [] \/ exists init name, tokens slash path = init ++ [name].
Proof. destruct (tokens slash path) as [|name init _] using rev_ind; [by left|right; by exists init, name]. Qed.

Lemma empty_createNode path type d :
  tokens slash path = [] -> createNode path type d = Throw INVALID_ARGUMENT \/ createNode path type d = Throw OUT_OF_BOUNDS \/ createNode path type d = Ok (false, d).
Proof. intros E. unfold createNode. rewrite E. case_decide; [by left|]. rewrite andb_true_r. destruct (0 <? zlen path); [by right; right|by right; left]. Qed.

Lemma empty_deleteNode path d : tokens slash path = [] -> deleteNode path d = Throw OUT_OF_BOUNDS \/ deleteNode path d = Ok (false, d).
Proof. intros E. unfold deleteNode. rewrite E. rewrite andb_true_r. destruct (0 <? zlen path); [by right|by left]. Qed.

Lemma createNode_device path d : createNode path CHARACTER d = Throw INVALID_ARGUMENT.
Proof. unfold createNode. by rewrite decide_True. Qed.

Lemma reach_wf d : reach d -> wf d.
Proof.
  induction 1 as [|d path type b d' _ IH E|d path b d' _ IH E|d path n b d' _ IH Hs Hk E|d p src pos k r d' _ IH Hp Hk Hs Hl E].
  - apply driver_new_wf.
  - destruct (tokens_cases path) as [Ht|(init & name & Ht)].
    + destruct (empty_createNode path type d Ht) as [H|[H|H]]; rewrite H in E; try discriminate. by injection E as <- <-.
    + destruct type; [eapply effect_wf; [by apply (createNode_ok d path init name REGULAR); [..|right]|done]|eapply effect_wf; [by apply (createNode_ok d path init name DIRECTORY); [..|left]|done]|].
      by rewrite createNode_device in E.
  - destruct (tokens_cases path) as [Ht|(init & name & Ht)].
    + destruct (empty_deleteNode path d Ht) as [H|H]; rewrite H in E; [discriminate|]. by injection E as <- <-.
    + eapply effect_wf; [by apply (deleteNode_ok d path init name)|done].
  - eapply effect_wf; [by apply (addNode_ok d path n)|done].
  - by eapply wrapper_writeData_wf.
Qed.

Definition no_fault {A} (r : outcome A) : Prop := r <> Fault /\ r <> Loops.

Lemma effect_no_fault d r guard ts v : effect d r guard ts v -> no_fault r.
Proof. intros (b & d' & -> & _). by split. Qed.

(** C32: In every state that the operations of the memory driver reach, the
    nodes are well formed (children exist, have distinct names and one
    parent, files have the length of their data) and getNode, createNode,
    deleteNode and addNode follow no dangling pointer and end. *)
Theorem driver_type_safe d :
  reach d -> wf d /\ forall path type,
    no_fault (getNode path d) /\ no_fault (createNode path type d) /\ no_fault (deleteNode path d) /\
    forall n, strip n = n -> file_ok n -> no_fault (addNode path n d).
Proof.
  intros Hwf%reach_wf. split; [done|]. intros path type. split_and!.
  - rewrite getNode_ok by done. by split.
  - destruct (tokens_cases path) as [Ht|(init & name & Ht)].
    + destruct (empty_createNode path type d Ht) as [H|[H|H]]; rewrite H; by split.
    + destruct type; [eapply effect_no_fault, createNode_ok; eauto|eapply effect_no_fault, createNode_ok; eauto|]. rewrite createNode_device. by split.
  - destruct (tokens_cases path) as [Ht|(init & name & Ht)].
    + destruct (empty_deleteNode path d Ht) as [H|H]; rewrite H; by split.
    + by eapply effect_no_fault, deleteNode_ok.
  - intros n Hs Hk. by eapply effect_no_fault, addNode_ok.
Qed.

(** The directory ["d"] with the file ["d/f"], and the address of the file. *)
Definition example_dir : MemoryDriver := match createNode [100] DIRECTORY MemoryDriver_new with Ok (_, d) => d | _ => MemoryDriver_new end.
Definition example_file : MemoryDriver := match createNode [100; 47; 102] REGULAR example_dir with Ok (_, d) => d | _ => example_dir end.

Lemma example_reach : reach example_file.
Proof.
  apply (reach_create example_dir [100; 47; 102] REGULAR true); [|vm_compute; reflexivity].
  apply (reach_create MemoryDriver_new [100] DIRECTORY true); [constructor|vm_compute; reflexivity].
Qed.

Lemma driver_type_safe_witness : wf example_file /\ no_fault (deleteNode [100] example_file).
Proof. destruct (driver_type_safe example_file example_reach) as [Hwf H]. destruct (H [100] REGULAR) as (_ & _ & Hd & _). split; [exact Hwf|exact Hd]. Defined.

(** C14: In every state of the memory driver, getNode looks the names of a path
    up in the tree of nodes; for a path with a name, createNode adds exactly
    that path if it is free and its parent is a directory, and deleteNode
    removes exactly a node that exists and has no children, otherwise they
    return false and change nothing; for a path without names they return
    false, but throw OUT_OF_BOUNDS for the empty path; createNode throws
    INVALID_ARGUMENT for other types than files and directories. *)
Theorem memory_tree d path :
  reach d ->
  (exists r, getNode path d = Ok r /\ (p ← r; strip <$> nodes d !! p) = view d (tokens slash path)) /\
  (forall type, type <> DIRECTORY -> type <> REGULAR -> createNode path type d = Throw INVALID_ARGUMENT) /\
  (tokens slash path = [] ->
    let refused := if decide (path = []) then Throw OUT_OF_BOUNDS else Ok (false, d) in
    createNode path DIRECTORY d = refused /\ createNode path REGULAR d = refused /\ deleteNode path d = refused) /\
  (forall init name, tokens slash path = init ++ [name] ->
    (forall type, type = DIRECTORY \/ type = REGULAR ->
      effect d (createNode path type d)
        (view d (init ++ [name]) = None /\ exists m, view d init = Some (MemoryDirectoryNode m []))
        (init ++ [name]) (Some (fresh_node type name))) /\
    effect d (deleteNode path d)
      (is_Some (view d (init ++ [name])) /\ forall t, view d ((init ++ [name]) ++ [t]) = None)
      (init ++ [name]) None).
Proof.
  intros Hwf%reach_wf. split_and!.
  - rewrite getNode_ok by done. by eexists.
  - intros type H1 H2. unfold createNode. by rewrite decide_True.
  - intros Ht. unfold createNode, deleteNode. rewrite Ht. by destruct path.
  - intros init name Ht. split; [|by apply deleteNode_ok]. intros type Hty. by apply createNode_ok.
Qed.

Lemma memory_tree_witness :
  deleteNode [] example_file = Throw OUT_OF_BOUNDS /\ deleteNode [47] example_file = Ok (false, example_file) /\
  effect example_file (deleteNode [100; 47; 102] example_file)
    (is_Some (view example_file ([[100]] ++ [[102]])) /\ forall t, view example_file (([[100]] ++ [[102]]) ++ [t]) = None) ([[100]] ++ [[102]]) None /\
  view example_file [[100]; [102]] = Some (MemoryFileNode [102] [] 0).
Proof.
  split_and!.
  - destruct (memory_tree example_file [] example_reach) as (_ & _ & H & _). destruct H as (_ & _ & H); [reflexivity|exact H].
  - destruct (memory_tree example_file [47] example_reach) as (_ & _ & H & _). destruct H as (_ & _ & H); [vm_compute; reflexivity|exact H].
  - destruct (memory_tree example_file [100; 47; 102] example_reach) as (_ & _ & _ & H). destruct (H [[100]] [102]) as [_ H']; [vm_compute; reflexivity|exact H'].
  - vm_compute. reflexivity.
Defined.

(** Writing to a file and reading it. *)
Lemma file_contents_ok d ts p name data src pos n :
  wf d -> locate d ts = Some p -> nodes d !! p = Some (MemoryFileNode name data (zlen data)) ->
  0 <= pos -> 0 <= n <= zlen src -> pos + n < 2 ^ 32 -> zlen data < 2 ^ 32 ->
  let new := overwrite data pos (take (Z.to_nat n) src) in
  exists d', wrapper_writeData p src pos n d = Ok (n, d') /\ wf d' /\
    (forall us, view d' us = if decide (us = ts) then Some (MemoryFileNode name new (zlen new)) else view d us) /\
    wrapper_getLength p d' = Ok (Z.max (zlen data) (pos + n)) /\
    forall target, n <= zlen target ->
      wrapper_readData p target pos n d' = Ok (n, take (Z.to_nat n) src ++ drop (Z.to_nat n) target).
Proof.
  intros Hwf Hl Hp Hpos Hn Hs Hd new. assert (Hln : zlen (take (Z.to_nat n) src) = n) by (unfold zlen in *; rewrite length_take; lia).
  assert (Hnew : zlen new = Z.max (zlen data) (pos + n)) by (unfold new; rewrite zlen_overwrite, Hln; lia).
  unfold wrapper_writeData, wrapper_readData, wrapper_getLength, node_at. rewrite Hp. cbn [of_option]. rewrite ok_bind. cbn [writeData]. rewrite MemoryFileNode_writeData_ok by lia.
  fold new. rewrite !ok_bind. eexists. split; [done|]. split; [by apply (written_wf d p name data)|]. split; [intros us; by apply (written_view d p name data)|].
  assert (Hlk : nodes (set_nodes (<[p := MemoryFileNode name new (zlen new)]> (nodes d)) d) !! p = Some (MemoryFileNode name new (zlen new))) by (cbn; by rewrite lookup_insert_eq).
  rewrite Hlk. cbn [of_option getLength]. rewrite !ok_bind. split; [by rewrite Hnew|]. intros target Ht. rewrite ?ok_bind. cbn [readData]. unfold MemoryFileNode_readData. rewrite read_range_ok by lia.
  replace (Z.max 0 (Z.min n (zlen new - pos))) with n by lia. f_equal. f_equal. f_equal. unfold new, overwrite.
  assert (Ht' : length (take (Z.to_nat pos) (data ++ new_chars (pos - zlen data))) = Z.to_nat pos).
  { unfold new_chars, zlen in *. rewrite length_take, length_app, length_replicate. lia. }
  rewrite drop_app_length' by done. rewrite take_app_length'; [done|]. unfold zlen in *. lia.
Qed.

(** What was written to a file is read back; no other file changes. *)
Theorem file_contents d ts p name data src pos n :
  reach d -> locate d ts = Some p -> nodes d !! p = Some (MemoryFileNode name data (zlen data)) ->
  0 <= pos -> 0 <= n <= zlen src -> pos + n < 2 ^ 32 -> zlen data < 2 ^ 32 ->
  let new := overwrite data pos (take (Z.to_nat n) src) in
  exists d', wrapper_writeData p src pos n d = Ok (n, d') /\
    (forall us, view d' us = if decide (us = ts) then Some (MemoryFileNode name new (zlen new)) else view d us) /\
    wrapper_getLength p d' = Ok (Z.max (zlen data) (pos + n)) /\
    forall target, n <= zlen target ->
      wrapper_readData p target pos n d' = Ok (n, take (Z.to_nat n) src ++ drop (Z.to_nat n) target).
Proof.
  intros Hwf%reach_wf Hl Hp Hpos Hn Hs Hd new. destruct (file_contents_ok d ts p name data src pos n Hwf Hl Hp Hpos Hn Hs Hd) as (d' & Hw & _ & H). by exists d'.
Qed.

Lemma file_contents_witness :
  exists d', wrapper_writeData 3 [1; 2; 3] 4 2 example_file = Ok (2, d') /\ wrapper_getLength 3 d' = Ok 6 /\
    wrapper_readData 3 [9; 9; 9] 4 2 d' = Ok (2, [1; 2; 9]) /\
    view d' [[100]; [102]] = Some (MemoryFileNode [102] [0; 0; 0; 0; 1; 2] 6).
Proof.
  destruct (file_contents example_file [[100]; [102]] 3 [102] [] [1; 2; 3] 4 2) as (d' & Hw & Hv & Hlen & Hr);
    [apply example_reach|vm_compute; reflexivity|vm_compute; reflexivity|lia|by vm_compute|lia|by vm_compute|].
  exists d'. split_and!; [done|done|by rewrite Hr by (by vm_compute)|]. rewrite Hv. vm_compute. reflexivity.
Defined.

(** Deleting a file that is open leaves the open node with a dangling
    pointer: every later access through it is undefined. *)
Theorem deleted_file_dangles d path d' p target src pos n :
  reach d -> getNode path d = Ok (Some p) -> deleteNode path d = Ok (true, d') ->
  wrapper_readData p target pos n d' = Fault /\ wrapper_writeData p src pos n d' = Fault /\ wrapper_getLength p d' = Fault.
Proof.
  intros Hwf%reach_wf Hg Hd. rewrite getNode_ok in Hg by done. injection Hg as Hg. unfold wrapper_readData, wrapper_writeData, wrapper_getLength, node_at.
  assert (Hgone : nodes d' !! p = None); [|by rewrite Hgone].
  destruct (tokens_cases path) as [Ht|(init & name & Ht)]; [destruct (empty_deleteNode path d Ht) as [H|H]; by rewrite H in Hd|].
  revert Hd. unfold deleteNode. rewrite Ht in Hg. apply locate_snoc_inv in Hg as (q & Hq & Hc). destruct (split_tokens path init name Ht) as (-> & -> & ->). rewrite andb_false_r.
  destruct (walk_ok d init (rootNode d) Hwf (wf_root d Hwf)) as (r & -> & Hr). rewrite ok_bind. destruct r as [q'|]; [|done].
  destruct (proj1 (Hr q') eq_refl) as [Hl (m & cs & Hq')]. assert (q = q') as <- by (unfold locate in Hq; congruence).
  rewrite ok_bind, (getChildByName_ok d q m cs name Hwf Hq'), ok_bind, Hc.
  destruct (node_at p d) as [nd| | |]; try done. rewrite ok_bind. destruct (getChildren nd d) as [l| | |]; try done. rewrite ok_bind.
  destruct (0 <? zlen l); [done|]. destruct (removeChild q p d) as [d1| | |]; try done. rewrite ok_bind. intros [= <-]. cbn. apply lookup_delete_eq.
Qed.

Definition example_deleted : MemoryDriver := match deleteNode [100; 47; 102] example_file with Ok (_, d) => d | _ => example_file end.

Lemma deleted_file_dangles_witness : wrapper_readData 3 [0] 0 1 example_deleted = Fault.
Proof.
  destruct (deleted_file_dangles example_file [100; 47; 102] example_deleted 3 [0] [] 0 1) as [H _];
    [apply example_reach|vm_compute; reflexivity|vm_compute; reflexivity|exact H].
Defined.

(** Creating or deleting the root of the file system throws instead of returning [false]. *)
Lemma root_throws d : createNode [] REGULAR d = Throw OUT_OF_BOUNDS /\ deleteNode [] d = Throw OUT_OF_BOUNDS.
Proof. by split. Qed.
End MemoryFs.
