(* ===== verification/Filesystem.v ===== *)
(** * Filesystem.v: mount points, file descriptors and the file system service

    [filesystem/Filesystem] passes a request on to the driver that is mounted closest to the path;
    [kernel/process/FileDescriptor], [FileDescriptorManager] and the system calls of [kernel/service/FilesystemService]
    work on open files. A driver is anything with the operations of [Driver]; what the mount table needs to know of it is
    [DriverLaws], which [MemoryDriver] satisfies.

    A [Util::String] is the sequence of its characters, as in [MemoryFilesystem.v]; [getCanonicalPath] is [parse]
    ([getCanonicalPath_ok] in [Path.v]). The maps of the source are finite maps ([HashMap_refines_gmap]). Every operation
    holds the file system's lock from its first to its last step, and releases it on every path. *)

From S2P Require Import UtilString Streams Path MemoryFilesystem Prelude Bits.
Import MemoryFs.

(** ** Drivers and nodes *)

(** [Driver]: a node is given by its address in the driver. The nodes that [Driver::getNode] returns forward every
    call to it. *)
Class Driver (D : Type) := {
  drv_getNode : list Z -> D -> outcome (option Z);
  drv_createNode : list Z -> FileType -> D -> outcome (bool * D);
  drv_deleteNode : list Z -> D -> outcome (bool * D);
  drv_type : Z -> D -> outcome FileType;
  drv_length : Z -> D -> outcome Z;
  drv_children : Z -> D -> outcome (list (list Z));
  drv_read : Z -> list Z -> Z -> Z -> D -> outcome (Z * list Z);
  drv_write : Z -> list Z -> Z -> Z -> D -> outcome (Z * D)
}.

(** [PhysicalDriver]: a driver of a file system on a storage device. *)
Class PhysicalDriver (D Dev : Type) := {
  drv_mount : Dev -> D -> outcome (bool * D);
  drv_createFilesystem : Dev -> D -> outcome bool
}.

#[export] Instance MemoryDriver_driver : Driver MemoryDriver := {
  drv_getNode := MemoryFs.getNode;
  drv_createNode := MemoryFs.createNode;
  drv_deleteNode := MemoryFs.deleteNode;
  drv_type := wrapper_getType;
  drv_length := wrapper_getLength;
  drv_children := wrapper_getChildren;
  drv_read := wrapper_readData;
  drv_write := wrapper_writeData
}.

(** ** [Filesystem] *)
Module Fs.

Record MountInformation := mkInfo { device : list Z; target : list Z; driver : list Z }.

Definition neq (this other : MountInformation) : bool := bool_decide (target this = target other).

(** [drivers] are the driver objects; the mount points refer to them by address. *)
Record Filesystem (D : Type) := mkFs {
  mountPoints : gmap (list Z) Z;
  mountInformation : gmap (list Z) MountInformation;
  drivers : gmap Z D;
  nextDriver : Z
}.
Arguments mkFs {D} mountPoints mountInformation drivers nextDriver.
Arguments mountPoints {D} _.
Arguments mountInformation {D} _.
Arguments drivers {D} _.
Arguments nextDriver {D} _.

(** [getCanonicalPath(path)] with the working directory [w] *)
Definition parse (w path : list Z) : list Z := path_of (canonical w path).

(** [path.substring(begin, end)] *)
Definition sub (begin_ end_ : Z) (l : list Z) : list Z :=
  if (begin_ >? end_) || (begin_ >=? zlen l) then [] else take (Z.to_nat (end_ - begin_)) (drop (Z.to_nat begin_) l).

Section Filesystem.
Context {D Dev : Type} `{!Driver D} `{!PhysicalDriver D Dev}.
Implicit Types (fs : Filesystem D) (w path : list Z).

(** [delete] of a driver and assignment to its fields *)
Definition driver_at (a : Z) fs : outcome D := of_option (drivers fs !! a).
Definition set_driver (a : Z) (d : D) fs : Filesystem D := mkFs (mountPoints fs) (mountInformation fs) (<[a := d]> (drivers fs)) (nextDriver fs).

Definition keys (m : gmap (list Z) Z) : list (list Z) := (map_to_list m).*1.

(** The driver and the path that is left for it; [None] stands for a null pointer. *)
Definition getMountedDriver path fs : outcome (option (Z * list Z)) :=
  let path := if bool_decide (last path = Some slash) then path else path ++ [slash] in
  let ret := fold_left (fun ret currentString =>
    if bool_decide (currentString `prefix_of` path) && (zlen ret <? zlen currentString) then currentString else ret) (keys (mountPoints fs)) [] in
  if bool_decide (ret = []) then Ok None
  else
    match mountPoints fs !! ret with
    | Some a => Ok (Some (a, sub (zlen ret) (zlen path - 1) path))
    | None => Throw KEY_NOT_FOUND
    end.

(** A node that was found: its driver and its address there. *)
Definition getNode w path fs : outcome (option (Z * Z)) :=
  r ← getMountedDriver (parse w path) fs;
  match r with
  | None => Ok None
  | Some (a, path) =>
    d ← driver_at a fs;
    r ← drv_getNode path d;
    Ok (match r with Some p => Some (a, p) | None => None end)
  end.

Definition createNode w path (type : FileType) fs : outcome (bool * Filesystem D) :=
  r ← getMountedDriver (parse w path) fs;
  match r with
  | None => Ok (false, fs)
  | Some (a, path) => d ← driver_at a fs; '(ret, d) ← drv_createNode path type d; Ok (ret, set_driver a d fs)
  end.

Definition createFile w path fs := createNode w path REGULAR fs.
Definition createDirectory w path fs := createNode w path DIRECTORY fs.

Definition deleteFile w path fs : outcome (bool * Filesystem D) :=
  let parsedPath := parse w path in
  if existsb (fun key => bool_decide (parsedPath `prefix_of` key)) (keys (mountPoints fs)) then Ok (false, fs)
  else
    r ← getMountedDriver parsedPath fs;
    match r with
    | None => Ok (false, fs)
    | Some (a, path) => d ← driver_at a fs; '(ret, d) ← drv_deleteNode path d; Ok (ret, set_driver a d fs)
    end.

(** The driver [d] has been created by the caller; its address is the next one. *)
Definition add_driver (d : D) fs : Z * Filesystem D :=
  (nextDriver fs, mkFs (mountPoints fs) (mountInformation fs) (<[nextDriver fs := d]> (drivers fs)) (nextDriver fs + 1)).

Definition put_mount (key : list Z) (a : Z) (info : MountInformation) fs : Filesystem D :=
  mkFs (<[key := a]> (mountPoints fs)) (<[key := info]> (mountInformation fs)) (drivers fs) (nextDriver fs).

Definition mountVirtualDriver w (targetPath : list Z) (a : Z) fs : outcome (bool * Filesystem D) :=
  let parsedPath := parse w targetPath ++ [slash] in
  targetNode ← getNode w parsedPath fs;
  if bool_decide (targetNode = None) && negb (bool_decide (mountPoints fs = ∅)) then Ok (false, fs)
  else if bool_decide (is_Some (mountPoints fs !! parsedPath)) then Ok (false, fs)
  else Ok (true, put_mount parsedPath a (mkInfo [86; 105; 114; 116; 117; 97; 108] targetPath [86; 105; 114; 116; 117; 97; 108; 68; 114; 105; 118; 101; 114]) fs).

(** [devices] are the registered storage devices, [prototypes] the registered classes of drivers. A driver that is not
    mounted because there is a mount point already stays in memory. *)
Definition mount (devices : gmap (list Z) Dev) (prototypes : gmap (list Z) D) w (deviceName targetPath driverName : list Z) fs : outcome (bool * Filesystem D) :=
  match devices !! deviceName with
  | None => Ok (false, fs)
  | Some device =>
    let parsedPath := parse w targetPath ++ [slash] in
    targetNode ← getNode w parsedPath fs;
    if bool_decide (targetNode = None) && negb (bool_decide (mountPoints fs = ∅)) then Ok (false, fs)
    else
      match prototypes !! driverName with
      | None => Ok (false, fs)
      | Some driver =>
        '(mounted, driver) ← drv_mount device driver;
        if negb mounted then Ok (false, fs)
        else
          let '(a, fs) := add_driver driver fs in
          if bool_decide (is_Some (mountPoints fs !! parsedPath)) then Ok (false, fs)
          else Ok (true, put_mount parsedPath a (mkInfo deviceName targetPath driverName) fs)
      end
  end.

(** [createInstance] may return a null pointer, which is used here. *)
Definition createFilesystem (devices : gmap (list Z) Dev) (prototypes : gmap (list Z) D) (deviceName driverName : list Z) : outcome bool :=
  match devices !! deviceName with
  | None => Ok false
  | Some device => driver ← of_option (prototypes !! driverName); drv_createFilesystem device driver
  end.

Definition unmount w path fs : outcome (bool * Filesystem D) :=
  let parsedPath := parse w path ++ [slash] in
  targetNode ← getNode w parsedPath fs;
  if bool_decide (targetNode = None) && negb (bool_decide (path = [slash])) then Ok (false, fs)
  else if existsb (fun key => bool_decide (parsedPath `prefix_of` key) && negb (bool_decide (key = parsedPath))) (keys (mountPoints fs)) then Ok (false, fs)
  else
    match mountPoints fs !! parsedPath with
    | Some a => Ok (true, mkFs (delete parsedPath (mountPoints fs)) (delete parsedPath (mountInformation fs)) (delete a (drivers fs)) (nextDriver fs))
    | None => Ok (false, fs)
    end.

Definition getVirtualDriver w path fs : outcome Z :=
  match mountPoints fs !! (parse w path ++ [slash]) with Some a => Ok a | None => Throw KEY_NOT_FOUND end.

Definition getMountInformation fs : list MountInformation := (map_to_list (mountInformation fs)).*2.
End Filesystem.

(** ** The mount table as a tree *)

(** The key of a mount point, and the path that is left for a driver. *)
Definition key (ms : list (list Z)) : list Z := path_of ms ++ [slash].
Definition rel (ts : list (list Z)) : list Z := tail (path_of ts).

Lemma key_cons m ms : key (m :: ms) = slash :: m ++ key ms.
Proof. unfold key. cbn. by rewrite <- app_assoc. Qed.

Lemma key_head ms : exists l, key ms = slash :: l.
Proof. destruct ms as [|m ms]; [by exists []|]. rewrite key_cons. by eexists. Qed.

Lemma split_slash m t a b : slash ∉ m -> slash ∉ t -> (m ++ slash :: a) `prefix_of` (t ++ slash :: b) -> m = t /\ a `prefix_of` b.
Proof.
  revert t. induction m as [|x m IH]; intros t Hm Ht Hp.
  - destruct t as [|y t]; cbn in Hp; [split; [done|by apply prefix_cons_inv_2 in Hp]|]. apply prefix_cons_inv_1 in Hp as <-. exfalso. apply Ht. by left.
  - destruct t as [|y t]; cbn in Hp; pose proof (prefix_cons_inv_1 _ _ _ _ Hp) as E; [subst x; exfalso; apply Hm; by left|subst y].
    apply prefix_cons_inv_2 in Hp. apply IH in Hp as [-> Hp]; [done| |]; intros Hin; [apply Hm|apply Ht]; by right.
Qed.

Lemma key_prefix ms ts : Forall name_ok ms -> Forall name_ok ts -> key ms `prefix_of` key ts <-> ms `prefix_of` ts.
Proof.
  intros Hms. revert ts. induction Hms as [|m ms Hm Hms IH]; intros ts Hts.
  - split; [intros _; apply prefix_nil|]. intros _. destruct (key_head ts) as [l ->]. exists l. done.
  - destruct Hts as [|t ts Ht Hts].
    + split; [|by intros ?%prefix_nil_not]. rewrite key_cons. intros Hp%prefix_length. destruct (key_head ms) as [l El]. rewrite El in Hp. cbn in Hp. rewrite length_app in Hp. cbn in Hp. lia.
    + rewrite !key_cons. destruct (key_head ms) as [l El]. destruct (key_head ts) as [r Er]. destruct Hm as (_ & Hm & _). destruct Ht as (_ & Ht & _). split.
      * intros Hp%prefix_cons_inv_2. rewrite El, Er in Hp. apply split_slash in Hp as [-> Hp]; [|done|done]. apply prefix_cons, IH; [done|].
        rewrite El, Er. by apply prefix_cons.
      * intros Hp. pose proof (prefix_cons_inv_1 _ _ _ _ Hp) as ->. apply prefix_cons, prefix_app, IH; [done|]. by apply prefix_cons_inv_2 in Hp.
Qed.

Lemma key_inj ms ts : Forall name_ok ms -> Forall name_ok ts -> key ms = key ts -> ms = ts.
Proof.
  intros Hms Hts E. assert (H1 : ms `prefix_of` ts) by (apply key_prefix; [done|done|by rewrite E]). assert (H2 : ts `prefix_of` ms) by (apply key_prefix; [done|done|by rewrite E]).
  destruct H1 as [k ->]. apply prefix_length in H2. rewrite length_app in H2. destruct k; [by rewrite app_nil_r|cbn in H2; lia].
Qed.

Lemma tokens_rel ts : Forall name_ok ts -> tokens slash (rel ts) = ts.
Proof.
  intros Hts. destruct ts as [|t ts]; [done|]. rewrite <- (tokens_path_of (t :: ts)) at 2 by (eapply Forall_impl; [exact Hts|]; intros ? (? & ? & _); by split).
  unfold rel. rewrite path_of_cons. cbn [tail]. change (slash :: t ++ path_of ts) with ([] ++ slash :: t ++ path_of ts). by rewrite tokens_split.
Qed.

Lemma sub_key ms rest : sub (zlen (key ms)) (zlen (key (ms ++ rest)) - 1) (key (ms ++ rest)) = rel rest.
Proof.
  assert (E : key (ms ++ rest) = path_of ms ++ key rest) by (unfold key, path_of; by rewrite fmap_app, concat_app, app_assoc).
  rewrite E. unfold key at 1, sub. rewrite !zlen_app. pose proof (zlen_nonneg (path_of ms)). destruct rest as [|t rest].
  - rewrite (proj2 (Z.gtb_lt _ _)); [done|]. unfold key. cbn. lia.
  - assert (E' : exists r, rel (t :: rest) = r /\ key (t :: rest) = slash :: r ++ [slash]) by (eexists; split; [done|]; done). destruct E' as (r & -> & Er). rewrite Er.
    assert (zlen (slash :: r ++ [slash]) = zlen r + 2) as -> by (rewrite zlen_cons, zlen_app; change (zlen [slash]) with 1; lia). change (zlen [slash]) with 1. pose proof (zlen_nonneg r).
    destruct (Z.gtb_spec (zlen (path_of ms) + 1) (zlen (path_of ms) + (zlen r + 2) - 1)); [lia|].
    destruct (Z.geb_spec (zlen (path_of ms) + 1) (zlen (path_of ms) + (zlen r + 2))); [lia|]. cbn [orb].
    replace (Z.to_nat (zlen (path_of ms) + 1)) with (length (path_of ms ++ [slash])) by (rewrite length_app; unfold zlen; cbn; lia).
    change (slash :: r ++ [slash]) with ([slash] ++ r ++ [slash]). rewrite app_assoc, drop_app_length.
    replace (Z.to_nat _) with (length r) by (unfold zlen; lia). by rewrite take_app_length.
Qed.

(** What a driver promises: a tree of names that its operations look up and change. [V] is what is known of a node. *)
Class DriverLaws (D V : Type) `{!Driver D} := {
  d_wf : D -> Prop;
  d_view : D -> list (list Z) -> option V;
  d_node : D -> Z -> option V;
  d_dir : V -> Prop;
  d_fresh : FileType -> list Z -> V;
  d_root d : d_wf d -> is_Some (d_view d []);
  d_getNode d path : d_wf d -> exists r, drv_getNode path d = Ok r /\ r ≫= d_node d = d_view d (tokens slash path) /\ (is_Some r <-> is_Some (d_view d (tokens slash path)));
  d_createNode d path init name type :
    d_wf d -> tokens slash path = init ++ [name] -> type = DIRECTORY \/ type = REGULAR ->
    exists b d', drv_createNode path type d = Ok (b, d') /\ d_wf d' /\
      (b = true <-> d_view d (init ++ [name]) = None /\ exists v, d_view d init = Some v /\ d_dir v) /\
      forall us, d_view d' us = if (b : bool) then (if decide (us = init ++ [name]) then Some (d_fresh type name) else d_view d us) else d_view d us;
  d_deleteNode d path init name :
    d_wf d -> tokens slash path = init ++ [name] ->
    exists b d', drv_deleteNode path d = Ok (b, d') /\ d_wf d' /\
      (b = true <-> is_Some (d_view d (init ++ [name])) /\ forall t, d_view d ((init ++ [name]) ++ [t]) = None) /\
      forall us, d_view d' us = if (b : bool) then (if decide (us = init ++ [name]) then None else d_view d us) else d_view d us
}.

(** A mount point is found by going up from the end of the path. *)
Fixpoint owner_from (m : gmap (list Z) Z) (ts : list (list Z)) (n : nat) : option (nat * Z) :=
  match m !! key (take n ts) with
  | Some a => Some (n, a)
  | None => match n with O => None | S n => owner_from m ts n end
  end.
Definition owner (m : gmap (list Z) Z) (ts : list (list Z)) : option (nat * Z) := owner_from m ts (length ts).

Lemma owner_from_Some m ts k n a :
  owner_from m ts k = Some (n, a) <->
  (n <= k)%nat /\ m !! key (take n ts) = Some a /\ forall i, (n < i <= k)%nat -> m !! key (take i ts) = None.
Proof.
  induction k as [|k IH]; cbn [owner_from].
  - destruct (m !! key (take 0 ts)) as [b|] eqn:E; split.
    + intros [= <- <-]. split_and!; [lia|done|lia].
    + intros (Hn & Hl & _). assert (n = 0%nat) as -> by lia. congruence.
    + done.
    + intros (Hn & Hl & _). assert (n = 0%nat) as -> by lia. congruence.
  - destruct (m !! key (take (S k) ts)) as [b|] eqn:E; split.
    + intros [= <- <-]. split_and!; [lia|done|lia].
    + intros (Hn & Hl & Hi). destruct (decide (n = S k)) as [->|]; [congruence|]. rewrite Hi in E by lia. done.
    + intros (Hn & Hl & Hi)%IH. split_and!; [lia|done|]. intros i Hi'. destruct (decide (i = S k)) as [->|]; [done|apply Hi; lia].
    + intros (Hn & Hl & Hi). apply IH. destruct (decide (n = S k)) as [->|]; [congruence|]. split_and!; [lia|done|]. intros i Hi'. apply Hi. lia.
Qed.

Lemma owner_from_None m ts k : owner_from m ts k = None <-> forall i, (i <= k)%nat -> m !! key (take i ts) = None.
Proof.
  induction k as [|k IH]; cbn [owner_from].
  - destruct (m !! key (take 0 ts)) eqn:E; split; [done|intros H; rewrite (H 0%nat) in E by lia; done| |done]. intros _ i Hi. by assert (i = 0%nat) as -> by lia.
  - destruct (m !! key (take (S k) ts)) eqn:E; split; [done|intros H; rewrite (H (S k)) in E by lia; done| |].
    + intros H i Hi. destruct (decide (i = S k)) as [->|]; [done|]. apply IH; [done|lia].
    + intros H. apply IH. intros i Hi. apply H. lia.
Qed.

(** The longest key that is a prefix of [path]. *)
Definition longest (path : list Z) (l : list (list Z)) (ret : list Z) : list Z :=
  fold_left (fun ret currentString =>
    if bool_decide (currentString `prefix_of` path) && (zlen ret <? zlen currentString) then currentString else ret) l ret.

Lemma longest_ok path l ret :
  let r := longest path l ret in
  (r = ret \/ (r ∈ l /\ r `prefix_of` path)) /\ zlen ret <= zlen r /\ forall k, k ∈ l -> k `prefix_of` path -> zlen k <= zlen r.
Proof.
  cbv zeta. revert ret. induction l as [|x l IH]; intros ret; unfold longest in *; cbn [fold_left].
  - split_and!; [by left|lia|]. intros k Hk. by apply not_elem_of_nil in Hk.
  - set (ret' := if bool_decide (x `prefix_of` path) && (zlen ret <? zlen x) then x else ret). destruct (IH ret') as (H1 & H2 & H3).
    assert (Hr : (ret' = ret /\ (x `prefix_of` path -> zlen x <= zlen ret)) \/ (ret' = x /\ x `prefix_of` path /\ zlen ret < zlen x)).
    { subst ret'. case_bool_decide as Hx; [|by left]. destruct (Z.ltb_spec (zlen ret) (zlen x)); [right|left]; cbn [andb]; auto. }
    clearbody ret'. set (r := fold_left _ l ret') in *. clearbody r. split_and!.
    + destruct H1 as [->|[Hin Hp]]; [|right; split; [by right|done]]. destruct Hr as [[-> _]|(-> & Hx & _)]; [by left|right; split; [by left|done]].
    + destruct Hr as [[E _]|(E & _ & ?)]; rewrite E in H2; lia.
    + intros k [->|Hk]%elem_of_cons Hp; [|by apply H3]. destruct Hr as [[E Hle]|(E & _ & ?)]; rewrite E in H2; [specialize (Hle Hp)|]; lia.
Qed.

Lemma elem_keys m k : k ∈ keys m <-> is_Some (m !! k).
Proof.
  unfold keys. rewrite list_elem_of_fmap. split.
  - intros ([k' a] & -> & H%elem_of_map_to_list). by exists a.
  - intros [a H]. exists (k, a). split; [done|]. by apply elem_of_map_to_list.
Qed.

Lemma last_path_of ts : Forall name_ok ts -> last (path_of ts) <> Some slash.
Proof.
  intros Hts. destruct ts as [|t ts _] using rev_ind; [done|]. apply Forall_app in Hts as [_ Ht]. apply Forall_singleton in Ht as (Hne & Hs & _).
  rewrite path_of_app, path_of_cons. change (path_of []) with (@nil Z). rewrite app_nil_r. destruct t as [|x t _] using rev_ind; [done|].
  change (slash :: t ++ [x]) with ((slash :: t) ++ [x]). rewrite app_assoc, last_snoc. intros [= ->]. apply Hs. apply elem_of_app. right. by left.
Qed.

Lemma key_take_lt ts i j : (i < j <= length ts)%nat -> zlen (key (take i ts)) < zlen (key (take j ts)).
Proof.
  intros Hij. unfold key. rewrite !zlen_app. assert (E : take j ts = take i ts ++ take (j - i) (drop i ts)).
  { rewrite take_drop_commute. replace (i + (j - i))%nat with j by lia. rewrite <- (take_drop i (take j ts)) at 1. f_equal. rewrite take_take. f_equal. lia. }
  rewrite E, zlen_path_app. pose proof (zlen_path_count (take (j - i) (drop i ts))). assert (zlen (take (j - i) (drop i ts)) = Z.of_nat (j - i)) by (unfold zlen; rewrite length_take, length_drop; lia). lia.
Qed.

Section laws.
Context {D V : Type} `{!Driver D} `{!DriverLaws D V}.
Implicit Types (fs : Filesystem D) (ts us : list (list Z)).

(** Every mount point has a driver of its own. *)
Record fs_wf fs : Prop := {
  wf_key k a : mountPoints fs !! k = Some a -> exists ms, Forall name_ok ms /\ k = key ms;
  wf_driver k a : mountPoints fs !! k = Some a -> exists d, drivers fs !! a = Some d /\ d_wf d;
  wf_own k1 k2 a : mountPoints fs !! k1 = Some a -> mountPoints fs !! k2 = Some a -> k1 = k2;
  wf_fresh a : is_Some (drivers fs !! a) -> a < nextDriver fs
}.

(** The tree of all mounted drivers. *)
Definition fs_view fs ts : option V := '(n, a) ← owner (mountPoints fs) ts; d ← drivers fs !! a; d_view d (drop n ts).

Lemma mounted_prefix fs k a ts :
  fs_wf fs -> Forall name_ok ts -> mountPoints fs !! k = Some a -> k `prefix_of` key ts -> exists n, (n <= length ts)%nat /\ k = key (take n ts).
Proof.
  intros Hwf Hts Hk Hp. destruct (wf_key fs Hwf k a Hk) as (ms & Hms & ->). apply key_prefix in Hp as [rest ->]; [|done|done].
  exists (length ms). split; [rewrite length_app; lia|]. by rewrite take_app_length.
Qed.

Lemma owner_ok fs ts n a :
  fs_wf fs -> owner (mountPoints fs) ts = Some (n, a) -> (n <= length ts)%nat /\ mountPoints fs !! key (take n ts) = Some a /\ exists d, drivers fs !! a = Some d /\ d_wf d.
Proof. intros Hwf (Hn & Hk & _)%owner_from_Some. split_and!; [done|done|by eapply (wf_driver fs Hwf)]. Qed.

Lemma getMountedDriver_ok fs ts :
  fs_wf fs -> Forall name_ok ts ->
  getMountedDriver (path_of ts) fs = Ok (match owner (mountPoints fs) ts with Some (n, a) => Some (a, rel (drop n ts)) | None => None end).
Proof.
  intros Hwf Hts. unfold getMountedDriver. assert (E : (if bool_decide (last (path_of ts) = Some slash) then path_of ts else path_of ts ++ [slash]) = key ts)
    by (by rewrite bool_decide_false by (by apply last_path_of)). rewrite E. clear E.
  fold (longest (key ts) (keys (mountPoints fs)) []).
  destruct (longest_ok (key ts) (keys (mountPoints fs)) []) as (H1 & _ & H3). set (r := longest _ _ _) in *. clearbody r.
  destruct (owner (mountPoints fs) ts) as [[n a]|] eqn:Eo.
  - apply owner_from_Some in Eo as (Hn & Ha & Hi).
    assert (Hkp : key (take n ts) `prefix_of` key ts) by (apply key_prefix; [by apply Forall_take|done|]; exists (drop n ts); by rewrite take_drop).
    assert (Hle : zlen (key (take n ts)) <= zlen r) by (apply H3; [apply elem_keys; by eexists|done]). destruct (key_head (take n ts)) as [l El].
    rewrite bool_decide_false by (intros ->; rewrite El, zlen_cons in Hle; pose proof (zlen_nonneg l); change (zlen []) with 0 in Hle; lia).
    destruct H1 as [->|[[b Hb]%elem_keys Hp]]; [rewrite El, zlen_cons in Hle; pose proof (zlen_nonneg l); change (zlen []) with 0 in Hle; lia|].
    destruct (mounted_prefix fs r b ts Hwf Hts Hb Hp) as (i & Hil & ->). assert (i = n) as ->.
    { destruct (decide (n < i)%nat); [rewrite Hi in Hb by lia; done|]. destruct (decide (i = n)) as [|]; [done|].
      pose proof (key_take_lt ts i n ltac:(lia)). lia. }
    rewrite Ha. do 3 f_equal. rewrite <- (take_drop n ts) at 2 3. apply sub_key.
  - pose proof (proj1 (owner_from_None _ _ _) Eo) as Hnone. destruct H1 as [->|[[b Hb]%elem_keys Hp]]; [done|].
    destruct (mounted_prefix fs r b ts Hwf Hts Hb Hp) as (i & Hil & ->). by rewrite Hnone in Hb by lia.
Qed.

(** The names of a path *)
Lemma parse_key w ts : Forall name_ok ts -> parse w (key ts) = path_of ts.
Proof.
  intros Hts. unfold parse, canonical. destruct (key_head ts) as [l E]. rewrite decide_False by (by rewrite E). rewrite decide_True by (by exists l).
  f_equal. unfold key. rewrite tokens_split. change (tokens slash []) with (@nil (list Z)). rewrite app_nil_r, tokens_path_of by (eapply Forall_impl; [exact Hts|]; intros ? (? & ? & _); by split).
  by apply resolve_id.
Qed.

Lemma getNode_names fs w path ts :
  fs_wf fs -> Forall name_ok ts -> parse w path = path_of ts ->
  exists r, getNode w path fs = Ok r /\ ('(a, p) ← r; d ← drivers fs !! a; d_node d p) = fs_view fs ts /\ (r = None <-> fs_view fs ts = None).
Proof.
  intros Hwf Hts Hp. unfold getNode. rewrite Hp, (getMountedDriver_ok fs ts Hwf Hts), ok_bind. unfold fs_view.
  destruct (owner (mountPoints fs) ts) as [[n a]|] eqn:Eo; [|by exists None]. destruct (owner_ok fs ts n a Hwf Eo) as (Hn & Hk & d & Hd & Hdw).
  unfold driver_at. rewrite Hd. cbn [of_option mbind option_bind]. rewrite !ok_bind. destruct (d_getNode d (rel (drop n ts)) Hdw) as (r & -> & Hr & Hs).
  rewrite tokens_rel in Hr, Hs by (by apply Forall_drop). rewrite ok_bind. rewrite Hd. cbn [mbind option_bind]. destruct r as [p|].
  - exists (Some (a, p)). cbn [mbind option_bind] in *. rewrite Hd. split_and!; [done|done|]. split; [done|]. intros E. rewrite E in Hs. destruct (proj1 Hs) as [? ?]; [by eexists|done].
  - exists None. split_and!; [done|done|]. split; [|done]. intros _. destruct (d_view d (drop n ts)) as [v|]; [|done]. destruct (proj2 Hs) as [? ?]; [by eexists|done].
Qed.

(** An operation that returns [true] if and only if [guard] holds, and then changes what [ts] leads to and nothing else. *)
Definition fs_effect fs (r : outcome (bool * Filesystem D)) (guard : Prop) ts (v : option V) : Prop :=
  exists b fs', r = Ok (b, fs') /\ fs_wf fs' /\ (b = true <-> guard) /\
    forall us, Forall name_ok us -> fs_view fs' us = if (b : bool) then (if decide (us = ts) then v else fs_view fs us) else fs_view fs us.

Lemma fs_no_effect fs guard ts v : fs_wf fs -> ~ guard -> fs_effect fs (Ok (false, fs)) guard ts v.
Proof. intros Hwf Hg. exists false, fs. by split_and!. Qed.

Lemma set_driver_wf fs a d' : fs_wf fs -> is_Some (drivers fs !! a) -> d_wf d' -> fs_wf (set_driver a d' fs).
Proof.
  intros Hwf Ha Hd. split.
  - apply (wf_key fs Hwf).
  - intros k b Hb. cbn in *. destruct (decide (b = a)) as [->|Hne]; [exists d'; by rewrite lookup_insert_eq|]. rewrite lookup_insert_ne by done. by apply (wf_driver fs Hwf k).
  - apply (wf_own fs Hwf).
  - intros b Hb. cbn in *. apply (wf_fresh fs Hwf). destruct (decide (b = a)) as [->|Hne]; [done|]. by rewrite lookup_insert_ne in Hb.
Qed.

Lemma owner_same fs ts us n k a :
  fs_wf fs -> Forall name_ok ts -> Forall name_ok us -> owner (mountPoints fs) ts = Some (n, a) -> owner (mountPoints fs) us = Some (k, a) -> k = n /\ take k us = take n ts.
Proof.
  intros Hwf Hts Hus (Hn & Ha & _)%owner_from_Some (Hk & Hb & _)%owner_from_Some. assert (E : take k us = take n ts).
  { apply key_inj; [by apply Forall_take|by apply Forall_take|]. by eapply (wf_own fs Hwf). }
  split; [|done]. assert (Hl : length (take k us) = length (take n ts)) by (by rewrite E). rewrite !length_take in Hl. lia.
Qed.

(** A change to what [drop n ts] leads to in the driver of [ts] is a change to what [ts] leads to. *)
Lemma set_driver_view fs ts n a d d' x us :
  fs_wf fs -> Forall name_ok ts -> Forall name_ok us -> owner (mountPoints fs) ts = Some (n, a) -> drivers fs !! a = Some d ->
  (forall vs, d_view d' vs = if decide (vs = drop n ts) then x else d_view d vs) ->
  fs_view (set_driver a d' fs) us = if decide (us = ts) then x else fs_view fs us.
Proof.
  intros Hwf Hts Hus Ho Hd Hv. unfold fs_view. cbn [mountPoints drivers set_driver]. destruct (owner (mountPoints fs) us) as [[k b]|] eqn:Eu.
  - cbn [mbind option_bind]. destruct (decide (b = a)) as [->|Hne].
    + rewrite lookup_insert_eq, Hd. cbn [mbind option_bind]. destruct (owner_same fs ts us n k a Hwf Hts Hus Ho Eu) as [-> E]. rewrite Hv.
      destruct (decide (us = ts)) as [->|Hu]; [by rewrite decide_True|]. rewrite decide_False; [done|]. intros E'. apply Hu. by rewrite <- (take_drop n us), <- (take_drop n ts), E, E'.
    + rewrite lookup_insert_ne by done. rewrite decide_False; [done|]. intros ->. congruence.
  - rewrite decide_False; [done|]. intros ->. congruence.
Qed.

Lemma owner_init fs init name :
  mountPoints fs !! key (init ++ [name]) = None -> owner (mountPoints fs) (init ++ [name]) = owner (mountPoints fs) init.
Proof.
  intros Hk. unfold owner. assert (H : forall n, (n <= length init)%nat -> owner_from (mountPoints fs) (init ++ [name]) n = owner_from (mountPoints fs) init n).
  { induction n as [|n IH]; intros Hn; cbn [owner_from]; [done|]. rewrite take_app_le by done. by rewrite IH by lia. }
  rewrite length_app. cbn [length]. rewrite Nat.add_1_r. cbn [owner_from]. rewrite take_ge by (rewrite length_app; cbn; lia). rewrite Hk. by apply H.
Qed.

Lemma createNode_names fs w path init name type :
  fs_wf fs -> Forall name_ok (init ++ [name]) -> parse w path = path_of (init ++ [name]) -> mountPoints fs !! key (init ++ [name]) = None ->
  type = DIRECTORY \/ type = REGULAR ->
  fs_effect fs (createNode w path type fs) (fs_view fs (init ++ [name]) = None /\ exists v, fs_view fs init = Some v /\ d_dir v)
    (init ++ [name]) (Some (d_fresh type name)).
Proof.
  intros Hwf Hts Hp Hk Hty. unfold createNode. rewrite Hp, (getMountedDriver_ok fs _ Hwf Hts), ok_bind. pose proof (owner_init fs init name Hk) as Hoi.
  destruct (owner (mountPoints fs) (init ++ [name])) as [[n a]|] eqn:Eo.
  2:{ apply fs_no_effect; [done|]. intros [_ (v & Hv & _)]. unfold fs_view in Hv. by rewrite <- Hoi in Hv. }
  symmetry in Hoi. destruct (owner_ok fs init n a Hwf Hoi) as (Hn & _ & d & Hd & Hdw). unfold driver_at. rewrite Hd. cbn [of_option]. rewrite ok_bind.
  assert (Hdrop : drop n (init ++ [name]) = drop n init ++ [name]) by (by rewrite drop_app_le).
  destruct (d_createNode d (rel (drop n (init ++ [name]))) (drop n init) name type Hdw) as (b & d' & -> & Hdw' & Hb & Hv); [rewrite tokens_rel by (by apply Forall_drop); done|done|].
  rewrite ok_bind. exists b, (set_driver a d' fs). split_and!; [done|by apply set_driver_wf| |].
  - rewrite Hb. unfold fs_view. rewrite Eo, Hoi. cbn [mbind option_bind]. rewrite Hd. cbn [mbind option_bind]. by rewrite Hdrop.
  - intros us Hus. rewrite (set_driver_view fs (init ++ [name]) n a d d' (if b then Some (d_fresh type name) else d_view d (drop n init ++ [name])) us); [|done..|].
    + destruct b; [done|]. case_decide as E; [|done]. rewrite E. unfold fs_view. rewrite Eo. cbn [mbind option_bind]. rewrite Hd. cbn [mbind option_bind]. by rewrite Hdrop.
    + intros vs. rewrite Hv, Hdrop. destruct b; [done|]. by case_decide as E; [rewrite E|].
Qed.

Lemma existsb_keys (m : gmap (list Z) Z) (P : list Z -> bool) : existsb P (keys m) = true <-> exists k a, m !! k = Some a /\ P k = true.
Proof.
  rewrite existsb_exists. split.
  - intros (k & Hk & HP). apply list_elem_of_In, elem_keys in Hk as [a Ha]. by exists k, a.
  - intros (k & a & Ha & HP). exists k. split; [|done]. apply list_elem_of_In, elem_keys. by exists a.
Qed.

Lemma deleteFile_names fs w path init name :
  let ts := init ++ [name] in
  fs_wf fs -> Forall name_ok ts -> parse w path = path_of ts ->
  fs_effect fs (deleteFile w path fs)
    ((forall k, path_of ts `prefix_of` k -> mountPoints fs !! k = None) /\ is_Some (fs_view fs ts) /\ forall t, fs_view fs (ts ++ [t]) = None) ts None.
Proof.
  intros ts Hwf Hts Hp. unfold deleteFile. rewrite Hp. destruct (existsb _ _) eqn:Ex.
  { apply fs_no_effect; [done|]. intros [Hg _]. apply existsb_keys in Ex as (k & a & Hk & Hpk). apply bool_decide_eq_true in Hpk. by rewrite Hg in Hk. }
  assert (Hno : forall k, path_of ts `prefix_of` k -> mountPoints fs !! k = None).
  { intros k Hpk. destruct (mountPoints fs !! k) as [a|] eqn:Ek; [|done]. assert (existsb (fun key => bool_decide (path_of ts `prefix_of` key)) (keys (mountPoints fs)) = true); [|congruence].
    apply existsb_keys. exists k, a. split; [done|]. by apply bool_decide_eq_true. }
  clear Ex. assert (Hk : mountPoints fs !! key ts = None) by (apply Hno; by eexists). pose proof (owner_init fs init name Hk) as Hoi. fold ts in Hoi.
  assert (Hbelow : forall t, owner (mountPoints fs) (ts ++ [t]) = owner (mountPoints fs) ts).
  { intros t. apply owner_init. apply Hno. unfold key. rewrite path_of_app, <- app_assoc. by eexists. }
  rewrite (getMountedDriver_ok fs ts Hwf Hts), ok_bind. destruct (owner (mountPoints fs) ts) as [[n a]|] eqn:Eo.
  2:{ apply fs_no_effect; [done|]. intros (_ & [v Hv] & _). unfold fs_view in Hv. by rewrite Eo in Hv. }
  symmetry in Hoi. destruct (owner_ok fs init n a Hwf Hoi) as (Hn & _ & d & Hd & Hdw). unfold driver_at. rewrite Hd. cbn [of_option]. rewrite ok_bind.
  assert (Hdrop : drop n ts = drop n init ++ [name]) by (unfold ts; by rewrite drop_app_le).
  assert (Hview : fs_view fs ts = d_view d (drop n ts)) by (unfold fs_view; rewrite Eo; cbn [mbind option_bind]; by rewrite Hd).
  assert (Hviewb : forall t, fs_view fs (ts ++ [t]) = d_view d (drop n ts ++ [t])).
  { intros t. unfold fs_view. rewrite Hbelow. cbn [mbind option_bind]. rewrite Hd. cbn [mbind option_bind]. rewrite drop_app_le; [done|]. unfold ts. rewrite length_app. lia. }
  destruct (d_deleteNode d (rel (drop n ts)) (drop n init) name Hdw) as (b & d' & -> & Hdw' & Hb & Hv); [rewrite tokens_rel by (by apply Forall_drop); done|].
  rewrite ok_bind. exists b, (set_driver a d' fs). split_and!; [done|by apply set_driver_wf| |].
  - rewrite Hb, Hview, Hdrop. split; [intros [H1 H2]; split_and!; [done|done|]|intros (_ & H1 & H2); split; [done|]]; intros t; [rewrite Hviewb, Hdrop; apply H2|rewrite <- Hdrop, <- Hviewb; apply H2].
  - intros us Hus. rewrite (set_driver_view fs ts n a d d' (if b then None else d_view d (drop n ts)) us); [|done..|].
    + destruct b; [done|]. case_decide as E; [|done]. by rewrite E.
    + intros vs. rewrite Hv, Hdrop. destruct b; [done|]. by case_decide as E; [rewrite E|].
Qed.

(** ** Mounting *)

(** The mount point [ts] is closer to [us] than [o]. *)
Definition closer ts us (o : option (nat * Z)) : Prop := ts `prefix_of` us /\ forall n a, o = Some (n, a) -> (n < length ts)%nat.

#[export] Instance closer_dec ts us o : Decision (closer ts us o).
Proof.
  unfold closer. destruct (decide (ts `prefix_of` us)) as [Hp|Hp]; [|right; by intros [? _]]. destruct o as [[n a]|]; [|by left].
  destruct (decide (n < length ts)%nat) as [Hn|Hn]; [left; split; [done|]; by intros ? ? [= <- <-]|right; intros [_ H]; by apply Hn, (H n a)].
Defined.

Lemma owner_insert m ts us a :
  Forall name_ok ts -> Forall name_ok us -> m !! key ts = None ->
  owner (<[key ts := a]> m) us = if decide (closer ts us (owner m us)) then Some (length ts, a) else owner m us.
Proof.
  intros Hts Hus Hk. assert (Hl : forall i, (i <= length us)%nat -> take i us <> ts -> <[key ts := a]> m !! key (take i us) = m !! key (take i us)).
  { intros i Hi Hne. rewrite lookup_insert_ne; [done|]. intros E. apply Hne. symmetry. apply key_inj; [done|by apply Forall_take|done]. }
  assert (Hlen : forall i, (i <= length us)%nat -> take i us = ts -> i = length ts) by (intros i Hi <-; rewrite length_take; lia).
  destruct (decide (closer ts us (owner m us))) as [[Hp Hn]|Hc].
  - destruct Hp as [rest ->]. apply owner_from_Some. split_and!; [rewrite length_app; lia|rewrite take_app_length; by rewrite lookup_insert_eq|].
    intros i Hi. rewrite Hl by (try lia; intros E; apply Hlen in E; lia). unfold owner in Hn. destruct (owner_from m (ts ++ rest) _) as [[n b]|] eqn:Eo.
    + apply owner_from_Some in Eo as (_ & _ & H). specialize (Hn n b eq_refl). apply H. lia.
    + apply (proj1 (owner_from_None _ _ _) Eo). lia.
  - destruct (owner m us) as [[n b]|] eqn:Eo.
    + apply owner_from_Some in Eo as (Hn & Hb & Hi). apply owner_from_Some.
      assert (Hafter : forall i, (n <= i <= length us)%nat -> take i us <> ts).
      { intros i Hi' E. apply Hc. split; [exists (drop i us); by rewrite <- E, take_drop|]. intros n' b' [= <- <-]. assert (n <> i) by (intros ->; congruence).
        pose proof (Hlen i ltac:(lia) E). lia. }
      split_and!; [done|rewrite Hl; [done|done|apply Hafter; lia]|]. intros i Hi'. rewrite Hl; [apply Hi; lia|lia|apply Hafter; lia].
    + pose proof (proj1 (owner_from_None _ _ _) Eo) as Hnone. apply owner_from_None. intros i Hi. rewrite Hl; [by apply Hnone|done|].
      intros E. apply Hc. split; [exists (drop i us); by rewrite <- E, take_drop|done].
Qed.

Definition unused (a : Z) fs : Prop := forall k, mountPoints fs !! k <> Some a.

Lemma put_mount_wf fs ts a d info :
  fs_wf fs -> Forall name_ok ts -> drivers fs !! a = Some d -> d_wf d -> unused a fs -> fs_wf (put_mount (key ts) a info fs).
Proof.
  intros Hwf Hts Hd Hdw Hu. split; cbn [mountPoints put_mount drivers nextDriver].
  - intros k b [[<- <-]|[_ Hb]]%lookup_insert_Some; [by exists ts|by apply (wf_key fs Hwf k b)].
  - intros k b [[<- <-]|[_ Hb]]%lookup_insert_Some; [by exists d|by apply (wf_driver fs Hwf k b)].
  - intros k1 k2 b [[<- <-]|[_ H1]]%lookup_insert_Some [[<- E]|[_ H2]]%lookup_insert_Some; [done|by apply Hu in H2|subst b; by apply Hu in H1|by apply (wf_own fs Hwf k1 k2 b)].
  - apply (wf_fresh fs Hwf).
Qed.

Lemma put_mount_view fs ts us a d info :
  Forall name_ok ts -> Forall name_ok us -> drivers fs !! a = Some d -> mountPoints fs !! key ts = None ->
  fs_view (put_mount (key ts) a info fs) us = if decide (closer ts us (owner (mountPoints fs) us)) then d_view d (drop (length ts) us) else fs_view fs us.
Proof.
  intros Hts Hus Hd Hk. unfold fs_view. cbn [mountPoints put_mount drivers]. rewrite owner_insert by done. case_decide; [|done].
  cbn [mbind option_bind]. by rewrite Hd.
Qed.

Lemma mountVirtualDriver_names fs w path ts a d :
  fs_wf fs -> Forall name_ok ts -> parse w path = path_of ts -> drivers fs !! a = Some d -> d_wf d -> unused a fs ->
  exists b fs', mountVirtualDriver w path a fs = Ok (b, fs') /\ fs_wf fs' /\
    (b = true <-> (is_Some (fs_view fs ts) \/ mountPoints fs = ∅) /\ mountPoints fs !! key ts = None) /\
    (b = false -> fs' = fs) /\
    (b = true -> exists info, fs' = put_mount (key ts) a info fs).
Proof.
  intros Hwf Hts Hp Hd Hdw Hu. unfold mountVirtualDriver. rewrite Hp. fold (key ts).
  destruct (getNode_names fs w (key ts) ts Hwf Hts (parse_key w ts Hts)) as (r & -> & _ & Hr). rewrite ok_bind.
  destruct (bool_decide (r = None) && negb (bool_decide (mountPoints fs = ∅))) eqn:Eb.
  { apply andb_true_iff in Eb as [E1%bool_decide_eq_true E2%negb_true_iff%bool_decide_eq_false]. exists false, fs. split_and!; try done. split; [done|]. intros [[[v Hv]|?] _]; [|done]. apply Hr in E1. congruence. }
  assert (Hok : is_Some (fs_view fs ts) \/ mountPoints fs = ∅).
  { apply andb_false_iff in Eb as [E1%bool_decide_eq_false|E2%negb_false_iff%bool_decide_eq_true]; [left|by right]. destruct (fs_view fs ts); [by eexists|]. exfalso. by apply E1, Hr. }
  destruct (mountPoints fs !! key ts) as [b|] eqn:Ek.
  { rewrite bool_decide_true by by eexists. exists false, fs. split_and!; try done. split; [done|]. by intros [_ ?]. }
  rewrite bool_decide_false by (by intros [? ?]). eexists true, _. split_and!; [done|by eapply put_mount_wf|done|done|]. intros _. by eexists.
Qed.

Lemma unmount_names fs w path ts a :
  fs_wf fs -> Forall name_ok ts -> parse w path = path_of ts -> mountPoints fs !! key ts = Some a ->
  (forall k b, mountPoints fs !! k = Some b -> key ts `prefix_of` k -> k = key ts) ->
  unmount w path fs = Ok (true, mkFs (delete (key ts) (mountPoints fs)) (delete (key ts) (mountInformation fs)) (delete a (drivers fs)) (nextDriver fs)).
Proof.
  intros Hwf Hts Hp Ha Hno. unfold unmount. rewrite Hp. fold (key ts).
  destruct (getNode_names fs w (key ts) ts Hwf Hts (parse_key w ts Hts)) as (r & -> & _ & Hr). rewrite ok_bind.
  assert (Ho : owner (mountPoints fs) ts = Some (length ts, a)) by (apply owner_from_Some; split_and!; [lia|by rewrite take_ge by lia|lia]).
  destruct (wf_driver fs Hwf _ _ Ha) as (d & Hd & Hdw). assert (Hv : is_Some (fs_view fs ts)).
  { unfold fs_view. rewrite Ho. cbn [mbind option_bind]. rewrite Hd. cbn [mbind option_bind]. rewrite drop_ge by lia. by apply d_root. }
  rewrite (bool_decide_false (r = None)) by (intros E%Hr; destruct Hv; congruence). cbn [andb].
  destruct (existsb _ _) eqn:Ex; [|by rewrite Ha]. apply existsb_keys in Ex as (k & b & Hk & Hkp). apply andb_true_iff in Hkp as [Hpk%bool_decide_eq_true Hne%negb_true_iff%bool_decide_eq_false].
  exfalso. apply Hne. by eapply Hno.
Qed.
End laws.

(** ** The memory file system as a driver *)

#[export] Program Instance MemoryDriver_laws : DriverLaws MemoryDriver Node := {
  d_wf := MemoryFs.wf;
  d_view := view;
  d_node d p := strip <$> nodes d !! p;
  d_dir v := exists m, v = MemoryDirectoryNode m [];
  d_fresh := fresh_node
}.
Next Obligation. intros d Hwf. destruct (MemoryFs.wf_root d Hwf) as (n & cs & Hr). unfold view. cbn. rewrite Hr. by eexists. Qed.
Next Obligation.
  intros d path Hwf. cbn. rewrite MemoryFs.getNode_ok by done. eexists. split_and!; [done|done|]. split.
  - intros [p Hp]. destruct (view d (tokens slash path)) eqn:E; [by eexists|]. apply view_locate in E; [congruence|done].
  - intros [v Hv]. destruct (locate d (tokens slash path)) eqn:E; [by eexists|]. apply view_locate in E; [congruence|done].
Qed.
Next Obligation.
  intros d path init name type Hwf Ht Hty. destruct (createNode_ok d path init name type Hwf Ht Hty) as (b & d' & E & Hwf' & Hb & Hv).
  exists b, d'. split_and!; [done|done| |done]. rewrite Hb. split; (intros [? H]; split; [done|]); [destruct H as (m & ?); by eexists _; split; [|exists m]|by destruct H as (v & ? & m & ->); exists m].
Qed.
Next Obligation. intros d path init name Hwf Ht. exact (deleteNode_ok d path init name Hwf Ht). Qed.

(** ** Theorems *)
Section theorems.
Context {D V : Type} `{!Driver D} `{!DriverLaws D V}.
Implicit Types (fs : Filesystem D).

(** C12: When the mounted drivers keep the laws of drivers (the memory driver
    does; the process, archive and ISO drivers, which refuse to create and
    delete, do not), they are one tree of names, for every path but that of
    the root: getNode finds what the canonical path leads to; creating a
    file or directory below a directory, at a path that is no mount point,
    adds exactly that path, if it is free; deleting removes exactly a path
    that exists, has no children, and is no prefix of the path of a mount
    point. *)
Theorem filesystem_tree fs w path init name :
  let ts := init ++ [name] in
  fs_wf fs -> chars_ok w -> chars_ok path -> canonical w path = ts ->
  (exists r, getNode w path fs = Ok r /\ ('(a, p) ← r; d ← drivers fs !! a; d_node d p) = fs_view fs ts) /\
  (mountPoints fs !! key ts = None -> forall type, type = DIRECTORY \/ type = REGULAR ->
    fs_effect fs (createNode w path type fs) (fs_view fs ts = None /\ exists v, fs_view fs init = Some v /\ d_dir v) ts (Some (d_fresh type name))) /\
  fs_effect fs (deleteFile w path fs)
    ((forall k, path_of ts `prefix_of` k -> mountPoints fs !! k = None) /\ is_Some (fs_view fs ts) /\ forall t, fs_view fs (ts ++ [t]) = None) ts None.
Proof.
  intros ts Hwf Hw Hpath Hc. assert (Hp : parse w path = path_of ts) by (unfold parse; by rewrite Hc). pose proof (canonical_names w path Hw Hpath) as Hts. rewrite Hc in Hts.
  split_and!.
  - destruct (getNode_names fs w path ts Hwf Hts Hp) as (r & Hr & Hv & _). by exists r.
  - intros Hk type Hty. by apply createNode_names.
  - by apply deleteFile_names.
Qed.

(** MountVirtualDriver succeeds if and only if the target exists (or
    nothing is mounted) and is no mount point; afterwards the paths at and
    below the target lead into the new driver, unless another mount point is
    closer, and all others are as before. *)
Theorem mount_shadows fs w path a d :
  let ts := canonical w path in
  fs_wf fs -> chars_ok w -> chars_ok path -> drivers fs !! a = Some d -> d_wf d -> unused a fs ->
  exists b fs', mountVirtualDriver w path a fs = Ok (b, fs') /\ fs_wf fs' /\
    (b = true <-> (is_Some (fs_view fs ts) \/ mountPoints fs = ∅) /\ mountPoints fs !! key ts = None) /\
    forall us, Forall name_ok us ->
      fs_view fs' us = if decide (b = true /\ closer ts us (owner (mountPoints fs) us)) then d_view d (drop (length ts) us) else fs_view fs us.
Proof.
  intros ts Hwf Hw Hpath Hd Hdw Hu. pose proof (canonical_names w path Hw Hpath) as Hts.
  destruct (mountVirtualDriver_names fs w path ts a d Hwf Hts eq_refl Hd Hdw Hu) as (b & fs' & E & Hwf' & Hb & Hf & Ht). exists b, fs'. split_and!; [done|done|done|].
  intros us Hus. destruct b.
  - destruct (Ht eq_refl) as (info & ->). destruct Hb as [Hb _]. destruct (Hb eq_refl) as [_ Hk]. rewrite (put_mount_view fs ts us a d info) by done.
    destruct (decide (closer ts us (owner (mountPoints fs) us))) as [Hc|Hc]; [by rewrite decide_True|]. by rewrite decide_False by (by intros [_ ?]).
  - rewrite decide_False by (by intros [? _]). by rewrite (Hf eq_refl).
Qed.

(** Unmounting what was just mounted succeeds, when there is no mount point
    below it, and gives back the tree from before. *)
Theorem unmount_restores fs fs' w path a d :
  let ts := canonical w path in
  fs_wf fs -> chars_ok w -> chars_ok path -> drivers fs !! a = Some d -> d_wf d -> unused a fs ->
  mountVirtualDriver w path a fs = Ok (true, fs') ->
  (forall k b, mountPoints fs !! k = Some b -> ~ key ts `prefix_of` k) ->
  exists fs'', unmount w path fs' = Ok (true, fs'') /\ mountPoints fs'' = mountPoints fs /\ fs_wf fs'' /\ forall us, fs_view fs'' us = fs_view fs us.
Proof.
  intros ts Hwf Hw Hpath Hd Hdw Hu Hm Hno. pose proof (canonical_names w path Hw Hpath) as Hts.
  destruct (mountVirtualDriver_names fs w path ts a d Hwf Hts eq_refl Hd Hdw Hu) as (b & f & E & Hwf' & Hb & _ & Ht). rewrite Hm in E. injection E as <- <-.
  destruct (Ht eq_refl) as (info & ->). destruct (proj1 Hb eq_refl) as [_ Hk].
  assert (Ek : delete (key ts) (<[key ts := a]> (mountPoints fs)) = mountPoints fs) by (rewrite delete_insert_eq; by apply delete_id).
  eexists. split; [apply (unmount_names (put_mount (key ts) a info fs) w path ts a Hwf' Hts eq_refl); cbn [mountPoints put_mount]; [by rewrite lookup_insert_eq|]|].
  { intros k b [[<- _]|[_ Hb']]%lookup_insert_Some Hp; [done|]. by apply Hno in Hb'. }
  cbn [mountPoints put_mount drivers mountInformation nextDriver]. rewrite Ek. split; [done|]. split.
  - split; cbn [mountPoints drivers nextDriver].
    + apply (wf_key fs Hwf).
    + intros k b Hkb. assert (b <> a) by (intros ->; by apply Hu in Hkb). rewrite lookup_delete_ne by done. by apply (wf_driver fs Hwf k).
    + apply (wf_own fs Hwf).
    + intros b Hb'. apply (wf_fresh fs Hwf). destruct (decide (b = a)) as [->|]; [by eexists|]. by rewrite lookup_delete_ne in Hb'.
  - intros us. unfold fs_view. cbn [mountPoints drivers]. destruct (owner (mountPoints fs) us) as [[n b]|] eqn:Eo; [|done]. cbn [mbind option_bind].
    apply owner_from_Some in Eo as (_ & Hb' & _). rewrite lookup_delete_ne; [done|]. intros ->. by apply Hu in Hb'.
Qed.
End theorems.

(** ** An example: the file system with the file ["/d/f"], and a second driver *)

Definition example_fs0 : Filesystem MemoryDriver := mkFs ∅ ∅ (<[1 := example_file]> (<[2 := MemoryDriver_new]> ∅)) 3.
Definition example_fs : Filesystem MemoryDriver := put_mount (key []) 1 (mkInfo [] [slash] []) example_fs0.

Lemma example_fs_wf : fs_wf example_fs.
Proof.
  apply (put_mount_wf example_fs0 [] 1 example_file).
  - split; cbn.
    + intros k a H. by rewrite lookup_empty in H.
    + intros k a H. by rewrite lookup_empty in H.
    + intros k1 k2 a H. by rewrite lookup_empty in H.
    + intros a [d [[<- _]|[_ [[<- _]|[_ H]]%lookup_insert_Some]]%lookup_insert_Some]; [lia|lia|by rewrite lookup_empty in H].
  - constructor.
  - cbn. by rewrite lookup_insert_eq.
  - apply reach_wf, example_reach.
  - intros k H. cbn in H. by rewrite lookup_empty in H.
Qed.

Lemma example_unused : unused 2 example_fs.
Proof. intros k H. cbn in H. apply lookup_insert_Some in H as [[_ [=]]|[_ H]]. by rewrite lookup_empty in H. Qed.

Lemma example_driver2 : drivers example_fs !! 2 = Some MemoryDriver_new.
Proof. cbn. rewrite lookup_insert_ne by done. by rewrite lookup_insert_eq. Qed.

Lemma example_chars l : forallb (fun c => (1 <=? c) && (c <? 128)) l = true -> chars_ok l.
Proof.
  intros H. apply Forall_forall. intros c Hc. rewrite forallb_forall in H. apply list_elem_of_In in Hc. specialize (H c Hc). lia.
Qed.

Lemma filesystem_tree_witness :
  fs_effect example_fs (deleteFile [slash] [47; 100; 47; 46; 47; 102] example_fs)
    ((forall k, path_of [[100]; [102]] `prefix_of` k -> mountPoints example_fs !! k = None) /\ is_Some (fs_view example_fs [[100]; [102]]) /\
     forall t, fs_view example_fs ([[100]; [102]] ++ [t]) = None) [[100]; [102]] None.
Proof.
  destruct (filesystem_tree example_fs [slash] [47; 100; 47; 46; 47; 102] [[100]] [102]) as (_ & _ & H);
    [apply example_fs_wf|apply example_chars; reflexivity|apply example_chars; reflexivity|vm_compute; reflexivity|exact H].
Defined.

Lemma mount_shadows_witness :
  exists b fs', mountVirtualDriver [slash] [47; 100] 2 example_fs = Ok (b, fs') /\ fs_wf fs' /\
    fs_view fs' [[100]; [102]] = if decide (b = true /\ closer [[100]] [[100]; [102]] (owner (mountPoints example_fs) [[100]; [102]])) then None else fs_view example_fs [[100]; [102]].
Proof.
  destruct (mount_shadows example_fs [slash] [47; 100] 2 MemoryDriver_new) as (b & fs' & E & Hwf & Hb & Hv);
    [apply example_fs_wf|apply example_chars; reflexivity|apply example_chars; reflexivity|apply example_driver2|apply driver_new_wf|apply example_unused|].
  exists b, fs'. split; [exact E|]. split; [exact Hwf|]. rewrite Hv; [reflexivity|].
  repeat constructor; try discriminate; by intros ?%list_elem_of_singleton.
Defined.

Definition example_mounted : Filesystem MemoryDriver := match mountVirtualDriver [slash] [47; 100] 2 example_fs with Ok (_, fs) => fs | _ => example_fs end.

Lemma unmount_restores_witness :
  exists fs'', unmount [slash] [47; 100] example_mounted = Ok (true, fs'') /\ mountPoints fs'' = mountPoints example_fs /\ forall us, fs_view fs'' us = fs_view example_fs us.
Proof.
  destruct (unmount_restores example_fs example_mounted [slash] [47; 100] 2 MemoryDriver_new) as (fs'' & E & Hm & _ & Hv);
    [apply example_fs_wf|apply example_chars; reflexivity|apply example_chars; reflexivity|apply example_driver2|apply driver_new_wf|apply example_unused|vm_compute; reflexivity| |].
  - intros k b Hk Hp. cbn in Hk. apply lookup_insert_Some in Hk as [[<- _]|[_ Hk]]; [|by rewrite lookup_empty in Hk]. apply prefix_length in Hp. vm_compute in Hp. lia.
  - exists fs''. split; [exact E|]. split; [exact Hm|exact Hv].
Defined.

(** A mount point whose path only begins with the same characters blocks the deletion of a file. *)
Theorem delete_blocked_by_sibling {D} `{!Driver D} (fs : Filesystem D) w path init name suffix a :
  canonical w path = init ++ [name] -> mountPoints fs !! key (init ++ [name ++ suffix]) = Some a -> deleteFile w path fs = Ok (false, fs).
Proof.
  intros Hc Hk. unfold deleteFile, parse. rewrite Hc. assert (Ex : existsb (fun key => bool_decide (path_of (init ++ [name]) `prefix_of` key)) (keys (mountPoints fs)) = true); [|by rewrite Ex].
  apply existsb_keys. eexists _, a. split; [exact Hk|]. apply bool_decide_eq_true. unfold key. rewrite !path_of_app, !path_of_cons. change (path_of []) with (@nil Z).
  exists (suffix ++ [slash]). rewrite !app_nil_r. by rewrite <- !app_assoc, <- app_comm_cons, <- app_assoc.
Qed.

(** A file system is mounted at ["/de"]; the directory ["/d"] is another one. *)
Lemma delete_blocked_by_sibling_witness :
  deleteFile [slash] [47; 100] (put_mount (key [[100; 101]]) 2 (mkInfo [] [] []) example_fs) = Ok (false, put_mount (key [[100; 101]]) 2 (mkInfo [] [] []) example_fs).
Proof.
  apply (delete_blocked_by_sibling _ [slash] [47; 100] [] [100] [101] 2); [vm_compute; reflexivity|]. cbn [mountPoints put_mount]. apply lookup_insert_eq.
Defined.

End Fs.
