(* ===== verification/FilesystemService.v ===== *)
(** * FilesystemService.v: open files

    [kernel/process/FileDescriptor] and [FileDescriptorManager], the functions of [lib/kernel.cpp] and
    [kernel/service/FilesystemService] that work on open files of the current process, the class [Util::Io::File] and
    the working directory of [kernel/process/Process]. The mount table and the drivers are those of [Filesystem.v]. *)

From S2P Require Import UtilString Streams Path MemoryFilesystem Filesystem Prelude Bits.
Import MemoryFs Fs.

Module FsService.

(** ** File descriptors *)

Inductive AccessMode := BLOCKING | NON_BLOCKING.
#[export] Instance AccessMode_eq_dec : EqDecision AccessMode.
Proof. solve_decision. Defined.

(** A node is given by its driver and its address there, [None] is a null pointer. *)
Record FileDescriptor := mkDescriptor { node : option (Z * Z); accessMode : AccessMode }.

#[export] Instance FileDescriptor_eq_dec : EqDecision FileDescriptor.
Proof. solve_decision. Defined.

Definition FileDescriptor_new : FileDescriptor := mkDescriptor None BLOCKING.
Definition isValid (d : FileDescriptor) : bool := bool_decide (is_Some (node d)).
Definition getNode (d : FileDescriptor) : outcome (Z * Z) := match node d with Some n => Ok n | None => Throw INVALID_ARGUMENT end.
Definition setNode (n : Z * Z) (d : FileDescriptor) : FileDescriptor := mkDescriptor (Some n) (accessMode d).
Definition setAccessMode (m : AccessMode) (d : FileDescriptor) : FileDescriptor := mkDescriptor (node d) m.
Definition clear (d : FileDescriptor) : FileDescriptor := mkDescriptor None BLOCKING.

(** ** [FileDescriptorManager] *)

Definition DEFAULT_TABLE_SIZE : Z := 1024.

Definition FileDescriptorManager_new (size : Z) : outcome (list FileDescriptor) :=
  if size <? 0 then Throw INVALID_ARGUMENT else Ok (replicate (Z.to_nat size) FileDescriptor_new).

(** The loop of [registerFile] from [fileDescriptor] on. *)
Fixpoint register_from (fileDescriptor : Z) (n : Z * Z) (table : list FileDescriptor) : Z * list FileDescriptor :=
  match table with
  | [] => (-1, [])
  | d :: table =>
    if negb (isValid d) then (fileDescriptor, setNode n (clear d) :: table)
    else let '(r, table) := register_from (fileDescriptor + 1) n table in (r, d :: table)
  end.

Definition registerFile (n : Z * Z) (table : list FileDescriptor) : Z * list FileDescriptor := register_from 0 n table.

Definition table_close (fileDescriptor : Z) (table : list FileDescriptor) : outcome (list FileDescriptor) :=
  if fileDescriptor <? 0 then Throw INVALID_ARGUMENT
  else d ← aget table fileDescriptor; aset table fileDescriptor (clear d).

Definition getDescriptor (fileDescriptor : Z) (table : list FileDescriptor) : outcome FileDescriptor :=
  if fileDescriptor =? -1 then Throw INVALID_ARGUMENT
  else d ← aget table fileDescriptor; if negb (isValid d) then Throw INVALID_ARGUMENT else Ok d.

(** ** The service and the current process *)

Record Service (D : Type) := mkService { filesystem : Filesystem D; descriptorTable : list FileDescriptor; workingDirectory : list Z }.
Arguments mkService {D} filesystem descriptorTable workingDirectory.
Arguments filesystem {D} _.
Arguments descriptorTable {D} _.
Arguments workingDirectory {D} _.

Section Service.
Context {D : Type} `{!Driver D}.
Implicit Types (s : Service D).

Definition set_files (fs : Filesystem D) s : Service D := mkService fs (descriptorTable s) (workingDirectory s).
Definition set_table (t : list FileDescriptor) s : Service D := mkService (filesystem s) t (workingDirectory s).

Definition createFile (path : list Z) (type : FileType) s : outcome (bool * Service D) :=
  match type with
  | REGULAR => '(r, fs) ← Fs.createFile (workingDirectory s) path (filesystem s); Ok (r, set_files fs s)
  | DIRECTORY => '(r, fs) ← Fs.createDirectory (workingDirectory s) path (filesystem s); Ok (r, set_files fs s)
  | CHARACTER => Ok (false, s)
  end.

Definition deleteFile (path : list Z) s : outcome (bool * Service D) :=
  '(r, fs) ← Fs.deleteFile (workingDirectory s) path (filesystem s); Ok (r, set_files fs s).

Definition openFile (path : list Z) s : outcome (Z * Service D) :=
  n ← Fs.getNode (workingDirectory s) path (filesystem s);
  match n with
  | None => Ok (-1, s)
  | Some n => let '(r, table) := registerFile n (descriptorTable s) in Ok (r, set_table table s)
  end.

Definition closeFile (fileDescriptor : Z) s : outcome (Service D) :=
  table ← table_close fileDescriptor (descriptorTable s); Ok (set_table table s).

(** [getFileDescriptor(fileDescriptor).getNode()], with the state of the driver *)
Definition open_node (fileDescriptor : Z) s : outcome (Z * Z * D) :=
  d ← getDescriptor fileDescriptor (descriptorTable s);
  '(a, p) ← getNode d;
  drv ← driver_at a (filesystem s);
  Ok (a, p, drv).

Definition getFileType (fileDescriptor : Z) s : outcome FileType := '(a, p, drv) ← open_node fileDescriptor s; drv_type p drv.
Definition getFileLength (fileDescriptor : Z) s : outcome Z := '(a, p, drv) ← open_node fileDescriptor s; l ← drv_length p drv; Ok (u32 l).
Definition getFileChildren (fileDescriptor : Z) s : outcome (list (list Z)) := '(a, p, drv) ← open_node fileDescriptor s; drv_children p drv.

(** [Node::isReadyToRead] *)
Definition isReadyToRead (p : Z) (drv : D) : outcome bool :=
  t ← drv_type p drv;
  match t with REGULAR => Ok true | DIRECTORY => Ok false | CHARACTER => Throw UNSUPPORTED_OPERATION end.

Definition readFile (fileDescriptor : Z) (targetBuffer : list Z) (pos length : Z) s : outcome (Z * list Z) :=
  d ← getDescriptor fileDescriptor (descriptorTable s);
  '(a, p, drv) ← open_node fileDescriptor s;
  ready ← (if decide (accessMode d = BLOCKING) then Ok true else isReadyToRead p drv);
  if (ready : bool) then '(read, t) ← drv_read p targetBuffer pos length drv; Ok (u32 read, t) else Ok (0, targetBuffer).

Definition writeFile (fileDescriptor : Z) (sourceBuffer : list Z) (pos length : Z) s : outcome (Z * Service D) :=
  '(a, p, drv) ← open_node fileDescriptor s;
  '(r, drv) ← drv_write p sourceBuffer pos length drv;
  Ok (r, set_files (set_driver a drv (filesystem s)) s).

(** [parameters[0]] *)
Definition first_parameter (parameters : list Z) : outcome Z := match parameters with m :: _ => Ok m | [] => Throw OUT_OF_BOUNDS end.

(** [FileDescriptor::control]: the requests are [SET_ACCESS_MODE], 0, and [IS_READY_TO_READ], 1; the answer to the latter is
    the second part of the result. *)
Definition controlFileDescriptor (fileDescriptor request : Z) (parameters : list Z) s : outcome (bool * option bool * Service D) :=
  d ← getDescriptor fileDescriptor (descriptorTable s);
  if request =? 0 then
    m ← first_parameter parameters;
    table ← aset (descriptorTable s) fileDescriptor (setAccessMode (if m =? 0 then BLOCKING else NON_BLOCKING) d);
    Ok (true, None, set_table table s)
  else if request =? 1 then
    _ ← first_parameter parameters;
    '(a, p, drv) ← open_node fileDescriptor s;
    r ← isReadyToRead p drv;
    Ok (true, Some r, s)
  else Ok (false, None, s).

(** ** [Util::Io::File] *)

(** A file object is its path and its descriptor, which is -1 as long as the file is not open. *)
Record File := mkFile { path : list Z; fileDescriptor : Z }.
Definition File_new (p : list Z) : File := mkFile p (-1).

(** The copy constructor and the destructor *)
Definition File_copy (f : File) : File := mkFile (path f) (-1).
Definition File_destroy (f : File) s : outcome (Service D) := if negb (fileDescriptor f =? -1) then closeFile (fileDescriptor f) s else Ok s.

Definition exists_ (f : File) s : outcome (bool * Service D) :=
  '(tempDescriptor, s) ← openFile (path f) s;
  if tempDescriptor >? 0 then s ← closeFile tempDescriptor s; Ok (true, s) else Ok (false, s).

Definition ensureFileIsOpened (f : File) s : outcome (File * Service D) :=
  if fileDescriptor f <? 0 then '(fd, s) ← openFile (path f) s; Ok (mkFile (path f) fd, s) else Ok (f, s).

(** What the functions that need an open file have in common. *)
Definition with_open {A} (k : Z -> Service D -> outcome A) (f : File) s : outcome (A * File * Service D) :=
  '(f, s) ← ensureFileIsOpened f s;
  if fileDescriptor f <? 0 then Throw INVALID_ARGUMENT
  else r ← k (fileDescriptor f) s; Ok (r, f, s).

Definition File_getType (f : File) s := with_open getFileType f s.
Definition File_getLength (f : File) s := with_open getFileLength f s.
Definition File_getChildren (f : File) s := with_open getFileChildren f s.
Definition isFile (f : File) s : outcome (bool * File * Service D) := '(t, f, s) ← File_getType f s; Ok (negb (bool_decide (t = DIRECTORY)), f, s).
Definition isDirectory (f : File) s : outcome (bool * File * Service D) := '(t, f, s) ← File_getType f s; Ok (bool_decide (t = DIRECTORY), f, s).

Definition File_create (f : File) (type : FileType) s : outcome (bool * File * Service D) :=
  '(r, s) ← createFile (path f) type s; Ok (r, mkFile (path f) (-1), s).
Definition File_remove (f : File) s : outcome (bool * File * Service D) :=
  '(r, s) ← deleteFile (path f) s; Ok (r, mkFile (path f) (-1), s).

(** ** The working directory: [Process::getFileFromPath] and [Process::setWorkingDirectory] *)

Definition getFileFromPath (p : list Z) s : File :=
  match p with
  | c :: _ => if c =? slash then File_new p else File_new (parse (workingDirectory s) (workingDirectory s) ++ [slash] ++ p)
  | [] => File_new (parse (workingDirectory s) (workingDirectory s) ++ [slash] ++ p)
  end.

Definition setWorkingDirectory (p : list Z) s : outcome (bool * Service D) :=
  let file := getFileFromPath p s in
  '(e, s) ← exists_ file s;
  if negb e then Ok (false, s)
  else
    '(b, file, s) ← isFile file s;
    let r := if (b : bool) then (false, s) else (true, mkService (filesystem s) (descriptorTable s) (path file)) in
    s ← File_destroy file (snd r);
    Ok (fst r, s).
End Service.
Arguments File_new p : simpl never.

(** ** The table of descriptors *)

(** A descriptor that is not in use is as good as new. *)
Definition table_wf (t : list FileDescriptor) : Prop := Forall (fun d => isValid d = false -> d = FileDescriptor_new) t.

Definition opened (n : Z * Z) : FileDescriptor := mkDescriptor (Some n) BLOCKING.

Lemma register_from_ok k n t :
  (forallb isValid t = true /\ register_from k n t = (-1, t)) \/
  exists i d, t !! i = Some d /\ isValid d = false /\ forallb isValid (take i t) = true /\ register_from k n t = (k + Z.of_nat i, <[i := opened n]> t).
Proof.
  revert k. induction t as [|d t IH]; intros k; [by left|]. cbn [register_from forallb]. destruct (isValid d) eqn:Ed; cbn [negb andb].
  - destruct (IH (k + 1)) as [[Hv ->]|(i & d' & Hi & Hd & Hv & ->)]; [by left|right]. exists (S i), d'. split_and!; [done|done|cbn; by rewrite Ed|]. cbn. f_equal. lia.
  - right. exists 0%nat, d. split_and!; [done|done|done|]. cbn. f_equal. lia.
Qed.

(** The first free descriptor is taken; the table is full otherwise. *)
Lemma registerFile_ok n t :
  table_wf t ->
  (forallb isValid t = true /\ registerFile n t = (-1, t)) \/
  exists i, t !! i = Some FileDescriptor_new /\ forallb isValid (take i t) = true /\ registerFile n t = (Z.of_nat i, <[i := opened n]> t).
Proof.
  intros Hwf. unfold registerFile. destruct (register_from_ok 0 n t) as [H|(i & d & Hi & Hd & Hv & ->)]; [by left|right].
  exists i. rewrite Z.add_0_l. split_and!; [|done|done]. rewrite Hi. f_equal. eapply Forall_lookup_1 in Hwf; [|done]. by apply Hwf.
Qed.

Lemma insert_wf i n t : table_wf t -> table_wf (<[i := opened n]> t).
Proof. intros Hwf. by apply Forall_insert. Qed.

Lemma aget_nat {A} (l : list A) (i : nat) x : l !! i = Some x -> aget l (Z.of_nat i) = Ok x.
Proof. intros H. apply aget_ok. split; [lia|]. by rewrite Nat2Z.id. Qed.

Lemma aset_nat {A} (l : list A) (i : nat) x : (i < length l)%nat -> aset l (Z.of_nat i) x = Ok (<[i := x]> l).
Proof. intros H. rewrite aset_in by (unfold zlen; lia). by rewrite Nat2Z.id. Qed.

Lemma getDescriptor_opened i n t : (i < length t)%nat -> getDescriptor (Z.of_nat i) (<[i := opened n]> t) = Ok (opened n).
Proof.
  intros Hi. unfold getDescriptor. rewrite (proj2 (Z.eqb_neq (Z.of_nat i) (-1))) by lia. rewrite (aget_nat _ i (opened n)) by (by apply list_lookup_insert_eq). done.
Qed.

Lemma getDescriptor_other i j n t d : i <> j -> getDescriptor (Z.of_nat j) t = Ok d -> getDescriptor (Z.of_nat j) (<[i := opened n]> t) = Ok d.
Proof.
  intros Hij. unfold getDescriptor. rewrite (proj2 (Z.eqb_neq (Z.of_nat j) (-1))) by lia. unfold aget. rewrite (proj2 (Z.ltb_ge (Z.of_nat j) 0)) by lia.
  by rewrite Nat2Z.id, list_lookup_insert_ne by done.
Qed.

Lemma table_close_opened i n t : t !! i = Some FileDescriptor_new -> table_close (Z.of_nat i) (<[i := opened n]> t) = Ok t.
Proof.
  intros Hi. pose proof (lookup_lt_Some _ _ _ Hi) as Hl. unfold table_close. rewrite (proj2 (Z.ltb_ge (Z.of_nat i) 0)) by lia.
  rewrite (aget_nat _ i (opened n)) by (by apply list_lookup_insert_eq). rewrite ok_bind, aset_nat by (by rewrite length_insert).
  rewrite list_insert_insert_eq. f_equal. by apply list_insert_id.
Qed.

Section service_laws.
Context {D : Type} `{!Driver D}.
Implicit Types (s : Service D).

(** Opening a file that exists. *)
Lemma openFile_ok s p n :
  table_wf (descriptorTable s) -> Fs.getNode (workingDirectory s) p (filesystem s) = Ok (Some n) ->
  (forallb isValid (descriptorTable s) = true /\ openFile p s = Ok (-1, s)) \/
  exists i, descriptorTable s !! i = Some FileDescriptor_new /\ forallb isValid (take i (descriptorTable s)) = true /\
    openFile p s = Ok (Z.of_nat i, set_table (<[i := opened n]> (descriptorTable s)) s).
Proof.
  intros Hwf Hn. unfold openFile. rewrite Hn, ok_bind. destruct (registerFile_ok n (descriptorTable s) Hwf) as [[Hv ->]|(i & Hi & Hv & ->)].
  - left. split; [done|]. destruct s. done.
  - right. by exists i.
Qed.

Lemma openFile_missing s p : Fs.getNode (workingDirectory s) p (filesystem s) = Ok None -> openFile p s = Ok (-1, s).
Proof. intros Hn. unfold openFile. by rewrite Hn. Qed.

Lemma closeFile_opened s i n : descriptorTable s !! i = Some FileDescriptor_new -> closeFile (Z.of_nat i) (set_table (<[i := opened n]> (descriptorTable s)) s) = Ok s.
Proof. intros Hi. unfold closeFile. cbn [descriptorTable set_table]. rewrite table_close_opened by done. rewrite ok_bind. by destruct s. Qed.

(** Opening an existing file takes the smallest free descriptor, leaves all
    others, and closing it restores the table. *)
Theorem open_close s p n :
  table_wf (descriptorTable s) -> Fs.getNode (workingDirectory s) p (filesystem s) = Ok (Some n) ->
  existsb (fun d => negb (isValid d)) (descriptorTable s) = true ->
  exists fd s', openFile p s = Ok (fd, s') /\ 0 <= fd < zlen (descriptorTable s) /\
    (forall j, 0 <= j < fd -> exists d, getDescriptor j (descriptorTable s) = Ok d) /\
    getDescriptor fd (descriptorTable s) = Throw INVALID_ARGUMENT /\
    getDescriptor fd (descriptorTable s') = Ok (opened n) /\
    (forall j d, j <> fd -> getDescriptor j (descriptorTable s) = Ok d -> getDescriptor j (descriptorTable s') = Ok d) /\
    table_wf (descriptorTable s') /\ closeFile fd s' = Ok s.
Proof.
  intros Hwf Hn Hfree. destruct (openFile_ok s p n Hwf Hn) as [[Hall _]|(i & Hi & Hv & E)].
  { rewrite existsb_exists in Hfree. destruct Hfree as (d & Hd & Hnv). rewrite forallb_forall in Hall. by rewrite (Hall d Hd) in Hnv. }
  pose proof (lookup_lt_Some _ _ _ Hi) as Hl. eexists _, _. split; [exact E|]. split_and!; [lia|unfold zlen; lia| | | | |by apply insert_wf|by apply closeFile_opened].
  - intros j Hj. destruct (lookup_lt_is_Some_2 (descriptorTable s) (Z.to_nat j)) as [d Hd]; [lia|]. exists d. unfold getDescriptor. rewrite (proj2 (Z.eqb_neq j (-1))) by lia.
    rewrite <- (Z2Nat.id j), (aget_nat _ _ d Hd) by lia. rewrite ok_bind. rewrite forallb_forall in Hv. rewrite (Hv d); [done|]. apply list_elem_of_In, (list_elem_of_lookup_2 _ (Z.to_nat j)).
    rewrite lookup_take_lt by lia. done.
  - unfold getDescriptor. rewrite (proj2 (Z.eqb_neq (Z.of_nat i) (-1))) by lia. by rewrite (aget_nat _ _ _ Hi).
  - by apply getDescriptor_opened.
  - intros j d Hj Hd. assert (0 <= j) as Hj0. { unfold getDescriptor in Hd. destruct (Z.eqb_spec j (-1)); [done|]. unfold aget in Hd. destruct (Z.ltb_spec j 0); [done|lia]. }
    rewrite <- (Z2Nat.id j Hj0) in Hd |- *. apply getDescriptor_other; [intros ->; lia|done].
Qed.

Lemma exists_ok s p n :
  table_wf (descriptorTable s) ->
  (Fs.getNode (workingDirectory s) p (filesystem s) = Ok None -> exists_ (File_new p) s = Ok (false, s)) /\
  (Fs.getNode (workingDirectory s) p (filesystem s) = Ok (Some n) ->
     exists_ (File_new p) s =
       Ok (if forallb isValid (descriptorTable s) then (false, s)
           else if bool_decide (descriptorTable s !! 0%nat = Some FileDescriptor_new) then (false, set_table (<[0%nat := opened n]> (descriptorTable s)) s)
           else (true, s))).
Proof.
  intros Hwf. split; intros Hn; unfold exists_; change (path (File_new p)) with p; [by rewrite openFile_missing|].
  destruct (openFile_ok s p n Hwf Hn) as [[-> ->]|(i & Hi & Hv & ->)]; [done|]. rewrite ok_bind.
  assert (forallb isValid (descriptorTable s) = false) as ->.
  { apply not_true_is_false. intros H. rewrite forallb_forall in H. apply list_elem_of_lookup_2, list_elem_of_In, H in Hi. done. }
  destruct (decide (i = 0%nat)) as [->|Hi0]; [by rewrite bool_decide_true|]. rewrite (proj2 (Z.gtb_lt (Z.of_nat i) 0)) by lia. rewrite closeFile_opened, ok_bind by done.
  rewrite bool_decide_false; [done|]. intros H0. rewrite forallb_forall in Hv. assert (Hd : In FileDescriptor_new (take i (descriptorTable s))).
  { apply list_elem_of_In, (list_elem_of_lookup_2 _ 0%nat). by rewrite lookup_take_lt by lia. }
  apply Hv in Hd. done.
Qed.
(** File::exists gives the right answer as long as descriptor 0 is in use
    and the table is not full; if descriptor 0 is free, it returns false for
    a file that exists and leaves that descriptor open. *)
Theorem exists_spec s p n :
  table_wf (descriptorTable s) ->
  (Fs.getNode (workingDirectory s) p (filesystem s) = Ok None -> exists_ (File_new p) s = Ok (false, s)) /\
  (Fs.getNode (workingDirectory s) p (filesystem s) = Ok (Some n) ->
     exists_ (File_new p) s =
       Ok (if forallb isValid (descriptorTable s) then (false, s)
           else if bool_decide (descriptorTable s !! 0%nat = Some FileDescriptor_new) then (false, set_table (<[0%nat := opened n]> (descriptorTable s)) s)
           else (true, s))).
Proof. apply exists_ok. Qed.
End service_laws.

(** ** Files in memory *)

Lemma memory_getNode (fs : Filesystem MemoryDriver) w p ts v :
  fs_wf fs -> Forall name_ok ts -> parse w p = path_of ts -> fs_view fs ts = Some v ->
  exists n a d q, owner (mountPoints fs) ts = Some (n, a) /\ drivers fs !! a = Some d /\ MemoryFs.wf d /\ locate d (drop n ts) = Some q /\
    strip <$> nodes d !! q = Some v /\ Fs.getNode w p fs = Ok (Some (a, q)).
Proof.
  intros Hwf Hts Hp. unfold fs_view, Fs.getNode. rewrite Hp, (getMountedDriver_ok fs ts Hwf Hts), ok_bind.
  destruct (owner (mountPoints fs) ts) as [[n a]|] eqn:Eo; [|done]. destruct (owner_ok fs ts n a Hwf Eo) as (_ & _ & d & Hd & Hdw). cbn [mbind option_bind]. rewrite Hd. cbn [mbind option_bind d_view MemoryDriver_laws].
  unfold view. intros Hv. destruct (locate d (drop n ts)) as [q|] eqn:El; [|done]. cbn [mbind option_bind] in Hv. exists n, a, d, q. split_and!; try done.
  unfold driver_at. rewrite Hd. cbn [of_option drv_getNode MemoryDriver_driver]. rewrite ok_bind, MemoryFs.getNode_ok by done. rewrite tokens_rel by (by apply Forall_drop). by rewrite El.
Qed.

Lemma open_node_ok {D} `{!Driver D} (s : Service D) fd a p d :
  getDescriptor fd (descriptorTable s) = Ok (opened (a, p)) -> drivers (filesystem s) !! a = Some d -> open_node fd s = Ok (a, p, d).
Proof. intros Hd Ha. unfold open_node. rewrite Hd, ok_bind. cbn [getNode opened node]. rewrite ok_bind. unfold driver_at. by rewrite Ha. Qed.

(** Two descriptors for the same file, one after the other. *)
Lemma open_twice (s s1 s2 : Service MemoryDriver) p1 p2 n fd1 fd2 :
  table_wf (descriptorTable s) -> Fs.getNode (workingDirectory s) p1 (filesystem s) = Ok (Some n) -> Fs.getNode (workingDirectory s) p2 (filesystem s) = Ok (Some n) ->
  openFile p1 s = Ok (fd1, s1) -> openFile p2 s1 = Ok (fd2, s2) -> 0 <= fd1 -> 0 <= fd2 ->
  filesystem s2 = filesystem s /\ getDescriptor fd1 (descriptorTable s2) = Ok (opened n) /\ getDescriptor fd2 (descriptorTable s2) = Ok (opened n).
Proof.
  intros Hwf H1 H2 E1 E2 Hf1 Hf2. destruct (openFile_ok s p1 n Hwf H1) as [[_ E]|(i & Hi & _ & E)]; rewrite E in E1; injection E1 as <- <-; [lia|].
  set (s1 := set_table _ s) in *. pose proof (lookup_lt_Some _ _ _ Hi) as Hil.
  destruct (openFile_ok s1 p2 n) as [[_ E']|(j & Hj & _ & E')]; [by apply insert_wf|done| |]; rewrite E' in E2; injection E2 as <- <-; [lia|]. pose proof (lookup_lt_Some _ _ _ Hj) as Hjl.
  cbn [descriptorTable set_table s1] in *. assert (j <> i) by (intros ->; rewrite list_lookup_insert_eq in Hj by done; discriminate).
  split_and!; [done| |by apply getDescriptor_opened]. apply getDescriptor_other; [done|by apply getDescriptor_opened].
Qed.

(** C13: When a file of the memory file system is opened under two paths with
    the same canonical form, what is written through one descriptor, up to
    an end below 4 GiB, is read through the other, the length is the larger
    of the old length and the end of the write, bytes in a gap are zero, and
    no other file changes. *)
Theorem shared_file (s s1 s2 : Service MemoryDriver) p1 p2 fd1 fd2 name data src pos n :
  let w := workingDirectory s in
  let ts := canonical w p1 in
  fs_wf (filesystem s) -> table_wf (descriptorTable s) -> chars_ok w -> chars_ok p1 -> canonical w p2 = ts ->
  fs_view (filesystem s) ts = Some (MemoryFileNode name data (zlen data)) ->
  openFile p1 s = Ok (fd1, s1) -> openFile p2 s1 = Ok (fd2, s2) -> 0 <= fd1 -> 0 <= fd2 ->
  0 <= pos -> 0 <= n <= zlen src -> pos + n < 2 ^ 32 -> zlen data < 2 ^ 32 ->
  let new := overwrite data pos (take (Z.to_nat n) src) in
  exists s3, writeFile fd1 src pos n s2 = Ok (n, s3) /\
    (forall us, Forall name_ok us -> fs_view (filesystem s3) us = if decide (us = ts) then Some (MemoryFileNode name new (zlen new)) else fs_view (filesystem s) us) /\
    getFileLength fd2 s3 = Ok (Z.max (zlen data) (pos + n)) /\
    forall target, n <= zlen target -> readFile fd2 target pos n s3 = Ok (n, take (Z.to_nat n) src ++ drop (Z.to_nat n) target).
Proof.
  intros w ts Hwf Htw Hw Hp1 Hp2 Hv E1 E2 Hf1 Hf2 Hpos Hn Hs Hd new. pose proof (canonical_names w p1 Hw Hp1) as Hts. fold ts in Hts.
  destruct (memory_getNode (filesystem s) w p1 ts _ Hwf Hts eq_refl Hv) as (k & a & d & q & Ho & Ha & Hdw & Hl & Hnode & Hg1).
  destruct (memory_getNode (filesystem s) w p2 ts _ Hwf Hts ltac:(unfold parse; by rewrite Hp2) Hv) as (k' & a' & d' & q' & Ho' & Ha' & _ & Hl' & _ & Hg2).
  rewrite Ho in Ho'. injection Ho' as <- <-. rewrite Ha in Ha'. injection Ha' as <-. rewrite Hl in Hl'. injection Hl' as <-.
  destruct (open_twice s s1 s2 p1 p2 (a, q) fd1 fd2 Htw Hg1 Hg2 E1 E2 Hf1 Hf2) as (Hfs & Hd1 & Hd2).
  assert (Hq : nodes d !! q = Some (MemoryFileNode name data (zlen data))).
  { destruct (nodes d !! q) as [nd|]; [|done]. cbn in Hnode. injection Hnode as Hnode. by destruct nd; try discriminate; cbn in Hnode; rewrite Hnode. }
  destruct (file_contents_ok d (drop k ts) q name data src pos n Hdw Hl Hq Hpos Hn Hs Hd) as (d1 & Hwr & Hdw1 & Hv1 & Hlen & Hrd). fold new in Hv1.
  unfold writeFile. rewrite (open_node_ok s2 fd1 a q d Hd1) by (by rewrite Hfs). rewrite ok_bind. cbn [drv_write MemoryDriver_driver]. rewrite Hwr, ok_bind.
  eexists. split; [done|]. set (s3 := set_files _ s2).
  assert (Hon : open_node fd2 s3 = Ok (a, q, d1)) by (apply open_node_ok; [done|]; cbn; by rewrite lookup_insert_eq). split_and!.
  - intros us Hus. cbn [filesystem set_files s3]. rewrite Hfs. apply (set_driver_view (filesystem s) ts k a d d1); try done.
  - unfold getFileLength. rewrite Hon, ok_bind. cbn [drv_length MemoryDriver_driver]. rewrite Hlen, ok_bind. f_equal. apply size_small. pose proof (zlen_nonneg data). lia.
  - intros target Ht. unfold readFile. change (descriptorTable s3) with (descriptorTable s2). rewrite Hd2, ok_bind, Hon, ok_bind. cbn [accessMode opened]. rewrite decide_True by done. rewrite ok_bind.
    cbn [drv_read MemoryDriver_driver]. rewrite Hrd by done. rewrite ok_bind. f_equal. f_equal. apply size_small. lia.
Qed.

(** ** The working directory *)

Lemma path_of_absolute ts l : absolute (path_of ts ++ [slash] ++ l).
Proof. destruct ts as [|t ts]; [by eexists|]. rewrite path_of_cons. by eexists. Qed.

Lemma file_path_ok {D} (s : Service D) p :
  chars_ok (workingDirectory s) -> absolute (workingDirectory s) -> p <> [] ->
  let q := path (getFileFromPath p s) in
  absolute q /\ resolve (tokens slash q) = canonical (workingDirectory s) p /\ canonical (workingDirectory s) q = canonical (workingDirectory s) p.
Proof.
  intros Hc Hw Hp q. set (w := workingDirectory s) in *. assert (H : absolute q /\ resolve (tokens slash q) = canonical w p).
  - destruct p as [|c p]; [done|]. unfold q, getFileFromPath. destruct (Z.eqb_spec c slash) as [->|Hne].
    + change (path (File_new (slash :: p))) with (slash :: p). split; [by eexists|]. unfold canonical. rewrite decide_False by done. by rewrite decide_True by (by eexists).
    + cbn [path File_new]. change (path (File_new ?x)) with x. fold w. unfold parse. split; [apply path_of_absolute|].
      assert (E : canonical w w = resolve (tokens slash w)) by (unfold canonical; rewrite decide_False by (intros ->; by destruct Hw); by rewrite decide_True).
      cbn [app]. rewrite tokens_split, E. rewrite tokens_path_of by (eapply Forall_impl; [apply resolve_names, tokens_names, Hc|]; intros ? (? & ? & _); by split).
      unfold canonical. rewrite decide_False by done. rewrite decide_False; [done|]. intros [l [= -> _]]. done.
  - destruct H as [Ha Hr]. split_and!; [done|done|]. rewrite <- Hr. unfold canonical at 1. rewrite decide_False by (intros E; rewrite E in Ha; by destruct Ha). by rewrite decide_True.
Qed.

Lemma isFile_ok (s : Service MemoryDriver) p a q d nd :
  table_wf (descriptorTable s) -> existsb (fun d => negb (isValid d)) (descriptorTable s) = true ->
  Fs.getNode (workingDirectory s) p (filesystem s) = Ok (Some (a, q)) -> drivers (filesystem s) !! a = Some d -> nodes d !! q = Some nd ->
  exists i, descriptorTable s !! i = Some FileDescriptor_new /\
    isFile (File_new p) s = Ok (negb (bool_decide (getType nd = DIRECTORY)), mkFile p (Z.of_nat i), set_table (<[i := opened (a, q)]> (descriptorTable s)) s).
Proof.
  intros Hwf Hfree Hg Ha Hq. destruct (openFile_ok s p (a, q) Hwf Hg) as [[Hall _]|(i & Hi & _ & E)].
  { rewrite existsb_exists in Hfree. destruct Hfree as (x & Hx & Hnv). rewrite forallb_forall in Hall. by rewrite (Hall x Hx) in Hnv. }
  exists i. split; [done|]. pose proof (lookup_lt_Some _ _ _ Hi) as Hl. unfold isFile, File_getType, with_open, ensureFileIsOpened. change (fileDescriptor (File_new p) <? 0) with true.
  change (path (File_new p)) with p. rewrite E, !ok_bind. cbn [fileDescriptor]. rewrite (proj2 (Z.ltb_ge (Z.of_nat i) 0)) by lia.
  unfold getFileType. rewrite (open_node_ok _ _ a q d) by (try done; by apply getDescriptor_opened). rewrite ok_bind. cbn [drv_type MemoryDriver_driver]. unfold wrapper_getType, node_at. rewrite Hq. done.
Qed.

Lemma strip_dir nd v : strip nd = v -> getType nd = DIRECTORY <-> exists m, v = MemoryDirectoryNode m [].
Proof. intros <-. split; [destruct nd; try done; intros _; by eexists|]. intros [m Hm]. by destruct nd. Qed.

(** SetWorkingDirectory succeeds exactly for a path to a directory, then
    relative paths start there; it leaves files and descriptors as they
    were, and the working directory stays absolute, so that resolving paths
    ends. *)
Theorem change_directory (s : Service MemoryDriver) p :
  let w := workingDirectory s in
  let ts := canonical w p in
  fs_wf (filesystem s) -> table_wf (descriptorTable s) -> chars_ok w -> chars_ok p -> absolute w -> p <> [] ->
  descriptorTable s !! 0%nat <> Some FileDescriptor_new -> existsb (fun d => negb (isValid d)) (descriptorTable s) = true ->
  exists b s', setWorkingDirectory p s = Ok (b, s') /\
    (b = true <-> exists m, fs_view (filesystem s) ts = Some (MemoryDirectoryNode m [])) /\
    filesystem s' = filesystem s /\ descriptorTable s' = descriptorTable s /\ absolute (workingDirectory s') /\
    if (b : bool) then resolve (tokens slash (workingDirectory s')) = ts else workingDirectory s' = w.
Proof.
  intros w ts Hwf Htw Hw Hp Ha Hne H0 Hfree. destruct (file_path_ok s p Hw Ha Hne) as (Hqa & Hqr & Hqc). pose proof (canonical_names w p Hw Hp) as Hts. fold w ts in Hts, Hqr, Hqc.
  unfold setWorkingDirectory. set (f := getFileFromPath p s) in *. assert (Ef : f = File_new (path f)) by (unfold f, getFileFromPath; destruct p as [|c p']; [done|]; by destruct (c =? slash)).
  set (q := path f) in *. rewrite Ef. clearbody q f. subst f. assert (Hpq : parse w q = path_of ts) by (unfold parse; by rewrite Hqc).
  destruct (fs_view (filesystem s) ts) as [v|] eqn:Ev.
  - destruct (memory_getNode (filesystem s) w q ts v Hwf Hts Hpq Ev) as (k & a & d & x & _ & Hd & Hdw & _ & Hx & Hg).
    rewrite (proj2 (exists_ok s q (a, x) Htw) Hg). assert (forallb isValid (descriptorTable s) = false) as ->.
    { apply not_true_is_false. intros H. rewrite existsb_exists in Hfree. destruct Hfree as (y & Hy & Hny). rewrite forallb_forall in H. by rewrite (H y Hy) in Hny. }
    rewrite bool_decide_false by done. rewrite ok_bind. cbn [negb]. destruct (nodes d !! x) as [nd|] eqn:End; [|done]. injection Hx as Hx.
    destruct (isFile_ok s q a x d nd Htw Hfree Hg Hd End) as (i & Hi & ->). rewrite ok_bind. cbv zeta. pose proof (strip_dir nd v Hx) as Hdir.
    set (s' := mkService (filesystem s) (descriptorTable s) q). assert (Hneg : (Z.of_nat i =? -1) = false) by (apply Z.eqb_neq; lia).
    case_bool_decide as Ht; cbn [negb fst snd].
    + change (mkService _ _ _) with (set_table (<[i := opened (a, x)]> (descriptorTable s')) s'). unfold File_destroy. cbn [fileDescriptor]. rewrite Hneg. cbn [negb]. rewrite closeFile_opened, ok_bind by done.
      eexists true, s'. split_and!; try done. split; [|done]. intros _. apply Hdir in Ht as [m ->]. by exists m.
    + unfold File_destroy. cbn [fileDescriptor]. rewrite Hneg. cbn [negb]. rewrite closeFile_opened, ok_bind by done.
      eexists false, s. split_and!; try done. split; [done|]. intros [m [= ->]]. exfalso. apply Ht, Hdir. by exists m.
  - destruct (getNode_names (filesystem s) w q ts Hwf Hts Hpq) as (r & Hg & _ & Hr). assert (r = None) as -> by by apply Hr.
    rewrite (proj1 (exists_ok s q (0, 0) Htw) Hg), ok_bind. cbn [negb]. exists false, s. split_and!; try done. split; [done|by intros [m [=]]].
Qed.

(** ** Examples: a process with one open file and three free descriptors *)

Definition example_service : Service MemoryDriver := mkService example_fs [opened (1, 1); FileDescriptor_new; FileDescriptor_new; FileDescriptor_new] [slash].

Lemma example_table : table_wf (descriptorTable example_service).
Proof. repeat constructor; done. Qed.

(** ["/d/f"] and ["d/../d/f"] *)
Definition example_path1 : list Z := [47; 100; 47; 102].
Definition example_path2 : list Z := [100; 47; 46; 46; 47; 100; 47; 102].

Lemma example_node : Fs.getNode [slash] example_path1 example_fs = Ok (Some (1, 3)).
Proof. vm_compute. reflexivity. Qed.

Lemma open_close_witness :
  exists fd s', openFile example_path1 example_service = Ok (fd, s') /\ getDescriptor fd (descriptorTable s') = Ok (opened (1, 3)) /\ closeFile fd s' = Ok example_service.
Proof.
  destruct (open_close example_service example_path1 (1, 3)) as (fd & s' & E & _ & _ & _ & Hd & _ & _ & Hc); [exact example_table|exact example_node|reflexivity|].
  exists fd, s'. split; [exact E|]. split; [exact Hd|exact Hc].
Defined.

(** Descriptor 0 is free. *)
Definition example_empty : Service MemoryDriver := mkService example_fs [FileDescriptor_new; FileDescriptor_new] [slash].

Lemma exists_spec_witness :
  exists_ (File_new example_path1) example_empty = Ok (false, set_table [opened (1, 3); FileDescriptor_new] example_empty) /\
  exists_ (File_new example_path1) example_service = Ok (true, example_service).
Proof.
  split.
  - destruct (exists_spec example_empty example_path1 (1, 3)) as [_ H]; [repeat constructor; done|]. exact (H example_node).
  - destruct (exists_spec example_service example_path1 (1, 3)) as [_ H]; [exact example_table|]. exact (H example_node).
Defined.

Definition example_opened1 : Service MemoryDriver := set_table [opened (1, 1); opened (1, 3); FileDescriptor_new; FileDescriptor_new] example_service.
Definition example_opened2 : Service MemoryDriver := set_table [opened (1, 1); opened (1, 3); opened (1, 3); FileDescriptor_new] example_service.

Lemma shared_file_witness :
  exists s3, writeFile 1 [7; 8; 9] 1 3 example_opened2 = Ok (3, s3) /\ getFileLength 2 s3 = Ok 4 /\ readFile 2 [0; 0; 0; 5] 1 3 s3 = Ok (3, [7; 8; 9; 5]).
Proof.
  destruct (shared_file example_service example_opened1 example_opened2 example_path1 example_path2 1 2 [102] [] [7; 8; 9] 1 3) as (s3 & Hw & _ & Hl & Hr);
    [exact example_fs_wf|exact example_table|apply example_chars; reflexivity|apply example_chars; reflexivity|vm_compute; reflexivity|vm_compute; reflexivity
    |vm_compute; reflexivity|vm_compute; reflexivity|lia|lia|lia|by vm_compute|lia|by vm_compute|].
  exists s3. split; [exact Hw|]. split; [exact Hl|]. rewrite Hr; [reflexivity|by vm_compute].
Defined.

Lemma change_directory_witness :
  exists b s', setWorkingDirectory [100] example_service = Ok (b, s') /\ (b = true <-> exists m, fs_view example_fs [[100]] = Some (MemoryDirectoryNode m [])) /\ absolute (workingDirectory s').
Proof.
  destruct (change_directory example_service [100]) as (b & s' & E & Hb & _ & _ & Ha & _);
    [exact example_fs_wf|exact example_table|apply example_chars; reflexivity|apply example_chars; reflexivity|by exists []|done|done|reflexivity|].
  exists b, s'. split; [exact E|]. split; [exact Hb|exact Ha].
Defined.

End FsService.
