(* ===== verification/Storage.v ===== *)
(** * Storage.v: storage devices and partition tables

    [device/storage]: the interface [StorageDevice], the disk in memory ([VirtualDiskDrive]), a part of a device
    ([Partition]), the conversion of sector numbers ([ChsConverter]), and [PartitionHandler], which reads and writes the
    partition table of a device. What the handler relies on is [DeviceLaws]; the disk in memory and its parts satisfy
    them.

    A buffer is the list of its bytes. Numbers in a partition table are stored with the lowest byte first. *)

From S2P Require Import UtilString Streams Prelude Bits.

(** ** [StorageDevice] *)

(** [dev_read] gives the number of sectors and the contents of the buffer. *)
Class StorageDevice (Dev : Type) := {
  getSectorSize : Dev -> Z;
  getSectorCount : Dev -> Z;
  dev_read : list Z -> Z -> Z -> Dev -> outcome (Z * list Z);
  dev_write : list Z -> Z -> Z -> Dev -> outcome (Z * Dev)
}.

(** A device is a sequence of sectors. *)
Class DeviceLaws (Dev : Type) `{!StorageDevice Dev} := {
  dev_wf : Dev -> Prop;
  sector : Dev -> Z -> option (list Z);
  size_ok d : dev_wf d -> 0 < getSectorSize d < 2 ^ 32;
  sector_size d s b : dev_wf d -> sector d s = Some b -> zlen b = getSectorSize d /\ 0 <= s < 2 ^ 32;
  read_ok d s b buffer : dev_wf d -> sector d s = Some b -> zlen buffer = getSectorSize d -> dev_read buffer s 1 d = Ok (1, b);
  write_ok d s b b' : dev_wf d -> sector d s = Some b -> zlen b' = getSectorSize d ->
    exists d', dev_write b' s 1 d = Ok (1, d') /\ dev_wf d' /\ getSectorSize d' = getSectorSize d /\
      forall t, sector d' t = if decide (t = s) then Some b' else sector d t;
  write_count d b s n d' : dev_wf d -> dev_write b s 1 d = Ok (n, d') -> n <= 1 /\ dev_wf d' /\ getSectorSize d' = getSectorSize d
}.

(** ** [VirtualDiskDrive] *)
Module VirtualDiskDrive.

Record VirtualDiskDrive := mk { address : list Z; sectorSize : Z; sectorCount : Z }.

Definition read (buffer : list Z) (startSector count : Z) (d : VirtualDiskDrive) : outcome (Z * list Z) :=
  if u32 (startSector + count) >? sectorCount d then Throw OUT_OF_BOUNDS
  else
    let byteCount := u32 (sectorSize d * count) in
    b ← copy_chars buffer 0 (address d) (u32 (sectorSize d * startSector)) byteCount;
    Ok (count, b).

Definition write (buffer : list Z) (startSector count : Z) (d : VirtualDiskDrive) : outcome (Z * VirtualDiskDrive) :=
  if u32 (startSector + count) >? sectorCount d then Throw OUT_OF_BOUNDS
  else
    let byteCount := u32 (sectorSize d * count) in
    a ← copy_chars (address d) (u32 (sectorSize d * startSector)) buffer 0 byteCount;
    Ok (count, mk a (sectorSize d) (sectorCount d)).

#[global] Instance device : StorageDevice VirtualDiskDrive := {
  getSectorSize := sectorSize; getSectorCount := sectorCount; dev_read := read; dev_write := write
}.

Definition wf (d : VirtualDiskDrive) : Prop :=
  0 < sectorSize d /\ 0 <= sectorCount d /\ sectorSize d * sectorCount d < 2 ^ 32 /\ zlen (address d) = sectorSize d * sectorCount d.

Definition sector_at (d : VirtualDiskDrive) (s : Z) : option (list Z) :=
  if decide (0 <= s < sectorCount d) then Some (ztake (sectorSize d) (zdrop (sectorSize d * s) (address d))) else None.

Lemma in_range d s : wf d -> 0 <= s < sectorCount d ->
  0 <= sectorSize d * s /\ sectorSize d * s + sectorSize d <= zlen (address d) /\ s + 1 < 2 ^ 32 /\ sectorSize d < 2 ^ 32.
Proof. intros (Hs & Hc & Hm & Hl) Hr. assert (sectorSize d * (s + 1) <= sectorSize d * sectorCount d) by nia. nia. Qed.

Lemma device_sizes d s : wf d -> 0 <= s < sectorCount d ->
  (u32 (s + 1) >? sectorCount d) = false /\ u32 (sectorSize d * 1) = sectorSize d /\ u32 (sectorSize d * s) = sectorSize d * s.
Proof.
  intros Hwf Hr. destruct (in_range d s Hwf Hr) as (H1 & H2 & H3 & H4). destruct Hwf as (Hs & Hc & Hm & Hl). unfold u32. rewrite !wrap_small by (unfold in_u; nia).
  split_and!; [rewrite Z.gtb_ltb; apply Z.ltb_ge; lia|lia|done].
Qed.

Lemma splice_other (a b : list Z) o n p : 0 <= o -> 0 <= p -> zlen b = n -> o + n <= zlen a -> p + n <= o \/ o + n <= p ->
  ztake n (zdrop p (splice a o b)) = ztake n (zdrop p a).
Proof.
  intros Ho Hp Hb Hl Hd. unfold splice, ztake, zdrop. apply list_eq. intros i.
  destruct (decide (i < Z.to_nat n)%nat) as [Hi|Hi]; [|by rewrite !lookup_take_ge by lia]. rewrite !lookup_take_lt, !lookup_drop by done. unfold zlen in *. destruct Hd as [Hd|Hd].
  - rewrite lookup_app_l by (rewrite length_take; lia). by rewrite lookup_take_lt by lia.
  - rewrite lookup_app_r by (rewrite length_take; lia). rewrite length_take, lookup_app_r by lia. rewrite lookup_drop. f_equal. lia.
Qed.

Lemma copy_chars_length t o a p n t' : copy_chars t o a p n = Ok t' -> zlen t' = zlen t.
Proof.
  unfold copy_chars. generalize 0 as i. revert t. induction (Z.to_nat n) as [|m IH]; intros t i; cbn [for_up]; [by intros [= <-]|].
  destruct (aget a (p + i)) as [c| | |]; try done. rewrite ok_bind. unfold aset. destruct (_ || _); [done|]. intros E. cbn in E. apply IH in E. by rewrite E, zlen_insert.
Qed.

#[global] Program Instance laws : DeviceLaws VirtualDiskDrive := {
  dev_wf d := wf d /\ sectorSize d < 2 ^ 32;
  sector := sector_at
}.
Next Obligation. intros d [(Hs & _) Hl]. cbn. lia. Qed.
Next Obligation.
  intros d s b [Hwf _] Hb. unfold sector_at in Hb. destruct (decide _) as [Hr|]; [|done]. injection Hb as <-. destruct (in_range d s Hwf Hr) as (H1 & H2 & H3 & H4).
  destruct Hwf as (Hs & _). split; [|lia]. cbn. unfold ztake, zdrop, zlen in *. rewrite length_take, length_drop. lia.
Qed.
Next Obligation.
  intros d s b buffer [Hwf _] Hb Hl. unfold sector_at in Hb. destruct (decide _) as [Hr|]; [|done]. injection Hb as <-. destruct (in_range d s Hwf Hr) as (H1 & H2 & H3 & H4).
  destruct (device_sizes d s Hwf Hr) as (E1 & E2 & E3). cbn in *. unfold read. rewrite E1, E2, E3. destruct Hwf as (Hs & _).
  rewrite copy_chars_ok by lia. rewrite ok_bind. change (Z.to_nat 0) with 0%nat. rewrite take_0, app_nil_l. rewrite (drop_ge buffer) by (unfold zlen in *; lia). by rewrite app_nil_r.
Qed.
Next Obligation.
  intros d s b b' [Hwf Hsz] Hb Hl. unfold sector_at in Hb. destruct (decide _) as [Hr|]; [|done]. clear Hb. destruct (in_range d s Hwf Hr) as (H1 & H2 & H3 & H4).
  destruct (device_sizes d s Hwf Hr) as (E1 & E2 & E3). cbn in *. unfold write. rewrite E1, E2, E3. pose proof Hwf as (Hs & Hc & Hm & Ha).
  rewrite copy_chars_ok by lia. rewrite ok_bind. change (Z.to_nat 0) with 0%nat. rewrite drop_0, (take_ge b') by (unfold zlen in *; lia).
  assert (Es : take (Z.to_nat (sectorSize d * s)) (address d) ++ b' ++ drop (Z.to_nat (sectorSize d * s + sectorSize d)) (address d) = splice (address d) (sectorSize d * s) b') by (unfold splice; by rewrite Hl).
  rewrite Es. eexists. split; [done|]. split; [|split; [done|]].
  - split; [|done]. unfold wf. cbn. rewrite zlen_splice by lia. done.
  - intros t. unfold sector_at. cbn. destruct (decide (0 <= t < sectorCount d)) as [Ht|Ht]; [|by rewrite decide_False by (intros ->; lia)].
    destruct (decide (t = s)) as [->|Hne]; f_equal.
    + unfold ztake, zdrop, splice. rewrite drop_app_length' by (rewrite length_take; unfold zlen in *; lia). rewrite take_app_length'; [done|unfold zlen in *; lia].
    + apply splice_other; [lia|nia|lia|lia|]. destruct (decide (t < s)); [left; nia|right; nia].
Qed.
Next Obligation.
  intros d b s n d' [(Hs & Hc & Hm & Ha) Hsz] E. cbn in E. unfold write in E. destruct (_ >? _); [done|].
  destruct (copy_chars _ _ _ _ _) as [a| | |] eqn:Ec; try done. rewrite ok_bind in E. injection E as <- <-. apply copy_chars_length in Ec.
  split; [lia|]. split; [|done]. split; [|done]. unfold wf. cbn. by rewrite Ec.
Qed.
End VirtualDiskDrive.

(** ** [Partition] *)
Module Partition.

(** The part of a device from [startSector] on. Nothing keeps accesses below [sectorCount]. *)
Record Partition (Dev : Type) := mk { parentDevice : Dev; startSector : Z; sectorCount : Z }.
Arguments mk {Dev} parentDevice startSector sectorCount.
Arguments parentDevice {Dev} _.
Arguments startSector {Dev} _.
Arguments sectorCount {Dev} _.

Definition read {Dev} `{!StorageDevice Dev} (buffer : list Z) (start count : Z) (p : Partition Dev) : outcome (Z * list Z) :=
  dev_read buffer (u32 (startSector p + start)) count (parentDevice p).

Definition write {Dev} `{!StorageDevice Dev} (buffer : list Z) (start count : Z) (p : Partition Dev) : outcome (Z * Partition Dev) :=
  '(n, d) ← dev_write buffer (u32 (startSector p + start)) count (parentDevice p); Ok (n, mk d (startSector p) (sectorCount p)).

#[global] Instance device {Dev} `{!StorageDevice Dev} : StorageDevice (Partition Dev) := {
  getSectorSize p := getSectorSize (parentDevice p); getSectorCount := sectorCount; dev_read := read; dev_write := write
}.

#[global] Program Instance laws {Dev} `{!StorageDevice Dev} `{!DeviceLaws Dev} : DeviceLaws (Partition Dev) := {
  dev_wf p := dev_wf (parentDevice p) /\ 0 <= startSector p;
  sector p s := if decide (0 <= s /\ startSector p + s < 2 ^ 32) then sector (parentDevice p) (startSector p + s) else None
}.
Next Obligation. intros Dev ? ? p [Hp _]. apply (size_ok _ Hp). Qed.
Next Obligation.
  intros Dev ? ? p s b [Hp Hs] Hb. cbn beta in Hb. destruct (decide _) as [Hr|]; [|done]. destruct (sector_size _ _ _ Hp Hb). split; [done|lia].
Qed.
Next Obligation.
  intros Dev ? ? p s b buffer [Hp Hs] Hb Hl. cbn beta in Hb. destruct (decide _) as [Hr|]; [|done]. cbn. unfold read. unfold u32. rewrite wrap_small by (unfold in_u; lia). by apply read_ok.
Qed.
Next Obligation.
  intros Dev ? ? p s b b' [Hp Hs] Hb Hl. cbn beta in Hb. destruct (decide _) as [Hr|]; [|done]. destruct (write_ok _ _ _ b' Hp Hb Hl) as (d' & E & Hwf & Hsz & Hv).
  cbn. unfold write, u32. rewrite wrap_small by (unfold in_u; lia). rewrite E, ok_bind. eexists. split; [done|]. split_and!; [done|done|done|]. intros t. cbn.
  destruct (decide (0 <= t /\ startSector p + t < 2 ^ 32)) as [Ht|Ht]; [|by rewrite decide_False by (intros ->; done)]. rewrite Hv.
  destruct (decide (t = s)) as [->|Hne]; [by rewrite decide_True|]. by rewrite decide_False by lia.
Qed.
Next Obligation.
  intros Dev ? ? p b s n p' [Hp Hs] E. cbn in E. unfold write in E. destruct (dev_write _ _ _ _) as [[m d]| | |] eqn:Ew; try done. rewrite ok_bind in E. injection E as <- <-.
  apply (write_count _ _ _ _ _ Hp) in Ew as (H1 & H2 & H3). by split_and!.
Qed.
End Partition.

(** ** [ChsConverter] *)
Module ChsConverter.
Record ChsConverter := mk { cylinders : Z; heads : Z; sectorsPerTrack : Z }.
Record CylinderHeadSector := mkChs { cylinder : Z; head : Z; chs_sector : Z }.

Definition lbaToChs (lbaSector : Z) (c : ChsConverter) : outcome CylinderHeadSector :=
  a ← udiv lbaSector (heads c * sectorsPerTrack c);
  m ← umod lbaSector (heads c * sectorsPerTrack c);
  h ← udiv m (sectorsPerTrack c);
  s ← umod lbaSector (sectorsPerTrack c);
  Ok (mkChs (u16 a) (u8 h) (u8 (s + 1))).

(** The three numbers name the sector. *)
Lemma lbaToChs_ok lba c :
  0 <= lba -> 0 < heads c < 256 -> 0 < sectorsPerTrack c < 256 -> lba / (heads c * sectorsPerTrack c) < 2 ^ 16 ->
  exists r, lbaToChs lba c = Ok r /\ (cylinder r * heads c + head r) * sectorsPerTrack c + (chs_sector r - 1) = lba /\
    0 <= head r < heads c /\ 1 <= chs_sector r <= sectorsPerTrack c.
Proof.
  destruct c as [cs H S]. cbn [heads sectorsPerTrack]. intros Hl HH HS Hq. unfold lbaToChs. cbn [heads sectorsPerTrack].
  assert (HP : 0 < H * S) by nia. rewrite !udiv_ok, !umod_ok by lia. rewrite !ok_bind. rewrite udiv_ok by lia. rewrite ok_bind.
  set (q := lba / (H * S)) in *. set (m := lba mod (H * S)). assert (E : lba = m + q * H * S) by (unfold m, q; rewrite (Z.div_mod lba (H * S)) at 1 by lia; lia).
  assert (Em : m = S * (m / S) + m mod S) by (apply Z.div_mod; lia). assert (Hm : 0 <= m < H * S) by (apply Z.mod_pos_bound; lia). assert (Hms : 0 <= m mod S < S) by (apply Z.mod_pos_bound; lia).
  assert (El : lba mod S = m mod S) by (rewrite E; apply Z_mod_plus_full). assert (Hq0 : 0 <= q) by (apply Z.div_pos; lia). assert (Hh : 0 <= m / S < H) by (split; [apply Z.div_pos; lia|apply Z.div_lt_upper_bound; lia]).
  clearbody q m. eexists. split; [done|]. cbn [cylinder head chs_sector]. rewrite El. unfold u16, u8. rewrite !wrap_small by (unfold in_u; lia). split_and!; nia.
Qed.
End ChsConverter.

(** ** [PartitionHandler] *)
Module PartitionHandler.

Inductive PartitionType := PRIMARY | EXTENDED | LOGICAL.
Definition EMPTY : Z := 0.
Definition EXTENDED_PARTITION : Z := 5.
Definition EXTENDED_PARTITION_LBA : Z := 15.
Definition PARTITION_TABLE_START : Z := 446.
Definition BOOT_RECORD_SIGNATURE : Z := 43605.
(** [sizeof(PartitionTableEntry)] *)
Definition ENTRY_SIZE : Z := 16.

Record PartitionInfo := mkInfo { number : Z; type : PartitionType; active : bool; info_systemId : Z; startSector : Z; info_sectorCount : Z }.

Record PartitionTableEntry := mkEntry {
  activeFlag : Z; startHead : Z; startSectorCylinder : Z; systemId : Z;
  endHead : Z; endSectorCylinder : Z; relativeSector : Z; sectorCount : Z
}.

(** An entry in memory: a packed structure. *)
Definition byte_at (l : list Z) (i : nat) : Z := default 0 (l !! i).
Definition load16 (l : list Z) (i : nat) : Z := byte_at l i + 256 * byte_at l (S i).
Definition load32 (l : list Z) (i : nat) : Z := load16 l i + 65536 * load16 l (S (S i)).
Definition bytes16 (v : Z) : list Z := [v mod 256; v / 256].
Definition bytes32 (v : Z) : list Z := bytes16 (v mod 65536) ++ bytes16 (v / 65536).

Definition decode (l : list Z) : PartitionTableEntry :=
  mkEntry (byte_at l 0) (byte_at l 1) (load16 l 2) (byte_at l 4) (byte_at l 5) (load16 l 6) (load32 l 8) (load32 l 12).
Definition encode (e : PartitionTableEntry) : list Z :=
  [activeFlag e; startHead e] ++ bytes16 (startSectorCylinder e) ++ [systemId e; endHead e] ++ bytes16 (endSectorCylinder e) ++
  bytes32 (relativeSector e) ++ bytes32 (sectorCount e).
Definition empty_entry : PartitionTableEntry := mkEntry 0 0 0 0 0 0 0 0.

(** Entry [i] of the table in a boot record *)
Definition entry (i : Z) (record : list Z) : PartitionTableEntry := decode (ztake ENTRY_SIZE (zdrop (PARTITION_TABLE_START + ENTRY_SIZE * i) record)).
Definition set_entry (i : Z) (e : PartitionTableEntry) (record : list Z) : list Z := splice record (PARTITION_TABLE_START + ENTRY_SIZE * i) (encode e).

Definition is_extended (id : Z) : bool := (id =? EXTENDED_PARTITION) || (id =? EXTENDED_PARTITION_LBA).

Section PartitionHandler.
Context {Dev : Type} `{!StorageDevice Dev}.
Implicit Types (d : Dev).

Definition PartitionHandler_new d : outcome Dev := if getSectorSize d <? 512 then Throw INVALID_ARGUMENT else Ok d.

Definition readBootRecord (sector : Z) d : outcome (option (list Z)) :=
  '(n, bootRecord) ← dev_read (new_chars (getSectorSize d)) sector 1 d;
  if n <? 1 then Ok None
  else if negb (load16 bootRecord 510 =? BOOT_RECORD_SIGNATURE) then Ok None
  else Ok (Some bootRecord).

Definition blank_record d : list Z := splice (new_chars (getSectorSize d)) 510 (bytes16 BOOT_RECORD_SIGNATURE).

(** [writtenSectors] is the result of the comparison. *)
Definition createBootRecord (sector : Z) d : outcome Dev :=
  '(n, d) ← dev_write (blank_record d) sector 1 d;
  let writtenSectors := Z.b2z (n =? getSectorSize d) in
  if writtenSectors <? 1 then Throw ILLEGAL_STATE else Ok d.

Definition createPartitionTable d : outcome Dev := createBootRecord 0 d.

(** [if (device.write(record, sector, 1) < 1) throw] *)
Definition write_record (record : list Z) (sector : Z) d : outcome Dev :=
  '(n, d) ← dev_write record sector 1 d; if n <? 1 then Throw ILLEGAL_STATE else Ok d.

(** [bool writtenSectors = device.write(record, sector, 1) == device.getSectorSize(); if (writtenSectors < 1) throw] *)
Definition write_record_compared (record : list Z) (sector : Z) d : outcome Dev :=
  '(n, d) ← dev_write record sector 1 d; if Z.b2z (n =? getSectorSize d) <? 1 then Throw ILLEGAL_STATE else Ok d.

(** The list of logical partitions; each boot record names its partition and the next boot record. *)
Fixpoint read_logical (fuel : nat) (extended ebrSector partitionNumber : Z) (partitionList : list PartitionInfo) d : outcome (list PartitionInfo) :=
  match fuel with
  | O => Loops
  | S fuel =>
    r ← readBootRecord ebrSector d;
    ebr ← of_option r;
    let current := entry 0 ebr in
    let next := entry 1 ebr in
    if systemId current =? EMPTY then Ok partitionList
    else
      let partitionList := partitionList ++ [mkInfo partitionNumber LOGICAL (activeFlag current =? 128) (systemId current) (u32 (ebrSector + relativeSector current)) (sectorCount current)] in
      if systemId next =? EMPTY then Ok partitionList
      else read_logical fuel extended (u32 (extended + relativeSector next)) (u8 (partitionNumber + 1)) partitionList d
  end.

(** The loop over the primary partitions from [i] on *)
Fixpoint read_primary (n : nat) (fuel : nat) (i : Z) (mbr : list Z) (partitionList : list PartitionInfo) d : outcome (list PartitionInfo) :=
  match n with
  | O => Ok partitionList
  | S n =>
    let p := entry i mbr in
    if systemId p =? EMPTY then read_primary n fuel (i + 1) mbr partitionList d
    else
      let partitionList := partitionList ++ [mkInfo (u8 (i + 1)) (if is_extended (systemId p) then EXTENDED else PRIMARY) (activeFlag p =? 128) (systemId p) (relativeSector p) (sectorCount p)] in
      partitionList ← (if is_extended (systemId p) then read_logical fuel (relativeSector p) (relativeSector p) 5 partitionList d else Ok partitionList);
      read_primary n fuel (i + 1) mbr partitionList d
  end.

Definition readPartitionTable (fuel : nat) d : outcome (list PartitionInfo) :=
  r ← readBootRecord 0 d;
  match r with
  | None => Ok []
  | Some mbr => read_primary 4 fuel 0 mbr [] d
  end.

(** The first extended partition of the table, an empty entry if there is none *)
Fixpoint find_extended (n : nat) (i : Z) (mbr : list Z) : PartitionTableEntry :=
  match n with
  | O => empty_entry
  | S n => if is_extended (systemId (entry i mbr)) then entry i mbr else find_extended n (i + 1) mbr
  end.

(** The loop of [writePartition] that looks for partition [partitionNumber]: whether a partition is appended, and the last boot record *)
Fixpoint find_logical (n : nat) (i partitionNumber extended ebrSector : Z) d : outcome (bool * list Z * Z) :=
  match n with
  | O => Loops
  | S n =>
    r ← readBootRecord ebrSector d;
    ebr ← of_option r;
    if (systemId (entry 0 ebr) =? EMPTY) || (i =? partitionNumber) then Ok (false, ebr, ebrSector)
    else if systemId (entry 1 ebr) =? EMPTY then Ok (true, ebr, ebrSector)
    else find_logical n (i + 1) partitionNumber extended (u32 (extended + relativeSector (entry 1 ebr))) d
  end.

Definition flag (active : bool) : Z := if active then 128 else 0.

Definition writePartition (partitionNumber : Z) (active : bool) (id startSector count : Z) d : outcome Dev :=
  if partitionNumber <? 1 then Throw INVALID_ARGUMENT
  else
    r ← readBootRecord 0 d;
    let e := mkEntry (flag active) 0 0 (u8 id) 0 0 startSector count in
    if partitionNumber <=? 4 then
      d ← (if is_extended id then createBootRecord startSector d else Ok d);
      mbr ← of_option r;
      write_record (set_entry (partitionNumber - 1) e mbr) 0 d
    else
      mbr ← of_option r;
      let extendedPartition := find_extended 4 0 mbr in
      if systemId extendedPartition =? EMPTY then Throw INVALID_ARGUMENT
      else
        let extended := relativeSector extendedPartition in
        '(append, ebr, ebrSector) ← find_logical (Z.to_nat (partitionNumber - 4)) 5 partitionNumber extended extended d;
        if (append : bool) then
          let e := mkEntry (flag active) 0 0 (u8 id) 0 0 (u32 (startSector - extended)) count in
          d ← write_record (set_entry 1 e ebr) ebrSector d;
          let e := mkEntry (flag active) 0 0 (u8 id) 0 0 1 (u32 (count - 1)) in
          write_record_compared (set_entry 0 e (blank_record d)) startSector d
        else
          let old := entry 0 ebr in
          let e := mkEntry (flag active) (startHead old) (startSectorCylinder old) (u8 id) (endHead old) (endSectorCylinder old) (u32 (startSector - ebrSector)) count in
          write_record_compared (set_entry 0 e ebr) ebrSector d.

(** The loop of [deletePartition]: the boot record of the partition, its sector and that of the boot record before it *)
Fixpoint delete_walk (n : nat) (i partitionNumber extended currentEbrSector lastEbrSector : Z) d : outcome (list Z * Z * Z) :=
  match n with
  | O => Loops
  | S n =>
    r ← readBootRecord currentEbrSector d;
    ebr ← of_option r;
    if (systemId (entry 0 ebr) =? EMPTY) || ((systemId (entry 1 ebr) =? EMPTY) && (i <? partitionNumber)) then Throw INVALID_ARGUMENT
    else if i <? partitionNumber then delete_walk n (i + 1) partitionNumber extended (u32 (extended + relativeSector (entry 1 ebr))) currentEbrSector d
    else Ok (ebr, currentEbrSector, lastEbrSector)
  end.

(** The first logical partition gets the place of the second one. *)
Definition delete_first (extended : Z) d : outcome Dev :=
  r ← readBootRecord extended d;
  ebr ← of_option r;
  let current := entry 0 ebr in
  let next := entry 1 ebr in
  ebr ← (
    if systemId next =? EMPTY then Ok (set_entry 0 empty_entry ebr)
    else
      r ← readBootRecord (u32 (extended + relativeSector next)) d;
      nextEbr ← of_option r;
      let current := mkEntry (activeFlag current) (startHead current) (startSectorCylinder current) (systemId current) (endHead current) (endSectorCylinder current)
        (u32 (relativeSector next + relativeSector (entry 0 nextEbr))) (sectorCount (entry 0 nextEbr)) in
      Ok (set_entry 1 (entry 1 nextEbr) (set_entry 0 current ebr)));
  write_record ebr extended d.

Definition deletePartition (partitionNumber : Z) d : outcome Dev :=
  if partitionNumber <? 1 then Throw INVALID_ARGUMENT
  else
    r ← readBootRecord 0 d;
    match r with
    | None => Ok d
    | Some mbr =>
      if partitionNumber <=? 4 then write_record (set_entry (partitionNumber - 1) empty_entry mbr) 0 d
      else
        let extended := relativeSector (find_extended 4 0 mbr) in
        if partitionNumber =? 5 then delete_first extended d
        else
          '(ebr, currentEbrSector, lastEbrSector) ← delete_walk (Z.to_nat (partitionNumber - 4)) 5 partitionNumber extended extended 0 d;
          r ← readBootRecord lastEbrSector d;
          let next := entry 1 ebr in
          let ebr := set_entry 1 empty_entry (set_entry 0 empty_entry ebr) in
          lastEbr ← of_option r;
          d ← write_record ebr currentEbrSector d;
          write_record (set_entry 1 next lastEbr) lastEbrSector d
    end.
End PartitionHandler.

(** ** Entries and boot records *)

Lemma zlen_encode e : zlen (encode e) = 16.
Proof. done. Qed.

Lemma mod_div x : x mod 256 + 256 * (x / 256) = x /\ x mod 65536 + 65536 * (x / 65536) = x.
Proof. split; rewrite Z.add_comm; symmetry; by apply Z.div_mod. Qed.

Lemma decode_encode e : decode (encode e) = e.
Proof.
  destruct e as [a sh sc sid eh ec rs n].
  unfold decode, encode, load32, load16, byte_at, bytes32, bytes16. cbn [app lookup list_lookup default activeFlag startHead startSectorCylinder systemId endHead endSectorCylinder relativeSector sectorCount].
  f_equal; cbn [default from_option id]; rewrite ?(proj1 (mod_div _)), ?(proj2 (mod_div _)); done.
Qed.

Lemma ztake_zdrop_splice (r b : list Z) o n : 0 <= o -> zlen b = n -> o + n <= zlen r -> ztake n (zdrop o (splice r o b)) = b.
Proof.
  intros Ho Hb Hl. unfold ztake, zdrop, splice. rewrite drop_app_length' by (rewrite length_take; unfold zlen in *; lia).
  rewrite take_app_length'; [done|unfold zlen in *; lia].
Qed.

Lemma entry_set_eq i e r : 0 <= i < 4 -> 512 <= zlen r -> entry i (set_entry i e r) = e.
Proof.
  intros Hi Hr. unfold entry, set_entry, ENTRY_SIZE, PARTITION_TABLE_START. rewrite ztake_zdrop_splice; [apply decode_encode|lia|done|lia].
Qed.

Lemma entry_set_ne i j e r : 0 <= i < 4 -> 0 <= j < 4 -> i <> j -> 512 <= zlen r -> entry i (set_entry j e r) = entry i r.
Proof.
  intros Hi Hj Hne Hr. unfold entry, set_entry, ENTRY_SIZE, PARTITION_TABLE_START. f_equal. apply VirtualDiskDrive.splice_other; [lia|lia|done|lia|lia].
Qed.

Lemma zlen_set_entry j e r : 0 <= j < 4 -> 512 <= zlen r -> zlen (set_entry j e r) = zlen r.
Proof. intros Hj Hr. unfold set_entry, ENTRY_SIZE, PARTITION_TABLE_START. rewrite zlen_splice; [done|lia|]. rewrite zlen_encode. lia. Qed.

(** The signature behind the table stays. *)
Lemma lookup_splice_after (r b : list Z) o (i : nat) : 0 <= o -> o + zlen b <= zlen r -> o + zlen b <= Z.of_nat i -> splice r o b !! i = r !! i.
Proof.
  intros Ho Hl Hi. unfold splice, zlen in *. rewrite lookup_app_r by (rewrite length_take; lia). rewrite length_take, lookup_app_r by lia. rewrite lookup_drop. f_equal. lia.
Qed.

Lemma signature_set_entry j e r : 0 <= j < 4 -> 512 <= zlen r -> load16 (set_entry j e r) 510 = load16 r 510.
Proof.
  intros Hj Hr. unfold load16, byte_at, set_entry, ENTRY_SIZE, PARTITION_TABLE_START. by rewrite !lookup_splice_after by (rewrite ?zlen_encode; lia).
Qed.

Section laws.
Context {Dev : Type} `{!StorageDevice Dev} `{!DeviceLaws Dev}.
Implicit Types (d : Dev).

(** Sector [s] of the device holds the boot record [b]. *)
Definition record d (s : Z) (b : list Z) : Prop := sector d s = Some b /\ load16 b 510 = BOOT_RECORD_SIGNATURE.

Lemma zlen_new_record d : dev_wf d -> zlen (new_chars (getSectorSize d)) = getSectorSize d.
Proof. intros Hd. apply zlen_new. pose proof (size_ok d Hd). lia. Qed.

Lemma readBootRecord_ok d s b : dev_wf d -> record d s b -> readBootRecord s d = Ok (Some b).
Proof.
  intros Hd [Hs Hb]. unfold readBootRecord. rewrite (read_ok d s b) by (done || by apply zlen_new_record). rewrite ok_bind. change (1 <? 1) with false. by rewrite Hb, Z.eqb_refl.
Qed.

Lemma record_size d s b : dev_wf d -> 512 <= getSectorSize d -> record d s b -> 512 <= zlen b.
Proof. intros Hd Hs [Hb _]. destruct (sector_size d s b Hd Hb). lia. Qed.

Lemma write_record_ok d s b b' :
  dev_wf d -> record d s b -> zlen b' = getSectorSize d ->
  exists d', write_record b' s d = Ok d' /\ dev_wf d' /\ getSectorSize d' = getSectorSize d /\ forall t, sector d' t = if decide (t = s) then Some b' else sector d t.
Proof.
  intros Hd [Hb _] Hl. destruct (write_ok d s b b' Hd Hb Hl) as (d' & E & H). exists d'. split; [|done]. unfold write_record. by rewrite E.
Qed.

Lemma set_entry_record d s b j e :
  dev_wf d -> 512 <= getSectorSize d -> record d s b -> 0 <= j < 4 ->
  exists d', write_record (set_entry j e b) s d = Ok d' /\ dev_wf d' /\ getSectorSize d' = getSectorSize d /\ record d' s (set_entry j e b) /\
    forall t, t <> s -> sector d' t = sector d t.
Proof.
  intros Hd Hs Hr Hj. pose proof (record_size d s b Hd Hs Hr) as Hb. destruct (write_record_ok d s b (set_entry j e b) Hd Hr) as (d' & E & Hd' & Hs' & Hv).
  { rewrite zlen_set_entry by done. destruct Hr as [Hr _]. by destruct (sector_size d s b Hd Hr). }
  exists d'. split_and!; [done|done|done| |].
  - split; [by rewrite Hv, decide_True|]. rewrite signature_set_entry by done. apply Hr.
  - intros t Ht. by rewrite Hv, decide_False.
Qed.

(** A comparison of the number of sectors with the size of a sector *)
Lemma write_record_compared_throws d b s d' : dev_wf d -> 512 <= getSectorSize d -> write_record_compared b s d <> Ok d'.
Proof.
  intros Hd Hs. unfold write_record_compared. destruct (dev_write b s 1 d) as [[n d1]| | |] eqn:E; try done. rewrite ok_bind.
  destruct (write_count d b s n d1 Hd E) as (Hn & _ & Hz). rewrite (proj2 (Z.eqb_neq n (getSectorSize d1))) by lia. done.
Qed.

(** ** Reading the table *)

(** The logical partitions behind [s], with their boot records *)
Inductive chain d (extended : Z) : Z -> list (Z * list Z) -> Prop :=
| chain_empty s ebr : record d s ebr -> systemId (entry 0 ebr) = EMPTY -> chain d extended s []
| chain_last s ebr : record d s ebr -> systemId (entry 0 ebr) <> EMPTY -> systemId (entry 1 ebr) = EMPTY -> chain d extended s [(s, ebr)]
| chain_next s ebr l : record d s ebr -> systemId (entry 0 ebr) <> EMPTY -> systemId (entry 1 ebr) <> EMPTY ->
    chain d extended (u32 (extended + relativeSector (entry 1 ebr))) l -> chain d extended s ((s, ebr) :: l).

Definition logical_info (n : Z) (p : Z * list Z) : PartitionInfo :=
  let e := entry 0 (snd p) in mkInfo n LOGICAL (activeFlag e =? 128) (systemId e) (u32 (fst p + relativeSector e)) (sectorCount e).
Fixpoint logical_infos (n : Z) (l : list (Z * list Z)) : list PartitionInfo :=
  match l with [] => [] | p :: l => logical_info n p :: logical_infos (u8 (n + 1)) l end.

Lemma read_logical_ok d extended s l n acc fuel :
  dev_wf d -> chain d extended s l -> (length l < fuel)%nat -> read_logical fuel extended s n acc d = Ok (acc ++ logical_infos n l).
Proof.
  intros Hd Hc. revert n acc fuel. induction Hc as [s ebr Hr H0|s ebr Hr H0 H1|s ebr l Hr H0 H1 Hc IH]; intros n acc [|fuel] Hf; cbn [length] in Hf; try lia;
    cbn [read_logical]; rewrite (readBootRecord_ok d s ebr Hd Hr), ok_bind; cbn [of_option]; rewrite ok_bind.
  - by rewrite H0, app_nil_r.
  - rewrite (proj2 (Z.eqb_neq _ _) H0). by rewrite H1.
  - rewrite (proj2 (Z.eqb_neq _ _) H0), (proj2 (Z.eqb_neq _ _) H1). rewrite IH by lia. by rewrite <- app_assoc.
Qed.

(** The partitions that entry [i] of the main boot record stands for; [l] are the logical partitions of an extended one. *)
Definition primary_infos (i : Z) (e : PartitionTableEntry) (l : list (Z * list Z)) : list PartitionInfo :=
  if systemId e =? EMPTY then []
  else [mkInfo (u8 (i + 1)) (if is_extended (systemId e) then EXTENDED else PRIMARY) (activeFlag e =? 128) (systemId e) (relativeSector e) (sectorCount e)] ++
       (if is_extended (systemId e) then logical_infos 5 l else []).

(** [ls i] are the logical partitions of the extended partition in entry [i]. *)
Definition chains d (mbr : list Z) (ls : Z -> list (Z * list Z)) (fuel : nat) : Prop :=
  forall i, 0 <= i < 4 -> is_extended (systemId (entry i mbr)) = true -> chain d (relativeSector (entry i mbr)) (relativeSector (entry i mbr)) (ls i) /\ (length (ls i) < fuel)%nat.

Lemma read_primary_ok d mbr ls fuel n i acc :
  dev_wf d -> chains d mbr ls fuel -> 0 <= i -> i + Z.of_nat n = 4 ->
  read_primary n fuel i mbr acc d = Ok (acc ++ concat ((fun k => primary_infos (i + Z.of_nat k) (entry (i + Z.of_nat k) mbr) (ls (i + Z.of_nat k))) <$> seq 0 n)).
Proof.
  intros Hd Hc. revert i acc. induction n as [|n IH]; intros i acc Hi Hn; cbn [read_primary seq fmap list_fmap concat]; [by rewrite app_nil_r|].
  assert (Hs : (fun k => primary_infos (i + Z.of_nat k) (entry (i + Z.of_nat k) mbr) (ls (i + Z.of_nat k))) <$> seq 1 n =
    (fun k => primary_infos (i + 1 + Z.of_nat k) (entry (i + 1 + Z.of_nat k) mbr) (ls (i + 1 + Z.of_nat k))) <$> seq 0 n).
  { rewrite <- fmap_S_seq, <- list_fmap_compose. apply list_fmap_ext. intros _ k _. unfold compose. by replace (i + Z.of_nat (S k)) with (i + 1 + Z.of_nat k) by lia. }
  rewrite Hs, Z.add_0_r. unfold primary_infos at 1. destruct (systemId (entry i mbr) =? EMPTY); [rewrite IH by lia; done|].
  destruct (is_extended (systemId (entry i mbr))) eqn:Ex.
  - destruct (Hc i ltac:(lia) Ex) as [Hch Hl]. rewrite (read_logical_ok d _ _ (ls i)) by done. rewrite ok_bind, IH by lia. by rewrite <- !app_assoc.
  - rewrite ok_bind, IH by lia. rewrite app_nil_r. by rewrite <- app_assoc.
Qed.

Definition table_infos (mbr : list Z) (ls : Z -> list (Z * list Z)) : list PartitionInfo :=
  concat ((fun k => primary_infos (Z.of_nat k) (entry (Z.of_nat k) mbr) (ls (Z.of_nat k))) <$> seq 0 4).

Lemma readPartitionTable_ok d mbr ls fuel :
  dev_wf d -> record d 0 mbr -> chains d mbr ls fuel -> readPartitionTable fuel d = Ok (table_infos mbr ls).
Proof.
  intros Hd Hr Hc. unfold readPartitionTable. rewrite (readBootRecord_ok d 0 mbr Hd Hr), ok_bind. rewrite (read_primary_ok d mbr ls fuel) by done. done.
Qed.

(** The list of boot records that never ends: every one in [S] names a partition and a next one in [S]. *)
Lemma read_logical_loops d extended (S : Z -> Prop) fuel s n acc :
  dev_wf d -> (forall t, S t -> exists ebr, record d t ebr /\ systemId (entry 0 ebr) <> EMPTY /\ systemId (entry 1 ebr) <> EMPTY /\ S (u32 (extended + relativeSector (entry 1 ebr)))) ->
  S s -> read_logical fuel extended s n acc d = Loops.
Proof.
  intros Hd HS. revert s n acc. induction fuel as [|fuel IH]; intros s n acc Hs; [done|]. cbn [read_logical]. destruct (HS s Hs) as (ebr & Hr & H0 & H1 & Hn).
  rewrite (readBootRecord_ok d s ebr Hd Hr), ok_bind. cbn [of_option]. rewrite ok_bind, (proj2 (Z.eqb_neq _ _) H0), (proj2 (Z.eqb_neq _ _) H1). by apply IH.
Qed.

(** ** Deleting a logical partition *)

Lemma chain_det d extended s l1 l2 : chain d extended s l1 -> chain d extended s l2 -> l1 = l2.
Proof.
  intros H1. revert l2. induction H1 as [s ebr [Hr _] H0|s ebr [Hr _] H0 Hn|s ebr l [Hr _] H0 Hn Hc IH]; intros l2 H2;
    inversion H2 as [s' ebr' [Hr' _] H0'|s' ebr' [Hr' _] H0' Hn'|s' ebr' l' [Hr' _] H0' Hn' Hc']; subst; rewrite Hr in Hr'; injection Hr' as <-; try done.
  f_equal. by apply IH.
Qed.

Lemma chain_suffix d extended s l i t ebr : chain d extended s l -> l !! i = Some (t, ebr) -> chain d extended t (drop i l).
Proof.
  intros Hc. revert i. induction Hc as [s e Hr H0|s e Hr H0 H1|s e l Hr H0 H1 Hc IH]; intros i Hi.
  - done.
  - destruct i as [|i]; [|done]. injection Hi as <- <-. by apply chain_last.
  - destruct i as [|i]; [injection Hi as <- <-; by apply chain_next|]. by apply IH.
Qed.

Lemma chain_nodup d extended s l : chain d extended s l -> NoDup (l.*1).
Proof.
  intros Hc. apply NoDup_alt. intros i j t Hi Hj. rewrite list_lookup_fmap in Hi, Hj. destruct (l !! i) as [[t1 e1]|] eqn:Ei; [|done]. destruct (l !! j) as [[t2 e2]|] eqn:Ej; [|done].
  injection Hi as <-. injection Hj as ->. pose proof (chain_det d extended t1 _ _ (chain_suffix d extended s l i t1 e1 Hc Ei) (chain_suffix d extended s l j t1 e2 Hc Ej)) as E.
  apply (f_equal length) in E. rewrite !length_drop in E. apply lookup_lt_Some in Ei, Ej. lia.
Qed.

Lemma chain_record d extended s l i t ebr : chain d extended s l -> l !! i = Some (t, ebr) -> record d t ebr /\ systemId (entry 0 ebr) <> EMPTY.
Proof.
  intros Hc Hi. pose proof (chain_suffix d extended s l i t ebr Hc Hi) as Hs. rewrite (drop_S l (t, ebr) i Hi) in Hs. by inversion Hs; subst.
Qed.

Lemma chain_agree d d' extended s l :
  chain d extended s l -> (forall t b, record d t b -> t ∈ l.*1 \/ systemId (entry 0 b) = EMPTY -> sector d' t = Some b) -> chain d' extended s l.
Proof.
  intros Hc. induction Hc as [s e Hr H0|s e Hr H0 H1|s e l Hr H0 H1 Hc IH]; intros Ha.
  - apply (chain_empty d' extended s e); [|done]. split; [|apply Hr]. apply Ha; [done|by right].
  - apply chain_last; [|done|done]. split; [|apply Hr]. apply Ha; [done|left; by left].
  - apply chain_next; [|done|done|].
    + split; [|apply Hr]. apply Ha; [done|left; by left].
    + apply IH. intros t b Ht [Hin|He]; apply Ha; try done; [left; by right|by right].
Qed.

(** [d'] is [d] with the boot record of entry [S k] cleared and the one before it pointing to the one behind it. *)
Lemma chain_splice d d' extended s l k sp ebrp sk ebrk :
  chain d extended s l -> l !! k = Some (sp, ebrp) -> l !! S k = Some (sk, ebrk) -> 512 <= zlen ebrp ->
  (forall t, t <> sp -> t <> sk -> sector d' t = sector d t) -> record d' sp (set_entry 1 (entry 1 ebrk) ebrp) ->
  chain d' extended s (take k l ++ (sp, set_entry 1 (entry 1 ebrk) ebrp) :: drop (S (S k)) l).
Proof.
  intros Hc Hp Hk Hl Ho Hr'. assert (Hnd := chain_nodup d extended s l Hc).
  assert (Hagree : forall t b i, (i < k)%nat \/ (S k < i)%nat -> record d t b -> l.*1 !! i = Some t -> sector d' t = Some b).
  { intros t b i Hi [Ht _] Hlk. rewrite Ho; [done| |]; intros ->.
    - assert (i = k); [|lia]. eapply NoDup_lookup; [done|done|]. by rewrite list_lookup_fmap, Hp.
    - assert (i = S k); [|lia]. eapply NoDup_lookup; [done|done|]. by rewrite list_lookup_fmap, Hk. }
  assert (Hrp := chain_record d extended s l k sp ebrp Hc Hp). assert (Hrk := chain_record d extended s l (S k) sk ebrk Hc Hk).
  assert (Hempty : forall t b, record d t b -> systemId (entry 0 b) = EMPTY -> sector d' t = Some b).
  { intros t b [Ht _] He. rewrite Ho; [done| |]; intros ->; [destruct Hrp as [[Hx _] Hy]|destruct Hrk as [[Hx _] Hy]]; congruence. }
  clear Hrp Hrk Ho Hnd. revert l s Hc Hp Hk Hagree. induction k as [|k IH]; intros l s Hc Hp Hk Hagree.
  - inversion Hc as [? ? Hr H0|? ? Hr H0 H1|? e l' Hr H0 H1 Hc']; subst; [done|done|]. injection Hp as -> ->. change (l' !! 0%nat = Some (sk, ebrk)) in Hk.
    cbn [take app drop]. pose proof (chain_suffix _ _ _ _ 0 sk ebrk Hc' Hk) as Hsk. rewrite drop_0 in Hsk.
    assert (E0 : systemId (entry 0 (set_entry 1 (entry 1 ebrk) ebrp)) <> EMPTY) by (by rewrite entry_set_ne by lia).
    assert (E1 : entry 1 (set_entry 1 (entry 1 ebrk) ebrp) = entry 1 ebrk) by (by apply entry_set_eq; lia).
    inversion Hsk as [? ? Hr2 H02|? ? Hr2 H02 H12|? e2 l2 Hr2 H02 H12 Hc2]; subst l'; [done| |]; injection Hk as ->.
    + cbn [drop]. by apply chain_last; rewrite ?E1.
    + cbn [drop]. apply chain_next; rewrite ?E1; [done|done|done|]. apply (chain_agree d); [done|]. intros t b Ht [Hin|He]; [|by apply Hempty].
      apply list_elem_of_lookup_1 in Hin as [i Hi]. apply (Hagree t b (S (S i))); [right; lia|done|done].
  - inversion Hc as [? ? Hr H0|? ? Hr H0 H1|? e l' Hr H0 H1 Hc']; subst; [done|done|]. cbn [take app]. apply chain_next; [|done|done|].
    + split; [|apply Hr]. apply (Hagree s e 0%nat); [left; lia|done|done].
    + apply IH; [done|done|done|]. intros t b i Hi Ht Hlk. apply (Hagree t b (S i)); [lia|done|done].
Qed.

Lemma delete_walk_ok d extended s l k i last n sk ebrk :
  dev_wf d -> chain d extended s l -> l !! k = Some (sk, ebrk) -> (k < n)%nat ->
  delete_walk n i (i + Z.of_nat k) extended s last d =
    Ok (ebrk, sk, match k with O => last | S k => default 0 (l.*1 !! k) end).
Proof.
  intros Hd Hc. revert k i last n. induction Hc as [s e Hr H0|s e Hr H0 H1|s e l Hr H0 H1 Hc IH]; intros k i last [|n] Hk Hn; try lia; [done| |].
  - destruct k as [|k]; [|done]. injection Hk as <- <-. cbn [delete_walk]. rewrite (readBootRecord_ok d s e Hd Hr), ok_bind. cbn [of_option]. rewrite ok_bind, (proj2 (Z.eqb_neq _ _) H0).
    rewrite Z.add_0_r, Z.ltb_irrefl, andb_false_r. done.
  - cbn [delete_walk]. rewrite (readBootRecord_ok d s e Hd Hr), ok_bind. cbn [of_option]. rewrite ok_bind, (proj2 (Z.eqb_neq _ _) H0), (proj2 (Z.eqb_neq _ _) H1). cbn [orb andb].
    destruct k as [|k].
    + injection Hk as <- <-. by rewrite Z.add_0_r, Z.ltb_irrefl.
    + rewrite (proj2 (Z.ltb_lt _ _)) by lia. replace (i + Z.of_nat (S k)) with (i + 1 + Z.of_nat k) by lia. rewrite (IH k) by (done || lia). by destruct k.
Qed.

Lemma find_extended_ok mbr n i k :
  is_extended (systemId (entry (i + Z.of_nat k) mbr)) = true -> (forall j, (j < k)%nat -> is_extended (systemId (entry (i + Z.of_nat j) mbr)) = false) -> (k < n)%nat ->
  find_extended n i mbr = entry (i + Z.of_nat k) mbr.
Proof.
  revert i k. induction n as [|n IH]; intros i k Hk Hj Hn; [lia|]. cbn [find_extended]. destruct k as [|k]; [rewrite Z.add_0_r in *; by rewrite Hk|].
  pose proof (Hj 0%nat ltac:(lia)) as H0. rewrite Z.add_0_r in H0. rewrite H0, (IH (i + 1) k); [f_equal; lia| | |lia].
  - by replace (i + 1 + Z.of_nat k) with (i + Z.of_nat (S k)) by lia.
  - intros j Hjk. replace (i + 1 + Z.of_nat j) with (i + Z.of_nat (S j)) by lia. apply Hj. lia.
Qed.

(** ** Theorems *)

(** The partitions of a table of four entries without an extended partition *)
Definition plain_infos (es : Z -> PartitionTableEntry) : list PartitionInfo := concat ((fun k => primary_infos (Z.of_nat k) (es (Z.of_nat k)) []) <$> seq 0 4).

Lemma plain_table d mbr fuel es :
  dev_wf d -> record d 0 mbr -> (forall i, 0 <= i < 4 -> entry i mbr = es i) -> (forall i, 0 <= i < 4 -> is_extended (systemId (es i)) = false) ->
  readPartitionTable fuel d = Ok (plain_infos es).
Proof.
  intros Hd Hr He Hx. rewrite (readPartitionTable_ok d mbr (fun _ => []) fuel Hd Hr).
  - f_equal. unfold table_infos, plain_infos. f_equal. apply list_fmap_ext. intros i k Hk. apply lookup_seq in Hk as [-> Hk]. rewrite He by lia. done.
  - intros i Hi Hxi. rewrite He, Hx in Hxi by done. done.
Qed.

(** C33: On every device that keeps the laws of devices (it reads and writes the
    sectors it is asked for, unlike an ATAPI drive, whose write returns 0),
    has sectors of at least 512 bytes and a boot record with the signature,
    writing a primary partition over a table without extended partitions
    succeeds, and the table then read has exactly that entry changed;
    deleting it succeeds and removes exactly that entry; no sector but the
    boot record changes. *)
Theorem partition_roundtrip d mbr n active id start count fuel :
  dev_wf d -> 512 <= getSectorSize d -> record d 0 mbr -> (forall i, 0 <= i < 4 -> is_extended (systemId (entry i mbr)) = false) ->
  1 <= n <= 4 -> 0 < id < 256 -> is_extended id = false ->
  let e := mkEntry (flag active) 0 0 id 0 0 start count in
  exists d', writePartition n active id start count d = Ok d' /\
    readPartitionTable fuel d' = Ok (plain_infos (fun i => if i =? n - 1 then e else entry i mbr)) /\
    (forall t, t <> 0 -> sector d' t = sector d t) /\
    exists d'', deletePartition n d' = Ok d'' /\
      readPartitionTable fuel d'' = Ok (plain_infos (fun i => if i =? n - 1 then empty_entry else entry i mbr)) /\
      forall t, t <> 0 -> sector d'' t = sector d t.
Proof.
  intros Hd Hs Hr Hx Hn Hid Hie e. pose proof (record_size d 0 mbr Hd Hs Hr) as Hb. assert (Eid : u8 id = id) by (apply wrap_small; unfold in_u; lia).
  destruct (set_entry_record d 0 mbr (n - 1) e Hd Hs Hr ltac:(lia)) as (d1 & E1 & Hd1 & Hs1 & Hr1 & Ho1).
  assert (Hb1 : 512 <= zlen (set_entry (n - 1) e mbr)) by (rewrite zlen_set_entry; lia).
  destruct (set_entry_record d1 0 _ (n - 1) empty_entry Hd1 ltac:(lia) Hr1 ltac:(lia)) as (d2 & E2 & Hd2 & _ & Hr2 & Ho2).
  exists d1. split; [|split; [|split; [done|]]].
  - unfold writePartition. rewrite (proj2 (Z.ltb_ge n 1)), (readBootRecord_ok d 0 mbr Hd Hr) by lia. rewrite ok_bind, (proj2 (Z.leb_le n 4)), Hie, ok_bind by lia. cbn [of_option]. by rewrite ok_bind, Eid.
  - eapply (plain_table d1); [done|exact Hr1| |].
    + intros i Hi. destruct (Z.eqb_spec i (n - 1)) as [->|Hne]; [by apply entry_set_eq; lia|by apply entry_set_ne; lia].
    + intros i Hi. cbv beta. destruct (i =? n - 1); [done|by apply Hx].
  - exists d2. split; [|split].
    + unfold deletePartition. rewrite (proj2 (Z.ltb_ge n 1)), (readBootRecord_ok d1 0 _ Hd1 Hr1) by lia. by rewrite ok_bind, (proj2 (Z.leb_le n 4)) by lia.
    + eapply (plain_table d2); [done|exact Hr2| |].
      * intros i Hi. destruct (Z.eqb_spec i (n - 1)) as [->|Hne]; [by apply entry_set_eq; lia|]. by rewrite !entry_set_ne by lia.
      * intros i Hi. cbv beta. destruct (i =? n - 1); [done|by apply Hx].
    + intros t Ht. by rewrite Ho2, Ho1.
Qed.

(** C34: Deleting a logical partition after the first unlinks exactly it from
    the list of extended boot records: the list that is left has the other
    partitions in order, and only the sectors of the deleted record and its
    predecessor change. *)
Theorem delete_logical d mbr j extended l k sp ebrp sk ebrk :
  dev_wf d -> 512 <= getSectorSize d -> record d 0 mbr ->
  (j < 4)%nat -> is_extended (systemId (entry (Z.of_nat j) mbr)) = true -> (forall i, (i < j)%nat -> is_extended (systemId (entry (Z.of_nat i) mbr)) = false) ->
  extended = relativeSector (entry (Z.of_nat j) mbr) -> chain d extended extended l -> l !! k = Some (sp, ebrp) -> l !! S k = Some (sk, ebrk) ->
  exists d' l', deletePartition (6 + Z.of_nat k) d = Ok d' /\ chain d' extended extended l' /\
    logical_info 0 <$> l' = delete (S k) (logical_info 0 <$> l) /\
    forall t, t <> sp -> t <> sk -> sector d' t = sector d t.
Proof.
  intros Hd Hs Hr Hj Hx Hnx -> Hc Hp Hk. set (extended := relativeSector _) in *.
  destruct (chain_record _ _ _ _ _ _ _ Hc Hp) as [Hrp Hep]. destruct (chain_record _ _ _ _ _ _ _ Hc Hk) as [Hrk Hek].
  pose proof (record_size d sp ebrp Hd Hs Hrp) as Hbp. pose proof (record_size d sk ebrk Hd Hs Hrk) as Hbk.
  assert (Hne : sp <> sk). { intros ->. pose proof (chain_nodup _ _ _ _ Hc) as Hnd. assert (k = S k); [|lia]. eapply NoDup_lookup; [done| |]; rewrite list_lookup_fmap, ?Hp, ?Hk; done. }
  set (cleared := set_entry 1 empty_entry (set_entry 0 empty_entry ebrk)).
  destruct (write_record_ok d sk ebrk cleared Hd Hrk) as (d1 & E1 & Hd1 & Hs1 & Hv1).
  { unfold cleared. rewrite !zlen_set_entry by (rewrite ?zlen_set_entry; lia). destruct Hrk as [Hrk _]. by destruct (sector_size d sk ebrk Hd Hrk). }
  assert (Hrp1 : record d1 sp ebrp) by (split; [rewrite Hv1, decide_False by done; apply Hrp|apply Hrp]).
  destruct (set_entry_record d1 sp ebrp 1 (entry 1 ebrk) Hd1 ltac:(lia) Hrp1 ltac:(lia)) as (d2 & E2 & Hd2 & _ & Hr2 & Ho2).
  assert (Ho : forall t, t <> sp -> t <> sk -> sector d2 t = sector d t) by (intros t H1 H2; by rewrite Ho2, Hv1, decide_False).
  exists d2, (take k l ++ (sp, set_entry 1 (entry 1 ebrk) ebrp) :: drop (S (S k)) l). split_and!; [|by eapply chain_splice| |done].
  - unfold deletePartition. rewrite (proj2 (Z.ltb_ge _ 1)), (readBootRecord_ok d 0 mbr Hd Hr) by lia. rewrite ok_bind, (proj2 (Z.leb_gt _ 4)), (proj2 (Z.eqb_neq _ 5)) by lia.
    rewrite (find_extended_ok mbr 4 0 j) by done. rewrite Z.add_0_l. fold extended. replace (6 + Z.of_nat k) with (5 + Z.of_nat (S k)) by lia.
    rewrite (delete_walk_ok d extended extended l (S k) 5 0 _ sk ebrk Hd Hc Hk) by lia. rewrite ok_bind. rewrite list_lookup_fmap, Hp. cbn [fmap option_fmap option_map fst default from_option id].
    rewrite (readBootRecord_ok d sp ebrp Hd Hrp), ok_bind. cbn [of_option]. rewrite ok_bind. fold cleared. by rewrite E1, ok_bind.
  - rewrite fmap_app, fmap_cons, fmap_take, fmap_drop. rewrite delete_take_drop. rewrite (take_S_r (logical_info 0 <$> l) k (logical_info 0 (sp, ebrp))) by (by rewrite list_lookup_fmap, Hp).
    rewrite <- app_assoc. f_equal. cbn [app]. f_equal. unfold logical_info. cbn [fst snd]. by rewrite entry_set_ne by lia.
Qed.

(** When the links between the extended boot records form a cycle, reading
    the partition table never ends. *)
Theorem partition_table_cycle d mbr (S : Z -> Prop) fuel :
  dev_wf d -> record d 0 mbr -> is_extended (systemId (entry 0 mbr)) = true ->
  let extended := relativeSector (entry 0 mbr) in
  (forall t, S t -> exists ebr, record d t ebr /\ systemId (entry 0 ebr) <> EMPTY /\ systemId (entry 1 ebr) <> EMPTY /\ S (u32 (extended + relativeSector (entry 1 ebr)))) ->
  S extended -> readPartitionTable fuel d = Loops.
Proof.
  intros Hd Hr Hx extended HS H0. unfold readPartitionTable. rewrite (readBootRecord_ok d 0 mbr Hd Hr), ok_bind. cbn [read_primary].
  destruct (Z.eqb_spec (systemId (entry 0 mbr)) EMPTY) as [E|E]; [by rewrite E in Hx|]. rewrite Hx. by rewrite (read_logical_loops d extended S).
Qed.

(** CreatePartitionTable never succeeds, and writePartition succeeds only
    for primary partitions that are not extended, whatever the device holds:
    the number of written sectors is compared with the sector size. *)
Theorem only_primary_partitions d n active id start count d' :
  dev_wf d -> 512 <= getSectorSize d ->
  createPartitionTable d <> Ok d' /\ (writePartition n active id start count d = Ok d' -> 1 <= n <= 4 /\ is_extended id = false).
Proof.
  intros Hd Hs. split; [by apply (write_record_compared_throws d)|]. unfold writePartition. destruct (Z.ltb_spec n 1); [done|]. destruct (readBootRecord 0 d) as [r| | |]; try done. rewrite ok_bind.
  destruct (Z.leb_spec n 4).
  - destruct (is_extended id); [|done]. destruct (createBootRecord start d) as [d1| | |] eqn:E; try done. by apply (write_record_compared_throws d) in E.
  - destruct r as [mbr|]; [|done]. cbn [of_option]. rewrite ok_bind. destruct (systemId _ =? EMPTY); [done|]. destruct (find_logical _ _ _ _ _ d) as [[[append ebr] s]| | |]; try done. rewrite ok_bind.
    destruct append; [|by intros E%write_record_compared_throws]. destruct (write_record _ s d) as [d1| | |] eqn:E1; try done. rewrite ok_bind. intros E.
    unfold write_record in E1. destruct (dev_write _ s 1 d) as [[m d2]| | |] eqn:Ew; try done. rewrite ok_bind in E1. destruct (m <? 1); [done|]. injection E1 as ->.
    destruct (write_count _ _ _ _ _ Hd Ew) as (_ & Hd1 & Hs1). apply write_record_compared_throws in E; [done|done|lia].
Qed.

(** [deletePartition] with number 5 on a disk without an extended partition deletes the first primary partition. *)
Theorem delete_without_extended d mbr :
  dev_wf d -> 512 <= getSectorSize d -> record d 0 mbr -> (forall i, 0 <= i < 4 -> is_extended (systemId (entry i mbr)) = false) -> systemId (entry 1 mbr) = EMPTY ->
  exists d', deletePartition 5 d = Ok d' /\ record d' 0 (set_entry 0 empty_entry mbr).
Proof.
  intros Hd Hs Hr Hx H1. destruct (set_entry_record d 0 mbr 0 empty_entry Hd Hs Hr ltac:(lia)) as (d' & E & _ & _ & Hr' & _). exists d'. split; [|done].
  unfold deletePartition. change (5 <? 1) with false. change (5 <=? 4) with false. change (5 =? 5) with true. rewrite (readBootRecord_ok d 0 mbr Hd Hr), ok_bind.
  cbn [find_extended]. rewrite !Hx by lia. cbn [relativeSector empty_entry]. unfold delete_first. rewrite (readBootRecord_ok d 0 mbr Hd Hr), ok_bind. cbn [of_option]. rewrite ok_bind, H1. done.
Qed.
End laws.

(** ** Examples: disks in memory *)

Definition blank : list Z := splice (new_chars 512) 510 (bytes16 BOOT_RECORD_SIGNATURE).
Definition disk_of (ss : list (list Z)) : VirtualDiskDrive.VirtualDiskDrive := VirtualDiskDrive.mk (concat ss) 512 (zlen ss).

Lemma disk_wf ss : forallb (fun b => zlen b =? 512) ss = true -> zlen ss < 2 ^ 20 -> dev_wf (disk_of ss).
Proof.
  intros H Hl. assert (E : zlen (concat ss) = 512 * zlen ss).
  { clear Hl. induction ss as [|b ss IH]; [done|]. cbn [forallb] in H. apply andb_true_iff in H as [Hb H]. cbn [concat]. rewrite zlen_app, zlen_cons, IH by done. lia. }
  pose proof (zlen_nonneg ss). split; [|cbn; lia]. unfold VirtualDiskDrive.wf. cbn [VirtualDiskDrive.sectorSize VirtualDiskDrive.sectorCount VirtualDiskDrive.address disk_of]. rewrite E. lia.
Qed.

Lemma blank_wf : dev_wf (disk_of [blank; blank]).
Proof. apply disk_wf; [vm_compute; reflexivity|vm_compute; reflexivity]. Qed.

Lemma blank_record_ok : record (disk_of [blank; blank]) 0 blank.
Proof. split; vm_compute; reflexivity. Qed.

Lemma partition_roundtrip_witness :
  exists d', writePartition 2 true 131 1 1 (disk_of [blank; blank]) = Ok d' /\ readPartitionTable 0 d' = Ok [mkInfo 2 PRIMARY true 131 1 1].
Proof.
  destruct (partition_roundtrip (disk_of [blank; blank]) blank 2 true 131 1 1 0) as (d' & Hw & Hr & _);
    [exact blank_wf|vm_compute; discriminate|exact blank_record_ok| |lia|lia|reflexivity|].
  - intros i Hi. assert (i = 0 \/ i = 1 \/ i = 2 \/ i = 3) as [->|[->|[->| ->]]] by lia; vm_compute; reflexivity.
  - exists d'. split; [exact Hw|]. rewrite Hr. vm_compute. reflexivity.
Defined.

(** An extended partition at sector 1 with logical partitions whose boot records are at sectors 1 and 3 *)
Definition example_mbr : list Z := set_entry 0 (mkEntry 0 0 0 5 0 0 1 5) blank.
Definition example_ebr1 : list Z := set_entry 1 (mkEntry 0 0 0 5 0 0 2 2) (set_entry 0 (mkEntry 0 0 0 131 0 0 1 1) blank).
Definition example_ebr3 : list Z := set_entry 0 (mkEntry 128 0 0 130 0 0 1 1) blank.
Definition example_disk : VirtualDiskDrive.VirtualDiskDrive := disk_of [example_mbr; example_ebr1; blank; example_ebr3; blank; blank].

Lemma example_disk_wf : dev_wf example_disk.
Proof. apply disk_wf; [vm_compute; reflexivity|vm_compute; reflexivity]. Qed.

Lemma example_chain : chain example_disk 1 1 [(1, example_ebr1); (3, example_ebr3)].
Proof.
  apply chain_next; [split; vm_compute; reflexivity|vm_compute; discriminate|vm_compute; discriminate|].
  change (u32 (1 + relativeSector (entry 1 example_ebr1))) with 3. apply chain_last; [split; vm_compute; reflexivity|vm_compute; discriminate|vm_compute; reflexivity].
Qed.

Lemma delete_logical_witness :
  exists d' l', deletePartition 6 example_disk = Ok d' /\ chain d' 1 1 l' /\ logical_info 0 <$> l' = [mkInfo 0 LOGICAL false 131 2 1].
Proof.
  destruct (delete_logical example_disk example_mbr 0 1 [(1, example_ebr1); (3, example_ebr3)] 0 1 example_ebr1 3 example_ebr3) as (d' & l' & E & Hc & Hl & _);
    [exact example_disk_wf|vm_compute; discriminate|split; vm_compute; reflexivity|lia|vm_compute; reflexivity|intros i Hi; lia|vm_compute; reflexivity|exact example_chain|reflexivity|reflexivity|].
  exists d', l'. split; [exact E|]. split; [exact Hc|]. rewrite Hl. vm_compute. reflexivity.
Defined.

(** A boot record that names itself as the next one *)
Definition example_loop : list Z := set_entry 1 (mkEntry 0 0 0 5 0 0 0 2) (set_entry 0 (mkEntry 0 0 0 131 0 0 1 1) blank).

Lemma partition_table_cycle_witness : readPartitionTable 1000 (disk_of [example_mbr; example_loop]) = Loops.
Proof.
  apply (partition_table_cycle (disk_of [example_mbr; example_loop]) example_mbr (fun t => t = 1)).
  - apply disk_wf; [vm_compute; reflexivity|vm_compute; reflexivity].
  - split; vm_compute; reflexivity.
  - vm_compute. reflexivity.
  - intros t ->. exists example_loop. split; [split; vm_compute; reflexivity|]. split; [vm_compute; discriminate|]. split; [vm_compute; discriminate|]. vm_compute. reflexivity.
  - vm_compute. reflexivity.
Defined.

Lemma only_primary_partitions_witness : createPartitionTable (disk_of [blank; blank]) <> Ok (disk_of [blank; blank]).
Proof.
  destruct (only_primary_partitions (disk_of [blank; blank]) 1 true 131 1 1 (disk_of [blank; blank])) as [H _]; [exact blank_wf|vm_compute; discriminate|exact H].
Defined.

Definition example_single : list Z := set_entry 0 (mkEntry 0 0 0 131 0 0 1 1) blank.

Lemma delete_without_extended_witness :
  exists d', deletePartition 5 (disk_of [example_single; blank]) = Ok d' /\ record d' 0 (set_entry 0 empty_entry example_single).
Proof.
  apply (delete_without_extended (disk_of [example_single; blank]) example_single).
  - apply disk_wf; [vm_compute; reflexivity|vm_compute; reflexivity].
  - vm_compute. discriminate.
  - split; vm_compute; reflexivity.
  - intros i Hi. assert (i = 0 \/ i = 1 \/ i = 2 \/ i = 3) as [->|[->|[->| ->]]] by lia; vm_compute; reflexivity.
  - vm_compute. reflexivity.
Defined.
End PartitionHandler.
