(* ===== verification/BufferedStreams.v ===== *)
(** * BufferedStreams.v: streams over streams, pipes and queues

    [FilterInputStream], [FilterOutputStream], [BufferedInputStream], [BufferedOutputStream],
    [PipedInputStream], [PipedOutputStream], [QueueInputStream] and [QueueOutputStream] of
    [lib/util/io/stream]. The buffered streams work on any stream with the
    laws of [Streams.v] and satisfy the same laws; the pipe is a ring buffer and
    refines a first-in-first-out sequence of bytes. *)

From S2P Require Import UtilString Queue Streams Prelude Bits.

(** ** [BufferedInputStream] *)
Module BufferedInputStream.

Record BufferedInputStream (St : Type) := mk { stream : St; buffer : list Z; size : Z; position : Z; valid : Z }.
Arguments mk {St}.
Arguments stream {St}.
Arguments buffer {St}.
Arguments size {St}.
Arguments position {St}.
Arguments valid {St}.

Section BufferedInputStream.
Context `{IS : InputStream St} `{FreshMemory}.

(** [FilterInputStream] passes every call on. *)
Definition filter_read (s : St) : outcome (Z * St) := Streams.read s.
Definition filter_readBytes (target : list Z) (offset length : Z) (s : St) : outcome (Z * list Z * St) :=
  Streams.readBytes target offset length s.

Definition DEFAULT_BUFFER_SIZE : Z := 512.

Definition BufferedInputStream_size (stream : St) (size : Z) : BufferedInputStream St := mk stream (new_bytes size) size 0 0.
Definition BufferedInputStream_new (stream : St) : BufferedInputStream St := BufferedInputStream_size stream DEFAULT_BUFFER_SIZE.

Definition refill (s : BufferedInputStream St) : outcome (bool * BufferedInputStream St) :=
  let s := if position s =? valid s then mk (stream s) (buffer s) (size s) 0 0 else s in
  '(readCount, b, inner) ← filter_readBytes (buffer s) (valid s) (u32 (size s - valid s)) (stream s);
  let s := mk inner b (size s) (position s) (valid s) in
  if readCount <=? 0 then Ok (false, s)
  else Ok (true, mk inner b (size s) (position s) (u32 (valid s + readCount))).

(** [position >= valid && !refill()] *)
Definition exhausted (s : BufferedInputStream St) : outcome (bool * BufferedInputStream St) :=
  if valid s <=? position s then '(r, s) ← refill s; Ok (negb r, s) else Ok (false, s).

Definition read (s : BufferedInputStream St) : outcome (Z * BufferedInputStream St) :=
  '(e, s) ← exhausted s;
  if (e : bool) then Ok (-1, s)
  else
    b ← aget (buffer s) (position s);
    Ok (b, mk (stream s) (buffer s) (size s) (u32 (position s + 1)) (valid s)).

Definition peek (s : BufferedInputStream St) : outcome (Z * BufferedInputStream St) :=
  '(e, s) ← exhausted s;
  if (e : bool) then Ok (-1, s) else b ← aget (buffer s) (position s); Ok (b, s).

(** [do ... while (length > 0 && refill())] *)
Fixpoint read_loop (fuel : nat) (target : list Z) (offset length ret : Z) (s : BufferedInputStream St)
    : outcome (Z * list Z * BufferedInputStream St) :=
  match fuel with
  | O => Loops
  | S fuel =>
    let readCount := if length <? u32 (valid s - position s) then length else u32 (valid s - position s) in
    target ← copy_chars target offset (buffer s) (position s) readCount;
    let s := mk (stream s) (buffer s) (size s) (u32 (position s + readCount)) (valid s) in
    let offset := u32 (offset + readCount) in
    let ret := u32 (ret + readCount) in
    let length := u32 (length - readCount) in
    if 0 <? length then
      '(r, s) ← refill s;
      if (r : bool) then read_loop fuel target offset length ret s else Ok (s32 ret, target, s)
    else Ok (s32 ret, target, s)
  end.

(** Every round copies a byte or more. *)
Definition readBytes (target : list Z) (offset length : Z) (s : BufferedInputStream St)
    : outcome (Z * list Z * BufferedInputStream St) :=
  if length =? 0 then Ok (0, target, s)
  else
    '(e, s) ← exhausted s;
    if (e : bool) then Ok (-1, target, s) else read_loop (S (Z.to_nat length)) target offset length 0 s.

Definition isReadyToRead (s : BufferedInputStream St) : outcome (bool * BufferedInputStream St) :=
  if position s <? valid s then Ok (true, s) else refill s.

#[global] Instance BufferedInputStream_InputStream : InputStream (BufferedInputStream St) :=
  Build_InputStream _ read readBytes.
End BufferedInputStream.

Section Spec.
Context `{FIS : FiniteInputStream St}.

Definition buffered (s : BufferedInputStream St) : list Z := zdrop (position s) (ztake (valid s) (buffer s)).
Definition data (s : BufferedInputStream St) : list Z := buffered s ++ in_data (stream s).

Definition wf (s : BufferedInputStream St) : Prop :=
  in_wf (stream s) /\ 0 <= position s <= valid s /\ valid s <= size s /\ 0 < size s < 2 ^ 31 /\ zlen (buffer s) = size s /\
  Forall (in_u 8) (buffered s) /\ zlen (data s) < 2 ^ 31.

Lemma buffered_length s : wf s -> zlen (buffered s) = valid s - position s.
Proof.
  intros (_ & Hp & Hv & Hs & Hb & _). unfold buffered. rewrite zlen_zdrop, zlen_ztake by lia. lia.
Qed.

Lemma buffered_empty s : wf s -> valid s <= position s -> buffered s = [].
Proof. intros Hwf Hv. pose proof (buffered_length s Hwf) as Hl. apply zlen_nil_iff. destruct Hwf as (_ & ? & _). lia. Qed.

(** Refilling an empty buffer takes bytes from the stream below, until it has no more. *)
Lemma refill_ok s :
  wf s -> valid s = position s ->
  exists s', refill s = Ok (bool_decide (in_data (stream s) <> []), s') /\ wf s' /\ data s' = data s /\
    (in_data (stream s) <> [] -> position s' < valid s') /\ (in_data (stream s) = [] -> buffered s' = []).
Proof.
  intros Hwf Hv. pose proof Hwf as (Hin & Hp & Hvs & Hs & Hb & Hf & Hd). unfold refill.
  rewrite Hv, Z.eqb_refl. cbn [stream buffer size position valid]. rewrite Z.sub_0_r.
  replace (u32 (size s)) with (size s) by (unwrap; lia). unfold filter_readBytes.
  assert (Hbe : buffered s = []) by (apply buffered_empty; [done|lia]).
  assert (Hdata : data s = in_data (stream s)) by (unfold data; by rewrite Hbe).
  destruct (decide (in_data (stream s) = [])) as [E|E].
  - destruct (readBytes_end (stream s) (buffer s) 0 (size s)) as (i & -> & Hiwf & Hid); [done|done|lia|]. mcbn. cbn [Z.leb Z.compare].
    rewrite bool_decide_false by naive_solver. eexists. split; [done|].
    assert (Hd' : data (mk i (buffer s) (size s) 0 0) = data s). { rewrite Hdata, E. exact Hid. }
    split_and!; [|done|done|done].
    repeat split; try (cbn; (done || lia)). rewrite Hd'. done.
  - pose proof (zlen_nonneg (in_data (stream s))). assert (0 < zlen (in_data (stream s))) by (rewrite <- zlen_nil_iff in E; lia).
    pose proof (in_small _ Hin).
    destruct (readBytes_some (stream s) (buffer s) 0 (size s)) as (i & -> & Hiwf & Hid); [done|done|lia..|]. mcbn.
    set (n := Z.min (size s) (zlen (in_data (stream s)))). destruct (Z.leb_spec n 0); [lia|].
    rewrite bool_decide_true by done. rewrite Z.add_0_l. replace (u32 n) with n by (unwrap; lia). cbn [size position].
    set (b := splice _ _ _).
    assert (Hbl : zlen b = size s). { unfold b. rewrite zlen_splice; [done|lia|]. rewrite zlen_ztake; lia. }
    assert (Hbt : ztake n b = ztake (size s) (in_data (stream s))).
    { unfold b, splice, ztake. change (Z.to_nat 0) with 0%nat. rewrite take_0, app_nil_l.
      replace (Z.to_nat n) with (length (take (Z.to_nat (size s)) (in_data (stream s)))) by (rewrite length_take; unfold n, zlen in *; lia).
      apply take_app_length. }
    eexists. split; [done|].
    assert (Hbuf : buffered (mk i b (size s) 0 n) = ztake (size s) (in_data (stream s))).
    { unfold buffered. cbn [position valid buffer]. rewrite Hbt. done. }
    assert (Hd' : data (mk i b (size s) 0 n) = data s).
    { unfold data at 1. rewrite Hbuf, Hdata. cbn [stream]. rewrite Hid. apply take_drop. }
    split_and!; [|done|cbn; lia|done].
    repeat split; try (cbn; (done || lia)); [|by rewrite Hd']. rewrite Hbuf. by apply Forall_take, in_bytes.
Qed.

Lemma exhausted_ok s :
  wf s -> exists s', exhausted s = Ok (bool_decide (data s = []), s') /\ wf s' /\ data s' = data s /\
    (data s <> [] -> position s' < valid s').
Proof.
  intros Hwf. pose proof Hwf as (Hin & Hp & Hvs & Hs & Hb & Hf & Hd). unfold exhausted. destruct (Z.leb_spec (valid s) (position s)).
  - destruct (refill_ok s Hwf) as (s1 & -> & Hwf1 & Hd1 & Hne & He); [lia|]. mcbn.
    assert (Hdata : data s = in_data (stream s)) by (unfold data; by rewrite buffered_empty). rewrite Hdata in *.
    exists s1. split_and!; [|done|done|done]. f_equal. f_equal.
    destruct (decide (in_data (stream s) = [])); [rewrite bool_decide_false, bool_decide_true|rewrite bool_decide_true, bool_decide_false]; naive_solver.
  - exists s. rewrite bool_decide_false; [done|]. intros E. apply (f_equal zlen) in E. unfold data in E. rewrite zlen_app, buffered_length in E by done.
    pose proof (zlen_nonneg (in_data (stream s))). unfold zlen in E at 2. cbn in E. lia.
Qed.

(** The bytes of the buffer that are taken first. *)
Lemma take_buffered n s :
  wf s -> 0 <= n <= valid s - position s ->
  take (Z.to_nat n) (drop (Z.to_nat (position s)) (buffer s)) = ztake n (data s) /\
  wf (mk (stream s) (buffer s) (size s) (position s + n) (valid s)) /\
  data (mk (stream s) (buffer s) (size s) (position s + n) (valid s)) = zdrop n (data s).
Proof.
  intros Hwf Hn. pose proof (buffered_length s Hwf) as Hl. pose proof Hwf as (Hin & Hp & Hvs & Hs & Hb & Hf & Hd).
  assert (Hbuf : buffered (mk (stream s) (buffer s) (size s) (position s + n) (valid s)) = zdrop n (buffered s)).
  { unfold buffered. cbn [position valid buffer]. rewrite zdrop_zdrop by lia. done. }
  assert (Hdata : data (mk (stream s) (buffer s) (size s) (position s + n) (valid s)) = zdrop n (data s)).
  { unfold data. rewrite Hbuf. unfold zdrop. rewrite drop_app_le; [done|]. unfold zlen in Hl. lia. }
  split_and!; [| |done].
  - unfold data, ztake at 1. rewrite take_app_le by (unfold zlen in Hl; lia). unfold buffered, ztake, zdrop.
    rewrite skipn_firstn_comm, firstn_firstn. f_equal. lia.
  - repeat split; try (cbn; (done || lia)).
    + rewrite Hbuf. by apply Forall_drop.
    + rewrite Hdata, zlen_zdrop by lia. lia.
Qed.

Lemma read_loop_ok fuel target off n ret s :
  wf s -> position s < valid s -> 0 < n < 2 ^ 32 -> 0 <= off -> off + Z.min n (zlen (data s)) <= zlen target -> zlen target < 2 ^ 32 ->
  0 <= ret -> ret + Z.min n (zlen (data s)) < 2 ^ 31 -> (Z.to_nat n < fuel)%nat ->
  exists s', read_loop fuel target off n ret s =
      Ok (ret + Z.min n (zlen (data s)), splice target off (ztake n (data s)), s') /\ wf s' /\ data s' = zdrop n (data s).
Proof.
  revert target off n ret s. induction fuel as [|fuel IH]; intros target off n ret s Hwf Hlt Hn Ho Ht Ht32 Hr Hret Hf; [lia|].
  pose proof (buffered_length s Hwf) as Hl. pose proof Hwf as (Hin & Hp & Hvs & Hs & Hb & Hby & Hd). cbn [read_loop].
  replace (u32 (valid s - position s)) with (valid s - position s) by (unwrap; lia).
  set (c := if n <? valid s - position s then n else valid s - position s).
  assert (Hc : c = Z.min n (valid s - position s)) by (unfold c; cmp_cases; lia). clearbody c.
  assert (Hdl : zlen (data s) = valid s - position s + zlen (in_data (stream s))) by (unfold data; rewrite zlen_app; lia).
  pose proof (zlen_nonneg (in_data (stream s))) as Hi0.
  destruct (take_buffered c s Hwf) as (Htk & Hwf1 & Hd1); [lia|].
  assert (Hcl : zlen (ztake c (data s)) = c) by (rewrite zlen_ztake; lia).
  rewrite copy_chars_ok by lia. mcbn. rewrite Htk.
  assert (Hsp : take (Z.to_nat off) target ++ ztake c (data s) ++ drop (Z.to_nat (off + c)) target = splice target off (ztake c (data s)))
    by (unfold splice; by rewrite Hcl). rewrite Hsp.
  replace (u32 (position s + c)) with (position s + c) by (unwrap; lia).
  replace (u32 (off + c)) with (off + c) by (unwrap; lia). replace (u32 (ret + c)) with (ret + c) by (unwrap; lia).
  replace (u32 (n - c)) with (n - c) by (unwrap; lia).
  destruct (Z.ltb_spec 0 (n - c)).
  - destruct (refill_ok _ Hwf1) as (s2 & -> & Hwf2 & Hd2 & Hne & He); [cbn; lia|]. mcbn. cbn [stream] in *. rewrite Hd1 in Hd2.
    destruct (decide (in_data (stream s) = [])) as [E|E].
    + rewrite bool_decide_false by naive_solver. rewrite E in Hdl, Hi0. unfold zlen in Hdl at 2. cbn in Hdl.
      exists s2. assert (Hcn : ztake c (data s) = ztake n (data s)).
      { unfold ztake. unfold zlen in Hdl. rewrite !take_ge; [done|lia..]. }
      split_and!; [|done|rewrite Hd2, !zdrop_all by lia; done]. rewrite Hcn. f_equal. f_equal. f_equal. unwrap. lia.
    + rewrite bool_decide_true by done.
      destruct (IH (splice target off (ztake c (data s))) (off + c) (n - c) (ret + c) s2) as (s3 & -> & Hwf3 & Hd3);
        try (done || lia); try (rewrite ?Hd2, ?zlen_zdrop, ?zlen_splice; lia).
      { by apply Hne. }
      exists s3. rewrite Hd3, Hd2, zlen_zdrop by lia. split_and!; [|done|rewrite zdrop_zdrop by lia; f_equal; lia].
      f_equal. f_equal. f_equal; [lia|].
      assert (Hadd : ztake n (data s) = ztake c (data s) ++ ztake (n - c) (zdrop c (data s))).
      { unfold ztake, zdrop. replace (Z.to_nat n) with (Z.to_nat c + Z.to_nat (n - c))%nat by lia.
        rewrite <- (take_drop (Z.to_nat c) (data s)) at 1. rewrite take_app, length_take. unfold zlen in Hdl, Hi0.
        rewrite firstn_firstn. f_equal; f_equal; lia. }
      rewrite Hadd, <- splice_splice; [by rewrite Hcl|lia|]. rewrite Hcl, zlen_ztake, zlen_zdrop by lia. lia.
  - assert (n = c) as <- by lia. eexists. split; [|split; [exact Hwf1|done]].
    f_equal. f_equal. f_equal. unwrap. lia.
Qed.

#[global] Program Instance BufferedInputStream_laws : InputStreamLaws (BufferedInputStream St) := {|
  in_wf := wf; in_data := data
|}.
Next Obligation.
  intros s (Hin & _ & _ & _ & _ & Hf & _). apply Forall_app. split; [done|]. by apply in_bytes.
Qed.
Next Obligation. by intros s (_ & _ & _ & _ & _ & _ & H'). Qed.
Next Obligation.
  intros s b l Hwf Hd. change (exists s', read s = Ok (b, s') /\ wf s' /\ data s' = l).
  destruct (exhausted_ok s Hwf) as (s1 & E & Hwf1 & Hd1 & Hne). unfold read. rewrite E. mcbn.
  assert (Hlt := Hne ltac:(by rewrite Hd)). rewrite bool_decide_false by (by rewrite Hd). clear E.
  pose proof Hwf1 as (Hin & Hp & Hvs & Hs & Hb & Hby & _).
  destruct (take_buffered 1 s1 Hwf1) as (Htk & Hwf2 & Hd2); [lia|]. rewrite Hd1, Hd in Htk, Hd2.
  destruct (aget_in (buffer s1) (position s1)) as (x & Hx & Hlk); [lia|]. rewrite Hx. mcbn.
  rewrite (drop_S _ _ _ Hlk) in Htk. cbn in Htk. injection Htk as ->.
  replace (u32 (position s1 + 1)) with (position s1 + 1) by (unwrap; lia). by eexists.
Qed.
Next Obligation.
  intros s target off n Hwf Hd Hn Ho Ht Ht32.
  change (exists s', readBytes target off n s = Ok (Z.min n (zlen (data s)), splice target off (ztake n (data s)), s') /\ wf s' /\ data s' = zdrop n (data s)).
  pose proof (zlen_nonneg (data s)). unfold readBytes. destruct (Z.eqb_spec n 0) as [->|Hn0].
  - exists s. rewrite Z.min_l by lia. split_and!; [|done|done]. unfold splice, ztake. change (Z.to_nat 0) with 0%nat. rewrite take_0, app_nil_l.
    unfold zlen at 1. cbn [length Z.of_nat]. by rewrite Z.add_0_r, take_drop.
  - destruct (exhausted_ok s Hwf) as (s1 & -> & Hwf1 & Hd1 & Hne). mcbn. rewrite bool_decide_false by done.
    assert (zlen (data s) < 2 ^ 31) by (by destruct Hwf as (_ & _ & _ & _ & _ & _ & H')).
    destruct (read_loop_ok (S (Z.to_nat n)) target off n 0 s1) as (s2 & -> & Hwf2 & Hd2); rewrite ?Hd1; try (done || lia); [by apply Hne|].
    exists s2. rewrite Hd2, Hd1. done.
Qed.

#[global] Program Instance BufferedInputStream_finite : FiniteInputStream (BufferedInputStream St).
Next Obligation.
  intros s Hwf Hd. destruct (exhausted_ok s Hwf) as (s1 & E & Hwf1 & Hd1 & _).
  change (data s = []) in Hd. exists s1. rewrite Hd in E, Hd1. split; [|done]. change (read s = Ok (-1, s1)). unfold read. by rewrite E.
Qed.
Next Obligation.
  intros s target off n Hwf Hd Hn. destruct (exhausted_ok s Hwf) as (s1 & E & Hwf1 & Hd1 & _).
  change (data s = []) in Hd. exists s1. rewrite Hd in E, Hd1. split; [|done]. change (readBytes target off n s = Ok (-1, target, s1)). unfold readBytes.
  destruct (Z.eqb_spec n 0); [lia|]. by rewrite E.
Qed.

Lemma buffered_new_wf `{FreshMemory} s n :
  in_wf s -> 0 < n < 2 ^ 31 -> wf (BufferedInputStream_size s n) /\ data (BufferedInputStream_size s n) = in_data s.
Proof.
  intros Hs Hn. assert (data (BufferedInputStream_size s n) = in_data s) as Hd by done. split; [|done].
  repeat split; try (cbn; (done || lia)); [cbn; apply zlen_new_bytes; lia|]. rewrite Hd. by apply in_small.
Qed.
End Spec.
End BufferedInputStream.

(** ** [BufferedOutputStream] *)
Module BufferedOutputStream.

Record BufferedOutputStream (St : Type) := mk { stream : St; buffer : list Z; size : Z; position : Z }.
Arguments mk {St}.
Arguments stream {St}.
Arguments buffer {St}.
Arguments size {St}.
Arguments position {St}.

Section BufferedOutputStream.
Context `{OS : OutputStream St} `{FreshMemory}.

(** [FilterOutputStream] passes every call on. *)
Definition filter_write (c : Z) (s : St) : outcome St := Streams.write c s.
Definition filter_writeBytes (source : list Z) (offset length : Z) (s : St) : outcome St := Streams.writeBytes source offset length s.
Definition filter_flush (s : St) : outcome St := Streams.flush s.

Definition BufferedOutputStream_size (stream : St) (size : Z) : BufferedOutputStream St := mk stream (new_bytes size) size 0.

Definition flush (s : BufferedOutputStream St) : outcome (BufferedOutputStream St) :=
  inner ← filter_writeBytes (buffer s) 0 (position s) (stream s);
  inner ← filter_flush inner;
  Ok (mk inner (buffer s) (size s) 0).

Definition write (c : Z) (s : BufferedOutputStream St) : outcome (BufferedOutputStream St) :=
  s ← (if position s =? size s then flush s else Ok s);
  b ← aset (buffer s) (position s) c;
  Ok (mk (stream s) b (size s) (u32 (position s + 1))).

Definition writeBytes (sourceBuffer : list Z) (offset length : Z) (s : BufferedOutputStream St) : outcome (BufferedOutputStream St) :=
  if length <? u32 (size s - position s) then
    b ← copy_chars (buffer s) (position s) sourceBuffer offset length;
    Ok (mk (stream s) b (size s) (u32 (position s + length)))
  else
    s ← flush s;
    inner ← filter_writeBytes sourceBuffer offset length (stream s);
    Ok (mk inner (buffer s) (size s) (position s)).

#[global] Instance BufferedOutputStream_OutputStream : OutputStream (BufferedOutputStream St) :=
  Build_OutputStream _ write writeBytes flush.
End BufferedOutputStream.

Section Spec.
Context `{OSL : OutputStreamLaws St}.

(** The cells behind [position] may hold anything, but hold bytes. *)
Definition wf (s : BufferedOutputStream St) : Prop :=
  out_wf (stream s) /\ 0 <= position s <= size s /\ 0 < size s < 2 ^ 31 /\ zlen (buffer s) = size s /\
  Forall (in_u 8) (buffer s) /\ position s <= out_room (stream s).

Definition data (s : BufferedOutputStream St) : list Z := out_data (stream s) ++ ztake (position s) (buffer s).
Definition room (s : BufferedOutputStream St) : Z := out_room (stream s) - position s.

Lemma bos_flush s :
  wf s -> exists s', flush s = Ok s' /\ wf s' /\ data s' = data s /\ room s' = room s /\ position s' = 0 /\ size s' = size s.
Proof.
  intros (Hin & Hp & Hs & Hb & Hf & Hr). unfold flush, filter_writeBytes, filter_flush.
  destruct (writeBytes_ok (stream s) (buffer s) 0 (position s)) as (i & -> & Hi & Hd & Hir); [done|done|lia..|]. mcbn.
  destruct (flush_ok i Hi) as (j & -> & Hj & Hjd & Hjr). mcbn. eexists. split; [done|]. split_and!; [|..|done|done].
  - repeat split; cbn; try (done || lia).
  - unfold data. cbn. rewrite app_nil_r, Hjd, Hd. done.
  - unfold room. cbn. lia.
Qed.

Lemma bos_append s src off n :
  wf s -> Forall (in_u 8) src -> 0 <= off -> 0 <= n -> off + n <= zlen src -> position s + n <= size s -> n <= room s ->
  exists b, copy_chars (buffer s) (position s) src off n = Ok b /\
    wf (mk (stream s) b (size s) (u32 (position s + n))) /\
    data (mk (stream s) b (size s) (u32 (position s + n))) = data s ++ ztake n (zdrop off src) /\
    room (mk (stream s) b (size s) (u32 (position s + n))) = room s - n.
Proof.
  intros (Hin & Hp & Hs & Hb & Hf & Hr) Hsrc Ho Hn Hon Hc Hroom. unfold room in *. rewrite copy_chars_ok by lia. eexists. split; [done|].
  replace (u32 (position s + n)) with (position s + n) by (unwrap; lia). unfold zlen in *.
  assert (Hl1 : length (take (Z.to_nat (position s)) (buffer s)) = Z.to_nat (position s)) by (rewrite length_take; lia).
  assert (Hl2 : length (take (Z.to_nat n) (drop (Z.to_nat off) src)) = Z.to_nat n) by (rewrite length_take, length_drop; lia).
  split_and!; [|unfold data; cbn [stream position buffer]|cbn; lia].
  - repeat split; cbn; try (done || lia).
    + unfold zlen. rewrite !length_app, Hl1, Hl2, length_drop. lia.
    + rewrite !Forall_app. split_and!; [by apply Forall_take|by apply Forall_take, Forall_drop|by apply Forall_drop].
  - rewrite <- app_assoc. f_equal. unfold ztake, zdrop. rewrite app_assoc, take_app_le by (rewrite length_app; lia).
    apply take_ge. rewrite length_app. lia.
Qed.

Lemma bos_write s b :
  wf s -> in_u 8 b -> 0 < room s ->
  exists s', write b s = Ok s' /\ wf s' /\ data s' = data s ++ [b] /\ room s' = room s - 1.
Proof.
  intros Hwf Hb Hr. unfold write.
  assert (exists s1, (if position s =? size s then flush s else Ok s) = Ok s1 /\ wf s1 /\ data s1 = data s /\ room s1 = room s /\
    position s1 < size s1) as (s1 & -> & Hwf1 & Hd1 & Hr1 & Hlt).
  { destruct (Z.eqb_spec (position s) (size s)) as [E|E].
    - destruct (bos_flush s Hwf) as (s1 & ? & ? & ? & ? & Hp0 & Hsz). exists s1. split_and!; try done. destruct Hwf as (_ & _ & ? & _). lia.
    - exists s. destruct Hwf as (? & ? & ?). split_and!; try done. lia. }
  mcbn. destruct (bos_append s1 [b] 0 1) as (buf & E & Hwf2 & Hd2 & Hr2); try (done || lia); [by constructor|].
  unfold copy_chars in E. change (Z.to_nat 1) with 1%nat in E. cbn [for_up] in E.
  change (aget [b] (0 + 0)) with (Ok b) in E. rewrite Z.add_0_r in E. cbn [mbind outcome_bind] in E.
  destruct (aset (buffer s1) (position s1) b) as [x| | |] eqn:Ex; cbn in E; [|done..]. injection E as ->. mcbn.
  eexists. split; [done|]. split_and!; [done|by rewrite Hd2, Hd1|lia].
Qed.

Lemma bos_writeBytes s source off n :
  wf s -> Forall (in_u 8) source -> 0 <= off -> 0 <= n <= room s -> off + n <= zlen source -> zlen source < 2 ^ 32 ->
  exists s', writeBytes source off n s = Ok s' /\ wf s' /\ data s' = data s ++ ztake n (zdrop off source) /\ room s' = room s - n.
Proof.
  intros Hwf Hs Ho Hn Hon H32. unfold writeBytes. pose proof Hwf as (Hin & Hp & Hsz & Hb & Hf & Hr).
  replace (u32 (size s - position s)) with (size s - position s) by (unwrap; lia).
  destruct (Z.ltb_spec n (size s - position s)).
  - destruct (bos_append s source off n) as (b & -> & Hwf1 & Hd1 & Hr1); try (done || lia). mcbn. by eexists.
  - destruct (bos_flush s Hwf) as (s1 & -> & Hwf1 & Hd1 & Hr1 & Hp1 & Hs1). mcbn. unfold filter_writeBytes.
    pose proof Hwf1 as (Hin1 & _ & _ & Hb1 & Hf1 & _). unfold room in Hr1, Hn. rewrite Hp1 in Hr1.
    destruct (writeBytes_ok (stream s1) source off n) as (i & -> & Hi & Hid & Hir); [done|done|lia..|]. mcbn.
    eexists. split; [done|]. rewrite <- Hd1. unfold data, room. cbn [stream position buffer]. rewrite Hp1, Hid. unfold ztake at 2 4. cbn.
    rewrite !app_nil_r. split_and!; [|done|lia]. repeat split; cbn; try (done || lia).
Qed.

#[global] Instance BufferedOutputStream_laws : OutputStreamLaws (BufferedOutputStream St).
Proof.
  refine {| out_wf := wf; out_data := data; out_room := room; write_ok := bos_write; writeBytes_ok := bos_writeBytes |}.
  intros s Hwf. destruct (bos_flush s Hwf) as (s' & E & ? & ? & ? & _). exists s'. split_and!; done.
Defined.

(** What is written through the buffer and flushed has arrived below. *)
Lemma bos_flush_arrives s :
  wf s -> exists s', flush s = Ok s' /\ out_data (stream s') = data s.
Proof.
  intros Hwf. destruct (bos_flush s Hwf) as (s' & E & Hwf' & Hd & _ & Hp & _). exists s'. split; [done|].
  rewrite <- Hd. unfold data. rewrite Hp. unfold ztake. by rewrite app_nil_r.
Qed.
End Spec.
End BufferedOutputStream.

(** ** [PipedInputStream] and [PipedOutputStream]

    A ring buffer: [inPosition] is where the next byte goes, -1 if the pipe is empty,
    [outPosition] where the next byte comes from. The two streams refer to each other
    by address. *)
Module Piped.

Record PipedInputStream := mk {
  source : option Z; buffer : list Z; bufferSize : Z; inPosition : Z; outPosition : Z; peekedCharacter : Z
}.

Record PipedOutputStream := mkOut { sink : option Z }.

Definition DEFAULT_BUFFER_SIZE : Z := 1024.

Definition PipedInputStream_new `{FreshMemory} (bufferSize : Z) : PipedInputStream :=
  mk None (new_bytes bufferSize) bufferSize (-1) 0 (-1).

Definition PipedOutputStream_new : PipedOutputStream := mkOut None.
Definition PipedOutputStream_input (inputStream : Z) : PipedOutputStream := mkOut (Some inputStream).

(** [input.connect(output)] of the streams at the addresses [i] and [o]. *)
Definition connect_input (i o : Z) (input : PipedInputStream) (output : PipedOutputStream) : outcome (PipedInputStream * PipedOutputStream) :=
  match source input with
  | Some _ => Throw ILLEGAL_STATE
  | None =>
    Ok (mk (Some o) (buffer input) (bufferSize input) (inPosition input) (outPosition input) (peekedCharacter input), mkOut (Some i))
  end.

Definition PipedInputStream_connected `{FreshMemory} (i o : Z) (bufferSize : Z) (output : PipedOutputStream)
    : outcome (PipedInputStream * PipedOutputStream) :=
  connect_input i o (PipedInputStream_new bufferSize) output.

Definition connect_output (i o : Z) (input : PipedInputStream) (output : PipedOutputStream) : outcome (PipedInputStream * PipedOutputStream) :=
  match sink output with Some _ => Throw ILLEGAL_STATE | None => connect_input i o input output end.

Definition set_positions (i o : Z) (s : PipedInputStream) : PipedInputStream :=
  mk (source s) (buffer s) (bufferSize s) i o (peekedCharacter s).

(** One round of the loop of [read]: how many bytes it copies and the pipe after it. *)
Definition read_round (targetBuffer : list Z) (offset remaining : Z) (s : PipedInputStream) : outcome (Z * list Z * PipedInputStream) :=
  let toCopy :=
    if outPosition s <? inPosition s then
      if remaining <? inPosition s - outPosition s then remaining else inPosition s - outPosition s
    else if remaining <? bufferSize s - outPosition s then remaining else bufferSize s - outPosition s in
  targetBuffer ← copy_chars targetBuffer offset (buffer s) (outPosition s) toCopy;
  let outPosition := s32 (outPosition s + toCopy) in
  let outPosition := if outPosition =? bufferSize s then 0 else outPosition in
  let s := if outPosition =? inPosition s then set_positions (-1) 0 s else set_positions (inPosition s) outPosition s in
  Ok (toCopy, targetBuffer, s).

Fixpoint read_loop (fuel : nat) (targetBuffer : list Z) (offset remaining ret : Z) (s : PipedInputStream)
    : outcome (Z * list Z * PipedInputStream) :=
  match fuel with
  | O => Loops
  | S fuel =>
    '(toCopy, targetBuffer, s) ← read_round targetBuffer offset remaining s;
    if (u32 (remaining - toCopy) =? 0) || (inPosition s =? -1) then Ok (s32 (u32 (ret + toCopy)), targetBuffer, s)
    else read_loop fuel targetBuffer (u32 (offset + toCopy)) (u32 (remaining - toCopy)) (u32 (ret + toCopy)) s
  end.

(** While the pipe is empty the reader yields; the bytes of a ring are read in two rounds. *)
Definition readBytes (targetBuffer : list Z) (offset length : Z) (s : PipedInputStream) : outcome (Z * list Z * PipedInputStream) :=
  match source s with
  | None => Throw ILLEGAL_STATE
  | Some _ =>
    if length =? 0 then Ok (0, targetBuffer, s)
    else if inPosition s <? 0 then Loops
    else read_loop 2 targetBuffer offset length 0 s
  end.

Definition set_peeked (c : Z) (s : PipedInputStream) : PipedInputStream :=
  mk (source s) (buffer s) (bufferSize s) (inPosition s) (outPosition s) c.

Definition read (s : PipedInputStream) : outcome (Z * PipedInputStream) :=
  if negb (peekedCharacter s =? -1) then Ok (peekedCharacter s, set_peeked (-1) s)
  else
    '(count, ret, s) ← readBytes [0] 0 1 s;
    if count =? 0 then Ok (0, s) else b ← aget ret 0; Ok (b, s).

Definition peek (s : PipedInputStream) : outcome (Z * PipedInputStream) :=
  if peekedCharacter s =? -1 then '(c, s) ← read s; Ok (c, set_peeked c s)
  else Ok (peekedCharacter s, s).

(** One round of the loop of [write], when the pipe is not full. *)
Definition write_round (sourceBuffer : list Z) (sourcePosition remaining : Z) (s : PipedInputStream) : outcome (Z * PipedInputStream) :=
  let inPosition := if inPosition s <? 0 then 0 else inPosition s in
  let toCopy :=
    if inPosition <? outPosition s then
      if remaining <? outPosition s - inPosition then remaining else outPosition s - inPosition
    else if remaining <? bufferSize s - inPosition then remaining else bufferSize s - inPosition in
  b ← copy_chars (buffer s) inPosition sourceBuffer sourcePosition toCopy;
  let inPosition := s32 (inPosition + toCopy) in
  let inPosition := if inPosition =? bufferSize s then 0 else inPosition in
  Ok (toCopy, mk (source s) b (bufferSize s) inPosition (outPosition s) (peekedCharacter s)).

(** The loop of [write], up to its end ([remaining = 0]) or to the place where the pipe is full and the
    writer lets other threads run; it goes on from there later. *)
Fixpoint write_loop (fuel : nat) (sourceBuffer : list Z) (sourcePosition remaining : Z) (s : PipedInputStream)
    : outcome (Z * Z * PipedInputStream) :=
  if (0 <? remaining) && negb (inPosition s =? outPosition s) then
    match fuel with
    | O => Loops
    | S fuel =>
      '(toCopy, s) ← write_round sourceBuffer sourcePosition remaining s;
      write_loop fuel sourceBuffer (u32 (sourcePosition + toCopy)) (u32 (remaining - toCopy)) s
    end
  else Ok (sourcePosition, remaining, s).

(** [write] of the pipe when no other thread reads from it. *)
Definition pipe_write (sourceBuffer : list Z) (offset length : Z) (s : PipedInputStream) : outcome PipedInputStream :=
  '(_, remaining, s) ← write_loop 2 sourceBuffer offset length s;
  if remaining =? 0 then Ok s else Loops.

Definition pipe_write_byte (c : Z) (s : PipedInputStream) : outcome PipedInputStream := pipe_write [c] 0 1 s.

(** [PipedOutputStream::write]: without a sink the bytes are dropped. *)
Definition write (o : PipedOutputStream) (c : Z) (s : PipedInputStream) : outcome PipedInputStream :=
  match sink o with None => Ok s | Some _ => pipe_write_byte c s end.
Definition writeBytes (o : PipedOutputStream) (sourceBuffer : list Z) (offset length : Z) (s : PipedInputStream) : outcome PipedInputStream :=
  match sink o with None => Ok s | Some _ => pipe_write sourceBuffer offset length s end.

Definition available (s : PipedInputStream) : Z :=
  if inPosition s <? 0 then 0
  else if outPosition s <? inPosition s then inPosition s - outPosition s
  else bufferSize s - outPosition s + inPosition s.

Definition isReadyToRead (s : PipedInputStream) : bool := 0 <? available s.

#[global] Instance PipedInputStream_InputStream : InputStream PipedInputStream := Build_InputStream _ read readBytes.

(** The bytes in the pipe, oldest first. *)
Definition contents (s : PipedInputStream) : list Z :=
  if inPosition s <? 0 then []
  else if outPosition s <? inPosition s then zdrop (outPosition s) (ztake (inPosition s) (buffer s))
  else zdrop (outPosition s) (buffer s) ++ ztake (inPosition s) (buffer s).

Definition wf (s : PipedInputStream) : Prop :=
  0 < bufferSize s < 2 ^ 31 /\ zlen (buffer s) = bufferSize s /\ 0 <= outPosition s < bufferSize s /\
  -1 <= inPosition s < bufferSize s /\ (inPosition s = -1 -> outPosition s = 0) /\ source s <> None.

(** [available] is the number of the bytes. *)
Lemma available_ok s : wf s -> available s = zlen (contents s).
Proof.
  intros (Hs & Hb & Ho & Hi & He & _). unfold available, contents. cmp_cases; [done| |].
  - rewrite zlen_zdrop, zlen_ztake by lia. lia.
  - rewrite zlen_app, zlen_zdrop, zlen_ztake by lia. lia.
Qed.

Lemma pipe_contents_nil s : wf s -> contents s = [] <-> inPosition s = -1.
Proof.
  intros Hwf. rewrite <- zlen_nil_iff, <- available_ok by done. destruct Hwf as (Hs & Hb & Ho & Hi & He & _). unfold available. cmp_cases.
Qed.

(** Removing [n] bytes of one straight piece of the ring. *)
Lemma contents_advance s n out :
  wf s -> 0 <= inPosition s -> 0 < n ->
  n <= (if outPosition s <? inPosition s then inPosition s - outPosition s else bufferSize s - outPosition s) ->
  out = (if outPosition s + n =? bufferSize s then 0 else outPosition s + n) ->
  let s' := if out =? inPosition s then set_positions (-1) 0 s else set_positions (inPosition s) out s in
  take (Z.to_nat n) (drop (Z.to_nat (outPosition s)) (buffer s)) = ztake n (contents s) /\ wf s' /\ contents s' = zdrop n (contents s).
Proof.
  intros Hwf Hi0 Hn Hle Hout s'. pose proof Hwf as (Hs & Hb & Ho & Hi & He & Hsrc).
  assert (Hwf' : wf s').
  { unfold s'. destruct (Z.eqb_spec out (inPosition s)); repeat split; cbn; try (done || lia).
    all: subst out; revert Hle; cmp_cases. }
  unfold s', contents. destruct (Z.ltb_spec (inPosition s) 0); [lia|]. unfold zlen in Hb.
  destruct (Z.ltb_spec (outPosition s) (inPosition s)) as [Hlt|Hge].
  - destruct (Z.eqb_spec (outPosition s + n) (bufferSize s)); [lia|]. subst out.
    split_and!; [|done|].
    + unfold ztake, zdrop. rewrite skipn_firstn_comm, firstn_firstn. f_equal. lia.
    + destruct (Z.eqb_spec (outPosition s + n) (inPosition s)) as [E|E]; cbn [inPosition outPosition buffer set_positions].
      * rewrite zdrop_zdrop by lia. symmetry. apply zdrop_all. rewrite zlen_ztake by lia. lia.
      * destruct (Z.ltb_spec (inPosition s) 0); [lia|]. destruct (Z.ltb_spec (outPosition s + n) (inPosition s)); [|lia].
        rewrite zdrop_zdrop by lia. done.
  - assert (Hl : length (zdrop (outPosition s) (buffer s)) = Z.to_nat (bufferSize s - outPosition s)) by (unfold zdrop; rewrite length_drop; lia).
    split_and!; [|done|].
    + unfold ztake at 1. rewrite take_app_le by lia. done.
    + rewrite (zdrop_app_le n) by (unfold zlen; lia). rewrite (zdrop_zdrop n) by lia.
      destruct (Z.eqb_spec (outPosition s + n) (bufferSize s)) as [E|E]; subst out.
      * rewrite (zdrop_all (outPosition s + n)) by (unfold zlen; lia). rewrite app_nil_l.
        destruct (Z.eqb_spec 0 (inPosition s)) as [E0|E0]; cbn [inPosition outPosition buffer set_positions].
        -- rewrite <- E0. done.
        -- destruct (Z.ltb_spec (inPosition s) 0); [lia|]. destruct (Z.ltb_spec 0 (inPosition s)); [done|lia].
      * destruct (Z.eqb_spec (outPosition s + n) (inPosition s)); [lia|]. cbn [inPosition outPosition buffer set_positions].
        destruct (Z.ltb_spec (inPosition s) 0); [lia|]. destruct (Z.ltb_spec (outPosition s + n) (inPosition s)); [lia|done].
Qed.

(** A round reads a piece from the front; what a round leaves of the request lies in one piece. *)
Lemma read_round_ok target off rem s :
  wf s -> contents s <> [] -> 0 < rem < 2 ^ 32 -> 0 <= off -> off + Z.min rem (zlen (contents s)) <= zlen target ->
  exists n s', read_round target off rem s = Ok (n, splice target off (ztake n (contents s)), s') /\ wf s' /\
    contents s' = zdrop n (contents s) /\ 0 < n <= Z.min rem (zlen (contents s)) /\
    (n = Z.min rem (zlen (contents s)) \/ (bufferSize s <= outPosition s + n /\ outPosition s' = 0)) /\
    (outPosition s < inPosition s -> n = Z.min rem (zlen (contents s))) /\
    (inPosition s' = -1 \/ inPosition s' <> outPosition s') /\ peekedCharacter s' = peekedCharacter s.
Proof.
  intros Hwf Hne Hrem Ho Ht. rewrite pipe_contents_nil in Hne by done. pose proof (available_ok s Hwf) as Ha. rewrite <- Ha in *.
  pose proof Hwf as (Hs & Hb & Ho' & Hi & He & Hsrc).
  unfold read_round. set (n := if outPosition s <? inPosition s then _ else _).
  assert (Hn : 0 < n <= Z.min rem (available s) /\
    n = Z.min rem (if outPosition s <? inPosition s then inPosition s - outPosition s else bufferSize s - outPosition s)).
  { unfold n, available. cmp_cases; split; lia. }
  destruct Hn as [Hn Hnm]. clearbody n.
  destruct (contents_advance s n (if outPosition s + n =? bufferSize s then 0 else outPosition s + n)) as (Htk & Hwf' & Hc); [done|lia|lia|rewrite Hnm at 1; apply Z.le_min_r|done|].
  assert (Hon : outPosition s + n <= bufferSize s) by (revert Hnm; cmp_cases).
  rewrite copy_chars_ok by lia. mcbn. rewrite Htk.
  assert (Hz : zlen (ztake n (contents s)) = n) by (rewrite zlen_ztake; lia).
  replace (s32 (outPosition s + n)) with (outPosition s + n) by (unwrap; lia).
  eexists _, _. split; [|split; [exact Hwf'|split; [exact Hc|]]].
  { f_equal. f_equal. f_equal. unfold splice. by rewrite Hz. }
  split_and!; [lia|lia| | | |].
  - unfold available in *. revert Hnm. clear Htk Hwf' Hc. 
    destruct (Z.ltb_spec (inPosition s) 0), (Z.ltb_spec (outPosition s) (inPosition s)); intros Hnm; [lia..|left; lia|].
    destruct (decide (rem <= bufferSize s - outPosition s)); [left; lia|]. right.
    assert (n = bufferSize s - outPosition s) by lia. split; [lia|].
    destruct (Z.eqb_spec (outPosition s + n) (bufferSize s)); [|lia]. by destruct (0 =? inPosition s).
  - intros Hlt. unfold available in *. revert Hnm. cmp_cases.
  - destruct (Z.eqb_spec (if outPosition s + n =? bufferSize s then 0 else outPosition s + n) (inPosition s)); cbn; lia.
  - by destruct (_ =? inPosition s).
Qed.

Lemma pipe_read_loop_ok target off n s :
  wf s -> contents s <> [] -> 0 < n < 2 ^ 32 -> 0 <= off -> off + Z.min n (zlen (contents s)) <= zlen target -> zlen target < 2 ^ 32 ->
  exists s', read_loop 2 target off n 0 s = Ok (Z.min n (zlen (contents s)), splice target off (ztake n (contents s)), s') /\
    wf s' /\ contents s' = zdrop n (contents s) /\ peekedCharacter s' = peekedCharacter s.
Proof.
  intros Hwf Hne Hn Ho Ht Ht32. cbn [read_loop]. set (L := zlen (contents s)) in *.
  assert (HL : L < 2 ^ 31). { unfold L. rewrite <- available_ok by done. destruct Hwf as (? & ? & ? & ? & ? & ?). unfold available. cmp_cases. }
  assert (Hall : forall m, L <= m -> ztake m (contents s) = contents s).
  { intros m Hm. unfold ztake. apply take_ge. unfold L, zlen in Hm. lia. }
  destruct (read_round_ok target off n s) as (n1 & s1 & -> & Hwf1 & Hc1 & Hn1 & Hor & _ & Hio & Hp1); [done|done|lia|done|done|]. fold L in Hn1, Hor. mcbn.
  replace (u32 (n - n1)) with (n - n1) by (unwrap; lia). replace (u32 (off + n1)) with (off + n1) by (unwrap; lia).
  rewrite Z.add_0_l. replace (u32 n1) with n1 by (unwrap; lia).
  destruct (Z.eqb_spec (n - n1) 0) as [E|E]; cbn [orb].
  { assert (n1 = n) as -> by lia. exists s1. split_and!; [|done|done|done]. f_equal. f_equal. f_equal. unwrap. lia. }
  destruct (Z.eqb_spec (inPosition s1) (-1)) as [E1|E1].
  - rewrite <- pipe_contents_nil, Hc1 in E1 by done. apply (f_equal zlen) in E1. rewrite zlen_zdrop in E1 by lia. fold L in E1.
    change (zlen []) with 0 in E1. assert (n1 = L) by lia. exists s1.
    split_and!; [|done|rewrite Hc1; rewrite !zdrop_all by lia; done|done]. rewrite !Hall by lia. f_equal. f_equal. f_equal. unwrap. lia.
  - assert (Hlt : outPosition s1 < inPosition s1).
    { destruct Hor as [Hor|[_ Hz0]]; [|destruct Hwf1 as (_ & _ & _ & ? & ? & _); lia].
      exfalso. apply E1. rewrite <- pipe_contents_nil, Hc1 by done. apply zdrop_all. fold L. lia. }
    assert (Hne1 : contents s1 <> []) by (by rewrite pipe_contents_nil).
    assert (HL1 : zlen (contents s1) = L - n1) by (rewrite Hc1, zlen_zdrop by lia; fold L; lia).
    assert (Htl : zlen (splice target off (ztake n1 (contents s))) = zlen target).
    { apply zlen_splice; [lia|]. rewrite zlen_ztake by lia. fold L. lia. }
    destruct (read_round_ok (splice target off (ztake n1 (contents s))) (off + n1) (n - n1) s1)
      as (n2 & s2 & -> & Hwf2 & Hc2 & Hn2 & _ & Hst & _ & Hp2); [done|done|lia|lia|rewrite Htl, HL1; lia|]. mcbn. specialize (Hst Hlt). rewrite HL1 in Hst, Hn2.
    replace (u32 (n - n1 - n2)) with (n - n1 - n2) by (unwrap; lia).
    assert (Hdone : (n - n1 - n2 =? 0) || (inPosition s2 =? -1) = true).
    { destruct (Z.eqb_spec (n - n1 - n2) 0) as [E2|E2]; [done|]. cbn [orb]. apply Z.eqb_eq. rewrite <- pipe_contents_nil, Hc2 by done.
      apply zdrop_all. lia. }
    rewrite Hdone. exists s2. assert (Hz : n1 = zlen (ztake n1 (contents s))) by (rewrite zlen_ztake by lia; fold L; lia).
    split_and!; [|done| |congruence].
    + f_equal. f_equal. f_equal; [unwrap; lia|]. rewrite Hz at 2. rewrite splice_splice.
      * f_equal. rewrite Hc1. apply ztake_split; lia.
      * lia.
      * rewrite <- Hz, zlen_ztake, HL1 by lia. lia.
    + rewrite Hc2, Hc1, zdrop_zdrop by lia.
      destruct (decide (n <= L)); [f_equal; lia|]. rewrite !zdrop_all by (fold L; lia). done.
Qed.

#[global] Program Instance PipedInputStream_laws : InputStreamLaws PipedInputStream := {|
  in_wf s := wf s /\ Forall (in_u 8) (contents s) /\ peekedCharacter s = -1; in_data := contents
|}.
Next Obligation. by intros s (_ & H & _). Qed.
Next Obligation.
  intros s (Hwf & _). rewrite <- available_ok by done. destruct Hwf as (? & ? & ? & ? & ? & ?). unfold available. cmp_cases.
Qed.
Next Obligation.
  intros s b l (Hwf & Hb & Hp) Hd.
  assert (Hl : zlen (contents s) = zlen l + 1) by (rewrite Hd; apply zlen_cons). pose proof (zlen_nonneg l).
  destruct (pipe_read_loop_ok [0] 0 1 s) as (s' & E & Hwf' & Hc & Hp'); [done|by rewrite Hd|lia|lia|rewrite Hl; change (zlen [0]) with 1; lia|done|].
  exists s'. assert (Hin : inPosition s <> -1) by (rewrite <- pipe_contents_nil by done; by rewrite Hd).
  split; [|split; [split; [done|split; [|congruence]]|]].
  - change (read s = Ok (b, s')). unfold read, readBytes. rewrite Hp. cbn [Z.eqb negb]. destruct Hwf as (_ & _ & _ & ? & _ & Hsrc).
    destruct (source s); [|done]. cbn [Z.eqb]. destruct (Z.ltb_spec (inPosition s) 0); [lia|]. rewrite E. mcbn.
    rewrite Z.min_l by lia. by rewrite Hd.
  - rewrite Hc. by apply Forall_drop.
  - rewrite Hc, Hd. done.
Qed.
Next Obligation.
  intros s target off n (Hwf & Hb & Hp) Hd Hn Ho Ht Ht32.
  change (exists s', readBytes target off n s = Ok (Z.min n (zlen (contents s)), splice target off (ztake n (contents s)), s') /\
    (wf s' /\ Forall (in_u 8) (contents s') /\ peekedCharacter s' = -1) /\ contents s' = zdrop n (contents s)).
  pose proof (zlen_nonneg (contents s)).
  assert (Hin : inPosition s <> -1) by (by rewrite <- pipe_contents_nil by done). unfold readBytes.
  pose proof Hwf as (_ & _ & _ & ? & _ & Hsrc). destruct (source s) as [o|]; [|done].
  destruct (Z.eqb_spec n 0) as [->|Hn0].
  - exists s. rewrite Z.min_l by lia. split_and!; try done. unfold splice, ztake. change (Z.to_nat 0) with 0%nat. rewrite take_0, app_nil_l.
    unfold zlen at 1. cbn [length Z.of_nat]. by rewrite Z.add_0_r, take_drop.
  - destruct (Z.ltb_spec (inPosition s) 0); [lia|].
    destruct (pipe_read_loop_ok target off n s) as (s' & -> & Hwf' & Hc & Hp'); [done|done|lia|done|done|done|].
    exists s'. split_and!; try done; [|congruence]. rewrite Hc. by apply Forall_drop.
Qed.

(** How much fits. *)
Definition free (s : PipedInputStream) : Z := bufferSize s - zlen (contents s).

Lemma splice_straight (b l : list Z) i j :
  0 <= i -> i + zlen l <= j -> j <= zlen b -> zdrop j (splice b i l) = zdrop j b.
Proof.
  intros Hi Hij Hj. pose proof (zlen_nonneg l). unfold splice, zdrop, zlen in *.
  rewrite app_assoc, drop_app_ge by (rewrite length_app, length_take; lia). rewrite drop_drop. f_equal. rewrite length_app, length_take. lia.
Qed.

Lemma splice_prefix (b l : list Z) i j : 0 <= j <= i -> i <= zlen b -> ztake j (splice b i l) = ztake j b.
Proof.
  intros Hj Hi. unfold splice, ztake, zlen in *. rewrite take_app_le by (rewrite length_take; lia). rewrite firstn_firstn. f_equal. lia.
Qed.

Lemma splice_upto (b l : list Z) i :
  0 <= i -> i <= zlen b -> ztake (i + zlen l) (splice b i l) = ztake i b ++ l.
Proof.
  intros Hi Hb. unfold splice, ztake, zlen in *. rewrite app_assoc.
  replace (Z.to_nat (i + Z.of_nat (length l))) with (length (take (Z.to_nat i) b ++ l)) by (rewrite length_app, length_take; lia).
  apply take_app_length.
Qed.

(** Appending a piece that does not pass the end of the buffer or [outPosition]. *)
Lemma contents_append s l inp :
  wf s -> inPosition s <> outPosition s -> 0 < zlen l ->
  let i := if inPosition s <? 0 then 0 else inPosition s in
  zlen l <= (if i <? outPosition s then outPosition s - i else bufferSize s - i) ->
  inp = (if i + zlen l =? bufferSize s then 0 else i + zlen l) ->
  let s' := mk (source s) (splice (buffer s) i l) (bufferSize s) inp (outPosition s) (peekedCharacter s) in
  wf s' /\ contents s' = contents s ++ l.
Proof.
  intros Hwf Hne Hl i Hle Hinp s'. pose proof Hwf as (Hs & Hb & Ho & Hi & He & Hsrc).
  assert (Hi0 : 0 <= i < bufferSize s) by (unfold i; cmp_cases).
  assert (Hfit : i + zlen l <= bufferSize s) by (revert Hle; cmp_cases).
  assert (Hsl : zlen (splice (buffer s) i l) = bufferSize s) by (rewrite zlen_splice; lia).
  split; [repeat split; cbn; try (done || lia); subst inp; cmp_cases|].
  assert (Hinp0 : 0 <= inp) by (subst inp; cmp_cases).
  assert (Hul : zdrop (outPosition s) (ztake (i + zlen l) (splice (buffer s) i l)) = zdrop (outPosition s) (ztake i (buffer s) ++ l))
    by (rewrite splice_upto by lia; done).
  unfold contents. cbn [inPosition outPosition buffer s']. destruct (Z.ltb_spec inp 0); [lia|].
  destruct (Z.ltb_spec i (outPosition s)) as [Hlt|Hge].
  - (* the piece lies before [outPosition] *)
    assert (inPosition s = i) as Ei. { destruct (Z.ltb_spec (inPosition s) 0); [|unfold i; by destruct (Z.ltb_spec (inPosition s) 0); [lia|]]. specialize (He ltac:(lia)). lia. }
    assert (inp = i + zlen l) as Einp by (subst inp; cmp_cases). rewrite Einp, Ei.
    destruct (Z.ltb_spec i 0); [lia|]. destruct (Z.ltb_spec (outPosition s) (i + zlen l)); [lia|].
    destruct (Z.ltb_spec (outPosition s) i); [lia|].
    rewrite splice_straight by lia. rewrite splice_upto by lia. by rewrite app_assoc.
  - (* behind it *)
    assert (Hold : contents s = zdrop (outPosition s) (ztake i (buffer s))).
    { unfold contents, i. destruct (Z.ltb_spec (inPosition s) 0).
      - rewrite (zdrop_all (outPosition s)); [done|]. change (zlen (ztake 0 (buffer s))) with 0. lia.
      - destruct (Z.ltb_spec (outPosition s) (inPosition s)); [done|]. exfalso. unfold i in Hge. lia. }
    fold (contents s). rewrite Hold.
    transitivity (zdrop (outPosition s) (ztake (i + zlen l) (splice (buffer s) i l)));
      [|rewrite Hul, zdrop_app_le by (rewrite zlen_ztake; lia); done].
    destruct (Z.eqb_spec (i + zlen l) (bufferSize s)) as [E|E]; subst inp.
    + destruct (Z.ltb_spec (outPosition s) 0); [lia|]. rewrite E. unfold ztake at 1. cbn [Z.to_nat take]. rewrite app_nil_r.
      f_equal. unfold ztake. rewrite take_ge; [done|]. unfold zlen in Hsl. lia.
    + destruct (Z.ltb_spec (outPosition s) (i + zlen l)); [done|lia].
Qed.

Lemma free_ok s :
  wf s -> free s = if inPosition s <? 0 then bufferSize s else if outPosition s <? inPosition s then bufferSize s - (inPosition s - outPosition s)
    else outPosition s - inPosition s.
Proof. intros Hwf. unfold free. rewrite <- available_ok by done. unfold available. cmp_cases. Qed.

Lemma write_round_ok src off rem s :
  wf s -> inPosition s <> outPosition s -> 0 < rem -> 0 <= off -> off + rem <= zlen src ->
  exists n s', write_round src off rem s = Ok (n, s') /\ wf s' /\ contents s' = contents s ++ ztake n (zdrop off src) /\
    0 < n <= Z.min rem (free s) /\ (0 <= inPosition s < outPosition s -> n = Z.min rem (free s)) /\
    (n = Z.min rem (free s) \/ (inPosition s' = 0 /\ 0 < outPosition s')) /\ bufferSize s' = bufferSize s /\
    peekedCharacter s' = peekedCharacter s.
Proof.
  intros Hwf Hne Hrem Hoff Hsrc. pose proof (free_ok s Hwf) as Hfree. pose proof Hwf as (Hs & Hb & Ho & Hi & He & Hso).
  unfold write_round. set (i := if inPosition s <? 0 then 0 else inPosition s).
  set (n := if i <? outPosition s then _ else _).
  assert (Hn : 0 < n <= Z.min rem (free s) /\ n <= (if i <? outPosition s then outPosition s - i else bufferSize s - i) /\
    (0 <= inPosition s < outPosition s -> n = Z.min rem (free s)) /\ 0 <= i < bufferSize s /\
    (n = Z.min rem (free s) \/ (i + n = bufferSize s /\ 0 < outPosition s))).
  { rewrite Hfree. unfold n, i. cmp_cases; lia. }
  destruct Hn as (Hn & Hpiece & Hst & Hi0 & Hor). clearbody n.
  assert (Hfit : i + n <= bufferSize s) by (revert Hpiece; cmp_cases).
  assert (Hz : zlen (ztake n (zdrop off src)) = n) by (rewrite zlen_ztake, zlen_zdrop by lia; lia).
  rewrite copy_chars_ok by lia. mcbn.
  change (take (Z.to_nat n) (drop (Z.to_nat off) src)) with (ztake n (zdrop off src)).
  replace (s32 (i + n)) with (i + n) by (unwrap; lia).
  destruct (contents_append s (ztake n (zdrop off src)) (if i + n =? bufferSize s then 0 else i + n)) as [Hwf' Hc]; fold i; rewrite ?Hz; [done|done|lia|done|done|].
  fold i in Hwf', Hc. unfold splice in Hwf', Hc. rewrite Hz in Hwf', Hc.
  eexists _, _. split; [done|]. split_and!; [done|done|lia|lia|done| |done|done].
  destruct Hor as [?|[E ?]]; [by left|]. right. cbn. rewrite E, Z.eqb_refl. done.
Qed.

Lemma free_full s : wf s -> free s = 0 <-> inPosition s = outPosition s.
Proof. intros Hwf. rewrite free_ok by done. destruct Hwf as (Hs & Hb & Ho & Hi & He & _). cmp_cases. Qed.

(** The writer stores as much as fits and stops. *)
Lemma write_loop_ok src off rem s :
  wf s -> 0 <= rem -> 0 <= off -> off + rem <= zlen src -> zlen src < 2 ^ 32 ->
  let n := Z.min rem (free s) in
  exists s', write_loop 2 src off rem s = Ok (off + n, rem - n, s') /\ wf s' /\ contents s' = contents s ++ ztake n (zdrop off src) /\
    bufferSize s' = bufferSize s /\ peekedCharacter s' = peekedCharacter s.
Proof.
  intros Hwf Hrem Hoff Hsrc H32 n. cbn [write_loop].
  assert (Hf0 : 0 <= free s). { rewrite free_ok by done. destruct Hwf as (Hs & Hb & Ho & Hi & He & _). cmp_cases. }
  assert (Hstop : forall s1 rem1, wf s1 -> 0 <= rem1 -> (rem1 = 0 \/ free s1 = 0) ->
    (0 <? rem1) && negb (inPosition s1 =? outPosition s1) = false).
  { intros s1 rem1 Hwf1 Hr1 [->|Hf]; [done|]. rewrite free_full in Hf by done. rewrite Hf, Z.eqb_refl. apply andb_false_r. }
  destruct ((0 <? rem) && negb (inPosition s =? outPosition s)) eqn:Hgo.
  2:{ assert (n = 0) as ->.
      { unfold n. apply andb_false_iff in Hgo as [Hgo|Hgo]; [apply Z.ltb_ge in Hgo; lia|].
        apply negb_false_iff, Z.eqb_eq in Hgo. rewrite <- free_full in Hgo by done. lia. }
      exists s. rewrite Z.add_0_r, Z.sub_0_r. unfold ztake. change (Z.to_nat 0) with 0%nat. rewrite take_0, app_nil_r. done. }
  apply andb_true_iff in Hgo as [Hr0 Hio]. apply Z.ltb_lt in Hr0. apply negb_true_iff, Z.eqb_neq in Hio.
  destruct (write_round_ok src off rem s) as (n1 & s1 & -> & Hwf1 & Hc1 & Hn1 & _ & Hor & Hbs1 & Hp1); [done|done|lia..|]. fold n in Hn1, Hor. mcbn.
  replace (u32 (off + n1)) with (off + n1) by (unwrap; lia). replace (u32 (rem - n1)) with (rem - n1) by (unwrap; lia).
  assert (Hz1 : zlen (ztake n1 (zdrop off src)) = n1) by (rewrite zlen_ztake, zlen_zdrop by lia; lia).
  assert (Hf1 : free s1 = free s - n1) by (unfold free; rewrite Hbs1, Hc1, zlen_app, Hz1; lia).
  destruct (decide (n1 = n)) as [->|Hn].
  { rewrite Hstop by (done || lia). exists s1. split_and!; done. }
  destruct Hor as [?|[Hi0 Ho0]]; [done|].
  assert (Hgo : (0 <? rem - n1) && negb (inPosition s1 =? outPosition s1) = true).
  { rewrite andb_true_iff, negb_true_iff, Z.ltb_lt, Z.eqb_neq. lia. }
  rewrite Hgo. destruct (write_round_ok src (off + n1) (rem - n1) s1) as (n2 & s2 & -> & Hwf2 & Hc2 & Hn2 & Hst & _ & Hbs2 & Hp2); [done|lia..|]. mcbn.
  specialize (Hst ltac:(lia)). assert (n1 + n2 = n) as Hsum by (unfold n in *; lia).
  replace (u32 (off + n1 + n2)) with (off + n) by (unwrap; lia). replace (u32 (rem - n1 - n2)) with (rem - n) by (unwrap; lia).
  assert (Hz2 : zlen (ztake n2 (zdrop (off + n1) src)) = n2) by (rewrite zlen_ztake, zlen_zdrop by lia; lia).
  assert (Hf2 : free s2 = free s1 - n2) by (unfold free; rewrite Hbs2, Hc2, zlen_app, Hz2; lia).
  rewrite Hstop by (done || (unfold n in *; lia)). exists s2. split_and!; [done|done| |congruence|congruence].
  rewrite Hc2, Hc1, <- app_assoc. f_equal. rewrite <- (zdrop_zdrop n1 off) by lia. rewrite <- (ztake_split n1 n2 n (zdrop off src)); [done|..];
    rewrite ?zlen_zdrop; lia.
Qed.

Lemma pipe_write_ok src off n s :
  wf s -> 0 <= n <= free s -> 0 <= off -> off + n <= zlen src -> zlen src < 2 ^ 32 ->
  exists s', pipe_write src off n s = Ok s' /\ wf s' /\ contents s' = contents s ++ ztake n (zdrop off src) /\ bufferSize s' = bufferSize s.
Proof.
  intros Hwf Hn Ho Hs H32. unfold pipe_write. destruct (write_loop_ok src off n s) as (s' & -> & Hwf' & Hc & Hb & _); [done|lia..|]. mcbn.
  rewrite Z.min_l in * by lia. rewrite Z.sub_diag. cbn [Z.eqb]. by exists s'.
Qed.

(** ** A writer and a reader on one pipe

    [pending] is the [write] call that waits for space: its buffer, the position in it and
    how much is left. [written] is what was passed to [write] so far and [received] what [read] has
    returned. *)
Record system := sys { pipe : PipedInputStream; pending : option (list Z * Z * Z); written : list Z; received : list Z }.

Definition pending_bytes (p : option (list Z * Z * Z)) : list Z :=
  match p with None => [] | Some (src, off, rem) => ztake rem (zdrop off src) end.

Inductive step : system -> system -> Prop :=
| step_call p w r l : zlen l < 2 ^ 32 -> step (sys p None w r) (sys p (Some (l, 0, zlen l)) (w ++ l) r)
| step_writer p src off rem w r off' rem' p' :
    write_loop 2 src off rem p = Ok (off', rem', p') ->
    step (sys p (Some (src, off, rem)) w r) (sys p' (if rem' =? 0 then None else Some (src, off', rem')) w r)
| step_reader p pend w r n count target p' :
    0 < n < 2 ^ 32 -> readBytes (replicate (Z.to_nat n) 0) 0 n p = Ok (count, target, p') ->
    step (sys p pend w r) (sys p' pend w (r ++ ztake count target)).

Definition pending_ok (p : option (list Z * Z * Z)) : Prop :=
  match p with None => True | Some (src, off, rem) => 0 <= rem /\ 0 <= off /\ off + rem <= zlen src /\ zlen src < 2 ^ 32 end.

Definition inv (s : system) : Prop :=
  wf (pipe s) /\ pending_ok (pending s) /\ written s = received s ++ contents (pipe s) ++ pending_bytes (pending s).

Lemma zlen_replicate n (x : Z) : 0 <= n -> zlen (replicate (Z.to_nat n) x) = n.
Proof. intros. unfold zlen. rewrite length_replicate. lia. Qed.

Lemma read_loop_size fuel t off rem ret s c t' s' :
  read_loop fuel t off rem ret s = Ok (c, t', s') -> bufferSize s' = bufferSize s.
Proof.
  revert t off rem ret s. induction fuel as [|fuel IH]; intros t off rem ret s; cbn [read_loop]; [done|]. unfold read_round.
  destruct (copy_chars _ _ _ _ _); mcbn; try done.
  destruct (_ || _); [intros [= _ _ <-]|intros E; apply IH in E; rewrite E]; by destruct (_ =? inPosition s).
Qed.

Lemma readBytes_inv p n count target p' :
  wf p -> 0 < n < 2 ^ 32 -> readBytes (replicate (Z.to_nat n) 0) 0 n p = Ok (count, target, p') ->
  wf p' /\ contents p = ztake count target ++ contents p' /\ bufferSize p' = bufferSize p.
Proof.
  intros Hwf Hn. unfold readBytes. destruct (source p); [|done]. destruct (Z.eqb_spec n 0); [lia|].
  destruct (Z.ltb_spec (inPosition p) 0) as [|Hi]; [done|]. pose proof (zlen_nonneg (contents p)).
  assert (Hne : contents p <> []) by (rewrite pipe_contents_nil by done; lia).
  destruct (pipe_read_loop_ok (replicate (Z.to_nat n) 0) 0 n p) as (s' & E & Hwf' & Hc & _);
    [done|done|lia|lia|rewrite zlen_replicate; lia|rewrite zlen_replicate; lia|].
  rewrite E. intros [= <- <- <-]. split_and!; [done|..].
  - rewrite Hc. transitivity (ztake n (contents p) ++ zdrop n (contents p)); [symmetry; apply take_drop|]. f_equal.
    unfold splice. change (Z.to_nat 0) with 0%nat. rewrite take_0, app_nil_l.
    rewrite <- zlen_ztake by lia. unfold ztake at 2, zlen at 1. rewrite Nat2Z.id. by rewrite take_app_length.
  - by apply read_loop_size in E.
Qed.

Lemma pipe_step_inv s s' : step s s' -> inv s -> inv s' /\ bufferSize (pipe s') = bufferSize (pipe s).
Proof.
  intros Hstep (Hwf & Hp & Hw). destruct Hstep as [p w r l Hl|p src off rem w r off' rem' p' E|p pend w r n count target p' Hn E];
    cbn [pipe pending written received] in *.
  - pose proof (zlen_nonneg l). split; [|done]. split; [done|]. split; [cbn [pending pending_ok]; lia|]. cbn [pipe pending written received pending_bytes] in *.
    rewrite Hw, app_nil_r, <- app_assoc. f_equal. f_equal.
    unfold ztake, zdrop. change (Z.to_nat 0) with 0%nat. rewrite drop_0, take_ge; [done|unfold zlen; lia].
  - destruct Hp as (Hr & Ho & Hs & H32). destruct (write_loop_ok src off rem p) as (p1 & E1 & Hwf1 & Hc1 & Hb1 & _); [done..|].
    rewrite E1 in E. injection E as <- <- <-. set (n := Z.min rem (free p)) in *. split; [|done].
    assert (0 <= free p). { rewrite free_ok by done. destruct Hwf as (? & ? & ? & ? & ? & ?). cmp_cases. }
    split; [done|]. split; cbn [pipe pending written received]; [destruct (rem - n =? 0); cbn [pending_ok]; lia|]. rewrite Hw, Hc1, <- app_assoc. f_equal. f_equal.
    transitivity (ztake n (zdrop off src) ++ ztake (rem - n) (zdrop (off + n) src)).
    + cbn [pending_bytes]. rewrite <- (zdrop_zdrop n off) by lia. symmetry. apply ztake_split; rewrite ?zlen_zdrop; lia.
    + f_equal. destruct (Z.eqb_spec (rem - n) 0) as [->|]; done.
  - destruct (readBytes_inv p n count target p' Hwf Hn E) as (Hwf' & Hc & Hb). split; [|done].
    split; [done|]. split; [done|]. cbn [pipe pending written received]. rewrite Hw, Hc, <- !app_assoc. done.
Qed.

Lemma steps_inv s s' : rtc step s s' -> inv s -> inv s' /\ bufferSize (pipe s') = bufferSize (pipe s).
Proof.
  induction 1 as [s|s s1 s2 Hs _ IH]; intros Hi; [done|]. destruct (pipe_step_inv s s1 Hs Hi) as [Hi1 Hb1].
  destruct (IH Hi1) as [Hi2 Hb2]. split; [done|congruence].
Qed.

(** C24: In every interleaving of a reader and a writer of a pipe, the bytes
    that were read, those in the ring and those the writer has still to
    store are together exactly the bytes that were written, in order. *)
Theorem pipe_fifo p s :
  wf p -> contents p = [] -> rtc step (sys p None [] []) s ->
  written s = received s ++ contents (pipe s) ++ pending_bytes (pending s) /\ zlen (contents (pipe s)) <= bufferSize p.
Proof.
  intros Hwf Hc Hs. destruct (steps_inv _ _ Hs) as ((Hwf' & _ & Hw) & Hb). { split; [done|]. split; [done|]. cbn. by rewrite Hc. }
  split; [done|]. cbn [pipe] in Hb. rewrite <- Hb, <- available_ok by done. destruct Hwf' as (? & ? & ? & ? & ? & ?). unfold available. cmp_cases.
Qed.

(** The writer or the reader can always go on: a waiting call finds space, or there is something to read. *)
Lemma pipe_progress s :
  inv s -> (pending_bytes (pending s) <> [] -> 0 < free (pipe s) \/ contents (pipe s) <> []).
Proof.
  intros (Hwf & _ & _) _. destruct (decide (contents (pipe s) = [])) as [E|E]; [|by right]. left. unfold free. rewrite E.
  destruct Hwf as (? & ? & ? & ?). change (zlen []) with 0. lia.
Qed.

(** A byte that was peeked at is passed over by a read of several bytes. *)
Lemma peek_then_readBytes s b l n :
  in_wf s -> contents s = b :: l -> l <> [] -> zlen l <= n < 2 ^ 32 ->
  exists s1 s2, peek s = Ok (b, s1) /\ readBytes (replicate (Z.to_nat n) 0) 0 n s1 = Ok (zlen l, splice (replicate (Z.to_nat n) 0) 0 l, s2) /\
    peekedCharacter s2 = b.
Proof.
  intros Hin Hc Hl Hn. destruct (read_cons s b l Hin Hc) as (s1 & E & Hin1 & Hc1). change (Streams.read s) with (read s) in E.
  destruct Hin as (Hwf & Hb & Hp). destruct Hin1 as (Hwf1 & Hb1 & Hp1). cbn in Hc1. pose proof (zlen_nonneg l).
  exists (set_peeked b s1). unfold peek. rewrite Hp, E. cbn [Z.eqb mbind outcome_bind].
  assert (Hwf2 : wf (set_peeked b s1)) by (by destruct Hwf1 as (? & ? & ? & ? & ? & ?)).
  assert (0 < zlen l) by (rewrite <- zlen_nil_iff in Hl; lia).
  destruct (pipe_read_loop_ok (replicate (Z.to_nat n) 0) 0 n (set_peeked b s1)) as (s2 & E2 & Hwf3 & Hc2 & Hp2); try done;
    [change (contents s1 <> []); by rewrite Hc1|lia|rewrite zlen_replicate by lia; lia|rewrite zlen_replicate; lia|].
  change (contents (set_peeked b s1)) with (contents s1) in *. rewrite Hc1 in *. exists s2. split; [done|]. split; [|done].
  unfold readBytes. destruct Hwf2 as (_ & _ & _ & ? & ? & Hsrc). destruct (source (set_peeked b s1)); [|done].
  destruct (Z.eqb_spec n 0); [lia|]. assert (Hi : inPosition s1 <> -1) by (rewrite <- pipe_contents_nil by done; by rewrite Hc1).
  cbn [inPosition set_peeked] in *. destruct (Z.ltb_spec (inPosition s1) 0); [lia|]. rewrite E2. rewrite Z.min_r by lia.
  f_equal. f_equal. f_equal. unfold ztake. by rewrite take_ge by (unfold zlen in Hn; lia).
Qed.

(** An output stream that was constructed with its sink does not connect the sink: reading throws. *)
Lemma constructor_does_not_connect `{FreshMemory} i n target off len :
  sink (PipedOutputStream_input i) = Some i /\ readBytes target off len (PipedInputStream_new n) = Throw ILLEGAL_STATE.
Proof. done. Qed.

(** A pipe of four bytes: six are written, three are read, the writer goes on, three more are read. *)
Definition four : PipedInputStream := mk (Some 1) [0; 0; 0; 0] 4 (-1) 0 (-1).

Lemma pipe_fifo_witness : exists s,
  rtc step (sys four None [] []) s /\ written s = [1; 2; 3; 4; 5; 6] /\ received s = [1; 2; 3; 4; 5; 6] /\
  written s = received s ++ contents (pipe s) ++ pending_bytes (pending s) /\ zlen (contents (pipe s)) <= 4.
Proof.
  assert (Hr : rtc step (sys four None [] [])
    (sys (mk (Some 1) [5; 6; 3; 4] 4 (-1) 0 (-1)) None [1; 2; 3; 4; 5; 6] [1; 2; 3; 4; 5; 6])).
  { eapply rtc_l; [apply (step_call four [] [] [1; 2; 3; 4; 5; 6]); reflexivity|].
    eapply rtc_l; [eapply step_writer; vm_compute; reflexivity|].
    eapply rtc_l; [eapply (step_reader _ _ _ _ 3); [lia|vm_compute; reflexivity]|].
    eapply rtc_l; [eapply step_writer; vm_compute; reflexivity|].
    eapply rtc_l; [eapply (step_reader _ _ _ _ 10); [lia|vm_compute; reflexivity]|].
    apply rtc_refl. }
  eexists. split; [exact Hr|]. split; [reflexivity|]. split; [reflexivity|].
  apply (pipe_fifo four _); [|reflexivity|exact Hr]. repeat split; cbn; (done || lia).
Defined.
End Piped.

(** ** [QueueInputStream] and [QueueOutputStream] *)
Module QueueStreams.
Section QueueStreams.
Context `{QI : Queue Q Z}.

Record QueueInputStream := mkIn { in_queue : Q; in_discardIfFull : bool }.
Record QueueOutputStream := mkOut { out_queue : Q; discardIfFull : bool }.

Definition read (s : QueueInputStream) : outcome (Z * QueueInputStream) :=
  '(c, q) ← poll (in_queue s); Ok (c, mkIn q (in_discardIfFull s)).

Definition peek (s : QueueInputStream) : outcome Z := Queue.peek (in_queue s).

Definition readBytes (targetBuffer : list Z) (offset length : Z) (s : QueueInputStream) : outcome (Z * list Z * QueueInputStream) :=
  '(t, q) ← for_up (Z.to_nat length) 0 (fun i '(t, q) =>
    '(c, q) ← poll q; t ← aset t (u32 (offset + i)) c; Ok (t, q)) (targetBuffer, in_queue s);
  Ok (s32 length, t, mkIn q (in_discardIfFull s)).

Definition isReadyToRead (s : QueueInputStream) : bool := negb (q_isEmpty (in_queue s)).

Definition write (c : Z) (s : QueueOutputStream) : outcome QueueOutputStream :=
  '(_, q) ← (if discardIfFull s then offer c (out_queue s) else q_add c (out_queue s));
  Ok (mkOut q (discardIfFull s)).

(** A full queue that discards ends the call. *)
Definition writeBytes (sourceBuffer : list Z) (offset length : Z) (s : QueueOutputStream) : outcome QueueOutputStream :=
  '(_, q) ← for_find (Z.to_nat length) 0 (fun i q =>
    c ← aget sourceBuffer (u32 (offset + i));
    if discardIfFull s then '(b, q) ← offer c q; Ok (if (b : bool) then None else Some tt, q)
    else '(_, q) ← q_add c q; Ok (None, q)) (out_queue s);
  Ok (mkOut q (discardIfFull s)).

#[global] Instance QueueOutputStream_OutputStream : OutputStream QueueOutputStream :=
  Build_OutputStream _ write writeBytes (fun s => Ok s).

Definition wf (s : QueueOutputStream) : Prop := q_wf (out_queue s).
Definition room (s : QueueOutputStream) : Z := q_room (out_queue s) - zlen (q_list (out_queue s)).

Lemma put_ok (d : bool) c q :
  q_wf q -> zlen (q_list q) < q_room q ->
  exists q', (if d then offer c q else q_add c q) = Ok (true, q') /\ q_wf q' /\ q_list q' = q_list q ++ [c] /\ q_room q' = q_room q.
Proof. intros Hwf Hr. rewrite q_add_room by done. destruct d; by apply offer_room. Qed.

#[global] Program Instance QueueOutputStream_laws : OutputStreamLaws QueueOutputStream := {|
  out_wf := wf; out_data s := q_list (out_queue s); out_room := room
|}.
Next Obligation.
  intros s b Hwf _ Hr. unfold room in Hr. destruct (put_ok (discardIfFull s) b (out_queue s)) as (q & E & Hq & Hl & Hrm); [done|lia|].
  exists (mkOut q (discardIfFull s)). split; [cbn; unfold write; by rewrite E|]. split_and!; [done|done|].
  unfold room. cbn. rewrite Hl, Hrm, zlen_app. unfold zlen at 2. cbn. lia.
Qed.
Next Obligation.
  intros s source off n Hwf _ Ho Hn Hon H32. unfold room in *. cbn.
  destruct (for_find_inv (R := unit) (fun i q => q_wf q /\ q_room q = q_room (out_queue s) /\ q_list q = q_list (out_queue s) ++ ztake i (zdrop off source))
    (fun _ _ => False)
    (fun i q => c ← aget source (u32 (off + i));
      if discardIfFull s then '(b, q) ← offer c q; Ok (if (b : bool) then None else Some tt, q)
      else '(_, q) ← q_add c q; Ok (None, q)) (Z.to_nat n) 0 (out_queue s)) as (r & q & E & Hq).
  - split_and!; [done|done|]. unfold ztake. change (Z.to_nat 0) with 0%nat. by rewrite take_0, app_nil_r.
  - intros i q Hi (Hq & Hrm & Hl). replace (u32 (off + i)) with (off + i) by (unwrap; lia).
    destruct (aget_in source (off + i)) as (c & -> & Hc); [lia|]. mcbn.
    assert (Hz : zlen (ztake i (zdrop off source)) = i) by (rewrite zlen_ztake, zlen_zdrop by lia; lia).
    destruct (put_ok (discardIfFull s) c q) as (q' & E & Hq' & Hl' & Hrm'); [done|rewrite Hl, Hrm, zlen_app, Hz; lia|].
    exists None, q'. split; [by destruct (discardIfFull s); rewrite E|]. split_and!; [done|congruence|].
    rewrite Hl', Hl, <- app_assoc. f_equal. unfold ztake, zdrop. replace (Z.to_nat (i + 1)) with (S (Z.to_nat i)) by lia.
    rewrite (take_S_r _ _ c); [done|]. rewrite lookup_drop, <- Hc. f_equal. lia.
  - destruct r; [done|]. destruct Hq as (Hq & Hrm & Hl). exists (mkOut q (discardIfFull s)). unfold writeBytes. rewrite E. mcbn.
    rewrite Z.add_0_l, Z2Nat.id in Hl by lia. split_and!; [done|done|done|]. cbn. rewrite Hl, Hrm, zlen_app, zlen_ztake, zlen_zdrop by lia. lia.
Qed.
Next Obligation. intros s Hwf. exists s. done. Qed.
End QueueStreams.
End QueueStreams.
