(* ===== verification/PrintStream.v ===== *)
(** * PrintStream.v: printing numbers and formatted strings

    [lib/util/io/stream/PrintStream] without floating point numbers, over any output stream, and [String::vformat] of
    [lib/util/base/String]. The stream in which [print] collects the digits of a number is the list of its bytes
    ([writes_append] in [Streams.v]). *)

From S2P Require Import UtilString Streams Prelude Bits.

Module PrintStream.

(** ** Data *)

(** The settings of a stream *)
Record Settings := mkSettings {
  autoFlush : bool; base : Z; numberPadding : Z; rightPadding : bool; negativeSign : Z; positiveSign : Z;
  hexNumericBase : Z; minimumIntegerPrecision : Z; integerPrefix : list Z
}.

Record PrintStream (St : Type) := mk { stream : St; settings : Settings; bytesWritten : Z }.
Arguments mk {St} stream settings bytesWritten.
Arguments stream {St} _.
Arguments settings {St} _.
Arguments bytesWritten {St} _.

Definition default_settings (autoFlush : bool) : Settings := mkSettings autoFlush 10 0 false 45 0 65 1 [].

Definition with_base (b : Z) (c : Settings) : Settings :=
  mkSettings (autoFlush c) b (numberPadding c) (rightPadding c) (negativeSign c) (positiveSign c) (hexNumericBase c) (minimumIntegerPrecision c) (integerPrefix c).
Definition with_padding (p : Z) (right : bool) (c : Settings) : Settings :=
  mkSettings (autoFlush c) (base c) p right (negativeSign c) (positiveSign c) (hexNumericBase c) (minimumIntegerPrecision c) (integerPrefix c).
Definition with_signs (neg pos : Z) (c : Settings) : Settings :=
  mkSettings (autoFlush c) (base c) (numberPadding c) (rightPadding c) neg pos (hexNumericBase c) (minimumIntegerPrecision c) (integerPrefix c).
Definition with_hex (h : Z) (c : Settings) : Settings :=
  mkSettings (autoFlush c) (base c) (numberPadding c) (rightPadding c) (negativeSign c) (positiveSign c) h (minimumIntegerPrecision c) (integerPrefix c).
Definition with_precision (p : Z) (c : Settings) : Settings :=
  mkSettings (autoFlush c) (base c) (numberPadding c) (rightPadding c) (negativeSign c) (positiveSign c) (hexNumericBase c) p (integerPrefix c).
Definition with_prefix (p : list Z) (c : Settings) : Settings :=
  mkSettings (autoFlush c) (base c) (numberPadding c) (rightPadding c) (negativeSign c) (positiveSign c) (hexNumericBase c) (minimumIntegerPrecision c) p.

(** The loops of [print(uint64_t, char)] *)

(** [for (div = 1; number / div >= currentBase; div *= currentBase);] *)
Fixpoint div_loop (fuel : nat) (number currentBase div : Z) : outcome Z :=
  match fuel with
  | O => Loops
  | S fuel => q ← udiv number div; if q >=? currentBase then div_loop fuel number currentBase (u32 (div * currentBase)) else Ok div
  end.

Definition digit_char (hex digit : Z) : Z := u8 (if digit <? 10 then 48 + digit else hex + digit - 10).

(** [for (; div > 0; div /= currentBase)] with the bytes written so far *)
Fixpoint digit_loop (fuel : nat) (number currentBase hex div : Z) (numberStream : list Z) : outcome (list Z) :=
  match fuel with
  | O => Loops
  | S fuel =>
    if div >? 0 then
      q ← udiv number div;
      let numberStream := numberStream ++ [digit_char hex (s8 q)] in
      number ← umod number div;
      div ← udiv div currentBase;
      digit_loop fuel number currentBase hex div numberStream
    else Ok numberStream
  end.

(** 32 bits have at most 32 digits. *)
Definition number_fuel : nat := 34.

Definition number_digits (c : Settings) (number : Z) : outcome (list Z) :=
  div ← div_loop number_fuel number (base c) 1; digit_loop number_fuel number (base c) (hexNumericBase c) div [].

Section PrintStream.
Context {St : Type} `{!OutputStream St}.
Implicit Types (p : PrintStream St).

Definition PrintStream_new (s : St) (autoFlush : bool) : PrintStream St := mk s (default_settings autoFlush) 0.

Definition set (f : Settings -> Settings) p : PrintStream St := mk (stream p) (f (settings p)) (bytesWritten p).

Definition setBase (newBase : Z) p := set (with_base newBase) p.
Definition setNumberJustification (left : bool) p := set (fun c => with_padding (numberPadding c) left c) p.
Definition setNumberPadding (padding : Z) p :=
  if padding <? 0 then set (with_padding (u8 (- padding)) true) p else set (fun c => with_padding (u8 padding) (rightPadding c) c) p.
Definition setPositiveSign (s : Z) p := set (fun c => with_signs (negativeSign c) s c) p.
Definition setNegativeSign (s : Z) p := set (fun c => with_signs s (positiveSign c) c) p.
Definition setIntegerPrecision (v : Z) p := set (with_precision (s32 v)) p.
Definition setIntegerPrefix (str : list Z) p := set (with_prefix str) p.
Definition setHexNumericBase (b : Z) p := set (with_hex b) p.

Definition flush p : outcome (PrintStream St) := s ← Streams.flush (stream p); Ok (mk s (settings p) (bytesWritten p)).

Definition writeBytes (sourceBuffer : list Z) (offset length : Z) p : outcome (PrintStream St) :=
  s ← Streams.writeBytes sourceBuffer offset length (stream p); Ok (mk s (settings p) (u32 (bytesWritten p + length))).

(** A single byte is counted twice. *)
Definition write (c : Z) p : outcome (PrintStream St) :=
  p ← writeBytes [c] 0 1 p; Ok (mk (stream p) (settings p) (u32 (bytesWritten p + 1))).

Definition getBytesWritten p : Z := bytesWritten p.

Fixpoint write_repeat (n : nat) (c : Z) p : outcome (PrintStream St) :=
  match n with O => Ok p | S n => p ← write c p; write_repeat n c p end.

(** [print(const char*, uint32_t)] of the characters [l]; [print(const String&)] is the case without a limit. *)
Definition print_chars (l : list Z) (maxBytes : Z) p : outcome (PrintStream St) :=
  let len := zlen l in writeBytes l 0 (if maxBytes <? len then maxBytes else len) p.
Definition print_string (l : list Z) p : outcome (PrintStream St) := writeBytes l 0 (zlen l) p.
Definition print_bool (b : bool) p : outcome (PrintStream St) :=
  print_chars (if b then [116; 114; 117; 101] else [102; 97; 108; 115; 101]) UINT32_MAX p.

(** [print(uint64_t number, char sign)] *)
Definition print_number (number sign : Z) p : outcome (PrintStream St) :=
  let c := settings p in
  digits ← number_digits c number;
  let length := zlen digits in
  let full := (if length <? minimumIntegerPrecision c then minimumIntegerPrecision c else length) + zlen (integerPrefix c) + (if sign =? 0 then 0 else 1) in
  p ← (if negb (rightPadding c) then write_repeat (Z.to_nat (numberPadding c - full)) 32 p else Ok p);
  p ← (if negb (sign =? 0) then write sign p else Ok p);
  p ← print_string (integerPrefix c) p;
  p ← write_repeat (Z.to_nat (minimumIntegerPrecision c - length)) 48 p;
  p ← print_string digits p;
  if rightPadding c then write_repeat (Z.to_nat (numberPadding c - length)) 32 p else Ok p.

(** [print(int64_t)], to which the signed types are widened, and [print(uint64_t)] *)
Definition print_signed (number : Z) p : outcome (PrintStream St) :=
  if number <? 0 then print_number (u32 (- number)) (negativeSign (settings p)) p else print_number (u32 number) (positiveSign (settings p)) p.
Definition print_unsigned (number : Z) p : outcome (PrintStream St) := print_number number 0 p.

Definition println p : outcome (PrintStream St) := p ← write 10 p; if autoFlush (settings p) then flush p else Ok p.

(** ** [String::vformat] *)

(** The variable arguments by their types *)
Inductive Argument := ArgInt (v : Z) | ArgString (l : list Z).

Definition next_int (args : list Argument) : outcome (Z * list Argument) := match args with ArgInt v :: args => Ok (v, args) | _ => Fault end.
Definition next_string (args : list Argument) : outcome (list Z * list Argument) := match args with ArgString l :: args => Ok (l, args) | _ => Fault end.

Definition format_specifier (specifier : Z) (args : list Argument) p : outcome (list Argument * PrintStream St) :=
  if specifier =? 99 then '(v, args) ← next_int args; p ← write (u8 v) p; Ok (args, p)
  else if specifier =? 100 then '(v, args) ← next_int args; p ← print_signed (s32 v) (setBase 10 p); Ok (args, p)
  else if specifier =? 117 then '(v, args) ← next_int args; p ← print_unsigned (u32 v) (setBase 10 p); Ok (args, p)
  else if specifier =? 111 then '(v, args) ← next_int args; p ← print_unsigned (u32 v) (setBase 8 p); Ok (args, p)
  else if specifier =? 115 then '(l, args) ← next_string args; p ← print_chars l UINT32_MAX p; Ok (args, p)
  else if specifier =? 120 then '(v, args) ← next_int args; p ← print_unsigned (u32 v) (setBase 16 p); Ok (args, p)
  else if specifier =? 98 then '(v, args) ← next_int args; p ← print_unsigned (u32 v) (setBase 2 p); Ok (args, p)
  else if specifier =? 66 then '(v, args) ← next_int args; p ← print_bool (negb (u32 v =? 0)) p; Ok (args, p)
  else Throw INVALID_ARGUMENT.

(** The characters before the next ['%'], and what follows them *)
Fixpoint literal (format : list Z) : list Z * list Z :=
  match format with
  | c :: rest => if c =? 37 then ([], format) else let '(l, r) := literal rest in (c :: l, r)
  | [] => ([], [])
  end.

(** One round of the loop for each ['%']. The characters of [format] end with a null byte, which is left out. *)
Fixpoint format_loop (fuel : nat) (format : list Z) (args : list Argument) p : outcome (PrintStream St) :=
  match fuel with
  | O => Loops
  | S fuel =>
    match format with
    | [] => Ok p
    | _ =>
      let '(l, rest) := literal format in
      p ← writeBytes format 0 (zlen l) p;
      match rest with
      | [] => Ok p
      | _ :: rest =>
        let p := setIntegerPrecision 0 p in
        '(rest, p) ← (
          match rest with
          | 48 :: d :: rest => let padding := u8 (d - 48) in if (padding <? 1) || (padding >? 9) then Throw INVALID_ARGUMENT else Ok (rest, setIntegerPrecision padding p)
          | [48] => Throw INVALID_ARGUMENT
          | _ => Ok (rest, p)
          end);
        match rest with
        | [] => Throw INVALID_ARGUMENT
        | specifier :: rest =>
          '(args, p) ← format_specifier specifier args p;
          format_loop fuel rest args (setNumberPadding 0 p)
        end
      end
    end
  end.
End PrintStream.

Definition vformat `{FreshMemory} (format : list Z) (args : list Argument) : outcome String :=
  p ← format_loop (S (length format)) format args (PrintStream_new ByteArrayOutputStream.ByteArrayOutputStream_new false);
  ByteArrayOutputStream.getContent (stream p).

(** ** The digits of a number *)

(** The [k + 1] digits of [n] in base [b], the highest first *)
Fixpoint digits_of (b : Z) (k : nat) (n : Z) : list Z :=
  match k with O => [n] | S k => n / b ^ Z.of_nat (S k) :: digits_of b k (n mod b ^ Z.of_nat (S k)) end.

Definition value (b : Z) (ds : list Z) : Z := fold_left (fun v x => v * b + x) ds 0.

Lemma value_from b ds v : fold_left (fun v x => v * b + x) ds v = v * b ^ zlen ds + value b ds.
Proof.
  unfold value. revert v. induction ds as [|x ds IH]; intros v; cbn [fold_left]; [change (zlen []) with 0; lia|].
  rewrite IH, (IH (0 * b + x)), zlen_cons, Z.pow_add_r by (pose proof (zlen_nonneg ds); lia). lia.
Qed.

Lemma digits_of_length b k n : length (digits_of b k n) = S k.
Proof. revert n. induction k as [|k IH]; intros n; [done|]. cbn. by rewrite IH. Qed.

Lemma value_cons b x ds : value b (x :: ds) = x * b ^ zlen ds + value b ds.
Proof. unfold value at 1. cbn [fold_left]. by rewrite value_from. Qed.

Lemma digits_of_value b k n : 2 <= b -> value b (digits_of b k n) = n.
Proof.
  intros Hb. revert n. induction k as [|k IH]; intros n; [done|]. cbn [digits_of]. rewrite value_cons, IH. unfold zlen. rewrite digits_of_length.
  rewrite (Z.div_mod n (b ^ Z.of_nat (S k))) at 3 by (pose proof (Z.pow_pos_nonneg b (Z.of_nat (S k))); lia). lia.
Qed.

Lemma digits_of_bound b k n : 2 <= b -> 0 <= n < b ^ Z.of_nat (S k) -> Forall (fun x => 0 <= x < b) (digits_of b k n).
Proof.
  intros Hb. revert n. induction k as [|k IH]; intros n Hn; cbn [digits_of].
  - constructor; [|constructor]. change (Z.of_nat 1) with 1 in Hn. lia.
  - assert (Hp : 0 < b ^ Z.of_nat (S k)) by (apply Z.pow_pos_nonneg; lia). constructor.
    + split; [apply Z.div_pos; lia|]. apply Z.div_lt_upper_bound; [lia|]. replace (Z.of_nat (S (S k))) with (Z.of_nat (S k) + 1) in Hn by lia. rewrite Z.pow_add_r in Hn by lia. lia.
    + apply IH. by apply Z.mod_pos_bound.
Qed.

Lemma div_loop_ok b n fuel k :
  2 <= b -> 0 <= n < 2 ^ 32 -> b ^ Z.of_nat k <= Z.max 1 n -> n < b ^ Z.of_nat (k + fuel) -> (0 < fuel)%nat ->
  exists k', div_loop fuel n b (b ^ Z.of_nat k) = Ok (b ^ Z.of_nat k') /\ (k <= k' < k + fuel)%nat /\ b ^ Z.of_nat k' <= Z.max 1 n /\ n < b ^ Z.of_nat (S k').
Proof.
  intros Hb Hn. revert k. induction fuel as [|fuel IH]; intros k Hk Hf Hpos; [lia|]. cbn [div_loop]. assert (Hp : 0 < b ^ Z.of_nat k) by (apply Z.pow_pos_nonneg; lia).
  rewrite udiv_ok, ok_bind by lia. assert (HS : b ^ Z.of_nat (S k) = b ^ Z.of_nat k * b) by (replace (Z.of_nat (S k)) with (Z.of_nat k + 1) by lia; rewrite Z.pow_add_r by lia; lia).
  destruct (Z.geb_spec (n / b ^ Z.of_nat k) b) as [Hq|Hq].
  - assert (Hle : b ^ Z.of_nat k * b <= n) by (pose proof (Z.mul_div_le n (b ^ Z.of_nat k) Hp); nia).
    assert (Hfuel : (0 < fuel)%nat). { destruct fuel; [|lia]. replace (k + 1)%nat with (S k) in Hf by lia. rewrite HS in Hf. lia. }
    destruct (IH (S k)) as (k' & E & Hk' & H1 & H2); [rewrite HS; lia|by replace (S k + fuel)%nat with (k + S fuel)%nat by lia|done|].
    exists k'. split_and!; [|lia|lia|done|done]. rewrite <- E, HS. f_equal. apply wrap_small. unfold in_u. nia.
  - exists k. split_and!; [done|lia|lia|done|]. rewrite HS. pose proof (Z.mul_succ_div_gt n (b ^ Z.of_nat k) Hp). nia.
Qed.

Lemma digit_loop_ok b h k n acc fuel :
  2 <= b <= 36 -> 0 <= n < b ^ Z.of_nat (S k) -> (S k < fuel)%nat ->
  digit_loop fuel n b h (b ^ Z.of_nat k) acc = Ok (acc ++ (digit_char h <$> digits_of b k n)).
Proof.
  intros Hb. revert n acc fuel. induction k as [|k IH]; intros n acc [|fuel] Hn Hf; try lia; cbn [digit_loop].
  - change (b ^ Z.of_nat 0) with 1. change (1 >? 0) with true. cbn iota. rewrite (udiv_ok n 1), ok_bind, (umod_ok n 1), ok_bind, (udiv_ok 1 b), ok_bind by lia. rewrite Z.div_1_r, Z.mod_1_r, (Z.div_small 1 b) by lia.
    destruct fuel as [|fuel]; [lia|]. cbn [digit_loop digits_of fmap list_fmap]. change (b ^ Z.of_nat 1) with (b ^ 1) in Hn. rewrite Z.pow_1_r in Hn. unfold s8. rewrite swrap_small by wrap_solve. done.
  - assert (HS : b ^ Z.of_nat (S k) = b ^ Z.of_nat k * b) by (replace (Z.of_nat (S k)) with (Z.of_nat k + 1) by lia; rewrite Z.pow_add_r by lia; lia).
    assert (HSS : b ^ Z.of_nat (S (S k)) = b ^ Z.of_nat (S k) * b) by (replace (Z.of_nat (S (S k))) with (Z.of_nat (S k) + 1) by lia; rewrite Z.pow_add_r by lia; lia).
    assert (Hp' : 0 < b ^ Z.of_nat (S k)) by (apply Z.pow_pos_nonneg; lia). rewrite (proj2 (Z.gtb_lt _ 0)) by lia. rewrite (udiv_ok n), ok_bind, (umod_ok n), ok_bind, (udiv_ok _ b), ok_bind by lia.
    assert (Hd : b ^ Z.of_nat (S k) / b = b ^ Z.of_nat k) by (rewrite HS; apply Z.div_mul; lia). rewrite Hd.
    assert (Hq : 0 <= n / b ^ Z.of_nat (S k) < b) by (split; [apply Z.div_pos; lia|apply Z.div_lt_upper_bound; lia]).
    rewrite IH; [|apply Z.mod_pos_bound; lia|lia]. rewrite <- app_assoc. cbn [app digits_of fmap list_fmap]. unfold s8. rewrite swrap_small by wrap_solve. done.
Qed.

(** The digits without leading zeros, most significant first *)
Definition numeral (b n : Z) (ds : list Z) : Prop := value b ds = n /\ Forall (fun x => 0 <= x < b) ds /\ (ds = [0] \/ exists x l, ds = x :: l /\ 0 < x).

Lemma number_digits_ok c n :
  2 <= base c <= 36 -> 0 <= n < 2 ^ 32 -> exists ds, number_digits c n = Ok (digit_char (hexNumericBase c) <$> ds) /\ numeral (base c) n ds /\ (length ds <= 32)%nat.
Proof.
  intros Hb Hn. unfold number_digits. set (b := base c) in *.
  assert (Hlarge : 2 ^ 32 <= b ^ 32) by (apply Z.pow_le_mono_l; lia).
  destruct (div_loop_ok b n 34 0) as (k & E & Hk & H1 & H2); [lia|done|change (b ^ Z.of_nat 0) with 1; lia| |lia|].
  { change (Z.of_nat (0 + 34)) with 34. assert (b ^ 32 <= b ^ 34) by (apply Z.pow_le_mono_r; lia). lia. }
  change (b ^ Z.of_nat 0) with 1 in E. unfold number_fuel. rewrite E, ok_bind.
  assert (Hk31 : (k < 32)%nat). { destruct (decide (k < 32)%nat); [done|]. assert (b ^ 32 <= b ^ Z.of_nat k) by (apply Z.pow_le_mono_r; lia). lia. }
  rewrite (digit_loop_ok b _ k n) by lia. rewrite app_nil_l. exists (digits_of b k n). split; [done|]. split; [|rewrite digits_of_length; lia]. split_and!; [apply digits_of_value; lia|apply digits_of_bound; lia|].
  destruct k as [|k].
  - cbn [digits_of]. destruct (decide (n = 0)) as [->|Hn0]; [by left|right]. exists n, []. split; [done|lia].
  - right. cbn [digits_of]. eexists _, _. split; [done|]. assert (0 < b ^ Z.of_nat (S k)) by (apply Z.pow_pos_nonneg; lia). apply Z.div_str_pos.
    assert (1 < b ^ Z.of_nat (S k)) by (apply Z.pow_gt_1; lia). lia.
Qed.

(** ** Printing to a stream *)

Section laws.
Context {St : Type} `{!OutputStream St} `{!OutputStreamLaws St}.
Implicit Types (p : PrintStream St).

Definition ready p (l : list Z) : Prop := out_wf (stream p) /\ zlen l <= out_room (stream p) /\ Forall (in_u 8) l.

(** [p'] is [p] after the bytes [l] were written. *)
Definition appended p p' (l : list Z) : Prop :=
  out_wf (stream p') /\ out_data (stream p') = out_data (stream p) ++ l /\ out_room (stream p') = out_room (stream p) - zlen l /\ settings p' = settings p.

Definition prints (f : PrintStream St -> outcome (PrintStream St)) p (l : list Z) : Prop := exists p', f p = Ok p' /\ appended p p' l.

Lemma appended_refl p : out_wf (stream p) -> appended p p [].
Proof. intros H. split_and!; [done|by rewrite app_nil_r|change (zlen []) with 0; lia|done]. Qed.

Lemma prints_bind (f g : PrintStream St -> outcome (PrintStream St)) p k l :
  ready p (k ++ l) -> (ready p k -> prints f p k) -> (forall p', appended p p' k -> ready p' l -> prints g p' l) -> prints (fun p => p ← f p; g p) p (k ++ l).
Proof.
  intros (Hwf & Hr & Hb) Hf Hg. rewrite zlen_app in Hr. apply Forall_app in Hb as [Hbk Hbl]. pose proof (zlen_nonneg k). pose proof (zlen_nonneg l).
  destruct Hf as (p1 & E1 & A1); [split_and!; [done|lia|done]|]. pose proof A1 as (Hwf1 & Hd1 & Hr1 & Hs1).
  destruct (Hg p1 A1) as (p2 & E2 & (Hwf2 & Hd2 & Hr2 & Hs2)); [split_and!; [done|lia|done]|].
  exists p2. rewrite E1, ok_bind. split; [done|]. split_and!; [done|by rewrite Hd2, Hd1, app_assoc|rewrite zlen_app; lia|congruence].
Qed.

Lemma writeBytes_prints l p : ready p l -> zlen l < 2 ^ 32 -> prints (writeBytes l 0 (zlen l)) p l.
Proof.
  intros (Hwf & Hr & Hb) Hl. pose proof (zlen_nonneg l). destruct (writeBytes_ok (stream p) l 0 (zlen l) Hwf Hb) as (s' & E & Hwf' & Hd & Hr'); [lia|lia|lia|done|].
  unfold prints, writeBytes. rewrite E, ok_bind. eexists. split; [done|]. split_and!; [done| |done|done]. cbn [stream]. rewrite Hd. unfold ztake, zdrop. rewrite drop_0, take_ge; [done|unfold zlen; lia].
Qed.

Lemma write_prints c p : ready p [c] -> prints (write c) p [c].
Proof.
  intros Hr. destruct (writeBytes_prints [c] p Hr) as (p' & E & A); [done|]. change (zlen [c]) with 1 in E. unfold prints, write. rewrite E, ok_bind. eexists. split; [done|exact A].
Qed.

Lemma write_repeat_prints n c p : ready p (replicate n c) -> prints (write_repeat n c) p (replicate n c).
Proof.
  revert p. induction n as [|n IH]; intros p Hr; cbn [write_repeat replicate]; [exists p; split; [done|apply appended_refl, Hr]|].
  change (c :: replicate n c) with ([c] ++ replicate n c). apply (prints_bind (write c) (write_repeat n c)); [done|apply write_prints|]. intros p' _ Hr'. by apply IH.
Qed.

Lemma if_prints (b : bool) f p l : ready p (if b then l else []) -> (ready p l -> prints f p l) -> prints (fun p => if b then f p else Ok p) p (if b then l else []).
Proof. intros Hr Hf. destruct b; [by apply Hf|]. exists p. split; [done|apply appended_refl, Hr]. Qed.

(** What is printed for a number with the given digits *)
Definition layout (c : Settings) (sign : Z) (digits : list Z) : list Z :=
  let full := Z.max (minimumIntegerPrecision c) (zlen digits) + zlen (integerPrefix c) + (if sign =? 0 then 0 else 1) in
  (if negb (rightPadding c) then replicate (Z.to_nat (numberPadding c - full)) 32 else []) ++
  (if negb (sign =? 0) then [sign] else []) ++ integerPrefix c ++ replicate (Z.to_nat (minimumIntegerPrecision c - zlen digits)) 48 ++ digits ++
  (if rightPadding c then replicate (Z.to_nat (numberPadding c - zlen digits)) 32 else []).

Lemma print_number_prints n sign p ds :
  let c := settings p in
  number_digits c n = Ok ds -> zlen ds < 2 ^ 32 -> zlen (integerPrefix c) < 2 ^ 32 -> ready p (layout c sign ds) -> prints (print_number n sign) p (layout c sign ds).
Proof.
  intros c Hd Hl Hp Hr. unfold prints, print_number. fold c. rewrite Hd, ok_bind. cbv zeta.
  assert (Efull : (if zlen ds <? minimumIntegerPrecision c then minimumIntegerPrecision c else zlen ds) = Z.max (minimumIntegerPrecision c) (zlen ds)) by (destruct (Z.ltb_spec (zlen ds) (minimumIntegerPrecision c)); lia).
  rewrite Efull. unfold layout in *. set (full := Z.max _ _ + _ + _) in *.
  apply (prints_bind (fun p => if negb (rightPadding c) then write_repeat (Z.to_nat (numberPadding c - full)) 32 p else Ok p) (fun p =>
    p ← (if negb (sign =? 0) then write sign p else Ok p); p ← print_string (integerPrefix c) p; p ← write_repeat (Z.to_nat (minimumIntegerPrecision c - zlen ds)) 48 p;
    p ← print_string ds p; if rightPadding c then write_repeat (Z.to_nat (numberPadding c - zlen ds)) 32 p else Ok p)); [done|intros Hr1; apply if_prints; [done|apply write_repeat_prints]|].
  intros p1 _ Hr1. apply (prints_bind (fun p => if negb (sign =? 0) then write sign p else Ok p) (fun p =>
    p ← print_string (integerPrefix c) p; p ← write_repeat (Z.to_nat (minimumIntegerPrecision c - zlen ds)) 48 p;
    p ← print_string ds p; if rightPadding c then write_repeat (Z.to_nat (numberPadding c - zlen ds)) 32 p else Ok p)); [done|intros Hr2; apply if_prints; [done|apply write_prints]|].
  intros p2 _ Hr2. apply (prints_bind (print_string (integerPrefix c)) (fun p => p ← write_repeat (Z.to_nat (minimumIntegerPrecision c - zlen ds)) 48 p;
    p ← print_string ds p; if rightPadding c then write_repeat (Z.to_nat (numberPadding c - zlen ds)) 32 p else Ok p)); [done|intros Hr3; by apply writeBytes_prints|].
  intros p3 _ Hr3. apply (prints_bind (write_repeat _ 48) (fun p => p ← print_string ds p; if rightPadding c then write_repeat (Z.to_nat (numberPadding c - zlen ds)) 32 p else Ok p)); [done|apply write_repeat_prints|].
  intros p4 _ Hr4. apply (prints_bind (print_string ds) (fun p => if rightPadding c then write_repeat (Z.to_nat (numberPadding c - zlen ds)) 32 p else Ok p)); [done|intros Hr5; by apply writeBytes_prints|].
  intros p5 _ Hr5. apply if_prints; [done|apply write_repeat_prints].
Qed.

Lemma digit_char_u8 h d : in_u 8 (digit_char h d).
Proof. apply wrap_range. done. Qed.

Lemma layout_length c sign ds :
  zlen (layout c sign ds) <= Z.max 0 (numberPadding c) + Z.max 0 (minimumIntegerPrecision c) + zlen (integerPrefix c) + 1 + zlen ds.
Proof.
  unfold layout. rewrite !zlen_app. pose proof (zlen_nonneg ds). pose proof (zlen_nonneg (integerPrefix c)). unfold zlen in *.
  destruct (rightPadding c), (sign =? 0); cbn [negb]; rewrite ?length_replicate; cbn [length]; lia.
Qed.

(** Printing a number of 32 bits appends its numeral in the base of the
    stream (the digits have its value and no leading zero) with sign,
    prefix, zeros up to the precision and spaces up to the padding, on every
    output stream. *)
Theorem print_number_spec p n sign :
  let c := settings p in
  2 <= base c <= 36 -> 0 <= n < 2 ^ 32 -> in_u 8 sign -> Forall (in_u 8) (integerPrefix c) -> zlen (integerPrefix c) < 2 ^ 32 -> out_wf (stream p) ->
  Z.max 0 (numberPadding c) + Z.max 0 (minimumIntegerPrecision c) + zlen (integerPrefix c) + 33 <= out_room (stream p) ->
  exists ds p', numeral (base c) n ds /\ print_number n sign p = Ok p' /\ appended p p' (layout c sign (digit_char (hexNumericBase c) <$> ds)).
Proof.
  intros c Hb Hn Hs Hpre Hpl Hwf Hroom. destruct (number_digits_ok c n Hb Hn) as (ds & E & Hnum & Hlen). set (l := digit_char (hexNumericBase c) <$> ds) in *.
  assert (Hl : zlen l <= 32) by (unfold l, zlen; rewrite length_fmap; lia). destruct (print_number_prints n sign p l) as (p' & Ep & Ha); [done|lia|done| |by exists ds, p'].
  pose proof (layout_length c sign l). split_and!; [done|fold c; lia|]. fold c. unfold layout. repeat (apply Forall_app; split); try done.
  - destruct (negb _); [apply Forall_replicate; unfold in_u; lia|constructor].
  - destruct (negb _); [by constructor|constructor].
  - apply Forall_replicate. unfold in_u. lia.
  - apply Forall_fmap, Forall_forall. intros d _. apply digit_char_u8.
  - destruct (rightPadding _); [apply Forall_replicate; unfold in_u; lia|constructor].
Qed.

(** The decimal digits with a sign *)
Definition decimal_settings (c : Settings) : Prop :=
  base c = 10 /\ numberPadding c = 0 /\ rightPadding c = false /\ negativeSign c = 45 /\ positiveSign c = 0 /\ minimumIntegerPrecision c = 0 /\ integerPrefix c = [].

Definition signed_digits (n : Z) (ds : list Z) : list Z := (if n <? 0 then [45] else []) ++ ((fun d => 48 + d) <$> ds).

Lemma decimal_chars h ds : Forall (fun x => 0 <= x < 10) ds -> digit_char h <$> ds = (fun d => 48 + d) <$> ds.
Proof.
  induction 1 as [|d ds Hd _ IH]; [done|]. cbn [fmap list_fmap]. rewrite IH. f_equal. unfold digit_char. rewrite (proj2 (Z.ltb_lt d 10)) by lia. apply wrap_small. unfold in_u. lia.
Qed.

Lemma decimal_layout c sign l : decimal_settings c -> layout c sign l = (if sign =? 0 then [] else [sign]) ++ l.
Proof.
  intros (_ & Hp & Hr & _ & _ & Hm & Hpre). unfold layout. rewrite Hp, Hr, Hm, Hpre. pose proof (zlen_nonneg l). change (zlen []) with 0. cbn [negb].
  replace (Z.to_nat (0 - _)) with 0%nat by (destruct (sign =? 0); lia). replace (Z.to_nat (0 - zlen l)) with 0%nat by lia. cbn [replicate app]. rewrite app_nil_r. by destruct (sign =? 0).
Qed.

Lemma print_signed_ok p n :
  decimal_settings (settings p) -> - 2 ^ 31 <= n < 2 ^ 31 -> out_wf (stream p) -> 33 <= out_room (stream p) ->
  exists ds, numeral 10 (Z.abs n) ds /\ prints (print_signed n) p (signed_digits n ds) /\ (length ds <= 32)%nat.
Proof.
  intros Hc Hn Hwf Hroom. pose proof Hc as (Hb & _ & _ & Hneg & Hpos & _ & Hpre). destruct (number_digits_ok (settings p) (Z.abs n)) as (ds & E & Hnum & Hlen); [rewrite Hb; lia|lia|].
  exists ds. rewrite Hb in Hnum. split; [done|]. split; [|done]. pose proof Hnum as (_ & Hds & _). rewrite decimal_chars in E by done.
  set (sign := if n <? 0 then 45 else 0). assert (Hl : layout (settings p) sign ((fun d => 48 + d) <$> ds) = signed_digits n ds).
  { rewrite decimal_layout by done. unfold sign, signed_digits. by destruct (n <? 0). }
  assert (Hp : prints (print_number (Z.abs n) sign) p (signed_digits n ds)).
  { rewrite <- Hl. apply print_number_prints; [done|unfold zlen; rewrite length_fmap; lia|rewrite Hpre; done|]. rewrite Hl. split_and!; [done| |].
    - unfold signed_digits. rewrite zlen_app. unfold zlen at 2. rewrite length_fmap. destruct (n <? 0); [change (zlen [45]) with 1|change (zlen []) with 0]; lia.
    - unfold signed_digits. apply Forall_app. split; [destruct (n <? 0); [by repeat constructor|constructor]|]. apply Forall_fmap. eapply Forall_impl; [exact Hds|]. cbn. intros x Hx. unfold in_u. lia. }
  unfold prints, print_signed in *. rewrite Hneg, Hpos. unfold sign in Hp. destruct (Z.ltb_spec n 0) as [Hlt|Hge]; unfold u32; rewrite wrap_small by (unfold in_u; lia);
    [rewrite Z.abs_neq in Hp by lia|rewrite Z.abs_eq in Hp by lia]; exact Hp.
Qed.
End laws.

(** ** Formatting and parsing *)

Lemma decimal_value ds v :
  Forall (fun x => 0 <= x < 10) ds -> fold_left (fun v c => if isNumeric c then v * 10 + (c - 48) else v) ((fun d => 48 + d) <$> ds) v = fold_left (fun v x => v * 10 + x) ds v.
Proof.
  intros H. revert v. induction H as [|d ds Hd _ IH]; intros v; [done|]. cbn [fmap list_fmap fold_left]. rewrite IH. f_equal.
  unfold isNumeric, s8. rewrite swrap_small by wrap_solve. rewrite (proj2 (Z.leb_le 48 (48 + d))), (proj2 (Z.leb_le (48 + d) 57)) by lia. cbn [andb]. lia.
Qed.

Lemma signed_value_digits l : (forall k, l <> 45 :: k) -> signed_value l = digits_value l.
Proof. intros H. destruct l as [|c l]; [done|]. cbn [signed_value]. destruct (Z.eqb_spec c 45) as [->|]; [by destruct (H l)|done]. Qed.

Lemma signed_digits_value n ds : numeral 10 (Z.abs n) ds -> signed_value (signed_digits n ds) = n.
Proof.
  intros (Hv & Hds & Hne). unfold signed_digits. destruct (Z.ltb_spec n 0) as [Hlt|Hge]; cbn [app].
  - cbn [signed_value]. change (45 =? 45) with true. cbn iota. unfold digits_value. rewrite decimal_value by done. unfold value in Hv. rewrite Hv. lia.
  - rewrite signed_value_digits; [unfold digits_value; rewrite decimal_value by done; unfold value in Hv; rewrite Hv; lia|].
    intros k E. destruct ds as [|d ds]; [done|]. injection E as E _. inversion Hds; subst. lia.
Qed.

Lemma getContent_ok `{FreshMemory} s :
  ByteArrayOutputStream.wf s -> chars_ok (ByteArrayOutputStream.data s) ->
  exists r, ByteArrayOutputStream.getContent s = Ok r /\ repr r (ByteArrayOutputStream.data s).
Proof.
  intros Hwf Hc. pose proof (ByteArrayOutputStream.baos_data_length s Hwf) as Hl. pose proof Hwf as (Hp & Hs & Hb & H31 & _). unfold ByteArrayOutputStream.getContent, String_data.
  set (n := ByteArrayOutputStream.position s) in *. assert (u32 (n + 1) = n + 1) as -> by (apply wrap_small; unfold in_u; lia).
  pose proof (copy_new_ok (ByteArrayOutputStream.buffer s) 0 n ltac:(lia) ltac:(lia) ltac:(lia)) as E. destruct (copy_chars (new_chars (n + 1)) 0 (ByteArrayOutputStream.buffer s) 0 n) as [b| | |]; try done.
  rewrite ok_bind. change (aset b n 0 = Ok (take (Z.to_nat n) (drop (Z.to_nat 0) (ByteArrayOutputStream.buffer s)) ++ [0])) in E. rewrite E, ok_bind.
  eexists. split; [done|]. rewrite drop_0. split_and!; [done|by rewrite Hl|done|rewrite Hl; unfold UINT32_MAX; lia].
Qed.

(** C35: String::format with %d of an integer of 32 bits (but the smallest)
    gives a string from which parseInt reads the same integer. *)
Theorem format_parse_roundtrip `{FreshMemory} n :
  - 2 ^ 31 <= n < 2 ^ 31 -> exists s, vformat [37; 100] [ArgInt n] = Ok s /\ parseInt_String s = Ok n.
Proof.
  intros Hn. destruct (ByteArrayOutputStream.baos_size_wf ByteArrayOutputStream.DEFAULT_BUFFER_SIZE) as [Hwf Hd]; [done|].
  set (s0 := ByteArrayOutputStream.ByteArrayOutputStream_new). change (ByteArrayOutputStream.wf s0) in Hwf. change (ByteArrayOutputStream.data s0 = []) in Hd.
  assert (Hwf0 : out_wf s0) by exact Hwf.
  destruct (writeBytes_ok s0 [37; 100] 0 0 Hwf0) as (s1 & E1 & Hwf1 & Hd1 & Hr1); [repeat constructor; done|lia|split; [lia|done]|done|done|].
  set (p1 := setBase 10 (setIntegerPrecision 0 (mk s1 (default_settings false) (u32 (0 + 0))))).
  destruct (print_signed_ok p1 n) as (ds & Hnum & (p2 & E2 & Hwf2 & Hd2 & _ & _) & Hlen); [by split_and!|done|exact Hwf1|cbn [stream p1 setBase setIntegerPrecision set]; rewrite Hr1; by vm_compute|].
  assert (Hs : s32 n = n) by (apply swrap_small; wrap_solve). assert (Hfl : format_loop 3 [37; 100] [ArgInt n] (PrintStream_new s0 false) = Ok (setNumberPadding 0 p2)).
  { change (format_loop 3 [37; 100] [ArgInt n] (PrintStream_new s0 false)) with
      (p ← writeBytes [37; 100] 0 0 (PrintStream_new s0 false); '(args, p) ← (p ← print_signed (s32 n) (setBase 10 (setIntegerPrecision 0 p)); Ok (@nil Argument, p)); format_loop 2 [] args (setNumberPadding 0 p)).
    unfold writeBytes. cbn [stream PrintStream_new settings bytesWritten]. rewrite E1, !ok_bind. fold p1. rewrite Hs, E2, !ok_bind. done. }
  unfold vformat. change (S (length [37; 100])) with 3%nat. fold s0. rewrite Hfl, ok_bind. change (stream (setNumberPadding 0 p2)) with (stream p2).
  assert (Hdata : ByteArrayOutputStream.data (stream p2) = signed_digits n ds).
  { change (ByteArrayOutputStream.data (stream p2)) with (out_data (stream p2)). rewrite Hd2. cbn [stream p1 setBase setIntegerPrecision set]. rewrite Hd1.
    change (out_data s0) with (ByteArrayOutputStream.data s0). by rewrite Hd. }
  assert (Hchars : chars_ok (signed_digits n ds)).
  { unfold signed_digits. apply Forall_app. split; [destruct (n <? 0); [by repeat constructor|constructor]|]. destruct Hnum as (_ & Hds & _). apply Forall_fmap. eapply Forall_impl; [exact Hds|]. cbn. lia. }
  destruct (getContent_ok (stream p2) Hwf2) as (r & Er & (Hb & _)); [by rewrite Hdata|]. exists r. split; [done|]. unfold parseInt_String. rewrite Hb, Hdata, (parseInt_spec _ []) by done.
  rewrite signed_digits_value by done. by rewrite Hs.
Qed.

#[local] Instance zero_memory : FreshMemory := fun _ => 0.

Lemma format_parse_roundtrip_witness : exists s, vformat [37; 100] [ArgInt (-1234567)] = Ok s /\ parseInt_String s = Ok (-1234567).
Proof. apply (format_parse_roundtrip (-1234567)). lia. Defined.


Definition example_settings : Settings := with_prefix [48; 120] (with_precision 6 (with_base 16 (default_settings false))).

(** [48879] with six hexadecimal digits and a prefix *)
Lemma print_number_spec_witness :
  exists ds p', numeral 16 48879 ds /\ print_number 48879 0 (mk ByteArrayOutputStream.ByteArrayOutputStream_new example_settings 0) = Ok p' /\
    appended (mk ByteArrayOutputStream.ByteArrayOutputStream_new example_settings 0) p' (layout example_settings 0 (digit_char 65 <$> ds)).
Proof.
  apply (print_number_spec (mk ByteArrayOutputStream.ByteArrayOutputStream_new example_settings 0) 48879 0).
  - vm_compute. split; discriminate.
  - split; [discriminate|reflexivity].
  - split; [discriminate|reflexivity].
  - repeat constructor; done.
  - reflexivity.
  - apply ByteArrayOutputStream.baos_size_wf. done.
  - vm_compute. discriminate.
Defined.

(** A power of two as base and a number of more than 32 bits: the divisor becomes zero. *)
Lemma div_loop_step fuel n b d : 0 < d -> b * d <= n -> 0 < b -> div_loop (S fuel) n b d = div_loop fuel n b (u32 (d * b)).
Proof.
  intros Hd Hn Hb. cbn [div_loop]. rewrite udiv_ok, ok_bind by lia. destruct (Z.geb_spec (n / d) b) as [|Hlt]; [done|].
  pose proof (Z.div_le_lower_bound n d b Hd). lia.
Qed.

(** A number of more than 32 bits in base 16 makes [print] divide by zero. *)
Theorem wide_hex_throws {St} `{!OutputStream St} (p : PrintStream St) n :
  base (settings p) = 16 -> 2 ^ 32 <= n -> print_unsigned n p = Throw DIVIDE_BY_ZERO.
Proof.
  intros Hb Hn. unfold print_unsigned, print_number, number_digits. rewrite Hb. unfold number_fuel.
  do 8 (rewrite div_loop_step by lia; match goal with |- context [u32 (?a * 16)] => let v := eval vm_compute in (u32 (a * 16)) in change (u32 (a * 16)) with v end). done.
Qed.

Lemma wide_hex_throws_witness :
  print_unsigned (2 ^ 40) (setBase 16 (PrintStream_new ByteArrayOutputStream.ByteArrayOutputStream_new false)) = Throw DIVIDE_BY_ZERO.
Proof. apply wide_hex_throws; [reflexivity|lia]. Defined.

End PrintStream.
