(* ===== verification/Terminal.v ===== *)
(** * Terminal.v: the terminal

    [lib/util/graphic/Terminal] over any screen, with the escape sequences of ANSI terminals, the line buffer between
    the keyboard and the reader, and the screens of [lib/util/graphic/LinearFrameBufferTerminal]
    (its character buffer) and [device/graphic/ColorGraphicsAdapter] (its video memory) as instances.
    The keyboard is read in [Keyboard.v]. The bell, the drawing of pixels and the thread that shows the cursor are left out. *)

From S2P Require Import UtilString Prelude Bits Streams BufferedStreams PrintStream Color.
Import Color.

(** ** The screen *)

(** What a screen reads of the terminal it belongs to *)
Record View := mkView { columns : Z; rows : Z; foregroundColor : Color; backgroundColor : Color }.

(** The virtual functions of [Terminal] *)
Class Screen (S : Type) := {
  putChar : View -> Z -> Color -> Color -> S -> outcome S;
  clear : View -> Color -> Color -> Z -> Z -> Z -> Z -> S -> outcome S;
  setPosition : View -> Z -> Z -> S -> outcome S;
  getCurrentColumn : S -> Z;
  getCurrentRow : S -> Z
}.

Module Terminal.

(** ** Data *)

Record Attributes := mkAttributes {
  foregroundBaseColor : Color; backgroundBaseColor : Color; brightForeground : bool; brightBackground : bool; invert : bool; bright : bool; dim : bool
}.

Record Modes := mkModes { echo : bool; lineAggregation : bool; ansiParsing : bool; keyboardScancodes : bool }.

Record Terminal (S : Type) := mk {
  screen : S;
  view : View;
  currentEscapeSequence : String;
  isEscapeActive : bool;
  attributes : Attributes;
  modes : Modes;
  savedColumn : Z;
  savedRow : Z;
  lineBufferStream : ByteArrayOutputStream.ByteArrayOutputStream;
  inputStream : Piped.PipedInputStream
}.
Arguments mk {S}.
Arguments screen {S} _.
Arguments view {S} _.
Arguments currentEscapeSequence {S} _.
Arguments isEscapeActive {S} _.
Arguments attributes {S} _.
Arguments modes {S} _.
Arguments savedColumn {S} _.
Arguments savedRow {S} _.
Arguments lineBufferStream {S} _.
Arguments inputStream {S} _.

Definition ESCAPE_SEQUENCE_START : Z := 27.
Definition TABULATOR_SPACES : Z := 8.
(** ["ABCDEFGHJKmnsu"] *)
Definition escapeEndCodes : list Z := [65; 66; 67; 68; 69; 70; 71; 72; 74; 75; 109; 110; 115; 117].

(** [Ansi::colorTable256] *)
Definition level (i : Z) : Z := default 0 ([0; 95; 135; 175; 215; 255] !! Z.to_nat i).
Definition color256 (i : Z) : outcome Color :=
  let base := [BLACK; RED; GREEN; YELLOW; BLUE; MAGENTA; CYAN; WHITE] in
  if (i <? 0) || (256 <=? i) then Fault
  else if i <? 8 then Ok (default BLACK (base !! Z.to_nat i))
  else if i <? 16 then Ok (Color.bright (default BLACK (base !! Z.to_nat (i - 8))))
  else if i <? 232 then Ok (rgb (level ((i - 16) / 36)) (level ((i - 16) / 6 mod 6)) (level ((i - 16) mod 6)))
  else Ok (rgb (8 + 10 * (i - 232)) (8 + 10 * (i - 232)) (8 + 10 * (i - 232))).

(** ** Colours of escape sequences *)

Definition code_at (codes : list String) (index : Z) : outcome Z := s ← element codes index; parseInt_String s.

Definition parse256Color (codes : list String) (index : Z) : outcome (Color * Z) :=
  colorIndex ← code_at codes index; c ← color256 colorIndex; Ok (c, u32 (index + 1)).

Definition parseTrueColor (codes : list String) (index : Z) : outcome (Color * Z) :=
  red ← code_at codes index;
  green ← code_at codes (u32 (index + 1));
  blue ← code_at codes (u32 (index + 2));
  Ok (rgb (u8 red) (u8 green) (u8 blue), u32 (index + 3)).

Definition parseComplexColor (codes : list String) (index : Z) : outcome (Color * Z) :=
  mode ← code_at codes index;
  let index := u32 (index + 1) in
  if mode =? 2 then parseTrueColor codes index else if mode =? 5 then parse256Color codes index else Throw INVALID_ARGUMENT.

(** The colour and the index behind what was read *)
Definition getColor (colorCode : Z) (defaultColor : Color) (codes : list String) (index : Z) : outcome (Color * Z) :=
  if colorCode =? 0 then Ok (BLACK, index) else if colorCode =? 1 then Ok (RED, index) else if colorCode =? 2 then Ok (GREEN, index) else if colorCode =? 3 then Ok (YELLOW, index)
  else if colorCode =? 4 then Ok (BLUE, index) else if colorCode =? 5 then Ok (MAGENTA, index) else if colorCode =? 6 then Ok (CYAN, index) else if colorCode =? 7 then Ok (WHITE, index)
  else if colorCode =? 8 then parseComplexColor codes (u32 (index + 1))
  else if colorCode =? 9 then Ok (defaultColor, index)
  else Throw INVALID_ARGUMENT.

Definition initial_attributes : Attributes := mkAttributes WHITE BLACK false false false false false.

(** [NORMAL] also resets the colours in use, which [parseColorEscapeSequence] computes again. *)
Definition parseGraphicRendition (code : Z) (a : Attributes) : Attributes :=
  if code =? 0 then initial_attributes
  else if code =? 1 then mkAttributes (foregroundBaseColor a) (backgroundBaseColor a) (brightForeground a) (brightBackground a) (invert a) true (dim a)
  else if code =? 2 then mkAttributes (foregroundBaseColor a) (backgroundBaseColor a) (brightForeground a) (brightBackground a) (invert a) (bright a) true
  else if code =? 7 then mkAttributes (foregroundBaseColor a) (backgroundBaseColor a) (brightForeground a) (brightBackground a) true (bright a) (dim a)
  else if code =? 22 then mkAttributes (foregroundBaseColor a) (backgroundBaseColor a) (brightForeground a) (brightBackground a) (invert a) false false
  else if code =? 27 then mkAttributes (foregroundBaseColor a) (backgroundBaseColor a) (brightForeground a) (brightBackground a) false (bright a) (dim a)
  else a.

Definition set_foreground (c : Color) (b : bool) (a : Attributes) : Attributes := mkAttributes c (backgroundBaseColor a) b (brightBackground a) (invert a) (bright a) (dim a).
Definition set_background (c : Color) (b : bool) (a : Attributes) : Attributes := mkAttributes (foregroundBaseColor a) c (brightForeground a) b (invert a) (bright a) (dim a).

(** The loop over the codes *)
Fixpoint color_loop (fuel : nat) (codes : list String) (i : Z) (a : Attributes) : outcome Attributes :=
  if i <? zlen codes then
    match fuel with
    | O => Loops
    | S fuel =>
      code ← code_at codes i;
      '(i, a) ← (
        if code <? 30 then Ok (i, parseGraphicRendition (u8 code) a)
        else if code <? 40 then '(c, i) ← getColor (u8 (code - 30)) WHITE codes i; Ok (i, set_foreground c false a)
        else if code <? 50 then '(c, i) ← getColor (u8 (code - 40)) BLACK codes i; Ok (i, set_background c false a)
        else if code <? 98 then '(c, i) ← getColor (u8 (code - 90)) WHITE codes i; Ok (i, set_foreground c true a)
        else if code <? 108 then '(c, i) ← getColor (u8 (code - 100)) BLACK codes i; Ok (i, set_background c true a)
        else Ok (i, a));
      color_loop fuel codes (u32 (i + 1)) a
    end
  else Ok a.

(** The colours in use *)
Definition shown (a : Attributes) : Color * Color :=
  let '(foreground, background) := if invert a then (backgroundBaseColor a, foregroundBaseColor a) else (foregroundBaseColor a, backgroundBaseColor a) in
  let foreground := if bright a || brightForeground a then Color.bright foreground else foreground in
  let foreground := if dim a then Color.dim foreground else foreground in
  let background := if brightBackground a then Color.bright background else background in
  (foreground, background).

Section Terminal.
Context {S : Type} `{!Screen S} `{FreshMemory}.
Implicit Types (t : Terminal S).

Definition with_screen (s : S) t : Terminal S :=
  mk s (view t) (currentEscapeSequence t) (isEscapeActive t) (attributes t) (modes t) (savedColumn t) (savedRow t) (lineBufferStream t) (inputStream t).
Definition with_escape (sequence : String) (active : bool) t : Terminal S :=
  mk (screen t) (view t) sequence active (attributes t) (modes t) (savedColumn t) (savedRow t) (lineBufferStream t) (inputStream t).
Definition with_attributes (a : Attributes) t : Terminal S :=
  let '(foreground, background) := shown a in
  mk (screen t) (mkView (columns (view t)) (rows (view t)) foreground background) (currentEscapeSequence t) (isEscapeActive t) a (modes t) (savedColumn t) (savedRow t) (lineBufferStream t) (inputStream t).
Definition with_modes (m : Modes) t : Terminal S :=
  mk (screen t) (view t) (currentEscapeSequence t) (isEscapeActive t) (attributes t) m (savedColumn t) (savedRow t) (lineBufferStream t) (inputStream t).
Definition with_saved (column row : Z) t : Terminal S :=
  mk (screen t) (view t) (currentEscapeSequence t) (isEscapeActive t) (attributes t) (modes t) column row (lineBufferStream t) (inputStream t).
Definition with_input (line : ByteArrayOutputStream.ByteArrayOutputStream) (pipe : Piped.PipedInputStream) t : Terminal S :=
  mk (screen t) (view t) (currentEscapeSequence t) (isEscapeActive t) (attributes t) (modes t) (savedColumn t) (savedRow t) line pipe.

Definition Terminal_new (s : S) (columns rows : Z) : Terminal S :=
  mk s (mkView columns rows WHITE BLACK) String_empty false initial_attributes (mkModes true true true false) 0 0 ByteArrayOutputStream.ByteArrayOutputStream_new
    (Piped.mk (Some 0) (new_bytes Piped.DEFAULT_BUFFER_SIZE) Piped.DEFAULT_BUFFER_SIZE (-1) 0 (-1)).

(** ** Operations on the screen *)

Definition getColumns t : Z := columns (view t).
Definition getRows t : Z := rows (view t).
Definition column t : Z := getCurrentColumn (screen t).
Definition row t : Z := getCurrentRow (screen t).

Definition put (c : Z) t : outcome (Terminal S) := s ← putChar (view t) c (foregroundColor (view t)) (backgroundColor (view t)) (screen t); Ok (with_screen s t).
Definition move (column row : Z) t : outcome (Terminal S) := s ← setPosition (view t) (u16 column) (u16 row) (screen t); Ok (with_screen s t).
Definition erase (startColumn startRow endColumn endRow : Z) t : outcome (Terminal S) :=
  s ← clear (view t) (foregroundColor (view t)) (backgroundColor (view t)) (u16 startColumn) (u32 startRow) (u16 endColumn) (u16 endRow) (screen t); Ok (with_screen s t).

Definition newline t : outcome (Terminal S) := t ← erase (column t) (row t) (getColumns t) (row t) t; move 0 (row t + 1) t.

Definition handleTab t : outcome (Terminal S) :=
  if column t + TABULATOR_SPACES >=? getColumns t then move 0 (row t + 1) t
  else move ((column t + TABULATOR_SPACES) / TABULATOR_SPACES * TABULATOR_SPACES) (row t) t.

Definition clear_all t : outcome (Terminal S) := t ← erase 0 0 (getColumns t - 1) (getRows t - 1) t; move 0 0 t.

(** ** Escape sequences *)

Definition split_codes (escapeSequence : String) : outcome (list String) := UtilString.split (Z.to_nat (len escapeSequence)) (String_char 59) 0 escapeSequence.

Definition parseColorEscapeSequence (escapeSequence : String) t : outcome (Terminal S) :=
  codes ← split_codes escapeSequence;
  a ← color_loop (length codes) codes 0 (attributes t);
  Ok (with_attributes a t).

(** The bounds of [G], [H] and [f] *)
Definition clamp (v bound : Z) : Z := if v <? 0 then 0 else if v >? bound then bound - 1 else v.

Definition parseEraseSequence (escapeSequence : String) (endCode : Z) t : outcome (Terminal S) :=
  code ← (if isEmpty escapeSequence then Ok 0 else parseInt_String escapeSequence);
  if endCode =? 74 then
    if code =? 0 then erase (column t) (row t) (getColumns t - 1) (getRows t - 1) t
    else if code =? 1 then erase 0 0 (column t) (row t) t
    else if code =? 2 then clear_all t
    else Ok t
  else if endCode =? 75 then
    if code =? 0 then erase (column t) (row t) (getColumns t - 1) (row t) t
    else if code =? 1 then erase 0 (row t) (column t) (row t) t
    else if code =? 2 then erase 0 (row t) (getColumns t - 1) (row t) t
    else Ok t
  else Ok t.

(** [\u001b\[%u;%uR] *)
Definition report_format : list Z := [27; 91; 37; 117; 59; 37; 117; 82].

Section parse.
(** [TerminalPipedOutputStream::write] and [flush] *)
Context (report : list Z -> Terminal S -> outcome (Terminal S)).

Definition parseCursorEscapeSequence (escapeSequence : String) (endCode : Z) t : outcome (Terminal S) :=
  let number := parseInt_String escapeSequence in
  if endCode =? 65 then n ← number; let r := s32 (row t - n) in move (column t) (if r >? 0 then r else 0) t
  else if endCode =? 66 then n ← number; let r := s32 (row t + n) in move (column t) (if r <? getRows t then r else getRows t - 1) t
  else if endCode =? 67 then n ← number; let c := s32 (column t + n) in move (if c <? getColumns t then c else getColumns t - 1) (row t) t
  else if endCode =? 68 then n ← number; let c := s32 (column t - n) in move (if c >? 0 then c else 0) (row t) t
  else if endCode =? 69 then n ← number; let r := s32 (s32 (row t + n) + 1) in move 0 (if r <? getRows t then r else getRows t - 1) t
  else if endCode =? 70 then n ← number; let r := s32 (s32 (row t - n) - 1) in move 0 (if r >? 0 then r else 0) t
  else if endCode =? 71 then n ← number; move (clamp n (getColumns t)) (row t) t
  else if (endCode =? 72) || (endCode =? 102) then
    if isEmpty escapeSequence then move 0 0 t
    else
      codes ← split_codes escapeSequence;
      if zlen codes <? 2 then Ok t
      else c ← code_at codes 1; r ← code_at codes 0; move (clamp c (getColumns t)) (clamp r (getRows t)) t
  else if endCode =? 110 then
    n ← number;
    if n =? 6 then s ← PrintStream.vformat report_format [PrintStream.ArgInt (row t); PrintStream.ArgInt (column t)]; report (ztake (len s) (buffer s)) t else Ok t
  else if endCode =? 115 then Ok (with_saved (column t) (row t) t)
  else if endCode =? 117 then move (savedColumn t) (savedRow t) t
  else Ok t.

(** The end of an escape sequence *)
Definition execute_sequence (endCode : Z) t : outcome (Terminal S) :=
  escapeSequence ← substring 2 (len (currentEscapeSequence t)) (currentEscapeSequence t);
  if (endCode =? 74) || (endCode =? 75) then parseEraseSequence escapeSequence endCode t
  else if endCode =? 109 then parseColorEscapeSequence escapeSequence t
  else parseCursorEscapeSequence escapeSequence endCode t.

Definition is_control (c : Z) : bool := (c <=? 6) || (c =? 8) || ((11 <=? c) && (c <=? 26)) || ((28 <=? c) && (c <=? 31)).

(** [write]; the bell ([7]) only starts a thread. *)
Definition write_step (c : Z) t : outcome (Terminal S) :=
  if negb (ansiParsing (modes t)) then if c =? 10 then newline t else put c t
  else
    let t := if c =? ESCAPE_SEQUENCE_START then with_escape (currentEscapeSequence t) true t else t in
    if isEscapeActive t then
      if bool_decide (c ∈ escapeEndCodes) then t ← execute_sequence c t; Ok (with_escape String_empty false t)
      else s ← append (currentEscapeSequence t) (String_char c); Ok (with_escape s (isEscapeActive t) t)
    else if c =? 7 then Ok t
    else if c =? 9 then handleTab t
    else if c =? 10 then newline t
    else if is_control c then Ok t
    else put c t.
End parse.

(** ** Input *)

Section input.
(** [Terminal::write] *)
Context (echo_write : Z -> Terminal S -> outcome (Terminal S)).

(** [TerminalPipedOutputStream::flush] *)
Definition input_flush t : outcome (Terminal S) :=
  content ← ByteArrayOutputStream.getContent (lineBufferStream t);
  p ← Piped.pipe_write (buffer content) 0 (ByteArrayOutputStream.getLength (lineBufferStream t)) (inputStream t);
  Ok (with_input (ByteArrayOutputStream.reset (lineBufferStream t)) p t).

(** The last character of the line is taken back. *)
Definition input_backspace t : outcome (Terminal S) :=
  if ByteArrayOutputStream.isEmpty (lineBufferStream t) then Ok t
  else
    let '(c, r) := if column t =? 0 then (u16 (getColumns t - 1), u16 (row t - 1)) else (u16 (column t - 1), row t) in
    t ← (if echo (modes t) then t ← put 32 t; t ← move c r t; t ← put 32 t; move c r t else Ok t);
    content ← ByteArrayOutputStream.getContent (lineBufferStream t);
    line ← substring 0 (u32 (ByteArrayOutputStream.getLength (lineBufferStream t) - 1)) content;
    b ← ByteArrayOutputStream.writeBytes (buffer line) 0 (len line) (ByteArrayOutputStream.reset (lineBufferStream t));
    Ok (with_input b (inputStream t) t).

Definition input_write (c : Z) t : outcome (Terminal S) :=
  if ansiParsing (modes t) && (c =? 8) then input_backspace t
  else
    t ← (if echo (modes t) then echo_write c t else Ok t);
    if lineAggregation (modes t) then
      b ← ByteArrayOutputStream.write c (lineBufferStream t);
      let t := with_input b (inputStream t) t in
      if c =? 10 then input_flush t else Ok t
    else p ← Piped.pipe_write_byte c (inputStream t); Ok (with_input (lineBufferStream t) p t).

Fixpoint input_writeBytes (l : list Z) t : outcome (Terminal S) :=
  match l with [] => Ok t | c :: l => t ← input_write c t; input_writeBytes l t end.

Definition input_report (l : list Z) t : outcome (Terminal S) := t ← input_writeBytes l t; input_flush t.
End input.

(** A report of the cursor position is echoed; the echo has no end code, so that one level is enough. *)
Fixpoint write (fuel : nat) (c : Z) t : outcome (Terminal S) :=
  write_step (match fuel with O => fun _ _ => Loops | Datatypes.S fuel => input_report (write fuel) end) c t.

Fixpoint writeBytes (fuel : nat) (l : list Z) t : outcome (Terminal S) :=
  match l with [] => Ok t | c :: l => t ← write fuel c t; writeBytes fuel l t end.

(** A byte from the keyboard *)
Definition type_byte (c : Z) t : outcome (Terminal S) := input_write (write 1) c t.
Fixpoint type_bytes (l : list Z) t : outcome (Terminal S) :=
  match l with [] => Ok t | c :: l => t ← type_byte c t; type_bytes l t end.

Definition read t : outcome (Z * Terminal S) := '(c, p) ← Piped.read (inputStream t); Ok (c, with_input (lineBufferStream t) p t).
Definition peek t : outcome (Z * Terminal S) := '(c, p) ← Piped.peek (inputStream t); Ok (c, with_input (lineBufferStream t) p t).
Definition readBytes (targetBuffer : list Z) (offset length : Z) t : outcome (Z * list Z * Terminal S) :=
  '(n, b, p) ← Piped.readBytes targetBuffer offset length (inputStream t); Ok (n, b, with_input (lineBufferStream t) p t).
Definition isReadyToRead t : bool := Piped.isReadyToRead (inputStream t).

(** ** Control requests ([TerminalNode::control]) *)

Inductive Command := SET_ECHO | SET_LINE_AGGREGATION | SET_ANSI_PARSING | SET_CURSOR | ENABLE_RAW_MODE | ENABLE_CANONICAL_MODE | ENABLE_KEYBOARD_SCANCODES.

Definition setEcho (v : bool) t := with_modes (mkModes v (lineAggregation (modes t)) (ansiParsing (modes t)) (keyboardScancodes (modes t))) t.
Definition setLineAggregation (v : bool) t := with_modes (mkModes (echo (modes t)) v (ansiParsing (modes t)) (keyboardScancodes (modes t))) t.
Definition setAnsiParsing (v : bool) t := with_modes (mkModes (echo (modes t)) (lineAggregation (modes t)) v (keyboardScancodes (modes t))) t.
Definition setKeyboardScancodes (v : bool) t := with_modes (mkModes (echo (modes t)) (lineAggregation (modes t)) (ansiParsing (modes t)) v) t.

Definition control (request : Command) (parameters : list Z) t : outcome (bool * Terminal S) :=
  let first f := match parameters with [] => Throw INVALID_ARGUMENT | p :: _ => Ok (true, f (negb (p =? 0))) end in
  match request with
  | SET_ECHO => first (fun v => setEcho v t)
  | SET_LINE_AGGREGATION => first (fun v => setLineAggregation v t)
  | SET_CURSOR => first (fun _ => t)
  | SET_ANSI_PARSING => first (fun v => setAnsiParsing v t)
  | ENABLE_RAW_MODE => Ok (true, setKeyboardScancodes false (setLineAggregation false (setAnsiParsing false (setEcho false t))))
  | ENABLE_CANONICAL_MODE => Ok (true, setKeyboardScancodes false (setLineAggregation true (setAnsiParsing true (setEcho true t))))
  | ENABLE_KEYBOARD_SCANCODES => Ok (true, setKeyboardScancodes true (setLineAggregation false (setAnsiParsing false (setEcho false t))))
  end.
End Terminal.
End Terminal.

(** ** The screen on a frame buffer *)
Module LinearFrameBufferTerminal.

Record Character := mkCharacter { value : Z; character_foreground : Color; character_background : Color }.
Record LinearFrameBufferTerminal := mk { characterBuffer : list Character; currentColumn : Z; currentRow : Z }.

Definition at_position (v : View) (s : LinearFrameBufferTerminal) : Z := currentRow s * columns v + currentColumn s.

(** [for (i = start; i < end; i++) characterBuffer\[i\] = ...] *)
Fixpoint clear_loop (n : nat) (i : Z) (c : Character) (b : list Character) : outcome (list Character) :=
  match n with O => Ok b | S n => b ← aset b i c; clear_loop n (i + 1) c b end.

Definition clear (v : View) (fg bg : Color) (startColumn startRow endColumn endRow : Z) (s : LinearFrameBufferTerminal) : outcome LinearFrameBufferTerminal :=
  if startRow >? endRow then Throw INVALID_ARGUMENT
  else
    let start := u32 (startRow * columns v + startColumn) in
    let end_ := u32 (endRow * columns v + endColumn + 1) in
    b ← clear_loop (Z.to_nat (end_ - start)) start (mkCharacter 0 fg bg) (characterBuffer s);
    Ok (mk b (currentColumn s) (currentRow s)).

(** The rows behind the first are copied to the front. *)
Definition copy_rows (v : View) (b : list Character) : outcome (list Character) :=
  let n := columns v * (rows v - 1) in
  if (0 <=? n) && (columns v + n <=? zlen b) then Ok (take (Z.to_nat n) (drop (Z.to_nat (columns v)) b) ++ drop (Z.to_nat n) b) else Fault.

Definition scrollUp (v : View) (s : LinearFrameBufferTerminal) : outcome LinearFrameBufferTerminal :=
  b ← copy_rows v (characterBuffer s);
  clear v (foregroundColor v) (backgroundColor v) 0 (rows v - 1) (columns v - 1) (rows v - 1) (mk b (currentColumn s) (currentRow s)).

Definition putChar (v : View) (c : Z) (fg bg : Color) (s : LinearFrameBufferTerminal) : outcome LinearFrameBufferTerminal :=
  b ← aset (characterBuffer s) (at_position v s) (mkCharacter c fg bg);
  let column := u16 (currentColumn s + 1) in
  let '(column, row) := if column >=? columns v then (0, u16 (currentRow s + 1)) else (column, currentRow s) in
  if row >=? rows v then s ← scrollUp v (mk b column row); Ok (mk (characterBuffer s) 0 (rows v - 1)) else Ok (mk b column row).

Fixpoint scroll_loop (fuel : nat) (v : View) (s : LinearFrameBufferTerminal) : outcome LinearFrameBufferTerminal :=
  if currentRow s >=? rows v then
    match fuel with
    | O => Loops
    | S fuel => s ← scrollUp v s; scroll_loop fuel v (mk (characterBuffer s) (currentColumn s) (currentRow s - 1))
    end
  else Ok s.

(** The character below the cursor is drawn again. *)
Definition setPosition (v : View) (column row : Z) (s : LinearFrameBufferTerminal) : outcome LinearFrameBufferTerminal :=
  aget (characterBuffer s) (at_position v s);;
  scroll_loop (Z.to_nat row) v (mk (characterBuffer s) column row).

#[global] Instance screen : Screen LinearFrameBufferTerminal := { putChar := putChar; clear := clear; setPosition := setPosition; getCurrentColumn := currentColumn; getCurrentRow := currentRow }.

Definition new_screen (columns rows : Z) : LinearFrameBufferTerminal := mk (replicate (Z.to_nat (columns * rows)) (mkCharacter 0 WHITE BLACK)) 0 0.
End LinearFrameBufferTerminal.

(** ** The screen in text mode *)
Module ColorGraphicsAdapter.

(** [cgaMemory] is the mapped part of the video memory, [cursor] the position the controller shows. *)
Record ColorGraphicsAdapter := mk { cgaMemory : list Z; currentColumn : Z; currentRow : Z; cursor : Z }.

Definition BYTES_PER_CHARACTER : Z := 2.

Definition colorAttribute (fg bg : Color) : Z := u8 (Z.lor (Z.shiftl (getRGB4 bg) 4) (getRGB4 fg)).

Definition set_character (c attribute position : Z) (memory : list Z) : outcome (list Z) := m ← aset memory position (u8 c); aset m (position + 1) attribute.

(** The high and the low byte go to the controller. *)
Definition updateCursorPosition (v : View) (s : ColorGraphicsAdapter) : ColorGraphicsAdapter :=
  let position := u16 (currentRow s * columns v + currentColumn s) in
  let low := u8 (Z.land position 255) in
  let high := u8 (Z.land (Z.shiftr position 8) 255) in
  mk (cgaMemory s) (currentColumn s) (currentRow s) (Z.lor (Z.shiftl high 8) low).

Fixpoint clear_loop (n : nat) (i attribute : Z) (memory : list Z) : outcome (list Z) :=
  match n with O => Ok memory | S n => m ← set_character 32 attribute i memory; clear_loop n (i + 2) attribute m end.

Definition clear (v : View) (fg bg : Color) (startColumn startRow endColumn endRow : Z) (s : ColorGraphicsAdapter) : outcome ColorGraphicsAdapter :=
  let startPosition := u16 (u32 (startRow * columns v + startColumn) * BYTES_PER_CHARACTER) in
  let endPosition := u16 ((endRow * columns v + endColumn + 1) * BYTES_PER_CHARACTER) in
  m ← clear_loop (Z.to_nat ((endPosition - startPosition + 1) / 2)) startPosition (colorAttribute fg bg) (cgaMemory s);
  Ok (mk m (currentColumn s) (currentRow s) (cursor s)).

(** The rows behind the first are copied to the front. *)
Definition copy_rows (v : View) (memory : list Z) : outcome (list Z) :=
  let n := columns v * (rows v - 1) * BYTES_PER_CHARACTER in
  let source := columns v * BYTES_PER_CHARACTER in
  if (0 <=? n) && (source + n <=? zlen memory) then Ok (ztake n (zdrop source memory) ++ zdrop n memory) else Fault.

Definition scrollUp (v : View) (s : ColorGraphicsAdapter) : outcome ColorGraphicsAdapter :=
  m ← copy_rows v (cgaMemory s);
  clear v (foregroundColor v) (backgroundColor v) 0 (rows v - 1) (columns v - 1) (rows v - 1) (mk m (currentColumn s) (currentRow s) (cursor s)).

Definition putChar (v : View) (c : Z) (fg bg : Color) (s : ColorGraphicsAdapter) : outcome ColorGraphicsAdapter :=
  let position := u16 ((currentRow s * columns v + currentColumn s) * BYTES_PER_CHARACTER) in
  m ← set_character c (colorAttribute fg bg) position (cgaMemory s);
  let column := u16 (currentColumn s + 1) in
  let '(column, row) := if column >=? columns v then (0, u16 (currentRow s + 1)) else (column, currentRow s) in
  s ← (if row >=? rows v then s ← scrollUp v (mk m column row (cursor s)); Ok (mk (cgaMemory s) 0 (rows v - 1) (cursor s)) else Ok (mk m column row (cursor s)));
  Ok (updateCursorPosition v s).

Fixpoint scroll_loop (fuel : nat) (v : View) (s : ColorGraphicsAdapter) : outcome ColorGraphicsAdapter :=
  if currentRow s >=? rows v then
    match fuel with
    | O => Loops
    | S fuel => s ← scrollUp v s; scroll_loop fuel v (mk (cgaMemory s) (currentColumn s) (currentRow s - 1) (cursor s))
    end
  else Ok s.

Definition setPosition (v : View) (column row : Z) (s : ColorGraphicsAdapter) : outcome ColorGraphicsAdapter :=
  s ← scroll_loop (Z.to_nat row) v (mk (cgaMemory s) column row (cursor s)); Ok (updateCursorPosition v s).

#[global] Instance screen : Screen ColorGraphicsAdapter := { putChar := putChar; clear := clear; setPosition := setPosition; getCurrentColumn := currentColumn; getCurrentRow := currentRow }.
End ColorGraphicsAdapter.

(** ** What a screen guarantees *)

(** The cells of the screen, row by row. *)
Class ScreenLaws (S : Type) `{!Screen S} := {
  Cell : Type;
  paint : Z -> Color -> Color -> Cell;
  screen_ok : View -> S -> Prop;
  cell : S -> Z -> option Cell;
  put_ok v c fg bg s : screen_ok v s -> getCurrentColumn s < columns v -> getCurrentRow s * columns v + getCurrentColumn s + 1 < columns v * rows v ->
    exists s', putChar v c fg bg s = Ok s' /\ screen_ok v s' /\
      getCurrentRow s' * columns v + getCurrentColumn s' = getCurrentRow s * columns v + getCurrentColumn s + 1 /\ getCurrentColumn s' < columns v /\
      forall i, cell s' i = if decide (i = getCurrentRow s * columns v + getCurrentColumn s) then Some (paint c fg bg) else cell s i;
  move_ok v c r s : screen_ok v s -> 0 <= c < columns v -> 0 <= r < rows v ->
    exists s', setPosition v c r s = Ok s' /\ screen_ok v s' /\ getCurrentColumn s' = c /\ getCurrentRow s' = r /\ forall i, cell s' i = cell s i
}.

Module LfbLaws.
Import LinearFrameBufferTerminal.

(** The buffer has a character for each cell, and the cursor is on the screen. *)
Definition ok (v : View) (s : LinearFrameBufferTerminal) : Prop :=
  0 < columns v < 2 ^ 15 /\ 0 < rows v < 2 ^ 15 /\ zlen (characterBuffer s) = columns v * rows v /\ 0 <= currentColumn s < columns v /\ 0 <= currentRow s < rows v.

Definition cell_at (s : LinearFrameBufferTerminal) (i : Z) : option Character := if i <? 0 then None else characterBuffer s !! Z.to_nat i.

Lemma position_range v s : ok v s -> 0 <= at_position v s < columns v * rows v.
Proof. intros (H1 & H2 & H3 & H4 & H5). unfold at_position. nia. Qed.

#[global] Program Instance laws : ScreenLaws LinearFrameBufferTerminal := { Cell := Character; paint := mkCharacter; screen_ok := ok; cell := cell_at }.
Next Obligation.
  intros v c fg bg s Hok Hc Hlt. pose proof (position_range v s Hok) as Hp. destruct Hok as (H1 & H2 & H3 & H4 & H5). cbn in *. unfold putChar. rewrite aset_in by (unfold at_position in *; lia). rewrite ok_bind.
  assert (u16 (currentColumn s + 1) = currentColumn s + 1) as -> by (apply wrap_small; unfold in_u; lia). assert (u16 (currentRow s + 1) = currentRow s + 1) as -> by (apply wrap_small; unfold in_u; lia).
  set (b := <[_ := _]> _). assert (Hb : zlen b = columns v * rows v) by (unfold b; by rewrite zlen_insert).
  assert (Hcell : forall col row i, cell_at (mk b col row) i = if decide (i = at_position v s) then Some (mkCharacter c fg bg) else cell_at s i).
  { intros col row i. unfold cell_at, b. cbn. destruct (Z.ltb_spec i 0); [case_decide; [lia|done]|]. case_decide as Hi; [subst i; apply list_lookup_insert_eq; unfold zlen in *; lia|]. apply list_lookup_insert_ne. lia. }
  destruct (Z.geb_spec (currentColumn s + 1) (columns v)) as [Hge|Hge].
  - destruct (Z.geb_spec (currentRow s + 1) (rows v)); [nia|]. eexists. split; [done|]. cbn. split_and!; [|lia|lia|]; [unfold ok; cbn; split_and!; lia|]. intros i. apply Hcell.
  - destruct (Z.geb_spec (currentRow s) (rows v)); [lia|]. eexists. split; [done|]. cbn. split_and!; [|lia|lia|]; [unfold ok; cbn; split_and!; lia|]. intros i. apply Hcell.
Qed.
Next Obligation.
  intros v c r s Hok Hc Hr. pose proof (position_range v s Hok) as Hp. destruct Hok as (H1 & H2 & H3 & H4 & H5). cbn. unfold setPosition. destruct (aget_in (characterBuffer s) (at_position v s)) as (x & -> & _); [lia|]. rewrite ok_bind.
  assert (scroll_loop (Z.to_nat r) v (mk (characterBuffer s) c r) = Ok (mk (characterBuffer s) c r)) as ->. { destruct (Z.to_nat r); cbn; (destruct (Z.geb_spec r (rows v)); [lia|done]). }
  eexists. split; [done|]. cbn. split_and!; try done; unfold ok; cbn; lia.
Qed.
End LfbLaws.

Module CgaLaws.
Import ColorGraphicsAdapter.

(** The memory has two bytes for each cell, the cursor is on the screen, and the controller shows it there. *)
Definition ok (v : View) (s : ColorGraphicsAdapter) : Prop :=
  0 < columns v /\ 0 < rows v /\ columns v * rows v <= 2 ^ 14 /\ columns v * rows v * 2 <= zlen (cgaMemory s) /\
  0 <= currentColumn s < columns v /\ 0 <= currentRow s < rows v /\ cursor s = currentRow s * columns v + currentColumn s.

Definition cell_at (s : ColorGraphicsAdapter) (i : Z) : option (Z * Z) :=
  if i <? 0 then None else c ← cgaMemory s !! Z.to_nat (2 * i); a ← cgaMemory s !! Z.to_nat (2 * i + 1); Some (c, a).

Lemma cursor_ok v s :
  0 <= currentRow s * columns v + currentColumn s < 2 ^ 16 -> updateCursorPosition v s = mk (cgaMemory s) (currentColumn s) (currentRow s) (currentRow s * columns v + currentColumn s).
Proof.
  intros Hp. unfold updateCursorPosition. rewrite (wrap_small 16) by done. set (p := currentRow s * columns v + currentColumn s) in *. f_equal.
  rewrite !(wrap_small 8) by (unfold in_u; change 255 with (Z.ones 8); rewrite Z.land_ones by lia; apply Z.mod_pos_bound; lia).
  apply Z.bits_inj'. intros k Hk. rewrite Z.lor_spec, Z.shiftl_spec, !Z.land_spec by done. change 255 with (Z.ones 8). rewrite !Z.testbit_ones by lia.
  destruct (decide (k < 8)) as [H8|H8].
  - rewrite (proj2 (Z.leb_gt 0 (k - 8))), (proj2 (Z.leb_le 0 k)), (proj2 (Z.ltb_lt k 8)) by lia. by rewrite andb_false_r, andb_true_r.
  - rewrite Z.shiftr_spec by lia. replace (k - 8 + 8) with k by lia. rewrite (proj2 (Z.ltb_ge k 8)), (proj2 (Z.leb_le 0 (k - 8))) by lia. rewrite !andb_false_r, orb_false_r. cbn [andb].
    destruct (Z.ltb_spec (k - 8) 8); [by rewrite andb_true_r|]. rewrite andb_false_r. symmetry. apply (testbit_high 16); [exact Hp|lia].
Qed.

Lemma set_character_ok c a i (m : list Z) : 0 <= i -> 2 * i + 1 < zlen m -> set_character c a (2 * i) m = Ok (<[Z.to_nat (2 * i + 1) := a]> (<[Z.to_nat (2 * i) := u8 c]> m)).
Proof. intros Hi Hl. unfold set_character. rewrite aset_in by lia. rewrite ok_bind. apply aset_in. rewrite zlen_insert. lia. Qed.

Lemma cell_set c a i m k col row cur : 0 <= i -> 2 * i + 1 < zlen m ->
  cell_at (mk (<[Z.to_nat (2 * i + 1) := a]> (<[Z.to_nat (2 * i) := c]> m)) col row cur) k = if decide (k = i) then Some (c, a) else cell_at (mk m col row cur) k.
Proof.
  intros Hi Hl. unfold zlen in Hl. unfold cell_at. cbn. destruct (Z.ltb_spec k 0); [case_decide; [lia|done]|]. case_decide as Hk.
  - subst k. rewrite (list_lookup_insert_ne _ _ (Z.to_nat (2 * i))), !list_lookup_insert_eq by (rewrite ?length_insert; lia). done.
  - by rewrite !list_lookup_insert_ne by lia.
Qed.

#[global] Program Instance laws : ScreenLaws ColorGraphicsAdapter := { Cell := Z * Z; paint c fg bg := (u8 c, colorAttribute fg bg); screen_ok := ok; cell := cell_at }.
Next Obligation.
  intros v c fg bg s (H1 & H2 & H3 & H4 & H5 & H6 & H7) Hc Hlt. cbn in *. unfold putChar, BYTES_PER_CHARACTER. assert (0 <= currentRow s * columns v) by nia. assert (columns v < 2 ^ 15 /\ rows v < 2 ^ 15) as [Hc15 Hr15] by nia.
  rewrite (wrap_small 16 (_ * 2)) by (unfold in_u; lia). rewrite (Z.mul_comm (_ + _) 2), set_character_ok by lia. rewrite ok_bind.
  assert (u16 (currentColumn s + 1) = currentColumn s + 1) as -> by (apply wrap_small; unfold in_u; lia). assert (u16 (currentRow s + 1) = currentRow s + 1) as -> by (apply wrap_small; unfold in_u; lia).
  set (m := <[_ := _]> _). assert (Hm : zlen m = zlen (cgaMemory s)) by (unfold m; by rewrite !zlen_insert).
  assert (Hcell : forall col row cur i, cell_at (mk m col row cur) i = if decide (i = currentRow s * columns v + currentColumn s) then Some (u8 c, colorAttribute fg bg) else cell_at s i). { intros col row cur i. unfold m. rewrite cell_set by lia. done. }
  destruct (Z.geb_spec (currentColumn s + 1) (columns v)) as [Hge|Hge].
  - destruct (Z.geb_spec (currentRow s + 1) (rows v)); [nia|]. rewrite ok_bind, cursor_ok by (cbn; nia). eexists. split; [done|]. cbn. split_and!; [|lia|lia|]; [unfold ok; cbn; rewrite Hm; split_and!; lia|]. intros i. apply Hcell.
  - destruct (Z.geb_spec (currentRow s) (rows v)); [lia|]. rewrite ok_bind, cursor_ok by (cbn; nia). eexists. split; [done|]. cbn. split_and!; [|lia|lia|]; [unfold ok; cbn; rewrite Hm; split_and!; lia|]. intros i. apply Hcell.
Qed.
Next Obligation.
  intros v c r s (H1 & H2 & H3 & H4 & H5 & H6 & H7) Hc Hr. cbn in *. unfold setPosition.
  assert (scroll_loop (Z.to_nat r) v (mk (cgaMemory s) c r (cursor s)) = Ok (mk (cgaMemory s) c r (cursor s))) as ->. { destruct (Z.to_nat r); cbn; (destruct (Z.geb_spec r (rows v)); [lia|done]). }
  rewrite ok_bind, cursor_ok by (cbn; nia). eexists. split; [done|]. cbn. split_and!; try done; unfold ok; cbn; split_and!; lia.
Qed.
End CgaLaws.

(** ** Theorems *)
Module TerminalSpec.
Import Terminal.

Section Spec.
Context {S : Type} `{!Screen S} `{!ScreenLaws S} `{FreshMemory}.
Implicit Types (t : Terminal S).

Definition position t : Z := row t * getColumns t + column t.

(** No escape sequence has begun. *)
Definition plain t : Prop := ansiParsing (modes t) = true /\ isEscapeActive t = false /\ currentEscapeSequence t = String_empty.

(** The characters of a sequence are collected. *)
Lemma collect_ok fuel l : forall t s0,
  ansiParsing (modes t) = true -> isEscapeActive t = true -> repr (currentEscapeSequence t) s0 -> chars_ok l -> Forall (fun c => c ∉ escapeEndCodes) l -> zlen s0 + zlen l < UINT32_MAX ->
  exists s, writeBytes fuel l t = Ok (with_escape s true t) /\ repr s (s0 ++ l).
Proof.
  induction l as [|c l IH]; intros t s0 Ha Hact Hr Hc He Hl; cbn [writeBytes].
  - exists (currentEscapeSequence t). rewrite app_nil_r. split; [|done]. rewrite <- Hact. by destruct t.
  - apply Forall_cons in Hc as [Hc1 Hc]. apply Forall_cons in He as [He1 He]. rewrite zlen_cons in Hl. pose proof (zlen_nonneg l).
    destruct (append_ok _ _ s0 [c] Hr (char_repr c Hc1)) as (s & E & Hs); [change (zlen [c]) with 1; lia|].
    assert (Hw : write fuel c t = Ok (with_escape s true t)).
    { assert (forall f, write_step f c t = Ok (with_escape s true t)) as Hw; [|by destruct fuel; apply Hw]. intros f. unfold write_step. rewrite Ha. cbn [negb].
      assert ((if c =? ESCAPE_SEQUENCE_START then with_escape (currentEscapeSequence t) true t else t) = t) as ->. { rewrite <- Hact. destruct (c =? _); by destruct t. }
      rewrite Hact, bool_decide_false by done. by rewrite E, ok_bind. }
    rewrite Hw, ok_bind. destruct (IH (with_escape s true t) (s0 ++ [c])) as (s' & E' & Hs'); [done|done|done|done|done|rewrite zlen_app; change (zlen [c]) with 1; lia|].
    exists s'. rewrite E', <- app_assoc in *. split; [done|]. exact Hs'.
Qed.

Lemma writeBytes_app fuel (l1 l2 : list Z) t : writeBytes fuel (l1 ++ l2) t = (t ← writeBytes fuel l1 t; writeBytes fuel l2 t).
Proof. revert t. induction l1 as [|c l1 IH]; intros t; [done|]. cbn [app writeBytes]. destruct (write fuel c t) as [t'| | |]; try done. rewrite !ok_bind. apply IH. Qed.

(** A sequence [ESC \[ l c] runs the end code [c] on the characters [l]. *)
Lemma sequence_run fuel (l : list Z) c t :
  plain t -> chars_ok l -> Forall (fun c => c ∉ escapeEndCodes) l -> zlen l < UINT32_MAX - 2 -> c ∈ escapeEndCodes ->
  exists s e f, repr e l /\ writeBytes fuel (27 :: 91 :: l ++ [c]) t =
    (t2 ← (if (c =? 74) || (c =? 75) then parseEraseSequence e c else if c =? 109 then parseColorEscapeSequence e else parseCursorEscapeSequence f e c) (with_escape s true t);
     Ok (with_escape String_empty false t2)).
Proof.
  intros (Ha & Hi & Hs) Hc He Hl Hin. set (t0 := with_escape (currentEscapeSequence t) true t).
  assert (Hw : writeBytes fuel (27 :: 91 :: l ++ [c]) t = writeBytes fuel ((27 :: 91 :: l) ++ [c]) t0).
  { cbn [app writeBytes]. f_equal. assert (forall f, write_step f 27 t = write_step f 27 t0) as Hw; [|destruct fuel; apply Hw]. intros f. unfold write_step, t0. cbn [modes with_escape]. by rewrite !Ha. }
  rewrite Hw, writeBytes_app.
  destruct (collect_ok fuel (27 :: 91 :: l) t0 []) as (s & E & Hr); [done|done|unfold t0; cbn; rewrite Hs; apply empty_repr|constructor; [lia|constructor; [lia|done]]| |rewrite !zlen_cons; change (zlen []) with 0; lia|].
  { constructor; [by apply (bool_decide_eq_false _)|constructor; [by apply (bool_decide_eq_false _)|done]]. }
  rewrite E, ok_bind. cbn [app] in Hr. destruct (substring_ok 2 (len s) s (27 :: 91 :: l) Hr) as (e & Ee & Hre); [lia|].
  assert (Hsub : sub 2 (len s) (27 :: 91 :: l) = l).
  { destruct Hr as (_ & Hlen & _ & _). unfold sub. rewrite Hlen, !zlen_cons. pose proof (zlen_nonneg l). destruct (Z.gtb_spec 2 (zlen l + 1 + 1)); [lia|]. destruct (Z.geb_spec 2 (zlen l + 1 + 1)); cbn [orb].
    - destruct l; [done|]. rewrite zlen_cons in *. pose proof (zlen_nonneg l). lia.
    - cbn [drop Z.to_nat Pos.to_nat Pos.iter_op]. apply take_ge. unfold zlen in *. lia. }
  rewrite Hsub in Hre. exists s, e, (match fuel with O => fun _ _ => Loops | Datatypes.S fuel => input_report (write fuel) end). split; [done|]. cbn [writeBytes].
  assert (Hstep : write fuel c (with_escape s true t0) = write_step (match fuel with O => fun _ _ => Loops | Datatypes.S fuel => input_report (write fuel) end) c (with_escape s true t0)) by (by destruct fuel).
  rewrite Hstep. unfold write_step. cbn [modes with_escape t0]. rewrite Ha. cbn [negb]. assert (Hne : (c =? ESCAPE_SEQUENCE_START) = false). { apply Z.eqb_neq. intros ->. revert Hin. by apply (bool_decide_eq_false _). }
  rewrite Hne. cbn [isEscapeActive with_escape]. rewrite bool_decide_true by done. unfold execute_sequence. cbn [currentEscapeSequence with_escape]. rewrite Ee, ok_bind.
  assert (Hid : forall m : outcome (Terminal S), (t ← m; Ok t) = m) by (by intros []). rewrite Hid. by destruct ((c =? 74) || (c =? 75)); [|destruct (c =? 109)].
Qed.

(** *** Moving the cursor *)

(** Where [ESC \[ n c] moves the cursor. *)
Definition target (c n column row columns rows : Z) : Z * Z :=
  if c =? 65 then (column, Z.max 0 (row - n))
  else if c =? 66 then (column, Z.min (row + n) (rows - 1))
  else if c =? 67 then (Z.min (column + n) (columns - 1), row)
  else if c =? 68 then (Z.max 0 (column - n), row)
  else if c =? 69 then (0, Z.min (row + n + 1) (rows - 1))
  else if c =? 70 then (0, Z.max 0 (row - n - 1))
  else (Z.min n (columns - 1), row).

Definition digits (l : list Z) : Prop := Forall (fun c => 48 <= c <= 57) l.

Lemma digits_ok l : digits l -> chars_ok l /\ Forall (fun c => c ∉ escapeEndCodes) l /\ signed_value l = digits_value l /\ 0 <= digits_value l.
Proof.
  intros Hl. split_and!.
  - eapply Forall_impl; [exact Hl|]. cbn. lia.
  - eapply Forall_impl; [exact Hl|]. cbn. intros c Hc Hx. unfold escapeEndCodes in Hx. repeat (apply elem_of_cons in Hx as [->|Hx]; [lia|]). by apply elem_of_nil in Hx.
  - destruct l as [|c l]; [done|]. cbn [signed_value]. apply Forall_cons in Hl as [Hc _]. by destruct (Z.eqb_spec c 45); [lia|].
  - unfold digits_value. assert (forall v, 0 <= v -> 0 <= fold_left (fun v c => if isNumeric c then v * 10 + (c - 48) else v) l v) as Hv; [|by apply Hv].
    induction Hl as [|c l Hc _ IH]; intros v Hv; [done|]. cbn. apply IH. destruct (isNumeric c); lia.
Qed.

(** The cursor of a terminal is on its screen. *)
Definition on_screen t : Prop := screen_ok (view t) (screen t) /\ 0 <= column t < getColumns t /\ 0 <= row t < getRows t /\ getColumns t < 2 ^ 15 /\ getRows t < 2 ^ 15.

Lemma move_on t c r : on_screen t -> 0 <= c < getColumns t -> 0 <= r < getRows t ->
  exists s', move c r t = Ok (with_screen s' t) /\ screen_ok (view t) s' /\ getCurrentColumn s' = c /\ getCurrentRow s' = r /\ forall i, cell s' i = cell (screen t) i.
Proof.
  intros (Hok & _ & _ & Hc1 & Hr1) Hc Hr. unfold move. assert (u16 c = c) as -> by (apply wrap_small; unfold in_u; lia). assert (u16 r = r) as -> by (apply wrap_small; unfold in_u; lia).
  destruct (move_ok (view t) c r (screen t) Hok Hc Hr) as (s' & -> & H1 & H2 & H3 & H4). exists s'. by rewrite ok_bind.
Qed.

Lemma cursor_run f e l c t :
  repr e l -> digits l -> digits_value l < 2 ^ 30 -> 65 <= c <= 71 -> (c = 71 -> digits_value l <> getColumns t) -> on_screen t ->
  let '(x, y) := target c (digits_value l) (column t) (row t) (getColumns t) (getRows t) in parseCursorEscapeSequence f e c t = move x y t /\ 0 <= x < getColumns t /\ 0 <= y < getRows t.
Proof.
  intros (Hb & _ & Hch & _) Hd Hn Hc Hg (_ & Hcol & Hrow & Hcols & Hrows). destruct (digits_ok l Hd) as (_ & _ & Hsv & H0).
  assert (Hp : parseInt_String e = Ok (digits_value l)). { unfold parseInt_String. rewrite Hb, (parseInt_spec l []) by done. rewrite Hsv. f_equal. apply swrap_small; unfold in_s; lia. }
  set (n := digits_value l) in *. assert (Hs : forall z, -2 ^ 31 <= z < 2 ^ 31 -> s32 z = z) by (intros z Hz; apply swrap_small; unfold in_s; lia).
  unfold parseCursorEscapeSequence, target. rewrite Hp.
  assert (c = 65 \/ c = 66 \/ c = 67 \/ c = 68 \/ c = 69 \/ c = 70 \/ c = 71) as Hcases by lia.
  destruct Hcases as [->|[->|[->|[->|[->|[->| ->]]]]]]; cbn [Z.eqb Pos.eqb]; rewrite ok_bind; try rewrite (Hs (row t + n)) by lia; try rewrite (Hs (row t - n)) by lia; try rewrite Hs by lia.
  - destruct (Z.gtb_spec (row t - n) 0); (split; [f_equal; lia|lia]).
  - destruct (Z.ltb_spec (row t + n) (getRows t)); (split; [f_equal; lia|lia]).
  - destruct (Z.ltb_spec (column t + n) (getColumns t)); (split; [f_equal; lia|lia]).
  - destruct (Z.gtb_spec (column t - n) 0); (split; [f_equal; lia|lia]).
  - destruct (Z.ltb_spec (row t + n + 1) (getRows t)); (split; [f_equal; lia|lia]).
  - destruct (Z.gtb_spec (row t - n - 1) 0); (split; [f_equal; lia|lia]).
  - specialize (Hg eq_refl). unfold clamp. destruct (Z.ltb_spec n 0); [lia|]. destruct (Z.gtb_spec n (getColumns t)); (split; [f_equal; lia|lia]).
Qed.

(** C20: On every screen that satisfies the laws, with the parsing of escape
    sequences on and no sequence pending, the escape sequences with a number
    n below 2^30 move the cursor, bounded by the screen: A to D by n rows or
    columns, E and F to the start of the row n + 1 further down or up, G to
    column n, for n other than the number of columns; the cells and the rest
    of the terminal stay as they are. *)
Theorem cursor_sequences fuel l c t :
  plain t -> on_screen t -> digits l -> zlen l < UINT32_MAX - 2 -> digits_value l < 2 ^ 30 -> 65 <= c <= 71 -> (c = 71 -> digits_value l <> getColumns t) ->
  exists s', writeBytes fuel (27 :: 91 :: l ++ [c]) t = Ok (with_screen s' t) /\ screen_ok (view t) s' /\
    (getCurrentColumn s', getCurrentRow s') = target c (digits_value l) (column t) (row t) (getColumns t) (getRows t) /\ forall i, cell s' i = cell (screen t) i.
Proof.
  intros Hp Hon Hd Hl Hn Hc Hg. destruct (digits_ok l Hd) as (Hch & Hne & _ & _).
  assert (Hin : c ∈ escapeEndCodes). { assert (c = 65 \/ c = 66 \/ c = 67 \/ c = 68 \/ c = 69 \/ c = 70 \/ c = 71) as Hcases by lia. destruct Hcases as [->|[->|[->|[->|[->|[->| ->]]]]]]; by apply (bool_decide_eq_true _). }
  destruct (sequence_run fuel l c t Hp Hch Hne Hl Hin) as (s & e & f & He & ->). set (t1 := with_escape s true t).
  assert ((c =? 74) || (c =? 75) = false /\ (c =? 109) = false) as [-> ->] by (split; [apply orb_false_iff; split|]; apply Z.eqb_neq; lia).
  pose proof (cursor_run f e l c t1 He Hd Hn Hc Hg Hon) as Hrun. change (column t1) with (column t) in *. change (row t1) with (row t) in *. change (getColumns t1) with (getColumns t) in *. change (getRows t1) with (getRows t) in *.
  destruct (target _ _ _ _ _ _) as [x y]. destruct Hrun as (E & Hx & Hy). destruct (move_on t1 x y Hon Hx Hy) as (s' & E' & Hok & H1 & H2 & Hcell).
  exists s'. rewrite E, E', ok_bind. split_and!; [|done|by rewrite H1, H2|done]. destruct Hp as (_ & Hi & Hs). unfold t1, with_screen, with_escape. cbn. by rewrite <- Hi, <- Hs.
Qed.

(** *** Printing text *)

(** The characters that are shown *)
Definition printable (c : Z) : Prop := 32 <= c < 256.

Lemma put_run fuel c t : plain t -> printable c -> write fuel c t = put c t.
Proof.
  intros (Ha & Hi & _) Hc. unfold printable in Hc. assert (forall f, write_step f c t = put c t) as Hw; [|destruct fuel; apply Hw]. intros f. unfold write_step. rewrite Ha. cbn [negb]. unfold ESCAPE_SEQUENCE_START. rewrite (proj2 (Z.eqb_neq c 27)) by lia. rewrite Hi.
  rewrite (proj2 (Z.eqb_neq c 7)), (proj2 (Z.eqb_neq c 9)), (proj2 (Z.eqb_neq c 10)) by lia. assert (is_control c = false) as ->; [|done]. unfold is_control.
  rewrite (proj2 (Z.leb_gt c 6)), (proj2 (Z.eqb_neq c 8)), (proj2 (Z.leb_gt c 26)), (proj2 (Z.leb_gt c 31)) by lia. by rewrite !andb_false_r.
Qed.

(** C18: On every screen that satisfies the laws, writing printable characters
    that fit behind the cursor shows them in the colours in use from the
    position of the cursor on, row by row, moves the cursor behind them and
    changes no other cell. *)
Theorem print_text fuel l : forall t,
  plain t -> screen_ok (view t) (screen t) -> column t < getColumns t -> Forall printable l -> position t + zlen l < getColumns t * getRows t ->
  exists s', writeBytes fuel l t = Ok (with_screen s' t) /\ screen_ok (view t) s' /\ getCurrentRow s' * getColumns t + getCurrentColumn s' = position t + zlen l /\
    forall i, cell s' i = if decide (position t <= i < position t + zlen l) then (fun c => paint c (foregroundColor (view t)) (backgroundColor (view t))) <$> l !! Z.to_nat (i - position t) else cell (screen t) i.
Proof.
  induction l as [|c l IH]; intros t Hp Hok Hcol Hl Hpos.
  - exists (screen t). change (zlen []) with 0 in *. split_and!; [by destruct t|done|unfold position, row, column; lia|]. intros i. rewrite decide_False by lia. done.
  - apply Forall_cons in Hl as [Hc Hl]. rewrite zlen_cons in Hpos. pose proof (zlen_nonneg l). cbn [writeBytes]. rewrite put_run by done. unfold put.
    destruct (put_ok (view t) c (foregroundColor (view t)) (backgroundColor (view t)) (screen t) Hok Hcol) as (s1 & -> & Hok1 & Hpos1 & Hcol1 & Hcell1).
    { change (position t + 1 < getColumns t * getRows t). lia. }
    rewrite !ok_bind. change (getCurrentRow (screen t) * columns (view t) + getCurrentColumn (screen t)) with (position t) in *.
    change (getCurrentRow s1 * columns (view t) + getCurrentColumn s1) with (position (with_screen s1 t)) in Hpos1.
    destruct (IH (with_screen s1 t)) as (s2 & E & Hok2 & Hpos2 & Hcell2); [done|done|done|done|rewrite Hpos1; change (getColumns (with_screen s1 t)) with (getColumns t); change (getRows (with_screen s1 t)) with (getRows t); lia|].
    exists s2. rewrite E, zlen_cons. split_and!; [done|done|rewrite Hpos1 in Hpos2; change (getColumns (with_screen s1 t)) with (getColumns t) in Hpos2; lia|].
    intros i. rewrite Hcell2, Hpos1. cbn [screen view with_screen]. destruct (decide (i = position t)) as [->|Hi].
    + rewrite decide_False, decide_True by lia. rewrite Hcell1, decide_True by done. rewrite Z.sub_diag. done.
    + destruct (decide (position t + 1 <= i < position t + 1 + zlen l)).
      * rewrite decide_True by lia. replace (Z.to_nat (i - position t)) with (Datatypes.S (Z.to_nat (i - (position t + 1)))) by lia. done.
      * rewrite decide_False by lia. by rewrite Hcell1, decide_False.
Qed.
End Spec.

(** *** Concrete terminals *)

(** A terminal of 80 columns and 25 rows *)
Definition sample_memory : FreshMemory := fun _ => 0.
Definition sample : Terminal LinearFrameBufferTerminal.LinearFrameBufferTerminal := @Terminal_new _ sample_memory (LinearFrameBufferTerminal.new_screen 80 25) 80 25.

Lemma sample_ok : screen_ok (view sample) (screen sample).
Proof. split_and!; by vm_compute. Qed.

Lemma cursor_sequences_witness : exists s', @writeBytes _ _ sample_memory 1 [27; 91; 49; 50; 66] sample = Ok (with_screen s' sample) /\ getCurrentRow s' = 12.
Proof.
  destruct (@cursor_sequences _ _ _ sample_memory 1 [49; 50] 66 sample) as (s' & E & _ & Hp & _).
  - done.
  - split; [apply sample_ok|]. split_and!; by vm_compute.
  - repeat constructor; lia.
  - by vm_compute.
  - by vm_compute.
  - lia.
  - lia.
  - exists s'. split; [exact E|]. injection Hp as _ Hp. etrans; [exact Hp|]. by vm_compute.
Defined.

Lemma print_text_witness : exists s', @writeBytes _ _ sample_memory 1 [72; 105] sample = Ok (with_screen s' sample) /\ cell s' 1 = Some (LinearFrameBufferTerminal.mkCharacter 105 WHITE BLACK).
Proof.
  destruct (@print_text _ _ _ sample_memory 1 [72; 105] sample) as (s' & E & _ & _ & Hc).
  - done.
  - apply sample_ok.
  - by vm_compute.
  - repeat constructor; lia.
  - by vm_compute.
  - exists s'. split; [exact E|]. rewrite Hc. by vm_compute.
Defined.

(** *** The last row *)

Lemma clear_loop_fault n : forall i c (b : list LinearFrameBufferTerminal.Character), 0 <= i <= zlen b -> zlen b < i + Z.of_nat n -> LinearFrameBufferTerminal.clear_loop n i c b = Fault.
Proof.
  induction n as [|n IH]; intros i c b Hi Hn; [lia|]. cbn [LinearFrameBufferTerminal.clear_loop]. destruct (decide (i < zlen b)) as [Hlt|Hge].
  - rewrite aset_in by lia. rewrite ok_bind. unfold zlen in *. apply IH; rewrite length_insert; lia.
  - unfold aset. change (Z.of_nat (length b)) with (zlen b). rewrite (proj2 (Z.leb_le (zlen b) i)) by lia. by rewrite orb_true_r.
Qed.

(** C40: A newline in the last row of a frame buffer terminal writes behind the
    end of the character buffer. *)
Theorem newline_overflow `{FreshMemory} fuel (t : Terminal LinearFrameBufferTerminal.LinearFrameBufferTerminal) :
  plain t -> LfbLaws.ok (view t) (screen t) -> row t = getRows t - 1 -> write fuel 10 t = Fault.
Proof.
  intros (Ha & Hi & _) (H1 & H2 & H3 & H4 & H5) Hrow. assert (newline t = Fault) as Hn.
  { unfold newline, erase. cbn [clear LinearFrameBufferTerminal.screen]. unfold LinearFrameBufferTerminal.clear. rewrite Hrow. unfold getRows, getColumns, column. cbn [getCurrentColumn LinearFrameBufferTerminal.screen].
    assert (u32 (rows (view t) - 1) = rows (view t) - 1) as -> by (apply wrap_small; unfold in_u; lia).
    assert (u16 (rows (view t) - 1) = rows (view t) - 1) as -> by (apply wrap_small; unfold in_u; lia).
    assert (u16 (columns (view t)) = columns (view t)) as -> by (apply wrap_small; unfold in_u; lia).
    assert (u16 (LinearFrameBufferTerminal.currentColumn (screen t)) = LinearFrameBufferTerminal.currentColumn (screen t)) as -> by (apply wrap_small; unfold in_u; lia).
    assert (0 <= (rows (view t) - 1) * columns (view t) < 2 ^ 30) as Hmul by nia.
    rewrite Z.gtb_ltb, Z.ltb_irrefl. rewrite (wrap_small 32 (_ + LinearFrameBufferTerminal.currentColumn _)), (wrap_small 32 (_ + 1)) by (unfold in_u; lia). rewrite clear_loop_fault; [done|lia|lia]. }
  assert (forall f, write_step f 10 t = Fault) as Hw; [|destruct fuel; apply Hw]. intros f. unfold write_step. rewrite Ha. cbn [negb]. cbn [Z.eqb Pos.eqb ESCAPE_SEQUENCE_START]. by rewrite Hi.
Qed.

Lemma newline_overflow_witness : @write _ _ sample_memory 1 10 (with_screen (LinearFrameBufferTerminal.mk (LinearFrameBufferTerminal.characterBuffer (screen sample)) 5 24) sample) = Fault.
Proof. apply newline_overflow; [done| |by vm_compute]. split_and!; by vm_compute. Defined.

(** *** Editing a line *)

(** What a typed byte does to the line and to the bytes the reader sees. *)
Definition edit (state : list Z * list Z) (c : Z) : list Z * list Z :=
  let '(line, out) := state in if c =? 8 then (removelast line, out) else if c =? 10 then ([], out ++ line ++ [c]) else (line ++ [c], out).

Lemma edit_grows l : forall state, zlen state.2 <= zlen (fold_left edit l state).2.
Proof.
  induction l as [|c l IH]; intros [line out]; [done|]. cbn [fold_left]. etrans; [|apply IH]. unfold edit. destruct (c =? 8); [done|]. destruct (c =? 10); [|done]. cbn. rewrite zlen_app. pose proof (zlen_nonneg (line ++ [c])). lia.
Qed.

Lemma edit_line state c : zlen (edit state c).1 <= zlen state.1 + 1.
Proof.
  destruct state as [line out]. pose proof (zlen_nonneg line). unfold edit. destruct (c =? 8); [|destruct (c =? 10)]; cbn; [|change (zlen []) with 0; lia|rewrite zlen_app; done].
  rewrite removelast_firstn_len. unfold zlen. rewrite length_take. lia.
Qed.

Section Line.
Context {S : Type} `{!Screen S} `{FreshMemory}.
Implicit Types (t : Terminal S).

Definition input_state t : list Z * list Z := (ByteArrayOutputStream.data (lineBufferStream t), Piped.contents (inputStream t)).

(** Lines are collected and not shown. *)
Definition quiet t : Prop :=
  echo (modes t) = false /\ lineAggregation (modes t) = true /\ ansiParsing (modes t) = true /\
  ByteArrayOutputStream.wf (lineBufferStream t) /\ chars_ok (ByteArrayOutputStream.data (lineBufferStream t)) /\ Piped.wf (inputStream t).

Lemma reset_ok b : ByteArrayOutputStream.wf b -> ByteArrayOutputStream.wf (ByteArrayOutputStream.reset b) /\ ByteArrayOutputStream.data (ByteArrayOutputStream.reset b) = [].
Proof. intros (H1 & H2 & H3 & H4 & H5 & H6 & H7). split; [|done]. split_and!; cbn; try done; lia. Qed.

Lemma chars_bytes l : chars_ok l -> Forall (in_u 8) l.
Proof. intros Hl. eapply Forall_impl; [exact Hl|]. cbn. intros c Hc. unfold in_u. lia. Qed.

Lemma flush_ok t : quiet t -> zlen (Piped.contents (inputStream t)) + zlen (ByteArrayOutputStream.data (lineBufferStream t)) <= Piped.bufferSize (inputStream t) ->
  exists b p, input_flush t = Ok (with_input b p t) /\ quiet (with_input b p t) /\ input_state (with_input b p t) = ([], Piped.contents (inputStream t) ++ ByteArrayOutputStream.data (lineBufferStream t)) /\ Piped.bufferSize p = Piped.bufferSize (inputStream t).
Proof.
  intros (He & Hl & Ha & Hb & Hc & Hp) Hroom. unfold input_flush. destruct (PrintStream.getContent_ok _ Hb Hc) as (r & -> & (Hr & _)). rewrite ok_bind. unfold ByteArrayOutputStream.getLength. pose proof Hb as (H1 & _ & _ & H31 & _).
  rewrite <- (ByteArrayOutputStream.baos_data_length _ Hb), Hr in *. set (d := ByteArrayOutputStream.data _) in *.
  destruct (Piped.pipe_write_ok (d ++ [0]) 0 (zlen d) (inputStream t) Hp) as (p & -> & Hp' & Hcont & Hsize). { unfold Piped.free. pose proof (zlen_nonneg d). lia. } { lia. } { rewrite zlen_app. change (zlen [0]) with 1. lia. } { rewrite zlen_app. change (zlen [0]) with 1. lia. }
  rewrite ok_bind. destruct (reset_ok _ Hb) as [Hw Hd]. exists (ByteArrayOutputStream.reset (lineBufferStream t)), p. split_and!; [done| | |done].
  - unfold quiet. cbn [modes lineBufferStream inputStream with_input]. rewrite Hd. split_and!; try done. constructor.
  - unfold input_state. cbn [lineBufferStream inputStream with_input]. rewrite Hd, Hcont. do 2 f_equal. unfold ztake, zdrop, zlen. rewrite drop_0, Nat2Z.id. by rewrite take_app_length.
Qed.

Lemma backspace_ok t : quiet t ->
  exists b, input_backspace t = Ok (with_input b (inputStream t) t) /\ quiet (with_input b (inputStream t) t) /\ ByteArrayOutputStream.data b = removelast (ByteArrayOutputStream.data (lineBufferStream t)).
Proof.
  intros (He & Hl & Ha & Hb & Hc & Hp). pose proof (ByteArrayOutputStream.baos_data_length _ Hb) as Hlen. pose proof Hb as (H1 & _ & _ & H31 & _). unfold input_backspace, ByteArrayOutputStream.isEmpty.
  destruct (Z.eqb_spec (ByteArrayOutputStream.position (lineBufferStream t)) 0) as [E|E].
  - rewrite E in Hlen. apply zlen_nil_iff in Hlen. exists (lineBufferStream t). rewrite Hlen. split_and!; [by destruct t|by destruct t|done].
  - destruct (if column t =? 0 then _ else _) as [c r]. rewrite He, ok_bind. destruct (PrintStream.getContent_ok _ Hb Hc) as (s & -> & Hs). rewrite ok_bind. unfold ByteArrayOutputStream.getLength.
    rewrite (wrap_small 32) by (unfold in_u; lia). destruct (substring_ok 0 (ByteArrayOutputStream.position (lineBufferStream t) - 1) s _ Hs) as (line & -> & Hline); [lia|]. rewrite ok_bind. rewrite <- Hlen in *. set (d := ByteArrayOutputStream.data _) in *.
    assert (Hsub : sub 0 (zlen d - 1) d = removelast d).
    { unfold sub. rewrite Z.gtb_ltb, Z.geb_leb. rewrite (proj2 (Z.ltb_ge _ _)), (proj2 (Z.leb_gt _ _)) by lia. cbn [orb]. rewrite Z.min_l, drop_0, removelast_firstn_len by lia. f_equal. unfold zlen. lia. }
    rewrite Hsub in Hline. destruct Hline as (Hbuf & Hlen' & Hch & Hmax). destruct (reset_ok _ Hb) as [Hw Hd]. rewrite Hbuf, Hlen'.
    assert (Hshort : zlen (removelast d) = zlen d - 1). { rewrite removelast_firstn_len. unfold zlen in *. rewrite length_take. lia. }
    destruct (ByteArrayOutputStream.baos_writeBytes _ (removelast d ++ [0]) 0 (zlen (removelast d)) Hw) as (b & -> & Hwb & Hdb & _).
    { apply Forall_app. split; [by apply chars_bytes|by repeat constructor]. } { lia. } { rewrite Hshort. unfold ByteArrayOutputStream.room. cbn. lia. } { rewrite zlen_app. change (zlen [0]) with 1. lia. } { rewrite zlen_app. change (zlen [0]) with 1. lia. }
    rewrite ok_bind. rewrite Hd in Hdb. assert (ByteArrayOutputStream.data b = removelast d) as Hbd. { rewrite Hdb. unfold ztake, zdrop, zlen. rewrite drop_0, Nat2Z.id. by rewrite take_app_length. }
    exists b. split_and!; [done| |done]. unfold quiet. cbn [modes lineBufferStream inputStream with_input]. rewrite Hbd. by split_and!.
Qed.

Lemma type_ok c t : quiet t -> 0 < c < 256 -> zlen (ByteArrayOutputStream.data (lineBufferStream t)) < 2 ^ 31 - 2 -> zlen (edit (input_state t) c).2 <= Piped.bufferSize (inputStream t) ->
  exists b p, type_byte c t = Ok (with_input b p t) /\ quiet (with_input b p t) /\ input_state (with_input b p t) = edit (input_state t) c /\ Piped.bufferSize p = Piped.bufferSize (inputStream t).
Proof.
  intros Hq Hc Hl Hroom. pose proof Hq as (He & Ha & Hpa & Hb & Hch & Hp). unfold type_byte, input_write. rewrite Hpa. cbn [andb]. unfold edit, input_state in *. destruct (Z.eqb_spec c 8) as [->|H8].
  - destruct (backspace_ok t Hq) as (b & -> & Hq' & Hd). exists b, (inputStream t). rewrite <- Hd. done.
  - rewrite He, ok_bind, Ha. pose proof (ByteArrayOutputStream.baos_data_length _ Hb) as Hlen.
    destruct (ByteArrayOutputStream.baos_write _ c Hb) as (b & -> & Hwb & Hdb & _); [unfold in_u; lia|unfold ByteArrayOutputStream.room; lia|]. rewrite ok_bind.
    assert (Hq1 : quiet (with_input b (inputStream t) t)). { unfold quiet. cbn [modes lineBufferStream inputStream with_input]. rewrite Hdb. split_and!; try done. apply Forall_app. split; [done|]. constructor; [lia|constructor]. }
    destruct (Z.eqb_spec c 10) as [->|H10].
    + destruct (flush_ok _ Hq1) as (b2 & p2 & -> & Hq2 & Hs2 & Hz). { cbn. rewrite Hdb. cbn [snd] in Hroom. by rewrite zlen_app in Hroom. }
      exists b2, p2. split_and!; [done|done| |done]. unfold input_state in Hs2. cbn [lineBufferStream inputStream with_input] in Hs2 |- *. by rewrite Hdb in Hs2.
    + exists b, (inputStream t). cbn [lineBufferStream inputStream with_input]. by rewrite Hdb.
Qed.

(** C19: With echo off, line aggregation and the parsing of escape sequences on,
    and room for the lines in the pipe to the reader, typing bytes has the
    effect of an editor of lines: backspace removes the last byte of the
    line, newline hands the line to the reader, and everything else is
    appended. *)
Theorem line_editing l : forall t,
  quiet t -> Forall (fun c => 0 < c < 256) l -> zlen (ByteArrayOutputStream.data (lineBufferStream t)) + zlen l < 2 ^ 31 - 2 -> zlen (fold_left edit l (input_state t)).2 <= Piped.bufferSize (inputStream t) ->
  exists b p, type_bytes l t = Ok (with_input b p t) /\ quiet (with_input b p t) /\ input_state (with_input b p t) = fold_left edit l (input_state t).
Proof.
  induction l as [|c l IH]; intros t Hq Hl Hlen Hroom.
  - exists (lineBufferStream t), (inputStream t). by destruct t.
  - apply Forall_cons in Hl as [Hc Hl]. rewrite zlen_cons in Hlen. pose proof (zlen_nonneg l). cbn [fold_left] in Hroom.
    destruct (type_ok c t Hq Hc) as (b & p & E & Hq1 & Hs1 & Hz); [lia|pose proof (edit_grows l (edit (input_state t) c)); lia|].
    cbn [type_bytes]. rewrite E, ok_bind. destruct (IH (with_input b p t)) as (b2 & p2 & E2 & Hq2 & Hs2); [done|done| |by rewrite Hs1; cbn; rewrite Hz|].
    { change (ByteArrayOutputStream.data (lineBufferStream (with_input b p t))) with (input_state (with_input b p t)).1. rewrite Hs1. pose proof (edit_line (input_state t) c). cbn [input_state fst] in *. lia. }
    exists b2, p2. rewrite Hs1 in Hs2. done.
Qed.
End Line.

Lemma line_editing_witness : exists b p, @type_bytes _ _ sample_memory [108; 115; 120; 8; 10; 99] (setEcho false sample) = Ok (with_input b p (setEcho false sample)) /\ input_state (with_input b p (setEcho false sample)) = ([99], [108; 115; 10]).
Proof.
  destruct (@line_editing _ _ sample_memory [108; 115; 120; 8; 10; 99] (setEcho false sample)) as (b & p & E & _ & Hs).
  - split_and!; try (by vm_compute); repeat constructor; by vm_compute.
  - repeat (constructor; [lia|]). constructor.
  - by vm_compute.
  - by vm_compute.
  - exists b, p. split; [exact E|]. rewrite Hs. by vm_compute.
Defined.

(** *** Codes behind an extended colour *)

(** [ESC \[ 38;5;1;7m] sets the foreground and drops the code [7] (inverted colours), which [ESC \[ 7;38;5;1m] honours. *)
Lemma code_skipped :
  (exists t, @writeBytes _ _ sample_memory 1 [27; 91; 51; 56; 59; 53; 59; 49; 59; 55; 109] sample = Ok t /\ foregroundBaseColor (attributes t) = RED /\ invert (attributes t) = false) /\
  (exists t, @writeBytes _ _ sample_memory 1 [27; 91; 55; 59; 51; 56; 59; 53; 59; 49; 109] sample = Ok t /\ foregroundBaseColor (attributes t) = RED /\ invert (attributes t) = true).
Proof. split; eexists; (split; [vm_compute; reflexivity|by vm_compute]). Qed.
End TerminalSpec.
