(* ===== verification/Keyboard.v ===== *)
(** * Keyboard.v: from scan codes to lines

    [lib/util/io/key]: the decoder of scan codes with the two keyboard layouts and the decoder of mouse
    packets; and the thread of the terminal that reads the keyboard ([Terminal::KeyboardRunnable]). *)

From S2P Require Import UtilString Prelude Bits Streams BufferedStreams PrintStream Color Terminal.

Module Keyboard.

(** ** Keys *)

Record Key := mkKey { ascii : Z; scancode : Z; modifier : Z; pressed : bool }.

Definition SHIFT : Z := 1.
Definition ALT_LEFT : Z := 2.
Definition ALT_RIGHT : Z := 4.
Definition CTRL_LEFT : Z := 8.
Definition CTRL_RIGHT : Z := 16.
Definition CAPS_LOCK : Z := 32.
Definition NUM_LOCK : Z := 64.
Definition SCROLL_LOCK : Z := 128.

Definition setPressed (v : bool) (k : Key) : Key := mkKey (ascii k) (scancode k) (modifier k) v.
Definition setAscii (a : Z) (k : Key) : Key := mkKey a (scancode k) (modifier k) (pressed k).
Definition setScancode (s : Z) (k : Key) : Key := mkKey (ascii k) s (modifier k) (pressed k).
(** [setShift], [setAltLeft], ...: the bit is the argument. *)
Definition setModifier (bit : Z) (p : bool) (k : Key) : Key :=
  mkKey (ascii k) (scancode k) (u8 (if p then Z.lor (modifier k) bit else Z.land (modifier k) (Z.lnot bit))) (pressed k).
Definition getModifier (bit : Z) (k : Key) : bool := negb (Z.land (modifier k) bit =? 0).
Definition getCtrl (k : Key) : bool := getModifier CTRL_LEFT k || getModifier CTRL_RIGHT k.
Definition getAlt (k : Key) : bool := getModifier ALT_LEFT k || getModifier ALT_RIGHT k.
Definition key_differs (k other : Key) : bool := negb (scancode k =? scancode other) || negb (modifier k =? modifier other) || negb (eqb (pressed k) (pressed other)).
Definition isValid (k : Key) : bool := negb (scancode k =? 0).
Definition invalidate (k : Key) : Key := setScancode 0 k.

(** ** Layouts *)

Record KeyboardLayout := mkLayout { normalTab : list Z; shiftTab : list Z; altTab : list Z; asciiNumTab : list Z }.

Definition scanNumTab : list Z := [8; 9; 10; 53; 5; 6; 7; 27; 2; 3; 4; 11; 51].

Definition BREAK_BIT : Z := 128.
Definition PREFIX1 : Z := 224.
Definition PREFIX2 : Z := 225.
Definition DIV : Z := 8.

Definition from_tab (tab : list Z) (code : Z) (k : Key) : outcome Key := a ← aget tab code; Ok (setScancode code (setAscii a k)).

Definition is_letter (code : Z) : bool :=
  ((16 <=? code) && (code <=? 26)) || ((30 <=? code) && (code <=? 40)) || ((44 <=? code) && (code <=? 50)).

Definition parseAsciiCode (l : KeyboardLayout) (code prefix : Z) (k : Key) : outcome Key :=
  if (code =? 53) && (prefix =? PREFIX1) then Ok (setScancode DIV (setAscii 47 k))
  else if getModifier NUM_LOCK k && (prefix =? 0) && (71 <=? code) && (code <=? 83) then
    a ← aget (asciiNumTab l) (code - 71); s ← aget scanNumTab (code - 71); Ok (setScancode s (setAscii a k))
  else if getModifier ALT_RIGHT k then from_tab (altTab l) code k
  else if getModifier SHIFT k then from_tab (shiftTab l) code k
  else if getModifier CAPS_LOCK k then if is_letter code then from_tab (shiftTab l) code k else from_tab (normalTab l) code k
  else from_tab (normalTab l) code k.

(** ** The decoder *)

Record KeyDecoder := mkDecoder { currentPrefix : Z; currentKey : Key; layout : KeyboardLayout }.

Definition setLayout (l : KeyboardLayout) (d : KeyDecoder) : KeyDecoder := mkDecoder (currentPrefix d) (currentKey d) l.
Definition toggle (bit : Z) (k : Key) : Key := setModifier bit (negb (getModifier bit k)) k.

(** The second half of [parseScancode], for a code without the break bit *)
Definition parse_code (code : Z) (d : KeyDecoder) : outcome (bool * KeyDecoder) :=
  let k := currentKey d in
  let done k := Ok (false, mkDecoder 0 k (layout d)) in
  let side left right := if currentPrefix d =? PREFIX1 then right else left in
  let ascii := k ← parseAsciiCode (layout d) code (currentPrefix d) k; Ok (true, mkDecoder 0 k (layout d)) in
  if (code =? 42) || (code =? 54) then done (setModifier SHIFT true k)
  else if code =? 56 then done (setModifier (side ALT_LEFT ALT_RIGHT) true k)
  else if code =? 29 then done (setModifier (side CTRL_LEFT CTRL_RIGHT) true k)
  else if code =? 58 then done (toggle CAPS_LOCK k)
  else if code =? 70 then done (toggle SCROLL_LOCK k)
  else if code =? 69 then if getModifier CTRL_LEFT k then ascii else done (toggle NUM_LOCK k)
  else ascii.

Definition parseScancode (code : Z) (d : KeyDecoder) : outcome (bool * KeyDecoder) :=
  let isBreak := negb (Z.land code BREAK_BIT =? 0) in
  let k := setPressed (negb isBreak) (currentKey d) in
  let d := mkDecoder (currentPrefix d) k (layout d) in
  if (code =? PREFIX1) || (code =? PREFIX2) then Ok (false, mkDecoder code k (layout d))
  else if isBreak then
    let code := Z.land code (Z.lnot BREAK_BIT) in
    let side left right := if currentPrefix d =? PREFIX1 then right else left in
    let released bit := Ok (false, mkDecoder 0 (setModifier bit false k) (layout d)) in
    if (code =? 42) || (code =? 54) then released SHIFT
    else if code =? 56 then released (side ALT_LEFT ALT_RIGHT)
    else if code =? 29 then released (side CTRL_LEFT CTRL_RIGHT)
    else parse_code code d
  else parse_code code d.

(** ** The thread that reads the keyboard *)

Definition UP : Z := 72.
Definition DOWN : Z := 80.
Definition LEFT : Z := 75.
Definition RIGHT : Z := 77.
Definition HOME : Z := 71.
Definition END_ : Z := 79.
Definition DEL : Z := 83.

(** What a pressed key sends *)
Definition key_bytes (k : Key) : list Z :=
  if ascii k =? 0 then
    if scancode k =? UP then [27; 91; 49; 65]
    else if scancode k =? DOWN then [27; 91; 49; 66]
    else if scancode k =? RIGHT then [27; 91; 49; 67]
    else if scancode k =? LEFT then [27; 91; 49; 68]
    else if scancode k =? END_ then [27; 91; 49; 70]
    else if scancode k =? HOME then [27; 91; 49; 72]
    else if scancode k =? DEL then [127]
    else []
  else [if getCtrl k then Z.land (ascii k) 31 else ascii k].

Section run.
Context {S : Type} `{!Screen S} `{FreshMemory}.

(** One round of [KeyboardRunnable::run] *)
Definition key_step (code : Z) (d : KeyDecoder) (t : Terminal.Terminal S) : outcome (KeyDecoder * Terminal.Terminal S) :=
  if Terminal.keyboardScancodes (Terminal.modes t) then t ← Terminal.type_byte code t; Ok (d, t)
  else
    '(done, d) ← parseScancode code d;
    if (done : bool) && pressed (currentKey d) then t ← Terminal.type_bytes (key_bytes (currentKey d)) t; Ok (d, t) else Ok (d, t).

Fixpoint key_run (codes : list Z) (d : KeyDecoder) (t : Terminal.Terminal S) : outcome (KeyDecoder * Terminal.Terminal S) :=
  match codes with [] => Ok (d, t) | code :: codes => '(d, t) ← key_step code d t; key_run codes d t end.
End run.

(** ** The layouts *)

Definition DeLayout : KeyboardLayout := mkLayout
  [0; 0; 49; 50; 51; 52; 53; 54; 55; 56; 57; 48; 225; 39; 8; 9; 113; 119; 101; 114; 116; 122; 117; 105; 111; 112; 129; 43; 10; 0;
   97; 115; 100; 102; 103; 104; 106; 107; 108; 148; 132; 94; 0; 35; 121; 120; 99; 118; 98; 110; 109; 44; 46; 45; 0; 42; 0; 32; 0; 0;
   0; 0; 0; 0; 0; 0; 0; 0; 0; 0; 0; 0; 0; 0; 45; 0; 0; 0; 43; 0; 0; 0; 0; 0; 0; 0; 60; 0; 0]
  [0; 0; 33; 34; 21; 36; 37; 38; 47; 40; 41; 61; 63; 96; 0; 0; 81; 87; 69; 82; 84; 90; 85; 73; 79; 80; 154; 42; 0; 0;
   65; 83; 68; 70; 71; 72; 74; 75; 76; 153; 142; 248; 0; 39; 89; 88; 67; 86; 66; 78; 77; 59; 58; 95; 0; 0; 0; 32; 0; 0;
   0; 0; 0; 0; 0; 0; 0; 0; 0; 0; 0; 0; 0; 0; 0; 0; 0; 0; 0; 0; 0; 0; 0; 0; 0; 0; 62; 0; 0]
  [0; 0; 0; 253; 0; 0; 0; 0; 123; 91; 93; 125; 92; 0; 0; 0; 64; 0; 0; 0; 0; 0; 0; 0; 0; 0; 0; 126; 0; 0;
   0; 0; 0; 0; 0; 0; 0; 0; 0; 0; 0; 0; 0; 0; 0; 0; 0; 0; 0; 0; 230; 0; 0; 0; 0; 0; 0; 0; 0; 0;
   0; 0; 0; 0; 0; 0; 0; 0; 0; 0; 0; 0; 0; 0; 0; 0; 0; 0; 0; 0; 0; 0; 0; 0; 0; 0; 124; 0; 0]
  [55; 56; 57; 45; 52; 53; 54; 43; 49; 50; 51; 48; 44].

Definition UsLayout : KeyboardLayout := mkLayout
  [0; 0; 49; 50; 51; 52; 53; 54; 55; 56; 57; 48; 45; 61; 8; 9; 113; 119; 101; 114; 116; 121; 117; 105; 111; 112; 91; 93; 10; 0;
   97; 115; 100; 102; 103; 104; 106; 107; 108; 59; 39; 96; 0; 92; 122; 120; 99; 118; 98; 110; 109; 44; 46; 47; 0; 42; 0; 32; 0; 0;
   0; 0; 0; 0; 0; 0; 0; 0; 0; 0; 0; 0; 0; 0; 45; 0; 0; 0; 43; 0; 0; 0; 0; 0; 0; 0; 0; 0; 0]
  [0; 0; 33; 64; 35; 36; 37; 94; 38; 42; 40; 41; 95; 43; 0; 0; 81; 87; 69; 82; 84; 89; 85; 73; 79; 80; 123; 125; 0; 0;
   65; 83; 68; 70; 71; 72; 74; 75; 76; 58; 34; 126; 0; 124; 90; 88; 67; 86; 66; 78; 77; 60; 62; 63; 0; 0; 0; 32; 0; 0;
   0; 0; 0; 0; 0; 0; 0; 0; 0; 0; 0; 0; 0; 0; 0; 0; 0; 0; 0; 0; 0; 0; 0; 0; 0; 0; 0; 0; 0]
  [0; 0; 0; 0; 0; 0; 0; 0; 0; 0; 0; 0; 0; 0; 0; 0; 0; 0; 0; 0; 0; 0; 0; 0; 0; 0; 0; 0; 0; 0;
   0; 0; 0; 0; 0; 0; 0; 0; 0; 0; 0; 0; 0; 0; 0; 0; 0; 0; 0; 0; 0; 0; 0; 0; 0; 0; 0; 0; 0; 0;
   0; 0; 0; 0; 0; 0; 0; 0; 0; 0; 0; 0; 0; 0; 0; 0; 0; 0; 0; 0; 0; 0; 0; 0; 0; 0; 0; 0; 0]
  [55; 56; 57; 45; 52; 53; 54; 43; 49; 50; 51; 48; 44].
End Keyboard.

(** ** The mouse *)
Module Mouse.

Record Update := mkUpdate { buttons : Z; xMovement : Z; yMovement : Z; scroll : Z }.

Definition DOWN : Z := 1.
Definition UP : Z := 15.
Definition LEFT : Z := 2.
Definition RIGHT : Z := 14.
Definition X_SIGN : Z := 16.
Definition Y_SIGN : Z := 32.
Definition X_OVERFLOW : Z := 64.
Definition Y_OVERFLOW : Z := 128.

(** [MouseDecoder::decode] *)
Definition decode (b0 b1 b2 b3 : Z) : Update :=
  let movement := fun overflow sign shift b => if Z.land b0 overflow =? 0 then swrap 16 (b - Z.shiftl (Z.land b0 sign) shift) else 0 in
  let direction := Z.land b3 15 in
  let horizontal := negb (Z.land b3 64 =? 0) in
  mkUpdate (u8 (Z.lor (Z.land b0 7) (Z.land b3 48))) (movement X_OVERFLOW X_SIGN 4 b1) (movement Y_OVERFLOW Y_SIGN 3 b2)
    (if direction =? UP then if horizontal then RIGHT else UP
     else if direction =? DOWN then if horizontal then LEFT else DOWN
     else if direction =? RIGHT then RIGHT
     else if direction =? LEFT then LEFT
     else 0).
End Mouse.

(** ** Theorems *)
Module KeyboardSpec.
Import Keyboard TerminalSpec.

(** *** Decoding *)

(** The codes of the keys that are not modifiers *)
Definition plain_code (code : Z) : Prop := 0 <= code < 89 /\ code ∉ [29; 42; 54; 56; 58; 69; 70].

Definition break_ok (code : Z) : bool :=
  (Z.land code BREAK_BIT =? 0) && negb (Z.land (code + 128) BREAK_BIT =? 0) && (Z.land (code + 128) (Z.lnot BREAK_BIT) =? code).

Lemma break_bits code : 0 <= code < 89 -> break_ok code = true.
Proof.
  intros Hc. assert (Forall (fun n => break_ok (Z.of_nat n) = true) (seq 0 89)) as Hall. { apply Forall_forall. apply (proj1 (Forall_forall _ _)). repeat (constructor; [vm_compute; reflexivity|]). constructor. }
  rewrite Forall_forall in Hall. rewrite <- (Z2Nat.id code) by lia. apply Hall. apply elem_of_seq. lia.
Qed.

Lemma parse_code_plain code d : plain_code code -> parse_code code d = (k ← parseAsciiCode (layout d) code (currentPrefix d) (currentKey d); Ok (true, mkDecoder 0 k (layout d))).
Proof.
  intros (Hc & Hn). unfold parse_code. assert (forall x, x ∈ [29; 42; 54; 56; 58; 69; 70] -> (code =? x) = false) as Hx. { intros x Hx. apply Z.eqb_neq. by intros ->. }
  rewrite !Hx by set_solver. done.
Qed.

(** A key goes down. *)
Lemma parse_down code d : plain_code code ->
  parseScancode code d = (k ← parseAsciiCode (layout d) code (currentPrefix d) (setPressed true (currentKey d)); Ok (true, mkDecoder 0 k (layout d))).
Proof.
  intros Hc. pose proof (break_bits code (proj1 Hc)) as Hb. unfold break_ok in Hb. apply andb_prop in Hb as [Hb _]. apply andb_prop in Hb as [Hb _]. unfold parseScancode. rewrite Hb. cbn [negb]. destruct Hc as (Hc & Hn).
  unfold PREFIX1, PREFIX2. rewrite (proj2 (Z.eqb_neq code 224)), (proj2 (Z.eqb_neq code 225)) by lia. cbn [orb]. by rewrite parse_code_plain.
Qed.

(** A key goes up. *)
Lemma parse_up code d : plain_code code ->
  parseScancode (code + 128) d = (k ← parseAsciiCode (layout d) code (currentPrefix d) (setPressed false (currentKey d)); Ok (true, mkDecoder 0 k (layout d))).
Proof.
  intros Hc. pose proof (break_bits code (proj1 Hc)) as Hb. unfold break_ok in Hb. apply andb_prop in Hb as [Hb1 Hb2]. apply andb_prop in Hb1 as [_ Hb1]. unfold parseScancode. rewrite Hb1, (proj1 (Z.eqb_eq _ _) Hb2). cbn [negb]. pose proof Hc as (Hr & Hn).
  unfold PREFIX1, PREFIX2. rewrite (proj2 (Z.eqb_neq (code + 128) 224)), (proj2 (Z.eqb_neq (code + 128) 225)) by lia. cbn [orb].
  assert (forall x, x ∈ [29; 42; 54; 56; 58; 69; 70] -> (code =? x) = false) as Hx. { intros x Hx. apply Z.eqb_neq. by intros ->. }
  rewrite !Hx by set_solver. cbn [orb]. by rewrite parse_code_plain.
Qed.

(** No prefix is pending, and the modifiers are [m]. *)
Definition holds (m : Z) (d : KeyDecoder) : Prop := currentPrefix d = 0 /\ modifier (currentKey d) = m.
Definition full (l : KeyboardLayout) : Prop := zlen (normalTab l) = 89 /\ zlen (shiftTab l) = 89.

(** The table for the modifiers: none, or shift *)
Definition table (m : Z) (l : KeyboardLayout) : list Z := if m =? 0 then normalTab l else shiftTab l.

Lemma ascii_ok m code v l k : m = 0 \/ m = SHIFT -> modifier k = m -> table m l !! Z.to_nat code = Some v -> 0 <= code ->
  parseAsciiCode l code 0 k = Ok (mkKey v code m (pressed k)).
Proof.
  intros Hm Hk Ht Hc. unfold parseAsciiCode, getModifier. rewrite Hk. change (0 =? PREFIX1) with false. rewrite andb_false_r.
  destruct Hm as [-> | ->]; cbn; unfold from_tab; (assert (aget (table _ l) code = Ok v) as E by (by apply aget_ok)); cbn in E; rewrite E; destruct k; cbn in *; subst; done.
Qed.

Section Typing.
Context {S : Type} `{!Screen S} `{FreshMemory}.
Implicit Types (t : Terminal.Terminal S).

(** The scan codes of a key stroke that types [c] *)
Inductive stroke (l : KeyboardLayout) (c : Z) : list Z -> Prop :=
  | stroke_normal code : plain_code code -> normalTab l !! Z.to_nat code = Some c -> stroke l c [code; code + 128]
  | stroke_shift code shift : plain_code code -> shiftTab l !! Z.to_nat code = Some c -> shift = 42 \/ shift = 54 -> stroke l c [shift; code; code + 128; shift + 128].

(** A key that is not a modifier goes down and up. *)
Lemma press_run m code v d t b p :
  m = 0 \/ m = SHIFT -> holds m d -> plain_code code -> table m (layout d) !! Z.to_nat code = Some v -> v <> 0 ->
  Terminal.keyboardScancodes (Terminal.modes t) = false -> Terminal.type_byte v t = Ok (Terminal.with_input b p t) ->
  exists d', key_run [code; code + 128] d t = Ok (d', Terminal.with_input b p t) /\ holds m d' /\ layout d' = layout d.
Proof.
  intros Hm (Hp & Hmod) Hc Ht Hv Hraw E. pose proof Hc as ((H0 & _) & _). cbn [key_run]. unfold key_step. cbn [Terminal.modes Terminal.with_input]. rewrite Hraw, parse_down, Hp by done.
  rewrite (ascii_ok m code v) by done. rewrite !ok_bind. cbn [pressed setPressed andb currentKey]. unfold key_bytes. cbn [ascii scancode]. rewrite (proj2 (Z.eqb_neq v 0)) by done.
  assert (getCtrl (mkKey v code m true) = false) as -> by (by destruct Hm as [-> | ->]). cbn [Terminal.type_bytes]. rewrite E, !ok_bind. cbn [Terminal.modes Terminal.with_input]. rewrite Hraw, parse_up by done. cbn [layout currentPrefix currentKey].
  rewrite (ascii_ok m code v) by done. rewrite !ok_bind. cbn [pressed setPressed andb currentKey]. eexists. split; [reflexivity|]. done.
Qed.

Lemma key_run_app (l1 l2 : list Z) : forall d t, key_run (l1 ++ l2) d t = ('(d, t) ← key_run l1 d t; key_run l2 d t).
Proof. induction l1 as [|c l1 IH]; intros d t; [done|]. cbn [app key_run]. destruct (key_step c d t) as [[d' t']| | |]; try done. rewrite !ok_bind. apply IH. Qed.

Lemma stroke_run c codes d t b p :
  holds 0 d -> stroke (layout d) c codes -> c <> 0 -> Terminal.keyboardScancodes (Terminal.modes t) = false -> Terminal.type_byte c t = Ok (Terminal.with_input b p t) ->
  exists d', key_run codes d t = Ok (d', Terminal.with_input b p t) /\ holds 0 d' /\ layout d' = layout d.
Proof.
  intros Hd Hs Hc Hraw E. destruct Hs as [code Hp Ht|code shift Hp Ht Hshift]; [by eapply (press_run 0); eauto|].
  set (d1 := mkDecoder 0 (setModifier SHIFT true (setPressed true (currentKey d))) (layout d)). destruct Hd as (Hpre & Hmod).
  assert (key_step shift d t = Ok (d1, t)) as E1. { unfold key_step. rewrite Hraw. destruct Hshift as [-> | ->]; done. }
  assert (holds SHIFT d1) as Hd1 by (split; [done|]; cbn; by rewrite Hmod).
  destruct (press_run SHIFT code c d1 t b p) as (d2 & E2 & (Hp2 & Hm2) & Hl2); [by right|done|done|done|done|done|done|].
  change [shift; code; code + 128; shift + 128] with ([shift] ++ [code; code + 128] ++ [shift + 128]). rewrite key_run_app. cbn [key_run]. rewrite E1, !ok_bind. rewrite key_run_app, E2, ok_bind. cbn [key_run]. unfold key_step. cbn [Terminal.modes Terminal.with_input]. rewrite Hraw.
  exists (mkDecoder 0 (setModifier SHIFT false (setPressed false (currentKey d2))) (layout d2)). split_and!; [|split; [done|]; cbn; by rewrite Hm2|done]. destruct Hshift as [-> | ->]; done.
Qed.

(** C17: On any layout, with no modifier pressed, echo and raw scan codes off,
    line aggregation and the parsing of escape sequences on, and room for
    the lines in the pipe to the reader, the scan codes of the key strokes
    of a text (with shift where needed) have the effect of an editor of
    lines on the terminal: the decoder and the terminal together deliver
    exactly the typed lines to the reader, and the decoder ends without
    pending modifiers. *)
Theorem typed_lines l : forall codes d t,
  Forall2 (stroke (layout d)) l codes -> holds 0 d -> Terminal.keyboardScancodes (Terminal.modes t) = false -> quiet t -> Forall (fun c => 0 < c < 256) l ->
  zlen (ByteArrayOutputStream.data (Terminal.lineBufferStream t)) + zlen l < 2 ^ 31 - 2 -> zlen (fold_left edit l (input_state t)).2 <= Piped.bufferSize (Terminal.inputStream t) ->
  exists d' b p, key_run (concat codes) d t = Ok (d', Terminal.with_input b p t) /\ holds 0 d' /\ quiet (Terminal.with_input b p t) /\ input_state (Terminal.with_input b p t) = fold_left edit l (input_state t).
Proof.
  induction l as [|c l IH]; intros codes d t Hs Hd Hraw Hq Hl Hlen Hroom.
  - apply Forall2_nil_inv_l in Hs as ->. exists d, (Terminal.lineBufferStream t), (Terminal.inputStream t). by destruct t.
  - apply Forall2_cons_inv_l in Hs as (code & codes' & Hc & Hs & ->). apply Forall_cons in Hl as [Hc0 Hl]. rewrite zlen_cons in Hlen. pose proof (zlen_nonneg l). cbn [fold_left] in Hroom.
    destruct (type_ok c t Hq Hc0) as (b & p & E & Hq1 & Hs1 & Hz); [lia|pose proof (edit_grows l (edit (input_state t) c)); lia|].
    destruct (stroke_run c code d t b p Hd Hc) as (d1 & E1 & Hd1 & Hl1); [lia|done|done|].
    destruct (IH codes' d1 (Terminal.with_input b p t)) as (d2 & b2 & p2 & E2 & Hd2 & Hq2 & Hs2); [by rewrite Hl1|done|done|done|done| |by rewrite Hs1; cbn; rewrite Hz|].
    { change (ByteArrayOutputStream.data (Terminal.lineBufferStream (Terminal.with_input b p t))) with (input_state (Terminal.with_input b p t)).1. rewrite Hs1. pose proof (edit_line (input_state t) c). cbn [input_state fst] in *. lia. }
    exists d2, b2, p2. rewrite Hs1 in Hs2. cbn [concat]. by rewrite key_run_app, E1, ok_bind, E2.
Qed.
End Typing.

(** ["ls"], a wrong ["L"] that is taken back, and the end of the line, on a German keyboard *)
Definition sample_decoder : KeyDecoder := mkDecoder 0 (mkKey 0 0 0 false) DeLayout.

Lemma typed_lines_witness : exists d' b p,
  @key_run _ _ sample_memory [38; 166; 31; 159; 42; 38; 166; 170; 14; 142; 28; 156] sample_decoder (Terminal.setEcho false sample) = Ok (d', Terminal.with_input b p (Terminal.setEcho false sample)) /\
  input_state (Terminal.with_input b p (Terminal.setEcho false sample)) = ([], [108; 115; 10]).
Proof.
  assert (Hplain : forall code, In code [38; 31; 14; 28] -> plain_code code). { intros code [<-|[<-|[<-|[<-|[]]]]]; (split; [lia|by apply (bool_decide_eq_false _)]). }
  destruct (@typed_lines _ _ sample_memory [108; 115; 76; 8; 10] [[38; 166]; [31; 159]; [42; 38; 166; 170]; [14; 142]; [28; 156]] sample_decoder (Terminal.setEcho false sample)) as (d' & b & p & E & _ & _ & Hs).
  - constructor; [|constructor; [|constructor; [|constructor; [|constructor; [|constructor]]]]].
    + apply (stroke_normal _ _ 38); [by apply Hplain; cbn; tauto|done].
    + apply (stroke_normal _ _ 31); [by apply Hplain; cbn; tauto|done].
    + apply (stroke_shift _ _ 38 42); [by apply Hplain; cbn; tauto|done|by left].
    + apply (stroke_normal _ _ 14); [by apply Hplain; cbn; tauto|done].
    + apply (stroke_normal _ _ 28); [by apply Hplain; cbn; tauto|done].
  - done.
  - done.
  - split_and!; try (by vm_compute); repeat constructor; by vm_compute.
  - repeat (constructor; [lia|]). constructor.
  - by vm_compute.
  - by vm_compute.
  - exists d', b, p. split; [exact E|]. rewrite Hs. by vm_compute.
Defined.

(** *** Keys that lock *)

Definition locks : list (Z * Z) := [(58, CAPS_LOCK); (70, SCROLL_LOCK); (69, NUM_LOCK)].

Definition lock_ok (bit m : Z) : bool :=
  let k := toggle bit (mkKey 0 0 m false) in
  negb (modifier k =? m) && (modifier (toggle bit k) =? m) && eqb (getModifier CTRL_LEFT k) (getModifier CTRL_LEFT (mkKey 0 0 m false)).

Lemma lock_bits code bit m : (code, bit) ∈ locks -> in_u 8 m -> lock_ok bit m = true.
Proof.
  intros Hin Hm. assert (forallb (fun l => forallb (fun n => lock_ok l.2 (Z.of_nat n)) (seq 0 256)) locks = true) as Hall by (vm_compute; reflexivity).
  rewrite forallb_forall in Hall. apply list_elem_of_In in Hin. apply Hall in Hin. rewrite forallb_forall in Hin. rewrite <- (Z2Nat.id m) by (unfold in_u in Hm; lia). apply Hin. apply in_seq. unfold in_u in Hm. lia.
Qed.

Lemma lock_step code bit d : (code, bit) ∈ locks -> getModifier CTRL_LEFT (currentKey d) = false ->
  parseScancode code d = Ok (false, mkDecoder 0 (toggle bit (setPressed true (currentKey d))) (layout d)) /\
  parseScancode (code + 128) d = Ok (false, mkDecoder 0 (toggle bit (setPressed false (currentKey d))) (layout d)).
Proof.
  intros Hin Hc. unfold locks in Hin. apply elem_of_cons in Hin as [[= -> ->]|Hin]; [done|]. apply elem_of_cons in Hin as [[= -> ->]|Hin]; [done|]. apply list_elem_of_singleton in Hin as [= -> ->].
  destruct d as [prefix [a s m pr] l]. unfold getModifier in Hc. cbn in Hc. split; unfold parseScancode, parse_code, getModifier; cbn; by rewrite Hc.
Qed.

(** Caps Lock, Num Lock and Scroll Lock change their modifier when the key goes down and change it back when it goes up. *)
Theorem lock_released code bit d :
  (code, bit) ∈ locks -> in_u 8 (modifier (currentKey d)) -> getModifier CTRL_LEFT (currentKey d) = false ->
  exists d1 d2, parseScancode code d = Ok (false, d1) /\ modifier (currentKey d1) <> modifier (currentKey d) /\
    parseScancode (code + 128) d1 = Ok (false, d2) /\ modifier (currentKey d2) = modifier (currentKey d).
Proof.
  intros Hin Hm Hc. pose proof (lock_bits code bit _ Hin Hm) as Hb. unfold lock_ok in Hb. apply andb_prop in Hb as [Hb Hb3]. apply andb_prop in Hb as [Hb1 Hb2].
  apply negb_true_iff, Z.eqb_neq in Hb1. apply Z.eqb_eq in Hb2. apply eqb_prop in Hb3. destruct (lock_step code bit d Hin Hc) as [E1 _]. rewrite E1. eexists _, _. split; [reflexivity|]. split; [exact Hb1|].
  split; [apply (lock_step code bit); [done|]; etrans; [exact Hb3|exact Hc]|]. exact Hb2.
Qed.

(** The codes from 89 on have no entry in the tables: a key like that (the Windows key is [E0 5B]) reads behind the table. *)
Theorem no_entry code d : full (layout d) -> modifier (currentKey d) = 0 -> 89 <= code < 128 -> parseScancode code d = Fault.
Proof.
  intros (Hn & _) Hm Hc. assert (Z.land code BREAK_BIT = 0) as Hb.
  { change BREAK_BIT with (2 ^ 7). apply Z.bits_inj'. intros i Hi. rewrite Z.land_spec, Z.bits_0, testbit_pow2 by lia. destruct (Z.eqb_spec 7 i) as [<-|]; [|by rewrite andb_false_r]. rewrite (testbit_high 7); [done|unfold in_u; lia|lia]. }
  unfold parseScancode. rewrite Hb. cbn [Z.eqb negb]. unfold PREFIX1, PREFIX2. rewrite (proj2 (Z.eqb_neq code 224)), (proj2 (Z.eqb_neq code 225)) by lia. cbn [orb]. unfold parse_code.
  rewrite (proj2 (Z.eqb_neq code 42)), (proj2 (Z.eqb_neq code 54)), (proj2 (Z.eqb_neq code 56)), (proj2 (Z.eqb_neq code 29)), (proj2 (Z.eqb_neq code 58)), (proj2 (Z.eqb_neq code 70)), (proj2 (Z.eqb_neq code 69)) by lia.
  cbn [orb currentKey layout currentPrefix]. unfold parseAsciiCode, getModifier. cbn [modifier setPressed]. rewrite Hm, (proj2 (Z.eqb_neq code 53)) by lia. cbn [andb Z.land negb Z.eqb]. unfold from_tab, aget.
  rewrite (proj2 (Z.ltb_ge code 0)) by lia. assert (normalTab (layout d) !! Z.to_nat code = None) as -> by (apply lookup_ge_None_2; unfold zlen in Hn; lia). done.
Qed.
End KeyboardSpec.

(** ** The packets of the mouse *)
Module MouseSpec.
Import Mouse.

(** The packet of a movement *)
Definition packet (b x y w : Z) : Z * Z * Z * Z :=
  (Z.lor b (Z.lor 8 (Z.lor (if x <? 0 then X_SIGN else 0) (if y <? 0 then Y_SIGN else 0))), u8 x, u8 y, w).

Lemma movement_ok x : -256 <= x < 256 -> swrap 16 (u8 x - (if x <? 0 then 256 else 0)) = x.
Proof.
  intros Hx. assert (u8 x - (if x <? 0 then 256 else 0) = x) as ->. { unfold u8, wrap. change (2 ^ 8) with 256. destruct (Z.ltb_spec x 0); [|rewrite Z.mod_small; lia]. rewrite <- (Z.mod_add x 1), Z.mod_small by lia. lia. }
  apply swrap_small; unfold in_s; lia.
Qed.

(** The packet of a movement of less than 256 steps in each direction decodes to that movement. *)
Theorem mouse_roundtrip b x y w :
  0 <= b < 8 -> -256 <= x < 256 -> -256 <= y < 256 -> w ∈ [0; DOWN; UP] ->
  let '(b0, b1, b2, b3) := packet b x y w in decode b0 b1 b2 b3 = mkUpdate b x y w.
Proof.
  intros Hb Hx Hy Hw. unfold packet, decode. pose proof (movement_ok x Hx) as Ex. pose proof (movement_ok y Hy) as Ey.
  assert (b = 0 \/ b = 1 \/ b = 2 \/ b = 3 \/ b = 4 \/ b = 5 \/ b = 6 \/ b = 7) as Hb' by lia.
  assert (w = 0 \/ w = 1 \/ w = 15) as Hw' by set_solver.
  destruct (x <? 0), (y <? 0); destruct Hb' as [->|[->|[->|[->|[->|[->|[->| ->]]]]]]]; destruct Hw' as [->|[-> | ->]]; (apply (f_equal4 mkUpdate); [reflexivity|exact Ex|exact Ey|reflexivity]).
Qed.

Lemma mouse_roundtrip_witness : decode 57 246 236 15 = mkUpdate 1 (-10) (-20) UP.
Proof. apply (mouse_roundtrip 1 (-10) (-20) 15); [lia|lia|lia|by apply (bool_decide_eq_true _)]. Defined.
End MouseSpec.
