(* ===== verification/NetworkAddress.v ===== *)
(** * NetworkAddress.v: addresses and numbers of the network stack

    [lib/util/network]: [NetworkAddress] with its kinds [MacAddress], [Ip4Address],
    [Ip4SubnetAddress] and [Ip4PortAddress], and [NumberUtil], which reads and writes numbers
    in network byte order on any stream. An address owns a buffer of [length] bytes. *)

From S2P Require Import Array UtilString Streams Prelude Bits.

Module NetworkAddress.

Inductive Type_ := MAC | IP4 | IP4_PORT | IP4_SUBNET.

Record NetworkAddress := mk { buffer : list Z; length : Z; type : Type_ }.

(** [new uint8_t[length]] and [setRange(0, length)] *)
Definition NetworkAddress_new (length : Z) (type : Type_) : NetworkAddress := mk (replicate (Z.to_nat length) 0) length type.

Definition setAddress (source : list Z) (a : NetworkAddress) : outcome NetworkAddress :=
  b ← copy_chars (buffer a) 0 source 0 (length a); Ok (mk b (length a) (type a)).

Definition NetworkAddress_buffer (buffer : list Z) (length : Z) (type : Type_) : outcome NetworkAddress :=
  setAddress buffer (NetworkAddress_new length type).

Definition NetworkAddress_copy (other : NetworkAddress) : outcome NetworkAddress :=
  setAddress (buffer other) (NetworkAddress_new (length other) (type other)).

(** The buffer is not allocated again: a longer address does not fit. *)
Definition assign (other a : NetworkAddress) : outcome NetworkAddress :=
  setAddress (buffer other) (mk (buffer a) (length other) (type other)).

(** [compareRange] on two buffers: 0, or the difference of the first bytes that differ. *)
Definition compareRange (first second : list Z) (length : Z) : outcome Z :=
  '(r, _) ← for_find (Z.to_nat length) 0 (fun i (_ : unit) =>
    x ← aget first i; y ← aget second i; Ok (if x =? y then None else Some (x - y), tt)) tt;
  Ok (default 0 r).

Definition equals (a other : NetworkAddress) : outcome bool :=
  if negb (length a =? length other) then Ok false
  else r ← compareRange (buffer a) (buffer other) (length a); Ok (r =? 0).

Definition notEquals (a other : NetworkAddress) : outcome bool := b ← equals a other; Ok (negb b).

Definition getAddress (target : list Z) (a : NetworkAddress) : outcome (list Z) :=
  copy_chars target 0 (buffer a) 0 (length a).

Definition getLength (a : NetworkAddress) : Z := length a.
Definition getType (a : NetworkAddress) : Type_ := type a.

(** The number of the first bit in which the addresses differ, where the bits of a byte are
    counted from the lowest one; the loops end with [i] the longer length and [j = 8]. *)
Definition compareTo (a other : NetworkAddress) : outcome Z :=
  let n := Z.max (length a) (length other) in
  '(r, _) ← for_find (Z.to_nat n) 0 (fun i (_ : unit) =>
    for_find 8 0 (fun j (_ : unit) =>
      x ← aget (buffer a) i;
      y ← aget (buffer other) i;
      let first := Z.land (x ≫ j) 1 in
      let second := Z.land (y ≫ j) 1 in
      Ok (if negb (first =? second) then Some (u8 (i * 8 + j)) else None, tt)) tt) tt;
  Ok (default (u8 (n * 8 + 8)) r).

Section Streams.
Context {St : Type}.

(** What was not read stays as it was. *)
Definition read `{InputStream St} (a : NetworkAddress) (s : St) : outcome (NetworkAddress * St) :=
  '(_, b, s) ← readBytes (buffer a) 0 (length a) s; Ok (mk b (length a) (type a), s).

Definition write `{OutputStream St} (a : NetworkAddress) (s : St) : outcome St := writeBytes (buffer a) 0 (length a) s.
End Streams.

(** *** [MacAddress] *)
Module MacAddress.

Definition ADDRESS_LENGTH : Z := 6.

Definition MacAddress_new : NetworkAddress := NetworkAddress_new ADDRESS_LENGTH MAC.
Definition MacAddress_buffer (buffer : list Z) : outcome NetworkAddress := NetworkAddress_buffer buffer ADDRESS_LENGTH MAC.

Definition hexByte (split : list String) (i : Z) : outcome Z :=
  e ← element split i; x ← parseHexInt_String e; Ok (u8 x).

Definition MacAddress_string (string : String) : outcome NetworkAddress :=
  split ← UtilString.split (Z.to_nat (len string)) (String_char 58) 0 string;
  b0 ← hexByte split 0; b1 ← hexByte split 1; b2 ← hexByte split 2;
  b3 ← hexByte split 3; b4 ← hexByte split 4; b5 ← hexByte split 5;
  setAddress [b0; b1; b2; b3; b4; b5] MacAddress_new.

Definition createBroadcastAddress : outcome NetworkAddress := MacAddress_buffer [255; 255; 255; 255; 255; 255].

Definition isBroadcastAddress (a : NetworkAddress) : outcome bool :=
  '(r, _) ← for_find (Z.to_nat ADDRESS_LENGTH) 0 (fun i (_ : unit) =>
    x ← aget (buffer a) i; Ok (if negb (x =? 255) then Some false else None, tt)) tt;
  Ok (default true r).
End MacAddress.

(** *** [Ip4Address] *)
Module Ip4Address.

Definition ADDRESS_LENGTH : Z := 4.

Definition Ip4Address_new : NetworkAddress := NetworkAddress_new ADDRESS_LENGTH IP4.
Definition Ip4Address_buffer (buffer : list Z) : outcome NetworkAddress := NetworkAddress_buffer buffer ADDRESS_LENGTH IP4.

Definition decByte (split : list String) (i : Z) : outcome Z :=
  e ← element split i; x ← parseInt_String e; Ok (u8 x).

Definition Ip4Address_string (string : String) : outcome NetworkAddress :=
  split ← UtilString.split (Z.to_nat (len string)) (String_char 46) 0 string;
  b0 ← decByte split 0; b1 ← decByte split 1; b2 ← decByte split 2; b3 ← decByte split 3;
  setAddress [b0; b1; b2; b3] Ip4Address_new.

(** [Ip4Address("0.0.0.0")], see [ANY_string]. *)
Definition ANY : NetworkAddress := mk [0; 0; 0; 0] 4 IP4.

Definition createBroadcastAddress : outcome NetworkAddress := Ip4Address_buffer [255; 255; 255; 255].

Definition isBroadcastAddress (a : NetworkAddress) : outcome bool :=
  '(r, _) ← for_find (Z.to_nat ADDRESS_LENGTH) 0 (fun i (_ : unit) =>
    x ← aget (buffer a) i; Ok (if negb (x =? 255) then Some false else None, tt)) tt;
  Ok (default true r).

Example ANY_string : Ip4Address_string (mkString [48; 46; 48; 46; 48; 46; 48; 0] 7) = Ok ANY.
Proof. reflexivity. Qed.
End Ip4Address.

(** *** [Ip4SubnetAddress] *)
Module Ip4SubnetAddress.
Import Ip4Address.

Definition ADDRESS_LENGTH : Z := 5.

Definition Ip4SubnetAddress_buffer (buffer : list Z) : outcome NetworkAddress := NetworkAddress_buffer buffer ADDRESS_LENGTH IP4_SUBNET.

(** [setByte(bitCount, 4)] behind the four bytes of the address. *)
Definition Ip4SubnetAddress_count (address : NetworkAddress) (bitCount : Z) : outcome NetworkAddress :=
  addressBuffer ← getAddress (new_chars Ip4Address.ADDRESS_LENGTH) address;
  let a := NetworkAddress_new ADDRESS_LENGTH IP4_SUBNET in
  b ← copy_chars (buffer a) 0 addressBuffer 0 Ip4Address.ADDRESS_LENGTH;
  b ← aset b Ip4Address.ADDRESS_LENGTH bitCount;
  Ok (mk b (length a) (type a)).

Definition Ip4SubnetAddress_address (address : NetworkAddress) : outcome NetworkAddress := Ip4SubnetAddress_count address 32.
Definition Ip4SubnetAddress_bits (bitCount : Z) : outcome NetworkAddress := Ip4SubnetAddress_count ANY bitCount.
Definition Ip4SubnetAddress_new : outcome NetworkAddress := Ip4SubnetAddress_bits 32.

Definition Ip4SubnetAddress_string (string : String) : outcome NetworkAddress :=
  slash ← beginsWith (String_char 47) string;
  '(ip4Address, bitCount) ← (
    if (slash : bool) then
      rest ← substring_from 1 string;
      n ← parseInt_String rest; Ok (Ip4Address_new, u8 n)
    else
      split ← UtilString.split (Z.to_nat (len string)) (String_char 47) 0 string;
      e ← element split 0;
      ip4Address ← Ip4Address_string e;
      if 1 <? zlen split then e ← element split 1; n ← parseInt_String e; Ok (ip4Address, u8 n)
      else Ok (ip4Address, 32));
  let a := NetworkAddress_new ADDRESS_LENGTH IP4_SUBNET in
  b ← getAddress (buffer a) ip4Address;
  b ← aset b Ip4Address.ADDRESS_LENGTH bitCount;
  Ok (mk b (length a) (type a)).

Definition getIp4Address (a : NetworkAddress) : outcome NetworkAddress := Ip4Address_buffer (buffer a).
Definition getBitCount (a : NetworkAddress) : outcome Z := aget (buffer a) Ip4Address.ADDRESS_LENGTH.

(** Byte [i] of [base] in memory. *)
Definition mask_byte (base i : Z) : Z := Z.land (base ≫ (8 * i)) 255.

(** [0xffffffff >> n]; a count outside of the width of the type is undefined. *)
Definition shift_ones (n : Z) : outcome Z := if (0 <=? n) && (n <? 32) then Ok (UINT32_MAX ≫ n) else Fault.

Definition mask_loop (op : Z -> Z -> Z) (base : Z) (addressBuffer : list Z) : outcome (list Z) :=
  for_up (Z.to_nat Ip4Address.ADDRESS_LENGTH) 0 (fun i b => x ← aget b i; aset b i (op x (mask_byte base i))) addressBuffer.

Definition getSubnetAddress (a : NetworkAddress) : outcome NetworkAddress :=
  bitCount ← getBitCount a;
  base ← (if bitCount =? 0 then Ok 0 else shift_ones (32 - bitCount));
  ip ← getIp4Address a;
  addressBuffer ← getAddress (new_chars (Ip4Address.ADDRESS_LENGTH + 1)) ip;
  addressBuffer ← mask_loop Z.land base addressBuffer;
  addressBuffer ← aset addressBuffer Ip4Address.ADDRESS_LENGTH bitCount;
  Ip4SubnetAddress_buffer addressBuffer.

Definition getBroadcastAddress (a : NetworkAddress) : outcome NetworkAddress :=
  bitCount ← getBitCount a;
  base ← shift_ones (32 - bitCount);
  ip ← getIp4Address a;
  addressBuffer ← getAddress (new_chars Ip4Address.ADDRESS_LENGTH) ip;
  addressBuffer ← mask_loop Z.lor base addressBuffer;
  Ip4Address_buffer addressBuffer.
End Ip4SubnetAddress.

(** *** [Ip4PortAddress]: the port is stored in the byte order of the processor *)
Module Ip4PortAddress.
Import Ip4Address.

Definition ADDRESS_LENGTH : Z := 6.

Definition Ip4PortAddress_new : NetworkAddress := NetworkAddress_new ADDRESS_LENGTH IP4_PORT.
Definition Ip4PortAddress_buffer (buffer : list Z) : outcome NetworkAddress := NetworkAddress_buffer buffer ADDRESS_LENGTH IP4_PORT.

(** [setShort(port, 4)] and [getShort(4)] *)
Definition set_short (b : list Z) (port : Z) : outcome (list Z) :=
  b ← aset b Ip4Address.ADDRESS_LENGTH (Z.land port 255); aset b (Ip4Address.ADDRESS_LENGTH + 1) (Z.land (port ≫ 8) 255).

Definition getPort (a : NetworkAddress) : outcome Z :=
  lo ← aget (buffer a) Ip4Address.ADDRESS_LENGTH; hi ← aget (buffer a) (Ip4Address.ADDRESS_LENGTH + 1); Ok (Z.lor lo (hi ≪ 8)).

Definition setPort (port : Z) (a : NetworkAddress) : outcome NetworkAddress :=
  b ← set_short (buffer a) port; Ok (mk b (length a) (type a)).

Definition Ip4PortAddress_port (address : NetworkAddress) (port : Z) : outcome NetworkAddress :=
  addressBuffer ← getAddress (new_chars Ip4Address.ADDRESS_LENGTH) address;
  let a := NetworkAddress_new (Ip4Address.ADDRESS_LENGTH + 2) IP4_PORT in
  b ← copy_chars (buffer a) 0 addressBuffer 0 Ip4Address.ADDRESS_LENGTH;
  b ← set_short b port;
  Ok (mk b (length a) (type a)).

Definition Ip4PortAddress_address (address : NetworkAddress) : outcome NetworkAddress := Ip4PortAddress_port address 0.
Definition Ip4PortAddress_any (port : Z) : outcome NetworkAddress := Ip4PortAddress_port ANY port.

Definition Ip4PortAddress_string (string : String) : outcome NetworkAddress :=
  colon ← beginsWith (String_char 58) string;
  '(ip4Address, port) ← (
    if (colon : bool) then
      rest ← substring_from 1 string;
      n ← parseInt_String rest; Ok (Ip4Address_new, u16 n)
    else
      split ← UtilString.split (Z.to_nat (len string)) (String_char 58) 0 string;
      e ← element split 0;
      ip4Address ← Ip4Address_string e;
      if 1 <? zlen split then e ← element split 1; n ← parseInt_String e; Ok (ip4Address, u16 n)
      else Ok (ip4Address, 0));
  let a := NetworkAddress_new ADDRESS_LENGTH IP4_PORT in
  b ← getAddress (buffer a) ip4Address;
  b ← set_short b port;
  Ok (mk b (length a) (type a)).

Definition getIp4Address (a : NetworkAddress) : outcome NetworkAddress := Ip4Address_buffer (buffer a).
End Ip4PortAddress.

(** ** Facts about addresses *)

(** An address whose buffer has the size that its length says. *)
Definition wf (a : NetworkAddress) : Prop := zlen (buffer a) = length a /\ Forall (in_u 8) (buffer a) /\ length a < 256.

Definition is_mac (a : NetworkAddress) : Prop := wf a /\ length a = 6.
Definition is_ip4 (a : NetworkAddress) : Prop := wf a /\ length a = 4.

Lemma compareRange_ok first second n :
  zlen first = n -> zlen second = n -> exists r, compareRange first second n = Ok r /\ (r =? 0) = bool_decide (first = second).
Proof.
  intros Hf Hs. unfold compareRange.
  assert (H0 := zlen_nonneg first).
  destruct (for_find_inv (fun i (_ : unit) => ztake i first = ztake i second) (fun r (_ : unit) => r <> 0 /\ first <> second)
    (fun i (_ : unit) => x ← aget first i; y ← aget second i; Ok (if x =? y then None else Some (x - y), tt)) (Z.to_nat n) 0 tt)
    as (r & [] & E & Hr).
  - done.
  - intros i [] Hi Heq. destruct (aget_in first i) as (x & -> & Hx); [lia|]. mcbn.
    destruct (aget_in second i) as (y & -> & Hy); [lia|]. mcbn. eexists _, _. split; [done|].
    destruct (Z.eqb_spec x y) as [->|Hne].
    + unfold ztake in *. replace (Z.to_nat (i + 1)) with (S (Z.to_nat i)) by lia.
      rewrite (take_S_r _ _ _ Hx), (take_S_r _ _ _ Hy), Heq. done.
    + split; [lia|]. intros ->. congruence.
  - rewrite E. mcbn. eexists. split; [done|]. destruct r as [r|]; cbn [default].
    + destruct Hr as [Hr Hne]. rewrite bool_decide_false by done. by apply Z.eqb_neq.
    + rewrite Z.add_0_l, Z2Nat.id in Hr by lia. unfold ztake, zlen in *. rewrite !take_ge in Hr by lia.
      by rewrite bool_decide_true.
Qed.

Lemma addr_equals_ok a b : wf a -> wf b -> equals a b = Ok (bool_decide (buffer a = buffer b)).
Proof.
  intros (Ha & _ & _) (Hb & _ & _). unfold equals. destruct (Z.eqb_spec (length a) (length b)) as [E|E]; cbn [negb].
  - destruct (compareRange_ok (buffer a) (buffer b) (length a)) as (r & -> & Hr); [done|congruence|]. mcbn. by rewrite Hr.
  - rewrite bool_decide_false; [done|]. intros Hbuf. apply E. rewrite <- Ha, <- Hb, Hbuf. done.
Qed.

(** Copying an address into a buffer of its size. *)
Lemma copy_all source n target :
  zlen source = n -> zlen target = n -> copy_chars target 0 source 0 n = Ok source.
Proof.
  intros Hs Ht. pose proof (zlen_nonneg source). rewrite copy_chars_ok by lia. change (Z.to_nat 0) with 0%nat. rewrite take_0, app_nil_l, drop_0.
  unfold zlen in *. rewrite take_ge, drop_ge, app_nil_r by lia. done.
Qed.

Lemma NetworkAddress_copy_ok a : wf a -> NetworkAddress_copy a = Ok a.
Proof.
  intros (Ha & _ & _). unfold NetworkAddress_copy, setAddress. cbn. pose proof (zlen_nonneg (buffer a)).
  rewrite copy_all; [by destruct a|done|]. unfold zlen. rewrite length_replicate. lia.
Qed.

Lemma assign_ok a b : wf a -> wf b -> length a = length b -> assign b a = Ok b.
Proof.
  intros (Ha & _ & _) (Hb & _ & _) Hl. unfold assign, setAddress. cbn. rewrite copy_all; [by destruct b|done|lia].
Qed.

Lemma NetworkAddress_new_wf n t : 0 <= n < 256 -> wf (NetworkAddress_new n t).
Proof.
  intros Hn. split_and!; cbn; [unfold zlen; rewrite length_replicate; lia|apply Forall_replicate; unfold in_u; lia|lia].
Qed.

Lemma buffer_eq a b : wf a -> wf b -> type a = type b -> buffer a = buffer b -> a = b.
Proof. intros (Ha & _) (Hb & _). destruct a, b. cbn in *. intros -> ->. f_equal. congruence. Qed.

(** An IPv4 address has four bytes. *)
Lemma is_ip4_shape a : is_ip4 a -> exists w x y z, buffer a = [w; x; y; z] /\ Forall (in_u 8) [w; x; y; z].
Proof.
  intros ((Hb & Hf & _) & Hl). rewrite Hl in Hb. unfold zlen in Hb.
  destruct (buffer a) as [|w [|x [|y [|z [|? ?]]]]]; cbn in Hb; try lia. by exists w, x, y, z.
Qed.

Section Streams.
Context {St : Type}.

Lemma read_ok `{InputStreamLaws St} a s l rest :
  wf a -> 0 < length a -> in_wf s -> in_data s = l ++ rest -> zlen l = length a ->
  exists s', read a s = Ok (mk l (length a) (type a), s') /\ in_wf s' /\ in_data s' = rest.
Proof.
  intros (Ha & _ & H256) Hpos Hs Hd Hl. pose proof (zlen_nonneg rest). pose proof (zlen_app l rest) as Hlen.
  unfold read. destruct (readBytes_some s (buffer a) 0 (length a)) as (s' & -> & Hwf & Hd'); rewrite ?Hd; try (done || lia).
  { intros E. apply (f_equal zlen) in E. rewrite Hlen in E. unfold zlen in E at 3. cbn in E. lia. }
  mcbn. exists s'. rewrite Hd in *. unfold ztake, zdrop in *. unfold zlen in Hl, Ha.
  replace (Z.to_nat (length a)) with (base.length l) in * by lia. rewrite take_app_length. rewrite drop_app_length in Hd'.
  split_and!; [|done|done]. f_equal. f_equal. f_equal. unfold splice. change (Z.to_nat 0) with 0%nat. rewrite take_0, app_nil_l, Z.add_0_l.
  rewrite drop_ge, app_nil_r; [done|]. unfold zlen. lia.
Qed.

Lemma write_addr_ok `{OutputStreamLaws St} a s :
  wf a -> out_wf s -> length a <= out_room s ->
  exists s', write a s = Ok s' /\ out_wf s' /\ out_data s' = out_data s ++ buffer a /\ out_room s' = out_room s - length a.
Proof.
  intros (Ha & Hf & H256) Hs Hr. unfold write. rewrite <- Ha in *. apply writeBytes_all; (done || lia).
Qed.
End Streams.

(** *** Ports *)

Lemma land255_byte z : in_u 8 (Z.land z 255).
Proof. change 255 with (Z.ones 8). rewrite Z.land_ones by lia. apply Z.mod_pos_bound. lia. Qed.

Lemma testbit_255 i : 0 <= i -> Z.testbit 255 i = (i <? 8).
Proof. intros. change 255 with (2 ^ 8 - 1). by apply testbit_ones. Qed.

(** A 16-bit number from its two bytes. *)
Lemma join16 v : in_u 16 v -> Z.lor (Z.land v 255) (Z.land (v ≫ 8) 255 ≪ 8) = v.
Proof.
  intros Hv. apply Z.bits_inj'. intros i Hi. rewrite Z.lor_spec, testbit_shiftl, !Z.land_spec by lia.
  destruct (Z.leb_spec 8 i); cbn [andb].
  - rewrite Z.shiftr_spec, !testbit_255 by lia. destruct (Z.ltb_spec i 8); [lia|]. rewrite andb_false_r. cbn [orb].
    replace (i - 8 + 8) with i by lia. destruct (Z.ltb_spec (i - 8) 8); [apply andb_true_r|]. rewrite (testbit_high 16 v) by (done || lia). done.
  - rewrite testbit_255 by lia. destruct (Z.ltb_spec i 8); [|lia]. by rewrite andb_true_r, orb_false_r.
Qed.

Lemma port_shape a port :
  is_ip4 a -> in_u 16 port ->
  exists p, Ip4PortAddress.Ip4PortAddress_port a port = Ok p /\ buffer p = buffer a ++ [Z.land port 255; Z.land (port ≫ 8) 255] /\
    length p = 6 /\ type p = IP4_PORT /\ wf p /\ Ip4PortAddress.getPort p = Ok port /\
    Ip4PortAddress.getIp4Address p = Ok (mk (buffer a) 4 IP4).
Proof.
  intros Ha Hp. destruct (is_ip4_shape a Ha) as (w & x & y & z & E & Hf). destruct Ha as [_ Hl]. destruct a as [b l t]. cbn in *. subst b l.
  exists (mk [w; x; y; z; Z.land port 255; Z.land (port ≫ 8) 255] 6 IP4_PORT). do 4 (split; [done|]). split; [|split; [|done]].
  - split_and!; [done| |done]. change (Forall (in_u 8) ([w; x; y; z] ++ [Z.land port 255; Z.land (port ≫ 8) 255])).
    apply Forall_app. split; [done|]. repeat constructor; apply land255_byte.
  - change (Ok (Z.lor (Z.land port 255) (Z.land (port ≫ 8) 255 ≪ 8)) = Ok port). f_equal. by apply join16.
Qed.

(** *** Prefixes *)

(** Bit [k] of a sequence of bytes, where the bits of a byte are counted from the lowest. *)
Definition bit_at (l : list Z) (k : Z) : bool := Z.testbit (nth (Z.to_nat (k / 8)) l 0) (k mod 8).

(** The first bit in which two sequences differ. *)
Definition first_difference (k l : list Z) (p : Z) : Prop :=
  0 <= p /\ bit_at k p <> bit_at l p /\ forall q, 0 <= q < p -> bit_at k q = bit_at l q.

Lemma land_bit x j : 0 <= j -> Z.land (x ≫ j) 1 = Z.b2z (Z.testbit x j).
Proof.
  intros Hj. change 1 with (Z.ones 1). rewrite Z.land_ones by lia. rewrite <- Z.bit0_mod, Z.shiftr_spec by lia. by rewrite Z.add_0_l.
Qed.

Lemma byte_eq x y : in_u 8 x -> in_u 8 y -> (forall k, 0 <= k < 8 -> Z.testbit x k = Z.testbit y k) -> x = y.
Proof.
  intros Hx Hy H. apply Z.bits_inj'. intros k Hk. destruct (decide (k < 8)); [apply H; lia|].
  rewrite (testbit_high 8 x), (testbit_high 8 y) by (done || lia). done.
Qed.

Lemma bit_loop_ok a b i x y :
  aget (buffer a) i = Ok x -> aget (buffer b) i = Ok y -> in_u 8 x -> in_u 8 y -> 0 <= i < 31 ->
  exists r, for_find 8 0 (fun j (_ : unit) =>
      x ← aget (buffer a) i;
      y ← aget (buffer b) i;
      let first := Z.land (x ≫ j) 1 in
      let second := Z.land (y ≫ j) 1 in
      Ok (if negb (first =? second) then Some (u8 (i * 8 + j)) else None, tt)) tt = Ok (r, tt) /\
    match r with
    | Some p => exists j, p = i * 8 + j /\ 0 <= j < 8 /\ Z.testbit x j <> Z.testbit y j /\ forall k, 0 <= k < j -> Z.testbit x k = Z.testbit y k
    | None => x = y
    end.
Proof.
  intros Hx Hy Hbx Hby Hi.
  destruct (for_find_inv (fun j (_ : unit) => forall k, 0 <= k < j -> Z.testbit x k = Z.testbit y k)
    (fun p (_ : unit) => exists j, p = i * 8 + j /\ 0 <= j < 8 /\ Z.testbit x j <> Z.testbit y j /\ forall k, 0 <= k < j -> Z.testbit x k = Z.testbit y k)
    (fun j (_ : unit) =>
      x ← aget (buffer a) i;
      y ← aget (buffer b) i;
      let first := Z.land (x ≫ j) 1 in
      let second := Z.land (y ≫ j) 1 in
      Ok (if negb (first =? second) then Some (u8 (i * 8 + j)) else None, tt)) 8 0 tt) as (r & [] & E & Hr).
  - intros k Hk. lia.
  - intros j [] Hj Hsame. rewrite Hx. mcbn. rewrite Hy. cbn [mbind outcome_bind]. rewrite !land_bit by lia. eexists _, _. split; [done|].
    destruct (Z.eqb_spec (Z.b2z (Z.testbit x j)) (Z.b2z (Z.testbit y j))) as [Eb|Eb]; cbn [negb].
    + apply Z.b2z_inj in Eb. intros k Hk. destruct (decide (k = j)) as [->|]; [done|]. apply Hsame. lia.
    + exists j. split; [unwrap; lia|]. split; [lia|]. split; [congruence|done].
  - exists r. split; [done|]. destruct r; [done|]. apply byte_eq; [done..|]. intros k Hk. apply Hr. lia.
Qed.

Lemma ztake_bits i k l : ztake i k = ztake i l -> forall q, 0 <= q < 8 * i -> bit_at k q = bit_at l q.
Proof.
  intros H q Hq. unfold bit_at. f_equal.
  assert (Hn : forall m : list Z, nth (Z.to_nat (q / 8)) m 0 = nth (Z.to_nat (q / 8)) (ztake i m) 0).
  { intros m. unfold ztake. rewrite !nth_lookup, lookup_take_lt; [done|]. assert (q / 8 < i) by (apply Z.div_lt_upper_bound; lia).
    pose proof (Z.div_pos q 8). lia. }
  rewrite (Hn k), (Hn l), H. done.
Qed.

Lemma bit_at_byte l i j x : 0 <= i -> 0 <= j < 8 -> l !! Z.to_nat i = Some x -> bit_at l (i * 8 + j) = Z.testbit x j.
Proof.
  intros Hi Hj Hx. unfold bit_at. rewrite Z.div_add_l, Z.div_small, Z.add_0_r by lia.
  rewrite Z.add_comm, Z.mod_add, Z.mod_small by lia. f_equal. by rewrite nth_lookup, Hx.
Qed.

(** Where the addresses have the same bytes the scan goes on, past the end of the shorter one. *)
Lemma compareTo_ok a b :
  wf a -> wf b -> length a < 31 -> length b < 31 ->
  let m := Z.min (length a) (length b) in
  match decide (ztake m (buffer a) = ztake m (buffer b)) with
  | left _ => compareTo a b = if length a =? length b then Ok (u8 (m * 8 + 8)) else Fault
  | right _ => exists p, compareTo a b = Ok p /\ p < 8 * m /\ first_difference (buffer a) (buffer b) p
  end.
Proof.
  intros (Ha & Hfa & _) (Hb & Hfb & _) La Lb m. pose proof (zlen_nonneg (buffer a)). pose proof (zlen_nonneg (buffer b)).
  unfold compareTo. set (n := Z.max (length a) (length b)).
  set (body := fun i (_ : unit) => for_find 8 0 _ tt).
  assert (Hm : m = Z.min (length a) (length b)) by done. assert (Hn : n = Z.max (length a) (length b)) by done. clearbody m n.
  assert (Hbody : forall i, 0 <= i < m -> ztake i (buffer a) = ztake i (buffer b) -> exists r, body i tt = Ok (r, tt) /\
    match r with Some p => p < 8 * m /\ first_difference (buffer a) (buffer b) p | None => ztake (i + 1) (buffer a) = ztake (i + 1) (buffer b) end).
  { intros i Hi Hsame. destruct (aget_in (buffer a) i) as (x & Hx & Hlx); [lia|]. destruct (aget_in (buffer b) i) as (y & Hy & Hly); [lia|].
    destruct (bit_loop_ok a b i x y) as (r & E & Hr); [done|done|exact (Forall_lookup_1 _ _ _ _ Hfa Hlx)|exact (Forall_lookup_1 _ _ _ _ Hfb Hly)|lia|].
    exists r. split; [exact E|]. destruct r as [p|].
    - destruct Hr as (j & -> & Hj & Hne & Hlow). split; [lia|]. split; [lia|]. split.
      + rewrite (bit_at_byte _ i j x (proj1 Hi) Hj Hlx), (bit_at_byte _ i j y (proj1 Hi) Hj Hly). done.
      + intros q Hq. destruct (decide (q < 8 * i)); [by apply (ztake_bits i); [|lia]|].
        replace q with (i * 8 + (q - i * 8)) by lia.
        assert (Hj' : 0 <= q - i * 8 < 8) by lia.
        rewrite (bit_at_byte _ i _ x (proj1 Hi) Hj' Hlx), (bit_at_byte _ i _ y (proj1 Hi) Hj' Hly). apply Hlow. lia.
    - subst y. unfold ztake in *. replace (Z.to_nat (i + 1)) with (S (Z.to_nat i)) by lia.
      by rewrite (take_S_r _ _ _ Hlx), (take_S_r _ _ _ Hly), Hsame. }
  replace (Z.to_nat n) with (Z.to_nat m + Z.to_nat (n - m))%nat by lia. rewrite for_find_add.
  destruct (for_find_inv (fun i (_ : unit) => ztake i (buffer a) = ztake i (buffer b))
    (fun p (_ : unit) => p < 8 * m /\ first_difference (buffer a) (buffer b) p) body (Z.to_nat m) 0 tt) as (r & [] & E & Hr).
  - done.
  - intros i [] Hi Hs. destruct (Hbody i) as (r & ? & ?); [lia|done|]. by exists r, tt.
  - rewrite E. mcbn. rewrite Z.add_0_l, Z2Nat.id in Hr |- * by lia. destruct r as [p|].
    + destruct Hr as [Hp Hd]. case_decide as Hs; [|by exists p]. exfalso. destruct Hd as (? & Hne & _). apply Hne. apply (ztake_bits m); [done|lia].
    + case_decide; [|done].
      destruct (Z.eqb_spec (length a) (length b)) as [El|El].
      * replace (n - m) with 0 by lia. replace m with n by lia. done.
      * destruct (Z.to_nat (n - m)) as [|k] eqn:Ek; [lia|]. cbn [for_find]. unfold body. cbn [for_find].
        assert (Hout : aget (buffer a) m = Fault \/ exists x, aget (buffer a) m = Ok x /\ aget (buffer b) m = Fault).
        { destruct (decide (length a <= m)).
          - left. unfold aget. destruct (Z.ltb_spec m 0); [lia|]. rewrite lookup_ge_None_2; [done|]. unfold zlen in Ha. lia.
          - right. destruct (aget_in (buffer a) m) as (x & Hx & _); [lia|]. exists x. split; [done|].
            unfold aget. destruct (Z.ltb_spec m 0); [lia|]. rewrite lookup_ge_None_2; [done|]. unfold zlen in Hb. lia. }
        destruct Hout as [->|(x & -> & ->)]; done.
Qed.

(** *** Subnets *)

(** Byte [i] of the network mask of [n] bits, in the order the standards give: the highest bits first. *)
Definition network_mask (n i : Z) : Z := let k := Z.max 0 (Z.min 8 (n - 8 * i)) in 256 - 2 ^ (8 - k).

(** The mask of the code for [n] bits. *)
Definition code_mask (n i : Z) : Z := Ip4SubnetAddress.mask_byte (2 ^ n - 1) i.

Lemma masks_agree :
  forallb (fun n => Bool.eqb (forallb (fun i => code_mask n i =? network_mask n i) [0; 1; 2; 3]) (n mod 8 =? 0))
    (Z.of_nat <$> seq 0 33) = true.
Proof. vm_compute. reflexivity. Qed.

Lemma code_mask_ok n i : 0 <= n <= 32 -> n mod 8 = 0 -> 0 <= i < 4 -> code_mask n i = network_mask n i.
Proof.
  intros Hn Hm Hi. pose proof (Z.div_mod n 8).
  assert (n = 0 \/ n = 8 \/ n = 16 \/ n = 24 \/ n = 32) as Hcase by lia.
  assert (i = 0 \/ i = 1 \/ i = 2 \/ i = 3) as Hi' by lia.
  destruct Hcase as [->|[->|[->|[->| ->]]]], Hi' as [->|[->|[->| ->]]]; reflexivity.
Qed.

Lemma shift_ones_ok n : 0 < n <= 32 -> Ip4SubnetAddress.shift_ones (32 - n) = Ok (2 ^ n - 1).
Proof.
  intros Hn. unfold Ip4SubnetAddress.shift_ones. destruct (Z.leb_spec 0 (32 - n)); [|lia]. destruct (Z.ltb_spec (32 - n) 32); [|lia].
  cbn [andb]. f_equal. change UINT32_MAX with (2 ^ 32 - 1). apply Z.bits_inj'. intros i Hi.
  rewrite Z.shiftr_spec, !testbit_ones by lia. destruct (Z.ltb_spec (i + (32 - n)) 32), (Z.ltb_spec i n); (done || lia).
Qed.

Lemma getSubnetAddress_ok w x y z n t :
  0 <= n <= 32 ->
  Ip4SubnetAddress.getSubnetAddress (mk [w; x; y; z; n] 5 t) =
  Ok (mk [Z.land w (code_mask n 0); Z.land x (code_mask n 1); Z.land y (code_mask n 2); Z.land z (code_mask n 3); n] 5 IP4_SUBNET).
Proof.
  intros Hn. unfold Ip4SubnetAddress.getSubnetAddress. change (Ip4SubnetAddress.getBitCount _) with (Ok n). mcbn.
  destruct (Z.eqb_spec n 0) as [->|Hn0]; [reflexivity|]. rewrite shift_ones_ok by lia. reflexivity.
Qed.

Lemma getBroadcastAddress_ok w x y z n t :
  0 < n <= 32 ->
  Ip4SubnetAddress.getBroadcastAddress (mk [w; x; y; z; n] 5 t) =
  Ok (mk [Z.lor w (code_mask n 0); Z.lor x (code_mask n 1); Z.lor y (code_mask n 2); Z.lor z (code_mask n 3)] 4 IP4).
Proof.
  intros Hn. unfold Ip4SubnetAddress.getBroadcastAddress. change (Ip4SubnetAddress.getBitCount _) with (Ok n). mcbn.
  rewrite shift_ones_ok by lia. reflexivity.
Qed.

Lemma lor_255 x : in_u 8 x -> Z.lor x 255 = 255.
Proof.
  intros Hx. apply Z.bits_inj'. intros i Hi. rewrite Z.lor_spec, testbit_255 by lia. destruct (Z.ltb_spec i 8); [apply orb_true_r|].
  by rewrite (testbit_high 8 x) by (done || lia).
Qed.

(** GetSubnetAddress gives the network address only for prefixes of whole
    bytes, and getBroadcastAddress sets the bits of the network instead of
    those of the host. *)
Theorem subnet_addresses w x y z n t :
  Forall (in_u 8) [w; x; y; z] ->
  (0 <= n <= 32 -> n mod 8 = 0 ->
    Ip4SubnetAddress.getSubnetAddress (mk [w; x; y; z; n] 5 t) =
    Ok (mk [Z.land w (network_mask n 0); Z.land x (network_mask n 1); Z.land y (network_mask n 2); Z.land z (network_mask n 3); n] 5 IP4_SUBNET)) /\
  Ip4SubnetAddress.getSubnetAddress (mk [10; 1; 255; 7; 20] 5 t) = Ok (mk [10; 1; 15; 0; 20] 5 IP4_SUBNET) /\
  Ip4SubnetAddress.getBroadcastAddress (mk [w; x; y; z; 24] 5 t) = Ok (mk [255; 255; 255; z] 4 IP4).
Proof.
  intros Hf. split_and!.
  - intros Hn Hm. rewrite getSubnetAddress_ok by done. by rewrite !code_mask_ok by (done || lia).
  - reflexivity.
  - rewrite getBroadcastAddress_ok by lia. change (code_mask 24 0) with 255. change (code_mask 24 1) with 255. change (code_mask 24 2) with 255.
    change (code_mask 24 3) with 0. inversion Hf as [|? ? Hw Hf1]; subst. inversion Hf1 as [|? ? Hx Hf2]; subst. inversion Hf2 as [|? ? Hy Hf3]; subst.
    rewrite !lor_255, Z.lor_0_r by done. done.
Qed.

Lemma subnet_addresses_witness :
  Ip4SubnetAddress.getSubnetAddress (mk [192; 168; 1; 5; 24] 5 IP4_SUBNET) = Ok (mk [192; 168; 1; 0; 24] 5 IP4_SUBNET) /\
  Ip4SubnetAddress.getBroadcastAddress (mk [192; 168; 1; 5; 24] 5 IP4_SUBNET) = Ok (mk [255; 255; 255; 5] 4 IP4).
Proof.
  destruct (subnet_addresses 192 168 1 5 24 IP4_SUBNET) as (H1 & _ & H2); [repeat constructor; unfold in_u; lia|].
  split; [rewrite H1 by (lia || reflexivity); reflexivity|exact H2].
Defined.

End NetworkAddress.
