(* ===== verification/Headers.v ===== *)
(** * Headers.v: packet headers

    [NumberUtil] of [lib/util/network], the headers of Ethernet, IPv4, ICMP and UDP there, and
    [ArpHeader] and [Ip4PseudoHeader] of [kernel/network]. Reading and writing is defined and proved for
    every stream with the laws of [Streams.v]. The enumerations of the headers have a fixed
    underlying type, so that a field can hold any number of that type. *)

From S2P Require Import UtilString Streams NetworkAddress Prelude Bits.
Import NetworkAddress.

(** ** [NumberUtil] *)
Module NumberUtil.
Section Read.
Context `{IS : InputStream St}.

Definition read8BitValue (s : St) : outcome (Z * St) := '(c, s) ← Streams.read s; Ok (s8 c, s).
Definition readUnsigned8BitValue (s : St) : outcome (Z * St) := '(c, s) ← Streams.read s; Ok (u8 c, s).

(** The operands of [|], which read from the stream, are evaluated from left to right here and in [read32BitValue]; C++
    leaves their order open, and with another one the bytes would be swapped. *)
Definition read16BitValue (s : St) : outcome (Z * St) :=
  '(a, s) ← Streams.read s; '(b, s) ← Streams.read s; Ok (s16 (Z.lor (a ≪ 8) b), s).
Definition readUnsigned16BitValue (s : St) : outcome (Z * St) := '(v, s) ← read16BitValue s; Ok (u16 v, s).

Definition read32BitValue (s : St) : outcome (Z * St) :=
  '(a, s) ← Streams.read s; '(b, s) ← Streams.read s; '(c, s) ← Streams.read s; '(d, s) ← Streams.read s;
  Ok (Z.lor (Z.lor (Z.lor (s32 (a ≪ 24)) (b ≪ 16)) (c ≪ 8)) d, s).
Definition readUnsigned32BitValue (s : St) : outcome (Z * St) := '(v, s) ← read32BitValue s; Ok (u32 v, s).
End Read.

Section Write.
Context `{OS : OutputStream St}.

Definition write8BitValue (value : Z) (s : St) : outcome St := Streams.write (u8 value) s.
Definition writeUnsigned8BitValue (value : Z) (s : St) : outcome St := Streams.write value s.

Definition write16BitValue (value : Z) (s : St) : outcome St := s ← Streams.write (u8 (value ≫ 8)) s; Streams.write (u8 value) s.
Definition writeUnsigned16BitValue (value : Z) (s : St) : outcome St := write16BitValue (s16 value) s.

Definition write32BitValue (value : Z) (s : St) : outcome St :=
  s ← Streams.write (u8 (value ≫ 24)) s; s ← Streams.write (u8 (value ≫ 16)) s; s ← Streams.write (u8 (value ≫ 8)) s; Streams.write (u8 value) s.
Definition writeUnsigned32BitValue (value : Z) (s : St) : outcome St := write32BitValue (s32 value) s.
End Write.
End NumberUtil.
Import NumberUtil.

(** ** [EthernetHeader] *)
Module EthernetHeader.

Definition IP4 : Z := 2048.
Definition ARP : Z := 2054.
Definition IP6 : Z := 34525.
Definition HEADER_LENGTH : Z := 14.

Record EthernetHeader := mk { destinationAddress : NetworkAddress; sourceAddress : NetworkAddress; etherType : Z }.

Definition EthernetHeader_new : EthernetHeader := mk MacAddress.MacAddress_new MacAddress.MacAddress_new 0.

Definition read `{InputStream St} (h : EthernetHeader) (s : St) : outcome (EthernetHeader * St) :=
  '(d, s) ← NetworkAddress.read (destinationAddress h) s;
  '(src, s) ← NetworkAddress.read (sourceAddress h) s;
  '(t, s) ← readUnsigned16BitValue s;
  Ok (mk d src t, s).

Definition write `{OutputStream St} (h : EthernetHeader) (s : St) : outcome St :=
  s ← NetworkAddress.write (destinationAddress h) s;
  s ← NetworkAddress.write (sourceAddress h) s;
  writeUnsigned16BitValue (etherType h) s.

Definition getDestinationAddress (h : EthernetHeader) : NetworkAddress := destinationAddress h.
Definition getSourceAddress (h : EthernetHeader) : NetworkAddress := sourceAddress h.
Definition getEtherType (h : EthernetHeader) : Z := etherType h.
Definition setDestinationAddress (address : NetworkAddress) (h : EthernetHeader) : outcome EthernetHeader :=
  d ← assign address (destinationAddress h); Ok (mk d (sourceAddress h) (etherType h)).
Definition setSourceAddress (address : NetworkAddress) (h : EthernetHeader) : outcome EthernetHeader :=
  src ← assign address (sourceAddress h); Ok (mk (destinationAddress h) src (etherType h)).
Definition setEtherType (type : Z) (h : EthernetHeader) : EthernetHeader := mk (destinationAddress h) (sourceAddress h) type.
End EthernetHeader.

(** ** [Ip4Header] *)
Module Ip4Header.

Definition ICMP : Z := 1.
Definition TCP : Z := 6.
Definition UDP : Z := 17.
Definition CHECKSUM_OFFSET : Z := 10.
Definition MIN_HEADER_LENGTH : Z := 20.

Record Ip4Header := mk {
  version : Z; headerLength : Z; payloadLength : Z; timeToLive : Z; protocol : Z;
  sourceAddress : NetworkAddress; destinationAddress : NetworkAddress
}.

Definition Ip4Header_new : Ip4Header := mk 4 MIN_HEADER_LENGTH 0 64 0 Ip4Address.Ip4Address_new Ip4Address.Ip4Address_new.

(** [stream.read()] whose result is dropped, [n] times. *)
Fixpoint discard `{InputStream St} (n : nat) (s : St) : outcome St :=
  match n with O => Ok s | S n => '(_, s) ← Streams.read s; discard n s end.

Definition read `{InputStream St} (h : Ip4Header) (s : St) : outcome (Ip4Header * St) :=
  '(versionAndLength, s) ← readUnsigned8BitValue s;
  let version := versionAndLength ≫ 4 in
  let headerLength := u8 (Z.land versionAndLength 15 * 4) in
  s ← discard 1 s;
  '(totalLength, s) ← readUnsigned16BitValue s;
  let payloadLength := u16 (totalLength - headerLength) in
  s ← discard 4 s;
  '(timeToLive, s) ← readUnsigned8BitValue s;
  '(protocol, s) ← readUnsigned8BitValue s;
  s ← discard 2 s;
  '(source, s) ← NetworkAddress.read (sourceAddress h) s;
  '(destination, s) ← NetworkAddress.read (destinationAddress h) s;
  s ← discard (Z.to_nat (headerLength - MIN_HEADER_LENGTH)) s;
  Ok (mk version headerLength payloadLength timeToLive protocol source destination, s).

Definition write `{OutputStream St} (h : Ip4Header) (s : St) : outcome St :=
  s ← writeUnsigned8BitValue (u8 (Z.lor (version h ≪ 4) (MIN_HEADER_LENGTH / 4))) s;
  s ← writeUnsigned8BitValue 0 s;
  s ← writeUnsigned16BitValue (u16 (headerLength h + payloadLength h)) s;
  s ← writeUnsigned32BitValue 0 s;
  s ← writeUnsigned8BitValue (timeToLive h) s;
  s ← writeUnsigned8BitValue (protocol h) s;
  s ← writeUnsigned16BitValue 0 s;
  s ← NetworkAddress.write (sourceAddress h) s;
  NetworkAddress.write (destinationAddress h) s.

Definition getVersion (h : Ip4Header) : Z := version h.
Definition getPayloadLength (h : Ip4Header) : Z := payloadLength h.
Definition getTimeToLive (h : Ip4Header) : Z := timeToLive h.
Definition getProtocol (h : Ip4Header) : Z := protocol h.
Definition getSourceAddress (h : Ip4Header) : NetworkAddress := sourceAddress h.
Definition getDestinationAddress (h : Ip4Header) : NetworkAddress := destinationAddress h.
Definition getHeaderLength (h : Ip4Header) : Z := headerLength h.

Definition setPayloadLength (v : Z) (h : Ip4Header) : Ip4Header :=
  mk (version h) (headerLength h) v (timeToLive h) (protocol h) (sourceAddress h) (destinationAddress h).
Definition setTimeToLive (v : Z) (h : Ip4Header) : Ip4Header :=
  mk (version h) (headerLength h) (payloadLength h) v (protocol h) (sourceAddress h) (destinationAddress h).
Definition setProtocol (v : Z) (h : Ip4Header) : Ip4Header :=
  mk (version h) (headerLength h) (payloadLength h) (timeToLive h) v (sourceAddress h) (destinationAddress h).
Definition setSourceAddress (address : NetworkAddress) (h : Ip4Header) : outcome Ip4Header :=
  a ← assign address (sourceAddress h);
  Ok (mk (version h) (headerLength h) (payloadLength h) (timeToLive h) (protocol h) a (destinationAddress h)).
Definition setDestinationAddress (address : NetworkAddress) (h : Ip4Header) : outcome Ip4Header :=
  a ← assign address (destinationAddress h);
  Ok (mk (version h) (headerLength h) (payloadLength h) (timeToLive h) (protocol h) (sourceAddress h) a).
End Ip4Header.

(** ** [UdpHeader] *)
Module UdpHeader.

Definition HEADER_SIZE : Z := 8.

Record UdpHeader := mk { sourcePort : Z; destinationPort : Z; datagramLength : Z; checksum : Z }.

Definition UdpHeader_new : UdpHeader := mk 0 0 0 0.

Definition read `{InputStream St} (s : St) : outcome (UdpHeader * St) :=
  '(a, s) ← readUnsigned16BitValue s;
  '(b, s) ← readUnsigned16BitValue s;
  '(c, s) ← readUnsigned16BitValue s;
  '(d, s) ← readUnsigned16BitValue s;
  Ok (mk a b c d, s).

Definition write `{OutputStream St} (h : UdpHeader) (s : St) : outcome St :=
  s ← writeUnsigned16BitValue (sourcePort h) s;
  s ← writeUnsigned16BitValue (destinationPort h) s;
  s ← writeUnsigned16BitValue (datagramLength h) s;
  writeUnsigned16BitValue (checksum h) s.

Definition getSourcePort (h : UdpHeader) : Z := sourcePort h.
Definition getDestinationPort (h : UdpHeader) : Z := destinationPort h.
Definition getDatagramLength (h : UdpHeader) : Z := datagramLength h.
Definition getChecksum (h : UdpHeader) : Z := checksum h.
Definition setSourcePort (v : Z) (h : UdpHeader) : UdpHeader := mk v (destinationPort h) (datagramLength h) (checksum h).
Definition setDestinationPort (v : Z) (h : UdpHeader) : UdpHeader := mk (sourcePort h) v (datagramLength h) (checksum h).
Definition setDatagramLength (v : Z) (h : UdpHeader) : UdpHeader := mk (sourcePort h) (destinationPort h) v (checksum h).
End UdpHeader.

(** ** [IcmpHeader] and [EchoHeader] *)
Module IcmpHeader.

Definition ECHO_REPLY : Z := 0.
Definition ECHO_REQUEST : Z := 8.
Definition CHECKSUM_OFFSET : Z := 2.
Definition HEADER_LENGTH : Z := 4.

Record IcmpHeader := mk { type : Z; code : Z; checksum : Z }.

Definition IcmpHeader_new : IcmpHeader := mk 0 0 0.

Definition read `{InputStream St} (s : St) : outcome (IcmpHeader * St) :=
  '(t, s) ← readUnsigned8BitValue s;
  '(c, s) ← readUnsigned8BitValue s;
  '(k, s) ← readUnsigned16BitValue s;
  Ok (mk t c k, s).

Definition write `{OutputStream St} (h : IcmpHeader) (s : St) : outcome St :=
  s ← writeUnsigned8BitValue (type h) s;
  s ← writeUnsigned8BitValue (code h) s;
  writeUnsigned16BitValue (checksum h) s.

Definition getType (h : IcmpHeader) : Z := type h.
Definition getCode (h : IcmpHeader) : Z := code h.
Definition getChecksum (h : IcmpHeader) : Z := checksum h.
Definition setType (v : Z) (h : IcmpHeader) : IcmpHeader := mk v (code h) (checksum h).
Definition setCode (v : Z) (h : IcmpHeader) : IcmpHeader := mk (type h) v (checksum h).
End IcmpHeader.

Module EchoHeader.

Definition HEADER_LENGTH : Z := 4.

Record EchoHeader := mk { identifier : Z; sequenceNumber : Z }.

Definition EchoHeader_new : EchoHeader := mk 0 0.

Definition read `{InputStream St} (s : St) : outcome (EchoHeader * St) :=
  '(i, s) ← readUnsigned16BitValue s;
  '(n, s) ← readUnsigned16BitValue s;
  Ok (mk i n, s).

Definition write `{OutputStream St} (h : EchoHeader) (s : St) : outcome St :=
  s ← writeUnsigned16BitValue (identifier h) s;
  writeUnsigned16BitValue (sequenceNumber h) s.

Definition getIdentifier (h : EchoHeader) : Z := identifier h.
Definition getSequenceNumber (h : EchoHeader) : Z := sequenceNumber h.
Definition setIdentifier (v : Z) (h : EchoHeader) : EchoHeader := mk v (sequenceNumber h).
Definition setSequenceNumber (v : Z) (h : EchoHeader) : EchoHeader := mk (identifier h) v.
End EchoHeader.

(** ** [ArpHeader] *)
Module ArpHeader.

Definition ETHERNET : Z := 1.
Definition IP4 : Z := 2048.
Definition REQUEST : Z := 1.
Definition REPLY : Z := 2.

Record ArpHeader := mk {
  hardwareAddressType : Z; hardwareAddressSize : Z; protocolAddressType : Z; protocolAddressSize : Z; operation : Z
}.

Definition ArpHeader_new : ArpHeader := mk ETHERNET MacAddress.ADDRESS_LENGTH IP4 Ip4Address.ADDRESS_LENGTH 0.

Definition read `{InputStream St} (s : St) : outcome (ArpHeader * St) :=
  '(ht, s) ← readUnsigned16BitValue s;
  '(pt, s) ← readUnsigned16BitValue s;
  '(hs, s) ← readUnsigned8BitValue s;
  '(ps, s) ← readUnsigned8BitValue s;
  '(o, s) ← readUnsigned16BitValue s;
  Ok (mk ht hs pt ps o, s).

Definition write `{OutputStream St} (h : ArpHeader) (s : St) : outcome St :=
  s ← writeUnsigned16BitValue (hardwareAddressType h) s;
  s ← writeUnsigned16BitValue (protocolAddressType h) s;
  s ← writeUnsigned8BitValue (hardwareAddressSize h) s;
  s ← writeUnsigned8BitValue (protocolAddressSize h) s;
  writeUnsigned16BitValue (operation h) s.

Definition getHardwareAddressType (h : ArpHeader) : Z := hardwareAddressType h.
Definition getHardwareAddressSize (h : ArpHeader) : Z := hardwareAddressSize h.
Definition getProtocolAddressType (h : ArpHeader) : Z := protocolAddressType h.
Definition getProtocolAddressSize (h : ArpHeader) : Z := protocolAddressSize h.
Definition getOperation (h : ArpHeader) : Z := operation h.
Definition setOperation (v : Z) (h : ArpHeader) : ArpHeader :=
  mk (hardwareAddressType h) (hardwareAddressSize h) (protocolAddressType h) (protocolAddressSize h) v.
End ArpHeader.

(** ** [Ip4PseudoHeader] *)
Module Ip4PseudoHeader.

Definition HEADER_SIZE : Z := 12.

Record Ip4PseudoHeader := mk { sourceAddress : NetworkAddress; destinationAddress : NetworkAddress; datagramLength : Z }.

Definition Ip4PseudoHeader_new (sourceAddress destinationAddress : NetworkAddress) (datagramLength : Z) : outcome Ip4PseudoHeader :=
  s ← NetworkAddress_copy sourceAddress; d ← NetworkAddress_copy destinationAddress; Ok (mk s d datagramLength).

Definition write `{OutputStream St} (h : Ip4PseudoHeader) (s : St) : outcome St :=
  s ← NetworkAddress.write (sourceAddress h) s;
  s ← NetworkAddress.write (destinationAddress h) s;
  s ← writeUnsigned16BitValue Ip4Header.UDP s;
  writeUnsigned16BitValue (datagramLength h) s.

Definition getSourceAddress (h : Ip4PseudoHeader) : NetworkAddress := sourceAddress h.
Definition getDestinationAddress (h : Ip4PseudoHeader) : NetworkAddress := destinationAddress h.
Definition getDatagramLength (h : Ip4PseudoHeader) : Z := datagramLength h.
End Ip4PseudoHeader.

(** * Wire formats *)

(** A 16-bit number in network byte order. *)
Definition be16 (v : Z) : list Z := [v / 256; v mod 256].

Lemma zlen_be16 v : zlen (be16 v) = 2.
Proof. done. Qed.

Lemma be16_bytes v : in_u 16 v -> Forall (in_u 8) (be16 v).
Proof.
  intros Hv. unfold_ints. repeat constructor; unfold in_u; [apply Z.div_pos; lia|apply Z.div_lt_upper_bound; lia|apply Z.mod_pos_bound; lia..].
Qed.

Section ReadNumbers.
Context `{ISL : InputStreamLaws St}.

Lemma u8_read s b l :
  in_wf s -> in_data s = b :: l -> exists s', readUnsigned8BitValue s = Ok (b, s') /\ in_wf s' /\ in_data s' = l.
Proof.
  intros Hs Hd. destruct (read_cons s b l Hs Hd) as (s' & E & ? & ?). exists s'. split; [|done].
  unfold readUnsigned8BitValue. rewrite E. mcbn. pose proof (in_bytes s Hs) as Hb. rewrite Hd in Hb. inversion Hb; subst. f_equal. f_equal. by apply wrap_small.
Qed.

Lemma be16_value a b : in_u 8 a -> in_u 8 b -> u16 (s16 (Z.lor (a ≪ 8) b)) = a * 256 + b.
Proof.
  intros Ha Hb. unfold u16, s16. rewrite wrap_swrap by lia. rewrite Z.lor_comm, lor_shift_add by (done || lia). unwrap. unfold_ints. lia.
Qed.

Lemma u16_read s a b l :
  in_wf s -> in_data s = a :: b :: l -> exists s', readUnsigned16BitValue s = Ok (a * 256 + b, s') /\ in_wf s' /\ in_data s' = l.
Proof.
  intros Hs Hd. pose proof (in_bytes s Hs) as Hb. rewrite Hd in Hb. apply Forall_cons in Hb as [Ha Hb]. apply Forall_cons in Hb as [Hb _].
  destruct (read_cons s a (b :: l) Hs Hd) as (s1 & E1 & Hs1 & Hd1). destruct (read_cons s1 b l Hs1 Hd1) as (s2 & E2 & ? & ?).
  exists s2. split; [|done]. unfold readUnsigned16BitValue, read16BitValue. rewrite E1. mcbn. rewrite E2. mcbn. by rewrite be16_value.
Qed.

Lemma discard_ok k s l :
  in_wf s -> in_data s = k ++ l -> exists s', Ip4Header.discard (base.length k) s = Ok s' /\ in_wf s' /\ in_data s' = l.
Proof.
  revert s. induction k as [|x k IH]; intros s Hs Hd; cbn [Ip4Header.discard base.length]; [by exists s|].
  destruct (read_cons s x (k ++ l) Hs Hd) as (s1 & -> & Hs1 & Hd1). mcbn. by apply IH.
Qed.
End ReadNumbers.

Section WriteNumbers.
Context `{OSL : OutputStreamLaws St}.

(** Writing appends [l]. *)
Definition appends (f : St -> outcome St) (l : list Z) : Prop :=
  forall s, out_wf s -> zlen l <= out_room s ->
    exists s', f s = Ok s' /\ out_wf s' /\ out_data s' = out_data s ++ l /\ out_room s' = out_room s - zlen l.

Lemma appends_seq f g k l : appends f k -> appends g l -> appends (fun s => s ← f s; g s) (k ++ l).
Proof.
  intros Hf Hg s Hs Hr. rewrite zlen_app in *. pose proof (zlen_nonneg k). pose proof (zlen_nonneg l).
  destruct (Hf s Hs) as (s1 & -> & Hs1 & Hd1 & Hr1); [lia|]. mcbn.
  destruct (Hg s1 Hs1) as (s2 & -> & Hs2 & Hd2 & Hr2); [lia|]. exists s2. split_and!; [done|done| |lia].
  by rewrite Hd2, Hd1, <- app_assoc.
Qed.

Lemma appends_u8 v : in_u 8 v -> appends (writeUnsigned8BitValue v) [v].
Proof. intros Hv s Hs Hr. change (zlen [v]) with 1 in *. apply write_ok; (done || lia). Qed.

Lemma appends_u16 v : in_u 16 v -> appends (writeUnsigned16BitValue v) (be16 v).
Proof.
  intros Hv. unfold writeUnsigned16BitValue, write16BitValue.
  assert (H1 : u8 (s16 v ≫ 8) = v / 256).
  { change (v / 256) with (v / 2 ^ 8). rewrite <- (Z.shiftr_div_pow2 v 8) by lia. zbits. all: rewrite (testbit_high 16 v) by (done || lia); done. }
  assert (H2 : u8 (s16 v) = v mod 256).
  { change 256 with (2 ^ 8). fold (wrap 8 v). fold (u8 v). zbits. }
  rewrite H1, H2. apply (appends_seq (Streams.write _) (Streams.write _) [_] [_]);
    intros s Hs Hr; (apply write_ok; [done| |unfold zlen in Hr; cbn in Hr; lia]); pose proof (be16_bytes v Hv) as Hb; inversion Hb as [|? ? ? Hb']; subst; [done|by inversion Hb'].
Qed.

Lemma appends_zero32 : appends (writeUnsigned32BitValue 0) [0; 0; 0; 0].
Proof.
  unfold writeUnsigned32BitValue, write32BitValue. change (s32 0) with 0. change (u8 (0 ≫ 24)) with 0. change (u8 (0 ≫ 16)) with 0. change (u8 (0 ≫ 8)) with 0. change (u8 0) with 0.
  assert (Hz : appends (Streams.write 0) [0]) by (apply (appends_u8 0); unfold in_u; lia).
  apply (appends_seq _ _ [0]); [done|]. apply (appends_seq _ _ [0]); [done|]. by apply (appends_seq _ _ [0]).
Qed.

Lemma appends_addr a : wf a -> appends (NetworkAddress.write a) (buffer a).
Proof. intros Ha s Hs Hr. pose proof Ha as (E & _). rewrite E in *. by apply write_addr_ok. Qed.
End WriteNumbers.

(** ** The bytes of each header *)

Definition ethernet_bytes (h : EthernetHeader.EthernetHeader) : list Z :=
  buffer (EthernetHeader.destinationAddress h) ++ buffer (EthernetHeader.sourceAddress h) ++ be16 (EthernetHeader.etherType h).

Definition ethernet_ok (h : EthernetHeader.EthernetHeader) : Prop :=
  is_mac (EthernetHeader.destinationAddress h) /\ type (EthernetHeader.destinationAddress h) = MAC /\
  is_mac (EthernetHeader.sourceAddress h) /\ type (EthernetHeader.sourceAddress h) = MAC /\ in_u 16 (EthernetHeader.etherType h).

(** The header of an IPv4 packet with the given fields; [options] follow the addresses. *)
Definition ip4_packet (vl tos total : Z) (fragment : list Z) (ttl proto : Z) (sum source destination options : list Z) : list Z :=
  [vl] ++ [tos] ++ be16 total ++ fragment ++ [ttl] ++ [proto] ++ sum ++ source ++ destination ++ options.

Definition ip4_bytes (h : Ip4Header.Ip4Header) : list Z :=
  ip4_packet (Ip4Header.version h * 16 + 5) 0 (Ip4Header.headerLength h + Ip4Header.payloadLength h) [0; 0; 0; 0]
    (Ip4Header.timeToLive h) (Ip4Header.protocol h) (be16 0) (buffer (Ip4Header.sourceAddress h))
    (buffer (Ip4Header.destinationAddress h)) [].

Definition ip4_ok (h : Ip4Header.Ip4Header) : Prop :=
  in_u 4 (Ip4Header.version h) /\ Ip4Header.headerLength h = 20 /\ 0 <= Ip4Header.payloadLength h < 65536 - 20 /\
  in_u 8 (Ip4Header.timeToLive h) /\ in_u 8 (Ip4Header.protocol h) /\
  is_ip4 (Ip4Header.sourceAddress h) /\ type (Ip4Header.sourceAddress h) = IP4 /\
  is_ip4 (Ip4Header.destinationAddress h) /\ type (Ip4Header.destinationAddress h) = IP4.

Definition udp_bytes (h : UdpHeader.UdpHeader) : list Z :=
  be16 (UdpHeader.sourcePort h) ++ be16 (UdpHeader.destinationPort h) ++ be16 (UdpHeader.datagramLength h) ++ be16 (UdpHeader.checksum h).

Definition udp_ok (h : UdpHeader.UdpHeader) : Prop :=
  in_u 16 (UdpHeader.sourcePort h) /\ in_u 16 (UdpHeader.destinationPort h) /\ in_u 16 (UdpHeader.datagramLength h) /\ in_u 16 (UdpHeader.checksum h).

Definition icmp_bytes (h : IcmpHeader.IcmpHeader) : list Z :=
  [IcmpHeader.type h] ++ [IcmpHeader.code h] ++ be16 (IcmpHeader.checksum h).

Definition icmp_ok (h : IcmpHeader.IcmpHeader) : Prop :=
  in_u 8 (IcmpHeader.type h) /\ in_u 8 (IcmpHeader.code h) /\ in_u 16 (IcmpHeader.checksum h).

Definition echo_bytes (h : EchoHeader.EchoHeader) : list Z := be16 (EchoHeader.identifier h) ++ be16 (EchoHeader.sequenceNumber h).

Definition echo_ok (h : EchoHeader.EchoHeader) : Prop := in_u 16 (EchoHeader.identifier h) /\ in_u 16 (EchoHeader.sequenceNumber h).

Definition arp_bytes (h : ArpHeader.ArpHeader) : list Z :=
  be16 (ArpHeader.hardwareAddressType h) ++ be16 (ArpHeader.protocolAddressType h) ++ [ArpHeader.hardwareAddressSize h] ++
  [ArpHeader.protocolAddressSize h] ++ be16 (ArpHeader.operation h).

Definition arp_ok (h : ArpHeader.ArpHeader) : Prop :=
  in_u 16 (ArpHeader.hardwareAddressType h) /\ in_u 8 (ArpHeader.hardwareAddressSize h) /\ in_u 16 (ArpHeader.protocolAddressType h) /\
  in_u 8 (ArpHeader.protocolAddressSize h) /\ in_u 16 (ArpHeader.operation h).

Definition pseudo_bytes (source destination : list Z) (n : Z) : list Z := source ++ destination ++ be16 Ip4Header.UDP ++ be16 n.

(** ** Writing *)

Create HintDb appends.
#[export] Hint Resolve appends_u8 appends_u16 appends_zero32 appends_addr : appends.

Ltac appends_solve := repeat (apply appends_seq); auto with appends.

Section WriteHeaders.
Context `{OSL : OutputStreamLaws St}.

Lemma ethernet_write h : ethernet_ok h -> appends (EthernetHeader.write h) (ethernet_bytes h).
Proof. intros ([Hd _] & _ & [Hs _] & _ & Ht). unfold EthernetHeader.write, ethernet_bytes. appends_solve. Qed.

Lemma ip4_write h : ip4_ok h -> appends (Ip4Header.write h) (ip4_bytes h).
Proof.
  intros (Hv & Hl & Hp & Ht & Hpr & [Hs _] & _ & [Hd _] & _). unfold Ip4Header.write, ip4_bytes, ip4_packet. rewrite app_nil_r.
  assert (Hvl : u8 (Z.lor (Ip4Header.version h ≪ 4) (Ip4Header.MIN_HEADER_LENGTH / 4)) = Ip4Header.version h * 16 + 5).
  { change (Ip4Header.MIN_HEADER_LENGTH / 4) with 5. unfold in_u in Hv. rewrite Z.lor_comm, lor_shift_add by (unfold in_u; lia). unwrap. lia. }
  rewrite Hvl. replace (u16 (Ip4Header.headerLength h + Ip4Header.payloadLength h)) with (Ip4Header.headerLength h + Ip4Header.payloadLength h) by (unwrap; lia).
  unfold in_u in Hv. appends_solve; (apply appends_u8 || apply appends_u16); unfold_ints; lia.
Qed.

Lemma udp_write h : udp_ok h -> appends (UdpHeader.write h) (udp_bytes h).
Proof. intros (? & ? & ? & ?). unfold UdpHeader.write, udp_bytes. appends_solve. Qed.

Lemma icmp_write h : icmp_ok h -> appends (IcmpHeader.write h) (icmp_bytes h).
Proof. intros (? & ? & ?). unfold IcmpHeader.write, icmp_bytes. appends_solve. Qed.

Lemma echo_write h : echo_ok h -> appends (EchoHeader.write h) (echo_bytes h).
Proof. intros (? & ?). unfold EchoHeader.write, echo_bytes. appends_solve. Qed.

Lemma arp_write h : arp_ok h -> appends (ArpHeader.write h) (arp_bytes h).
Proof. intros (? & ? & ? & ? & ?). unfold ArpHeader.write, arp_bytes. appends_solve. Qed.

Lemma pseudo_write h :
  is_ip4 (Ip4PseudoHeader.sourceAddress h) -> is_ip4 (Ip4PseudoHeader.destinationAddress h) -> in_u 16 (Ip4PseudoHeader.datagramLength h) ->
  appends (Ip4PseudoHeader.write h)
    (pseudo_bytes (buffer (Ip4PseudoHeader.sourceAddress h)) (buffer (Ip4PseudoHeader.destinationAddress h)) (Ip4PseudoHeader.datagramLength h)).
Proof.
  intros [? _] [? _] ?. unfold Ip4PseudoHeader.write, pseudo_bytes. appends_solve. apply appends_u16. unfold in_u, Ip4Header.UDP. lia.
Qed.
End WriteHeaders.

(** ** Reading *)

Lemma be16_join v : in_u 16 v -> v / 256 * 256 + v mod 256 = v.
Proof. intros. pose proof (Z.div_mod v 256). lia. Qed.

(** [reads f l x]: [f] takes the bytes [l] from the front of any stream and gives [x]. *)
Section ReadHeaders.
Context `{ISL : InputStreamLaws St}.

Definition reads {X} (f : St -> outcome (X * St)) (l : list Z) (x : X) : Prop :=
  forall s rest, in_wf s -> in_data s = l ++ rest -> exists s', f s = Ok (x, s') /\ in_wf s' /\ in_data s' = rest.

Lemma reads_bind {X Y} (f : St -> outcome (X * St)) (g : X -> St -> outcome (Y * St)) k l x y :
  reads f k x -> reads (g x) l y -> reads (fun s => '(v, s) ← f s; g v s) (k ++ l) y.
Proof.
  intros Hf Hg s rest Hs Hd. rewrite <- app_assoc in Hd. destruct (Hf s _ Hs Hd) as (s1 & -> & Hs1 & Hd1). mcbn. by apply Hg.
Qed.

Lemma reads_ret {X} (x : X) : reads (fun s => Ok (x, s)) [] x.
Proof. intros s rest Hs Hd. by exists s. Qed.

Lemma reads_u8 b : reads readUnsigned8BitValue [b] b.
Proof. intros s rest Hs Hd. by apply u8_read. Qed.

Lemma reads_u16 v : in_u 16 v -> reads readUnsigned16BitValue (be16 v) v.
Proof. intros Hv s rest Hs Hd. destruct (u16_read s _ _ rest Hs Hd) as (s' & E & ?). rewrite be16_join in E by done. by exists s'. Qed.

Lemma reads_addr a l :
  wf a -> 0 < length a -> zlen l = length a -> reads (NetworkAddress.read a) l (mk l (length a) (type a)).
Proof. intros Ha Hl Hz s rest Hs Hd. by apply read_ok. Qed.

Lemma reads_discard {X} (g : St -> outcome (X * St)) k l y n :
  base.length k = n -> reads g l y -> reads (fun s => s ← Ip4Header.discard n s; g s) (k ++ l) y.
Proof.
  intros <- Hg s rest Hs Hd. rewrite <- app_assoc in Hd. destruct (discard_ok k s _ Hs Hd) as (s1 & -> & Hs1 & Hd1). mcbn. by apply Hg.
Qed.

Lemma mac_new_wf : wf MacAddress.MacAddress_new.
Proof. apply NetworkAddress_new_wf. unfold MacAddress.ADDRESS_LENGTH. lia. Qed.

Lemma ip4_new_wf : wf Ip4Address.Ip4Address_new.
Proof. apply NetworkAddress_new_wf. unfold Ip4Address.ADDRESS_LENGTH. lia. Qed.

Lemma reads_mac l : zlen l = 6 -> reads (NetworkAddress.read MacAddress.MacAddress_new) l (mk l 6 MAC).
Proof. intros Hl. by apply reads_addr; [apply mac_new_wf|..]. Qed.

Lemma reads_ip4 l : zlen l = 4 -> reads (NetworkAddress.read Ip4Address.Ip4Address_new) l (mk l 4 IP4).
Proof. intros Hl. by apply reads_addr; [apply ip4_new_wf|..]. Qed.

Lemma addr_eta a n t : wf a -> length a = n -> type a = t -> mk (buffer a) n t = a.
Proof. intros _ <- <-. by destruct a. Qed.

Lemma is_mac_zlen a : is_mac a -> zlen (buffer a) = 6.
Proof. intros ((H' & _) & <-). done. Qed.
Lemma is_ip4_zlen a : is_ip4 a -> zlen (buffer a) = 4.
Proof. intros ((H' & _) & <-). done. Qed.

Lemma ethernet_read h : ethernet_ok h -> reads (EthernetHeader.read EthernetHeader.EthernetHeader_new) (ethernet_bytes h) h.
Proof.
  intros (Hd & Td & Hs & Ts & Ht). unfold ethernet_bytes. rewrite <- (app_nil_r (be16 _)).
  eapply reads_bind; [apply reads_mac; by apply is_mac_zlen|]. eapply reads_bind; [apply reads_mac; by apply is_mac_zlen|].
  eapply reads_bind; [by apply reads_u16|]. destruct Hd as [Wd Ld], Hs as [Ws Ls]. rewrite !addr_eta by done. destruct h. apply reads_ret.
Qed.

(** Any IPv4 header of at least twenty bytes is read, whatever its unused fields hold. *)
Lemma ip4_read vl tos total fragment ttl proto sum source destination options :
  in_u 8 vl -> in_u 16 total -> zlen fragment = 4 -> zlen sum = 2 -> zlen source = 4 -> zlen destination = 4 ->
  zlen options = Z.max 0 (Z.land vl 15 * 4 - 20) ->
  reads (Ip4Header.read Ip4Header.Ip4Header_new) (ip4_packet vl tos total fragment ttl proto sum source destination options)
    (Ip4Header.mk (vl ≫ 4) (Z.land vl 15 * 4) (u16 (total - Z.land vl 15 * 4)) ttl proto (mk source 4 IP4) (mk destination 4 IP4)).
Proof.
  intros Hvl Htot Hf Hsum Hs Hd Ho.
  assert (Hland : 0 <= Z.land vl 15 < 16). { change 15 with (Z.ones 4). rewrite Z.land_ones by lia. apply Z.mod_pos_bound. lia. }
  unfold ip4_packet. rewrite <- (app_nil_r options). unfold zlen in Hf, Hsum.
  eapply reads_bind; [apply reads_u8|]. apply (reads_discard _ [tos]); [done|].
  eapply reads_bind; [by apply reads_u16|]. apply reads_discard; [lia|].
  eapply reads_bind; [apply reads_u8|]. eapply reads_bind; [apply reads_u8|]. apply reads_discard; [lia|].
  eapply reads_bind; [by apply reads_ip4|]. eapply reads_bind; [by apply reads_ip4|].
  replace (u8 (Z.land vl 15 * 4)) with (Z.land vl 15 * 4) by (unwrap; lia).
  apply reads_discard; [|apply reads_ret]. unfold Ip4Header.MIN_HEADER_LENGTH. unfold zlen in Ho. lia.
Qed.

Lemma udp_read h : udp_ok h -> reads UdpHeader.read (udp_bytes h) h.
Proof.
  intros (? & ? & ? & ?). unfold udp_bytes. rewrite <- (app_nil_r (be16 (UdpHeader.checksum h))).
  do 4 (eapply reads_bind; [by apply reads_u16|]). destruct h. apply reads_ret.
Qed.

Lemma icmp_read h : icmp_ok h -> reads IcmpHeader.read (icmp_bytes h) h.
Proof.
  intros (? & ? & ?). unfold icmp_bytes. rewrite <- (app_nil_r (be16 _)).
  do 2 (eapply reads_bind; [apply reads_u8|]). eapply reads_bind; [by apply reads_u16|]. destruct h. apply reads_ret.
Qed.

Lemma echo_read h : echo_ok h -> reads EchoHeader.read (echo_bytes h) h.
Proof.
  intros (? & ?). unfold echo_bytes. rewrite <- (app_nil_r (be16 (EchoHeader.sequenceNumber h))).
  do 2 (eapply reads_bind; [by apply reads_u16|]). destruct h. apply reads_ret.
Qed.

Lemma arp_read h : arp_ok h -> reads ArpHeader.read (arp_bytes h) h.
Proof.
  intros (? & ? & ? & ? & ?). unfold arp_bytes. rewrite <- (app_nil_r (be16 (ArpHeader.operation h))).
  do 2 (eapply reads_bind; [by apply reads_u16|]). do 2 (eapply reads_bind; [apply reads_u8|]).
  eapply reads_bind; [by apply reads_u16|]. destruct h. apply reads_ret.
Qed.

Lemma ip4_bytes_read h : ip4_ok h -> reads (Ip4Header.read Ip4Header.Ip4Header_new) (ip4_bytes h) h.
Proof.
  intros (Hv & Hl & Hp & Ht & Hpr & Hs & Ts & Hd & Td). unfold in_u in Hv.
  assert (Hland : Z.land (Ip4Header.version h * 16 + 5) 15 = 5).
  { change 15 with (Z.ones 4). rewrite Z.land_ones by lia. rewrite Z.add_comm, Z.mod_add by lia. done. }
  pose proof (ip4_read (Ip4Header.version h * 16 + 5) 0 (Ip4Header.headerLength h + Ip4Header.payloadLength h) [0; 0; 0; 0]
    (Ip4Header.timeToLive h) (Ip4Header.protocol h) (be16 0) (buffer (Ip4Header.sourceAddress h))
    (buffer (Ip4Header.destinationAddress h)) []) as E. rewrite Hland in E.
  rewrite Z.shiftr_div_pow2, Z.div_add_l, Z.add_0_r in E by lia.
  replace (u16 (Ip4Header.headerLength h + Ip4Header.payloadLength h - 5 * 4)) with (Ip4Header.payloadLength h) in E by (unwrap; lia).
  pose proof (is_ip4_zlen _ Hs). pose proof (is_ip4_zlen _ Hd). destruct Hs as [Ws Ls], Hd as [Wd Ld]. rewrite !addr_eta in E by done.
  assert (Hh : Ip4Header.mk (Ip4Header.version h) (5 * 4) (Ip4Header.payloadLength h) (Ip4Header.timeToLive h) (Ip4Header.protocol h)
    (Ip4Header.sourceAddress h) (Ip4Header.destinationAddress h) = h) by (destruct h; cbn in Hl; rewrite Hl; done).
  rewrite Hh in E. apply E; (done || unfold_ints; lia).
Qed.

End ReadHeaders.

(** What [w] has written, on any output stream, [r] reads back from any input stream, and the input stream is
    left at what follows. *)
Definition roundtrips {Out In X} `{OutputStreamLaws Out} `{InputStreamLaws In} (ok : X -> Prop)
    (w : X -> Out -> outcome Out) (r : In -> outcome (X * In)) : Prop :=
  forall h o i rest, ok h -> out_wf o -> in_wf i -> 20 <= out_room o ->
  exists o' l, w h o = Ok o' /\ out_wf o' /\ out_data o' = out_data o ++ l /\
    (in_data i = l ++ rest -> exists i', r i = Ok (h, i') /\ in_wf i' /\ in_data i' = rest).

Lemma roundtrips_intro {Out In X} `{OutputStreamLaws Out} `{InputStreamLaws In} (ok : X -> Prop)
    (w : X -> Out -> outcome Out) (r : In -> outcome (X * In)) (bytes : X -> list Z) :
  (forall h, ok h -> appends (w h) (bytes h)) -> (forall h, ok h -> reads r (bytes h) h) -> (forall h, ok h -> zlen (bytes h) <= 20) ->
  roundtrips ok w r.
Proof.
  intros Hw Hr Hl h o i rest Hok Ho Hi Hroom. specialize (Hl h Hok).
  destruct (Hw h Hok o Ho) as (o' & E & Ho' & Hd & _); [lia|]. exists o', (bytes h). split_and!; [done..|]. by apply Hr.
Qed.

(** C25: For all packet headers (Ethernet, IPv4 without options, UDP, ICMP,
    echo, ARP): reading what was written, from any lawful input stream after
    any lawful output stream, gives the header back. The bytes of a number
    are read in the order of the text (from left to right), as compilers do,
    though C++ leaves the order open. *)
Theorem headers_roundtrip {Out In} `{OutputStreamLaws Out} `{InputStreamLaws In} :
  roundtrips (Out := Out) (In := In) ethernet_ok EthernetHeader.write (EthernetHeader.read EthernetHeader.EthernetHeader_new) /\
  roundtrips (Out := Out) (In := In) ip4_ok Ip4Header.write (Ip4Header.read Ip4Header.Ip4Header_new) /\
  roundtrips (Out := Out) (In := In) udp_ok UdpHeader.write UdpHeader.read /\
  roundtrips (Out := Out) (In := In) icmp_ok IcmpHeader.write IcmpHeader.read /\
  roundtrips (Out := Out) (In := In) echo_ok EchoHeader.write EchoHeader.read /\
  roundtrips (Out := Out) (In := In) arp_ok ArpHeader.write ArpHeader.read.
Proof.
  split; [|split; [|split; [|split; [|split]]]].
  - apply (roundtrips_intro _ _ _ ethernet_bytes ethernet_write ethernet_read).
    intros h Hh. unfold ethernet_bytes. rewrite !zlen_app, !is_mac_zlen; [done|apply Hh..].
  - apply (roundtrips_intro _ _ _ ip4_bytes ip4_write ip4_bytes_read).
    intros h Hh. unfold ip4_bytes, ip4_packet. rewrite !zlen_app, !is_ip4_zlen; [done|apply Hh..].
  - by apply (roundtrips_intro _ _ _ udp_bytes udp_write udp_read).
  - by apply (roundtrips_intro _ _ _ icmp_bytes icmp_write icmp_read).
  - by apply (roundtrips_intro _ _ _ echo_bytes echo_write echo_read).
  - by apply (roundtrips_intro _ _ _ arp_bytes arp_write arp_read).
Qed.
