(* ===== verification/Checksum.v ===== *)
(** * Checksum.v: the Internet checksum

    [Ip4Module::calculateChecksum], which IPv4 and ICMP use, and [UdpModule::calculateChecksum], against the
    checksum of RFC 1071: the complement of the one's complement sum of the 16-bit words. *)

From S2P Require Import UtilString Streams NetworkAddress Headers Prelude Bits.
Import NetworkAddress.

(** ** The code *)

(** [for (uint8_t i = 0; i < length; i += 2)]. The loop has run through all values of [i] after 128 rounds. *)
Fixpoint ip4_sum_loop (fuel : nat) (buffer : list Z) (offset length i checksum : Z) : outcome Z :=
  if i <? length then
    match fuel with
    | O => Loops
    | S fuel =>
      if i =? offset then ip4_sum_loop fuel buffer offset length (u8 (i + 2)) checksum
      else
        x ← aget buffer i;
        y ← aget buffer (i + 1);
        ip4_sum_loop fuel buffer offset length (u8 (i + 2)) (u32 (checksum + Z.lor (x ≪ 8) y))
    end
  else Ok checksum.

(** [Ip4Module::calculateChecksum] *)
Definition ip4_calculateChecksum (buffer : list Z) (offset length : Z) : outcome Z :=
  checksum ← ip4_sum_loop 128 buffer offset length 0 0;
  let checksum := u32 (checksum + checksum ≫ 16) in
  let checksum := u16 checksum in
  Ok (u16 (Z.lnot checksum)).

Fixpoint pseudo_sum_loop (fuel : nat) (pseudoHeader : list Z) (i checksum : Z) : outcome Z :=
  if i <? Ip4PseudoHeader.HEADER_SIZE then
    match fuel with
    | O => Loops
    | S fuel =>
      x ← aget pseudoHeader i;
      y ← aget pseudoHeader (i + 1);
      pseudo_sum_loop fuel pseudoHeader (u16 (i + 2)) (u32 (checksum + Z.lor (x ≪ 8) y))
    end
  else Ok checksum.

Fixpoint udp_sum_loop (fuel : nat) (datagram : list Z) (datagramLength i checksum : Z) : outcome Z :=
  if i <? datagramLength then
    match fuel with
    | O => Loops
    | S fuel =>
      if i =? 6 then udp_sum_loop fuel datagram datagramLength (u16 (i + 2)) checksum
      else if i =? datagramLength - 1 then
        x ← aget datagram i;
        udp_sum_loop fuel datagram datagramLength (u16 (i + 2)) (u32 (checksum + x ≪ 8))
      else
        x ← aget datagram i;
        y ← aget datagram (i + 1);
        udp_sum_loop fuel datagram datagramLength (u16 (i + 2)) (u32 (checksum + Z.lor (x ≪ 8) y))
    end
  else Ok checksum.

(** [while (checksum >> 16 > 0)]; two rounds reduce 32 bits to 16. *)
Definition fold_carries (checksum : Z) : outcome Z :=
  while 2 (fun c => 0 <? c ≫ 16) (fun c => Ok (u32 (c ≫ 16 + Z.land c 65535))) checksum.

(** As many rounds as [i] has even values. *)
Definition udp_rounds : nat := Z.to_nat 32768.

(** [UdpModule::calculateChecksum] *)
Definition udp_calculateChecksum (pseudoHeader datagram : list Z) (datagramLength : Z) : outcome Z :=
  checksum ← pseudo_sum_loop 6 pseudoHeader 0 0;
  checksum ← udp_sum_loop udp_rounds datagram datagramLength 0 checksum;
  checksum ← fold_carries checksum;
  Ok (u16 (Z.lnot checksum)).

(** ** The standard *)

(** One's complement addition of 16-bit numbers: a carry is added again. *)
Definition ones_add (a b : Z) : Z := (a + b) mod 65536 + (a + b) / 65536.

(** The 16-bit words of a sequence of bytes; an odd byte is padded with zero. *)
Fixpoint words (l : list Z) : list Z :=
  match l with
  | a :: b :: l => a * 256 + b :: words l
  | [a] => [a * 256]
  | [] => []
  end.

Definition rfc1071 (ws : list Z) : Z := 65535 - fold_left ones_add ws 0.

(** The bytes with the checksum field at [off] set to zero. *)
Definition zero_field (off : Z) (l : list Z) : list Z := <[Z.to_nat off := 0]> (<[Z.to_nat (off + 1) := 0]> l).

(** ** The one's complement sum in closed form *)

Definition sum (l : list Z) : Z := foldr Z.add 0 l.

(** The representative of [s] modulo 65535 in [1 .. 65535], but 0 for 0. *)
Definition carry_all (s : Z) : Z := if s =? 0 then 0 else (s - 1) mod 65535 + 1.

Lemma carry_all_range s : 0 <= s -> 0 <= carry_all s <= 65535.
Proof. intros. unfold carry_all. destruct (s =? 0); [lia|]. pose proof (Z.mod_pos_bound (s - 1) 65535). lia. Qed.

Lemma carry_all_small s : 0 <= s <= 65535 -> carry_all s = s.
Proof. intros. unfold carry_all. destruct (Z.eqb_spec s 0); [lia|]. rewrite Z.mod_small; lia. Qed.

(** Adding a carry again does not change the class. *)
Lemma carry_all_fold s : 0 <= s -> carry_all (s mod 65536 + s / 65536) = carry_all s.
Proof.
  intros Hs. pose proof (Z.div_mod s 65536 ltac:(lia)) as Hdm. pose proof (Z.mod_pos_bound s 65536 ltac:(lia)). pose proof (Z.div_pos s 65536 ltac:(lia) ltac:(lia)).
  unfold carry_all. destruct (Z.eqb_spec (s mod 65536 + s / 65536) 0), (Z.eqb_spec s 0); try lia.
  replace (s - 1) with (s mod 65536 + s / 65536 - 1 + s / 65536 * 65535) by lia. by rewrite Z.mod_add.
Qed.

Lemma ones_add_ok a b : 0 <= a <= 65535 -> 0 <= b <= 65535 -> ones_add a b = carry_all (a + b).
Proof.
  intros Ha Hb. unfold ones_add. rewrite <- carry_all_fold by lia. symmetry. apply carry_all_small.
  pose proof (Z.div_mod (a + b) 65536 ltac:(lia)). pose proof (Z.mod_pos_bound (a + b) 65536 ltac:(lia)). pose proof (Z.div_pos (a + b) 65536 ltac:(lia) ltac:(lia)).
  assert ((a + b) / 65536 < 2) by (apply Z.div_lt_upper_bound; lia). lia.
Qed.

Lemma carry_all_add s b : 0 <= s -> 0 <= b -> carry_all (carry_all s + b) = carry_all (s + b).
Proof.
  intros Hs Hb. unfold carry_all at 2. destruct (Z.eqb_spec s 0) as [->|Hs0]; [done|].
  pose proof (Z.mod_pos_bound (s - 1) 65535 ltac:(lia)). unfold carry_all.
  destruct (Z.eqb_spec ((s - 1) mod 65535 + 1 + b) 0), (Z.eqb_spec (s + b) 0); try lia. f_equal.
  replace ((s - 1) mod 65535 + 1 + b - 1) with ((s - 1) mod 65535 + b) by lia. rewrite Zplus_mod_idemp_l. f_equal. lia.
Qed.

Lemma fold_ones_add ws a :
  Forall (fun w => 0 <= w <= 65535) ws -> 0 <= a -> fold_left ones_add ws (carry_all a) = carry_all (a + sum ws).
Proof.
  revert a. induction ws as [|w ws IH]; intros a Hw Ha; cbn [fold_left sum foldr]; [by rewrite Z.add_0_r|].
  apply Forall_cons in Hw as [Hw Hws]. rewrite ones_add_ok; [|by apply carry_all_range|done].
  rewrite carry_all_add by lia. rewrite IH by (done || lia). f_equal. fold (sum ws). lia.
Qed.

Lemma rfc1071_sum ws : Forall (fun w => 0 <= w <= 65535) ws -> rfc1071 ws = 65535 - carry_all (sum ws).
Proof. intros Hw. unfold rfc1071. change 0 with (carry_all 0) at 1. by rewrite fold_ones_add by (done || lia). Qed.

Lemma words_range l : Forall (in_u 8) l -> Forall (fun w => 0 <= w <= 65535) (words l).
Proof.
  revert l. fix IH 1. intros [|a [|b l]] Hl; cbn [words]; [constructor|..].
  - apply Forall_cons in Hl as [Ha _]. unfold_ints. repeat constructor; lia.
  - apply Forall_cons in Hl as [Ha Hl]. apply Forall_cons in Hl as [Hb Hl]. unfold_ints. constructor; [lia|]. by apply IH.
Qed.

Lemma words_length l : Forall (in_u 8) l -> 0 <= 2 * sum (words l) <= 65535 * (zlen l + 1).
Proof.
  revert l. fix IH 1. intros [|a [|b l]] Hl; cbn [words sum foldr]; [unfold zlen; cbn; lia|..].
  - apply Forall_cons in Hl as [Ha _]. unfold_ints. unfold zlen. cbn. lia.
  - apply Forall_cons in Hl as [Ha Hl]. apply Forall_cons in Hl as [Hb Hl]. specialize (IH l Hl). rewrite !zlen_cons. fold (sum (words l)). unfold_ints. lia.
Qed.

Lemma sum_app k l : sum (k ++ l) = sum k + sum l.
Proof. induction k as [|x k IH]; cbn [app sum foldr]; [done|]. fold (sum (k ++ l)). rewrite IH. fold (sum k). lia. Qed.

(** ** The loops compute the sum of the words *)

(** The sum of the words, without word [k]. *)
Fixpoint sum_without (k : Z) (l : list Z) : Z :=
  match l with
  | a :: b :: l => (if k =? 0 then 0 else a * 256 + b) + sum_without (k - 1) l
  | [a] => if k =? 0 then 0 else a * 256
  | [] => 0
  end.

Lemma sum_without_neg k l : k < 0 -> sum_without k l = sum (words l).
Proof.
  revert k l. fix IH 2. intros k [|a [|b l]] Hk; cbn [sum_without words sum foldr]; [done|..]; destruct (Z.eqb_spec k 0); try lia.
  rewrite IH by lia. done.
Qed.

Lemma sum_without_field k l : 0 <= k -> sum_without k l = sum (words (zero_field (2 * k) l)).
Proof.
  unfold zero_field. revert k l. fix IH 2. intros k [|a [|b l]] Hk; cbn [sum_without]; [done|..]; destruct (Z.eqb_spec k 0) as [->|Hk0].
  - done.
  - assert (H1 : (1 <= Z.to_nat (2 * k))%nat /\ (1 <= Z.to_nat (2 * k + 1))%nat) by lia. destruct H1.
    rewrite (list_insert_ge [a]), (list_insert_ge [a]) by done. cbn. lia.
  - rewrite sum_without_neg by lia. done.
  - rewrite IH by lia. replace (Z.to_nat (2 * k)) with (S (S (Z.to_nat (2 * (k - 1))))) by lia.
    replace (Z.to_nat (2 * k + 1)) with (S (S (Z.to_nat (2 * (k - 1) + 1)))) by lia. done.
Qed.

Lemma word_value a b : in_u 8 a -> in_u 8 b -> Z.lor (a ≪ 8) b = a * 256 + b.
Proof. intros Ha Hb. rewrite Z.lor_comm, lor_shift_add by (done || lia). lia. Qed.

Lemma aget_app_at (pre : list Z) x l i : i = zlen pre -> aget (pre ++ x :: l) i = Ok x.
Proof.
  intros ->. apply aget_ok. split; [apply zlen_nonneg|]. unfold zlen. rewrite Nat2Z.id. by rewrite lookup_app_r, Nat.sub_diag by lia.
Qed.

Lemma ip4_sum_loop_ok fuel ko pre l post i c :
  Forall (in_u 8) l -> Nat.even (base.length l) = true -> i = zlen pre -> i mod 2 = 0 -> i + zlen l <= 254 -> (base.length l <= 2 * fuel)%nat ->
  0 <= c -> c + 65535 * (zlen l + 1) < 2 ^ 32 ->
  ip4_sum_loop fuel (pre ++ l ++ post) (2 * ko) (i + zlen l) i c = Ok (c + sum_without (ko - i / 2) l).
Proof.
  revert pre l i c. induction fuel as [|fuel IH]; intros pre l i c Hl He Hi Hm Hlen Hf Hc Hb.
  - destruct l; [|cbn in Hf; lia]. cbn [ip4_sum_loop sum_without]. change (zlen []) with 0. rewrite !Z.add_0_r, Z.ltb_irrefl. done.
  - destruct l as [|x [|y l]]; [|done|].
    + cbn [ip4_sum_loop sum_without]. change (zlen []) with 0. rewrite !Z.add_0_r, Z.ltb_irrefl. done.
    + apply Forall_cons in Hl as [Hx Hl]. apply Forall_cons in Hl as [Hy Hl]. rewrite !zlen_cons in *. pose proof (zlen_nonneg l). pose proof (zlen_nonneg pre).
      cbn [ip4_sum_loop]. destruct (Z.ltb_spec i (i + (zlen l + 1 + 1))); [|lia].
      replace (u8 (i + 2)) with (i + 2) by (unwrap; lia).
      assert (Hpre : pre ++ (x :: y :: l) ++ post = (pre ++ [x; y]) ++ l ++ post) by (rewrite <- app_assoc; done).
      assert (Hp2 : i + 2 = zlen (pre ++ [x; y])) by (rewrite zlen_app; change (zlen [x; y]) with 2; lia).
      replace (i + (zlen l + 1 + 1)) with (i + 2 + zlen l) by lia.
      assert (Hdiv : (i + 2) / 2 = i / 2 + 1) by (replace (i + 2) with (i + 1 * 2) by lia; rewrite Z.div_add; lia).
      assert (Hm2 : (i + 2) mod 2 = 0) by (replace (i + 2) with (i + 1 * 2) by lia; rewrite Z.mod_add; lia).
      pose proof (Z.div_mod i 2 ltac:(lia)) as Hdm.
      assert (Hk : (ko - i / 2 =? 0) = (i =? 2 * ko)) by (destruct (Z.eqb_spec (ko - i / 2) 0), (Z.eqb_spec i (2 * ko)); (done || lia)).
      cbn [sum_without]. rewrite Hk. destruct (Z.eqb_spec i (2 * ko)).
      * rewrite Hpre. rewrite IH; [|done|done|done|done|lia|cbn in Hf; lia|lia|lia]. f_equal. rewrite Hdiv. replace (ko - (i / 2 + 1)) with (ko - i / 2 - 1) by lia. lia.
      * cbn [app]. rewrite (aget_app_at pre x (y :: l ++ post) i Hi). mcbn. rewrite (cons_middle x pre (y :: l ++ post)).
        rewrite app_assoc. rewrite (aget_app_at (pre ++ [x]) y) by (rewrite zlen_app; change (zlen [x]) with 1; lia). mcbn.
        rewrite word_value by done. replace (u32 (c + (x * 256 + y))) with (c + (x * 256 + y)) by (unfold_ints; unwrap; lia).
        replace ((pre ++ [x]) ++ y :: l ++ post) with ((pre ++ [x; y]) ++ l ++ post) by (rewrite <- !app_assoc; done).
        unfold_ints. rewrite IH; [|done|done|done|done|lia|cbn in Hf; lia|lia|lia]. f_equal. rewrite Hdiv. replace (ko - (i / 2 + 1)) with (ko - i / 2 - 1) by lia. lia.
Qed.

(** More than 254 bytes: the counter passes 254 and starts again. *)
Lemma ip4_sum_loop_diverges fuel buffer offset length i c :
  254 < length -> 256 <= zlen buffer -> 0 <= i < 256 -> i mod 2 = 0 -> ip4_sum_loop fuel buffer offset length i c = Loops.
Proof.
  intros Hl Hb. revert i c. induction fuel as [|fuel IH]; intros i c Hi Hm; cbn [ip4_sum_loop];
    (destruct (Z.ltb_spec i length); [|pose proof (Z.div_mod i 2 ltac:(lia)); lia]); [done|].
  assert (Hn : 0 <= u8 (i + 2) < 256 /\ u8 (i + 2) mod 2 = 0).
  { unfold u8. split; [apply (wrap_range 8); lia|]. unfold wrap. rewrite <- Znumtheory.Zmod_div_mod; [|lia|lia|by exists 128].
    rewrite Z.add_mod, Hm by lia. done. }
  destruct Hn as [Hn1 Hn2]. destruct (i =? offset); [by apply IH|]. pose proof (Z.div_mod i 2 ltac:(lia)).
  destruct (aget_in buffer i) as (x & -> & _); [lia|]. mcbn. destruct (aget_in buffer (i + 1)) as (y & -> & _); [lia|]. mcbn. by apply IH.
Qed.

Lemma lnot16 c : in_u 16 c -> u16 (Z.lnot c) = 65535 - c.
Proof.
  intros Hc. unfold_ints. unfold wrap. replace (Z.lnot c) with (65535 - c + (-1) * 65536) by (unfold Z.lnot; lia).
  change (2 ^ 16) with 65536. rewrite Z.mod_add by lia. apply Z.mod_small. lia.
Qed.

Lemma zero_field_bytes off l : Forall (in_u 8) l -> Forall (in_u 8) (zero_field off l).
Proof. intros Hl. unfold zero_field. apply Forall_insert; [apply Forall_insert|]; (done || unfold in_u; lia). Qed.

Lemma zlen_zero_field off l : zlen (zero_field off l) = zlen l.
Proof. unfold zero_field. by rewrite !zlen_insert. Qed.

(** A second carry is lost: then the checksum is one too large. *)
Definition second_carry (s : Z) : Z := if 65536 <=? s mod 65536 + s / 65536 then 1 else 0.

Lemma ip4_checksum_ok l post k :
  Forall (in_u 8) l -> Nat.even (base.length l) = true -> zlen l <= 254 -> 0 <= k ->
  let ws := words (zero_field (2 * k) l) in
  ip4_calculateChecksum (l ++ post) (2 * k) (zlen l) = Ok (rfc1071 ws + second_carry (sum ws)).
Proof.
  intros Hl He Hlen Hk ws. unfold ip4_calculateChecksum. pose proof (zlen_nonneg l).
  pose proof (ip4_sum_loop_ok 128 k [] l post 0 0 Hl He eq_refl eq_refl) as E. cbn [app] in E. rewrite !Z.add_0_l in E.
  rewrite E by (unfold zlen in *; lia). change (0 / 2) with 0. rewrite Z.sub_0_r, sum_without_field by done. fold ws. mcbn.
  assert (Hr : Forall (fun w => 0 <= w <= 65535) ws) by (by apply words_range, zero_field_bytes).
  assert (Hs : 0 <= sum ws <= 65535 * 255).
  { pose proof (words_length (zero_field (2 * k) l) (zero_field_bytes _ _ Hl)) as Hw. rewrite zlen_zero_field in Hw. fold ws in Hw. lia. }
  rewrite rfc1071_sum by done. rewrite Z.shiftr_div_pow2 by lia. change (2 ^ 16) with 65536. set (S := sum ws) in *. clearbody S.
  pose proof (Z.div_mod S 65536 ltac:(lia)) as Hdm. pose proof (Z.mod_pos_bound S 65536 ltac:(lia)) as Hmb. pose proof (Z.div_pos S 65536 ltac:(lia) ltac:(lia)).
  assert (S / 65536 < 256) by (apply Z.div_lt_upper_bound; lia).
  replace (u32 (S + S / 65536)) with (S + S / 65536) by (unwrap; lia).
  set (t := S mod 65536 + S / 65536) in *.
  assert (Ht : u16 (S + S / 65536) = if 65536 <=? t then t - 65536 else t).
  { unfold u16, wrap. change (2 ^ 16) with 65536. replace (S + S / 65536) with (t + S / 65536 * 65536) by (unfold t; lia). rewrite Z.mod_add by lia.
    destruct (Z.leb_spec 65536 t); [|apply Z.mod_small; lia]. symmetry. apply (Z.mod_unique _ _ 1); lia. }
  rewrite Ht, lnot16 by (unfold_ints; cmp_cases; lia). f_equal. rewrite <- carry_all_fold by lia. fold t. unfold second_carry. fold t.
  destruct (Z.leb_spec 65536 t).
  - unfold carry_all. destruct (Z.eqb_spec t 0); [lia|]. replace (t - 1) with (t - 65536 + 1 * 65535) by lia. rewrite Z.mod_add, Z.mod_small by lia. lia.
  - rewrite carry_all_small by lia. lia.
Qed.

(** The IPv4 checksum of up to 254 bytes is the Internet checksum of RFC
    1071, except that a second carry is lost, which makes it one too large. *)
Theorem ip4_checksum_spec l post k :
  Forall (in_u 8) l -> Nat.even (base.length l) = true -> zlen l <= 254 -> 0 <= k ->
  let ws := words (zero_field (2 * k) l) in
  ip4_calculateChecksum (l ++ post) (2 * k) (zlen l) = Ok (rfc1071 ws + second_carry (sum ws)).
Proof. apply ip4_checksum_ok. Qed.

(** A header of twenty bytes with checksum 0xb861, and one whose sum carries twice. *)
Lemma ip4_checksum_spec_witness :
  ip4_calculateChecksum [69; 0; 0; 115; 0; 0; 64; 0; 64; 17; 0; 0; 192; 168; 0; 1; 192; 168; 0; 199] 10 20 = Ok 47201 /\
  ip4_calculateChecksum [69; 0; 0; 40; 0; 0; 0; 0; 64; 17; 0; 0; 192; 168; 0; 1; 186; 27; 0; 2] 10 20 = Ok (rfc1071 (words [69; 0; 0; 40; 0; 0; 0; 0; 64; 17; 0; 0; 192; 168; 0; 1; 186; 27; 0; 2]) + 1).
Proof.
  split.
  - etransitivity; [apply (ip4_checksum_spec [69; 0; 0; 115; 0; 0; 64; 0; 64; 17; 0; 0; 192; 168; 0; 1; 192; 168; 0; 199] [] 5)|reflexivity]; try done.
    repeat constructor; unfold in_u; lia.
  - etransitivity; [apply (ip4_checksum_spec [69; 0; 0; 40; 0; 0; 0; 0; 64; 17; 0; 0; 192; 168; 0; 1; 186; 27; 0; 2] [] 5)|reflexivity]; try done.
    repeat constructor; unfold in_u; lia.
Defined.

(** The IPv4 checksum routine never ends for more than 254 bytes, because
    its counter has 8 bits: an ICMP packet of that size hangs the reader of
    packets. *)
Theorem ip4_checksum_diverges buffer offset length :
  254 < length -> 256 <= zlen buffer ->
  ip4_calculateChecksum buffer offset length = Loops /\
  forall fuel, ip4_sum_loop fuel buffer offset length 0 0 = Loops.
Proof.
  intros Hl Hb. assert (G : forall fuel, ip4_sum_loop fuel buffer offset length 0 0 = Loops) by (intros; by apply ip4_sum_loop_diverges).
  split; [|done]. unfold ip4_calculateChecksum. by rewrite G.
Qed.

Lemma ip4_checksum_diverges_witness :
  ip4_calculateChecksum (replicate 300 1) 2 255 = Loops /\ forall fuel, ip4_sum_loop fuel (replicate 300 1) 2 255 0 0 = Loops.
Proof. apply (ip4_checksum_diverges (replicate 300 1) 2 255); [lia|]. vm_compute. discriminate. Defined.

(** ** UDP *)

Lemma pseudo_step fuel b i c x y :
  0 <= i < 12 -> aget b i = Ok x -> aget b (i + 1) = Ok y -> in_u 8 x -> in_u 8 y -> 0 <= c < 2 ^ 31 ->
  pseudo_sum_loop (S fuel) b i c = pseudo_sum_loop fuel b (i + 2) (c + (x * 256 + y)).
Proof.
  intros Hi Hx Hy Hbx Hby Hc. cbn [pseudo_sum_loop]. unfold Ip4PseudoHeader.HEADER_SIZE. destruct (Z.ltb_spec i 12); [|lia].
  rewrite Hx. mcbn. rewrite Hy. mcbn. rewrite word_value by done. unfold_ints. f_equal; unwrap; lia.
Qed.

Lemma pseudo_sum_loop_ok ph post :
  Forall (in_u 8) ph -> zlen ph = 12 -> pseudo_sum_loop 6 (ph ++ post) 0 0 = Ok (sum (words ph)).
Proof.
  intros Hf Hl. unfold zlen in Hl. do 12 (destruct ph as [|? ph]; [cbn in Hl; lia|]). destruct ph; [|cbn in Hl; lia].
  repeat match goal with H : Forall _ (_ :: _) |- _ => apply Forall_cons in H as [? H] end.
  unfold_ints. do 6 (erewrite pseudo_step; [|lia|reflexivity|reflexivity|unfold_ints; lia|unfold_ints; lia|lia]).
  match goal with |- pseudo_sum_loop 0 _ _ ?c = _ => transitivity (Ok c); [done|] end.
  f_equal. cbn [words sum foldr]. lia.
Qed.

Lemma udp_sum_loop_ok fuel pre l post i c :
  Forall (in_u 8) l -> i = zlen pre -> i mod 2 = 0 -> i + zlen l <= 65534 -> (base.length l <= 2 * fuel)%nat ->
  0 <= c -> 2 * c + 65535 * (zlen l + 1) < 2 ^ 33 ->
  udp_sum_loop fuel (pre ++ l ++ post) (i + zlen l) i c = Ok (c + sum_without (3 - i / 2) l).
Proof.
  revert pre l i c. induction fuel as [|fuel IH]; intros pre l i c Hl Hi Hm Hlen Hf Hc Hb.
  - destruct l; [|cbn in Hf; lia]. cbn [udp_sum_loop sum_without]. change (zlen []) with 0. rewrite !Z.add_0_r, Z.ltb_irrefl. done.
  - pose proof (Z.div_mod i 2 ltac:(lia)) as Hdm.
    assert (Hk : (3 - i / 2 =? 0) = (i =? 6)) by (destruct (Z.eqb_spec (3 - i / 2) 0), (Z.eqb_spec i 6); (done || lia)).
    pose proof (zlen_nonneg pre). destruct l as [|x [|y l]].
    + cbn [udp_sum_loop sum_without]. change (zlen []) with 0. rewrite !Z.add_0_r, Z.ltb_irrefl. done.
    + apply Forall_cons in Hl as [Hx _]. change (zlen [x]) with 1 in *. cbn [udp_sum_loop]. destruct (Z.ltb_spec i (i + 1)); [|lia].
      replace (u16 (i + 2)) with (i + 2) by (unwrap; lia).
      assert (Hstop : forall c', udp_sum_loop fuel (pre ++ [x] ++ post) (i + 1) (i + 2) c' = Ok c').
      { intros c'. destruct fuel; cbn [udp_sum_loop]; destruct (Z.ltb_spec (i + 2) (i + 1)); (done || lia). }
      cbn [sum_without]. rewrite Hk. destruct (Z.eqb_spec i 6); [rewrite Hstop; f_equal; lia|].
      replace (i + 1 - 1) with i by lia. rewrite Z.eqb_refl. cbn [app]. rewrite (aget_app_at pre x post i Hi). mcbn.
      change (pre ++ x :: post) with (pre ++ [x] ++ post). rewrite Hstop. f_equal. rewrite Z.shiftl_mul_pow2 by lia. unfold_ints. unwrap. lia.
    + apply Forall_cons in Hl as [Hx Hl]. apply Forall_cons in Hl as [Hy Hl]. rewrite !zlen_cons in *. pose proof (zlen_nonneg l).
      cbn [udp_sum_loop]. destruct (Z.ltb_spec i (i + (zlen l + 1 + 1))); [|lia].
      replace (u16 (i + 2)) with (i + 2) by (unwrap; lia).
      assert (Hpre : pre ++ (x :: y :: l) ++ post = (pre ++ [x; y]) ++ l ++ post) by (rewrite <- app_assoc; done).
      assert (Hp2 : i + 2 = zlen (pre ++ [x; y])) by (rewrite zlen_app; change (zlen [x; y]) with 2; lia).
      replace (i + (zlen l + 1 + 1)) with (i + 2 + zlen l) by lia.
      assert (Hdiv : (i + 2) / 2 = i / 2 + 1) by (replace (i + 2) with (i + 1 * 2) by lia; rewrite Z.div_add; lia).
      assert (Hm2 : (i + 2) mod 2 = 0) by (replace (i + 2) with (i + 1 * 2) by lia; rewrite Z.mod_add; lia).
      cbn [sum_without]. rewrite Hk. destruct (Z.eqb_spec i 6).
      * rewrite Hpre. rewrite IH; [|done|done|done|lia|cbn in Hf; lia|lia|lia]. f_equal. rewrite Hdiv. replace (3 - (i / 2 + 1)) with (3 - i / 2 - 1) by lia. lia.
      * destruct (Z.eqb_spec i (i + 2 + zlen l - 1)); [lia|].
        cbn [app]. rewrite (aget_app_at pre x (y :: l ++ post) i Hi). mcbn. rewrite (cons_middle x pre (y :: l ++ post)).
        rewrite app_assoc. rewrite (aget_app_at (pre ++ [x]) y) by (rewrite zlen_app; change (zlen [x]) with 1; lia). mcbn.
        rewrite word_value by done. replace (u32 (c + (x * 256 + y))) with (c + (x * 256 + y)) by (unfold_ints; unwrap; lia).
        replace ((pre ++ [x]) ++ y :: l ++ post) with ((pre ++ [x; y]) ++ l ++ post) by (rewrite <- !app_assoc; done).
        unfold_ints. rewrite IH; [|done|done|done|lia|cbn in Hf; lia|lia|lia]. f_equal. rewrite Hdiv. replace (3 - (i / 2 + 1)) with (3 - i / 2 - 1) by lia. lia.
Qed.

Lemma udp_sum_all fuel l post c :
  Forall (in_u 8) l -> (base.length l <= 2 * fuel)%nat -> zlen l <= 65534 -> 0 <= c -> 2 * c + 65535 * (zlen l + 1) < 2 ^ 33 ->
  udp_sum_loop fuel (l ++ post) (zlen l) 0 c = Ok (c + sum (words (zero_field 6 l))).
Proof.
  intros Hl Hf Hlen Hc Hb. pose proof (udp_sum_loop_ok fuel [] l post 0 c Hl eq_refl eq_refl) as E. cbn [app] in E. rewrite Z.add_0_l in E.
  rewrite E by lia. change (0 / 2) with 0. rewrite Z.sub_0_r, sum_without_field by lia. done.
Qed.

Lemma fold_step c : 0 <= c < 2 ^ 32 -> u32 (c ≫ 16 + Z.land c 65535) = c mod 65536 + c / 65536.
Proof.
  intros Hc. change 65535 with (Z.ones 16). rewrite Z.land_ones, Z.shiftr_div_pow2 by lia. change (2 ^ 16) with 65536.
  pose proof (Z.mod_pos_bound c 65536 ltac:(lia)). pose proof (Z.div_pos c 65536 ltac:(lia) ltac:(lia)).
  assert (c / 65536 < 65536) by (apply Z.div_lt_upper_bound; lia). unwrap. lia.
Qed.

Lemma fold_carries_ok c : 0 <= c < 2 ^ 32 -> fold_carries c = Ok (carry_all c).
Proof.
  intros Hc. unfold fold_carries.
  assert (Hcond : forall c, 0 <= c < 2 ^ 32 -> (0 <? c ≫ 16) = (65535 <? c)).
  { intros d Hd. rewrite Z.shiftr_div_pow2 by lia. change (2 ^ 16) with 65536. pose proof (Z.div_mod d 65536 ltac:(lia)). pose proof (Z.mod_pos_bound d 65536 ltac:(lia)).
    pose proof (Z.div_pos d 65536 ltac:(lia) ltac:(lia)). destruct (Z.ltb_spec 0 (d / 65536)), (Z.ltb_spec 65535 d); (done || lia). }
  assert (Hstep : forall d, 65535 < d < 2 ^ 32 -> 0 <= d mod 65536 + d / 65536 < d /\ carry_all (d mod 65536 + d / 65536) = carry_all d).
  { intros d Hd. split; [|apply carry_all_fold; lia]. pose proof (Z.div_mod d 65536 ltac:(lia)). pose proof (Z.mod_pos_bound d 65536 ltac:(lia)).
    pose proof (Z.div_pos d 65536 ltac:(lia) ltac:(lia)). assert (d / 65536 <> 0) by lia. lia. }
  cbn [while]. rewrite Hcond by done. destruct (Z.ltb_spec 65535 c); [|by rewrite carry_all_small by lia].
  mcbn. rewrite fold_step by done. destruct (Hstep c) as [H1 <-]; [lia|]. set (d := c mod 65536 + c / 65536) in *.
  assert (Hd : d <= 131070). { unfold d. pose proof (Z.mod_pos_bound c 65536 ltac:(lia)). assert (c / 65536 < 65536) by (apply Z.div_lt_upper_bound; lia). lia. }
  clearbody d. rewrite Hcond by lia. destruct (Z.ltb_spec 65535 d); [|by rewrite carry_all_small by lia].
  mcbn. rewrite fold_step by lia. destruct (Hstep d) as [H2 <-]; [lia|].
  assert (d / 65536 = 1) as -> by (symmetry; apply (Z.div_unique _ _ _ (d - 65536)); lia).
  assert (d mod 65536 = d - 65536) as -> by (symmetry; apply (Z.mod_unique _ _ 1); lia).
  rewrite Hcond by lia. destruct (Z.ltb_spec 65535 (d - 65536 + 1)); [lia|]. by rewrite carry_all_small by lia.
Qed.

Lemma rounds_enough (l : list Z) : zlen l <= 65534 -> (base.length l <= 2 * udp_rounds)%nat.
Proof.
  intros Hl. apply Nat2Z.inj_le. unfold udp_rounds. rewrite Nat2Z.inj_mul, Z2Nat.id by lia. unfold zlen in Hl. lia.
Qed.

Lemma udp_rounds_ok fuel ph l post post' :
  Forall (in_u 8) ph -> zlen ph = 12 -> Forall (in_u 8) l -> zlen l <= 65534 -> (base.length l <= 2 * fuel)%nat ->
  (checksum ← pseudo_sum_loop 6 (ph ++ post) 0 0;
   checksum ← udp_sum_loop fuel (l ++ post') (zlen l) 0 checksum;
   checksum ← fold_carries checksum;
   Ok (u16 (Z.lnot checksum))) = Ok (rfc1071 (words ph ++ words (zero_field 6 l))).
Proof.
  intros Hph Hp Hl Hlen Hf. rewrite pseudo_sum_loop_ok by done. mcbn. pose proof (zlen_nonneg l).
  pose proof (words_length ph Hph) as Hps. rewrite Hp in Hps.
  rewrite udp_sum_all by (done || lia). mcbn.
  pose proof (words_length (zero_field 6 l) (zero_field_bytes _ _ Hl)) as Hw. rewrite zlen_zero_field in Hw.
  rewrite fold_carries_ok by lia. mcbn. rewrite rfc1071_sum, sum_app.
  - f_equal. apply lnot16. pose proof (carry_all_range (sum (words ph) + sum (words (zero_field 6 l)))). unfold_ints. lia.
  - apply Forall_app. split; apply words_range; [done|by apply zero_field_bytes].
Qed.

Lemma udp_checksum_ok ph l post post' :
  Forall (in_u 8) ph -> zlen ph = 12 -> Forall (in_u 8) l -> zlen l <= 65534 ->
  udp_calculateChecksum (ph ++ post) (l ++ post') (zlen l) = Ok (rfc1071 (words ph ++ words (zero_field 6 l))).
Proof. intros Hph Hp Hl Hlen. apply udp_rounds_ok; [done..|]. by apply rounds_enough. Qed.

(** C31: The UDP checksum is the Internet checksum of RFC 1071 over pseudo
    header and datagram, for every datagram of at most 65534 bytes, of odd
    length too. *)
Theorem udp_checksum_spec ph l post post' :
  Forall (in_u 8) ph -> zlen ph = 12 -> Forall (in_u 8) l -> zlen l <= 65534 ->
  udp_calculateChecksum (ph ++ post) (l ++ post') (zlen l) = Ok (rfc1071 (words ph ++ words (zero_field 6 l))).
Proof. apply udp_checksum_ok. Qed.

(** A datagram with an odd number of bytes. *)
Lemma udp_checksum_spec_witness :
  udp_calculateChecksum [10; 0; 0; 1; 10; 0; 0; 2; 0; 17; 0; 11] [0; 53; 4; 0; 0; 11; 0; 0; 1; 2; 3] 11 = Ok 58270.
Proof.
  etransitivity; [apply (udp_checksum_spec [10; 0; 0; 1; 10; 0; 0; 2; 0; 17; 0; 11] [0; 53; 4; 0; 0; 11; 0; 0; 1; 2; 3] [] [])|reflexivity]; try done;
    repeat constructor; unfold in_u; lia.
Defined.
