(* ===== verification/NetworkStack.v ===== *)
(** * NetworkStack.v: the network stack of the kernel

    [kernel/network]: the modules for Ethernet, ARP, IPv4 (with routes and interfaces), ICMP and UDP, the sockets
    that are registered with them, and the part of [device/network/NetworkDevice] they use. [Stack] is the state
    of all modules. Frames, headers and datagrams are the bytes of [Streams.v] and [Headers.v].

    An [ArrayList] is the list of its elements ([ArrayList_refines_list]); a loop over one runs over a copy
    of the elements, because its iterator owns an array of its own ([Array.v]). The modules' locks are
    not part of the state: each critical section is one function here. *)

From S2P Require Import UtilString Streams NetworkAddress Headers Checksum Prelude Bits.
Import NetworkAddress.

(** ** Data *)

(** An identifier is the sequence of its characters. *)
Definition Identifier := list Z.

(** What the stack knows of a device; [outgoing] are the frames it has handed to the driver. *)
Record NetworkDevice := mkDevice { identifier : Identifier; macAddress : NetworkAddress; outgoing : list (list Z) }.

Record ArpEntry := mkEntry { protocolAddress : NetworkAddress; hardwareAddress : NetworkAddress }.

(** [device] is the index of the device in the table of devices. *)
Record Ip4Interface := mkInterface { if_address : NetworkAddress; device : nat }.

Record Ip4Route := mkRoute {
  rt_sourceAddress : NetworkAddress; rt_targetAddress : NetworkAddress; rt_nextHop : NetworkAddress;
  deviceIdentifier : Identifier; nextHopValid : bool
}.

Inductive NetworkModule := ethernetModule | arpModule | ip4Module | icmpModule | udpModule.

#[export] Instance NetworkModule_eq_dec : EqDecision NetworkModule.
Proof. solve_decision. Defined.

(** [EthernetDatagram], [Ip4Datagram], [IcmpDatagram] and [UdpDatagram] with the fields they add. *)
Inductive Attributes := EthernetAttr (type : Z) | Ip4Attr (protocol : Z) | IcmpAttr (type code : Z) | UdpAttr.

Record Datagram := mkDatagram { remoteAddress : NetworkAddress; data : list Z; attributes : Attributes }.

Inductive SocketType := ETHERNET_SOCKET | IP4_SOCKET | ICMP_SOCKET | UDP_SOCKET.

(** [incomingDatagramQueue] is the sequence of the queued datagrams ([ArrayListBlockingQueue_Queue]). *)
Record Socket := mkSocket {
  socketType : SocketType; bindAddress : option NetworkAddress; timeout : Z; incomingDatagramQueue : list Datagram
}.

Record Stack := mkStack {
  devices : list NetworkDevice;
  arpCache : list ArpEntry;
  interfaces : list Ip4Interface;
  routes : list Ip4Route;
  defaultRoute : Ip4Route;
  sockets : gmap Z Socket;
  socketList : NetworkModule -> list Z;
  nextLayerModules : NetworkModule -> gmap Z NetworkModule
}.

Definition set_devices (x : list NetworkDevice) (st : Stack) : Stack :=
  mkStack x (arpCache st) (interfaces st) (routes st) (defaultRoute st) (sockets st) (socketList st) (nextLayerModules st).
Definition set_arpCache (x : list ArpEntry) (st : Stack) : Stack :=
  mkStack (devices st) x (interfaces st) (routes st) (defaultRoute st) (sockets st) (socketList st) (nextLayerModules st).
Definition set_interfaces (x : list Ip4Interface) (st : Stack) : Stack :=
  mkStack (devices st) (arpCache st) x (routes st) (defaultRoute st) (sockets st) (socketList st) (nextLayerModules st).
Definition set_routes (x : list Ip4Route) (st : Stack) : Stack :=
  mkStack (devices st) (arpCache st) (interfaces st) x (defaultRoute st) (sockets st) (socketList st) (nextLayerModules st).
Definition set_defaultRoute (x : Ip4Route) (st : Stack) : Stack :=
  mkStack (devices st) (arpCache st) (interfaces st) (routes st) x (sockets st) (socketList st) (nextLayerModules st).
Definition set_sockets (x : gmap Z Socket) (st : Stack) : Stack :=
  mkStack (devices st) (arpCache st) (interfaces st) (routes st) (defaultRoute st) x (socketList st) (nextLayerModules st).
Definition set_socketList (m : NetworkModule) (x : list Z) (st : Stack) : Stack :=
  mkStack (devices st) (arpCache st) (interfaces st) (routes st) (defaultRoute st) (sockets st)
    (fun n => if decide (n = m) then x else socketList st n) (nextLayerModules st).
Definition set_next (m : NetworkModule) (x : gmap Z NetworkModule) (st : Stack) : Stack :=
  mkStack (devices st) (arpCache st) (interfaces st) (routes st) (defaultRoute st) (sockets st) (socketList st)
    (fun n => if decide (n = m) then x else nextLayerModules st n).

Definition get_device (d : nat) (st : Stack) : outcome NetworkDevice := of_option (devices st !! d).
Definition get_socket (s : Z) (st : Stack) : outcome Socket := of_option (sockets st !! s).

(** [LayerInformation] *)
Record LayerInformation := mkInfo { sourceAddress : NetworkAddress; destinationAddress : NetworkAddress; payloadLength : Z }.

(** ** [NetworkDevice::sendPacket] *)
Module Device.

Definition MIN_ETHERNET_PACKET_SIZE : Z := 64.
Definition MAX_ETHERNET_PACKET_SIZE : Z := 1522.

(** The frame is copied into a buffer of its own, padded, and handed to the driver. *)
Definition sendPacket (d : nat) (packet : list Z) (length : Z) (st : Stack) : outcome Stack :=
  if MAX_ETHERNET_PACKET_SIZE <? length then Ok st
  else
    dev ← get_device d st;
    buffer ← copy_chars (new_chars length) 0 packet 0 length;
    let buffer := if length <? MIN_ETHERNET_PACKET_SIZE then buffer ++ new_chars (MIN_ETHERNET_PACKET_SIZE - length) else buffer in
    Ok (set_devices (<[d := mkDevice (identifier dev) (macAddress dev) (outgoing dev ++ [buffer])]> (devices st)) st).
End Device.

(** ** [NetworkModule] *)
Module Modules.

Definition registerSocket (m : NetworkModule) (socket : Z) (st : Stack) : bool * Stack :=
  (true, set_socketList m (socketList st m ++ [socket]) st).

Definition deregisterSocket (m : NetworkModule) (socket : Z) (st : Stack) : outcome Stack :=
  '(_, l) ← removeM (fun s => Ok (s =? socket)) (socketList st m); Ok (set_socketList m l st).

Definition registerNextLayerModule (m : NetworkModule) (protocolId : Z) (module : NetworkModule) (st : Stack) : Stack :=
  set_next m (<[protocolId := module]> (nextLayerModules st m)) st.

Definition isNextLayerTypeSupported (m : NetworkModule) (protocolId : Z) (st : Stack) : bool :=
  bool_decide (is_Some (nextLayerModules st m !! protocolId)).

(** [readPacket] of a module that another one calls. *)
Definition Reader := NetworkModule -> ByteArrayInputStream.ByteArrayInputStream -> LayerInformation -> nat -> Stack -> outcome Stack.

Definition invokeNextLayerModule (next : Reader) (m : NetworkModule) (protocolId : Z) (information : LayerInformation)
    (stream : ByteArrayInputStream.ByteArrayInputStream) (d : nat) (st : Stack) : outcome Stack :=
  if isNextLayerTypeSupported m protocolId st then
    module ← of_option (nextLayerModules st m !! protocolId); next module stream information d st
  else Ok st.

(** The constructor of [NetworkStack]. *)
Definition NetworkStack_new (devices : list NetworkDevice) : outcome Stack :=
  target ← Ip4SubnetAddress.Ip4SubnetAddress_new;
  let noRoute := mkRoute Ip4Address.Ip4Address_new target Ip4Address.Ip4Address_new [] false in
  let st := mkStack devices [] [] [] noRoute ∅ (fun _ => []) (fun _ => ∅) in
  let st := registerNextLayerModule ethernetModule EthernetHeader.ARP arpModule st in
  let st := registerNextLayerModule ethernetModule EthernetHeader.IP4 ip4Module st in
  let st := registerNextLayerModule ip4Module Ip4Header.ICMP icmpModule st in
  let st := registerNextLayerModule ip4Module Ip4Header.UDP udpModule st in
  Ok st.
End Modules.

(** ** [Socket] and [DatagramSocket] *)
Module Sockets.

Definition set_queue (q : list Datagram) (s : Socket) : Socket := mkSocket (socketType s) (bindAddress s) (timeout s) q.
Definition set_bindAddress (a : NetworkAddress) (s : Socket) : Socket :=
  mkSocket (socketType s) (Some a) (timeout s) (incomingDatagramQueue s).

Definition isBound (s : Socket) : bool := match bindAddress s with Some _ => true | None => false end.

Definition getAddress (s : Socket) : outcome NetworkAddress :=
  match bindAddress s with Some a => Ok a | None => Throw ILLEGAL_STATE end.

Definition setTimeout (t : Z) (s : Socket) : Socket := mkSocket (socketType s) (bindAddress s) t (incomingDatagramQueue s).

Definition handleIncomingDatagram (socket : Z) (datagram : Datagram) (st : Stack) : outcome Stack :=
  s ← get_socket socket st;
  Ok (set_sockets (<[socket := set_queue (incomingDatagramQueue s ++ [datagram]) s]> (sockets st)) st).

(** [None] is the null pointer after the timeout; without a timeout the caller waits for a datagram. *)
Definition receive (socket : Z) (st : Stack) : outcome (option Datagram * Stack) :=
  s ← get_socket socket st;
  match incomingDatagramQueue s with
  | d :: q => Ok (Some d, set_sockets (<[socket := set_queue q s]> (sockets st)) st)
  | [] => if 0 <? timeout s then Ok (None, st) else Loops
  end.

Definition isReadyToRead (s : Socket) : bool := match incomingDatagramQueue s with [] => false | _ => true end.

(** [new XDatagram(buffer, length, address)] with [uint16_t length]: the bytes are copied. *)
Definition new_datagram (buffer : list Z) (length : Z) (address : NetworkAddress) (attr : Attributes) : outcome Datagram :=
  b ← copy_chars (new_chars (u16 length)) 0 buffer 0 (u16 length);
  a ← NetworkAddress_copy address;
  Ok (mkDatagram a b attr).

(** A datagram for every socket of module [m] whose address satisfies [p]. *)
Definition deliver (m : NetworkModule) (p : NetworkAddress -> outcome bool) (buffer : list Z) (length : Z) (address : NetworkAddress)
    (attr : Attributes) (st : Stack) : outcome Stack :=
  foldM (fun socket st =>
    s ← get_socket socket st;
    a ← getAddress s;
    b ← p a;
    if (b : bool) then datagram ← new_datagram buffer length address attr; handleIncomingDatagram socket datagram st
    else Ok st) (socketList st m) st.
End Sockets.

(** ** Sending frames: the parts of [EthernetModule] that other modules call *)
Module Ethernet.
Section Ethernet.
Context `{FreshMemory}.

Definition MINIMUM_PACKET_SIZE : Z := 64.

Definition checkPacket (packet : list Z) (length : Z) : bool := true.
Definition calculateCheckSequence (packet : list Z) (length : Z) : Z := 0.

Definition writeHeader (dev : NetworkDevice) (destination : NetworkAddress) (etherType : Z) (stream : ByteArrayOutputStream.ByteArrayOutputStream)
    : outcome ByteArrayOutputStream.ByteArrayOutputStream :=
  let header := EthernetHeader.EthernetHeader_new in
  header ← EthernetHeader.setSourceAddress (macAddress dev) header;
  header ← EthernetHeader.setDestinationAddress destination header;
  let header := EthernetHeader.setEtherType etherType header in
  EthernetHeader.write header stream.

Definition finalizePacket (packet : ByteArrayOutputStream.ByteArrayOutputStream) : outcome ByteArrayOutputStream.ByteArrayOutputStream :=
  let n := ByteArrayOutputStream.getLength packet in
  for_up (Z.to_nat (MINIMUM_PACKET_SIZE - 4 - n)) n (fun _ packet => NumberUtil.writeUnsigned8BitValue 0 packet) packet.
End Ethernet.
End Ethernet.

(** ** [ArpModule] *)
Module Arp.
Section Arp.
Context `{FreshMemory}.

(** What the other threads do with the stack while this one sleeps. *)
Context (others : Stack -> Stack).

Definition MAX_REQUEST_RETRIES : nat := 10.

Definition entry_equals (other e : ArpEntry) : outcome bool :=
  andM (equals (hardwareAddress e) (hardwareAddress other)) (equals (protocolAddress e) (protocolAddress other)).

Definition findEntry (ip : NetworkAddress) (st : Stack) : outcome (option (nat * ArpEntry)) :=
  findM (fun e => equals (protocolAddress e) ip) (arpCache st).

(** The entry that is found is the one in the iterator's copy of the list. *)
Definition setEntry (ip mac : NetworkAddress) (st : Stack) : outcome Stack :=
  r ← findEntry ip st;
  match r with
  | Some (_, e) => _ ← assign mac (hardwareAddress e); Ok st
  | None => p ← NetworkAddress_copy ip; h ← NetworkAddress_copy mac; Ok (set_arpCache (arpCache st ++ [mkEntry p h]) st)
  end.

Definition removeEntry (ip : NetworkAddress) (st : Stack) : outcome Stack :=
  r ← findEntry ip st;
  match r with
  | Some (_, e) => '(_, l) ← removeM (entry_equals e) (arpCache st); Ok (set_arpCache l st)
  | None => Ok st
  end.

Definition getHardwareAddress (ip : NetworkAddress) (st : Stack) : outcome NetworkAddress :=
  r ← findEntry ip st;
  match r with Some (_, e) => NetworkAddress_copy (hardwareAddress e) | None => Throw INVALID_ARGUMENT end.

Definition hasHardwareAddress (ip : NetworkAddress) (st : Stack) : outcome bool :=
  r ← findEntry ip st; Ok (match r with Some _ => true | None => false end).

Definition writeHeader (operation : Z) (dev : NetworkDevice) (destination : NetworkAddress) (stream : ByteArrayOutputStream.ByteArrayOutputStream)
    : outcome ByteArrayOutputStream.ByteArrayOutputStream :=
  stream ← Ethernet.writeHeader dev destination EthernetHeader.ARP stream;
  ArpHeader.write (ArpHeader.setOperation operation ArpHeader.ArpHeader_new) stream.

(** An ARP packet with its four addresses, padded. *)
Definition arp_packet (operation : Z) (dev : NetworkDevice) (destination senderMac senderIp targetMac targetIp : NetworkAddress)
    : outcome ByteArrayOutputStream.ByteArrayOutputStream :=
  let packet := ByteArrayOutputStream.ByteArrayOutputStream_new in
  packet ← writeHeader operation dev destination packet;
  packet ← NetworkAddress.write senderMac packet;
  packet ← NetworkAddress.write senderIp packet;
  packet ← NetworkAddress.write targetMac packet;
  packet ← NetworkAddress.write targetIp packet;
  Ethernet.finalizePacket packet.

Definition send (d : nat) (packet : ByteArrayOutputStream.ByteArrayOutputStream) (st : Stack) : outcome Stack :=
  Device.sendPacket d (ByteArrayOutputStream.getBuffer packet) (ByteArrayOutputStream.getLength packet) st.

(** The address that belongs to [ip], or [None] after ten requests without an answer. *)
Fixpoint resolve_loop (n : nat) (ip hardware : NetworkAddress) (i : Ip4Interface) (st : Stack) : outcome (option NetworkAddress * Stack) :=
  match n with
  | O => Ok (None, st)
  | S n =>
    b ← hasHardwareAddress ip st;
    if (b : bool) then mac ← getHardwareAddress ip st; a ← assign mac hardware; Ok (Some a, st)
    else
      dev ← get_device (device i) st;
      ipAddress ← Ip4SubnetAddress.getIp4Address (if_address i);
      broadcast ← MacAddress.createBroadcastAddress;
      packet ← arp_packet ArpHeader.REQUEST dev broadcast (macAddress dev) ipAddress MacAddress.MacAddress_new ip;
      st ← send (device i) packet st;
      resolve_loop n ip hardware i (others st)
  end.

Definition resolveAddress (ip hardware : NetworkAddress) (i : Ip4Interface) (st : Stack) : outcome (option NetworkAddress * Stack) :=
  resolve_loop MAX_REQUEST_RETRIES ip hardware i st.

(** The reply is addressed to the hardware address that was asked for. *)
Definition handleRequest (sourceMac sourceIp targetIp : NetworkAddress) (d : nat) (st : Stack) : outcome Stack :=
  st ← setEntry sourceIp sourceMac st;
  b ← hasHardwareAddress targetIp st;
  if (b : bool) then
    targetMac ← getHardwareAddress targetIp st;
    dev ← get_device d st;
    packet ← arp_packet ArpHeader.REPLY dev targetMac (macAddress dev) targetIp sourceMac sourceIp;
    send d packet st
  else Ok st.

Definition handleReply (sourceMac sourceIp targetMac targetIp : NetworkAddress) (st : Stack) : outcome Stack :=
  st ← setEntry sourceIp sourceMac st;
  b ← MacAddress.isBroadcastAddress targetMac;
  if (b : bool) then Ok st else setEntry targetIp targetMac st.

Definition readPacket (stream : ByteArrayInputStream.ByteArrayInputStream) (information : LayerInformation) (d : nat) (st : Stack) : outcome Stack :=
  '(header, stream) ← ArpHeader.read stream;
  if negb (ArpHeader.getHardwareAddressType header =? ArpHeader.ETHERNET) then Ok st
  else if negb (ArpHeader.getProtocolAddressType header =? ArpHeader.IP4) then Ok st
  else
    '(sourceMac, stream) ← NetworkAddress.read MacAddress.MacAddress_new stream;
    '(sourceIp, stream) ← NetworkAddress.read Ip4Address.Ip4Address_new stream;
    '(targetMac, stream) ← NetworkAddress.read MacAddress.MacAddress_new stream;
    '(targetIp, stream) ← NetworkAddress.read Ip4Address.Ip4Address_new stream;
    if ArpHeader.getOperation header =? ArpHeader.REQUEST then handleRequest sourceMac sourceIp targetIp d st
    else if ArpHeader.getOperation header =? ArpHeader.REPLY then handleReply sourceMac sourceIp targetMac targetIp st
    else Ok st.
End Arp.
End Arp.

(** ** [Ip4Route] and [Ip4Interface] *)
Module Route.

Definition Ip4Route_nextHop (targetAddress nextHop : NetworkAddress) (id : Identifier) : outcome Ip4Route :=
  source ← Ip4SubnetAddress.getIp4Address targetAddress; Ok (mkRoute source targetAddress nextHop id true).
Definition Ip4Route_direct (targetAddress : NetworkAddress) (id : Identifier) : outcome Ip4Route :=
  source ← Ip4SubnetAddress.getIp4Address targetAddress; Ok (mkRoute source targetAddress Ip4Address.Ip4Address_new id false).
Definition Ip4Route_source (source targetAddress : NetworkAddress) (id : Identifier) : Ip4Route :=
  mkRoute source targetAddress Ip4Address.Ip4Address_new id false.
Definition Ip4Route_source_nextHop (source targetAddress nextHop : NetworkAddress) (id : Identifier) : Ip4Route :=
  mkRoute source targetAddress nextHop id true.

Definition route_equals (other r : Ip4Route) : outcome bool :=
  andM (equals (rt_targetAddress r) (rt_targetAddress other))
    (andM (Ok (bool_decide (deviceIdentifier r = deviceIdentifier other))) (equals (rt_nextHop r) (rt_nextHop other))).

Definition getSourceAddress (r : Ip4Route) : NetworkAddress := rt_sourceAddress r.
Definition getTargetAddress (r : Ip4Route) : outcome NetworkAddress := Ip4SubnetAddress.getSubnetAddress (rt_targetAddress r).
Definition getNextHop (r : Ip4Route) : outcome NetworkAddress := if nextHopValid r then Ok (rt_nextHop r) else Throw UNSUPPORTED_OPERATION.
Definition getDeviceIdentifier (r : Ip4Route) : Identifier := deviceIdentifier r.
Definition hasNextHop (r : Ip4Route) : bool := nextHopValid r.
Definition isValid (r : Ip4Route) : bool := match deviceIdentifier r with [] => false | _ => true end.
End Route.

Module Interface.

Definition getSubnetAddress (i : Ip4Interface) : NetworkAddress := if_address i.
Definition getIp4Address (i : Ip4Interface) : outcome NetworkAddress := Ip4SubnetAddress.getIp4Address (if_address i).
Definition getDeviceIdentifier (i : Ip4Interface) (st : Stack) : outcome Identifier := dev ← get_device (device i) st; Ok (identifier dev).

Definition isTargetOf (target : NetworkAddress) (i : Ip4Interface) : outcome bool :=
  orM (a ← Ip4SubnetAddress.getIp4Address (if_address i); equals target a)
    (orM (b ← Ip4SubnetAddress.getBroadcastAddress (if_address i); equals b target)
      (Ip4Address.isBroadcastAddress target)).

Definition interface_equals (other i : Ip4Interface) : outcome bool := equals (if_address i) (if_address other).
End Interface.

(** ** [Ip4RoutingModule] *)
Module Routing.

Definition getTargetInterfaces (address : NetworkAddress) (st : Stack) : outcome (list Ip4Interface) :=
  filterM (Interface.isTargetOf address) (interfaces st).

Definition addRoute (route : Ip4Route) (st : Stack) : outcome (bool * Stack) :=
  ifs ← getTargetInterfaces (Route.getSourceAddress route) st;
  match ifs with
  | [] => Ok (false, st)
  | _ =>
    target ← Route.getTargetAddress route;
    bits ← Ip4SubnetAddress.getBitCount target;
    if bits =? 0 then
      '(_, l) ← removeM (Route.route_equals route) (routes st);
      Ok (true, set_defaultRoute route (set_routes l st))
    else
      b ← containsM (Route.route_equals route) (routes st);
      if (b : bool) then Ok (false, st) else Ok (true, set_routes (routes st ++ [route]) st)
  end.

(** [Ip4Route()] *)
Definition noRoute : outcome Ip4Route :=
  target ← Ip4SubnetAddress.Ip4SubnetAddress_new; Ok (mkRoute Ip4Address.Ip4Address_new target Ip4Address.Ip4Address_new [] false).

Definition removeRoute (route : Ip4Route) (st : Stack) : outcome (bool * Stack) :=
  b ← Route.route_equals (defaultRoute st) route;
  if (b : bool) then r ← noRoute; Ok (true, set_defaultRoute r st)
  else '(ret, l) ← removeM (Route.route_equals route) (routes st); Ok (ret, set_routes l st).

Definition removeRoute_local (localAddress : NetworkAddress) (id : Identifier) (st : Stack) : outcome Stack :=
  route ← Route.Ip4Route_direct localAddress id; '(_, st) ← removeRoute route st; Ok st.

Definition getDefaultRoute (st : Stack) : Ip4Route := defaultRoute st.

Definition getRoutes (source : NetworkAddress) (st : Stack) : outcome (list Ip4Route) :=
  anySource ← equals source Ip4Address.ANY;
  l ← filterM (fun r => orM (Ok anySource) (equals (Route.getSourceAddress r) source)) (routes st);
  b ← orM (Ok anySource) (equals (Route.getSourceAddress (defaultRoute st)) source);
  Ok (if (b : bool) then l ++ [defaultRoute st] else l).

(** The reference that [findRoute] returns: to the member [defaultRoute], or to an element of the array that the
    iterator of its loop owned. That array is gone when [findRoute] returns. *)
Inductive RouteReference := ToDefaultRoute | ToIteratorElement (route : Ip4Route).

(** [longestPrefix] stays 0. *)
Definition route_step (anySource : bool) (source address : NetworkAddress) (route : Ip4Route) (bestRoute : option Ip4Route)
    : outcome (option Ip4Route) :=
  b ← orM (Ok anySource) (equals source (Route.getSourceAddress route));
  if (b : bool) then
    subnetAddress ← Route.getTargetAddress route;
    prefix ← compareTo address subnetAddress;
    bits ← Ip4SubnetAddress.getBitCount subnetAddress;
    let longestPrefix := 0 in
    Ok (if (bits <=? prefix) && (longestPrefix <? prefix) then Some route else bestRoute)
  else Ok bestRoute.

Definition findRoute (source address : NetworkAddress) (st : Stack) : outcome RouteReference :=
  anySource ← equals source Ip4Address.ANY;
  bestRoute ← foldM (route_step anySource source address) (routes st) None;
  match bestRoute with
  | Some route => Ok (ToIteratorElement route)
  | None =>
    b ← (if Route.isValid (defaultRoute st) then orM (Ok anySource) (equals source (Route.getSourceAddress (defaultRoute st))) else Ok false);
    if (b : bool) then Ok ToDefaultRoute else Throw INVALID_ARGUMENT
  end.

(** Copying the route that a reference refers to. *)
Definition dereference (r : RouteReference) (st : Stack) : outcome Ip4Route :=
  match r with ToDefaultRoute => Ok (defaultRoute st) | ToIteratorElement _ => Fault end.
End Routing.

(** ** [Ip4Module] *)
Module Ip4.
Import Routing.

Definition getInterfaces (id : Identifier) (st : Stack) : outcome (list Ip4Interface) :=
  filterM (fun i => x ← Interface.getDeviceIdentifier i st; Ok (bool_decide (x = id))) (interfaces st).

Definition registerInterface (address : NetworkAddress) (d : nat) (st : Stack) : outcome (bool * Stack) :=
  let i := mkInterface address d in
  b ← orM (containsM (Interface.interface_equals i) (interfaces st)) (a ← Interface.getIp4Address i; equals a Ip4Address.ANY);
  if (b : bool) then Ok (false, st)
  else
    let st := set_interfaces (interfaces st ++ [i]) st in
    a ← Ip4SubnetAddress.getIp4Address address;
    dev ← get_device d st;
    st ← Arp.setEntry a (macAddress dev) st;
    Ok (true, st).

Definition removeInterface (address : NetworkAddress) (id : Identifier) (st : Stack) : outcome (bool * Stack) :=
  r ← findM (fun i => andM (equals (Interface.getSubnetAddress i) address)
    (x ← Interface.getDeviceIdentifier i st; Ok (bool_decide (x = id)))) (interfaces st);
  match r with
  | Some (_, i) =>
    a ← Interface.getIp4Address i;
    st ← Arp.removeEntry a st;
    st ← removeRoute_local address id st;
    '(_, l) ← removeM (Interface.interface_equals i) (interfaces st);
    Ok (true, set_interfaces l st)
  | None => Ok (false, st)
  end.

(** Byte [i] behind the pointer [buffer + n]. *)
Definition byte_at (buffer : list Z) (i : Z) : outcome Z := aget buffer i.

Section Packets.
Context `{FreshMemory} (others : Stack -> Stack).

(** The packet of an expired [timeToLive] is logged and handled. *)
Definition readPacket (next : Modules.Reader) (stream : ByteArrayInputStream.ByteArrayInputStream) (information : LayerInformation) (d : nat)
    (st : Stack) : outcome Stack :=
  let buffer := zdrop (ByteArrayInputStream.getPosition stream) (ByteArrayInputStream.getBuffer stream) in
  b0 ← byte_at buffer 0;
  let headerLength := u8 (Z.land b0 15 * 4) in
  calculatedChecksum ← ip4_calculateChecksum buffer Ip4Header.CHECKSUM_OFFSET headerLength;
  hi ← byte_at buffer Ip4Header.CHECKSUM_OFFSET;
  lo ← byte_at buffer (Ip4Header.CHECKSUM_OFFSET + 1);
  let receivedChecksum := Z.lor (hi ≪ 8) lo in
  if negb (receivedChecksum =? calculatedChecksum) then Ok st
  else
    '(header, stream) ← Ip4Header.read Ip4Header.Ip4Header_new stream;
    if negb (Ip4Header.getVersion header =? 4) then Ok st
    else
      ifs ← getTargetInterfaces (Ip4Header.getDestinationAddress header) st;
      match ifs with
      | [] => Ok st
      | _ =>
        let payloadLength := Ip4Header.getPayloadLength header in
        let datagramBuffer := zdrop (ByteArrayInputStream.getPosition stream) (ByteArrayInputStream.getBuffer stream) in
        st ← Sockets.deliver ip4Module
          (fun a => orM (equals a Ip4Address.ANY) (equals a (Ip4Header.getDestinationAddress header)))
          datagramBuffer payloadLength (Ip4Header.getSourceAddress header) (Ip4Attr (Ip4Header.getProtocol header)) st;
        Modules.invokeNextLayerModule next ip4Module (Ip4Header.getProtocol header)
          (mkInfo (Ip4Header.getSourceAddress header) (Ip4Header.getDestinationAddress header) (Ip4Header.getPayloadLength header)) stream d st
      end.

(** The bytes [hi] and [lo] of the checksum, stored at [n] and [n + 1] of the stream's buffer. *)
Definition store_checksum (checksum n : Z) (stream : ByteArrayOutputStream.ByteArrayOutputStream)
    : outcome ByteArrayOutputStream.ByteArrayOutputStream :=
  b ← aset (ByteArrayOutputStream.getBuffer stream) n (u8 (checksum ≫ 8));
  b ← aset b (n + 1) (u8 checksum);
  Ok (ByteArrayOutputStream.set_buffer b stream).

(** The checksum of the header that starts at [start]. *)
Definition header_checksum (start : Z) (stream : ByteArrayOutputStream.ByteArrayOutputStream) : outcome ByteArrayOutputStream.ByteArrayOutputStream :=
  let buffer := zdrop start (ByteArrayOutputStream.getBuffer stream) in
  b0 ← byte_at buffer 0;
  let headerLength := u8 (Z.land b0 15 * 4) in
  checksum ← ip4_calculateChecksum buffer Ip4Header.CHECKSUM_OFFSET headerLength;
  store_checksum checksum (start + Ip4Header.CHECKSUM_OFFSET) stream.

Definition writeHeader (source destination : NetworkAddress) (protocol payloadLength : Z) (stream : ByteArrayOutputStream.ByteArrayOutputStream)
    (st : Stack) : outcome (Ip4Interface * ByteArrayOutputStream.ByteArrayOutputStream * Stack) :=
  r ← findRoute source destination st;
  route ← dereference r st;
  ifs ← getTargetInterfaces (Route.getSourceAddress route) st;
  i ← (match ifs with i :: _ => Ok i | [] => Throw OUT_OF_BOUNDS end);
  hop ← (if Route.hasNextHop route then Route.getNextHop route else Ok destination);
  '(mac, st) ← Arp.resolveAddress others hop MacAddress.MacAddress_new i st;
  match mac with
  | None => Throw INVALID_ARGUMENT
  | Some mac =>
    dev ← get_device (device i) st;
    stream ← Ethernet.writeHeader dev mac EthernetHeader.IP4 stream;
    header ← Ip4Header.setSourceAddress (Route.getSourceAddress route) Ip4Header.Ip4Header_new;
    header ← Ip4Header.setDestinationAddress destination header;
    let header := Ip4Header.setProtocol protocol header in
    let header := Ip4Header.setPayloadLength payloadLength header in
    let header := Ip4Header.setTimeToLive 64 header in
    stream ← Ip4Header.write header stream;
    stream ← header_checksum (u32 (ByteArrayOutputStream.getPosition stream - Ip4Header.getHeaderLength header)) stream;
    Ok (i, stream, st)
  end.
End Packets.
End Ip4.

(** ** [IcmpModule] *)
Module Icmp.
Section Icmp.
Context `{FreshMemory} (others : Stack -> Stack).

Definition writePacket (type code : Z) (source destination : NetworkAddress) (buffer : list Z) (length : Z) (st : Stack) : outcome Stack :=
  let packet := ByteArrayOutputStream.ByteArrayOutputStream_new in
  let datagramLength := length + IcmpHeader.HEADER_LENGTH in
  '(i, packet, st) ← Ip4.writeHeader others source destination Ip4Header.ICMP (u16 datagramLength) packet st;
  packet ← IcmpHeader.write (IcmpHeader.setCode code (IcmpHeader.setType type IcmpHeader.IcmpHeader_new)) packet;
  let positionAfterHeaders := ByteArrayOutputStream.getPosition packet in
  packet ← ByteArrayOutputStream.writeBytes buffer 0 length packet;
  let datagramBuffer := zdrop (ByteArrayOutputStream.getPosition packet - datagramLength) (ByteArrayOutputStream.getBuffer packet) in
  checksum ← ip4_calculateChecksum datagramBuffer IcmpHeader.CHECKSUM_OFFSET datagramLength;
  packet ← Ip4.store_checksum checksum (positionAfterHeaders - 2) packet;
  packet ← Ethernet.finalizePacket packet;
  Arp.send (device i) packet st.

Definition sendEchoReply (source destination : NetworkAddress) (requestHeader : EchoHeader.EchoHeader) (buffer : list Z) (length : Z) (st : Stack)
    : outcome Stack :=
  let packet := ByteArrayOutputStream.ByteArrayOutputStream_new in
  let replyHeader := EchoHeader.setSequenceNumber (EchoHeader.getSequenceNumber requestHeader)
    (EchoHeader.setIdentifier (EchoHeader.getIdentifier requestHeader) EchoHeader.EchoHeader_new) in
  packet ← EchoHeader.write replyHeader packet;
  packet ← ByteArrayOutputStream.writeBytes buffer 0 length packet;
  writePacket IcmpHeader.ECHO_REPLY 0 source destination (ByteArrayOutputStream.getBuffer packet) (u16 (ByteArrayOutputStream.getLength packet)) st.

Definition readPacket (stream : ByteArrayInputStream.ByteArrayInputStream) (information : LayerInformation) (d : nat) (st : Stack) : outcome Stack :=
  let buffer := zdrop (ByteArrayInputStream.getPosition stream) (ByteArrayInputStream.getBuffer stream) in
  calculatedChecksum ← ip4_calculateChecksum buffer IcmpHeader.CHECKSUM_OFFSET (payloadLength information);
  hi ← Ip4.byte_at buffer IcmpHeader.CHECKSUM_OFFSET;
  lo ← Ip4.byte_at buffer (IcmpHeader.CHECKSUM_OFFSET + 1);
  let receivedChecksum := Z.lor (hi ≪ 8) lo in
  if negb (receivedChecksum =? calculatedChecksum) then Ok st
  else
    '(header, stream) ← IcmpHeader.read stream;
    if IcmpHeader.getType header =? IcmpHeader.ECHO_REQUEST then
      let payloadLength := u32 (payloadLength information - IcmpHeader.HEADER_LENGTH - EchoHeader.HEADER_LENGTH) in
      '(requestHeader, stream) ← EchoHeader.read stream;
      sendEchoReply (destinationAddress information) (sourceAddress information) requestHeader
        (zdrop (ByteArrayInputStream.getPosition stream) (ByteArrayInputStream.getBuffer stream)) (u16 payloadLength) st
    else
      let payloadLength := u32 (payloadLength information - IcmpHeader.HEADER_LENGTH) in
      let datagramBuffer := zdrop (ByteArrayInputStream.getPosition stream) (ByteArrayInputStream.getBuffer stream) in
      Sockets.deliver icmpModule (fun a => orM (equals a Ip4Address.ANY) (equals a (destinationAddress information)))
        datagramBuffer payloadLength (sourceAddress information) (IcmpAttr (IcmpHeader.getType header) (IcmpHeader.getCode header)) st.
End Icmp.
End Icmp.

(** ** [UdpModule] *)
Module Udp.

(** [socketAddress == Ip4Address::ANY] compares an address with a port to one without. *)
Definition port_taken (anyAddress : bool) (address : NetworkAddress) (i : Z) (st : Stack) (socket : Z) : outcome bool :=
  s ← get_socket socket st;
  a ← Sockets.getAddress s;
  port ← Ip4PortAddress.getPort a;
  andM (Ok (port =? i))
    (orM (Ok anyAddress) (orM (equals a Ip4Address.ANY) (ip ← Ip4PortAddress.getIp4Address a; equals ip address))).

Definition generatePort (address : NetworkAddress) (st : Stack) : outcome Z :=
  anyAddress ← equals address Ip4Address.ANY;
  '(r, _) ← for_find (Z.to_nat (65535 - 1024)) 1024 (fun i (_ : unit) =>
    taken ← containsM (port_taken anyAddress address i st) (socketList st udpModule);
    Ok (if (taken : bool) then None else Some i, tt)) tt;
  match r with Some port => Ok port | None => Throw INVALID_ARGUMENT end.

Definition conflict (anyAddress : bool) (socketAddress : NetworkAddress) (st : Stack) (current : Z) : outcome bool :=
  s ← get_socket current st;
  currentAddress ← Sockets.getAddress s;
  port ← Ip4PortAddress.getPort socketAddress;
  currentPort ← Ip4PortAddress.getPort currentAddress;
  orM (andM (equals currentAddress Ip4Address.ANY) (Ok (port =? currentPort)))
    (orM (andM (Ok anyAddress) (Ok (currentPort =? port))) (equals currentAddress socketAddress)).

Definition registerSocket (socket : Z) (st : Stack) : outcome (bool * Stack) :=
  s ← get_socket socket st;
  socketAddress ← Sockets.getAddress s;
  ip ← Ip4PortAddress.getIp4Address socketAddress;
  anyAddress ← equals ip Ip4Address.ANY;
  port ← Ip4PortAddress.getPort socketAddress;
  socketAddress ← (if port =? 0 then p ← generatePort ip st; Ip4PortAddress.setPort p socketAddress else Ok socketAddress);
  let st := set_sockets (<[socket := Sockets.set_bindAddress socketAddress s]> (sockets st)) st in
  b ← containsM (conflict anyAddress socketAddress st) (socketList st udpModule);
  if (b : bool) then Ok (false, st)
  else Ok (true, set_socketList udpModule (socketList st udpModule ++ [socket]) st).

Section Packets.
Context `{FreshMemory} (others : Stack -> Stack).

Definition readPacket (stream : ByteArrayInputStream.ByteArrayInputStream) (information : LayerInformation) (d : nat) (st : Stack) : outcome Stack :=
  pseudoHeader ← Ip4PseudoHeader.Ip4PseudoHeader_new (sourceAddress information) (destinationAddress information) (u16 (payloadLength information));
  '(header, stream) ← UdpHeader.read stream;
  pseudoHeaderStream ← Ip4PseudoHeader.write pseudoHeader ByteArrayOutputStream.ByteArrayOutputStream_new;
  checksum ← udp_calculateChecksum (ByteArrayOutputStream.getBuffer pseudoHeaderStream)
    (zdrop (ByteArrayInputStream.getPosition stream - UdpHeader.HEADER_SIZE) (ByteArrayInputStream.getBuffer stream)) (u16 (payloadLength information));
  if negb (UdpHeader.getChecksum header =? checksum) then Ok st
  else
    source ← Ip4PortAddress.Ip4PortAddress_port (sourceAddress information) (UdpHeader.getSourcePort header);
    destination ← Ip4PortAddress.Ip4PortAddress_port (Ip4PseudoHeader.getDestinationAddress pseudoHeader) (UdpHeader.getDestinationPort header);
    let payloadLength := u32 (UdpHeader.getDatagramLength header - UdpHeader.HEADER_SIZE) in
    let datagramBuffer := zdrop (ByteArrayInputStream.getPosition stream) (ByteArrayInputStream.getBuffer stream) in
    Sockets.deliver udpModule
      (fun a => orM (andM (ip ← Ip4PortAddress.getIp4Address a; equals ip Ip4Address.ANY)
          (p ← Ip4PortAddress.getPort a; q ← Ip4PortAddress.getPort destination; Ok (p =? q)))
        (equals a destination))
      datagramBuffer payloadLength source UdpAttr st.

Definition writePacket (source destination : NetworkAddress) (buffer : list Z) (length : Z) (st : Stack) : outcome Stack :=
  let packet := ByteArrayOutputStream.ByteArrayOutputStream_new in
  let datagramLength := length + UdpHeader.HEADER_SIZE in
  sourceIp ← Ip4PortAddress.getIp4Address source;
  destinationIp ← Ip4PortAddress.getIp4Address destination;
  '(i, packet, st) ← Ip4.writeHeader others sourceIp destinationIp Ip4Header.UDP (u16 datagramLength) packet st;
  sourcePort ← Ip4PortAddress.getPort source;
  destinationPort ← Ip4PortAddress.getPort destination;
  let header := UdpHeader.setDatagramLength (u16 datagramLength)
    (UdpHeader.setDestinationPort destinationPort (UdpHeader.setSourcePort sourcePort UdpHeader.UdpHeader_new)) in
  packet ← UdpHeader.write header packet;
  let positionAfterHeaders := ByteArrayOutputStream.getPosition packet in
  packet ← ByteArrayOutputStream.writeBytes buffer 0 length packet;
  interfaceIp ← Interface.getIp4Address i;
  destinationIp ← Ip4PortAddress.getIp4Address destination;
  pseudoHeader ← Ip4PseudoHeader.Ip4PseudoHeader_new interfaceIp destinationIp (u16 datagramLength);
  pseudoHeaderStream ← Ip4PseudoHeader.write pseudoHeader ByteArrayOutputStream.ByteArrayOutputStream_new;
  checksum ← udp_calculateChecksum (ByteArrayOutputStream.getBuffer pseudoHeaderStream)
    (zdrop (positionAfterHeaders - UdpHeader.HEADER_SIZE) (ByteArrayOutputStream.getBuffer packet)) (u16 datagramLength);
  packet ← Ip4.store_checksum checksum (positionAfterHeaders - 2) packet;
  packet ← Ethernet.finalizePacket packet;
  Arp.send (device i) packet st.
End Packets.
End Udp.

(** ** [EthernetModule::readPacket] and the whole receive path *)
Module Receive.
Section Receive.
Context `{FreshMemory} (others : Stack -> Stack).

Definition ethernet_readPacket (next : Modules.Reader) (stream : ByteArrayInputStream.ByteArrayInputStream) (information : LayerInformation)
    (d : nat) (st : Stack) : outcome Stack :=
  '(header, stream) ← EthernetHeader.read EthernetHeader.EthernetHeader_new stream;
  dev ← get_device d st;
  let destination := EthernetHeader.getDestinationAddress header in
  wrong ← andM (notEquals destination (macAddress dev)) (b ← MacAddress.isBroadcastAddress destination; Ok (negb b));
  if (wrong : bool) then Ok st
  else
    let payloadLength := u32 (payloadLength information - EthernetHeader.HEADER_LENGTH) in
    let datagramBuffer := zdrop (ByteArrayInputStream.getPosition stream) (ByteArrayInputStream.getBuffer stream) in
    st ← Sockets.deliver ethernetModule (fun a => equals a destination) datagramBuffer payloadLength
      (EthernetHeader.getSourceAddress header) (EthernetAttr (EthernetHeader.getEtherType header)) st;
    Modules.invokeNextLayerModule next ethernetModule (EthernetHeader.getEtherType header)
      (mkInfo (EthernetHeader.getSourceAddress header) destination payloadLength) stream d st.

(** [module->readPacket(...)]; the modules of a stack form three layers. *)
Fixpoint readPacket (fuel : nat) (m : NetworkModule) (stream : ByteArrayInputStream.ByteArrayInputStream) (information : LayerInformation)
    (d : nat) (st : Stack) : outcome Stack :=
  match fuel with
  | O => Loops
  | S fuel =>
    match m with
    | ethernetModule => ethernet_readPacket (readPacket fuel) stream information d st
    | arpModule => Arp.readPacket stream information d st
    | ip4Module => Ip4.readPacket (readPacket fuel) stream information d st
    | icmpModule => Icmp.readPacket others stream information d st
    | udpModule => Udp.readPacket stream information d st
    end
  end.

(** One round of [PacketReader::run]: the packet in [buffer] goes to the Ethernet module. *)
Definition handlePacket (buffer : list Z) (length : Z) (d : nat) (st : Stack) : outcome Stack :=
  readPacket 3 ethernetModule (ByteArrayInputStream.ByteArrayInputStream_new buffer length)
    (mkInfo MacAddress.MacAddress_new MacAddress.MacAddress_new length) d st.
End Receive.
End Receive.

(** ** Socket operations that use the modules *)
Module SocketCalls.
Section SocketCalls.
Context `{FreshMemory} (others : Stack -> Stack).

Definition module_of (t : SocketType) : NetworkModule :=
  match t with ETHERNET_SOCKET => ethernetModule | IP4_SOCKET => ip4Module | ICMP_SOCKET => icmpModule | UDP_SOCKET => udpModule end.

(** [networkModule.registerSocket]: only UDP has its own. *)
Definition registerSocket (socket : Z) (t : SocketType) (st : Stack) : outcome (bool * Stack) :=
  match t with
  | UDP_SOCKET => Udp.registerSocket socket st
  | _ => Ok (Modules.registerSocket (module_of t) socket st)
  end.

Definition bind (socket : Z) (address : NetworkAddress) (st : Stack) : outcome Stack :=
  s ← get_socket socket st;
  match bindAddress s with
  | Some _ => Throw ILLEGAL_STATE
  | None =>
    addressStream ← NetworkAddress.write address ByteArrayOutputStream.ByteArrayOutputStream_new;
    let b := ByteArrayOutputStream.getBuffer addressStream in
    a ← (match type address with
         | MAC => MacAddress.MacAddress_buffer b
         | NetworkAddress.IP4 => Ip4Address.Ip4Address_buffer b
         | IP4_PORT => Ip4PortAddress.Ip4PortAddress_buffer b
         | IP4_SUBNET => Throw INVALID_ARGUMENT
         end);
    let st := set_sockets (<[socket := Sockets.set_bindAddress a s]> (sockets st)) st in
    '(ok, st) ← registerSocket socket (socketType s) st;
    if (ok : bool) then Ok st else Throw INVALID_ARGUMENT
  end.

(** [Socket::~Socket] *)
Definition close (socket : Z) (st : Stack) : outcome Stack :=
  s ← get_socket socket st;
  st ← Modules.deregisterSocket (module_of (socketType s)) socket st;
  Ok (set_sockets (delete socket (sockets st)) st).

(** [NetworkService::getNetworkDevice] by hardware address. *)
Definition getNetworkDevice (address : NetworkAddress) (st : Stack) : outcome nat :=
  r ← findM (fun dev => equals (macAddress dev) address) (devices st);
  match r with Some (d, _) => Ok d | None => Throw INVALID_ARGUMENT end.

(** [send] of the four kinds of sockets; [data] and [length] are those of the datagram. *)
Definition send (socket : Z) (datagram : Datagram) (length : Z) (st : Stack) : outcome Stack :=
  s ← get_socket socket st;
  a ← Sockets.getAddress s;
  match socketType s, attributes datagram with
  | ETHERNET_SOCKET, EthernetAttr t =>
    d ← getNetworkDevice a st;
    dev ← get_device d st;
    packet ← Ethernet.writeHeader dev (remoteAddress datagram) t ByteArrayOutputStream.ByteArrayOutputStream_new;
    packet ← ByteArrayOutputStream.writeBytes (data datagram) 0 length packet;
    packet ← Ethernet.finalizePacket packet;
    Arp.send d packet st
  | IP4_SOCKET, Ip4Attr p =>
    '(i, packet, st) ← Ip4.writeHeader others a (remoteAddress datagram) p (u16 length) ByteArrayOutputStream.ByteArrayOutputStream_new st;
    packet ← ByteArrayOutputStream.writeBytes (data datagram) 0 length packet;
    packet ← Ethernet.finalizePacket packet;
    Arp.send (device i) packet st
  | ICMP_SOCKET, IcmpAttr t c => Icmp.writePacket others t c a (remoteAddress datagram) (data datagram) (u16 length) st
  | UDP_SOCKET, UdpAttr => Udp.writePacket others a (remoteAddress datagram) (data datagram) (u16 length) st
  | _, _ => Fault
  end.
End SocketCalls.
End SocketCalls.
