(* ===== verification/NetworkSpec.v ===== *)
(** * NetworkSpec.v: what the network stack does

    Theorems about [NetworkStack.v]: how a packet is built and what the receiver makes of it, the ARP cache,
    routes, and the ports of UDP sockets. *)

From S2P Require Import UtilString Streams NetworkAddress Headers Checksum NetworkStack Prelude Bits.
Import NetworkAddress.

(** ** Packets under construction *)

Lemma baos_buffer_split s :
  ByteArrayOutputStream.wf s ->
  ByteArrayOutputStream.getBuffer s =
    ByteArrayOutputStream.data s ++ zdrop (ByteArrayOutputStream.position s) (ByteArrayOutputStream.buffer s).
Proof. intros _. symmetry. apply take_drop. Qed.

Lemma byte_u8 z : in_u 8 (u8 z).
Proof. apply (wrap_range 8). lia. Qed.

Section Building.
Context `{FreshMemory}.

(** Replacing two bytes of what was written. *)
Lemma store_checksum_ok c n s :
  out_wf s -> 0 <= n -> n + 1 < zlen (out_data s) ->
  exists s', Ip4.store_checksum c n s = Ok s' /\ out_wf s' /\
    out_data s' = <[Z.to_nat (n + 1) := u8 c]> (<[Z.to_nat n := u8 (c ≫ 8)]> (out_data s)) /\ out_room s' = out_room s.
Proof.
  intros Hwf Hn Hl. pose proof (ByteArrayOutputStream.baos_data_length s Hwf) as Hp. change (out_data s) with (ByteArrayOutputStream.data s) in Hl.
  rewrite Hp in Hl. pose proof Hwf as (Hpos & Hsz & Hb & Hp2 & Ha & He & Hby). unfold Ip4.store_checksum, ByteArrayOutputStream.getBuffer.
  rewrite aset_in by lia. mcbn. rewrite aset_in by (rewrite zlen_insert; lia). mcbn. eexists. split; [done|].
  assert (Hd : ByteArrayOutputStream.data (ByteArrayOutputStream.set_buffer
      (<[Z.to_nat (n + 1):=u8 c]> (<[Z.to_nat n:=u8 (c ≫ 8)]> (ByteArrayOutputStream.buffer s))) s) =
    <[Z.to_nat (n + 1) := u8 c]> (<[Z.to_nat n := u8 (c ≫ 8)]> (ByteArrayOutputStream.data s))).
  { unfold ByteArrayOutputStream.data, ztake. cbn [ByteArrayOutputStream.position ByteArrayOutputStream.buffer ByteArrayOutputStream.set_buffer].
    rewrite !take_insert_lt by lia. done. }
  split_and!; [|exact Hd|done].
  repeat split; cbn; try (done || lia); [by rewrite !zlen_insert|].
  change (Forall (in_u 8) (ByteArrayOutputStream.data (ByteArrayOutputStream.set_buffer
    (<[Z.to_nat (n + 1):=u8 c]> (<[Z.to_nat n:=u8 (c ≫ 8)]> (ByteArrayOutputStream.buffer s))) s))).
  rewrite Hd. apply Forall_insert; [apply Forall_insert; [done|apply byte_u8]|apply byte_u8].
Qed.

Lemma baos_new_ok : out_wf ByteArrayOutputStream.ByteArrayOutputStream_new /\ out_data ByteArrayOutputStream.ByteArrayOutputStream_new = [] /\
  out_room ByteArrayOutputStream.ByteArrayOutputStream_new = 2 ^ 31 - 1.
Proof.
  destruct (ByteArrayOutputStream.baos_size_wf 32) as [Hwf Hd]; [lia|]. split; [exact Hwf|]. split; [exact Hd|]. done.
Qed.

Lemma getPosition_ok s : out_wf s -> ByteArrayOutputStream.getPosition s = zlen (out_data s) /\ ByteArrayOutputStream.getLength s = zlen (out_data s).
Proof. intros Hwf. pose proof (ByteArrayOutputStream.baos_data_length s Hwf). split; symmetry; done. Qed.

Lemma ethernet_writeHeader_ok dev dst t :
  is_mac (macAddress dev) -> type (macAddress dev) = MAC -> is_mac dst -> type dst = MAC -> in_u 16 t ->
  appends (Ethernet.writeHeader dev dst t) (ethernet_bytes (EthernetHeader.mk dst (macAddress dev) t)).
Proof.
  intros Hs Ts Hd Td Ht s Hwf Hr. unfold Ethernet.writeHeader, EthernetHeader.setSourceAddress, EthernetHeader.setDestinationAddress.
  cbn [EthernetHeader.sourceAddress EthernetHeader.destinationAddress EthernetHeader.EthernetHeader_new].
  rewrite (assign_ok MacAddress.MacAddress_new (macAddress dev)); [|apply mac_new_wf|apply Hs|symmetry; apply Hs]. mcbn.
  cbn [EthernetHeader.sourceAddress EthernetHeader.destinationAddress].
  rewrite (assign_ok MacAddress.MacAddress_new dst); [|apply mac_new_wf|apply Hd|symmetry; apply Hd]. mcbn.
  apply ethernet_write; [|done|done]. exact (conj Hd (conj Td (conj Hs (conj Ts Ht)))).
Qed.

Lemma finalizePacket_ok s :
  out_wf s -> 60 <= out_room s ->
  exists s', Ethernet.finalizePacket s = Ok s' /\ out_wf s' /\ out_data s' = out_data s ++ replicate (Z.to_nat (60 - zlen (out_data s))) 0.
Proof.
  intros Hwf Hr. unfold Ethernet.finalizePacket. destruct (getPosition_ok s Hwf) as [_ ->]. pose proof (zlen_nonneg (out_data s)) as H0.
  set (n := zlen (out_data s)) in *. change (Ethernet.MINIMUM_PACKET_SIZE - 4 - n) with (60 - n).
  destruct (for_up_inv (fun i p => out_wf p /\ out_data p = out_data s ++ replicate (Z.to_nat (i - n)) 0 /\ out_room p = out_room s - (i - n))
    (fun _ packet => NumberUtil.writeUnsigned8BitValue 0 packet) (Z.to_nat (60 - n)) n s) as (p & E & Hp & Hd & _).
  - rewrite Z.sub_diag. cbn. rewrite app_nil_r. split_and!; [done|done|lia].
  - intros i p Hi (Hp & Hd & Hpr). destruct (appends_u8 0 ltac:(unfold in_u; lia) p Hp) as (p' & E & Hp' & Hd' & Hr'); [change (zlen [0]) with 1; lia|].
    exists p'. split; [done|]. split_and!; [done| |rewrite Hr'; change (zlen [0]) with 1; lia].
    rewrite Hd', Hd, <- app_assoc. f_equal. replace (Z.to_nat (i + 1 - n)) with (Z.to_nat (i - n) + 1)%nat by lia. by rewrite replicate_add.
  - exists p. split_and!; [done|done|]. rewrite Hd. f_equal. f_equal. lia.
Qed.

(** A frame as the driver gets it. *)
Definition padded (l : list Z) : list Z := l ++ replicate (Z.to_nat (64 - zlen l)) 0.

Lemma sendPacket_ok d dev packet l rest st :
  devices st !! d = Some dev -> zlen l <= 1522 -> packet = l ++ rest ->
  Device.sendPacket d packet (zlen l) st =
  Ok (set_devices (<[d := mkDevice (identifier dev) (macAddress dev) (outgoing dev ++ [padded l])]> (devices st)) st).
Proof.
  intros Hd Hl ->. pose proof (zlen_nonneg l). unfold Device.sendPacket, Device.MAX_ETHERNET_PACKET_SIZE, Device.MIN_ETHERNET_PACKET_SIZE.
  destruct (Z.ltb_spec 1522 (zlen l)); [lia|]. unfold get_device. rewrite Hd. mcbn. cbn [of_option mbind outcome_bind].
  rewrite copy_chars_ok by (rewrite ?zlen_new, ?zlen_app; pose proof (zlen_nonneg rest); lia). mcbn.
  change (Z.to_nat 0) with 0%nat. rewrite take_0, app_nil_l, drop_0, Z.add_0_l.
  rewrite (drop_ge (new_chars _)) by (unfold new_chars; rewrite length_replicate; lia). rewrite app_nil_r.
  assert (Htk : take (Z.to_nat (zlen l)) (l ++ rest) = l) by (unfold zlen; rewrite Nat2Z.id; apply take_app_length). rewrite Htk.
  f_equal. f_equal. f_equal. f_equal. f_equal. f_equal. unfold padded. destruct (Z.ltb_spec (zlen l) 64); [done|].
  replace (Z.to_nat (64 - zlen l)) with 0%nat by lia. cbn. by rewrite app_nil_r.
Qed.

Lemma send_ok d dev packet st :
  out_wf packet -> devices st !! d = Some dev -> zlen (out_data packet) <= 1522 ->
  Arp.send d packet st =
  Ok (set_devices (<[d := mkDevice (identifier dev) (macAddress dev) (outgoing dev ++ [padded (out_data packet)])]> (devices st)) st).
Proof.
  intros Hp Hd Hl. unfold Arp.send. destruct (getPosition_ok packet Hp) as [_ ->]. eapply sendPacket_ok; [done|done|].
  by apply baos_buffer_split.
Qed.
End Building.

(** ** The ARP cache as a map

    From the bytes of a protocol address to the bytes of a hardware address. *)

Definition entry_ok (e : ArpEntry) : Prop :=
  is_ip4 (protocolAddress e) /\ type (protocolAddress e) = IP4 /\ is_mac (hardwareAddress e) /\ type (hardwareAddress e) = MAC.

Definition key (e : ArpEntry) : list Z := buffer (protocolAddress e).

(** Every protocol address has one entry. *)
Definition cache_ok (st : Stack) : Prop := Forall entry_ok (arpCache st) /\ NoDup (key <$> arpCache st).

Definition cache_map (st : Stack) : gmap (list Z) (list Z) :=
  list_to_map ((fun e => (key e, buffer (hardwareAddress e))) <$> arpCache st).

Lemma findEntry_ok ip st :
  is_ip4 ip -> cache_ok st -> Arp.findEntry ip st = Ok (list_find (fun e => bool_decide (key e = buffer ip) = true) (arpCache st)).
Proof.
  intros [Hip _] [Hok _]. apply findM_pure. intros e He. rewrite Forall_forall in Hok. destruct (Hok e He) as ((Hw & _) & _). by rewrite addr_equals_ok.
Qed.

Lemma cache_lookup st ip :
  cache_ok st -> cache_map st !! ip =
  (fun '(_, e) => buffer (hardwareAddress e)) <$> list_find (fun e => bool_decide (key e = ip) = true) (arpCache st).
Proof.
  intros [_ _]. unfold cache_map. induction (arpCache st) as [|e l IH]; [done|]. rewrite fmap_cons, list_to_map_cons. cbn [list_find].
  destruct (decide (bool_decide (key e = ip) = true)) as [E|E].
  - apply bool_decide_eq_true in E as <-. by rewrite lookup_insert_eq.
  - rewrite lookup_insert_ne by (intros <-; apply E, bool_decide_eq_true; done). rewrite IH.
    destruct (list_find _ l) as [[i y]|]; done.
Qed.

Lemma entry_eta_mac e : entry_ok e -> mk (buffer (hardwareAddress e)) 6 MAC = hardwareAddress e.
Proof. intros (_ & _ & [Hw Hl] & Ht). by apply addr_eta. Qed.

Lemma list_find_in {A} (P : A -> Prop) `{!forall x, Decision (P x)} l i x : list_find P l = Some (i, x) -> x ∈ l /\ P x /\ l !! i = Some x.
Proof. intros E. apply list_find_Some in E as (E & HP & _). split_and!; [by eapply list_elem_of_lookup_2|done|done]. Qed.

Definition entries (st : Stack) : list (list Z * list Z) := (fun e => (key e, buffer (hardwareAddress e))) <$> arpCache st.

Lemma entries_keys st : (entries st).*1 = key <$> arpCache st.
Proof. unfold entries. rewrite <- list_fmap_compose. done. Qed.

Lemma hasHardwareAddress_ok ip st :
  cache_ok st -> is_ip4 ip -> Arp.hasHardwareAddress ip st = Ok (bool_decide (is_Some (cache_map st !! buffer ip))).
Proof.
  intros Hc Hip. unfold Arp.hasHardwareAddress. rewrite findEntry_ok, cache_lookup by done. mcbn. f_equal.
  destruct (list_find _ _) as [[i e]|]; symmetry; [by apply bool_decide_eq_true|apply bool_decide_eq_false]. by intros [? ?].
Qed.

Lemma getHardwareAddress_ok ip st :
  cache_ok st -> is_ip4 ip ->
  Arp.getHardwareAddress ip st = match cache_map st !! buffer ip with Some m => Ok (mk m 6 MAC) | None => Throw INVALID_ARGUMENT end.
Proof.
  intros Hc Hip. unfold Arp.getHardwareAddress. rewrite findEntry_ok, cache_lookup by done. mcbn.
  destruct (list_find _ _) as [[i e]|] eqn:E; [|done]. apply list_find_in in E as (He & _ & _). destruct Hc as [Hok _]. rewrite Forall_forall in Hok.
  specialize (Hok e He). cbn. rewrite entry_eta_mac by done. destruct Hok as (_ & _ & [Hw _] & _). by apply NetworkAddress_copy_ok.
Qed.

Lemma setEntry_ok ip mac st :
  cache_ok st -> is_ip4 ip -> type ip = IP4 -> is_mac mac -> type mac = MAC ->
  exists st', Arp.setEntry ip mac st = Ok st' /\ cache_ok st' /\
    cache_map st' = match cache_map st !! buffer ip with Some _ => cache_map st | None => <[buffer ip := buffer mac]> (cache_map st) end.
Proof.
  intros Hc Hip Tip Hmac Tmac. unfold Arp.setEntry. rewrite findEntry_ok, cache_lookup by done. mcbn.
  destruct (list_find _ (arpCache st)) as [[i e]|] eqn:E.
  - apply list_find_in in E as (He & _ & _). destruct Hc as [Hok Hnd]. rewrite Forall_forall in Hok. destruct (Hok e He) as (_ & _ & [Hw Hl] & _).
    rewrite assign_ok; [|done|apply Hmac|destruct Hmac; congruence]. mcbn. exists st. split_and!; [done| |done].
    split; [by rewrite Forall_forall|done].
  - rewrite !NetworkAddress_copy_ok by (apply Hip || apply Hmac). mcbn. eexists. split; [done|].
    apply list_find_None in E. rewrite Forall_forall in E. destruct Hc as [Hok Hnd].
    assert (Hfresh : buffer ip ∉ key <$> arpCache st).
    { rewrite list_elem_of_fmap. intros (e & Hk & He). apply (E e He). apply bool_decide_eq_true. done. }
    split.
    + split; cbn [arpCache set_arpCache].
      * apply Forall_app. split; [done|]. repeat constructor; (apply Hip || apply Hmac || done).
      * rewrite fmap_app. apply NoDup_app. split_and!; [done| |apply NoDup_singleton].
        intros k Hk. cbn. rewrite list_elem_of_singleton. intros ->. by apply Hfresh.
    + unfold cache_map. cbn [arpCache set_arpCache]. rewrite fmap_app. cbn. apply list_to_map_snoc.
      change (key {| protocolAddress := ip; hardwareAddress := mac |}) with (buffer ip).
      fold (entries st). by rewrite entries_keys.
Qed.

Lemma removeEntry_ok ip st :
  cache_ok st -> is_ip4 ip -> type ip = IP4 ->
  exists st', Arp.removeEntry ip st = Ok st' /\ cache_ok st' /\ cache_map st' = delete (buffer ip) (cache_map st).
Proof.
  intros Hc Hip Tip. unfold Arp.removeEntry. rewrite findEntry_ok by done. mcbn.
  destruct (list_find _ (arpCache st)) as [[i e]|] eqn:E.
  - apply list_find_in in E as (He & Hk & Hi). apply bool_decide_eq_true in Hk. destruct Hc as [Hok Hnd]. pose proof Hok as Hok'. rewrite Forall_forall in Hok'.
    assert (Hfind : findM (Arp.entry_equals e) (arpCache st) = Ok (Some (i, e))).
    { rewrite (findM_pure _ (fun x => bool_decide (buffer (hardwareAddress x) = buffer (hardwareAddress e) /\ key x = key e))).
      - f_equal. apply list_find_Some. split; [done|]. split; [by apply bool_decide_eq_true|].
        intros j y Hj Hlt Hy. apply bool_decide_eq_true in Hy as [_ Hy].
        assert (j = i); [|lia]. eapply NoDup_lookup; [exact Hnd|rewrite list_lookup_fmap, Hj; done|rewrite list_lookup_fmap, Hi; cbn; by rewrite Hy].
      - intros x Hx. destruct (Hok' x Hx) as ((Hxw & _) & _ & (Hxm & _) & _). destruct (Hok' e He) as ((Hew & _) & _ & (Hem & _) & _).
        unfold Arp.entry_equals, andM, key. rewrite !addr_equals_ok by done. cbn [mbind outcome_bind]. repeat case_bool_decide; naive_solver. }
    unfold removeM. rewrite Hfind. mcbn. eexists. split; [done|]. rewrite <- Hk.
    rewrite (delete_take_drop (arpCache st) i). rewrite <- (take_drop_middle _ _ _ Hi) in Hok, Hnd.
    rewrite fmap_app, fmap_cons in Hnd. apply NoDup_app in Hnd as (Hn1 & Hn12 & Hn2). apply NoDup_cons in Hn2 as [Hne Hn2].
    apply Forall_app in Hok as [Hf1 Hf2]. apply Forall_cons in Hf2 as [_ Hf2].
    split.
    + split; cbn [arpCache set_arpCache]; [by apply Forall_app|]. rewrite fmap_app. apply NoDup_app. split_and!; [done| |done].
      intros k Hk1 Hk2. apply (Hn12 k Hk1). by right.
    + unfold cache_map. cbn [arpCache set_arpCache]. rewrite <- (take_drop_middle _ _ _ Hi) at 3. rewrite !fmap_app, fmap_cons, !list_to_map_app, list_to_map_cons.
      rewrite delete_union, delete_insert_eq.
      assert (Hdel : forall l : list ArpEntry, key e ∉ key <$> l ->
        delete (key e) (list_to_map ((fun x => (key x, buffer (hardwareAddress x))) <$> l) : gmap (list Z) (list Z)) =
        list_to_map ((fun x => (key x, buffer (hardwareAddress x))) <$> l)).
      { intros l Hl. apply delete_id, not_elem_of_list_to_map. rewrite <- list_fmap_compose. exact Hl. }
      rewrite !Hdel; [done|done|]. intros Hin. apply (Hn12 (key e) Hin). by left.
  - exists st. split_and!; [done|done|]. rewrite delete_id; [done|]. rewrite cache_lookup by done. by rewrite E.
Qed.

(** The ARP cache is a finite map from IPv4 to hardware addresses; setEntry
    adds an address that is not known and leaves a known one as it is,
    removeEntry deletes it. *)
Theorem arp_cache_spec ip mac st :
  cache_ok st -> is_ip4 ip -> type ip = IP4 -> is_mac mac -> type mac = MAC ->
  Arp.hasHardwareAddress ip st = Ok (bool_decide (is_Some (cache_map st !! buffer ip))) /\
  Arp.getHardwareAddress ip st = match cache_map st !! buffer ip with Some m => Ok (mk m 6 MAC) | None => Throw INVALID_ARGUMENT end /\
  (exists st', Arp.setEntry ip mac st = Ok st' /\ cache_ok st' /\
    cache_map st' = match cache_map st !! buffer ip with Some _ => cache_map st | None => <[buffer ip := buffer mac]> (cache_map st) end) /\
  (exists st', Arp.removeEntry ip st = Ok st' /\ cache_ok st' /\ cache_map st' = delete (buffer ip) (cache_map st)).
Proof.
  intros Hc Hip Tip Hmac Tmac. split; [by apply hasHardwareAddress_ok|]. split; [by apply getHardwareAddress_ok|].
  split; [by apply setEntry_ok|by apply removeEntry_ok].
Qed.

(** ** Building an IPv4 packet *)

Lemma baos_bound `{FreshMemory} s : out_wf s -> zlen (out_data s) < 2 ^ 31.
Proof. intros Hwf. change (out_data s) with (ByteArrayOutputStream.data s). rewrite ByteArrayOutputStream.baos_data_length by done. destruct Hwf as (? & ? & ? & ? & ?). lia. Qed.

(** The header of the packets that [writeHeader] builds, with checksum [c]. *)
Definition ip4_header (proto n : Z) (source destination : NetworkAddress) (c : Z) : list Z :=
  ip4_packet 69 0 (20 + n) [0; 0; 0; 0] 64 proto (be16 c) (buffer source) (buffer destination) [].

Lemma u8_hi c : in_u 16 c -> u8 (c ≫ 8) = c / 256.
Proof.
  intros Hc. rewrite Z.shiftr_div_pow2 by lia. change (2 ^ 8) with 256. unfold_ints. apply wrap_small. unfold in_u.
  split; [apply Z.div_pos; lia|]. apply Z.div_lt_upper_bound; lia.
Qed.

Lemma u8_lo c : u8 c = c mod 256.
Proof. done. Qed.

Lemma checksum_u16 l off n c : ip4_calculateChecksum l off n = Ok c -> in_u 16 c.
Proof.
  unfold ip4_calculateChecksum. generalize (ip4_sum_loop 128 l off n 0 0). intros [x| | |]; cbn [mbind outcome_bind]; intros E; try discriminate E.
  apply (f_equal (fun o => match o with Ok z => z | _ => 0 end)) in E. rewrite <- E. apply (wrap_range 16). lia.
Qed.

Lemma ip4_header_bytes proto n source destination c :
  in_u 8 proto -> 0 <= n < 65516 -> is_ip4 source -> is_ip4 destination -> in_u 16 c -> Forall (in_u 8) (ip4_header proto n source destination c).
Proof.
  intros Hp Hn ((_ & Hs & _) & _) ((_ & Hd & _) & _) Hc. unfold ip4_header, ip4_packet.
  assert (H1 : forall x, in_u 8 x -> Forall (in_u 8) [x]) by (intros; by apply Forall_singleton).
  assert (Hz : Forall (in_u 8) [0; 0; 0; 0]) by (repeat apply Forall_cons_2; [..|apply Forall_nil_2]; unfold in_u; lia).
  assert (Ht : in_u 16 (20 + n)) by (unfold in_u; lia).
  assert (Hi : forall x, 0 <= x < 256 -> in_u 8 x) by (unfold in_u; lia).
  rewrite !Forall_app. split_and!; try assumption; try apply Forall_nil_2; try (apply be16_bytes; assumption); try (apply H1; first [assumption|apply Hi; lia]).
Qed.

Lemma ip4_header_length proto n source destination c : is_ip4 source -> is_ip4 destination -> zlen (ip4_header proto n source destination c) = 20.
Proof. intros Hs Hd. unfold ip4_header, ip4_packet. rewrite !zlen_app, (is_ip4_zlen source), (is_ip4_zlen destination), !zlen_be16 by assumption. reflexivity. Qed.

Lemma zdrop_app_at (pre l : list Z) n : n = zlen pre -> zdrop n (pre ++ l) = l.
Proof. intros ->. unfold zdrop, zlen. rewrite Nat2Z.id. apply drop_app_length. Qed.

Lemma insert_in_app (pre l : list Z) n x : 0 <= n -> <[Z.to_nat (zlen pre + n) := x]> (pre ++ l) = pre ++ <[Z.to_nat n := x]> l.
Proof.
  intros Hn. rewrite insert_app_r_alt by (unfold zlen; lia). do 2 f_equal. unfold zlen. lia.
Qed.

Lemma ip4_header_store pre proto n source destination c :
  in_u 16 c -> <[Z.to_nat (zlen pre + 10 + 1) := u8 c]> (<[Z.to_nat (zlen pre + 10) := u8 (c ≫ 8)]> (pre ++ ip4_header proto n source destination 0)) =
    pre ++ ip4_header proto n source destination c.
Proof.
  intros Hc. rewrite <- Z.add_assoc, !insert_in_app by lia. f_equal. rewrite u8_hi by done. reflexivity.
Qed.

(** The checksum does not depend on the checksum field. *)
Lemma ip4_header_checksum proto n source destination c post :
  in_u 8 proto -> 0 <= n < 65516 -> is_ip4 source -> is_ip4 destination -> in_u 16 c ->
  exists k, in_u 16 k /\ ip4_calculateChecksum (ip4_header proto n source destination 0 ++ []) 10 20 = Ok k /\
    ip4_calculateChecksum (ip4_header proto n source destination c ++ post) 10 20 = Ok k.
Proof.
  intros Hp Hn Hs Hd Hc. assert (H0 : in_u 16 0) by (unfold in_u; lia).
  pose proof (ip4_checksum_ok _ [] 5 (ip4_header_bytes proto n source destination 0 Hp Hn Hs Hd H0)) as E0.
  pose proof (ip4_checksum_ok _ post 5 (ip4_header_bytes proto n source destination c Hp Hn Hs Hd Hc)) as E1.
  rewrite ip4_header_length in E0, E1 by done.
  destruct (is_ip4_shape _ Hs) as (w & x & y & z & Es & _). destruct (is_ip4_shape _ Hd) as (w' & x' & y' & z' & Ed & _).
  assert (Hz : zero_field (2 * 5) (ip4_header proto n source destination c) = zero_field (2 * 5) (ip4_header proto n source destination 0)).
  { unfold ip4_header, ip4_packet. rewrite Es, Ed. done. }
  assert (Hev : forall k, Nat.even (base.length (ip4_header proto n source destination k)) = true).
  { intros k. unfold ip4_header, ip4_packet. rewrite Es, Ed. done. }
  eexists. split; [|split; [apply E0; [apply Hev|lia|lia]|]].
  - eapply checksum_u16. apply E0; [apply Hev|lia|lia].
  - etransitivity; [apply E1; [apply Hev|lia|lia]|]. by rewrite Hz.
Qed.

#[local] Opaque ip4_calculateChecksum.

Lemma header_checksum_ok `{FreshMemory} proto n ip destination pre s :
  in_u 8 proto -> 0 <= n < 65516 -> is_ip4 ip -> is_ip4 destination ->
  out_wf s -> out_data s = pre ++ ip4_header proto n ip destination 0 ->
  exists s' c, Ip4.header_checksum (zlen pre) s = Ok s' /\ out_wf s' /\ out_data s' = pre ++ ip4_header proto n ip destination c /\
    out_room s' = out_room s /\ in_u 16 c /\ forall post, ip4_calculateChecksum (ip4_header proto n ip destination c ++ post) 10 20 = Ok c.
Proof.
  intros Hp Hn Hip Hdst Hwf Hd. pose proof (ip4_header_length proto n ip destination 0 Hip Hdst) as Hhl. pose proof (zlen_nonneg pre) as Hpre0.
  unfold Ip4.header_checksum. rewrite (baos_buffer_split s Hwf). change (ByteArrayOutputStream.data s) with (out_data s). rewrite Hd.
  rewrite <- app_assoc, zdrop_app_at by done. set (rest := zdrop (ByteArrayOutputStream.position s) _).
  destruct (ip4_header_checksum proto n ip destination 0 rest Hp Hn Hip Hdst ltac:(unfold in_u; lia)) as (c & Hc & Ec0 & Ec).
  assert (E69 : Ip4.byte_at (ip4_header proto n ip destination 0 ++ rest) 0 = Ok 69) by reflexivity. rewrite E69, ok_bind.
  change (u8 (Z.land 69 15 * 4)) with 20. change Ip4Header.CHECKSUM_OFFSET with 10. rewrite Ec, ok_bind.
  destruct (store_checksum_ok c (zlen pre + 10) s Hwf) as (s3 & -> & Hwf3 & Hd3 & Hr3); [lia|rewrite Hd, zlen_app, Hhl; lia|].
  exists s3, c. split_and!; [done|done| |done|done|].
  - by rewrite Hd3, Hd, ip4_header_store by done.
  - intros post. destruct (ip4_header_checksum proto n ip destination c post Hp Hn Hip Hdst Hc) as (k & _ & Ek0 & Ek).
    assert (E : Ok k = Ok c) by (rewrite <- Ek0; exact Ec0). injection E as ->. exact Ek.
Qed.

Section WriteHeader.
Context `{FreshMemory} (others : Stack -> Stack).

(** A route that [findRoute] passes over: it starts at another address, or one of the first bits, as many as its prefix
    has and counted from the lowest one of each byte, is not that of the destination. *)
Definition off_route (source destination : NetworkAddress) (r : Ip4Route) : Prop :=
  wf (rt_sourceAddress r) /\
  (buffer source <> buffer Ip4Address.ANY /\ buffer source <> buffer (rt_sourceAddress r) \/
   exists target bits p, Route.getTargetAddress r = Ok target /\ wf target /\ length target = 5 /\ Ip4SubnetAddress.getBitCount target = Ok bits /\
     0 <= p < bits /\ bits <= 32 /\ bit_at (buffer destination) p <> bit_at (buffer target) p).

(** The stack can send from [source] to [destination]: no route but the default one leads there, the default route starts at
    address [ip] of interface [i] on device [dev], and the next hop has the hardware address [mac] in the ARP cache. *)
Record can_send (st : Stack) (source destination : NetworkAddress) (i : Ip4Interface) (dev : NetworkDevice) (ip mac : NetworkAddress) : Prop := {
  cs_routes : Forall (off_route source destination) (routes st);
  cs_valid : Route.isValid (defaultRoute st) = true;
  cs_source : buffer source = buffer Ip4Address.ANY \/ buffer source = buffer ip;
  cs_default : rt_sourceAddress (defaultRoute st) = ip;
  cs_interface : exists l, Routing.getTargetInterfaces ip st = Ok (i :: l);
  cs_address : Ip4SubnetAddress.getIp4Address (if_address i) = Ok ip;
  cs_device : devices st !! device i = Some dev;
  cs_cache : cache_ok st;
  cs_hop : let hop := if nextHopValid (defaultRoute st) then rt_nextHop (defaultRoute st) else destination in
    is_ip4 hop /\ cache_map st !! buffer hop = Some (buffer mac);
  cs_ip : is_ip4 ip /\ type ip = IP4;
  cs_mac : is_mac mac /\ type mac = MAC /\ is_mac (macAddress dev) /\ type (macAddress dev) = MAC;
  cs_ends : is_ip4 source /\ is_ip4 destination /\ type destination = IP4
}.

Lemma ANY_wf : wf Ip4Address.ANY.
Proof. repeat split. repeat constructor; unfold in_u; lia. Qed.

Lemma route_step_off source destination r :
  wf source -> is_ip4 destination -> off_route source destination r ->
  Routing.route_step (bool_decide (buffer source = buffer Ip4Address.ANY)) source destination r None = Ok None.
Proof.
  intros Hs [Hd Hl] [Hw Ho]. unfold Routing.route_step, orM, Route.getSourceAddress. rewrite addr_equals_ok by done.
  destruct Ho as [[H1 H2]|(target & bits & p & Et & Hwt & Hlt & Eb & Hp & Hb & Hne)]; [by rewrite !bool_decide_false|]. rewrite Et, ok_bind.
  pose proof (compareTo_ok destination target Hd Hwt ltac:(lia) ltac:(lia)) as Hc. rewrite Hl, Hlt in Hc. change (4 `min` 5) with 4 in Hc. cbv zeta in Hc.
  assert (Hcmp : exists q, compareTo destination target = Ok q /\ q < bits).
  { destruct (decide _) as [E|_]; [destruct Hne; apply (ztake_bits 4); [done|lia]|]. destruct Hc as (q & Eq & _ & _ & _ & Hq). exists q. split; [done|].
    destruct (Z.le_gt_cases bits q); [|lia]. destruct Hne. apply Hq. lia. }
  destruct Hcmp as (q & Eq & Hq). rewrite Eq, Eb, !ok_bind. destruct (Z.leb_spec bits q); [lia|]. cbn [andb].
  by destruct (bool_decide (_ = buffer Ip4Address.ANY)); [|cbn [mbind outcome_bind]; destruct (bool_decide _)].
Qed.

Lemma routes_off source destination l :
  wf source -> is_ip4 destination -> Forall (off_route source destination) l ->
  foldM (Routing.route_step (bool_decide (buffer source = buffer Ip4Address.ANY)) source destination) l None = Ok None.
Proof. intros Hs Hd. induction 1 as [|r l Hr _ IH]; [done|]. cbn [foldM]. by rewrite route_step_off. Qed.

Lemma findRoute_default st source destination i dev ip mac :
  can_send st source destination i dev ip mac -> Routing.findRoute source destination st = Ok Routing.ToDefaultRoute.
Proof.
  intros Hs. unfold Routing.findRoute. destruct (cs_ends _ _ _ _ _ _ _ Hs) as ([Hsw _] & _). destruct (cs_ip _ _ _ _ _ _ _ Hs) as ([Hiw _] & _).
  rewrite (addr_equals_ok source Ip4Address.ANY) by (done || apply ANY_wf). mcbn. rewrite routes_off by (apply Hs). mcbn. rewrite (cs_valid _ _ _ _ _ _ _ Hs).
  unfold orM, Route.getSourceAddress. rewrite (cs_default _ _ _ _ _ _ _ Hs), addr_equals_ok by done. cbn [mbind outcome_bind].
  destruct (cs_source _ _ _ _ _ _ _ Hs) as [E|E]; [by rewrite (bool_decide_true (_ = buffer Ip4Address.ANY))|].
  rewrite (bool_decide_true (_ = buffer ip)) by done. by destruct (bool_decide _).
Qed.

Lemma resolve_ok st source destination i dev ip mac :
  can_send st source destination i dev ip mac ->
  Arp.resolveAddress others (if nextHopValid (defaultRoute st) then rt_nextHop (defaultRoute st) else destination) MacAddress.MacAddress_new i st = Ok (Some mac, st).
Proof.
  intros Hs. destruct (cs_hop _ _ _ _ _ _ _ Hs) as [Hh Hm]. pose proof (cs_cache _ _ _ _ _ _ _ Hs) as Hc. destruct (cs_mac _ _ _ _ _ _ _ Hs) as ([Hw Hl] & Ht & _).
  set (hop := if nextHopValid _ then _ else _) in *. unfold Arp.resolveAddress, Arp.MAX_REQUEST_RETRIES. cbn [Arp.resolve_loop].
  rewrite hasHardwareAddress_ok, Hm by done. mcbn. rewrite bool_decide_true by done. rewrite getHardwareAddress_ok, Hm by done. mcbn.
  rewrite addr_eta by done. by rewrite assign_ok by (apply mac_new_wf || done).
Qed.

(** The header that [Ip4Module::writeHeader] puts in front of a packet, and that its checksum is the one that is computed again. *)
Lemma writeHeader_ok st source destination i dev ip mac proto n s :
  can_send st source destination i dev ip mac -> in_u 8 proto -> 0 <= n < 65516 -> out_wf s -> 34 <= out_room s ->
  exists s' c, Ip4.writeHeader others source destination proto n s st = Ok (i, s', st) /\ out_wf s' /\
    out_data s' = out_data s ++ ethernet_bytes (EthernetHeader.mk mac (macAddress dev) EthernetHeader.IP4) ++ ip4_header proto n ip destination c /\
    out_room s' = out_room s - 34 /\ in_u 16 c /\ forall post, ip4_calculateChecksum (ip4_header proto n ip destination c ++ post) 10 20 = Ok c.
Proof.
  intros Hs Hp Hn Hwf Hr. unfold Ip4.writeHeader. rewrite (findRoute_default _ _ _ _ _ _ _ Hs). mcbn. cbn [Routing.dereference mbind outcome_bind].
  unfold Route.getSourceAddress. rewrite (cs_default _ _ _ _ _ _ _ Hs). destruct (cs_interface _ _ _ _ _ _ _ Hs) as [l ->]. mcbn.
  assert (Hhop : (if Route.hasNextHop (defaultRoute st) then Route.getNextHop (defaultRoute st) else Ok destination) =
    Ok (if nextHopValid (defaultRoute st) then rt_nextHop (defaultRoute st) else destination)).
  { unfold Route.hasNextHop, Route.getNextHop. by destruct (nextHopValid (defaultRoute st)). }
  rewrite Hhop. mcbn. rewrite (resolve_ok _ _ _ _ _ _ _ Hs). mcbn. unfold get_device. rewrite (cs_device _ _ _ _ _ _ _ Hs). cbn [of_option mbind outcome_bind].
  destruct (cs_mac _ _ _ _ _ _ _ Hs) as (Hm & Tm & Hdm & Tdm). destruct (cs_ip _ _ _ _ _ _ _ Hs) as (Hip & Tip). destruct (cs_ends _ _ _ _ _ _ _ Hs) as (_ & Hdst & Tdst).
  assert (Hel : zlen (ethernet_bytes (EthernetHeader.mk mac (macAddress dev) EthernetHeader.IP4)) = 14).
  { unfold ethernet_bytes. cbn [EthernetHeader.destinationAddress EthernetHeader.sourceAddress EthernetHeader.etherType].
    rewrite !zlen_app, !is_mac_zlen by done. done. }
  destruct (ethernet_writeHeader_ok dev mac EthernetHeader.IP4 Hdm Tdm Hm Tm ltac:(unfold in_u, EthernetHeader.IP4; lia) s Hwf) as (s1 & -> & Hwf1 & Hd1 & Hr1); [lia|]. mcbn.
  unfold Ip4Header.setSourceAddress. cbn [Ip4Header.sourceAddress Ip4Header.Ip4Header_new].
  rewrite (assign_ok Ip4Address.Ip4Address_new ip); [|apply ip4_new_wf|apply Hip|symmetry; apply Hip]. mcbn.
  unfold Ip4Header.setDestinationAddress. cbn [Ip4Header.destinationAddress Ip4Header.Ip4Header_new].
  rewrite (assign_ok Ip4Address.Ip4Address_new destination); [|apply ip4_new_wf|apply Hdst|symmetry; apply Hdst]. mcbn.
  set (h := Ip4Header.setTimeToLive 64 _).
  assert (Hh : ip4_ok h). { unfold ip4_ok, h. cbn. split_and!; (done || unfold_ints; lia). }
  assert (Hhb : ip4_bytes h = ip4_header proto n ip destination 0) by done.
  pose proof (ip4_header_length proto n ip destination 0 Hip Hdst) as Hhl.
  destruct (ip4_write h Hh s1 Hwf1) as (s2 & -> & Hwf2 & Hd2 & Hr2); [rewrite Hhb, Hhl; lia|]. mcbn. rewrite Hhb in Hd2, Hr2. rewrite Hhl in Hr2.
  change (Ip4Header.getHeaderLength h) with 20. destruct (getPosition_ok s2 Hwf2) as [-> _].
  set (pre := out_data s ++ ethernet_bytes (EthernetHeader.mk mac (macAddress dev) EthernetHeader.IP4)) in *.
  rewrite Hd1 in Hd2. fold pre in Hd2.
  assert (Hlen : zlen (out_data s2) = zlen pre + 20) by (rewrite Hd2, zlen_app, Hhl; lia). pose proof (zlen_nonneg pre) as Hpre0.
  pose proof (baos_bound s2 Hwf2) as Hb. rewrite Hlen. replace (u32 (zlen pre + 20 - 20)) with (zlen pre) by (unwrap; lia).
  destruct (header_checksum_ok proto n ip destination pre s2 Hp Hn Hip Hdst Hwf2 Hd2) as (s3 & c & -> & Hwf3 & Hd3 & Hr3 & Hc & Hpost).
  mcbn. exists s3, c. split_and!; [done|done| |lia|done|done].
  rewrite Hd3. unfold pre. by rewrite <- app_assoc.
Qed.
End WriteHeader.

(** ** Reading a packet

    All streams of the receive path are views of one packet [b]: the module's pointer into the buffer is where its stream is. *)

Section Views.
Context (b : list Z).

Definition view (s : ByteArrayInputStream.ByteArrayInputStream) : Prop :=
  ByteArrayInputStream.wf s /\ ByteArrayInputStream.buffer s = b /\ ByteArrayInputStream.size s = zlen b.

Lemma read_keeps s c s' :
  ByteArrayInputStream.read s = Ok (c, s') ->
  ByteArrayInputStream.buffer s' = ByteArrayInputStream.buffer s /\ ByteArrayInputStream.size s' = ByteArrayInputStream.size s.
Proof.
  unfold ByteArrayInputStream.read. destruct (_ && _); [intros [= _ <-]; done|]. intros E. apply bind_ok in E as (x & _ & E).
  revert E. repeat case_match; by intros [= _ <-].
Qed.

Lemma readBytes_keeps target off n s r target' s' :
  ByteArrayInputStream.readBytes target off n s = Ok (r, target', s') ->
  ByteArrayInputStream.buffer s' = ByteArrayInputStream.buffer s /\ ByteArrayInputStream.size s' = ByteArrayInputStream.size s.
Proof.
  unfold ByteArrayInputStream.readBytes. destruct (_ && _); [intros [= _ _ <-]; done|]. intros E. apply bind_ok in E as (x & _ & E).
  injection E as _ _ <-. done.
Qed.

Program Definition view_laws : InputStreamLaws ByteArrayInputStream.ByteArrayInputStream := {|
  in_wf := view; in_data := ByteArrayInputStream.data
|}.
Next Obligation. intros s [Hwf _]. exact (in_bytes s Hwf). Qed.
Next Obligation. intros s [Hwf _]. exact (in_small s Hwf). Qed.
Next Obligation.
  intros s c l (Hwf & Hb & Hs) Hd. destruct (ByteArrayInputStream.bais_read_cons s c l Hwf Hd) as (s' & E & Hwf' & Hd'). exists s'.
  pose proof (read_keeps _ _ _ E) as [Hk1 Hk2]. split; [exact E|]. split; [|exact Hd']. split_and!; [exact Hwf'|congruence|congruence].
Qed.
Next Obligation.
  intros s target off n (Hwf & Hb & Hs) Hd Hn Ho Ht Ht2. destruct (ByteArrayInputStream.bais_readBytes s target off n) as (s' & E & Hwf' & Hd'); [assumption..|].
  exists s'. pose proof (readBytes_keeps _ _ _ _ _ _ _ E) as [Hk1 Hk2]. split; [exact E|]. split; [|exact Hd']. split_and!; [exact Hwf'|congruence|congruence].
Qed.

Lemma view_data s : view s -> zdrop (ByteArrayInputStream.getPosition s) (ByteArrayInputStream.getBuffer s) = ByteArrayInputStream.data s /\
  ByteArrayInputStream.getPosition s = zlen b - zlen (ByteArrayInputStream.data s) /\ ByteArrayInputStream.getBuffer s = b.
Proof.
  intros (Hwf & Hb & Hs). pose proof (ByteArrayInputStream.bais_data_length s Hwf) as Hl. unfold ByteArrayInputStream.getPosition, ByteArrayInputStream.getBuffer.
  split_and!; [|lia|done]. unfold ByteArrayInputStream.data. rewrite Hs, Hb. unfold ztake, zlen. by rewrite Nat2Z.id, firstn_all.
Qed.
End Views.

(** ** Delivery to sockets *)

Definition hears (q : NetworkAddress -> bool) (s : Socket) : bool := match bindAddress s with Some a => q a | None => false end.
Definition push (d : Datagram) (s : Socket) : Socket := Sockets.set_queue (incomingDatagramQueue s ++ [d]) s.

(** The sockets of the list [l] that hear, each with one more datagram. *)
Definition delivered (q : NetworkAddress -> bool) (l : list Z) (d : Datagram) (socks : gmap Z Socket) : gmap Z Socket :=
  map_imap (fun id s => Some (if bool_decide (id ∈ l) && hears q s then push d s else s)) socks.

Lemma delivered_lookup q l d socks id :
  delivered q l d socks !! id = (fun s => if bool_decide (id ∈ l) && hears q s then push d s else s) <$> socks !! id.
Proof. unfold delivered. rewrite map_lookup_imap. by destruct (socks !! id). Qed.

Lemma delivered_nil q d socks : delivered q [] d socks = socks.
Proof. apply map_eq. intros id. rewrite delivered_lookup. by destruct (socks !! id). Qed.

Lemma delivered_cons q x l d socks s :
  x ∉ l -> socks !! x = Some s ->
  delivered q (x :: l) d socks = delivered q l d (if hears q s then <[x := push d s]> socks else socks).
Proof.
  intros Hx Hs. apply map_eq. intros id. rewrite !delivered_lookup. destruct (decide (id = x)) as [->|Hne].
  - rewrite (bool_decide_true (x ∈ x :: l)) by (by left). rewrite (bool_decide_false (x ∈ l)) by done. rewrite Hs. cbn.
    destruct (hears q s); [by rewrite lookup_insert_eq|by rewrite Hs].
  - assert (E : bool_decide (id ∈ x :: l) = bool_decide (id ∈ l)) by (apply bool_decide_ext; rewrite elem_of_cons; tauto). rewrite E.
    destruct (hears q s); [by rewrite lookup_insert_ne by done|done].
Qed.

Lemma new_datagram_ok buffer n address attr :
  0 <= n < 65536 -> n <= zlen buffer -> wf address ->
  Sockets.new_datagram buffer n address attr = Ok (mkDatagram address (ztake n buffer) attr).
Proof.
  intros Hn Hb Ha. unfold Sockets.new_datagram. replace (u16 n) with n by (unwrap; lia).
  rewrite copy_chars_ok by (rewrite ?zlen_new; lia). mcbn. rewrite NetworkAddress_copy_ok by done. mcbn.
  change (Z.to_nat 0) with 0%nat. rewrite take_0, drop_0, app_nil_l, drop_ge by (unfold new_chars; rewrite length_replicate; lia). by rewrite app_nil_r.
Qed.

(** The sockets in the list of a module are different, exist, and are bound to addresses for which the test [p] succeeds. *)
Definition listed (p : NetworkAddress -> outcome bool) (q : NetworkAddress -> bool) (l : list Z) (socks : gmap Z Socket) : Prop :=
  NoDup l /\ forall id, id ∈ l -> exists s a, socks !! id = Some s /\ bindAddress s = Some a /\ p a = Ok (q a).

Lemma set_sockets_twice x y st : set_sockets x (set_sockets y st) = set_sockets x st.
Proof. done. Qed.

Lemma deliver_ok m p q buffer n address attr st :
  0 <= n < 65536 -> n <= zlen buffer -> wf address -> listed p q (socketList st m) (sockets st) ->
  Sockets.deliver m p buffer n address attr st =
  Ok (set_sockets (delivered q (socketList st m) (mkDatagram address (ztake n buffer) attr) (sockets st)) st).
Proof.
  intros Hn Hb Ha. unfold Sockets.deliver. set (d := mkDatagram _ _ _). match goal with |- _ -> foldM ?f _ _ = _ => set (F := f) end.
  assert (HF : forall x s a st, sockets st !! x = Some s -> bindAddress s = Some a -> p a = Ok (q a) ->
    F x st = Ok (if q a then set_sockets (<[x := push d s]> (sockets st)) st else st)).
  { intros x s a st' Hs Hba Hp. assert (Hg : get_socket x st' = Ok s) by (unfold get_socket; by rewrite Hs).
    unfold F, Sockets.getAddress. rewrite Hg, ok_bind, Hba, ok_bind, Hp, ok_bind. destruct (q a); [|done].
    rewrite new_datagram_ok by done. rewrite ok_bind. unfold Sockets.handleIncomingDatagram. by rewrite Hg. }
  clearbody F. generalize (socketList st m) as l. intros l. revert st. induction l as [|x l IH]; intros st [Hnd Hl].
  - cbn [foldM]. rewrite delivered_nil. by destruct st.
  - apply NoDup_cons in Hnd as [Hx Hnd]. destruct (Hl x) as (s & a & Hs & Hba & Hp); [by left|]. cbn [foldM].
    rewrite (HF x s a st Hs Hba Hp), ok_bind, (delivered_cons q x l d _ s Hx Hs). unfold hears. rewrite Hba.
    destruct (q a); (rewrite IH; [done|]); (split; [done|]); intros id Hid.
    + cbn [sockets set_sockets]. rewrite lookup_insert_ne by (intros ->; done). apply Hl. by right.
    + apply Hl. by right.
Qed.

(** ** UDP packets *)

(** The checksum of the UDP packet [l] by RFC 768. *)
Definition udp_sum (source destination : NetworkAddress) (l : list Z) : Z :=
  rfc1071 (words (pseudo_bytes (buffer source) (buffer destination) (zlen l)) ++ words (zero_field 6 l)).

Definition udp_packet (sourcePort destinationPort : Z) (payload : list Z) (c : Z) : list Z :=
  udp_bytes (UdpHeader.mk sourcePort destinationPort (8 + zlen payload) c) ++ payload.

(** The packet with its checksum, and the frame that carries it. *)
Definition udp_full (source destination : NetworkAddress) (sourcePort destinationPort : Z) (payload : list Z) : list Z :=
  udp_packet sourcePort destinationPort payload (udp_sum source destination (udp_packet sourcePort destinationPort payload 0)).

Definition udp_frame (mac deviceMac source destination : NetworkAddress) (sourcePort destinationPort : Z) (payload : list Z) (c : Z) : list Z :=
  ethernet_bytes (EthernetHeader.mk mac deviceMac EthernetHeader.IP4) ++ ip4_header Ip4Header.UDP (8 + zlen payload) source destination c ++
  udp_full source destination sourcePort destinationPort payload.

Lemma udp_header_length h : zlen (udp_bytes h) = 8.
Proof. unfold udp_bytes. rewrite !zlen_app, !zlen_be16. reflexivity. Qed.

Lemma udp_packet_length sp dp payload c : zlen (udp_packet sp dp payload c) = 8 + zlen payload.
Proof. unfold udp_packet. rewrite zlen_app, udp_header_length. reflexivity. Qed.

Lemma udp_packet_bytes sp dp payload c :
  in_u 16 sp -> in_u 16 dp -> in_u 16 c -> Forall (in_u 8) payload -> zlen payload <= 65000 -> Forall (in_u 8) (udp_packet sp dp payload c).
Proof.
  intros Hs Hd Hc Hp Hl. pose proof (zlen_nonneg payload). unfold udp_packet, udp_bytes.
  cbn [UdpHeader.sourcePort UdpHeader.destinationPort UdpHeader.datagramLength UdpHeader.checksum].
  assert (in_u 16 (8 + zlen payload)) by (unfold in_u; lia). rewrite !Forall_app. split_and!; first [assumption|by apply be16_bytes].
Qed.

Lemma pseudo_bytes_ok source destination n :
  is_ip4 source -> is_ip4 destination -> in_u 16 n ->
  Forall (in_u 8) (pseudo_bytes (buffer source) (buffer destination) n) /\ zlen (pseudo_bytes (buffer source) (buffer destination) n) = 12.
Proof.
  intros Hs Hd Hn. unfold pseudo_bytes. split.
  - destruct Hs as [(_ & Hs & _) _], Hd as [(_ & Hd & _) _]. rewrite !Forall_app. split_and!; [done|done| |by apply be16_bytes].
    apply be16_bytes. unfold in_u, Ip4Header.UDP. lia.
  - rewrite !zlen_app, !zlen_be16, (is_ip4_zlen source), (is_ip4_zlen destination) by assumption. reflexivity.
Qed.

Lemma words_range_sum ws : Forall (fun w => 0 <= w <= 65535) ws -> in_u 16 (rfc1071 ws).
Proof.
  intros Hw. rewrite rfc1071_sum by done. assert (H0 : 0 <= sum ws) by (clear -Hw; induction Hw as [|w ws Hw Hws IH]; [done|]; change (sum (w :: ws)) with (w + sum ws); lia). pose proof (carry_all_range (sum ws) H0). unfold in_u. lia.
Qed.

(** The checksum that is computed, whatever the field of the checksum holds. *)
Lemma udp_packet_checksum source destination sp dp payload c post post' :
  is_ip4 source -> is_ip4 destination -> in_u 16 sp -> in_u 16 dp -> in_u 16 c -> Forall (in_u 8) payload -> zlen payload <= 65000 ->
  let k := udp_sum source destination (udp_packet sp dp payload 0) in
  in_u 16 k /\
  udp_calculateChecksum (pseudo_bytes (buffer source) (buffer destination) (8 + zlen payload) ++ post) (udp_packet sp dp payload c ++ post')
    (8 + zlen payload) = Ok k.
Proof.
  intros Hs Hd Hsp Hdp Hc Hp Hl k. pose proof (zlen_nonneg payload). assert (Hn : in_u 16 (8 + zlen payload)) by (unfold in_u; lia).
  destruct (pseudo_bytes_ok source destination _ Hs Hd Hn) as [Hb H12].
  assert (H0 : in_u 16 0) by (unfold in_u; lia).
  pose proof (udp_packet_bytes sp dp payload 0 Hsp Hdp H0 Hp Hl) as Hb0. pose proof (udp_packet_bytes sp dp payload c Hsp Hdp Hc Hp Hl) as Hbc.
  split.
  - apply words_range_sum. rewrite udp_packet_length. apply Forall_app. split; apply words_range; [done|by apply zero_field_bytes].
  - rewrite <- (udp_packet_length sp dp payload c) at 2. rewrite udp_checksum_ok; [|done|done|done|rewrite udp_packet_length; lia].
    unfold k, udp_sum. rewrite udp_packet_length. do 3 f_equal.
Qed.

Lemma udp_packet_store pre sp dp payload c :
  in_u 16 c -> <[Z.to_nat (zlen pre + 6 + 1) := u8 c]> (<[Z.to_nat (zlen pre + 6) := u8 (c ≫ 8)]> (pre ++ udp_packet sp dp payload 0)) =
    pre ++ udp_packet sp dp payload c.
Proof.
  intros Hc. rewrite <- Z.add_assoc, !insert_in_app by lia. f_equal. rewrite u8_hi by done. reflexivity.
Qed.

Lemma padded_twice l : padded (l ++ replicate (Z.to_nat (60 - zlen l)) 0) = padded l.
Proof.
  unfold padded. rewrite zlen_app, <- app_assoc, <- replicate_add. do 2 f_equal.
  assert (E : zlen (replicate (Z.to_nat (60 - zlen l)) 0) = Z.of_nat (Z.to_nat (60 - zlen l))) by (unfold zlen; by rewrite length_replicate). lia.
Qed.

Lemma zlen_ethernet h :
  is_mac (EthernetHeader.destinationAddress h) -> is_mac (EthernetHeader.sourceAddress h) -> zlen (ethernet_bytes h) = 14.
Proof. intros Hd Hs. unfold ethernet_bytes. rewrite !zlen_app, (is_mac_zlen _ Hd), (is_mac_zlen _ Hs), zlen_be16. reflexivity. Qed.

Lemma ztake_payload (payload post : list Z) : ztake (zlen payload) (zdrop 0 (payload ++ post)) = payload.
Proof. unfold ztake, zdrop, zlen. rewrite Nat2Z.id. change (Z.to_nat 0) with 0%nat. rewrite drop_0. apply take_app_length. Qed.

Section UdpWrite.
Context `{FreshMemory} (others : Stack -> Stack).

Lemma pseudo_stream_ok source destination n :
  is_ip4 source -> is_ip4 destination -> in_u 16 n ->
  exists s post, Ip4PseudoHeader.Ip4PseudoHeader_new source destination n = Ok (Ip4PseudoHeader.mk source destination n) /\
    Ip4PseudoHeader.write (Ip4PseudoHeader.mk source destination n) ByteArrayOutputStream.ByteArrayOutputStream_new = Ok s /\
    ByteArrayOutputStream.getBuffer s = pseudo_bytes (buffer source) (buffer destination) n ++ post.
Proof.
  intros Hs Hd Hn. destruct baos_new_ok as (Hwf & Hnew & Hroom). destruct (pseudo_bytes_ok source destination n Hs Hd Hn) as [_ H12].
  destruct (pseudo_write (Ip4PseudoHeader.mk source destination n) Hs Hd Hn _ Hwf) as (s & E & Hwf' & Hd' & _).
  { cbn [Ip4PseudoHeader.sourceAddress Ip4PseudoHeader.destinationAddress Ip4PseudoHeader.datagramLength]. rewrite Hroom, H12. lia. }
  exists s, (zdrop (ByteArrayOutputStream.position s) (ByteArrayOutputStream.buffer s)). split_and!; [|done|].
  - unfold Ip4PseudoHeader.Ip4PseudoHeader_new. by rewrite !NetworkAddress_copy_ok by (apply Hs || apply Hd).
  - rewrite (baos_buffer_split s Hwf'). rewrite Hnew in Hd'. cbn [app Ip4PseudoHeader.sourceAddress Ip4PseudoHeader.destinationAddress Ip4PseudoHeader.datagramLength] in Hd'.
    change (ByteArrayOutputStream.data s) with (out_data s). by rewrite Hd'.
Qed.

(** The end of [UdpModule::writePacket]: the checksum of the packet behind [pre]. *)
Lemma udp_checksum_stored source destination pre sp dp payload s :
  is_ip4 source -> is_ip4 destination -> in_u 16 sp -> in_u 16 dp -> Forall (in_u 8) payload -> zlen payload <= 65000 ->
  out_wf s -> out_data s = pre ++ udp_packet sp dp payload 0 ->
  exists s', (forall B (k : _ -> outcome B),
     (pseudoHeader ← Ip4PseudoHeader.Ip4PseudoHeader_new source destination (8 + zlen payload);
     pseudoHeaderStream ← Ip4PseudoHeader.write pseudoHeader ByteArrayOutputStream.ByteArrayOutputStream_new;
     checksum ← udp_calculateChecksum (ByteArrayOutputStream.getBuffer pseudoHeaderStream)
       (zdrop (zlen pre) (ByteArrayOutputStream.getBuffer s)) (8 + zlen payload);
     s ← Ip4.store_checksum checksum (zlen pre + 6) s; k s) = k s') /\
    out_wf s' /\ out_data s' = pre ++ udp_full source destination sp dp payload /\ out_room s' = out_room s.
Proof.
  intros Hs Hd Hsp Hdp Hp Hl Hwf Hdata. pose proof (zlen_nonneg payload). pose proof (zlen_nonneg pre).
  destruct (pseudo_stream_ok source destination (8 + zlen payload) Hs Hd ltac:(unfold in_u; lia)) as (ps & post & -> & Ew & Eb).
  destruct (udp_packet_checksum source destination sp dp payload 0 post (zdrop (ByteArrayOutputStream.position s) (ByteArrayOutputStream.buffer s)))
    as [Hk Ec]; [done|done|done|done|unfold in_u; lia|done|done|].
  destruct (store_checksum_ok (udp_sum source destination (udp_packet sp dp payload 0)) (zlen pre + 6) s Hwf) as (s' & Est & Hwf' & Hd' & Hr');
    [lia|rewrite Hdata, zlen_app, udp_packet_length; lia|].
  exists s'. split_and!; [|done| |done]; [|by rewrite Hd', Hdata, udp_packet_store by done].
  intros B k. rewrite ok_bind, Ew, ok_bind, Eb, (baos_buffer_split s Hwf). change (ByteArrayOutputStream.data s) with (out_data s).
  rewrite Hdata, <- app_assoc, zdrop_app_at, Ec, ok_bind, Est by done. apply ok_bind.
Qed.

Lemma udp_writePacket_ok st source destination sourceIp destinationIp sp dp i dev ip mac payload post :
  can_send st sourceIp destinationIp i dev ip mac ->
  Ip4PortAddress.getIp4Address source = Ok sourceIp -> Ip4PortAddress.getPort source = Ok sp ->
  Ip4PortAddress.getIp4Address destination = Ok destinationIp -> Ip4PortAddress.getPort destination = Ok dp ->
  in_u 16 sp -> in_u 16 dp -> Forall (in_u 8) payload -> Forall (in_u 8) post -> zlen payload <= 1480 -> zlen post < 2 ^ 31 ->
  exists c, in_u 16 c /\
    (forall post, ip4_calculateChecksum (ip4_header Ip4Header.UDP (8 + zlen payload) ip destinationIp c ++ post) 10 20 = Ok c) /\
    Udp.writePacket others source destination (payload ++ post) (zlen payload) st =
    Ok (set_devices (<[device i := mkDevice (identifier dev) (macAddress dev)
      (outgoing dev ++ [padded (udp_frame mac (macAddress dev) ip destinationIp sp dp payload c)])]> (devices st)) st).
Proof.
  intros Hs Hsip Hsp Hdip Hdp Hspr Hdpr Hp Hpost Hl Hlp. pose proof (zlen_nonneg payload) as Hp0. destruct baos_new_ok as (Hwf & Hnew & Hroom).
  destruct (cs_ip _ _ _ _ _ _ _ Hs) as (Hip & _). destruct (cs_ends _ _ _ _ _ _ _ Hs) as (_ & Hdst & _).
  destruct (writeHeader_ok others st sourceIp destinationIp i dev ip mac Ip4Header.UDP (8 + zlen payload) _ Hs ltac:(unfold in_u, Ip4Header.UDP; lia)
    ltac:(lia) Hwf ltac:(lia)) as (s1 & c & Ew & Hwf1 & Hd1 & Hr1 & Hc & Hck).
  exists c. split; [done|]. split; [done|]. unfold Udp.writePacket. change UdpHeader.HEADER_SIZE with 8.
  replace (u16 (zlen payload + 8)) with (8 + zlen payload) by (unwrap; lia).
  rewrite Hsip, ok_bind, Hdip, ok_bind, Ew, ok_bind, Hsp, ok_bind, Hdp, ok_bind.
  set (pre := out_data s1) in *. assert (Hpre : zlen pre = 34).
  { rewrite Hd1, Hnew, !zlen_app, ip4_header_length, zlen_ethernet by (done || apply (cs_mac _ _ _ _ _ _ _ Hs)). reflexivity. }
  change (UdpHeader.setDatagramLength _ _) with (UdpHeader.mk sp dp (8 + zlen payload) 0).
  assert (Hok : udp_ok (UdpHeader.mk sp dp (8 + zlen payload) 0)).
  { unfold udp_ok. cbn [UdpHeader.sourcePort UdpHeader.destinationPort UdpHeader.datagramLength UdpHeader.checksum].
    split_and!; [done|done|unfold in_u; lia|unfold in_u; lia]. }
  destruct (udp_write (UdpHeader.mk sp dp (8 + zlen payload) 0) Hok s1 Hwf1) as (s2 & E2 & Hwf2 & Hd2 & Hr2);
    [rewrite udp_header_length; lia|]. rewrite udp_header_length in Hr2. fold pre in Hd2. rewrite E2, ok_bind.
  destruct (getPosition_ok s2 Hwf2) as [-> _]. rewrite Hd2, zlen_app, udp_header_length.
  destruct (ByteArrayOutputStream.baos_writeBytes s2 (payload ++ post) 0 (zlen payload)) as (s3 & E3 & Hwf3 & Hd3 & Hr3);
    [done|by apply Forall_app|lia|change (ByteArrayOutputStream.room s2) with (out_room s2); lia|rewrite zlen_app; pose proof (zlen_nonneg post); lia|
     rewrite zlen_app; lia|].
  rewrite E3, ok_bind. unfold Interface.getIp4Address. rewrite (cs_address _ _ _ _ _ _ _ Hs), !ok_bind.
  replace (zlen pre + 8 - 8) with (zlen pre) by lia. replace (zlen pre + 8 - 2) with (zlen pre + 6) by lia.
  change (ByteArrayOutputStream.data s3) with (out_data s3) in Hd3. change (ByteArrayOutputStream.data s2) with (out_data s2) in Hd3.
  rewrite Hd2, ztake_payload, <- app_assoc in Hd3.
  destruct (udp_checksum_stored ip destinationIp pre sp dp payload s3) as (s4 & E4 & Hwf4 & Hd4 & Hr4); [done|done|done|done|done|lia|done|done|].
  etransitivity; [exact (E4 _ (fun p => packet ← Ethernet.finalizePacket p; Arp.send (device i) packet st))|]. cbv beta.
  change (ByteArrayOutputStream.room s3) with (out_room s3) in Hr3. change (ByteArrayOutputStream.room s2) with (out_room s2) in Hr3.
  destruct (finalizePacket_ok s4 Hwf4) as (s5 & E5 & Hwf5 & Hd5); [lia|]. rewrite E5, ok_bind.
  assert (Hfr : out_data s4 = udp_frame mac (macAddress dev) ip destinationIp sp dp payload c).
  { rewrite Hd4, Hd1, Hnew. cbn [app]. by rewrite <- app_assoc. }
  rewrite (send_ok (device i) dev s5 st Hwf5 (cs_device _ _ _ _ _ _ _ Hs)).
  - by rewrite Hd5, padded_twice, Hfr.
  - assert (H4 : zlen (out_data s4) = 42 + zlen payload) by (rewrite Hd4, zlen_app, Hpre; unfold udp_full; rewrite udp_packet_length; lia).
    rewrite Hd5, zlen_app, H4. set (r := replicate _ 0). assert (Hr : zlen r = Z.of_nat (Z.to_nat (60 - (42 + zlen payload)))) by (unfold r, zlen; by rewrite length_replicate). lia.
Qed.
End UdpWrite.

(** ** Receiving *)

(** The bytes of a port in an address. *)
Definition le16 (port : Z) : list Z := [Z.land port 255; Z.land (port ≫ 8) 255].

(** The sockets that hear a packet for [address] and [port]: those bound to it, or to the port at any address. *)
Definition udp_hears (address : NetworkAddress) (port : Z) (a : NetworkAddress) : bool :=
  bool_decide (buffer a = buffer Ip4Address.ANY ++ le16 port) || bool_decide (buffer a = buffer address ++ le16 port).

Lemma port_value lo hi : in_u 8 lo -> in_u 8 hi -> Z.lor lo (hi ≪ 8) = hi * 256 + lo.
Proof. intros. rewrite Z.lor_comm. by apply word_value. Qed.

Lemma le16_value port : in_u 16 port -> le16 port = [port mod 256; port / 256].
Proof.
  intros Hp. unfold le16. change 255 with (Z.ones 8). rewrite !Z.land_ones by lia. rewrite Z.shiftr_div_pow2 by lia. change (2 ^ 8) with 256.
  rewrite (Z.mod_small (port / 256)); [done|]. unfold in_u in Hp. split; [apply Z.div_pos; lia|apply Z.div_lt_upper_bound; lia].
Qed.

(** An address with a port. *)
Definition is_port (a : NetworkAddress) : Prop := wf a /\ length a = 6.

Lemma is_port_shape a : is_port a -> exists w x y z lo hi, buffer a = [w; x; y; z; lo; hi] /\ in_u 8 lo /\ in_u 8 hi /\ Forall (in_u 8) [w; x; y; z].
Proof.
  intros [(Hl & Hb & _) H6]. rewrite H6 in Hl. destruct (buffer a) as [|w [|x [|y [|z [|lo [|hi [|]]]]]]]; try discriminate Hl.
  - exists w, x, y, z, lo, hi. rewrite !Forall_cons in Hb. destruct Hb as (? & ? & ? & ? & ? & ? & _). split_and!; [done|done|done|].
    rewrite !Forall_cons. split_and!; [done|done|done|done|apply Forall_nil_2].
  - exfalso. unfold zlen in Hl. cbn in Hl. lia.
Qed.

Lemma getIp4Address_port a w x y z l : buffer a = w :: x :: y :: z :: l -> Ip4PortAddress.getIp4Address a = Ok (mk [w; x; y; z] 4 IP4).
Proof.
  intros E. unfold Ip4PortAddress.getIp4Address, Ip4Address.Ip4Address_buffer, NetworkAddress_buffer, setAddress. rewrite E. done.
Qed.

Lemma getPort_port a w x y z lo hi : buffer a = [w; x; y; z; lo; hi] -> Ip4PortAddress.getPort a = Ok (Z.lor lo (hi ≪ 8)).
Proof. intros E. unfold Ip4PortAddress.getPort. by rewrite E. Qed.

(** The test of [UdpModule::readPacket]. *)
Lemma udp_test a address destination port :
  is_port a -> is_ip4 address -> in_u 16 port -> Ip4PortAddress.Ip4PortAddress_port address port = Ok destination ->
  orM (andM (ip ← Ip4PortAddress.getIp4Address a; equals ip Ip4Address.ANY)
    (p ← Ip4PortAddress.getPort a; q ← Ip4PortAddress.getPort destination; Ok (p =? q))) (equals a destination) = Ok (udp_hears address port a).
Proof.
  intros Ha Hip Hp Ed. destruct (port_shape address port Hip Hp) as (d & E & Hb & H6 & Ht & Hw & Hport & _).
  rewrite Ed in E. injection E as <-. destruct (is_port_shape a Ha) as (w & x & y & z & lo & hi & Eb & Hlo & Hhi & Hf).
  rewrite (getIp4Address_port a w x y z _ Eb), ok_bind, (getPort_port a w x y z lo hi Eb), Hport, !ok_bind.
  assert (Hwf4 : wf (mk [w; x; y; z] 4 IP4)) by (split_and!; done).
  rewrite (addr_equals_ok _ Ip4Address.ANY Hwf4 ANY_wf), (addr_equals_ok a destination) by (done || apply Ha). rewrite Hb. fold (le16 port).
  unfold udp_hears, orM, andM. rewrite ok_bind. rewrite Eb, (le16_value port Hp), port_value by done. cbn [buffer].
  assert (Hpe : hi * 256 + lo = port <-> lo = port mod 256 /\ hi = port / 256).
  { unfold in_u in *. split; [intros <-|intros [-> ->]; pose proof (Z.div_mod port 256); lia]. split; [|apply (Z.div_unique _ _ _ lo); lia].
    apply (Z.mod_unique_pos _ _ hi); lia. }
  assert (HA : bool_decide ([w; x; y; z; lo; hi] = buffer Ip4Address.ANY ++ [port mod 256; port / 256]) =
    bool_decide ([w; x; y; z] = buffer Ip4Address.ANY) && (hi * 256 + lo =? port)).
  { change (buffer Ip4Address.ANY) with [0; 0; 0; 0]. cbn [app]. destruct (Z.eqb_spec (hi * 256 + lo) port) as [E|E].
    - apply Hpe in E as [-> ->]. rewrite andb_true_r. apply bool_decide_ext. split; [by intros [= -> -> -> ->]|by intros [= -> -> -> ->]].
    - rewrite andb_false_r. apply bool_decide_eq_false. intros [= -> -> -> -> -> ->]. apply E. apply Hpe. done. }
  rewrite HA. destruct (bool_decide ([w; x; y; z] = buffer Ip4Address.ANY)); cbn [andb orb]; [|done].
  rewrite ok_bind. destruct (_ =? _); done.
Qed.

Section Receive.
Context `{FreshMemory} (others : Stack -> Stack).

(** The sockets of module [m] are different, exist, and are bound to addresses that satisfy [P]. *)
Definition bound (P : NetworkAddress -> Prop) (m : NetworkModule) (st : Stack) : Prop :=
  NoDup (socketList st m) /\ forall id, id ∈ socketList st m -> exists s a, sockets st !! id = Some s /\ bindAddress s = Some a /\ P a.

Lemma bound_listed (P : NetworkAddress -> Prop) m st p q :
  bound P m st -> (forall a, P a -> p a = Ok (q a)) -> listed p q (socketList st m) (sockets st).
Proof.
  intros [Hnd Hl] Hp. split; [done|]. intros id Hid. destruct (Hl id Hid) as (s & a & Hs & Ha & HP). exists s, a. split_and!; [done|done|by apply Hp].
Qed.

Lemma bound_delivered P m st q l d : bound P m st -> bound P m (set_sockets (delivered q l d (sockets st)) st).
Proof.
  intros [Hnd Hl]. split; [done|]. intros id Hid. destruct (Hl id Hid) as (s & a & Hs & Ha & HP). cbn [sockets set_sockets]. rewrite delivered_lookup, Hs.
  eexists _, a. split; [done|]. split; [|done]. cbn. by destruct (_ && _).
Qed.

Lemma udp_readPacket_ok b s info source destination sp dp payload trailer d st :
  view b s -> ByteArrayInputStream.data s = udp_full source destination sp dp payload ++ trailer ->
  sourceAddress info = source -> destinationAddress info = destination -> payloadLength info = 8 + zlen payload ->
  is_ip4 source -> type source = IP4 -> is_ip4 destination -> type destination = IP4 ->
  in_u 16 sp -> in_u 16 dp -> Forall (in_u 8) payload -> zlen payload <= 65000 -> bound is_port udpModule st ->
  exists src, Ip4PortAddress.Ip4PortAddress_port source sp = Ok src /\
    Udp.readPacket s info d st =
    Ok (set_sockets (delivered (udp_hears destination dp) (socketList st udpModule) (mkDatagram src payload UdpAttr) (sockets st)) st).
Proof.
  intros Hv Hd Hsrc Hdst Hn Hs Ts Hds Tds Hsp Hdp Hp Hl Hb. pose proof (zlen_nonneg payload).
  destruct (port_shape source sp Hs Hsp) as (src & Esrc & _ & _ & _ & Hsrcw & _). exists src. split; [done|].
  destruct (port_shape destination dp Hds Hdp) as (dst & Edst & _).
  unfold Udp.readPacket. rewrite Hsrc, Hdst, Hn. replace (u16 (8 + zlen payload)) with (8 + zlen payload) by (unwrap; lia).
  destruct (pseudo_stream_ok source destination (8 + zlen payload) Hs Hds ltac:(unfold in_u; lia)) as (ps & post & -> & Ew & Eb). rewrite ok_bind.
  assert (Hzero : in_u 16 0) by (unfold in_u; lia).
  set (k := udp_sum source destination (udp_packet sp dp payload 0)).
  destruct (udp_packet_checksum source destination sp dp payload k post trailer Hs Hds Hsp Hdp) as [Hk Ec]; [|done|done|].
  { apply (udp_packet_checksum source destination sp dp payload 0 [] []); done. }
  set (h := UdpHeader.mk sp dp (8 + zlen payload) k).
  assert (Hok : udp_ok h) by (split_and!; [done|done|unfold in_u; cbn; lia|done]).
  destruct (udp_read (ISL := view_laws b) h Hok s (payload ++ trailer) Hv) as (s' & Er & Hv' & Hd').
  { change (ByteArrayInputStream.data s = udp_bytes h ++ payload ++ trailer). rewrite Hd. unfold udp_full, udp_packet. by rewrite <- app_assoc. }
  rewrite Er, ok_bind, Ew, ok_bind, Eb. change (ByteArrayInputStream.data s' = payload ++ trailer) in Hd'. change (view b s') in Hv'.
  destruct (view_data b s Hv) as (Hz & Hpos & Hbuf). destruct (view_data b s' Hv') as (Hz' & Hpos' & Hbuf').
  assert (Hpe : ByteArrayInputStream.getPosition s' - UdpHeader.HEADER_SIZE = ByteArrayInputStream.getPosition s).
  { rewrite Hpos, Hpos', Hd, Hd', !zlen_app. unfold udp_full. rewrite udp_packet_length. unfold UdpHeader.HEADER_SIZE. lia. }
  rewrite Hpe, Hbuf'. rewrite Hbuf in Hz. rewrite Hz, Hd. unfold udp_full. fold k. rewrite Ec, ok_bind.
  change (UdpHeader.getChecksum h) with k. rewrite Z.eqb_refl. cbn [negb]. change (UdpHeader.getSourcePort h) with sp. rewrite Esrc, ok_bind.
  change (Ip4PseudoHeader.getDestinationAddress _) with destination. change (UdpHeader.getDestinationPort h) with dp. rewrite Edst, ok_bind.
  change (UdpHeader.getDatagramLength h) with (8 + zlen payload). unfold UdpHeader.HEADER_SIZE.
  replace (u32 (8 + zlen payload - 8)) with (zlen payload) by (unwrap; lia). rewrite Hbuf' in Hz'. rewrite Hz', Hd'.
  rewrite (deliver_ok udpModule _ (udp_hears destination dp)); [|lia|rewrite zlen_app; pose proof (zlen_nonneg trailer); lia|done|].
  - rewrite <- (ztake_payload payload trailer) at 3. done.
  - eapply bound_listed; [exact Hb|]. intros a Ha. by apply udp_test.
Qed.

(** The sockets of the IPv4 module that hear a packet for [address]. *)
Definition ip4_hears (address a : NetworkAddress) : bool := bool_decide (buffer a = buffer Ip4Address.ANY) || bool_decide (buffer a = buffer address).

Lemma invoke_ok next m protocol module info s d st :
  nextLayerModules st m !! protocol = Some module -> Modules.invokeNextLayerModule next m protocol info s d st = next module s info d st.
Proof. intros E. unfold Modules.invokeNextLayerModule, Modules.isNextLayerTypeSupported. rewrite E. by rewrite bool_decide_true. Qed.

Lemma ip4_readPacket_ok next b s info source destination n c rest i l d st :
  view b s -> ByteArrayInputStream.data s = ip4_header Ip4Header.UDP n source destination c ++ rest ->
  (forall post, ip4_calculateChecksum (ip4_header Ip4Header.UDP n source destination c ++ post) 10 20 = Ok c) ->
  in_u 16 c -> 0 <= n < 65516 -> n <= zlen rest ->
  is_ip4 source -> type source = IP4 -> is_ip4 destination -> type destination = IP4 ->
  Routing.getTargetInterfaces destination st = Ok (i :: l) -> nextLayerModules st ip4Module !! Ip4Header.UDP = Some udpModule ->
  bound wf ip4Module st ->
  exists s', view b s' /\ ByteArrayInputStream.data s' = rest /\
    Ip4.readPacket next s info d st = next udpModule s' (mkInfo source destination n) d
      (set_sockets (delivered (ip4_hears destination) (socketList st ip4Module) (mkDatagram source (ztake n rest) (Ip4Attr Ip4Header.UDP)) (sockets st)) st).
Proof.
  intros Hv Hd Hck Hc Hn Hnl Hs Ts Hds Tds Hifs Hnext Hb. destruct (view_data b s Hv) as (Hz & _ & Hbuf).
  destruct (is_ip4_shape _ Hs) as (w & x & y & z & Es & _). destruct (is_ip4_shape _ Hds) as (w' & x' & y' & z' & Ed & _).
  assert (Hread : reads (ISL := view_laws b) (Ip4Header.read Ip4Header.Ip4Header_new) (ip4_header Ip4Header.UDP n source destination c)
    (Ip4Header.mk 4 20 n 64 Ip4Header.UDP source destination)).
  { pose proof (ip4_read (ISL := view_laws b) 69 0 (20 + n) [0; 0; 0; 0] 64 Ip4Header.UDP (be16 c) (buffer source) (buffer destination) []) as R.
    change (69 ≫ 4) with 4 in R. change (Z.land 69 15 * 4) with 20 in R. replace (u16 (20 + n - 20)) with n in R by (unwrap; lia).
    destruct Hs as [Hsw Hsl], Hds as [Hdw Hdl]. rewrite (addr_eta source 4 IP4), (addr_eta destination 4 IP4) in R by done.
    apply R; [unfold in_u; lia|unfold in_u; lia|done|apply zlen_be16|by rewrite Es|by rewrite Ed|done]. }
  destruct (Hread s rest Hv Hd) as (s' & Er & Hv' & Hd'). change (ByteArrayInputStream.data s' = rest) in Hd'. change (view b s') in Hv'.
  exists s'. split; [done|]. split; [done|]. destruct (view_data b s' Hv') as (Hz' & _ & Hbuf').
  unfold Ip4.readPacket. rewrite Hz, Hd.
  assert (E0 : Ip4.byte_at (ip4_header Ip4Header.UDP n source destination c ++ rest) 0 = Ok 69) by reflexivity. rewrite E0, ok_bind.
  change (u8 (Z.land 69 15 * 4)) with 20. change Ip4Header.CHECKSUM_OFFSET with 10. rewrite Hck, ok_bind.
  assert (E10 : Ip4.byte_at (ip4_header Ip4Header.UDP n source destination c ++ rest) 10 = Ok (c / 256)) by reflexivity. rewrite E10, ok_bind.
  assert (E11 : Ip4.byte_at (ip4_header Ip4Header.UDP n source destination c ++ rest) (10 + 1) = Ok (c mod 256)) by reflexivity. rewrite E11, ok_bind.
  pose proof (be16_bytes c Hc) as Hcb. unfold be16 in Hcb. rewrite !Forall_cons in Hcb. destruct Hcb as (Hhi & Hlo & _).
  rewrite word_value, be16_join, Z.eqb_refl by done. cbn [negb]. rewrite Er, ok_bind.
  change (Ip4Header.getVersion _) with 4. change (negb (4 =? 4)) with false. cbn [Ip4Header.getDestinationAddress Ip4Header.destinationAddress].
  rewrite Hifs, ok_bind. rewrite Hz', Hd'. cbn [Ip4Header.getPayloadLength Ip4Header.payloadLength Ip4Header.getSourceAddress Ip4Header.sourceAddress Ip4Header.getProtocol Ip4Header.protocol].
  rewrite (deliver_ok ip4Module _ (ip4_hears destination)); [|lia|done|apply Hs|].
  - rewrite ok_bind. by apply invoke_ok.
  - eapply bound_listed; [exact Hb|]. intros a Ha. unfold orM, ip4_hears. rewrite !addr_equals_ok by (done || apply ANY_wf || apply Hds).
    rewrite ok_bind. by destruct (bool_decide (_ = buffer Ip4Address.ANY)).
Qed.

Lemma ethernet_readPacket_ok next b s info dst src type rest module dev d st :
  view b s -> ByteArrayInputStream.data s = ethernet_bytes (EthernetHeader.mk dst src type) ++ rest -> ethernet_ok (EthernetHeader.mk dst src type) ->
  payloadLength info = 14 + zlen rest -> zlen rest < 65536 ->
  devices st !! d = Some dev -> is_mac (macAddress dev) -> buffer (macAddress dev) = buffer dst ->
  nextLayerModules st ethernetModule !! type = Some module -> bound wf ethernetModule st ->
  exists s', view b s' /\ ByteArrayInputStream.data s' = rest /\
    Receive.ethernet_readPacket next s info d st = next module s' (mkInfo src dst (zlen rest)) d
      (set_sockets (delivered (fun a => bool_decide (buffer a = buffer dst)) (socketList st ethernetModule) (mkDatagram src rest (EthernetAttr type)) (sockets st)) st).
Proof.
  intros Hv Hd Hok Hpl Hrest Hdev Hmac Heq Hnext Hb. pose proof (zlen_nonneg rest). pose proof Hok as ([Hdw _] & _ & [Hsw _] & _).
  destruct (ethernet_read (ISL := view_laws b) _ Hok s rest Hv Hd) as (s' & Er & Hv' & Hd').
  change (ByteArrayInputStream.data s' = rest) in Hd'. change (view b s') in Hv'. exists s'. split; [done|]. split; [done|].
  destruct (view_data b s' Hv') as (Hz' & _ & _). unfold Receive.ethernet_readPacket. rewrite Er, ok_bind. unfold get_device. rewrite Hdev. cbn [of_option]. rewrite ok_bind.
  cbn [EthernetHeader.getDestinationAddress EthernetHeader.destinationAddress EthernetHeader.getSourceAddress EthernetHeader.sourceAddress EthernetHeader.getEtherType EthernetHeader.etherType].
  unfold andM at 1, notEquals. rewrite addr_equals_ok, Heq by (done || apply Hmac). rewrite bool_decide_true, !ok_bind by done. cbn [negb]. rewrite !ok_bind.
  rewrite Hpl, Hz', Hd'. change EthernetHeader.HEADER_LENGTH with 14. replace (u32 (14 + zlen rest - 14)) with (zlen rest) by (unwrap; lia).
  rewrite (deliver_ok ethernetModule _ (fun a => bool_decide (buffer a = buffer dst))); [|lia|done|done|].
  - rewrite ok_bind. rewrite (invoke_ok _ _ _ module) by done. unfold ztake, zlen. rewrite Nat2Z.id, firstn_all. done.
  - eapply bound_listed; [exact Hb|]. intros a Ha. by apply addr_equals_ok.
Qed.
End Receive.

(** ** From one host to another *)

(** Host [st] accepts frames for [mac] on device [d] and packets for [address]. *)
Record can_receive (st : Stack) (d : nat) (mac address : NetworkAddress) : Prop := {
  cr_device : exists dev, devices st !! d = Some dev /\ is_mac (macAddress dev) /\ buffer (macAddress dev) = buffer mac;
  cr_interface : exists i l, Routing.getTargetInterfaces address st = Ok (i :: l);
  cr_modules : nextLayerModules st ethernetModule !! EthernetHeader.IP4 = Some ip4Module /\ nextLayerModules st ip4Module !! Ip4Header.UDP = Some udpModule;
  cr_sockets : bound wf ethernetModule st /\ bound wf ip4Module st /\ bound is_port udpModule st
}.

Lemma udp_frame_bytes mac dmac ip dst sp dp payload c :
  is_mac mac -> is_mac dmac -> is_ip4 ip -> is_ip4 dst -> in_u 16 sp -> in_u 16 dp -> in_u 16 c -> Forall (in_u 8) payload -> zlen payload <= 1480 ->
  Forall (in_u 8) (padded (udp_frame mac dmac ip dst sp dp payload c)).
Proof.
  intros [(_ & Hm & _) _] [(_ & Hdm & _) _] Hip Hdst Hsp Hdp Hc Hp Hl. pose proof (zlen_nonneg payload). unfold padded, udp_frame, ethernet_bytes, udp_full.
  cbn [EthernetHeader.destinationAddress EthernetHeader.sourceAddress EthernetHeader.etherType]. rewrite !Forall_app. split_and!; [done|done| | | |].
  - apply be16_bytes. unfold in_u, EthernetHeader.IP4. lia.
  - apply ip4_header_bytes; [unfold in_u, Ip4Header.UDP; lia|lia|done|done|done].
  - apply udp_packet_bytes; [done|done| |done|lia]. apply (udp_packet_checksum ip dst sp dp payload 0 [] []); (done || unfold in_u; lia).
  - apply Forall_replicate. unfold in_u. lia.
Qed.

Lemma receive_ok `{FreshMemory} others stB d mac dmac ip dst sp dp payload c :
  can_receive stB d mac dst -> is_mac mac -> type mac = MAC -> is_mac dmac -> type dmac = MAC ->
  is_ip4 ip -> type ip = IP4 -> is_ip4 dst -> type dst = IP4 -> in_u 16 sp -> in_u 16 dp -> Forall (in_u 8) payload -> zlen payload <= 1480 -> in_u 16 c ->
  (forall post, ip4_calculateChecksum (ip4_header Ip4Header.UDP (8 + zlen payload) ip dst c ++ post) 10 20 = Ok c) ->
  let frame := padded (udp_frame mac dmac ip dst sp dp payload c) in
  exists src dE dI, Ip4PortAddress.Ip4PortAddress_port ip sp = Ok src /\
    Receive.handlePacket others frame (zlen frame) d stB = Ok (set_sockets
      (delivered (udp_hears dst dp) (socketList stB udpModule) (mkDatagram src payload UdpAttr)
        (delivered (ip4_hears dst) (socketList stB ip4Module) dI
          (delivered (fun a => bool_decide (buffer a = buffer mac)) (socketList stB ethernetModule) dE (sockets stB)))) stB).
Proof.
  intros [(dev & Hdev & Hdm & Hdb) (i & l & Hifs) [Hn1 Hn2] (HbE & HbI & HbU)] Hm Tm Hdmac Tdmac Hip Tip Hdst Tdst Hsp Hdp Hp Hl Hc Hck frame.
  pose proof (zlen_nonneg payload) as Hp0. pose proof (udp_frame_bytes mac dmac ip dst sp dp payload c Hm Hdmac Hip Hdst Hsp Hdp Hc Hp Hl) as Hbytes.
  set (k := ip4_header Ip4Header.UDP (8 + zlen payload) ip dst c) in *. set (u := udp_full ip dst sp dp payload).
  set (h := EthernetHeader.mk mac dmac EthernetHeader.IP4).
  assert (Hk : zlen k = 20) by (by apply ip4_header_length). assert (Hu : zlen u = 8 + zlen payload) by apply udp_packet_length.
  assert (Hh : zlen (ethernet_bytes h) = 14) by (by apply zlen_ethernet).
  set (trailer := replicate (Z.to_nat (64 - zlen (udp_frame mac dmac ip dst sp dp payload c))) 0).
  assert (Hf : frame = ethernet_bytes h ++ k ++ u ++ trailer) by (unfold frame, padded, udp_frame; by rewrite <- !app_assoc).
  assert (Ht : zlen trailer <= 64) by (unfold trailer, zlen; rewrite length_replicate; lia). pose proof (zlen_nonneg trailer) as Ht0.
  assert (Hlen : zlen frame = 14 + zlen (k ++ u ++ trailer)) by (rewrite Hf, zlen_app, Hh; reflexivity).
  assert (Hrest : zlen (k ++ u ++ trailer) < 65536) by (rewrite !zlen_app; lia).
  destruct (ByteArrayInputStream.bais_new_wf frame Hbytes ltac:(lia)) as [Hwf0 Hd0].
  assert (Hv0 : view frame (ByteArrayInputStream.ByteArrayInputStream_new frame (zlen frame))) by done.
  unfold Receive.handlePacket. change (Receive.readPacket others 3 ethernetModule) with (Receive.ethernet_readPacket (Receive.readPacket others 2)).
  destruct (ethernet_readPacket_ok (Receive.readPacket others 2) frame _ (mkInfo MacAddress.MacAddress_new MacAddress.MacAddress_new (zlen frame)) mac dmac EthernetHeader.IP4
    (k ++ u ++ trailer) ip4Module dev d stB Hv0) as (s1 & Hv1 & Hd1 & ->);
    [by rewrite Hd0, Hf|repeat split; (apply Hm || apply Hdmac || done || (unfold EthernetHeader.IP4; cbn; lia))|done|done|done|done|done|done|done|].
  change (Receive.readPacket others 2 ip4Module) with (Ip4.readPacket (Receive.readPacket others 1)).
  match goal with |- context [set_sockets ?x stB] => set (st1 := set_sockets x stB) end.
  destruct (ip4_readPacket_ok (Receive.readPacket others 1) frame s1 (mkInfo dmac mac (zlen (k ++ u ++ trailer))) ip dst (8 + zlen payload) c (u ++ trailer) i l d st1 Hv1 Hd1 Hck Hc)
    as (s2 & Hv2 & Hd2 & ->); [lia|rewrite zlen_app; lia|done|done|done|done|done|done|by apply bound_delivered|].
  change (Receive.readPacket others 1 udpModule) with Udp.readPacket.
  match goal with |- context [set_sockets ?x st1] => set (st2 := set_sockets x st1) end.
  destruct (udp_readPacket_ok frame s2 (mkInfo ip dst (8 + zlen payload)) ip dst sp dp payload trailer d st2 Hv2 Hd2) as (src & Esrc & ->);
    [done|done|done|done|done|done|done|done|done|done|lia|by do 2 apply bound_delivered|].
  eexists src, _, _. split; [done|]. reflexivity.
Qed.

(** C11: A UDP packet of at most 1480 bytes that one host sends over its default
    route, when no other route leads to the destination (as the one of the
    loopback device) and the next hop is in the ARP cache, given to another
    host with the destination addresses, is queued with its source address
    and payload at exactly the UDP sockets bound to the destination address
    and port or to the port at any address. *)
Theorem udp_end_to_end `{FreshMemory} othersA othersB stA stB source destination sourceIp destinationIp sp dp i dev ip mac payload post d :
  can_send stA sourceIp destinationIp i dev ip mac -> can_receive stB d mac destinationIp ->
  Ip4PortAddress.getIp4Address source = Ok sourceIp -> Ip4PortAddress.getPort source = Ok sp ->
  Ip4PortAddress.getIp4Address destination = Ok destinationIp -> Ip4PortAddress.getPort destination = Ok dp ->
  in_u 16 sp -> in_u 16 dp -> Forall (in_u 8) (payload ++ post) -> zlen payload <= 1480 -> zlen post < 2 ^ 31 ->
  exists frame src sockets',
    Udp.writePacket othersA source destination (payload ++ post) (zlen payload) stA =
      Ok (set_devices (<[device i := mkDevice (identifier dev) (macAddress dev) (outgoing dev ++ [frame])]> (devices stA)) stA) /\
    Receive.handlePacket othersB frame (zlen frame) d stB = Ok (set_sockets sockets' stB) /\
    Ip4PortAddress.Ip4PortAddress_port ip sp = Ok src /\
    forall id s, id ∈ socketList stB udpModule -> id ∉ socketList stB ethernetModule -> id ∉ socketList stB ip4Module -> sockets stB !! id = Some s ->
      sockets' !! id = Some (if hears (udp_hears destinationIp dp) s then push (mkDatagram src payload UdpAttr) s else s).
Proof.
  intros Hs Hr Hsip Hsp Hdip Hdp Hspr Hdpr Hbytes Hl Hpl. apply Forall_app in Hbytes as [Hp Hpost].
  destruct (udp_writePacket_ok othersA stA source destination sourceIp destinationIp sp dp i dev ip mac payload post) as (c & Hc & Hck & Ew); [done..|].
  destruct (cs_mac _ _ _ _ _ _ _ Hs) as (Hm & Tm & Hdm & Tdm). destruct (cs_ip _ _ _ _ _ _ _ Hs) as (Hip & Tip). destruct (cs_ends _ _ _ _ _ _ _ Hs) as (_ & Hdst & Tdst).
  destruct (receive_ok othersB stB d mac (macAddress dev) ip destinationIp sp dp payload c) as (src & dE & dI & Esrc & Er); [done..|].
  eexists _, src, _. split; [exact Ew|]. split; [exact Er|]. split; [done|]. intros id s HU HE HI Hid.
  rewrite !delivered_lookup, Hid. rewrite (bool_decide_true (id ∈ socketList stB udpModule)) by done.
  rewrite (bool_decide_false (id ∈ socketList stB ethernetModule)), (bool_decide_false (id ∈ socketList stB ip4Module)) by done. done.
Qed.

(** *** Two hosts *)
Module Hosts.

Definition macA : NetworkAddress := mk [2; 0; 0; 0; 0; 1] 6 MAC.
Definition macB : NetworkAddress := mk [2; 0; 0; 0; 0; 2] 6 MAC.
Definition ipA : NetworkAddress := mk [10; 0; 0; 1] 4 IP4.
Definition ipB : NetworkAddress := mk [10; 0; 0; 2] 4 IP4.
Definition subnet (ip : NetworkAddress) : NetworkAddress := mk (buffer ip ++ [24]) 5 IP4_SUBNET.
Definition at_port (ip : NetworkAddress) (port : Z) : NetworkAddress := mk (buffer ip ++ [port; 0]) 6 IP4_PORT.

(** What [NetworkService::initializeLoopback] registers at boot *)
Definition localhost : NetworkAddress := mk [127; 0; 0; 1] 4 IP4.
Definition loopback_subnet : NetworkAddress := mk [127; 0; 0; 1; 8] 5 IP4_SUBNET.
Definition loopback : Identifier := [108; 111; 111; 112; 98; 97; 99; 107].
Definition loopback_device : NetworkDevice := mkDevice loopback (mk [0; 0; 0; 0; 0; 0] 6 MAC) [].
Definition loopback_route : Ip4Route := mkRoute localhost loopback_subnet Ip4Address.Ip4Address_new loopback false.

(** Both know each other's hardware address; [hostB] has a socket at port 53 of its address and one at port 7 of any address. *)
Definition host (mac ip : NetworkAddress) (socks : gmap Z Socket) (udp : list Z) : Stack :=
  mkStack [mkDevice [101] mac []; loopback_device] [mkEntry localhost (macAddress loopback_device); mkEntry ipA macA; mkEntry ipB macB]
    [mkInterface loopback_subnet 1; mkInterface (subnet ip) 0] [loopback_route]
    (mkRoute ip (mk [0; 0; 0; 0; 0] 5 IP4_SUBNET) Ip4Address.Ip4Address_new [101] false) socks
    (fun m => match m with udpModule => udp | _ => [] end)
    (fun m => match m with ethernetModule => {[EthernetHeader.ARP := arpModule; EthernetHeader.IP4 := ip4Module]}
                         | ip4Module => {[Ip4Header.ICMP := icmpModule; Ip4Header.UDP := udpModule]} | _ => ∅ end).

Definition socket53 : Socket := mkSocket UDP_SOCKET (Some (at_port ipB 53)) 0 [].
Definition socket7 : Socket := mkSocket UDP_SOCKET (Some (at_port Ip4Address.ANY 7)) 0 [].
Definition hostA : Stack := host macA ipA ∅ [].
Definition hostB : Stack := host macB ipB {[1 := socket53; 2 := socket7]} [1; 2].

Ltac bytes := repeat (apply Forall_cons_2; [unfold in_u; lia|]); apply Forall_nil_2.

Lemma macs_ok : is_mac macA /\ is_mac macB.
Proof. repeat split; bytes. Qed.

Lemma ips_ok : is_ip4 ipA /\ is_ip4 ipB.
Proof. repeat split; bytes. Qed.

Lemma cache_A : cache_ok hostA.
Proof.
  destruct macs_ok, ips_ok. split.
  - apply Forall_cons_2; [repeat split; bytes|]. repeat (apply Forall_cons_2; [done|]). apply Forall_nil_2.
  - apply (bool_decide_unpack _). vm_compute. exact I.
Qed.

Lemma hostA_sends : can_send hostA ipA ipB (mkInterface (subnet ipA) 0) (mkDevice [101] macA []) ipA macB.
Proof.
  destruct macs_ok, ips_ok. split; try done; try (by right); try apply cache_A; [|by exists []].
  apply Forall_singleton. split; [repeat split; bytes|]. by left.
Qed.

(** The route of the loopback device is passed over for its prefix as well: the first bit of 127 is not that of 10. *)
Lemma loopback_off : off_route Ip4Address.ANY ipB loopback_route.
Proof.
  split; [repeat split; bytes|]. right. exists (mk [127; 0; 0; 0; 8] 5 IP4_SUBNET), 8, 0. split_and!; try done. repeat split; bytes.
Qed.

Lemma hostB_receives : can_receive hostB 0 macB ipB.
Proof.
  destruct macs_ok, ips_ok. split.
  - by exists (mkDevice [101] macB []).
  - by exists (mkInterface (subnet ipB) 0), [].
  - done.
  - split_and!; [split; [apply NoDup_nil_2|by intros id Hid%elem_of_nil]..|]. split; [apply (bool_decide_unpack _); vm_compute; exact I|].
    intros id Hid. cbn in Hid. rewrite !elem_of_cons in Hid. destruct Hid as [->|[->|[]%elem_of_nil]].
    + exists socket53, (at_port ipB 53). split_and!; [done|done|]. repeat split; bytes.
    + exists socket7, (at_port Ip4Address.ANY 7). split_and!; [done|done|]. repeat split; bytes.
Qed.

(** Three bytes from port 9 of [hostA] reach the socket at port 53 of [hostB], and not the one at port 7. *)
Lemma udp_end_to_end_witness : let _ : FreshMemory := fun _ => 171 in exists frame sockets',
  Udp.writePacket id (at_port ipA 9) (at_port ipB 53) [1; 2; 3; 9] 3 hostA =
    Ok (set_devices [mkDevice [101] macA [frame]; loopback_device] hostA) /\
  Receive.handlePacket id frame (zlen frame) 0 hostB = Ok (set_sockets sockets' hostB) /\
  sockets' !! 1 = Some (push (mkDatagram (at_port ipA 9) [1; 2; 3] UdpAttr) socket53) /\ sockets' !! 2 = Some socket7.
Proof.
  intros F. destruct (@udp_end_to_end F id id hostA hostB (at_port ipA 9) (at_port ipB 53) ipA ipB 9 53 (mkInterface (subnet ipA) 0)
    (mkDevice [101] macA []) ipA macB [1; 2; 3] [9] 0 hostA_sends hostB_receives) as (frame & src & socks & Ew & Er & Es & Hs);
    [done|done|done|done|unfold in_u; lia|unfold in_u; lia|cbn [app]; bytes|done|done|].
  exists frame, socks. split; [exact Ew|]. split; [exact Er|].
  assert (E : src = at_port ipA 9) by (vm_compute in Es; by injection Es as <-). subst src. split.
  - apply (Hs 1 socket53); [by left|by intros ?%elem_of_nil|by intros ?%elem_of_nil|done].
  - apply (Hs 2 socket7); [by right; left|by intros ?%elem_of_nil|by intros ?%elem_of_nil|done].
Defined.

(** [hostA] knows [ipB]: a new hardware address for it is not stored. *)
Lemma arp_cache_spec_witness :
  Arp.getHardwareAddress ipB hostA = Ok macB /\
  exists st', Arp.setEntry ipB macA hostA = Ok st' /\ cache_map st' = cache_map hostA.
Proof.
  destruct macs_ok as [HA HB], ips_ok as [IA IB].
  destruct (arp_cache_spec ipB macA hostA cache_A IB eq_refl HA eq_refl) as (_ & Hg & (st' & Es & _ & Hm) & _). split.
  - etransitivity; [exact Hg|reflexivity].
  - exists st'. split; [exact Es|]. etransitivity; [exact Hm|]. reflexivity.
Defined.
End Hosts.
