(* ===== verification/BlockMemoryManager.v ===== *)
(** * BlockMemoryManager.v: the contract of the block allocators

    [kernel/memory/BlockMemoryManager.h] is the interface of the allocators that
    hand out blocks of one size. The type class states what an implementation
    promises in terms of the set of allocated block addresses; what a client
    gets from several allocations is proved once, against the class. *)

From S2P Require Import Prelude Address.

(** [Address::setRange(0, length)] at address [a], for the allocators that clear
    what they hand out: what the optimised routine does in the end. *)
Definition zero_range (a length : Z) (m : Memory) : Memory :=
  fun x => if (a <=? x) && (x <? a + length) then 0 else m x.

Lemma zero_range_setRange a length m x :
  0 <= a -> 0 <= length < 2 ^ 32 -> a + length <= 2 ^ 32 -> Address.setRange a 0 length m x = zero_range a length m x.
Proof.
  intros Ha Hl Hmax. rewrite setRange_write by (done || (unfold in_u; lia)). unfold zero_range.
  rewrite write_bytes_lookup; unfold zlen; rewrite ?length_replicate; [|lia..]. rewrite Z2Nat.id by lia.
  cmp_cases; [|done..]. by rewrite lookup_replicate_2 by lia.
Qed.

Class BlockMemoryManager (M : Type) := {
  mm_wf : M -> Prop;
  (** the addresses of all blocks and of the allocated ones *)
  mm_all : M -> gset Z;
  mm_used : M -> gset Z;
  mm_allocateBlock : M -> outcome (Z * M);
  mm_freeBlock : Z -> M -> outcome M;
  mm_getBlockSize : M -> Z;
  mm_getTotalMemory : M -> Z;
  mm_getFreeMemory : M -> Z;
  mm_memory m :
    mm_wf m -> mm_getFreeMemory m = mm_getTotalMemory m - mm_getBlockSize m * Z.of_nat (size (mm_used m));
  mm_used_all m : mm_wf m -> mm_used m ⊆ mm_all m;
  mm_all_disjoint m a b :
    mm_wf m -> a ∈ mm_all m -> b ∈ mm_all m -> a <> b ->
    a + mm_getBlockSize m <= b \/ b + mm_getBlockSize m <= a;
  mm_allocate m :
    mm_wf m -> mm_used m <> mm_all m ->
    exists a m', mm_allocateBlock m = Ok (a, m') /\ a ∈ mm_all m ∖ mm_used m /\ mm_wf m' /\
      mm_all m' = mm_all m /\ mm_used m' = {[a]} ∪ mm_used m /\ mm_getBlockSize m' = mm_getBlockSize m /\
      mm_getTotalMemory m' = mm_getTotalMemory m;
  mm_free a m :
    mm_wf m -> a ∈ mm_used m ->
    exists m', mm_freeBlock a m = Ok m' /\ mm_wf m' /\ mm_all m' = mm_all m /\
      mm_used m' = mm_used m ∖ {[a]} /\ mm_getBlockSize m' = mm_getBlockSize m /\
      mm_getTotalMemory m' = mm_getTotalMemory m
}.

Section Client.
Context `{BlockMemoryManager M}.

(** [n] calls of [allocateBlock]. *)
Fixpoint allocate_n (n : nat) (m : M) : outcome (list Z * M) :=
  match n with
  | O => Ok ([], m)
  | S n => '(a, m) ← mm_allocateBlock m; '(l, m) ← allocate_n n m; Ok (a :: l, m)
  end.

Fixpoint free_all (l : list Z) (m : M) : outcome M :=
  match l with
  | [] => Ok m
  | a :: l => m ← mm_freeBlock a m; free_all l m
  end.

(** As long as blocks are left, allocation gives blocks that were free, all
    different, and the free memory shrinks by their size. *)
Lemma allocate_n_spec n m :
  mm_wf m -> (size (mm_used m) + n <= size (mm_all m))%nat ->
  exists l m', allocate_n n m = Ok (l, m') /\ mm_wf m' /\ mm_all m' = mm_all m /\
    mm_getBlockSize m' = mm_getBlockSize m /\ mm_getTotalMemory m' = mm_getTotalMemory m /\
    length l = n /\ NoDup l /\ (list_to_set l : gset Z) ⊆ mm_all m ∖ mm_used m /\
    mm_used m' = list_to_set l ∪ mm_used m.
Proof.
  revert m. induction n as [|n IH]; intros m Hwf Hn; cbn [allocate_n].
  - exists [], m. split_and!; [done..|by apply NoDup_nil|set_solver|set_solver].
  - destruct (mm_allocate m Hwf) as (a & m1 & -> & Ha & Hwf1 & Ha1 & Hu1 & Hs1 & Ht1).
    { intros E. rewrite E in Hn. lia. }
    mcbn. destruct (IH m1 Hwf1) as (l & m2 & -> & Hwf2 & Ha2 & Hs2 & Ht2 & Hl & Hd & Hin & Hu2).
    { rewrite Ha1, Hu1, size_union, size_singleton by set_solver. lia. }
    mcbn. exists (a :: l), m2. rewrite Ha1, Hu1 in *.
    split_and!; [done|done|done|congruence|congruence|cbn; lia| | |].
    + constructor; [|done]. rewrite <- (elem_of_list_to_set (C := gset Z)). set_solver.
    + set_solver.
    + rewrite Hu2. set_solver.
Qed.

Lemma free_all_spec l m :
  mm_wf m -> NoDup l -> (list_to_set l : gset Z) ⊆ mm_used m ->
  exists m', free_all l m = Ok m' /\ mm_wf m' /\ mm_all m' = mm_all m /\ mm_used m' = mm_used m ∖ list_to_set l /\
    mm_getBlockSize m' = mm_getBlockSize m /\ mm_getTotalMemory m' = mm_getTotalMemory m.
Proof.
  revert m. induction l as [|a l IH]; intros m Hwf Hd Hin; cbn [free_all].
  - exists m. split_and!; try done. set_solver.
  - apply NoDup_cons in Hd as [Ha Hd]. rewrite <- (elem_of_list_to_set (C := gset Z)) in Ha.
    destruct (mm_free a m Hwf) as (m1 & -> & Hwf1 & Ha1 & Hu1 & Hs1 & Ht1); [set_solver|]. mcbn.
    destruct (IH m1 Hwf1 Hd) as (m2 & -> & Hwf2 & Ha2 & Hu2 & Hs2 & Ht2); [set_solver|].
    exists m2. split_and!; [done|done|congruence| |congruence|congruence]. rewrite Hu2, Hu1. set_solver.
Qed.

(** What a client of any implementation gets: [n] blocks from a fresh manager
    do not overlap, the free memory accounts for them, and giving them back
    restores it. *)
Lemma allocate_free n m :
  mm_wf m -> mm_used m = ∅ -> (n <= size (mm_all m))%nat ->
  exists l m' m'', allocate_n n m = Ok (l, m') /\ free_all l m' = Ok m'' /\
    length l = n /\ Forall (fun a => a ∈ mm_all m) l /\
    (forall i j a b, l !! i = Some a -> l !! j = Some b -> i <> j ->
       a + mm_getBlockSize m <= b \/ b + mm_getBlockSize m <= a) /\
    mm_getFreeMemory m' = mm_getTotalMemory m - mm_getBlockSize m * Z.of_nat n /\
    mm_getFreeMemory m'' = mm_getTotalMemory m /\ mm_used m'' = ∅ /\ mm_wf m''.
Proof.
  intros Hwf Hu0 Hn.
  destruct (allocate_n_spec n m Hwf) as (l & m1 & E & Hwf1 & Ha1 & Hs1 & Ht1 & Hl & Hd & Hin & Hu).
  { rewrite Hu0, size_empty. lia. }
  destruct (free_all_spec l m1 Hwf1 Hd) as (m2 & E2 & Hwf2 & _ & Hu2 & Hs2 & Ht2); [set_solver|].
  assert (Hm : forall a, a ∈ l -> a ∈ mm_all m).
  { intros a Ha. apply (elem_of_list_to_set (C := gset Z)) in Ha. set_solver. }
  assert (mm_used m2 = ∅) as Hu2' by (rewrite Hu2, Hu, Hu0; set_solver).
  exists l, m1, m2. split_and!; [done|done|done| | | | |done|done].
  - by apply Forall_forall.
  - intros i j a b Hi Hj Hne. apply mm_all_disjoint; eauto using list_elem_of_lookup_2.
    intros ->. by destruct Hne; eapply NoDup_lookup.
  - rewrite mm_memory, Hu, Hu0, union_empty_r_L, size_list_to_set, Ht1, Hs1, Hl by done. lia.
  - rewrite mm_memory, Hu2', size_empty, Ht2, Ht1 by done. lia.
Qed.

End Client.
