(* ===== verification/BitmapMemoryManager.v ===== *)
(** * BitmapMemoryManager.v: the block allocator on a bitmap

    [kernel/memory/BitmapMemoryManager]: an area of memory is cut into blocks of
    [blockSize] bytes, the bitmap has one bit per block and [freeMemory] counts
    the bytes that are left. The manager implements the contract of
    [BlockMemoryManager]. *)

From S2P Require Import Prelude Atomic Address AtomicBitmap BlockMemoryManager.

Record BitmapMemoryManager := mkBMM {
  startAddress : Z;
  endAddress : Z;
  freeMemory : Z;
  blockSize : Z;
  zeroMemory : bool;
  bitmap : AtomicBitmap
}.

Definition BitmapMemoryManager_new (startAddress endAddress blockSize : Z) (zeroMemory : bool) : outcome BitmapMemoryManager :=
  n ← udiv (u32 (endAddress - startAddress + 1)) blockSize;
  Ok (mkBMM startAddress endAddress (u32 (endAddress - startAddress + 1)) blockSize zeroMemory (AtomicBitmap_new n)).

Definition with_bitmap (b : AtomicBitmap) (free : Z) (m : BitmapMemoryManager) : BitmapMemoryManager :=
  mkBMM (startAddress m) (endAddress m) free (blockSize m) (zeroMemory m) b.

(** The result [0] is [nullptr]. *)
Definition allocateBlock (m : BitmapMemoryManager) (mem : Memory) : outcome (Z * BitmapMemoryManager * Memory) :=
  '(block, b) ← findAndSet (bitmap m);
  if block =? INVALID_INDEX then Ok (0, with_bitmap b (freeMemory m) m, mem)
  else if u32 (freeMemory m - blockSize m) >? freeMemory m then Throw OUT_OF_BOUNDS
  else
    let m := with_bitmap b (u32 (freeMemory m - blockSize m)) m in
    let address := u32 (startAddress m + u32 (block * blockSize m)) in
    let mem := if zeroMemory m then zero_range address (blockSize m) mem else mem in
    Ok (address, m, mem).

Definition freeBlock (pointer : Z) (m : BitmapMemoryManager) : outcome BitmapMemoryManager :=
  if (pointer <? startAddress m) || (pointer >=? endAddress m) then Throw OUT_OF_BOUNDS
  else
    blockNumber ← udiv (u32 (pointer - startAddress m)) (blockSize m);
    b ← unset blockNumber (bitmap m);
    Ok (with_bitmap b (u32 (freeMemory m + blockSize m)) m).

(** The loop of [setRange]; [false] is the early return, which leaves
    [freeMemory] as it is. *)
Fixpoint setRange_loop (n : nat) (i startBlock : Z) (b : AtomicBitmap) : outcome (bool * AtomicBitmap) :=
  match n with
  | O => Ok (true, b)
  | S n =>
    if u32 (startBlock + i) >=? getSize b then Ok (false, b)
    else b ← set (u32 (startBlock + i)) b; setRange_loop n (i + 1) startBlock b
  end.

Definition setRange (startBlock blockCount : Z) (m : BitmapMemoryManager) : outcome BitmapMemoryManager :=
  '(complete, b) ← setRange_loop (Z.to_nat blockCount) 0 startBlock (bitmap m);
  if complete : bool then Ok (with_bitmap b (u32 (freeMemory m - u32 (blockCount * blockSize m))) m)
  else Ok (with_bitmap b (freeMemory m) m).

Definition getTotalMemory (m : BitmapMemoryManager) : Z := u32 (endAddress m - startAddress m + 1).
Definition getFreeMemory (m : BitmapMemoryManager) : Z := freeMemory m.
Definition getBlockSize (m : BitmapMemoryManager) : Z := blockSize m.
Definition getStartAddress (m : BitmapMemoryManager) : Z := startAddress m.
Definition getEndAddress (m : BitmapMemoryManager) : Z := endAddress m.

(** ** Abstract value *)

Definition block_address (m : BitmapMemoryManager) (k : Z) : Z := startAddress m + k * blockSize m.

Definition all (m : BitmapMemoryManager) : gset Z :=
  list_to_set (block_address m <$> seqZ 0 (blocks (bitmap m))).

Definition used (m : BitmapMemoryManager) : gset Z :=
  list_to_set (block_address m <$> filter (fun k => bit (bitmap m) k = true) (seqZ 0 (blocks (bitmap m)))).

(** The area does not start at the null address and fits the address space;
    the free memory is what the allocated blocks leave. *)
Record wf (m : BitmapMemoryManager) : Prop := {
  wf_start : 0 < startAddress m;
  wf_end : startAddress m <= endAddress m < 2 ^ 32;
  wf_size : 1 < blockSize m;
  wf_bitmap : AtomicBitmap.wf (bitmap m);
  wf_blocks : blocks (bitmap m) = (endAddress m - startAddress m + 1) / blockSize m;
  wf_free : freeMemory m = getTotalMemory m - blockSize m * Z.of_nat (size (used m))
}.

(** ** Lemmas *)

Section manager.
Context (m : BitmapMemoryManager) (Hwf : wf m).

Lemma bmm_total : getTotalMemory m = endAddress m - startAddress m + 1.
Proof. destruct Hwf. unfold getTotalMemory. unwrap; lia. Qed.

Lemma bmm_blocks : 0 <= blocks (bitmap m) < INVALID_INDEX /\ blocks (bitmap m) * blockSize m <= getTotalMemory m.
Proof.
  destruct Hwf. rewrite bmm_total, wf_blocks0. unfold INVALID_INDEX.
  pose proof (Z.mul_div_le (endAddress m - startAddress m + 1) (blockSize m) ltac:(lia)).
  assert (0 <= (endAddress m - startAddress m + 1) / blockSize m) by (apply Z.div_pos; lia).
  nia.
Qed.

Lemma elem_all a : a ∈ all m <-> exists k, 0 <= k < blocks (bitmap m) /\ a = block_address m k.
Proof.
  unfold all. rewrite elem_of_list_to_set, list_elem_of_fmap. setoid_rewrite elem_of_seqZ.
  split; intros (k & H1 & H2); exists k; (split; [(done || lia)|(done || lia)]).
Qed.

Lemma elem_used a :
  a ∈ used m <-> exists k, 0 <= k < blocks (bitmap m) /\ bit (bitmap m) k = true /\ a = block_address m k.
Proof.
  unfold used. rewrite elem_of_list_to_set, list_elem_of_fmap. setoid_rewrite list_elem_of_filter.
  setoid_rewrite elem_of_seqZ. split; intros (k & H); exists k; (split_and!; (lia || tauto)).
Qed.

Lemma block_address_inj k1 k2 : block_address m k1 = block_address m k2 -> k1 = k2.
Proof. destruct Hwf. unfold block_address. nia. Qed.

Lemma size_all : Z.of_nat (size (all m)) = blocks (bitmap m).
Proof.
  unfold all. rewrite size_list_to_set.
  - rewrite length_fmap, length_seqZ. pose proof bmm_blocks. lia.
  - apply NoDup_fmap_2_strong; [|apply NoDup_seqZ]. intros k1 k2 _ _. apply block_address_inj.
Qed.

Lemma used_subseteq : used m ⊆ all m.
Proof. intros a. rewrite elem_used, elem_all. intros (k & ? & _ & ->). eauto. Qed.

Lemma free_block_exists :
  used m <> all m <-> exists k, 0 <= k < blocks (bitmap m) /\ bit (bitmap m) k = false.
Proof.
  split.
  - intros Hne. destruct (list_find (.= false) (bits (bitmap m))) as [[k x]|] eqn:E.
    + apply list_find_Some in E as (E & -> & _). rewrite bits_lookup_nat in E. case_decide; [|done].
      injection E as E. exists (Z.of_nat k). split; [lia|done].
    + destruct Hne. apply set_eq. intros a. rewrite elem_used, elem_all. split; [intros (k & ? & _ & ?); eauto|].
      intros (k & Hk & ->). exists k. split_and!; [lia|lia| |done]. apply list_find_None in E.
      pose proof (bits_lookup (bitmap m) k Hk) as Hb. eapply Forall_lookup_1 in E; [|exact Hb].
      by destruct (bit (bitmap m) k).
  - intros (k & Hk & Hb) E. assert (block_address m k ∈ used m) as Hu by (rewrite E, elem_all; eauto).
    apply elem_used in Hu as (j & _ & Hj & ->%block_address_inj). congruence.
Qed.

(** Setting or clearing one bit adds or removes the block's address. *)
Lemma used_update k v free :
  0 <= k < blocks (bitmap m) ->
  used (with_bitmap (update k v (bitmap m)) free m) =
  if v then {[block_address m k]} ∪ used m else used m ∖ {[block_address m k]}.
Proof.
  intros Hk. destruct Hwf as [_ _ _ Hb _ _]. apply set_eq. intros a.
  assert (a ∈ used (with_bitmap (update k v (bitmap m)) free m) <->
    exists j, 0 <= j < blocks (bitmap m) /\ bit (update k v (bitmap m)) j = true /\ a = block_address m j) as ->.
  { unfold used. rewrite elem_of_list_to_set, list_elem_of_fmap. setoid_rewrite list_elem_of_filter.
    setoid_rewrite elem_of_seqZ. cbn. split; intros (j & H); exists j; (split_and!; (lia || tauto)). }
  assert ((exists j, 0 <= j < blocks (bitmap m) /\ bit (update k v (bitmap m)) j = true /\ a = block_address m j) <->
    (a = block_address m k /\ v = true) \/ (a <> block_address m k /\ a ∈ used m)) as ->.
  { rewrite elem_used. split.
    - intros (j & Hj & Hbj & ->). rewrite bit_update in Hbj by done. destruct (decide (j = k)) as [->|Hne]; [by left|].
      right. split; [by intros ?%block_address_inj|eauto].
    - intros [[-> ->]|[Hne (j & Hj & Hbj & ->)]].
      + exists k. rewrite bit_update by done. by rewrite decide_True.
      + exists j. rewrite bit_update by done. rewrite decide_False; [done|]. intros ->. done. }
  destruct v; [destruct (decide (a = block_address m k)) as [->|]|]; set_solver.
Qed.

Lemma wf_update k v :
  0 <= k < blocks (bitmap m) -> bit (bitmap m) k = negb v ->
  let free := if v then freeMemory m - blockSize m else freeMemory m + blockSize m in
  in_u 32 free /\ wf (with_bitmap (update k v (bitmap m)) free m).
Proof.
  intros Hk Hb free. pose proof used_subseteq as Hsub. pose proof bmm_blocks as [Hb1 Hb2]. pose proof bmm_total as Ht.
  pose proof (used_update k v free Hk) as Hu. pose proof size_all as Hsa.
  pose proof Hwf as [H1 H2 H3 H4 H5 H6].
  assert (Hm : block_address m k ∈ used m <-> negb v = true).
  { rewrite elem_used. split; [intros (j & _ & Hj & ->%block_address_inj); congruence|]. intros. exists k. split_and!; congruence || lia. }
  assert (Hs : Z.of_nat (size (used (with_bitmap (update k v (bitmap m)) free m))) = Z.of_nat (size (used m)) + (if v then 1 else -1)
     /\ 0 <= Z.of_nat (size (used (with_bitmap (update k v (bitmap m)) free m))) <= blocks (bitmap m)).
  { rewrite Hu. destruct v; cbn in Hm.
    - rewrite size_union, size_singleton by set_solver.
      assert (size ({[block_address m k]} ∪ used m) <= size (all m))%nat as Hle.
      { apply subseteq_size. pose proof (proj2 (elem_all (block_address m k)) ltac:(eauto)). set_solver. }
      rewrite size_union, size_singleton in Hle by set_solver. lia.
    - assert ({[block_address m k]} ⊆ used m) as Hin by set_solver.
      rewrite size_difference, size_singleton by done. apply subseteq_size in Hin, Hsub. rewrite size_singleton in Hin. lia. }
  destruct Hs as [Hs1 Hs2].
  assert (free = getTotalMemory m - blockSize m * Z.of_nat (size (used (with_bitmap (update k v (bitmap m)) free m)))) as Hf.
  { rewrite Hs1. unfold free. destruct v; lia. }
  split.
  - unfold in_u. rewrite Hf. nia.
  - split; try done. by apply update_wf.
Qed.

End manager.

(** ** The operations *)

Section operations.
Context (m : BitmapMemoryManager) (Hwf : wf m).

Lemma allocateBlock_full mem : used m = all m -> allocateBlock m mem = Ok (0, m, mem).
Proof.
  intros He. unfold allocateBlock. rewrite findAndSet_spec by apply Hwf.
  destruct (list_find _ _) as [[k x]|] eqn:E; mcbn; [|by destruct m].
  apply list_find_Some in E as (E & -> & _). rewrite bits_lookup_nat in E. case_decide; [|done]. injection E as E.
  exfalso. apply (free_block_exists m Hwf); [|done]. exists (Z.of_nat k). split; [lia|done].
Qed.

(** The first free block is handed out. *)
Lemma allocateBlock_ok mem :
  used m <> all m ->
  exists k m', allocateBlock m mem = Ok (block_address m k, m',
      if zeroMemory m then zero_range (block_address m k) (blockSize m) mem else mem) /\
    0 <= k < blocks (bitmap m) /\ block_address m k ∉ used m /\ wf m' /\
    m' = with_bitmap (update k true (bitmap m)) (freeMemory m - blockSize m) m.
Proof.
  intros Hne. pose proof (proj1 (free_block_exists m Hwf) Hne) as (j & Hj & Hbj).
  unfold allocateBlock. rewrite findAndSet_spec by apply Hwf.
  destruct (list_find _ _) as [[k x]|] eqn:E; mcbn.
  2:{ apply list_find_None in E. pose proof (bits_lookup (bitmap m) j Hj) as Hb. eapply Forall_lookup_1 in E; [|exact Hb].
      congruence. }
  apply list_find_Some in E as (E & -> & _). rewrite bits_lookup_nat in E. case_decide; [|done]. injection E as E.
  destruct (wf_update m Hwf (Z.of_nat k) true) as [Hf Hwf']; [lia|done|].
  pose proof (bmm_blocks m Hwf) as [Hb1 Hb2]. pose proof (bmm_total m Hwf) as Ht. pose proof Hwf as [H1 H2 H3 H4 H5 H6].
  destruct (Z.eqb_spec (Z.of_nat k) INVALID_INDEX); [lia|].
  rewrite (wrap_small 32 (freeMemory m - blockSize m) Hf : u32 (freeMemory m - blockSize m) = _), Z.gtb_ltb. destruct (Z.ltb_spec (freeMemory m) (freeMemory m - blockSize m)); [lia|].
  cbn [with_bitmap startAddress blockSize zeroMemory].
  assert (0 <= Z.of_nat k * blockSize m <= getTotalMemory m - blockSize m) by nia.
  replace (u32 (startAddress m + u32 (Z.of_nat k * blockSize m))) with (block_address m (Z.of_nat k))
    by (unfold block_address, u32; rewrite (wrap_small 32 (_ * _)) by wrap_solve; unwrap; lia).
  eexists _, _. split; [done|]. split; [lia|]. split; [|done].
  rewrite elem_used by done. intros (i & _ & Hi & Heq). apply block_address_inj in Heq; [congruence|done].
Qed.

Lemma freeBlock_ok k :
  0 <= k < blocks (bitmap m) -> bit (bitmap m) k = true ->
  freeBlock (block_address m k) m = Ok (with_bitmap (update k false (bitmap m)) (freeMemory m + blockSize m) m) /\
  wf (with_bitmap (update k false (bitmap m)) (freeMemory m + blockSize m) m).
Proof.
  intros Hk Hb. destruct (wf_update m Hwf k false) as [Hf Hwf']; [done|done|].
  pose proof (bmm_blocks m Hwf) as [Hb1 Hb2]. pose proof (bmm_total m Hwf) as Ht. pose proof Hwf as [H1 H2 H3 H4 H5 H6].
  assert (0 <= k * blockSize m <= getTotalMemory m - blockSize m) by nia.
  unfold freeBlock, block_address. rewrite Z.geb_leb. cmp_cases.
  replace (u32 (startAddress m + k * blockSize m - startAddress m)) with (k * blockSize m) by (unwrap; lia).
  rewrite udiv_ok by lia. mcbn. rewrite Z.div_mul by lia. rewrite bm_unset_eq by done. mcbn.
  unfold u32. rewrite wrap_small by done. done.
Qed.

(** Pointers outside the area are refused. *)
Lemma freeBlock_outside a : a < startAddress m \/ endAddress m <= a -> freeBlock a m = Throw OUT_OF_BOUNDS.
Proof. intros Ha. unfold freeBlock. rewrite Z.geb_leb. cmp_cases; done. Qed.

End operations.

(** ** The manager satisfies the contract *)

Definition mm_alloc (s : BitmapMemoryManager * Memory) : outcome (Z * (BitmapMemoryManager * Memory)) :=
  '(a, m, mem) ← allocateBlock s.1 s.2; Ok (a, (m, mem)).

#[export] Program Instance BitmapMemoryManager_contract : BlockMemoryManager (BitmapMemoryManager * Memory) := {|
  mm_wf s := wf s.1;
  mm_all s := all s.1;
  mm_used s := used s.1;
  mm_allocateBlock := mm_alloc;
  mm_freeBlock a s := (fun m => (m, s.2)) <$> freeBlock a s.1;
  mm_getBlockSize s := getBlockSize s.1;
  mm_getTotalMemory s := getTotalMemory s.1;
  mm_getFreeMemory s := getFreeMemory s.1
|}.
Next Obligation. intros [m mem] Hwf. apply Hwf. Qed.
Next Obligation. intros [m mem] Hwf. by apply used_subseteq. Qed.
Next Obligation.
  intros [m mem] a b Hwf. cbn in *. rewrite !elem_all by done. intros (i & Hi & ->) (j & Hj & ->) Hne.
  destruct Hwf. unfold block_address, getBlockSize in *. assert (i <> j) by (by intros ->). nia.
Qed.
Next Obligation.
  intros [m mem] Hwf Hne. unfold mm_alloc. cbn [fst snd] in *.
  destruct (allocateBlock_ok m Hwf mem Hne) as (k & m' & -> & Hk & Hn & Hwf' & ->).
  mcbn. eexists _, _. split; [done|]. cbn [fst]. split_and!; [|done|done| |done|done].
  - apply elem_of_difference. split; [|done]. apply elem_all; eauto.
  - by rewrite used_update.
Qed.
Next Obligation.
  intros a [m mem] Hwf Ha. cbn [fst snd] in *. apply elem_used in Ha as (k & Hk & Hb & ->).
  destruct (freeBlock_ok m Hwf k Hk Hb) as [-> Hwf']. mcbn. eexists. split; [done|].
  split_and!; [done|done| |done|done]. cbn [fst]. by rewrite used_update.
Qed.

Lemma BitmapMemoryManager_new_ok s e bs z :
  0 < s -> s <= e < 2 ^ 32 -> 1 < bs ->
  exists m, BitmapMemoryManager_new s e bs z = Ok m /\ wf m /\ used m = ∅ /\
    getFreeMemory m = e - s + 1 /\ getTotalMemory m = e - s + 1 /\
    startAddress m = s /\ endAddress m = e /\ blockSize m = bs /\ zeroMemory m = z /\ blocks (bitmap m) = (e - s + 1) / bs.
Proof.
  intros Hs He Hb. unfold BitmapMemoryManager_new.
  assert (u32 (e - s + 1) = e - s + 1) as Hu by (unwrap; lia). rewrite Hu.
  assert (0 <= (e - s + 1) / bs < 2 ^ 32) as Hn.
  { split; [apply Z.div_pos; lia|]. apply Z.div_lt_upper_bound; nia. }
  rewrite udiv_ok by lia. mcbn. eexists. split; [done|].
  set (m := mkBMM _ _ _ _ _ _).
  assert (used m = ∅) as Hu0.
  { unfold used, m. cbn [bitmap blocks AtomicBitmap_new].
    assert (filter (fun k => bit (AtomicBitmap_new ((e - s + 1) / bs)) k = true) (seqZ 0 ((e - s + 1) / bs)) = []) as ->; [|done].
    apply elem_of_nil_inv. intros k [Hk1 Hk2%elem_of_seqZ]%list_elem_of_filter.
    pose proof (bits_lookup (AtomicBitmap_new ((e - s + 1) / bs)) k ltac:(cbn; lia)) as H.
    rewrite new_bits, Hk1 in H. by apply lookup_replicate_1 in H as [? _]. }
  split_and!; try done. split; try done; [by apply new_wf|]. rewrite Hu0, size_empty. unfold m, getTotalMemory. cbn. lia.
Qed.

(** From a new manager, as many allocations as there are blocks give
    aligned blocks inside the area that do not overlap, the free memory is
    what they leave, and freeing them restores it. *)
Theorem BitmapMemoryManager_allocations s e bs z mem n :
  0 < s -> s <= e < 2 ^ 32 -> 1 < bs -> Z.of_nat n <= (e - s + 1) / bs ->
  exists m l m' m'',
    BitmapMemoryManager_new s e bs z = Ok m /\ allocate_n n (m, mem) = Ok (l, m') /\ free_all l m' = Ok m'' /\
    length l = n /\
    Forall (fun a => s <= a /\ a + bs <= e + 1 /\ (a - s) mod bs = 0) l /\
    (forall i j a b, l !! i = Some a -> l !! j = Some b -> i <> j -> a + bs <= b \/ b + bs <= a) /\
    getFreeMemory m'.1 = getTotalMemory m - Z.of_nat n * bs /\ getFreeMemory m''.1 = getTotalMemory m.
Proof.
  intros Hs He Hb Hn.
  destruct (BitmapMemoryManager_new_ok s e bs z Hs He Hb) as (m & Hm & Hwf & Hu & Hf & Ht & Hst & Hen & Hbs & _ & Hk).
  destruct (allocate_free n (m, mem)) as (l & m1 & m2 & E1 & E2 & Hl & Ha & Hd & Hf1 & Hf2 & _); [done|done| |].
  { pose proof (size_all m Hwf). cbn. lia. }
  cbn [mm_all mm_getBlockSize mm_getTotalMemory mm_getFreeMemory BitmapMemoryManager_contract fst] in *.
  unfold getBlockSize in *. rewrite Hbs in *.
  exists m, l, m1, m2. split_and!; [done|done|done|done| |done|lia|done].
  eapply Forall_impl; [done|]. cbn. intros a (k & Hk1 & ->)%elem_all.
  pose proof (bmm_blocks m Hwf) as [_ Hbb]. unfold block_address. rewrite Hst, Hbs, Ht in *.
  split_and!; [nia|nia|]. replace (s + k * bs - s) with (k * bs) by lia. apply Z.mod_mul. lia.
Qed.

Lemma BitmapMemoryManager_allocations_witness :
  exists m l m' m'', BitmapMemoryManager_new 0x1000 0x4fff 0x1000 true = Ok m /\
    allocate_n 4 (m, fun _ => 7) = Ok (l, m') /\ l = [0x1000; 0x2000; 0x3000; 0x4000] /\
    free_all l m' = Ok m'' /\ getFreeMemory m'.1 = 0 /\ getFreeMemory m''.1 = 0x4000.
Proof.
  destruct (BitmapMemoryManager_allocations 0x1000 0x4fff 0x1000 true (fun _ => 7) 4)
    as (m & l & m' & m'' & Hm & H1 & H2 & _ & _ & _ & H3 & H4); [lia..|vm_compute; discriminate|].
  assert (Hm' := Hm). vm_compute in Hm'. injection Hm' as <-.
  eexists _, l, m', m''. split; [exact Hm|]. split; [exact H1|]. split; [|split; [exact H2|]].
  - apply (f_equal (fun o => match o with Ok p => p.1 | _ => [] end)) in H1. vm_compute in H1. by rewrite H1.
  - split; [exact H3|exact H4].
Defined.

(** What an allocation does to the memory: the block is cleared when the
    manager was built with [zeroMemory], everything else is untouched. *)
Lemma allocateBlock_memory m mem a m' mem' :
  wf m -> used m <> all m -> allocateBlock m mem = Ok (a, m', mem') ->
  forall x, mem' x = if bool_decide (zeroMemory m = true /\ a <= x < a + blockSize m) then 0 else mem x.
Proof.
  intros Hwf Hne Ha x. destruct (allocateBlock_ok m Hwf mem Hne) as (k & m1 & E & _). rewrite E in Ha.
  injection Ha as <- <- <-. destruct (zeroMemory m); [|by rewrite bool_decide_false by (by intros [])].
  unfold zero_range. cmp_cases; case_bool_decide; (done || lia).
Qed.

(** Freeing a block that is not allocated is not noticed: the bitmap stays, the
    count of free bytes grows. *)
Lemma double_free m k :
  wf m -> 0 <= k < blocks (bitmap m) -> bit (bitmap m) k = false ->
  freeBlock (block_address m k) m = Ok (with_bitmap (bitmap m) (u32 (freeMemory m + blockSize m)) m).
Proof.
  intros Hwf Hk Hb. pose proof (bmm_blocks m Hwf) as [Hb1 Hb2]. pose proof (bmm_total m Hwf) as Ht.
  pose proof Hwf as [H1 H2 H3 H4 H5 H6].
  assert (0 <= k * blockSize m <= getTotalMemory m - blockSize m) by nia.
  unfold freeBlock, block_address. rewrite Z.geb_leb. cmp_cases.
  replace (u32 (startAddress m + k * blockSize m - startAddress m)) with (k * blockSize m) by (unwrap; lia).
  rewrite udiv_ok by lia. mcbn. rewrite Z.div_mul by lia. rewrite bm_unset_eq by done. mcbn.
  by rewrite <- Hb, update_same.
Qed.

(** *** [setRange] *)

(** A range inside the bitmap is marked as a whole and paid for; a range that
    reaches beyond it is marked up to the end and not paid for. *)
Lemma setRange_loop_spec n i start b :
  AtomicBitmap.wf b -> 0 <= start -> 0 <= i -> start + i + Z.of_nat n < 2 ^ 32 ->
  exists b', setRange_loop n i start b = Ok (bool_decide (n = 0%nat \/ start + i + Z.of_nat n <= blocks b), b') /\
    AtomicBitmap.wf b' /\ blocks b' = blocks b /\
    forall j, 0 <= j < blocks b -> bit b' j = if decide (start + i <= j < start + i + Z.of_nat n) then true else bit b j.
Proof.
  revert i b. induction n as [|n IH]; intros i b Hwf Hs Hi Hn; cbn [setRange_loop].
  - exists b. split_and!; [by rewrite bool_decide_true by (by left)|done|done|]. intros j Hj. case_decide; (done || lia).
  - replace (u32 (start + i)) with (start + i) by (unwrap; lia). unfold getSize. rewrite Z.geb_leb.
    destruct (Z.leb_spec (blocks b) (start + i)).
    + exists b. split_and!; [rewrite bool_decide_false by lia; done|done|done|]. intros j Hj. by rewrite decide_False by lia.
    + rewrite bm_set_eq by (done || lia). mcbn.
      destruct (IH (i + 1) (update (start + i) true b)) as (b' & -> & Hwf' & Hb' & Hbit); [apply update_wf; (done || lia)|lia..|].
      exists b'. cbn [blocks update AtomicBitmap.with_bitmap] in *. split_and!; [|done|done|].
      * do 2 f_equal. repeat case_bool_decide; (done || lia).
      * intros j Hj. rewrite Hbit by done. rewrite bit_update by (done || lia). clear IH.
        repeat case_decide; (done || lia).
Qed.

Definition block_range (m : BitmapMemoryManager) (start n : Z) : gset Z :=
  list_to_set (block_address m <$> seqZ start n).

Lemma elem_block_range m start n a :
  a ∈ block_range m start n <-> exists k, start <= k < start + n /\ a = block_address m k.
Proof.
  unfold block_range. rewrite elem_of_list_to_set, list_elem_of_fmap. setoid_rewrite elem_of_seqZ.
  split; intros (k & H1 & H2); exists k; (split; [(done || lia)|(done || lia)]).
Qed.

Lemma size_block_range m start n : wf m -> 0 <= n -> Z.of_nat (size (block_range m start n)) = n.
Proof.
  intros Hwf Hn. unfold block_range. rewrite size_list_to_set.
  - rewrite length_fmap, length_seqZ. lia.
  - apply NoDup_fmap_2_strong; [|apply NoDup_seqZ]. intros k1 k2 _ _. by apply block_address_inj.
Qed.

(** Marking a range of free blocks: they are allocated and paid for. *)
Lemma setRange_spec m start n :
  wf m -> 0 <= start -> 0 <= n -> start + n <= blocks (bitmap m) ->
  (forall k, start <= k < start + n -> bit (bitmap m) k = false) ->
  exists m', setRange start n m = Ok m' /\ wf m' /\ used m' = block_range m start n ∪ used m /\
    startAddress m' = startAddress m /\ endAddress m' = endAddress m /\ blockSize m' = blockSize m /\
    zeroMemory m' = zeroMemory m /\ blocks (bitmap m') = blocks (bitmap m) /\
    forall j, 0 <= j < blocks (bitmap m) ->
      bit (bitmap m') j = if decide (start <= j < start + n) then true else bit (bitmap m) j.
Proof.
  intros Hwf Hs Hn Hb Hfree. pose proof (bmm_blocks m Hwf) as [Hb1 Hb2]. pose proof Hwf as [H1 H2 H3 H4 H5 H6].
  unfold INVALID_INDEX in *.
  destruct (setRange_loop_spec (Z.to_nat n) 0 start (bitmap m)) as (b & Hl & Hwfb & Hbb & Hbit); [done|done|done|lia|].
  unfold setRange. rewrite Hl, bool_decide_true by lia. mcbn. eexists. split; [done|].
  rewrite Z.add_0_r, Z2Nat.id in Hbit by lia.
  set (m' := with_bitmap b _ m).
  assert (Hu : used m' = block_range m start n ∪ used m).
  { apply set_eq. intros a. rewrite elem_of_union, elem_block_range, !elem_used. cbn [bitmap m' with_bitmap].
    rewrite Hbb. split.
    - intros (k & Hk & Hk' & ->). rewrite Hbit in Hk' by done. case_decide; [left|right]; eauto.
    - intros [(k & Hk & ->)|(k & Hk & Hk' & ->)]; exists k; (split; [lia|split; [|done]]); rewrite Hbit by lia.
      + by rewrite decide_True.
      + by destruct (decide _). }
  assert (Hd : block_range m start n ## used m).
  { intros a (k & Hk & ->)%elem_block_range (j & Hj & Hj' & E)%elem_used. apply block_address_inj in E as <-; [|done].
    by rewrite Hfree in Hj'. }
  assert (Hsz : Z.of_nat (size (used m')) = n + Z.of_nat (size (used m))).
  { rewrite Hu, size_union by done. pose proof (size_block_range m start n Hwf Hn). lia. }
  assert (Z.of_nat (size (used m')) <= blocks (bitmap m)) as Hle.
  { rewrite <- (size_all m Hwf). apply inj_le, subseteq_size. intros a. rewrite Hu, elem_of_union, elem_block_range, elem_all.
    intros [(k & Hk & ->)|Ha]; [exists k; split; [lia|done]|]. by apply elem_all, used_subseteq. }
  assert (0 <= n * blockSize m <= getTotalMemory m) by nia. pose proof (bmm_total m Hwf) as Ht.
  split_and!; [|done..].
  split; try done; [cbn; by rewrite Hbb|]. rewrite Hsz. cbn [m' with_bitmap freeMemory blockSize].
  change (getTotalMemory m') with (getTotalMemory m). rewrite H6.
  unfold u32. rewrite (wrap_small 32 (n * blockSize m)) by wrap_solve. rewrite wrap_small; [lia|].
  unfold in_u. nia.
Qed.
