(* ===== verification/SlabAllocator.v ===== *)
(** * SlabAllocator.v: six pools of fixed-size blocks

    [kernel/memory/SlabAllocator]: six consecutive areas of 1 MiB, each managed
    by a [BitmapMemoryManager], for blocks of 4, 8, 16, 32, 64 and 128 KiB. *)

From S2P Require Import Prelude Atomic Address AtomicBitmap BlockMemoryManager BitmapMemoryManager.

Definition MAX_SLAB_SIZE : Z := 128 * 1024.
Definition POOL_SIZE : Z := 1 * 1024 * 1024.

Record SlabAllocator := mkSlab {
  pool4K : BitmapMemoryManager;
  pool8K : BitmapMemoryManager;
  pool16K : BitmapMemoryManager;
  pool32K : BitmapMemoryManager;
  pool64K : BitmapMemoryManager;
  pool128K : BitmapMemoryManager
}.

Definition SlabAllocator_new (slabMemory : Z) : outcome SlabAllocator :=
  p4 ← BitmapMemoryManager_new slabMemory (u32 (slabMemory + POOL_SIZE - 1)) (4 * 1024) false;
  p8 ← BitmapMemoryManager_new (u32 (slabMemory + 1 * POOL_SIZE)) (u32 (slabMemory + 2 * POOL_SIZE - 1)) (8 * 1024) false;
  p16 ← BitmapMemoryManager_new (u32 (slabMemory + 2 * POOL_SIZE)) (u32 (slabMemory + 3 * POOL_SIZE - 1)) (16 * 1024) false;
  p32 ← BitmapMemoryManager_new (u32 (slabMemory + 3 * POOL_SIZE)) (u32 (slabMemory + 4 * POOL_SIZE - 1)) (32 * 1024) false;
  p64 ← BitmapMemoryManager_new (u32 (slabMemory + 4 * POOL_SIZE)) (u32 (slabMemory + 5 * POOL_SIZE - 1)) (64 * 1024) false;
  p128 ← BitmapMemoryManager_new (u32 (slabMemory + 5 * POOL_SIZE)) (u32 (slabMemory + 6 * POOL_SIZE - 1)) (128 * 1024) false;
  Ok (mkSlab p4 p8 p16 p32 p64 p128).

(** The pools by their position. *)
Inductive slab := S4K | S8K | S16K | S32K | S64K | S128K.

#[export] Instance slab_eq_dec : EqDecision slab.
Proof. solve_decision. Defined.

Definition slab_index (c : slab) : Z :=
  match c with S4K => 0 | S8K => 1 | S16K => 2 | S32K => 3 | S64K => 4 | S128K => 5 end.

Definition slab_size (c : slab) : Z := 4096 * 2 ^ slab_index c.

Definition pool (c : slab) (a : SlabAllocator) : BitmapMemoryManager :=
  match c with
  | S4K => pool4K a | S8K => pool8K a | S16K => pool16K a
  | S32K => pool32K a | S64K => pool64K a | S128K => pool128K a
  end.

Definition set_pool (c : slab) (m : BitmapMemoryManager) (a : SlabAllocator) : SlabAllocator :=
  match c, a with
  | S4K, mkSlab _ p8 p16 p32 p64 p128 => mkSlab m p8 p16 p32 p64 p128
  | S8K, mkSlab p4 _ p16 p32 p64 p128 => mkSlab p4 m p16 p32 p64 p128
  | S16K, mkSlab p4 p8 _ p32 p64 p128 => mkSlab p4 p8 m p32 p64 p128
  | S32K, mkSlab p4 p8 p16 _ p64 p128 => mkSlab p4 p8 p16 m p64 p128
  | S64K, mkSlab p4 p8 p16 p32 _ p128 => mkSlab p4 p8 p16 p32 m p128
  | S128K, mkSlab p4 p8 p16 p32 p64 _ => mkSlab p4 p8 p16 p32 p64 m
  end.

(** The [switch] over the number of frames. *)
Definition slab_of (frameCount : Z) : option slab :=
  if frameCount =? 1 then Some S4K
  else if frameCount =? 2 then Some S8K
  else if (frameCount =? 3) || (frameCount =? 4) then Some S16K
  else if (5 <=? frameCount) && (frameCount <=? 8) then Some S32K
  else if (9 <=? frameCount) && (frameCount <=? 16) then Some S64K
  else if (17 <=? frameCount) && (frameCount <=? 32) then Some S128K
  else None.

Definition allocateBlock (frameCount : Z) (a : SlabAllocator) (mem : Memory) : outcome (Z * SlabAllocator * Memory) :=
  match slab_of frameCount with
  | Some c => '(p, m, mem) ← BitmapMemoryManager.allocateBlock (pool c a) mem; Ok (p, set_pool c m a, mem)
  | None => Ok (0, a, mem)
  end.

(** One branch of [freeBlock]: is the pointer in the area of the pool? *)
Definition in_pool (pointer : Z) (m : BitmapMemoryManager) : bool :=
  (pointer >=? getStartAddress m) && (pointer <=? getEndAddress m).

Definition free_in (c : slab) (pointer : Z) (a : SlabAllocator) : outcome (bool * SlabAllocator) :=
  m ← BitmapMemoryManager.freeBlock pointer (pool c a); Ok (true, set_pool c m a).

Definition freeBlock (pointer : Z) (a : SlabAllocator) : outcome (bool * SlabAllocator) :=
  if (pointer <? getStartAddress (pool4K a)) || (pointer >? getEndAddress (pool128K a)) then Ok (false, a)
  else if in_pool pointer (pool4K a) then free_in S4K pointer a
  else if in_pool pointer (pool8K a) then free_in S8K pointer a
  else if in_pool pointer (pool16K a) then free_in S16K pointer a
  else if in_pool pointer (pool32K a) then free_in S32K pointer a
  else if in_pool pointer (pool64K a) then free_in S64K pointer a
  else if in_pool pointer (pool128K a) then free_in S128K pointer a
  else Ok (false, a).

Definition getTotalMemory (a : SlabAllocator) : Z :=
  u32 (BitmapMemoryManager.getTotalMemory (pool4K a) + BitmapMemoryManager.getTotalMemory (pool8K a)
     + BitmapMemoryManager.getTotalMemory (pool16K a) + BitmapMemoryManager.getTotalMemory (pool32K a)
     + BitmapMemoryManager.getTotalMemory (pool64K a) + BitmapMemoryManager.getTotalMemory (pool128K a)).

Definition getFreeMemory (a : SlabAllocator) : Z :=
  u32 (BitmapMemoryManager.getFreeMemory (pool4K a) + BitmapMemoryManager.getFreeMemory (pool8K a)
     + BitmapMemoryManager.getFreeMemory (pool16K a) + BitmapMemoryManager.getFreeMemory (pool32K a)
     + BitmapMemoryManager.getFreeMemory (pool64K a) + BitmapMemoryManager.getFreeMemory (pool128K a)).

Definition getStartAddress (a : SlabAllocator) : Z := BitmapMemoryManager.getStartAddress (pool4K a).
Definition getEndAddress (a : SlabAllocator) : Z := BitmapMemoryManager.getEndAddress (pool128K a).

(** ** Invariant *)

(** Pool number [i] has the [i]-th MiB of the slab memory at [base]. *)
Definition wf (base : Z) (a : SlabAllocator) : Prop :=
  0 < base /\ base + 6 * POOL_SIZE <= 2 ^ 32 /\
  forall c, BitmapMemoryManager.wf (pool c a) /\
    startAddress (pool c a) = base + slab_index c * POOL_SIZE /\
    endAddress (pool c a) = base + (slab_index c + 1) * POOL_SIZE - 1 /\
    blockSize (pool c a) = slab_size c /\ zeroMemory (pool c a) = false.

(** The allocated blocks, each with its length. *)
Definition holds (a : SlabAllocator) (c : slab) (p : Z) : Prop := p ∈ used (pool c a).

Lemma pool_set_pool c c' m a : pool c' (set_pool c m a) = if decide (c = c') then m else pool c' a.
Proof. by destruct a, c, c'. Qed.

Lemma slab_index_inj c c' : slab_index c = slab_index c' -> c = c'.
Proof. by destruct c, c'. Qed.

Lemma slab_index_range c : 0 <= slab_index c <= 5.
Proof. destruct c; cbn; lia. Qed.

Lemma slab_of_spec n :
  match slab_of n with
  | Some c => 1 <= n <= 32 /\ n * 4096 <= slab_size c /\ (slab_index c = 0 \/ slab_size c < 2 * (n * 4096))
  | None => n < 1 \/ 32 < n
  end.
Proof.
  unfold slab_of. cmp_cases; cbn; unfold slab_size; cbn; try lia.
Qed.

Lemma wf_set_pool base c m a :
  wf base a -> BitmapMemoryManager.wf m -> startAddress m = startAddress (pool c a) ->
  endAddress m = endAddress (pool c a) -> blockSize m = blockSize (pool c a) -> zeroMemory m = zeroMemory (pool c a) -> wf base (set_pool c m a).
Proof.
  intros (Hb & He & Hp) Hm Hs1 Hs2 Hs3 Hs4. split_and!; [done|done|]. intros c'. rewrite pool_set_pool.
  case_decide as E; [|apply Hp]. subst c'. destruct (Hp c) as (? & ? & ? & ? & ?).
  by rewrite Hs1, Hs2, Hs3, Hs4.
Qed.

Ltac next_pool Hnew i m W U F A B C :=
    match goal with |- context [BitmapMemoryManager_new ?s ?e ?bs false] =>
      destruct (Hnew i s e bs) as (m & -> & W & U & F & A & B & C & ?); [lia..|]; mcbn
    end.

Lemma SlabAllocator_new_ok base :
  0 < base -> base + 6 * POOL_SIZE <= 2 ^ 32 ->
  exists a, SlabAllocator_new base = Ok a /\ wf base a /\ (forall c p, ~ holds a c p) /\
    getFreeMemory a = 6 * POOL_SIZE.
Proof.
  intros Hb He. unfold SlabAllocator_new.
  assert (Hu : forall z, base <= z < base + 6 * POOL_SIZE -> u32 z = z) by (intros; unwrap; lia).
  unfold POOL_SIZE in *. rewrite !Hu by lia.
  assert (Hnew : forall i s e bs, 0 <= i <= 5 -> s = base + i * 1048576 -> e = base + (i + 1) * 1048576 - 1 -> 1 < bs ->
    exists m, BitmapMemoryManager_new s e bs false = Ok m /\
      BitmapMemoryManager.wf m /\ used m = ∅ /\ BitmapMemoryManager.getFreeMemory m = 1048576 /\
      startAddress m = base + i * 1048576 /\ endAddress m = base + (i + 1) * 1048576 - 1 /\ blockSize m = bs /\ zeroMemory m = false).
  { intros i s e bs Hi -> -> Hbs.
    destruct (BitmapMemoryManager_new_ok (base + i * 1048576) (base + (i + 1) * 1048576 - 1) bs false)
      as (m & -> & H1 & H2 & H3 & _ & H4 & H5 & H6 & H7 & _); [lia..|]. exists m. split_and!; (done || lia). }
  next_pool Hnew 0 m0 W0 U0 F0 A0 B0 C0.
  next_pool Hnew 1 m1 W1 U1 F1 A1 B1 C1.
  next_pool Hnew 2 m2 W2 U2 F2 A2 B2 C2.
  next_pool Hnew 3 m3 W3 U3 F3 A3 B3 C3.
  next_pool Hnew 4 m4 W4 U4 F4 A4 B4 C4.
  next_pool Hnew 5 m5 W5 U5 F5 A5 B5 C5.
  eexists. split; [done|]. split_and!.
  - split_and!; [done|unfold POOL_SIZE; lia|]. unfold POOL_SIZE. by intros [].
  - intros []; unfold holds; cbn; set_solver.
  - unfold getFreeMemory. cbn. rewrite F0, F1, F2, F3, F4, F5. done.
Qed.

(** ** Behaviour *)

(** The blocks of two pools, or two blocks of one pool, do not overlap. *)
Lemma slab_disjoint base a c1 p1 c2 p2 :
  wf base a -> holds a c1 p1 -> holds a c2 p2 -> p1 <> p2 ->
  p1 + slab_size c1 <= p2 \/ p2 + slab_size c2 <= p1.
Proof.
  intros (Hb & He & Hp) H1 H2 Hne. unfold holds in *.
  destruct (Hp c1) as (W1 & S1 & E1 & B1 & _), (Hp c2) as (W2 & S2 & E2 & B2 & _).
  destruct (decide (slab_index c1 = slab_index c2)) as [->%slab_index_inj|Hc].
  - rewrite <- B2. exact (mm_all_disjoint (M := BitmapMemoryManager * Memory) (pool c2 a, fun _ => 0) p1 p2 W2
      (used_subseteq _ _ H1) (used_subseteq _ _ H2) Hne).
  - apply used_subseteq, elem_all in H1 as (k1 & Hk1 & ->), H2 as (k2 & Hk2 & ->).
    pose proof (bmm_blocks _ W1) as [_ T1]. pose proof (bmm_blocks _ W2) as [_ T2].
    rewrite bmm_total in T1, T2 by done. unfold block_address. rewrite B1, B2, S1, S2, E1, E2 in *.
    assert (0 < slab_size c1 /\ 0 < slab_size c2) as [] by (destruct c1, c2; done). unfold POOL_SIZE in *. nia.
Qed.

(** A block lies in the area of its pool, aligned to its size. *)
Lemma slab_area base a c p :
  wf base a -> p ∈ all (pool c a) ->
  base + slab_index c * POOL_SIZE <= p /\ p + slab_size c <= base + (slab_index c + 1) * POOL_SIZE /\
  (p - base) mod slab_size c = 0.
Proof.
  intros (Hb & He & Hp) (k & Hk & ->)%elem_all. destruct (Hp c) as (W & S1 & E1 & B1 & _).
  pose proof (bmm_blocks _ W) as [_ T]. rewrite bmm_total in T by done. unfold block_address. rewrite B1, S1, E1 in *.
  assert (0 < slab_size c) by (by destruct c). split_and!; [nia|nia|].
  assert (exists q, slab_index c * POOL_SIZE = q * slab_size c) as [q Hq].
  { unfold POOL_SIZE. destruct c; [exists 0|exists 128|exists 128|exists 96|exists 64|exists 40]; done. }
  replace (base + slab_index c * POOL_SIZE + k * slab_size c - base) with ((q + k) * slab_size c) by lia.
  apply Z.mod_mul. lia.
Qed.

Lemma holds_set_pool a c m c' p :
  holds (set_pool c m a) c' p <-> if decide (c' = c) then p ∈ used m else holds a c' p.
Proof.
  unfold holds. rewrite pool_set_pool. by repeat case_decide; subst.
Qed.

(** [freeBlock] finds the pool of a block from its address alone. *)
Lemma slab_free base a c p :
  wf base a -> holds a c p ->
  exists a', freeBlock p a = Ok (true, a') /\ wf base a' /\
    (forall c' p', holds a' c' p' <-> holds a c' p' /\ (c', p') <> (c, p)).
Proof.
  intros Hwf Hh. pose proof (slab_area base a c p Hwf (used_subseteq _ _ Hh)) as (H1 & H2 & _).
  pose proof Hwf as (Hb & He & Hp). assert (0 < slab_size c) by (by destruct c).
  assert (freeBlock p a = free_in c p a) as ->.
  { pose proof (slab_index_range c). unfold freeBlock, in_pool, BitmapMemoryManager.getStartAddress, BitmapMemoryManager.getEndAddress.
    destruct (Hp S4K) as (_ & A0 & B0 & _), (Hp S8K) as (_ & A1 & B1 & _), (Hp S16K) as (_ & A2 & B2 & _),
      (Hp S32K) as (_ & A3 & B3 & _), (Hp S64K) as (_ & A4 & B4 & _), (Hp S128K) as (_ & A5 & B5 & _).
    cbn [pool slab_index] in *. rewrite A0, A1, A2, A3, A4, A5, B0, B1, B2, B3, B4, B5. unfold POOL_SIZE in *.
    rewrite !Z.geb_leb, Z.gtb_ltb. destruct c; cbn [slab_index] in *; cmp_cases; done. }
  destruct (Hp c) as (W & S1 & E1 & B1 & Z1). apply elem_used in Hh as (k & Hk & Hbk & ->).
  unfold free_in. destruct (freeBlock_ok _ W k Hk Hbk) as [-> W']. mcbn. eexists. split; [done|].
  split; [by apply wf_set_pool|]. intros c' p'. rewrite holds_set_pool, used_update by done.
  destruct (decide (c' = c)) as [->|]; unfold holds.
  - rewrite elem_of_difference, elem_of_singleton. split; intros [? ?]; (split; [done|congruence]).
  - split; [intros; split; [done|congruence]|by intros []].
Qed.

(** A request for 1 to 32 frames gets a block of the smallest slab size
    that holds it, aligned, inside the slab memory and disjoint from every
    block in use, or a null pointer when that pool is exhausted; freeBlock
    finds the pool from the address and undoes the allocation. *)
Theorem SlabAllocator_spec base a frameCount mem :
  wf base a -> in_u 32 frameCount ->
  match slab_of frameCount with
  | None => 32 < frameCount \/ frameCount = 0
  | Some c => frameCount * 4096 <= slab_size c <= MAX_SLAB_SIZE
  end /\
  match slab_of frameCount with
  | None => allocateBlock frameCount a mem = Ok (0, a, mem)
  | Some c =>
      if decide (used (pool c a) = all (pool c a)) then allocateBlock frameCount a mem = Ok (0, a, mem)
      else exists p a', allocateBlock frameCount a mem = Ok (p, a', mem) /\ wf base a' /\
        base <= p /\ p + slab_size c <= base + 6 * POOL_SIZE /\ (p - base) mod slab_size c = 0 /\
        (forall c' p', holds a c' p' -> p + slab_size c <= p' \/ p' + slab_size c' <= p) /\
        (forall c' p', holds a' c' p' <-> holds a c' p' \/ (c', p') = (c, p)) /\
        exists a'', freeBlock p a' = Ok (true, a'') /\ wf base a'' /\
          (forall c' p', holds a'' c' p' <-> holds a c' p')
  end.
Proof.
  intros Hwf Hn. pose proof (slab_of_spec frameCount) as Hc. unfold allocateBlock.
  destruct (slab_of frameCount) as [c|]; [|unfold in_u in *; split; [lia|done]].
  split; [split; [lia|by destruct c]|]. pose proof Hwf as (Hb & He & Hp). destruct (Hp c) as (W & S1 & E1 & B1 & Z1).
  case_decide as Hu; [rewrite allocateBlock_full by done; mcbn; by destruct a, c|].
  destruct (allocateBlock_ok _ W mem Hu) as (k & m' & -> & Hk & Hnew & W' & ->). rewrite Z1. mcbn.
  set (p := block_address (pool c a) k) in *. set (a' := set_pool c _ a).
  assert (Hwf' : wf base a') by (by apply wf_set_pool).
  assert (Hh : forall c' p', holds a' c' p' <-> holds a c' p' \/ (c', p') = (c, p)).
  { intros c' p'. unfold a'. rewrite holds_set_pool, used_update by done. destruct (decide (c' = c)) as [->|]; unfold holds.
    - rewrite elem_of_union, elem_of_singleton. split; [intros [->|?]; auto|intros [?|[= ->]]; auto].
    - split; [auto|intros [?|[= -> ->]]; done]. }
  assert (Hin : p ∈ all (pool c a)) by (apply elem_all; eauto).
  pose proof (slab_area base a c p Hwf Hin) as (L1 & L2 & L3). pose proof (slab_index_range c).
  exists p, a'. split; [done|]. split; [done|]. unfold POOL_SIZE in *. split; [lia|]. split; [lia|]. split; [done|].
  split; [|split; [done|]].
  - intros c' p' Hh'. apply (slab_disjoint base a'); [done|apply Hh; by right|apply Hh; by left|].
    intros <-. destruct (decide (c' = c)) as [->|Hcc]; [done|].
    pose proof (slab_area base a c' p Hwf (used_subseteq _ _ Hh')) as (M1 & M2 & _). unfold POOL_SIZE in *.
    assert (slab_index c' <> slab_index c) by (by intros ?%slab_index_inj).
    assert (0 < slab_size c /\ 0 < slab_size c') as [] by (by destruct c, c'). lia.
  - destruct (slab_free base a' c p Hwf') as (a'' & Hf & Hwf'' & Hh''); [apply Hh; by right|].
    exists a''. split; [done|]. split; [done|]. intros c' p'. rewrite Hh'', Hh. split; [by intros [[?|?] ?]|].
    intros Hx. split; [by left|]. intros [= -> ->]. done.
Qed.

Lemma SlabAllocator_spec_witness :
  exists a p a', SlabAllocator_new 0x100000 = Ok a /\ wf 0x100000 a /\
    allocateBlock 3 a (fun _ => 0) = Ok (p, a', fun _ => 0) /\ p = 0x300000.
Proof.
  destruct (SlabAllocator_new_ok 0x100000) as (a & Ha & Hwf & Hh & _); [done|done|].
  destruct (SlabAllocator_spec 0x100000 a 3 (fun _ => 0)) as [_ H]; [done|split; done|].
  cbn [slab_of Z.eqb Z.leb Pos.eqb orb andb] in H. change (slab_of 3) with (Some S16K) in H. cbv iota beta in H.
  destruct (decide (used (pool S16K a) = all (pool S16K a))) as [E|E].
  - exfalso. destruct Hwf as (_ & _ & Hp). destruct (Hp S16K) as (W & A & B & C & _).
    apply (free_block_exists _ W); [|done]. exists 0. destruct W as [_ _ _ _ -> _].
    rewrite A, B, C. split; [vm_compute; split; [discriminate|reflexivity]|].
    injection Ha as <-. reflexivity.
  - destruct H as (p & a' & Hal & _). exists a, p, a'. split; [done|]. split; [done|]. split; [done|].
    injection Ha as <-. injection Hal as <- _. reflexivity.
Defined.
