(* ===== verification/PagingAreaManager.v ===== *)
(** * PagingAreaManager.v: blocks for page tables and directories

    [kernel/memory/PagingAreaManager]: a [BitmapMemoryManager] for the paging
    area with a pool of blocks that are already mapped. [allocateBlock] takes a
    block from the pool, [refillPool] (run by a kernel thread,
    [PagingAreaManagerRefillRunnable]) moves blocks from the bitmap into it. *)

From S2P Require Import Prelude Atomic Address AtomicBitmap BlockMemoryManager BitmapMemoryManager Pool.

(** [MemoryLayout::PAGING_AREA_SIZE], [Util::PAGESIZE] *)
Definition PAGING_AREA_SIZE : Z := 16 * 1024 * 1024.
Definition PAGESIZE : Z := 0x1000.
Definition BLOCK_POOL_SIZE : Z := 128.

Record PagingAreaManager := mkPaging { manager : BitmapMemoryManager; blockPool : Pool (P := Z) }.

(** The constructor's loop; the results of [push] are not looked at. *)
Fixpoint fill_loop (n : nat) (s : PagingAreaManager) (mem : Memory) : outcome (PagingAreaManager * Memory) :=
  match n with
  | O => Ok (s, mem)
  | S n =>
    '(block, m, mem) ← BitmapMemoryManager.allocateBlock (manager s) mem;
    '(_, p) ← push block (blockPool s);
    fill_loop n (mkPaging m p) mem
  end.

Definition PagingAreaManager_new (startAddress mappedPages bootstrapPageCount : Z) (mem : Memory) :
    outcome (PagingAreaManager * Memory) :=
  m ← BitmapMemoryManager_new startAddress (u32 (startAddress + PAGING_AREA_SIZE - 1)) PAGESIZE true;
  m ← setRange 0 bootstrapPageCount m;
  fill_loop (Z.to_nat (u32 (mappedPages - bootstrapPageCount))) (mkPaging m (Pool_new 0 BLOCK_POOL_SIZE)) mem.

Definition allocateBlock (s : PagingAreaManager) : outcome (Z * PagingAreaManager) :=
  '(block, p) ← pop (blockPool s); Ok (block, mkPaging (manager s) p).

Definition freeBlock (pointer : Z) (s : PagingAreaManager) : outcome PagingAreaManager :=
  m ← BitmapMemoryManager.freeBlock pointer (manager s); Ok (mkPaging m (blockPool s)).

Fixpoint refill_loop (n : nat) (s : PagingAreaManager) (mem : Memory) : outcome (PagingAreaManager * Memory) :=
  match n with
  | O => Ok (s, mem)
  | S n =>
    '(block, m, mem) ← BitmapMemoryManager.allocateBlock (manager s) mem;
    if block =? 0 then Throw OUT_OF_PAGING_MEMORY
    else
      '(pushed, p) ← push block (blockPool s);
      if negb pushed then
        m ← BitmapMemoryManager.freeBlock block m;
        Ok (mkPaging m p, mem)
      else refill_loop n (mkPaging m p) mem
  end.

Definition refillPool (s : PagingAreaManager) (mem : Memory) : outcome (PagingAreaManager * Memory) :=
  full ← isFull (blockPool s);
  if full : bool then Ok (s, mem)
  else refill_loop (Z.to_nat (getCapacity (blockPool s))) s mem.

(** ** Abstract value *)

Definition pooled (s : PagingAreaManager) : gset Z := list_to_set (contents (blockPool s)).

(** The blocks a client has: marked in the bitmap and not waiting in the pool. *)
Definition owned (s : PagingAreaManager) : gset Z := used (manager s) ∖ pooled s.

Record inv (s : PagingAreaManager) : Prop := {
  inv_manager : BitmapMemoryManager.wf (manager s);
  inv_pool : Pool.wf (blockPool s);
  inv_nodup : NoDup (contents (blockPool s));
  inv_pooled : pooled s ⊆ used (manager s)
}.

Definition missing (s : PagingAreaManager) : Z := getCapacity (blockPool s) - zlen (contents (blockPool s)).
Definition free_blocks (s : PagingAreaManager) : Z :=
  Z.of_nat (size (all (manager s))) - Z.of_nat (size (used (manager s))).

(** ** Lemmas *)

Lemma pooled_perm p p' m m' a :
  contents p' ≡ₚ a :: contents p -> pooled (mkPaging m' p') = {[a]} ∪ pooled (mkPaging m p).
Proof.
  intros H. unfold pooled. cbn [blockPool]. apply set_eq. intros x. rewrite elem_of_union, !elem_of_list_to_set, H.
  rewrite elem_of_cons, elem_of_singleton. done.
Qed.

(** A pool that is not full takes a block from the bitmap. *)
Lemma move_block s mem :
  inv s -> 0 < missing s -> 0 < free_blocks s ->
  exists a m p mem', BitmapMemoryManager.allocateBlock (manager s) mem = Ok (a, m, mem') /\
    a <> 0 /\ push a (blockPool s) = Ok (true, p) /\ inv (mkPaging m p) /\ owned (mkPaging m p) = owned s /\
    missing (mkPaging m p) = missing s - 1 /\ free_blocks (mkPaging m p) = free_blocks s - 1 /\
    startAddress m = startAddress (manager s) /\ blockSize m = blockSize (manager s) /\
    all m = all (manager s) /\ getCapacity p = getCapacity (blockPool s) /\ endAddress m = endAddress (manager s).
Proof.
  intros [Hm Hp Hd Hs] Hmiss Hfree. unfold missing, free_blocks in *.
  assert (Hne : used (manager s) <> all (manager s)) by (intros E; rewrite E in Hfree; lia).
  destruct (allocateBlock_ok _ Hm mem Hne) as (k & m & -> & Hk & Hnew & Hm' & ->).
  set (a := block_address (manager s) k) in *. set (m := with_bitmap _ _ _) in *.
  destruct (pool_bag _ a Hp) as (_ & _ & _ & Hpush & _). rewrite decide_False in Hpush by lia.
  destruct Hpush as (p & Hpush & Hp' & Hcap & Hc).
  assert (Hu : used m = {[a]} ∪ used (manager s)) by (unfold m; by rewrite used_update).
  assert (Hl : zlen (contents p) = zlen (contents (blockPool s)) + 1) by (unfold zlen; rewrite Hc; cbn [length]; lia).
  assert (Hpo : pooled (mkPaging m p) = {[a]} ∪ pooled s) by (destruct s; by apply pooled_perm).
  exists a, m, p. eexists. split; [done|]. split.
  { destruct Hm. unfold a, block_address. nia. }
  split; [done|]. split; [|split; [|cbn [manager blockPool]; split_and!; try done; try lia]].
  - split; cbn [manager blockPool]; [done|done| |set_solver].
    rewrite Hc. constructor; [|done]. rewrite <- (elem_of_list_to_set (C := gset Z)). set_solver.
  - unfold owned. cbn [manager]. rewrite Hpo, Hu. set_solver.
  - rewrite Hu, size_union, size_singleton by set_solver. change (all m) with (all (manager s)). lia.
Qed.

Lemma fill_loop_spec n s mem :
  inv s -> Z.of_nat n <= missing s -> Z.of_nat n <= free_blocks s ->
  exists s' mem', fill_loop n s mem = Ok (s', mem') /\ inv s' /\ owned s' = owned s /\
    missing s' = missing s - Z.of_nat n /\ startAddress (manager s') = startAddress (manager s) /\
    blockSize (manager s') = blockSize (manager s) /\ getCapacity (blockPool s') = getCapacity (blockPool s) /\
    free_blocks s' = free_blocks s - Z.of_nat n /\ endAddress (manager s') = endAddress (manager s).
Proof.
  revert s mem. induction n as [|n IH]; intros s mem Hinv Hm Hf; cbn [fill_loop].
  - exists s, mem. split_and!; (done || lia).
  - destruct (move_block s mem) as (a & m & p & mem1 & -> & _ & Hp & Hi & Ho & Hm1 & Hf1 & Hs1 & Hb1 & _ & Hc1 & He1); [done|lia..|].
    mcbn. rewrite Hp. mcbn.
    destruct (IH (mkPaging m p) mem1 Hi) as (s' & mem' & -> & Hi' & Ho' & Hm' & Hs' & Hb' & Hc' & Hf' & He'); [lia..|].
    exists s', mem'. split_and!; try done; try lia; try congruence.
    + rewrite Hs'. cbn. congruence.
    + rewrite Hb'. cbn. congruence.
    + rewrite Hc'. cbn. congruence.
    + rewrite He'. cbn. congruence.
Qed.

(** One more block than the pool needs is taken (and given back) unless the
    pool starts empty. *)
Lemma refill_loop_spec n s mem :
  inv s -> missing s <= Z.of_nat n ->
  missing s + (if decide (Z.of_nat n = missing s) then 0 else 1) <= free_blocks s ->
  exists s' mem', refill_loop n s mem = Ok (s', mem') /\ inv s' /\ owned s' = owned s /\ missing s' = 0.
Proof.
  revert s mem. induction n as [|n IH]; intros s mem Hinv Hn Hf; cbn [refill_loop].
  - exists s, mem. pose proof Hinv as [_ Hp _ _]. destruct (pool_bag _ 0 Hp) as (? & _).
    unfold missing in *. split_and!; (done || lia).
  - assert (0 <= missing s).
    { pose proof Hinv as [_ Hp _ _]. destruct (pool_bag _ 0 Hp) as (? & _). unfold missing. lia. }
    destruct (decide (missing s = 0)) as [E0|E0].
    + rewrite decide_False in Hf by lia. pose proof Hinv as [Hm Hp Hd Hs].
      assert (Hne : used (manager s) <> all (manager s)) by (unfold free_blocks in Hf; intros E; rewrite E in Hf; lia).
      destruct (allocateBlock_ok _ Hm mem Hne) as (k & m & -> & Hk & Hnew & Hm' & ->). mcbn.
      destruct (pool_bag _ (block_address (manager s) k) Hp) as (_ & _ & _ & Hpush & _).
      unfold missing in E0. rewrite decide_True in Hpush by lia. rewrite Hpush.
      destruct (Z.eqb_spec (block_address (manager s) k) 0) as [E|_].
      { destruct Hm. unfold block_address in E. nia. }
      mcbn. set (m := with_bitmap _ _ _) in *.
      assert (Hb : bit (bitmap m) k = true) by (cbn; rewrite bit_update by (done || apply Hm); by rewrite decide_True).
      destruct (freeBlock_ok m Hm' k Hk Hb) as [Hfr Hm2]. change (block_address m k) with (block_address (manager s) k) in Hfr.
      rewrite Hfr. mcbn.
      assert (Hu : used (with_bitmap (update k false (bitmap m)) (freeMemory m + blockSize m) m) = used (manager s)).
      { rewrite used_update by done. unfold m at 1. rewrite used_update by done.
        change (block_address m k) with (block_address (manager s) k). set_solver. }
      eexists _, _. split; [done|]. split_and!; [split; cbn [manager blockPool]; try done| |done].
      * rewrite Hu. apply Hs.
      * unfold owned. cbn [manager]. by rewrite Hu.
    + destruct (move_block s mem) as (a & m & p & mem1 & -> & Ha & Hp & Hi & Ho & Hm1 & Hf1 & _); [done|lia|case_decide; lia|].
      mcbn. destruct (Z.eqb_spec a 0); [done|]. rewrite Hp. mcbn.
      destruct (IH (mkPaging m p) mem1 Hi) as (s' & mem' & -> & Hi' & Ho' & Hm'); [lia|repeat case_decide; lia|].
      exists s', mem'. split_and!; congruence.
Qed.

(** ** Construction *)

(** The bootstrap pages count as owned; the other mapped pages are in the pool. *)
Lemma PagingAreaManager_new_ok base mapped bootstrap mem :
  0 < base -> base + PAGING_AREA_SIZE <= 2 ^ 32 ->
  0 <= bootstrap <= mapped -> mapped - bootstrap <= BLOCK_POOL_SIZE -> mapped <= 4096 ->
  exists s mem', PagingAreaManager_new base mapped bootstrap mem = Ok (s, mem') /\ inv s /\
    owned s = list_to_set ((fun k => base + k * PAGESIZE) <$> seqZ 0 bootstrap) /\
    missing s = BLOCK_POOL_SIZE - (mapped - bootstrap) /\ free_blocks s = 4096 - mapped /\
    startAddress (manager s) = base /\ blockSize (manager s) = PAGESIZE /\ getCapacity (blockPool s) = BLOCK_POOL_SIZE /\
    endAddress (manager s) = base + PAGING_AREA_SIZE - 1.
Proof.
  intros Hb He Hbm Hp Hm. unfold PagingAreaManager_new, PAGING_AREA_SIZE, PAGESIZE, BLOCK_POOL_SIZE in *.
  replace (u32 (base + 16 * 1024 * 1024 - 1)) with (base + 16 * 1024 * 1024 - 1) by (unwrap; lia).
  destruct (BitmapMemoryManager_new_ok base (base + 16 * 1024 * 1024 - 1) 0x1000 true)
    as (m & -> & Hwf & Hu & _ & _ & Hs & He0 & Hbs & _ & Hbl); [lia..|]. mcbn.
  replace (base + 16 * 1024 * 1024 - 1 - base + 1) with (4096 * 4096) in Hbl by lia.
  rewrite Z.div_mul in Hbl by done.
  assert (Hclear : forall k, 0 <= k < 0 + bootstrap -> bit (bitmap m) k = false).
  { intros k Hk. destruct (bit (bitmap m) k) eqn:E; [|done]. exfalso.
    assert (block_address m k ∈ used m) by (apply elem_used; exists k; split_and!; (done || lia)). set_solver. }
  destruct (setRange_spec m 0 bootstrap Hwf) as (m1 & -> & Hwf1 & Hu1 & Hs1 & He1 & Hbs1 & _ & Hbl1 & _); [lia|lia|lia|done|]. mcbn.
  replace (u32 (mapped - bootstrap)) with (mapped - bootstrap) by (unwrap; lia).
  destruct (pool_new_spec 0 128) as (Hpw & Hpc & Hcap); [split; done|].
  set (s0 := mkPaging m1 (Pool_new 0 128)).
  assert (Hpo : pooled s0 = ∅) by (unfold pooled, s0; cbn [blockPool]; by rewrite Hpc).
  assert (Hinv0 : inv s0).
  { split; [done|done|cbn [s0 blockPool]; rewrite Hpc; by apply NoDup_nil|rewrite Hpo; set_solver]. }
  assert (Hm0 : missing s0 = 128) by (unfold missing, s0; cbn [blockPool]; by rewrite Hpc, Hcap).
  assert (Hf0 : free_blocks s0 = 4096 - bootstrap).
  { unfold free_blocks, s0. cbn [manager]. rewrite size_all, Hu1, Hu, union_empty_r_L, size_block_range, Hbl1 by (done || lia). lia. }
  destruct (fill_loop_spec (Z.to_nat (mapped - bootstrap)) s0 mem Hinv0) as (s' & mem' & -> & Hi' & Ho' & Hm' & Hs' & Hb' & Hc' & Hf' & He'); [lia..|].
  change (manager s0) with m1 in Hs', Hb', He'. change (blockPool s0) with (Pool_new 0 128) in Hc'.
  exists s', mem'. split; [done|]. split; [done|]. split; [|split_and!; try lia; congruence].
  rewrite Ho'. unfold owned. rewrite Hpo. change (manager s0) with m1. rewrite Hu1, Hu. unfold block_range, block_address.
  by rewrite Hs, Hbs, union_empty_r_L, difference_empty_L.
Qed.

(** A block of the pool goes to the client; an empty pool throws. *)
Lemma pam_allocate s :
  inv s ->
  if decide (contents (blockPool s) = []) then allocateBlock s = Throw ILLEGAL_STATE
  else exists a p, allocateBlock s = Ok (a, mkPaging (manager s) p) /\ inv (mkPaging (manager s) p) /\
    a ∈ all (manager s) /\ a ∉ owned s /\ owned (mkPaging (manager s) p) = {[a]} ∪ owned s.
Proof.
  intros [Hm Hp Hd Hs]. destruct (pool_bag _ 0 Hp) as (_ & _ & _ & _ & Hpop).
  unfold allocateBlock. case_decide; [by rewrite Hpop|]. destruct Hpop as (a & p & -> & Hp' & _ & Hc). mcbn.
  assert (Hpo : pooled s = {[a]} ∪ pooled (mkPaging (manager s) p)) by (destruct s; by apply pooled_perm).
  rewrite Hc in Hd. apply NoDup_cons in Hd as [Ha Hd]. rewrite <- (elem_of_list_to_set (C := gset Z)) in Ha.
  change (a ∉ pooled (mkPaging (manager s) p)) in Ha.
  eexists _, _. split; [done|]. split_and!.
  - split; cbn [manager blockPool]; [done|done|done|set_solver].
  - apply used_subseteq. set_solver.
  - unfold owned. set_solver.
  - unfold owned. cbn [manager]. rewrite Hpo. apply set_eq. intros x. destruct (decide (x = a)); set_solver.
Qed.

Lemma pam_free s a :
  inv s -> a ∈ owned s ->
  exists m, freeBlock a s = Ok (mkPaging m (blockPool s)) /\ inv (mkPaging m (blockPool s)) /\
    owned (mkPaging m (blockPool s)) = owned s ∖ {[a]} /\ startAddress m = startAddress (manager s) /\ blockSize m = blockSize (manager s) /\
    endAddress m = endAddress (manager s).
Proof.
  intros [Hm Hp Hd Hs] Ha. unfold owned in Ha. assert (a ∈ used (manager s)) as Hu by set_solver.
  apply elem_used in Hu as (k & Hk & Hb & ->). unfold freeBlock. destruct (freeBlock_ok _ Hm k Hk Hb) as [-> Hm']. mcbn.
  eexists. split; [done|]. split; [split; cbn [manager blockPool]; [done|done|done|]|split_and!; [|done|done|done]].
  - rewrite used_update by done. change (pooled (mkPaging _ (blockPool s))) with (pooled s). set_solver.
  - unfold owned. cbn [manager]. rewrite used_update by done. change (pooled (mkPaging _ (blockPool s))) with (pooled s). set_solver.
Qed.

(** Blocks come from the pool and are never handed out twice; freeBlock
    gives back exactly one; refillPool fills the pool without touching
    blocks in use when one more block than needed is free; an empty pool
    throws ILLEGAL_STATE. *)
Theorem PagingAreaManager_blocks s mem :
  inv s ->
  (if decide (contents (blockPool s) = []) then allocateBlock s = Throw ILLEGAL_STATE
   else exists a s', allocateBlock s = Ok (a, s') /\ inv s' /\
     a ∈ all (manager s) /\ a ∉ owned s /\ owned s' = {[a]} ∪ owned s) /\
  (forall a, a ∈ owned s ->
     exists s', freeBlock a s = Ok s' /\ inv s' /\ owned s' = owned s ∖ {[a]}) /\
  (missing s < free_blocks s ->
     exists s' mem', refillPool s mem = Ok (s', mem') /\ inv s' /\ owned s' = owned s /\
       isFull (blockPool s') = Ok true).
Proof.
  intros Hinv. pose proof Hinv as [Hm Hp Hd Hs].
  destruct (pool_bag _ 0 Hp) as (Hle & _ & Hfull & _ & Hpop). split_and!.
  - pose proof (pam_allocate s Hinv) as H. case_decide; [done|]. destruct H as (a & p & ?). eauto.
  - intros a Ha. destruct (pam_free s a Hinv Ha) as (m & ? & ? & ? & _). eauto.
  - intros Hfree. unfold refillPool. rewrite Hfull. mcbn. case_bool_decide as E.
    + eexists _, _. split; [done|]. split_and!; [done|done|]. by rewrite Hfull, ?bool_decide_true.
    + assert (0 <= getCapacity (blockPool s)) by (pose proof (zlen_nonneg (contents (blockPool s))); lia).
      destruct (refill_loop_spec (Z.to_nat (getCapacity (blockPool s))) s mem) as (s' & mem' & -> & Hi' & Ho' & Hm');
        [done|unfold missing; pose proof (zlen_nonneg (contents (blockPool s))); lia|clear Hpop; destruct (decide _); lia|].
      exists s', mem'. split_and!; [done|done|done|]. destruct Hi' as [_ Hp' _ _].
      destruct (pool_bag _ 0 Hp') as (_ & _ & -> & _). f_equal. apply bool_decide_true. unfold missing in Hm'. lia.
Qed.

Lemma PagingAreaManager_blocks_witness :
  exists s mem, PagingAreaManager_new 0xc0400000 96 8 (fun _ => 1) = Ok (s, mem) /\
    exists s' mem', refillPool s mem = Ok (s', mem') /\ isFull (blockPool s') = Ok true /\ owned s' = owned s.
Proof.
  destruct (PagingAreaManager_new_ok 0xc0400000 96 8 (fun _ => 1)) as (s & mem & H & Hinv & _ & Hm & Hf & _);
    [unfold PAGING_AREA_SIZE, BLOCK_POOL_SIZE; lia..|].
  exists s, mem. split; [exact H|].
  destruct (PagingAreaManager_blocks s mem Hinv) as (_ & _ & Hr).
  destruct Hr as (s' & mem' & Hr & _ & Ho & Hfull); [rewrite Hm, Hf; reflexivity|].
  exists s', mem'. split; [exact Hr|]. split; [exact Hfull|exact Ho].
Defined.

(** ** The contract *)

(** What address spaces and the page frame allocator need of the paging area manager:
    [pts_available] blocks can be handed out, each of them a page below [pts_end] that is
    not in use. *)
Class PageTableSupply (P : Type) := {
  pts_ok : P -> Prop;
  pts_owned : P -> gset Z;
  pts_available : P -> nat;
  pts_allocate : P -> outcome (Z * P);
  pts_free : Z -> P -> outcome P;
  pts_getBlockSize : P -> Z;
  pts_end : P -> Z;
  pts_owned_range s a : pts_ok s -> a ∈ pts_owned s -> 0 < a < pts_end s;
  pts_allocate_law s a s' :
    pts_ok s -> pts_allocate s = Ok (a, s') ->
    pts_ok s' /\ a ∉ pts_owned s /\ pts_owned s' = {[a]} ∪ pts_owned s /\ 0 < a < 2 ^ 32 /\ a mod 4096 = 0 /\
    pts_available s = S (pts_available s') /\ pts_end s' = pts_end s;
  pts_allocate_total s : pts_ok s -> (0 < pts_available s)%nat -> exists a s', pts_allocate s = Ok (a, s');
  pts_free_law s a :
    pts_ok s -> a ∈ pts_owned s ->
    exists s', pts_free a s = Ok s' /\ pts_ok s' /\ pts_owned s' = pts_owned s ∖ {[a]} /\
      pts_available s' = pts_available s /\ pts_end s' = pts_end s;
  pts_block_size s : pts_ok s -> pts_getBlockSize s = 4096
}.

Lemma pam_pop_length s a s' : inv s -> allocateBlock s = Ok (a, s') -> length (contents (blockPool s)) = S (length (contents (blockPool s'))).
Proof.
  intros [_ Hp _ _] H. destruct (pool_bag _ 0 Hp) as (_ & _ & _ & _ & Hpop). unfold allocateBlock in H. case_decide; [by rewrite Hpop in H|].
  destruct Hpop as (b & p & E & _ & _ & Hc). rewrite E in H. injection H as <- <-. cbn [blockPool]. by rewrite Hc.
Qed.

#[export] Program Instance PagingAreaManager_PageTableSupply : PageTableSupply PagingAreaManager := {|
  pts_ok s := inv s /\ startAddress (manager s) mod 4096 = 0 /\ blockSize (manager s) = 4096;
  pts_owned := owned; pts_allocate := allocateBlock; pts_free := freeBlock;
  pts_available s := length (contents (blockPool s));
  pts_getBlockSize s := getBlockSize (manager s);
  pts_end s := endAddress (manager s) + 1
|}.
Next Obligation.
  intros s a (Hinv & _ & Hbs) Ha. pose proof Hinv as [Hwf _ _ _]. assert (a ∈ all (manager s)) as (k & Hk & ->)%elem_all by (apply used_subseteq; set_solver).
  unfold block_address. pose proof (bmm_blocks _ Hwf) as [_ Hb]. pose proof (bmm_total _ Hwf) as Ht. destruct Hwf. rewrite Hbs in *. nia.
Qed.
Next Obligation.
  intros s a s' (Hinv & Hst & Hbs) Ha. pose proof (pam_pop_length s a s' Hinv Ha) as Hlen. pose proof (pam_allocate s Hinv) as H. case_decide; [congruence|]. destruct H as (a' & p & E & Hinv' & Hall & Hno & Hown).
  rewrite Ha in E. injection E as <- ->. split_and!; try done; pose proof Hinv as [Hwf _ _ _]; apply elem_all in Hall as (k & Hk & ->);
    unfold block_address; pose proof (bmm_blocks _ Hwf) as [_ Hb]; pose proof (bmm_total _ Hwf) as Ht; destruct Hwf; rewrite Hbs in *; [nia|nia|].
  rewrite Z.mod_add by lia. done.
Qed.
Next Obligation.
  intros s (Hinv & _) Ha. pose proof (pam_allocate s Hinv) as H. case_decide as E; [rewrite E in Ha; cbn in Ha; lia|]. destruct H as (a & p & H & _). eauto.
Qed.
Next Obligation.
  intros s a (Hinv & Hst & Hbs) Ha. destruct (pam_free s a Hinv Ha) as (m & E & Hinv' & Hown & Hs' & Hb' & He'). eexists. split; [exact E|]. cbn. rewrite Hs', Hb', He'. done.
Qed.
Next Obligation. intros s (_ & _ & H). exact H. Qed.
