(* ===== verification/TableMemoryManager.v ===== *)
(** * TableMemoryManager.v: page frames with use counts

    [kernel/memory/TableMemoryManager]: two levels of tables. A reference table
    entry (32 bits: lock, installed flag, address) points to an allocation table
    of 16-bit entries (reserved flag and use count), one per block of memory.
    Allocation tables come from the paging area manager when they are first needed;
    this file is proved against the contract [PageTableSupply]. *)

From S2P Require Import PagingAreaManager Prelude Bits Atomic.

(** ** Entries *)

(** The loops around [getAndSet] end in their first round when no other thread
    interferes. *)
Module ReferenceTableEntry.

Fixpoint setAddress (fuel : nat) (address value : Z) : outcome Z :=
  match fuel with
  | O => Loops
  | S fuel =>
    let oldValue := get value in
    let exchangeValue := Z.lor (Z.land oldValue 0xf) (Z.land address 0xfffffff0) in
    '(r, value) ← getAndSet uint32_t 1 value exchangeValue;
    if negb (r =? oldValue) then setAddress fuel address value else Ok value
  end.

Definition setInstalled (installed : bool) (value : Z) : outcome Z :=
  if installed then bitSet uint32_t value 3 else bitReset uint32_t value 3.

Definition tryAcquireLock (value : Z) : outcome (bool * Z) :=
  '(old, value) ← bitTestAndSet uint32_t value 2; Ok (negb old, value).

Fixpoint acquireLock (fuel : nat) (value : Z) : outcome Z :=
  match fuel with
  | O => Loops
  | S fuel => '(success, value) ← tryAcquireLock value; if success : bool then Ok value else acquireLock fuel value
  end.

Definition releaseLock (value : Z) : outcome Z := bitReset uint32_t value 2.

Definition getAddress (value : Z) : Z := Z.land (get value) 0xfffffff0.

Definition isInstalled (value : Z) : outcome bool := bitTest uint32_t value 3.

Definition isLocked (value : Z) : outcome bool := bitTest uint32_t value 2.

End ReferenceTableEntry.

Module AllocationTableEntry.

Definition setReserved (reserved : bool) (value : Z) : outcome Z :=
  if reserved then bitSet uint16_t value 0 else bitReset uint16_t value 0.

Fixpoint setUseCount (fuel : nat) (useCount value : Z) : outcome Z :=
  match fuel with
  | O => Loops
  | S fuel =>
    let oldValue := get value in
    let exchangeValue := u16 (Z.lor (Z.land oldValue 1) (Z.shiftl useCount 1)) in
    '(r, value) ← getAndSet uint16_t 1 value exchangeValue;
    if negb (r =? oldValue) then setUseCount fuel useCount value else Ok value
  end.

Definition incrementUseCount (value : Z) : outcome Z :=
  let '(oldValue, value) := fetchAndAdd uint16_t value 2 in
  if u16 (oldValue + 2) <=? oldValue then Throw PAGING_ERROR else Ok value.

Definition decrementUseCount (value : Z) : outcome Z :=
  let '(oldValue, value) := fetchAndSub uint16_t value 2 in
  if u16 (oldValue - 2) >=? oldValue then Throw PAGING_ERROR else Ok value.

Definition getUseCount (value : Z) : Z := Z.shiftr (get value) 1.

Definition isReserved (value : Z) : outcome bool := bitTest uint16_t value 0.

End AllocationTableEntry.

Import ReferenceTableEntry AllocationTableEntry.

Record TableIndex := mkIndex {
  referenceTableArrayIndex : Z;
  referenceTableIndex : Z;
  allocationTableIndex : Z
}.

Definition MIN_BITMAP_BLOCK_SIZE : Z := 16.

Section TableMemoryManager.
Context {M : Type} {HM : PageTableSupply M}.

(** [tables] is the memory behind the addresses of the allocation tables. *)
Record TableMemoryManager := mkTable {
  bitmapMemoryManager : M;
  startAddress : Z;
  endAddress : Z;
  blockSize : Z;
  referenceTableSizeInBlocks : Z;
  allocationTableEntriesPerBlock : Z;
  managedMemoryPerAllocationTable : Z;
  referenceTableEntriesPerBlock : Z;
  allocationTableCount : Z;
  referenceTableArray : list (list Z);
  tables : gmap Z (list Z)
}.

Definition with_tables (m : M) (r : list (list Z)) (t : gmap Z (list Z)) (s : TableMemoryManager) : TableMemoryManager :=
  mkTable m (startAddress s) (endAddress s) (blockSize s) (referenceTableSizeInBlocks s)
    (allocationTableEntriesPerBlock s) (managedMemoryPerAllocationTable s) (referenceTableEntriesPerBlock s)
    (allocationTableCount s) r t.

(** ** Access to the tables *)

Definition get_ref (i j : Z) (s : TableMemoryManager) : outcome Z :=
  row ← aget (referenceTableArray s) i; aget row j.

Definition set_ref (i j value : Z) (s : TableMemoryManager) : outcome TableMemoryManager :=
  row ← aget (referenceTableArray s) i;
  row ← aset row j value;
  r ← aset (referenceTableArray s) i row;
  Ok (with_tables (bitmapMemoryManager s) r (tables s) s).

Definition get_entry (table k : Z) (s : TableMemoryManager) : outcome Z :=
  t ← of_option (tables s !! table); aget t k.

Definition set_entry (table k value : Z) (s : TableMemoryManager) : outcome TableMemoryManager :=
  t ← of_option (tables s !! table);
  t ← aset t k value;
  Ok (with_tables (bitmapMemoryManager s) (referenceTableArray s) (<[table := t]> (tables s)) s).

(** A new allocation table when the entry has none; the block is cleared by the
    manager that hands it out. A null block leaves the entry without a table. *)
Definition ensure_table (i j : Z) (s : TableMemoryManager) : outcome TableMemoryManager :=
  v ← get_ref i j s;
  if getAddress v =? 0 then
    '(block, m) ← pts_allocate (bitmapMemoryManager s);
    v ← setAddress 1 block v;
    let t := if block =? 0 then tables s
             else <[block := replicate (Z.to_nat (allocationTableEntriesPerBlock s)) 0]> (tables s) in
    set_ref i j v (with_tables m (referenceTableArray s) t s)
  else Ok s.

(** ** Operations *)

Definition calculateIndex (address : Z) (s : TableMemoryManager) : outcome TableIndex :=
  b ← udiv address (blockSize s);
  let referenceTableAddress := u32 (b * blockSize s) in
  referenceTableIndex ← udiv referenceTableAddress (managedMemoryPerAllocationTable s);
  allocationTableAddress ← umod address (managedMemoryPerAllocationTable s);
  allocationTableIndex ← udiv allocationTableAddress (blockSize s);
  i ← udiv referenceTableIndex (referenceTableEntriesPerBlock s);
  j ← umod referenceTableIndex (referenceTableEntriesPerBlock s);
  Ok (mkIndex i j allocationTableIndex).

Definition calculateAddress (index : TableIndex) (s : TableMemoryManager) : Z :=
  u32 (referenceTableArrayIndex index * referenceTableEntriesPerBlock s * managedMemoryPerAllocationTable s
     + referenceTableIndex index * managedMemoryPerAllocationTable s
     + allocationTableIndex index * blockSize s).

(** One reference table of the constructor: a fresh block of entries, each set
    to the null address and marked installed if a table belongs to it. *)
Definition init_row (i n : Z) (count : Z) : outcome (list Z) :=
  for_up (Z.to_nat n) 0 (fun j row =>
    let installed := u32 (i * n + j) <? count in
    v ← aget row j;
    v ← setAddress 1 0 v;
    v ← setInstalled installed v;
    aset row j v) (replicate (Z.to_nat n) 0).

Definition TableMemoryManager_new (m : M) (startAddress endAddress blockSize : Z) : outcome TableMemoryManager :=
  let memorySize := u32 (endAddress - startAddress + 1) in
  blockCount ← udiv memorySize blockSize;
  r ← umod memorySize blockCount;
  let blockCount := if negb (r =? 0) then u32 (blockCount + 1) else blockCount in
  let bitmapBlockSize := pts_getBlockSize m in
  if bitmapBlockSize <? MIN_BITMAP_BLOCK_SIZE then Throw INVALID_ARGUMENT
  else
    let c := u32 (blockCount * 2) / bitmapBlockSize in
    let count := if negb (u32 (blockCount * 2) mod bitmapBlockSize =? 0) then u32 (c + 1) else c in
    let perBlock := bitmapBlockSize / 4 in
    let size := count / perBlock in
    let size := if negb (count mod perBlock =? 0) then u32 (size + 1) else size in
    '(rows, m) ← for_up (Z.to_nat size) 0 (fun i '(rows, m) =>
        '(block, m) ← pts_allocate m;
        if block =? 0 then Fault
        else row ← init_row i perBlock count; Ok (rows ++ [row], m)) ([], m);
    Ok (mkTable m startAddress endAddress blockSize size (bitmapBlockSize / 2)
          (u32 (bitmapBlockSize / 2 * blockSize)) perBlock count rows ∅).

(** The innermost body of [setMemory] and the marking of one table. *)
Definition mark_entry (useCount : Z) (reserved : bool) (allocationTable k : Z) (s : TableMemoryManager) : outcome TableMemoryManager :=
  e ← get_entry allocationTable k s;
  e ← setReserved reserved e;
  e ← setUseCount 1 useCount e;
  set_entry allocationTable k e s.

Definition mark_table (useCount : Z) (reserved : bool) (i j k0 k1 : Z) (s : TableMemoryManager) : outcome TableMemoryManager :=
  v ← get_ref i j s;
  v ← acquireLock 1 v;
  s ← set_ref i j v s;
  s ← ensure_table i j s;
  v ← get_ref i j s;
  s ← for_up (Z.to_nat (k1 - k0 + 1)) k0 (mark_entry useCount reserved (getAddress v)) s;
  v ← get_ref i j s;
  v ← releaseLock v;
  set_ref i j v s.

Definition setMemory (start end_ useCount : Z) (reserved : bool) (s : TableMemoryManager) : outcome TableMemoryManager :=
  startIndex ← calculateIndex start s;
  endIndex ← calculateIndex end_ s;
  let i0 := referenceTableArrayIndex startIndex in
  let i1 := referenceTableArrayIndex endIndex in
  for_up (Z.to_nat (i1 - i0 + 1)) i0 (fun i s =>
    let j0 := if i =? i0 then referenceTableIndex startIndex else 0 in
    let j1 := if i =? i1 then referenceTableIndex endIndex else referenceTableEntriesPerBlock s - 1 in
    for_up (Z.to_nat (j1 - j0 + 1)) j0 (fun j s =>
      let k0 := if j =? j0 then allocationTableIndex startIndex else 0 in
      let k1 := if j =? j1 then allocationTableIndex endIndex else allocationTableEntriesPerBlock s - 1 in
      mark_table useCount reserved i j k0 k1 s) s) s.

Definition allocateBlockAtAddress (address : Z) (s : TableMemoryManager) : outcome (Z * TableMemoryManager) :=
  if address >? endAddress s then Ok (address, s)
  else
    index ← calculateIndex address s;
    s ← ensure_table (referenceTableArrayIndex index) (referenceTableIndex index) s;
    v ← get_ref (referenceTableArrayIndex index) (referenceTableIndex index) s;
    e ← get_entry (getAddress v) (allocationTableIndex index) s;
    e ← incrementUseCount e;
    s ← set_entry (getAddress v) (allocationTableIndex index) e s;
    Ok (calculateAddress index s, s).

Definition freeBlock (pointer : Z) (s : TableMemoryManager) : outcome TableMemoryManager :=
  if pointer >? endAddress s then Ok s
  else
    index ← calculateIndex pointer s;
    v ← get_ref (referenceTableArrayIndex index) (referenceTableIndex index) s;
    e ← get_entry (getAddress v) (allocationTableIndex index) s;
    e ← decrementUseCount e;
    set_entry (getAddress v) (allocationTableIndex index) e s.

(** The search in one allocation table. *)
Definition search_entry (i j allocationTable k : Z) (s : TableMemoryManager) : outcome (option Z * TableMemoryManager) :=
  e ← get_entry allocationTable k s;
  reserved ← isReserved e;
  if reserved || (getUseCount e >? 0) then Ok (None, s)
  else
    e ← incrementUseCount e;
    s ← set_entry allocationTable k e s;
    v ← get_ref i j s;
    v ← releaseLock v;
    s ← set_ref i j v s;
    Ok (Some (calculateAddress (mkIndex i j k) s), s).

Definition search_table (i j k0 k1 : Z) (s : TableMemoryManager) : outcome (option Z * TableMemoryManager) :=
  v ← get_ref i j s;
  '(success, v) ← tryAcquireLock v;
  s ← set_ref i j v s;
  if negb success then Ok (None, s)
  else
    s ← ensure_table i j s;
    v ← get_ref i j s;
    let allocationTable := getAddress v in
    '(r, s) ← for_find (Z.to_nat (k1 - k0 + 1)) k0 (search_entry i j allocationTable) s;
    match r with
    | Some a => Ok (Some a, s)
    | None =>
      v ← get_ref i j s;
      v ← releaseLock v;
      s ← set_ref i j v s;
      Ok (None, s)
    end.

(** The result [0] is [nullptr]. *)
Definition allocateBlockAfterAddress (address : Z) (s : TableMemoryManager) : outcome (Z * TableMemoryManager) :=
  startIndex ← calculateIndex address s;
  endIndex ← calculateIndex (endAddress s) s;
  let i0 := referenceTableArrayIndex startIndex in
  let i1 := referenceTableArrayIndex endIndex in
  '(r, s) ← for_find (Z.to_nat (i1 - i0 + 1)) i0 (fun i s =>
    let j0 := if i =? i0 then referenceTableIndex startIndex else 0 in
    let j1 := if i =? i1 then referenceTableIndex endIndex else referenceTableEntriesPerBlock s - 1 in
    for_find (Z.to_nat (j1 - j0 + 1)) j0 (fun j s =>
      let k0 := if j =? j0 then allocationTableIndex startIndex else 0 in
      let k1 := if j =? j1 then allocationTableIndex endIndex else allocationTableEntriesPerBlock s - 1 in
      search_table i j k0 k1 s) s) s;
  Ok (default 0 r, s).

Definition allocateBlock (s : TableMemoryManager) : outcome (Z * TableMemoryManager) :=
  allocateBlockAfterAddress (startAddress s) s.

Definition getTotalMemory (s : TableMemoryManager) : Z := u32 (endAddress s - startAddress s + 1).

Definition getBlockSize (s : TableMemoryManager) : Z := blockSize s.

Definition getFreeMemory (s : TableMemoryManager) : outcome Z :=
  for_up (Z.to_nat (referenceTableSizeInBlocks s)) 0 (fun i freeMemory =>
    for_up (Z.to_nat (pts_getBlockSize (bitmapMemoryManager s) / 4)) 0 (fun j freeMemory =>
      v ← get_ref i j s;
      installed ← isInstalled v;
      if negb installed then Ok freeMemory
      else if getAddress v =? 0 then Ok (u32 (freeMemory + managedMemoryPerAllocationTable s))
      else for_up (Z.to_nat (allocationTableEntriesPerBlock s)) 0 (fun k freeMemory =>
        e ← get_entry (getAddress v) k s;
        Ok (if getUseCount e =? 0 then u32 (freeMemory + blockSize s) else freeMemory)) freeMemory) freeMemory) 0.

Definition getStartAddress (s : TableMemoryManager) : Z := startAddress s.
Definition getEndAddress (s : TableMemoryManager) : Z := endAddress s.

End TableMemoryManager.

(** * Lemmas on entries *)

Lemma testbit_address v i : 0 <= i -> Z.testbit (getAddress v) i = (4 <=? i) && (i <? 32) && Z.testbit v i.
Proof.
  intros Hi. unfold getAddress, get. rewrite Z.land_spec. change 0xfffffff0 with (2 ^ 32 - 2 ^ 4).
  rewrite testbit_mask by lia. apply andb_comm.
Qed.

Lemma address_low_bits v v' :
  (forall i, 4 <= i < 32 -> Z.testbit v' i = Z.testbit v i) -> getAddress v' = getAddress v.
Proof.
  intros H. apply testbit_bool_inj. intros i Hi. rewrite !testbit_address by done.
  destruct (Z.leb_spec 4 i), (Z.ltb_spec i 32); cbn [andb]; auto.
Qed.

Lemma address_range v : in_u 32 v -> 0 <= getAddress v < 2 ^ 32 /\ getAddress v mod 16 = 0.
Proof.
  intros Hv. unfold getAddress, get. change 0xfffffff0 with (2 ^ 32 - 2 ^ 4). rewrite land_align by (done || lia).
  unfold in_u in Hv. change (2 ^ 4) with 16. split; [|apply Z.mod_mul; done].
  Z.to_euclidean_division_equations; lia.
Qed.

(** The four low bits survive, the rest is the new address. *)
Lemma setAddress_ok fuel a v :
  (0 < fuel)%nat -> in_u 32 v -> in_u 32 a -> a mod 16 = 0 ->
  exists v', setAddress fuel a v = Ok v' /\ in_u 32 v' /\ getAddress v' = a /\
    (forall i, 0 <= i < 4 -> Z.testbit v' i = Z.testbit v i).
Proof.
  intros Hf Hv Ha Hm. destruct fuel as [|fuel]; [lia|]. cbn [setAddress]. unfold get.
  set (v' := Z.lor _ _).
  assert (Hb : forall i, 0 <= i -> Z.testbit v' i = if i <? 4 then Z.testbit v i else (i <? 32) && Z.testbit a i).
  { intros i Hi. unfold v'. rewrite Z.lor_spec, !Z.land_spec. change 0xfffffff0 with (2 ^ 32 - 2 ^ 4).
    change 0xf with (2 ^ 4 - 1). rewrite testbit_ones, testbit_mask by lia.
    destruct (Z.ltb_spec i 4), (Z.leb_spec 4 i); try lia; cbn [andb].
    - by rewrite andb_true_r, andb_false_r, orb_false_r.
    - rewrite andb_false_r. cbn [orb]. apply andb_comm. }
  assert (Hv' : in_u 32 v').
  { apply in_u_bits; [done|]. intros i Hi. rewrite Hb by lia.
    destruct (Z.ltb_spec i 4), (Z.ltb_spec i 32); (done || lia). }
  rewrite getAndSet_ok by (done || lia). mcbn. rewrite Z.eqb_refl. cbn [negb]. exists v'. split_and!; [done|done| |].
  - apply testbit_bool_inj. intros i Hi. rewrite testbit_address, Hb by done.
    destruct (Z.leb_spec 4 i), (Z.ltb_spec i 4), (Z.ltb_spec i 32); try lia; cbn [andb]; try done.
    + symmetry. by apply (testbit_high 32).
    + symmetry. rewrite <- (Z.mod_pow2_bits_low a 4) by lia. change (2 ^ 4) with 16. by rewrite Hm, Z.bits_0.
  - intros i Hi. rewrite Hb by lia. destruct (Z.ltb_spec i 4); [done|lia].
Qed.

(** What the one-bit operations on a reference entry do. *)
Lemma ref_bit_ops v b :
  in_u 32 v -> 0 <= b < 32 ->
  bitSet uint32_t v b = Ok (Z.setbit v b) /\ bitReset uint32_t v b = Ok (Z.clearbit v b) /\
  bitTestAndSet uint32_t v b = Ok (Z.testbit v b, Z.setbit v b) /\ bitTest uint32_t v b = Ok (Z.testbit v b) /\
  in_u 32 (Z.setbit v b) /\ in_u 32 (Z.clearbit v b).
Proof.
  intros Hv Hb. unfold bitSet, bitReset, bitTestAndSet, bitTest. rewrite bit_operand_32 by done. mcbn.
  pose proof (setbit_range 32 v b Hv Hb). pose proof (clearbit_range 32 v b Hv Hb).
  unfold conv. cbn [width signed]. rewrite (wrap_small 32 v), !(wrap_small 32) by done. done.
Qed.

(** An allocation entry is [2 * useCount + reserved]. *)
Lemma increment_ok e :
  in_u 16 e -> incrementUseCount e = if e <? 2 ^ 16 - 2 then Ok (e + 2) else Throw PAGING_ERROR.
Proof.
  intros He. unfold incrementUseCount, fetchAndAdd, conv, u16. cbn [signed width]. unfold_ints.
  assert (wrap 16 (e + 2) = if e <? 65534 then e + 2 else e + 2 - 65536) as ->.
  { destruct (Z.ltb_spec e 65534); [apply wrap_small; wrap_solve|].
    unfold wrap. symmetry. apply Z.mod_unique_pos with 1; change (2 ^ 16) with 65536; lia. }
  change (65536 - 2) with 65534. destruct (Z.ltb_spec e 65534); cmp_cases; done.
Qed.

Lemma decrement_ok e :
  in_u 16 e -> decrementUseCount e = if 2 <=? e then Ok (e - 2) else Throw PAGING_ERROR.
Proof.
  intros He. unfold decrementUseCount, fetchAndSub, fetchAndAdd, conv, u16. cbn [signed width]. unfold_ints.
  change (wrap 16 (2 * -1)) with 65534.
  assert (wrap 16 (e + 65534) = if 2 <=? e then e - 2 else e + 65534) as ->.
  { destruct (Z.leb_spec 2 e); [|apply wrap_small; wrap_solve].
    unfold wrap. symmetry. apply Z.mod_unique_pos with 1; change (2 ^ 16) with 65536; lia. }
  assert (wrap 16 (e - 2) = if 2 <=? e then e - 2 else e + 65534) as ->.
  { destruct (Z.leb_spec 2 e); [apply wrap_small; wrap_solve|].
    unfold wrap. symmetry. apply Z.mod_unique_pos with (-1); change (2 ^ 16) with 65536; lia. }
  rewrite Z.geb_leb. destruct (Z.leb_spec 2 e); cmp_cases; done.
Qed.

Definition mk_entry (useCount : Z) (reserved : bool) : Z := 2 * (useCount mod 2 ^ 15) + Z.b2z reserved.

Lemma mk_entry_range useCount reserved : in_u 16 (mk_entry useCount reserved).
Proof.
  unfold in_u, mk_entry. pose proof (Z.mod_pos_bound useCount (2 ^ 15) eq_refl).
  change (2 ^ 15) with 32768 in *. change (2 ^ 16) with 65536. destruct reserved; cbn [Z.b2z]; lia.
Qed.

Lemma bit_operand_16_0 : bit_operand uint16_t 0 = Ok 0.
Proof. done. Qed.

Lemma isReserved_ok e : in_u 16 e -> isReserved e = Ok (Z.odd e).
Proof. intros He. unfold isReserved, bitTest. rewrite bit_operand_16_0. mcbn. cbn [width]. by rewrite wrap_small. Qed.

Lemma set_entry_value useCount reserved e :
  in_u 16 e ->
  (e1 ← setReserved reserved e; setUseCount 1 useCount e1) = Ok (mk_entry useCount reserved).
Proof.
  intros He.
  assert (exists e1, setReserved reserved e = Ok e1 /\ in_u 16 e1 /\ Z.testbit e1 0 = reserved) as (e1 & -> & He1 & Hb).
  { unfold setReserved, bitSet, bitReset. rewrite bit_operand_16_0. mcbn. unfold conv. cbn [width signed].
    rewrite (wrap_small 16 e) by done. destruct reserved; eexists; (split; [done|]).
    - rewrite wrap_small by (apply setbit_range; done || lia). split; [by apply setbit_range|by apply Z.setbit_eq].
    - rewrite wrap_small by (apply clearbit_range; done || lia). split; [by apply clearbit_range|apply Z.clearbit_eq]. }
  mcbn. cbn [setUseCount]. unfold get.
  assert (u16 (Z.lor (Z.land e1 1) (Z.shiftl useCount 1)) = mk_entry useCount reserved) as ->.
  { rewrite <- (wrap_small 16 (mk_entry useCount reserved)) by apply mk_entry_range. unfold u16.
    rewrite lor_shift_add; [|done|].
    2:{ change 1 with (2 ^ 1 - 1) at 2. rewrite <- (Z.ones_equiv 1 : Z.ones 1 = 2 ^ 1 - 1), Z.land_ones by done.
        apply Z.mod_pos_bound. done. }
    change 1 with (Z.ones 1) at 1. rewrite Z.land_ones by done.
    assert (e1 mod 2 ^ 1 = Z.b2z reserved) as ->.
    { change (2 ^ 1) with 2. rewrite <- Z.bit0_mod. by rewrite Hb. }
    unfold mk_entry, wrap. change (2 ^ 16) with (2 ^ 15 * 2). change (2 ^ 1) with 2.
    rewrite (Z.mod_eq useCount (2 ^ 15)) by done.
    replace (2 * (useCount - 2 ^ 15 * (useCount / 2 ^ 15)) + Z.b2z reserved) with
      (Z.b2z reserved + useCount * 2 + (- (useCount / 2 ^ 15)) * (2 ^ 15 * 2)) by lia.
    by rewrite Z.mod_add. }
  rewrite getAndSet_ok by (done || lia). mcbn. by rewrite Z.eqb_refl.
Qed.

Lemma useCount_free e : in_u 16 e -> (Z.odd e || (getUseCount e >? 0)) = negb (e =? 0).
Proof.
  intros He. unfold getUseCount, get. rewrite Z.shiftr_div_pow2 by done. change (2 ^ 1) with 2.
  rewrite Z.gtb_ltb. unfold in_u in He. destruct (Z.eqb_spec e 0) as [->|]; [done|]. cbn [negb].
  destruct (Z.odd e) eqn:E; [done|]. cbn [orb]. apply Z.ltb_lt.
  assert (e <> 1) by (by intros ->). Z.to_euclidean_division_equations; lia.
Qed.

(** * Indices and addresses *)

Section proofs.
Context {M : Type} {HM : PageTableSupply M}.
Notation TMM := (TableMemoryManager (M := M)).

Record geometry (s : TMM) : Prop := {
  geo_block : 0 < blockSize s;
  geo_entries : 0 < allocationTableEntriesPerBlock s;
  geo_managed : managedMemoryPerAllocationTable s = allocationTableEntriesPerBlock s * blockSize s;
  geo_refs : 0 < referenceTableEntriesPerBlock s
}.

(** The index of block number [n]. *)
Definition index_of (n : Z) (s : TMM) : TableIndex :=
  mkIndex (n / allocationTableEntriesPerBlock s / referenceTableEntriesPerBlock s)
          (n / allocationTableEntriesPerBlock s mod referenceTableEntriesPerBlock s)
          (n mod allocationTableEntriesPerBlock s).

Lemma mod_mul_div a b c : 0 < b -> 0 < c -> a mod (c * b) / b = a / b mod c.
Proof.
  intros Hb Hc. rewrite (Z.mul_comm c), Z.rem_mul_r by lia.
  replace (a mod b + b * (a / b mod c)) with (a / b mod c * b + a mod b) by lia.
  rewrite Z.div_add_l by lia. rewrite (Z.div_small (a mod b)) by (by apply Z.mod_pos_bound). lia.
Qed.

Lemma calculateIndex_ok s a :
  geometry s -> in_u 32 a -> calculateIndex a s = Ok (index_of (a / blockSize s) s).
Proof.
  intros [Hb He Hm Hr] Ha. unfold calculateIndex, index_of. rewrite Hm. unfold in_u in Ha.
  rewrite !udiv_ok by lia. mcbn.
  assert (0 <= a / blockSize s * blockSize s <= a) as Hle.
  { split; [apply Z.mul_nonneg_nonneg; [apply Z.div_pos|]; lia|]. rewrite Z.mul_comm. apply Z.mul_div_le. lia. }
  replace (u32 (a / blockSize s * blockSize s)) with (a / blockSize s * blockSize s) by (unwrap; lia).
  repeat (first [rewrite udiv_ok by nia | rewrite umod_ok by nia]; mcbn).
  rewrite Z.div_mul_cancel_r, mod_mul_div by lia. done.
Qed.

Lemma calculateAddress_ok s n :
  geometry s -> 0 <= n * blockSize s < 2 ^ 32 -> calculateAddress (index_of n s) s = n * blockSize s.
Proof.
  intros [Hb He Hm Hr] Hn. unfold calculateAddress, index_of. cbn [referenceTableArrayIndex referenceTableIndex allocationTableIndex].
  rewrite Hm.
  pose proof (Z.div_mod n (allocationTableEntriesPerBlock s) ltac:(lia)) as H1.
  pose proof (Z.div_mod (n / allocationTableEntriesPerBlock s) (referenceTableEntriesPerBlock s) ltac:(lia)) as H2.
  match goal with |- u32 ?x = _ => replace x with (n * blockSize s) end; [unwrap; lia|].
  rewrite H1 at 1. rewrite H2 at 1. ring.
Qed.

(** CalculateAddress gives back the start of the block of the address
    calculateIndex was given, and calculateIndex gives back every index
    calculateAddress was given, for every address inside that block. *)
Theorem table_index_roundtrip s a :
  geometry s -> in_u 32 a ->
  (exists index, calculateIndex a s = Ok index /\ calculateAddress index s = a / blockSize s * blockSize s) /\
  (forall index off, 0 <= referenceTableArrayIndex index -> 0 <= referenceTableIndex index < referenceTableEntriesPerBlock s ->
     0 <= allocationTableIndex index < allocationTableEntriesPerBlock s ->
     ((referenceTableArrayIndex index * referenceTableEntriesPerBlock s + referenceTableIndex index)
        * allocationTableEntriesPerBlock s + allocationTableIndex index + 1) * blockSize s <= 2 ^ 32 ->
     0 <= off < blockSize s -> calculateIndex (calculateAddress index s + off) s = Ok index).
Proof.
  intros Hg Ha. pose proof Hg as [Hb He Hm Hr]. split.
  - eexists. split; [by apply calculateIndex_ok|]. apply calculateAddress_ok; [done|]. unfold in_u in Ha.
    split; [apply Z.mul_nonneg_nonneg; [apply Z.div_pos|]; lia|].
    pose proof (Z.mul_div_le a (blockSize s) Hb). lia.
  - intros [i j k] off Hi Hj Hk Hmax Hoff. cbn [referenceTableArrayIndex referenceTableIndex allocationTableIndex] in *.
    set (n := (i * referenceTableEntriesPerBlock s + j) * allocationTableEntriesPerBlock s + k) in *.
    assert (n / allocationTableEntriesPerBlock s = i * referenceTableEntriesPerBlock s + j) as H1.
    { unfold n. rewrite Z.div_add_l by lia. rewrite (Z.div_small k) by lia. lia. }
    assert (index_of n s = mkIndex i j k) as <-.
    { unfold index_of. rewrite H1. f_equal.
      - rewrite Z.div_add_l by lia. rewrite (Z.div_small j) by lia. lia.
      - rewrite Z.add_comm, Z.mod_add by lia. apply Z.mod_small. lia.
      - unfold n. rewrite Z.add_comm, Z.mod_add by lia. apply Z.mod_small. lia. }
    assert (0 <= n) by (unfold n; nia).
    rewrite calculateAddress_ok by (done || nia). rewrite calculateIndex_ok by (done || (unfold in_u; nia)).
    do 2 f_equal. rewrite Z.div_add_l by lia. rewrite (Z.div_small off) by lia. lia.
Qed.

(** * Managers with one reference table

    With blocks of 4 KiB for tables and frames, one reference table of 1024
    entries covers more than the 32-bit address space, so the kernel always has
    exactly one. *)

Definition row (s : TMM) : list Z := default [] (referenceTableArray s !! 0%nat).
Definition ref (s : TMM) (j : Z) : Z := default 0 (row s !! Z.to_nat j).
Definition table (s : TMM) (j : Z) : list Z := default [] (tables s !! getAddress (ref s j)).

(** The entry of block [n]; a block whose table does not exist yet is free. *)
Definition entry (s : TMM) (n : Z) : Z :=
  let j := n / allocationTableEntriesPerBlock s in
  if getAddress (ref s j) =? 0 then 0
  else default 0 (table s j !! Z.to_nat (n mod allocationTableEntriesPerBlock s)).

(** The number of tables that the managed memory needs, and how many of them are still to
    be allocated. *)
Definition tables_needed (s : TMM) : Z := endAddress s / blockSize s / allocationTableEntriesPerBlock s + 1.
Definition todo (s : TMM) : nat := length (filter (fun v => getAddress v = 0) (take (Z.to_nat (tables_needed s)) (row s))).

Record wf (s : TMM) : Prop := {
  wf_geometry : geometry s;
  wf_row : referenceTableArray s = [row s];
  wf_row_length : zlen (row s) = referenceTableEntriesPerBlock s;
  wf_row_range : Forall (in_u 32) (row s);
  wf_end : in_u 32 (endAddress s);
  wf_covered : endAddress s / blockSize s / allocationTableEntriesPerBlock s < referenceTableEntriesPerBlock s;
  wf_tables : forall j, 0 <= j < referenceTableEntriesPerBlock s -> getAddress (ref s j) <> 0 ->
    exists t, tables s !! getAddress (ref s j) = Some t /\ zlen t = allocationTableEntriesPerBlock s /\ Forall (in_u 16) t;
  wf_inj : forall j1 j2, 0 <= j1 < referenceTableEntriesPerBlock s -> 0 <= j2 < referenceTableEntriesPerBlock s ->
    getAddress (ref s j1) <> 0 -> getAddress (ref s j1) = getAddress (ref s j2) -> j1 = j2;
  wf_mm : pts_ok (bitmapMemoryManager s);
  wf_mm_used : forall j, 0 <= j < referenceTableEntriesPerBlock s -> getAddress (ref s j) <> 0 ->
    getAddress (ref s j) ∈ pts_owned (bitmapMemoryManager s);
  wf_budget : (todo s <= pts_available (bitmapMemoryManager s))%nat
}.

Definition locked (s : TMM) (j : Z) : bool := Z.testbit (ref s j) 2.

(** What no operation changes. *)
Definition same (s s' : TMM) : Prop :=
  startAddress s' = startAddress s /\ endAddress s' = endAddress s /\ blockSize s' = blockSize s /\
  allocationTableEntriesPerBlock s' = allocationTableEntriesPerBlock s /\
  managedMemoryPerAllocationTable s' = managedMemoryPerAllocationTable s /\
  referenceTableEntriesPerBlock s' = referenceTableEntriesPerBlock s.

Lemma same_refl s : same s s.
Proof. by repeat split. Qed.

Lemma same_trans s1 s2 s3 : same s1 s2 -> same s2 s3 -> same s1 s3.
Proof. unfold same. intros; split_and!; destruct_and!; congruence. Qed.

Lemma same_needed s s' : same s s' -> tables_needed s' = tables_needed s.
Proof. intros (_ & E1 & E2 & E3 & _). unfold tables_needed. by rewrite E1, E2, E3. Qed.

(** The manager of the tables only hands out new blocks; every table taken is one of those
    still to be allocated. *)
Definition grows (s s' : TMM) : Prop :=
  pts_owned (bitmapMemoryManager s) ⊆ pts_owned (bitmapMemoryManager s') /\
  (pts_available (bitmapMemoryManager s) + todo s' = pts_available (bitmapMemoryManager s') + todo s)%nat /\
  pts_end (bitmapMemoryManager s') = pts_end (bitmapMemoryManager s) /\
  forall j, 0 <= j < referenceTableEntriesPerBlock s -> getAddress (ref s' j) <> 0 ->
    getAddress (ref s' j) = getAddress (ref s j) \/ getAddress (ref s' j) ∉ pts_owned (bitmapMemoryManager s).

Lemma grows_refl s : grows s s.
Proof. split_and!; auto. Qed.

Lemma grows_trans s1 s2 s3 : same s1 s2 -> grows s1 s2 -> grows s2 s3 -> grows s1 s3.
Proof.
  intros (_ & _ & _ & _ & _ & Sr) (A1 & A2 & A0 & A3) (B1 & B2 & B0 & B3). split_and!; [set_solver|lia|congruence|]. intros j Hj Hnz.
  destruct (B3 j ltac:(lia) Hnz) as [E|E]; [|right; set_solver]. rewrite E in Hnz |- *. by apply A3.
Qed.

(** [s'] is a well-formed state with the entries [f] and the locks [lk]. *)
Record after (s s' : TMM) (f : Z -> Z) (lk : Z -> bool) : Prop := {
  after_wf : wf s';
  after_same : same s s';
  after_entry : forall n, 0 <= n -> n / allocationTableEntriesPerBlock s < referenceTableEntriesPerBlock s -> entry s' n = f n;
  after_lock : forall j, 0 <= j < referenceTableEntriesPerBlock s -> locked s' j = lk j;
  after_grows : grows s s'
}.

(** Changing one element of a list changes the number of those with a property by one. *)
Lemma filter_insert_count (l : list Z) (i : nat) v w (Q : Z -> Prop) `{forall x, Decision (Q x)} :
  l !! i = Some w ->
  (length (filter Q (<[i := v]> l)) + (if decide (Q w) then 1 else 0) = length (filter Q l) + (if decide (Q v) then 1 else 0))%nat.
Proof.
  intros Hl. rewrite (insert_take_drop _ _ _ (lookup_lt_Some _ _ _ Hl)). rewrite <- (take_drop_middle l _ _ Hl) at 3.
  rewrite !filter_app, !filter_cons, !length_app. destruct (decide (Q v)), (decide (Q w)); cbn [length]; lia.
Qed.

Lemma todo_put s m t (j : nat) (v w : Z) :
  row s !! j = Some w ->
  let s' := with_tables m [<[j := v]> (row s)] t s in
  (todo s' + (if decide ((getAddress w = 0 /\ Z.of_nat j < tables_needed s)%Z) then 1 else 0)
   = todo s + (if decide ((getAddress v = 0 /\ Z.of_nat j < tables_needed s)%Z) then 1 else 0))%nat.
Proof.
  intros Hw s'. unfold todo. change (tables_needed s') with (tables_needed s). change (row s') with (<[j := v]> (row s)).
  destruct (decide (Z.of_nat j < tables_needed s)) as [Hlt|Hge].
  - rewrite take_insert_lt by lia. pose proof (filter_insert_count (take (Z.to_nat (tables_needed s)) (row s)) j v w (fun v => getAddress v = 0)) as H.
    rewrite lookup_take_lt in H by lia. specialize (H Hw). cbv beta in H. repeat case_decide; try tauto; lia.
  - rewrite take_insert_ge by lia. rewrite !decide_False by (intros [_ ?]; lia). done.
Qed.

Section access.
Context (s : TMM) (Hwf : wf s) (j : Z) (Hj : 0 <= j < referenceTableEntriesPerBlock s).

Lemma row_lookup : row s !! Z.to_nat j = Some (ref s j).
Proof.
  destruct Hwf. unfold zlen in *. destruct (lookup_lt_is_Some_2 (row s) (Z.to_nat j)) as [v Hv]; [lia|].
  unfold ref. by rewrite Hv.
Qed.

Lemma ref_range : in_u 32 (ref s j).
Proof. destruct Hwf. eapply Forall_lookup_1; [done|apply row_lookup]. Qed.

Lemma get_ref_ok : get_ref 0 j s = Ok (ref s j).
Proof.
  unfold get_ref. destruct Hwf as [_ Hr _ _ _ _ _ _ _ _ _]. rewrite Hr. cbn -[Z.ltb].
  apply aget_ok. split; [lia|]. apply row_lookup.
Qed.

Definition put_ref (v : Z) : TMM :=
  with_tables (bitmapMemoryManager s) [<[Z.to_nat j := v]> (row s)] (tables s) s.

Lemma set_ref_ok v : set_ref 0 j v s = Ok (put_ref v).
Proof.
  unfold set_ref, put_ref. destruct Hwf as [_ Hr Hl _ _ _ _ _ _ _ _]. rewrite Hr. cbn [aget].
  change (aget [row s] 0) with (Ok (row s)). mcbn. rewrite aset_in by lia. mcbn. done.
Qed.

Lemma ref_put v j' : 0 <= j' -> ref (put_ref v) j' = if decide (j' = j) then v else ref s j'.
Proof.
  intros Hj'. unfold ref, row, put_ref. cbn. fold (row s). rewrite list_lookup_insert.
  destruct Hwf as [_ Hr Hl _ _ _ _ _ _ _ _]. unfold zlen in Hl. unfold row in *.
  repeat case_decide; (done || lia).
Qed.

(** Changing the flags of a reference entry changes nothing else. *)
Lemma put_flags v :
  in_u 32 v -> getAddress v = getAddress (ref s j) ->
  after s (put_ref v) (entry s) (fun j' => if decide (j' = j) then Z.testbit v 2 else locked s j').
Proof.
  intros Hv Ha.
  assert (Hg : forall j', 0 <= j' -> getAddress (ref (put_ref v) j') = getAddress (ref s j')).
  { intros j' Hj'. rewrite ref_put by done. by destruct (decide (j' = j)) as [->|]. }
  pose proof row_lookup as Hrow. destruct Hwf as [G R L F E C T I W U B].
  assert (Ht : todo (put_ref v) = todo s).
  { pose proof (todo_put s (bitmapMemoryManager s) (tables s) _ v _ Hrow) as H. cbv zeta in H. fold (put_ref v) in H. rewrite Ha in H. lia. }
  split.
  - split; try done; cbn [referenceTableEntriesPerBlock put_ref with_tables bitmapMemoryManager tables].
    + by destruct G.
    + change (row (put_ref v)) with (<[Z.to_nat j := v]> (row s)). by rewrite zlen_insert.
    + by apply Forall_insert.
    + intros j' Hj'. rewrite Hg by lia. apply T. done.
    + intros j1 j2 Hj1 Hj2. rewrite !Hg by lia. by apply I.
    + intros j' Hj'. rewrite Hg by lia. by apply U.
    + rewrite Ht. exact B.
  - done.
  - intros n Hn Hc. unfold entry. cbn [allocationTableEntriesPerBlock put_ref with_tables].
    assert (0 <= n / allocationTableEntriesPerBlock s) by (destruct G; apply Z.div_pos; lia).
    rewrite Hg by done. unfold table. by rewrite Hg by done.
  - intros j' Hj'. unfold locked. rewrite ref_put by lia. by destruct (decide (j' = j)).
  - split_and!; [done|cbn [bitmapMemoryManager put_ref with_tables]; lia|done|]. intros j' Hj' _. left. apply Hg. lia.
Qed.

End access.

(** After [ensure_table] the table is there; all entries are as before. *)
Lemma ensure_table_ok s j :
  wf s -> 0 <= j < tables_needed s ->
  exists s', ensure_table 0 j s = Ok s' /\ after s s' (entry s) (locked s) /\ getAddress (ref s' j) <> 0.
Proof.
  intros Hwf Hjn. assert (Hj : 0 <= j < referenceTableEntriesPerBlock s) by (destruct Hwf; unfold tables_needed in *; lia).
  unfold ensure_table. rewrite get_ref_ok by done. mcbn. pose proof (ref_range s Hwf j Hj) as Hr.
  destruct (Z.eqb_spec (getAddress (ref s j)) 0) as [E|E].
  2:{ exists s. split; [done|]. split; [|done]. split; [done|apply same_refl|done|done|apply grows_refl]. }
  pose proof Hwf as [G R L F En C T I W U B]. pose proof (row_lookup s Hwf j Hj) as Hrow.
  assert (Hav : (0 < pts_available (bitmapMemoryManager s))%nat).
  { pose proof (todo_put s (bitmapMemoryManager s) (tables s) _ 16 _ Hrow) as H. cbv zeta in H.
    rewrite decide_True in H by (split; [done|lia]). rewrite decide_False in H by (by intros [? _]). lia. }
  destruct (pts_allocate_total _ W Hav) as (a & m & Ea). rewrite Ea. mcbn.
  destruct (pts_allocate_law _ _ _ W Ea) as (Wm & Hfresh & Uall & Ha0 & Ha4096 & Havm & Hend).
  assert (Ha16 : a mod 16 = 0) by (Z.to_euclidean_division_equations; lia).
  destruct (setAddress_ok 1 a (ref s j)) as (v & -> & Hv & Hva & Hvb); [lia|done|unfold in_u; lia|done|]. mcbn.
  destruct (Z.eqb_spec a 0) as [|Hanz]; [lia|].
  set (t := replicate _ 0).
  set (s1 := with_tables m (referenceTableArray s) (<[a := t]> (tables s)) s).
  assert (Hs1 : set_ref 0 j v s1 = Ok (with_tables m [<[Z.to_nat j := v]> (row s)] (<[a := t]> (tables s)) s)).
  { unfold set_ref, s1. cbn [referenceTableArray with_tables]. rewrite R. change (aget [row s] 0) with (Ok (row s)). mcbn.
    rewrite aset_in by lia. done. }
  rewrite Hs1. set (s' := with_tables _ [_] _ s). eexists. split; [done|].
  assert (Ht : (S (todo s') = todo s)%nat).
  { pose proof (todo_put s m (<[a := t]> (tables s)) _ v _ Hrow) as H. cbv zeta in H. fold s' in H.
    rewrite decide_True in H by (split; [done|lia]). rewrite decide_False in H by (intros [? _]; lia). lia. }
  assert (Hrow' : row s' = <[Z.to_nat j := v]> (row s)) by done.
  assert (Href : forall j', 0 <= j' -> ref s' j' = if decide (j' = j) then v else ref s j') by (apply (ref_put s Hwf j Hj v)).
  assert (Hold : forall j', 0 <= j' < referenceTableEntriesPerBlock s -> getAddress (ref s j') <> 0 -> getAddress (ref s j') <> a).
  { intros j' Hj' Hnz Heq. apply U in Hnz; [|done]. rewrite Heq in Hnz. set_solver. }
  assert (Htab : forall j', 0 <= j' < referenceTableEntriesPerBlock s -> getAddress (ref s' j') <> 0 ->
     tables s' !! getAddress (ref s' j') = if decide (j' = j) then Some t else tables s !! getAddress (ref s j')).
  { intros j' Hj' Hnz. rewrite Href in Hnz |- * by lia. cbn [tables s' with_tables]. destruct (decide (j' = j)) as [->|].
    - rewrite Hva. by rewrite lookup_insert_eq.
    - rewrite lookup_insert_ne; [done|]. intros Heq. by apply (Hold j'). }
  destruct G as [G1 G2 G3 G4].
  assert (Ht2 : zlen t = allocationTableEntriesPerBlock s /\ Forall (in_u 16) t).
  { unfold t, zlen. rewrite length_replicate. split; [lia|]. by apply Forall_replicate. }
  assert (Ht0 : forall q, default 0 (t !! q) = 0).
  { intros q. destruct (t !! q) eqn:El; [|done]. by apply lookup_replicate_1 in El as [-> _]. }
  split; [split|].
  - split; try done; cbn [referenceTableEntriesPerBlock s' with_tables bitmapMemoryManager].
    + by rewrite Hrow', zlen_insert.
    + rewrite Hrow'. by apply Forall_insert.
    + intros j' Hj' Hnz. rewrite Htab by done. rewrite Href in Hnz by lia. destruct (decide (j' = j)) as [->|]; [eauto|].
      by apply T.
    + intros j1 j2 Hj1 Hj2. rewrite !Href by lia.
      destruct (decide (j1 = j)) as [->|], (decide (j2 = j)) as [->|]; rewrite ?Hva; [done|..|by apply I].
      * intros _ Heq. symmetry in Heq. destruct (decide (getAddress (ref s j2) = 0)); [lia|]. by apply Hold in Heq.
      * intros Hnz Heq. by apply Hold in Heq.
    + intros j' Hj'. rewrite Href by lia. destruct (decide (j' = j)) as [->|]; [rewrite Hva; set_solver|].
      intros Hnz. rewrite Uall. apply elem_of_union_r. by apply U.
    + lia.
  - done.
  - intros n Hn Hc. unfold entry. change (allocationTableEntriesPerBlock s') with (allocationTableEntriesPerBlock s).
    assert (0 <= n / allocationTableEntriesPerBlock s) by (apply Z.div_pos; lia).
    pose proof (Htab (n / allocationTableEntriesPerBlock s) ltac:(lia)) as Htab'. unfold table.
    rewrite Href in Htab' |- * by lia. destruct (decide (n / allocationTableEntriesPerBlock s = j)) as [Ej|].
    + rewrite Ej, E. cbn. rewrite Hva in *. destruct (Z.eqb_spec a 0) as [|_]; [lia|]. rewrite lookup_insert_eq. apply Ht0.
    + destruct (Z.eqb_spec (getAddress (ref s (n / allocationTableEntriesPerBlock s))) 0); [done|]. by rewrite Htab'.
  - intros j' Hj'. unfold locked. rewrite Href by lia. destruct (decide (j' = j)) as [->|]; [|done]. apply Hvb. lia.
  - split_and!; cbn [bitmapMemoryManager s' with_tables]; [set_solver|lia|done|]. intros j' Hj' _. rewrite Href by lia.
    destruct (decide (j' = j)) as [->|]; [right; by rewrite Hva|by left].
  - rewrite Href by lia. rewrite decide_True by done. lia.
Qed.

Section entries.
Context (s : TMM) (Hwf : wf s) (j k : Z) (Hj : 0 <= j < referenceTableEntriesPerBlock s).
Context (Hk : 0 <= k < allocationTableEntriesPerBlock s) (Ht : getAddress (ref s j) <> 0).

Lemma block_parts :
  (j * allocationTableEntriesPerBlock s + k) / allocationTableEntriesPerBlock s = j /\
  (j * allocationTableEntriesPerBlock s + k) mod allocationTableEntriesPerBlock s = k.
Proof.
  split; [rewrite Z.div_add_l, (Z.div_small k) by lia; lia|]. rewrite Z.add_comm, Z.mod_add by lia. apply Z.mod_small. lia.
Qed.

Lemma get_entry_ok :
  get_entry (getAddress (ref s j)) k s = Ok (entry s (j * allocationTableEntriesPerBlock s + k)) /\
  in_u 16 (entry s (j * allocationTableEntriesPerBlock s + k)).
Proof.
  destruct block_parts as [H1 H2]. destruct (wf_tables s Hwf j Hj Ht) as (t & Hl & Hz & Hf). unfold zlen in Hz.
  unfold get_entry, entry, table. rewrite H1, H2, Hl. destruct (Z.eqb_spec (getAddress (ref s j)) 0); [done|]. mcbn. cbn [of_option from_option id].
  destruct (lookup_lt_is_Some_2 t (Z.to_nat k)) as [e He]; [lia|]. mcbn.
  split; [apply aget_ok; rewrite He; split; [lia|done]|]. rewrite He. by eapply Forall_lookup_1.
Qed.

Lemma set_entry_ok e :
  in_u 16 e ->
  exists s', set_entry (getAddress (ref s j)) k e s = Ok s' /\ (forall j', ref s' j' = ref s j') /\
    after s s' (fun n => if decide (n = j * allocationTableEntriesPerBlock s + k) then e else entry s n) (locked s).
Proof.
  intros He. destruct block_parts as [H1 H2]. destruct (wf_tables s Hwf j Hj Ht) as (t & Hl & Hz & Hf). unfold zlen in Hz.
  unfold set_entry. rewrite Hl. cbn [of_option]. mcbn. rewrite aset_in by (unfold zlen; lia). mcbn.
  eexists. split; [done|]. split; [done|]. set (s' := with_tables _ _ _ _).
  assert (Href : forall j', ref s' j' = ref s j') by done.
  assert (Htab : forall j', 0 <= j' < referenceTableEntriesPerBlock s -> getAddress (ref s j') <> 0 ->
     tables s' !! getAddress (ref s j') = if decide (j' = j) then Some (<[Z.to_nat k := e]> t) else tables s !! getAddress (ref s j')).
  { intros j' Hj' Hnz. cbn [tables s' with_tables]. destruct (decide (j' = j)) as [->|]; [by rewrite lookup_insert_eq|].
    rewrite lookup_insert_ne; [done|]. intros Heq. by apply (wf_inj s Hwf) in Heq. }
  pose proof Hwf as [[G1 G2 G3 G4] R L F En C T I W U B].
  split; try done.
  - split; try done. intros j' Hj' Hnz. rewrite Href in *. rewrite Htab by done. destruct (decide (j' = j)) as [->|]; [|by apply T].
    eexists. split; [done|]. split; [by rewrite zlen_insert|by apply Forall_insert].
  - intros n Hn Hc. unfold entry, table. change (allocationTableEntriesPerBlock s') with (allocationTableEntriesPerBlock s). rewrite Href.
    assert (0 <= n / allocationTableEntriesPerBlock s) by (apply Z.div_pos; lia).
    destruct (Z.eqb_spec (getAddress (ref s (n / allocationTableEntriesPerBlock s))) 0) as [E0|E0].
    + rewrite decide_False; [done|]. intros ->. rewrite H1 in E0. done.
    + rewrite Htab by (done || lia). pose proof (Z.div_mod n (allocationTableEntriesPerBlock s) ltac:(lia)) as Hdm.
      pose proof (Z.mod_pos_bound n (allocationTableEntriesPerBlock s) ltac:(lia)) as Hmb.
      destruct (decide (n / allocationTableEntriesPerBlock s = j)) as [Ej|Ej].
      * rewrite Ej, Hl in *. cbn [from_option id]. rewrite list_lookup_insert.
        destruct (decide (n = j * allocationTableEntriesPerBlock s + k)); [rewrite decide_True by lia; done|].
        rewrite decide_False by lia. done.
      * rewrite decide_False; [done|]. intros ->. by rewrite H1 in Ej.
  - exact (grows_refl s).
Qed.

End entries.

Lemma entry_range s :
  wf s -> forall n, 0 <= n -> n / allocationTableEntriesPerBlock s < referenceTableEntriesPerBlock s -> in_u 16 (entry s n).
Proof.
  intros Hwf n Hn Hc. pose proof Hwf as [[G1 G2 G3 G4] _ _ _ _ _ _ _ _ _ _].
  assert (0 <= n / allocationTableEntriesPerBlock s) by (apply Z.div_pos; lia).
  pose proof (Z.mod_pos_bound n (allocationTableEntriesPerBlock s) G2) as Hm.
  destruct (decide (getAddress (ref s (n / allocationTableEntriesPerBlock s)) = 0)) as [E|E].
  - unfold entry. rewrite E. done.
  - destruct (get_entry_ok s Hwf (n / allocationTableEntriesPerBlock s) (n mod allocationTableEntriesPerBlock s) ltac:(lia) Hm E) as [_ Hr].
    replace n with (n / allocationTableEntriesPerBlock s * allocationTableEntriesPerBlock s + n mod allocationTableEntriesPerBlock s);
      [done|]. pose proof (Z.div_mod n (allocationTableEntriesPerBlock s)). lia.
Qed.

(** ** Operations on one block *)

Lemma after_trans s1 s2 s3 f g lk1 lk2 :
  after s1 s2 f lk1 -> after s2 s3 g lk2 -> after s1 s3 g lk2.
Proof.
  intros [W1 S1 E1 L1 Gr1] [W2 S2 E2 L2 Gr2]. pose proof S1 as (_ & _ & _ & He & _ & Hr).
  split; [done|by eapply same_trans| | |by eapply grows_trans]; rewrite <- He, <- Hr || rewrite <- Hr; done.
Qed.

Lemma after_ext s1 s2 f g lk lk' :
  after s1 s2 f lk ->
  (forall n, 0 <= n -> n / allocationTableEntriesPerBlock s1 < referenceTableEntriesPerBlock s1 -> f n = g n) ->
  (forall j, 0 <= j < referenceTableEntriesPerBlock s1 -> lk j = lk' j) -> after s1 s2 g lk'.
Proof. intros [W S E L Gr] Hf Hl. split; [done|done| | |done]; intros; rewrite <- ?Hf, <- ?Hl by done; auto. Qed.

Section block.
Context (s : TMM) (Hwf : wf s) (a : Z) (Ha : 0 <= a <= endAddress s).
Let n := a / blockSize s.

Lemma block_range :
  0 <= n /\ n / allocationTableEntriesPerBlock s < referenceTableEntriesPerBlock s /\ 0 <= n * blockSize s <= a /\
  0 <= n / allocationTableEntriesPerBlock s.
Proof.
  destruct Hwf as [[G1 G2 G3 G4] _ _ _ _ C _ _ _ _ _].
  assert (0 <= n) by (apply Z.div_pos; lia). pose proof (Z.mul_div_le a (blockSize s) G1).
  split_and!; [lia| |nia|unfold n; lia|apply Z.div_pos; lia].
  eapply Z.le_lt_trans; [|exact C]. apply Z.div_le_mono; [done|]. apply Z.div_le_mono; lia.
Qed.

Lemma block_needed : n / allocationTableEntriesPerBlock s < tables_needed s.
Proof.
  destruct Hwf as [[G1 G2 G3 G4] _ _ _ _ C _ _ _ _ _]. unfold tables_needed.
  assert (n / allocationTableEntriesPerBlock s <= endAddress s / blockSize s / allocationTableEntriesPerBlock s); [|lia].
  apply Z.div_le_mono; [done|]. apply Z.div_le_mono; lia.
Qed.

Lemma block_index :
  calculateIndex a s =
  Ok (mkIndex 0 (n / allocationTableEntriesPerBlock s) (n mod allocationTableEntriesPerBlock s)) /\
  (forall s', same s s' ->
     calculateAddress (mkIndex 0 (n / allocationTableEntriesPerBlock s) (n mod allocationTableEntriesPerBlock s)) s' = n * blockSize s).
Proof.
  destruct block_range as (H1 & H2 & H3 & H4). pose proof Hwf as [G _ _ _ E _ _ _ _ _ _]. unfold in_u in E.
  assert (index_of n s = mkIndex 0 (n / allocationTableEntriesPerBlock s) (n mod allocationTableEntriesPerBlock s)) as Hi.
  { unfold index_of. rewrite Z.div_small, Z.mod_small by lia. done. }
  split; [rewrite calculateIndex_ok; [by rewrite <- Hi|done|unfold in_u; lia]|].
  intros s' (_ & _ & Sb & Se & Sm & Sr). rewrite <- Hi. unfold calculateAddress. rewrite Sb, Sm, Sr.
  apply calculateAddress_ok; [done|]. lia.
Qed.

Lemma block_number : n = n / allocationTableEntriesPerBlock s * allocationTableEntriesPerBlock s + n mod allocationTableEntriesPerBlock s
  /\ 0 <= n mod allocationTableEntriesPerBlock s < allocationTableEntriesPerBlock s.
Proof.
  destruct Hwf as [[G1 G2 G3 G4] _ _ _ _ C _ _ _ _ _].
  pose proof (Z.div_mod n (allocationTableEntriesPerBlock s) ltac:(lia)).
  pose proof (Z.mod_pos_bound n (allocationTableEntriesPerBlock s) G2). lia.
Qed.

Lemma allocateBlockAtAddress_ok :
  if entry s n <? 2 ^ 16 - 2 then
    exists s', allocateBlockAtAddress a s = Ok (n * blockSize s, s') /\
      after s s' (fun m => if decide (m = n) then entry s n + 2 else entry s m) (locked s)
  else allocateBlockAtAddress a s = Throw PAGING_ERROR.
Proof.
  destruct block_range as (H1 & H2 & H3 & H4), block_index as [Hi Hca], block_number as [Hn Hm].
  unfold allocateBlockAtAddress. rewrite Z.gtb_ltb. destruct (Z.ltb_spec (endAddress s) a); [lia|].
  rewrite Hi. mcbn. cbn [referenceTableArrayIndex referenceTableIndex allocationTableIndex].
  pose proof block_needed as Hneed.
  destruct (ensure_table_ok s (n / allocationTableEntriesPerBlock s) Hwf ltac:(lia)) as (s1 & -> & A1 & Ht). mcbn.
  pose proof A1 as [W1 S1 E1 L1]. pose proof S1 as (_ & _ & _ & Se & _ & Sr).
  rewrite get_ref_ok by (done || (rewrite Sr; lia)). mcbn.
  pose proof (get_entry_ok s1 W1 (n / allocationTableEntriesPerBlock s) (n mod allocationTableEntriesPerBlock s)) as Hg.
  pose proof (set_entry_ok s1 W1 (n / allocationTableEntriesPerBlock s) (n mod allocationTableEntriesPerBlock s)) as Hset.
  rewrite Se, Sr, <- Hn, E1 in * by lia. destruct Hg as [-> Hr]; [lia|lia|done|]. mcbn.
  rewrite increment_ok by done. destruct (Z.ltb_spec (entry s n) (2 ^ 16 - 2)) as [Hlt|]; [|done]. mcbn.
  destruct (Hset ltac:(lia) ltac:(lia) Ht (entry s n + 2)) as (s2 & -> & Href & A2); [unfold in_u in *; lia|]. mcbn.
  exists s2. split.
  - do 2 f_equal. apply Hca. apply (same_trans s s1); [done|apply A2].
  - eapply after_trans; [exact A1|]. eapply after_ext; [exact A2| |].
    + rewrite Se, Sr. intros m Hm0 Hmr. destruct (decide (m = n)) as [->|]; [done|]. by apply E1.
    + rewrite Sr. intros j Hj. by apply L1.
Qed.

Lemma freeBlock_ok_table :
  entry s n <> 0 ->
  if 2 <=? entry s n then
    exists s', freeBlock a s = Ok s' /\
      after s s' (fun m => if decide (m = n) then entry s n - 2 else entry s m) (locked s)
  else freeBlock a s = Throw PAGING_ERROR.
Proof.
  intros Hnz. destruct block_range as (H1 & H2 & H3 & H4), block_index as [Hi Hca], block_number as [Hn Hm].
  assert (Ht : getAddress (ref s (n / allocationTableEntriesPerBlock s)) <> 0).
  { intros E. unfold entry in Hnz. by rewrite E in Hnz. }
  unfold freeBlock. rewrite Z.gtb_ltb. destruct (Z.ltb_spec (endAddress s) a); [lia|].
  rewrite Hi. mcbn. cbn [referenceTableArrayIndex referenceTableIndex allocationTableIndex].
  rewrite get_ref_ok by (done || lia). mcbn.
  pose proof (get_entry_ok s Hwf (n / allocationTableEntriesPerBlock s) (n mod allocationTableEntriesPerBlock s)) as Hg.
  pose proof (set_entry_ok s Hwf (n / allocationTableEntriesPerBlock s) (n mod allocationTableEntriesPerBlock s)) as Hset.
  rewrite <- Hn in *. destruct Hg as [-> Hr]; [lia|lia|done|]. mcbn.
  rewrite decrement_ok by done. destruct (Z.leb_spec 2 (entry s n)) as [Hlt|]; [|done]. mcbn.
  destruct (Hset ltac:(lia) ltac:(lia) Ht (entry s n - 2)) as (s2 & -> & Href & A2); [unfold in_u in *; lia|].
  exists s2. split; [done|exact A2].
Qed.

End block.

(** ** The search for a free block *)

Lemma address_of_parts s j k :
  wf s -> 0 <= (j * allocationTableEntriesPerBlock s + k) * blockSize s < 2 ^ 32 ->
  calculateAddress (mkIndex 0 j k) s = (j * allocationTableEntriesPerBlock s + k) * blockSize s.
Proof.
  intros [[G1 G2 G3 G4] _ _ _ _ _ _ _ _ _ _] Hr. unfold calculateAddress.
  cbn [referenceTableArrayIndex referenceTableIndex allocationTableIndex]. rewrite G3.
  match goal with |- u32 ?x = _ => replace x with ((j * allocationTableEntriesPerBlock s + k) * blockSize s) by ring end.
  unwrap; lia.
Qed.

(** Setting and clearing the lock of a reference entry. *)
Lemma lock_flags s j (b : bool) :
  wf s -> 0 <= j < referenceTableEntriesPerBlock s ->
  let v := if b then Z.setbit (ref s j) 2 else Z.clearbit (ref s j) 2 in
  after s (put_ref s j v) (entry s) (fun j' => if decide (j' = j) then b else locked s j') /\
  (forall j', 0 <= j' -> getAddress (ref (put_ref s j v) j') = getAddress (ref s j')).
Proof.
  intros Hwf Hj v. pose proof (ref_range s Hwf j Hj) as Hr.
  assert (in_u 32 v) by (unfold v; destruct b; [by apply setbit_range|by apply clearbit_range]).
  assert (getAddress v = getAddress (ref s j)) as Ha.
  { apply address_low_bits. intros i Hi. unfold v. destruct b; [apply Z.setbit_neq|apply Z.clearbit_neq]; lia. }
  split.
  - eapply after_ext; [by apply put_flags|done|]. intros j' Hj'. cbv beta. destruct (decide (j' = j)); [|done].
    unfold v. destruct b; [by apply Z.setbit_eq|apply Z.clearbit_eq].
  - intros j' Hj'. rewrite ref_put by done. by destruct (decide (j' = j)) as [->|].
Qed.

Lemma tryAcquire_free s j :
  wf s -> 0 <= j < referenceTableEntriesPerBlock s -> locked s j = false ->
  tryAcquireLock (ref s j) = Ok (true, Z.setbit (ref s j) 2).
Proof.
  intros Hwf Hj Hl. unfold tryAcquireLock.
  destruct (ref_bit_ops (ref s j) 2 (ref_range s Hwf j Hj) ltac:(lia)) as (_ & _ & -> & _). mcbn.
  unfold locked in Hl. by rewrite Hl.
Qed.

Lemma releaseLock_ok s j :
  wf s -> 0 <= j < referenceTableEntriesPerBlock s -> releaseLock (ref s j) = Ok (Z.clearbit (ref s j) 2).
Proof.
  intros Hwf Hj. unfold releaseLock.
  by destruct (ref_bit_ops (ref s j) 2 (ref_range s Hwf j Hj) ltac:(lia)) as (_ & -> & _).
Qed.

(** Taking the free block [k] of table [j], whose lock is held. *)
Lemma search_entry_ok s j k :
  wf s -> 0 <= j < referenceTableEntriesPerBlock s -> 0 <= k < allocationTableEntriesPerBlock s ->
  getAddress (ref s j) <> 0 ->
  let n := j * allocationTableEntriesPerBlock s + k in
  n * blockSize s < 2 ^ 32 ->
  if decide (entry s n = 0) then
    exists s', search_entry 0 j (getAddress (ref s j)) k s = Ok (Some (n * blockSize s), s') /\
      after s s' (fun m => if decide (m = n) then 2 else entry s m) (fun j' => if decide (j' = j) then false else locked s j')
  else search_entry 0 j (getAddress (ref s j)) k s = Ok (None, s).
Proof.
  intros Hwf Hj Hk Ht n Hn. destruct (get_entry_ok s Hwf j k Hj Hk Ht) as [Hg He]. fold n in Hg, He.
  unfold search_entry. rewrite Hg. mcbn. rewrite isReserved_ok by done. mcbn. rewrite useCount_free by done.
  destruct (decide (entry s n = 0)) as [E|E].
  2:{ destruct (Z.eqb_spec (entry s n) 0); [done|]. done. }
  rewrite E. cbn [Z.eqb negb]. rewrite (increment_ok 0 ltac:(split; done) : incrementUseCount 0 = Ok 2). mcbn.
  destruct (set_entry_ok s Hwf j k Hj Hk Ht 2) as (s1 & -> & Href & A1); [split; done|]. mcbn. fold n in A1.
  pose proof A1 as [W1 S1 E1 L1]. pose proof S1 as (_ & _ & Sb & Se & _ & Sr).
  rewrite get_ref_ok by (done || lia). mcbn. rewrite releaseLock_ok by (done || lia). mcbn.
  rewrite set_ref_ok by (done || lia). mcbn.
  destruct (lock_flags s1 j false W1) as [A2 _]; [lia|].
  eexists. split.
  - do 3 f_equal. unfold n. rewrite <- Sb, <- Se. change (calculateAddress (mkIndex 0 j k) s1 = (j * allocationTableEntriesPerBlock s1 + k) * blockSize s1).
    apply address_of_parts; [done|]. rewrite Se, Sb. fold n. destruct Hwf as [[] _ _ _ _ _ _ _ _ _ _]. unfold n in *. nia.
  - eapply after_trans; [exact A1|]. eapply after_ext; [exact A2| |].
    + rewrite Se, Sr. intros m Hm0 Hmr. by apply E1.
    + rewrite Sr. intros j' Hj'. cbv beta. destruct (decide (j' = j)); [done|]. by apply L1.
Qed.

(** The outcome of a search over the blocks [lo .. hi]: the first free block is
    taken, or there is none. *)
Definition found (s : TMM) (lo hi : Z) (r : option Z) (s' : TMM) : Prop :=
  match r with
  | Some a => exists n, lo <= n <= hi /\ entry s n = 0 /\ (forall m, lo <= m < n -> entry s m <> 0) /\
      a = n * blockSize s /\ after s s' (fun m => if decide (m = n) then 2 else entry s m) (locked s)
  | None => (forall m, lo <= m <= hi -> entry s m <> 0) /\ after s s' (entry s) (locked s)
  end.

Lemma search_table_ok s j k0 k1 :
  wf s -> 0 <= j < tables_needed s -> locked s j = false ->
  0 <= k0 -> k1 < allocationTableEntriesPerBlock s ->
  (j * allocationTableEntriesPerBlock s + k1) * blockSize s < 2 ^ 32 ->
  exists r s', search_table 0 j k0 k1 s = Ok (r, s') /\
    found s (j * allocationTableEntriesPerBlock s + k0) (j * allocationTableEntriesPerBlock s + k1) r s'.
Proof.
  intros Hwf Hjn Hl Hk0 Hk1 Hmax. assert (Hj : 0 <= j < referenceTableEntriesPerBlock s) by (destruct Hwf; unfold tables_needed in *; lia).
  unfold search_table. rewrite get_ref_ok by done. mcbn.
  rewrite tryAcquire_free by done. mcbn. rewrite set_ref_ok by done. mcbn.
  destruct (lock_flags s j true Hwf Hj) as [A1 Ga1]. set (s1 := put_ref s j _) in *.
  pose proof A1 as [W1 S1 E1 L1 _]. pose proof S1 as (_ & _ & Sb1 & Se1 & _ & Sr1).
  destruct (ensure_table_ok s1 j W1) as (s2 & -> & A2 & Ht2); [rewrite (same_needed s s1) by done; lia|]. mcbn.
  assert (A2' : after s s2 (entry s) (fun j' => if decide (j' = j) then true else locked s j')).
  { eapply after_trans; [exact A1|]. eapply after_ext; [exact A2| |].
    - rewrite Se1, Sr1. intros m Hm Hmr. by apply E1.
    - rewrite Sr1. intros j' Hj'. by rewrite L1. }
  clear A1 A2 E1 L1 Ga1 S1 W1 Se1 Sb1 Sr1 s1.
  pose proof A2' as [W2 S2 E2 L2]. pose proof S2 as (_ & _ & Sb & Se & _ & Sr).
  rewrite get_ref_ok by (done || lia). mcbn. pose proof Hwf as [[G1 G2 G3 G4] _ _ _ _ _ _ _ _ _ _].
  assert (Hin : forall k, k0 <= k <= k1 -> 0 <= j * allocationTableEntriesPerBlock s + k /\
     (j * allocationTableEntriesPerBlock s + k) / allocationTableEntriesPerBlock s < referenceTableEntriesPerBlock s).
  { intros k Hk. rewrite Z.div_add_l, (Z.div_small k) by lia. nia. }
  destruct (for_find_inv
    (fun k s' => s' = s2 /\ forall m, k0 <= m < k -> entry s (j * allocationTableEntriesPerBlock s + m) <> 0)
    (fun a s' => exists k, k0 <= k <= k1 /\ entry s (j * allocationTableEntriesPerBlock s + k) = 0 /\
       (forall m, k0 <= m < k -> entry s (j * allocationTableEntriesPerBlock s + m) <> 0) /\
       a = (j * allocationTableEntriesPerBlock s + k) * blockSize s /\
       after s2 s' (fun m => if decide (m = j * allocationTableEntriesPerBlock s + k) then 2 else entry s2 m)
         (fun j' => if decide (j' = j) then false else locked s2 j'))
    (search_entry 0 j (getAddress (ref s2 j))) (Z.to_nat (k1 - k0 + 1)) k0 s2) as (r & s3 & -> & Hr).
  - split; [done|]. lia.
  - intros k s' Hk [-> Hbefore]. pose proof (search_entry_ok s2 j k W2) as H. rewrite Se, Sr, Sb in H.
    specialize (H Hj ltac:(lia) Ht2). cbv zeta in H. specialize (H ltac:(nia)). destruct (Hin k) as [Hp1 Hp2]; [lia|].
    rewrite E2 in H by done. destruct (decide (entry s (j * allocationTableEntriesPerBlock s + k) = 0)) as [E0|E0].
    + destruct H as (s' & -> & A3). eexists _, _. split; [done|]. exists k. split_and!; [lia|lia|done|done|done|exact A3].
    + rewrite H. eexists _, _. split; [done|]. split; [done|]. intros m Hm.
      destruct (decide (m = k)) as [->|]; [done|]. apply Hbefore. lia.
  - mcbn. destruct r as [a|].
    + destruct Hr as (k & Hk & H0 & Hb & -> & A3). eexists _, _. split; [done|].
      exists (j * allocationTableEntriesPerBlock s + k). split_and!; [lia|lia|done| |done|].
      * intros m Hm. replace m with (j * allocationTableEntriesPerBlock s + (m - j * allocationTableEntriesPerBlock s)) by lia.
        apply Hb. lia.
      * eapply after_trans; [exact A2'|]. eapply after_ext; [exact A3| |].
        -- rewrite Se, Sr. intros m Hm Hmr. cbv beta. case_decide; [done|]. by apply E2.
        -- rewrite Sr. intros j' Hj'. cbv beta. case_decide as Ej; [by subst|]. rewrite L2 by done. by rewrite decide_False.
    + destruct Hr as [-> Hb]. rewrite get_ref_ok by (done || lia). mcbn. rewrite releaseLock_ok by (done || lia). mcbn.
      rewrite set_ref_ok by (done || lia). mcbn. destruct (lock_flags s2 j false W2) as [A3 _]; [lia|].
      eexists _, _. split; [done|]. split.
      * intros m Hm. replace m with (j * allocationTableEntriesPerBlock s + (m - j * allocationTableEntriesPerBlock s)) by lia.
        apply Hb. lia.
      * eapply after_trans; [exact A2'|]. eapply after_ext; [exact A3| |].
        -- rewrite Se, Sr. intros m Hm Hmr. by apply E2.
        -- rewrite Sr. intros j' Hj'. cbv beta. case_decide as Ej; [by subst|]. rewrite L2 by done. by rewrite decide_False.
Qed.

(** A search that found nothing so far, continued. *)
Lemma found_continue s s1 lo mid hi r s' :
  (forall m, lo <= m < mid -> entry s m <> 0) -> after s s1 (entry s) (locked s) ->
  lo <= mid -> 0 <= lo ->
  (forall m, mid <= m <= hi -> m / allocationTableEntriesPerBlock s < referenceTableEntriesPerBlock s) ->
  found s1 mid hi r s' -> found s lo hi r s'.
Proof.
  intros Hb A1 Hm Hlo Hr. pose proof A1 as [W1 S1 E1 L1]. pose proof S1 as (_ & _ & Sb & Se & _ & Sr).
  assert (Hlk : forall s2 f, after s1 s2 f (locked s1) -> after s s2 f (locked s)).
  { intros s2 f A2. eapply after_trans; [exact A1|]. eapply after_ext; [exact A2|done|]. rewrite Sr. apply L1. }
  destruct r as [a|]; cbn [found].
  - intros (n & Hn & H0 & Hbefore & -> & A2). exists n. rewrite E1 in H0 by (lia || (apply Hr; lia)). rewrite Sb.
    split_and!; [lia|lia|done| |done|].
    + intros m Hm'. destruct (decide (m < mid)); [apply Hb; lia|]. rewrite <- E1 by (lia || (apply Hr; lia)). apply Hbefore. lia.
    + apply Hlk in A2. eapply after_ext; [exact A2| |done]. intros m Hm0 Hmr. cbv beta. case_decide; [done|]. by apply E1.
  - intros [Hnone A2]. split.
    + intros m Hm'. destruct (decide (m < mid)); [apply Hb; lia|]. rewrite <- E1 by (lia || (apply Hr; lia)). apply Hnone. lia.
    + apply Hlk in A2. eapply after_ext; [exact A2| |done]. intros m Hm0 Hmr. by apply E1.
Qed.

(** The first free block at or behind [a], up to the block of [endAddress]. *)
Lemma allocateBlockAfterAddress_ok s a :
  wf s -> in_u 32 a -> (forall j, 0 <= j < referenceTableEntriesPerBlock s -> locked s j = false) ->
  exists r s', allocateBlockAfterAddress a s = Ok (default 0 r, s') /\
    found s (a / blockSize s) (endAddress s / blockSize s) r s'.
Proof.
  intros Hwf Ha Hunl. pose proof Hwf as [G _ _ _ En C _ _ _ _ _]. pose proof G as [G1 G2 G3 G4].
  unfold allocateBlockAfterAddress. rewrite !calculateIndex_ok by done. mcbn.
  set (n0 := a / blockSize s). set (n1 := endAddress s / blockSize s) in *.
  set (epb := allocationTableEntriesPerBlock s) in *. set (refs := referenceTableEntriesPerBlock s) in *.
  unfold in_u in *. assert (0 <= n0 /\ 0 <= n1) as [Hn0 Hn1] by (split; apply Z.div_pos; lia).
  assert (0 <= n0 / epb /\ 0 <= n1 / epb) as [Hj0 Hj1] by (split; apply Z.div_pos; lia).
  pose proof (Z.div_mod n0 epb ltac:(lia)) as D0. pose proof (Z.mod_pos_bound n0 epb ltac:(lia)) as M0.
  pose proof (Z.div_mod n1 epb ltac:(lia)) as D1. pose proof (Z.mod_pos_bound n1 epb ltac:(lia)) as M1.
  pose proof (Z.mul_div_le (endAddress s) (blockSize s) G1) as Hend. fold n1 in Hend.
  unfold index_of. cbn [referenceTableArrayIndex referenceTableIndex allocationTableIndex].
  fold epb refs. rewrite (Z.div_small (n1 / epb)), (Z.mod_small (n1 / epb)) by lia.
  assert (Hcov : forall m, m <= n1 -> m / epb < refs).
  { intros m Hm. eapply Z.le_lt_trans; [apply Z.div_le_mono; [done|exact Hm]|done]. }
  assert (Hself : after s s (entry s) (locked s)) by (split; [done|apply same_refl|done|done|apply grows_refl]).
  assert (Hnone : n1 < n0 -> found s n0 n1 None s) by (intros; split; [lia|done]).
  destruct (decide (n0 / epb < refs)) as [Hlt|Hge].
  2:{ assert (1 <= n0 / epb / refs) by (apply Z.div_le_lower_bound; lia).
      assert (n1 < n0) by (pose proof (Hcov n0); lia).
      exists None, s. split; [|auto]. rewrite (Z2Nat.nonpos (0 - n0 / epb / refs + 1)) by lia. done. }
  rewrite (Z.div_small (n0 / epb)), (Z.mod_small (n0 / epb)) by lia.
  change (Z.to_nat (0 - 0 + 1)) with 1%nat. cbn [for_find]. rewrite !Z.eqb_refl.
  destruct (for_find_inv
    (fun j s' => after s s' (entry s) (locked s) /\ (forall m, n0 <= m <= n1 -> m < j * epb -> entry s m <> 0))
    (fun x s' => found s n0 n1 (Some x) s')
    (fun j s' =>
       search_table 0 j (if j =? n0 / epb then n0 mod epb else 0)
         (if j =? n1 / epb then n1 mod epb else allocationTableEntriesPerBlock s' - 1) s')
    (Z.to_nat (n1 / epb - n0 / epb + 1)) (n0 / epb) s) as (r & s' & -> & Hr).
  - split; [done|]. nia.
  - intros j s1 Hj [A1 Hb]. pose proof A1 as [W1 S1 E1 L1]. pose proof S1 as (_ & _ & Sb & Se & _ & Sr).
    rewrite Se. fold epb.
    set (k0 := if j =? n0 / epb then n0 mod epb else 0). set (k1 := if j =? n1 / epb then n1 mod epb else epb - 1).
    assert (Hk : 0 <= k0 /\ k1 < epb /\ j * epb + k1 <= n1 /\ n0 <= j * epb + k0 /\
       (j * epb + k1 = n1 \/ j * epb + k1 = (j + 1) * epb - 1) /\ (j * epb + k0 = n0 \/ k0 = 0)).
    { unfold k0, k1. destruct (Z.eqb_spec j (n0 / epb)), (Z.eqb_spec j (n1 / epb)); subst; split_and!; nia. }
    destruct Hk as (K1 & K2 & K3 & K4 & K5 & K6).
    destruct (search_table_ok s1 j k0 k1 W1) as (r & s2 & -> & Hf).
    + rewrite (same_needed s s1) by done. unfold tables_needed. fold n1 epb. lia.
    + rewrite L1; [apply Hunl; fold refs; lia|fold refs; lia].
    + done.
    + by rewrite Se.
    + rewrite Se, Sb. fold epb. nia.
    + exists r, s2. split; [done|]. rewrite Se in Hf. fold epb in Hf.
      assert (Hf' : found s n0 (j * epb + k1) r s2).
      { eapply found_continue; [|exact A1|exact K4|done| |exact Hf].
        - intros m Hm. apply Hb; [|destruct K6; [lia|nia]]. destruct K6; nia.
        - intros m Hm. apply Hcov. lia. }
      destruct r as [x|].
      * destruct Hf' as (n & Hn & Hrest). exists n. split; [lia|done].
      * destruct Hf' as [Hnn A2]. split; [done|]. intros m Hm Hlt'. apply Hnn. destruct K5; lia.
  - mcbn. destruct r as [x|]; [exists (Some x), s'; split; [done|exact Hr]|].
    destruct Hr as [A2 Hnn]. mcbn. exists None, s'. split; [done|]. split; [|done]. intros m Hm. apply Hnn; [done|]. nia.
Qed.

(** ** Marking a range of memory *)

(** Entries [lo .. hi] hold [e], the others are those of [s]. *)
Definition marked (s : TMM) (lo hi e : Z) (n : Z) : Z := if decide (lo <= n <= hi) then e else entry s n.

Lemma mark_entries_ok s useCount reserved j k0 k1 :
  wf s -> 0 <= j < referenceTableEntriesPerBlock s -> getAddress (ref s j) <> 0 ->
  0 <= k0 -> k1 < allocationTableEntriesPerBlock s ->
  exists s', for_up (Z.to_nat (k1 - k0 + 1)) k0 (mark_entry useCount reserved (getAddress (ref s j))) s = Ok s' /\
    (forall j', ref s' j' = ref s j') /\
    after s s' (marked s (j * allocationTableEntriesPerBlock s + k0) (j * allocationTableEntriesPerBlock s + k1) (mk_entry useCount reserved)) (locked s).
Proof.
  intros Hwf Hj Ht Hk0 Hk1.
  destruct (for_up_inv (fun k s' => (forall j', ref s' j' = ref s j') /\
     after s s' (marked s (j * allocationTableEntriesPerBlock s + k0) (j * allocationTableEntriesPerBlock s + k - 1) (mk_entry useCount reserved)) (locked s))
    (mark_entry useCount reserved (getAddress (ref s j))) (Z.to_nat (k1 - k0 + 1)) k0 s) as (s' & H1 & H2 & H3).
  - split; [done|]. split; [done|apply same_refl| |done|apply grows_refl]. intros n Hn _. unfold marked. rewrite decide_False by lia. done.
  - intros k s1 Hk [Href A1]. pose proof A1 as [W1 S1 E1 L1]. pose proof S1 as (_ & _ & _ & Se & _ & Sr).
    unfold mark_entry. pose proof (get_entry_ok s1 W1 j k) as Hg. pose proof (set_entry_ok s1 W1 j k) as Hs.
    rewrite Sr, Se, Href in *. destruct (Hg Hj ltac:(lia) Ht) as [-> Hr]. mcbn.
    pose proof (set_entry_value useCount reserved _ Hr) as Hv.
    destruct (setReserved _ _) as [e1| | |]; [|done..]. mcbn. cbn [mbind outcome_bind] in Hv. rewrite Hv. mcbn.
    destruct (Hs Hj ltac:(lia) Ht (mk_entry useCount reserved)) as (s2 & -> & Href2 & A2); [apply mk_entry_range|].
    eexists. split; [done|]. split; [intros; by rewrite Href2|]. eapply after_trans; [exact A1|].
    eapply after_ext; [exact A2| |by rewrite Sr].
    rewrite Se, Sr. intros n Hn Hc. cbv beta. rewrite E1 by done. unfold marked. repeat case_decide; (done || lia).
  - exists s'. split; [done|]. split; [done|]. eapply after_ext; [exact H3| |done].
    intros n Hn Hc. unfold marked. destruct (decide (k1 < k0)).
    + rewrite !decide_False by lia. done.
    + replace (k0 + Z.of_nat (Z.to_nat (k1 - k0 + 1))) with (k1 + 1) by lia. repeat case_decide; (done || lia).
Qed.

Lemma mark_table_ok s useCount reserved j k0 k1 :
  wf s -> 0 <= j < tables_needed s -> locked s j = false ->
  0 <= k0 -> k1 < allocationTableEntriesPerBlock s ->
  exists s', mark_table useCount reserved 0 j k0 k1 s = Ok s' /\
    after s s' (marked s (j * allocationTableEntriesPerBlock s + k0) (j * allocationTableEntriesPerBlock s + k1) (mk_entry useCount reserved)) (locked s).
Proof.
  intros Hwf Hjn Hl Hk0 Hk1. assert (Hj : 0 <= j < referenceTableEntriesPerBlock s) by (destruct Hwf; unfold tables_needed in *; lia).
  unfold mark_table. rewrite get_ref_ok by done. mcbn. cbn [acquireLock].
  rewrite tryAcquire_free by done. mcbn. rewrite set_ref_ok by done. mcbn.
  destruct (lock_flags s j true Hwf Hj) as [A1 _]. set (s1 := put_ref s j _) in *.
  pose proof A1 as [W1 S1 E1 L1]. pose proof S1 as (_ & _ & _ & Se1 & _ & Sr1).
  destruct (ensure_table_ok s1 j W1) as (s2 & -> & A2 & Ht2); [rewrite (same_needed s s1) by done; lia|]. mcbn.
  pose proof A2 as [W2 S2 E2 L2]. pose proof S2 as (_ & _ & _ & Se2 & _ & Sr2). rewrite Se1, Sr1 in *.
  rewrite get_ref_ok by (done || lia). mcbn.
  destruct (mark_entries_ok s2 useCount reserved j k0 k1 W2) as (s3 & -> & Href & A3); [lia|done|done|lia|]. mcbn.
  pose proof A3 as [W3 S3 E3 L3]. pose proof S3 as (_ & _ & _ & Se3 & _ & Sr3). rewrite Se2, Sr2 in *.
  rewrite get_ref_ok by (done || lia). mcbn. rewrite releaseLock_ok by (done || lia). mcbn.
  rewrite set_ref_ok by (done || lia). destruct (lock_flags s3 j false W3) as [A4 _]; [lia|].
  eexists. split; [done|].
  eapply after_trans; [exact A1|]. eapply after_trans; [exact A2|]. eapply after_trans; [exact A3|].
  eapply after_ext; [exact A4| |]; rewrite ?Se3, Sr3.
  - intros n Hn Hc. rewrite E3 by done. unfold marked. case_decide; [done|]. rewrite E2 by done. by apply E1.
  - intros j' Hj'. cbv beta. case_decide as Ej; [by subst|]. rewrite L3, L2, L1 by done. by rewrite decide_False.
Qed.

(** Every block from the one of [start] to the one of [end_] gets the use count
    and the flag; no other block changes. *)
Lemma setMemory_ok s start end_ useCount reserved :
  wf s -> 0 <= start <= end_ -> end_ <= endAddress s ->
  (forall j, 0 <= j < referenceTableEntriesPerBlock s -> locked s j = false) ->
  exists s', setMemory start end_ useCount reserved s = Ok s' /\
    after s s' (marked s (start / blockSize s) (end_ / blockSize s) (mk_entry useCount reserved)) (locked s).
Proof.
  intros Hwf Hse He Hunl. pose proof Hwf as [G _ _ _ En C _ _ _ _ _]. pose proof G as [G1 G2 G3 G4].
  unfold in_u in En. unfold setMemory.
  destruct (block_index s Hwf start ltac:(lia)) as [-> _], (block_index s Hwf end_ ltac:(lia)) as [-> _]. mcbn.
  destruct (block_range s Hwf start ltac:(lia)) as (R1 & R2 & _ & R4), (block_range s Hwf end_ ltac:(lia)) as (T1 & T2 & _ & T4).
  destruct (block_number s Hwf start) as [D0 M0], (block_number s Hwf end_) as [D1 M1].
  assert (Hle : start / blockSize s <= end_ / blockSize s) by (apply Z.div_le_mono; lia).
  set (n0 := start / blockSize s) in *. set (n1 := end_ / blockSize s) in *.
  set (epb := allocationTableEntriesPerBlock s) in *. set (refs := referenceTableEntriesPerBlock s) in *.
  cbn [referenceTableArrayIndex referenceTableIndex allocationTableIndex].
  change (Z.to_nat (0 - 0 + 1)) with 1%nat. cbn [for_up]. rewrite !Z.eqb_refl.
  assert (Hjle : n0 / epb <= n1 / epb) by (apply Z.div_le_mono; lia).
  destruct (for_up_inv
    (fun j s' => after s s' (marked s n0 (Z.min n1 (j * epb - 1)) (mk_entry useCount reserved)) (locked s))
    (fun j s' => mark_table useCount reserved 0 j (if j =? n0 / epb then n0 mod epb else 0)
         (if j =? n1 / epb then n1 mod epb else allocationTableEntriesPerBlock s' - 1) s')
    (Z.to_nat (n1 / epb - n0 / epb + 1)) (n0 / epb) s) as (s' & Hs' & Hr).
  - split; [done|apply same_refl| |done|apply grows_refl]. intros n Hn _. unfold marked. rewrite decide_False by nia. done.
  - intros j s1 Hj A1. pose proof A1 as [W1 S1 E1 L1]. pose proof S1 as (_ & _ & _ & Se & _ & Sr).
    fold epb refs in Se, Sr, E1, L1. rewrite Se.
    set (k0 := if j =? n0 / epb then n0 mod epb else 0). set (k1 := if j =? n1 / epb then n1 mod epb else epb - 1).
    assert (Hk : 0 <= k0 /\ k1 < epb /\ j * epb + k1 = Z.min n1 ((j + 1) * epb - 1) /\ j * epb + k0 = Z.max n0 (j * epb)).
    { unfold k0, k1. destruct (Z.eqb_spec j (n0 / epb)), (Z.eqb_spec j (n1 / epb)); subst; split_and!; nia. }
    destruct Hk as (K1 & K2 & K3 & K4).
    pose proof (block_needed s Hwf end_ ltac:(lia)) as Hneed. fold n1 epb in Hneed.
    destruct (mark_table_ok s1 useCount reserved j k0 k1 W1) as (s2 & -> & A2); [rewrite (same_needed s s1) by done; lia|rewrite L1 by lia; apply Hunl; lia|done|by rewrite Se|].
    eexists. split; [done|]. eapply after_trans; [exact A1|]. eapply after_ext; [exact A2| |rewrite Sr; apply L1].
    rewrite Se, Sr, K3, K4. intros n Hn Hc. unfold marked. rewrite E1 by done. unfold marked. repeat case_decide; (done || nia).
  - exists s'. split.
    + apply bind_ok. exists s'. split; [exact Hs'|done].
    + eapply after_ext; [exact Hr| |done]. intros n Hn Hc. unfold marked.
      replace (n0 / epb + Z.of_nat (Z.to_nat (n1 / epb - n0 / epb + 1))) with (n1 / epb + 1) by lia.
      repeat case_decide; (done || nia).
Qed.

(** ** Construction *)

Definition unlocked (s : TMM) : Prop := forall j, 0 <= j < referenceTableEntriesPerBlock s -> locked s j = false.

(** A fresh reference table: no entry has an address or is locked. *)
Lemma init_row_ok i n count :
  0 <= n -> exists row, init_row i n count = Ok row /\ zlen row = n /\ Forall (fun v => v = 0 \/ v = 8) row.
Proof.
  intros Hn. unfold init_row.
  match goal with |- context [for_up ?k 0 ?body ?init] =>
    destruct (for_up_inv (fun _ row => zlen row = n /\ Forall (fun v => v = 0 \/ v = 8) row) body k 0 init)
      as (row & -> & H1 & H2) end; [| |eauto].
  - unfold zlen. rewrite length_replicate. split; [lia|]. apply Forall_replicate. by left.
  - intros j row Hj [Hl Hf]. destruct (aget_in row j) as (v & -> & Hv); [lia|]. mcbn.
    pose proof (Forall_lookup_1 _ _ _ _ Hf Hv) as Hv01. cbv beta in Hv01.
    assert (setAddress 1 0 v = Ok v) as ->.
    { by destruct Hv01 as [-> | ->]. }
    mcbn. assert (exists v', setInstalled (u32 (i * n + j) <? count) v = Ok v' /\ (v' = 0 \/ v' = 8)) as (v' & -> & Hv').
    { destruct Hv01 as [-> | ->], (u32 (i * n + j) <? count); vm_compute; eauto. }
    mcbn. rewrite aset_in by lia. eexists. split; [done|]. rewrite zlen_insert. split; [done|]. by apply Forall_insert.
Qed.

(** The kernel's configuration: tables and frames of 4 KiB, memory from address
    0 to [end_]. *)
Lemma TableMemoryManager_new_ok m end_ :
  pts_ok m -> end_ / 4096 / 2048 + 2 <= Z.of_nat (pts_available m) ->
  4095 <= end_ < 2 ^ 32 - 1 ->
  exists s, TableMemoryManager_new m 0 end_ 4096 = Ok s /\ wf s /\ unlocked s /\ (forall n, entry s n = 0) /\
    startAddress s = 0 /\ endAddress s = end_ /\ blockSize s = 4096 /\
    pts_owned m ⊆ pts_owned (bitmapMemoryManager s) /\ (pts_available m = S (pts_available (bitmapMemoryManager s)))%nat /\ pts_end (bitmapMemoryManager s) = pts_end m /\
    (forall j, getAddress (ref s j) = 0) /\ Z.of_nat (todo s) <= end_ / 4096 / 2048 + 1.
Proof.
  intros Wm Hsz He. unfold TableMemoryManager_new. rewrite (pts_block_size m Wm).
  replace (u32 (end_ - 0 + 1)) with (end_ + 1) by (unwrap; lia). rewrite udiv_ok by done. mcbn.
  assert (1 <= (end_ + 1) / 4096 <= 1048575) as Hc by (Z.to_euclidean_division_equations; lia).
  rewrite umod_ok by lia. mcbn. set (bc := if negb ((end_ + 1) mod _ =? 0) then _ else _).
  assert (1 <= bc <= 1048576) as Hbc by (unfold bc; destruct (_ =? 0); cbn [negb]; unwrap; lia).
  change (4096 <? MIN_BITMAP_BLOCK_SIZE) with false. cbv iota.
  replace (u32 (bc * 2)) with (bc * 2) by (unwrap; lia). set (count := if negb (bc * 2 mod 4096 =? 0) then u32 _ else _).
  assert (1 <= count <= 1024) as Hcount.
  { unfold count. pose proof (Z.div_mod (bc * 2) 4096 ltac:(done)). pose proof (Z.mod_pos_bound (bc * 2) 4096 eq_refl).
    destruct (Z.eqb_spec (bc * 2 mod 4096) 0); cbn [negb]; unwrap; lia. }
  change (4096 / 4) with 1024. set (rows := if negb (count mod 1024 =? 0) then u32 _ else _).
  assert (rows = 1) as ->.
  { unfold rows. pose proof (Z.div_mod count 1024 ltac:(done)). pose proof (Z.mod_pos_bound count 1024 eq_refl).
    destruct (Z.eqb_spec (count mod 1024) 0); cbn [negb]; unwrap; lia. }
  change (Z.to_nat 1) with 1%nat. cbn [for_up].
  assert (Hl0 : 0 <= end_ / 4096 / 2048) by (Z.to_euclidean_division_equations; lia).
  destruct (pts_allocate_total m Wm) as (a & m' & Ea); [lia|]. rewrite Ea. mcbn.
  destruct (pts_allocate_law _ _ _ Wm Ea) as (Wm' & _ & Uall & Ha0 & _ & Hav & Hend). destruct (Z.eqb_spec a 0); [lia|].
  destruct (init_row_ok 0 1024 count) as (r & -> & Hl & Hf); [lia|]. mcbn.
  eexists. split; [done|]. set (s := mkTable _ _ _ _ _ _ _ _ _ _ _).
  assert (Href : forall j, ref s j = 0 \/ ref s j = 8).
  { intros j. unfold ref. change (row s) with r. destruct (r !! Z.to_nat j) eqn:E; [|by left]. exact (Forall_lookup_1 _ _ _ _ Hf E). }
  assert (Hadr0 : forall j, getAddress (ref s j) = 0) by (intros j; by destruct (Href j) as [-> | ->]).
  assert (Htodo : Z.of_nat (todo s) <= end_ / 4096 / 2048 + 1).
  { unfold todo. pose proof (length_filter (fun v => getAddress v = 0) (take (Z.to_nat (tables_needed s)) (row s))) as Hle.
    rewrite length_take in Hle. change (tables_needed s) with (end_ / 4096 / 2048 + 1) in *. lia. }
  split; [|split; [|split; [|split_and!; try done; cbn [bitmapMemoryManager s]; set_solver]]].
  - split; try done; try (intros j *; by rewrite Hadr0); cbn [s endAddress blockSize allocationTableEntriesPerBlock referenceTableEntriesPerBlock bitmapMemoryManager].
    + eapply Forall_impl; [exact Hf|]. intros v [-> | ->]; split; done.
    + unfold in_u. lia.
    + Z.to_euclidean_division_equations; lia.
    + lia.
  - intros j _. unfold locked. by destruct (Href j) as [-> | ->].
  - intros n'. unfold entry. by rewrite Hadr0.
Qed.
End proofs.
