(* ===== verification/PageFrameAllocator.v ===== *)
(** * PageFrameAllocator.v: page frames

    [kernel/memory/PageFrameAllocator]: a [TableMemoryManager] for physical
    memory in frames of 4 KiB, which prefers frames above 16 MiB. The theorems
    about use counts and reserved ranges are stated here, on the same tables;
    they are instantiated with tables that come from a [PagingAreaManager]. *)

From S2P Require Import Atomic AtomicBitmap Address BitmapMemoryManager Pool PagingAreaManager TableMemoryManager Prelude.
Import ReferenceTableEntry AllocationTableEntry.

Section frames.
Context {M : Type} {HM : PageTableSupply M}.
Notation TMM := (TableMemoryManager (M := M)).

(** [Device::Isa::MAX_DMA_ADDRESS] and the end of the kernel image. *)
Definition MAX_DMA_ADDRESS : Z := 16 * 1024 * 1024.

Definition PageFrameAllocator_allocateBlock (KERNEL_DATA_END : Z) (s : TMM) : outcome (Z * TMM) :=
  '(ret, s) ← allocateBlockAfterAddress MAX_DMA_ADDRESS s;
  if ret =? 0 then
    '(ret, s) ← allocateBlockAfterAddress KERNEL_DATA_END s;
    if ret =? 0 then allocateBlock s else Ok (ret, s)
  else Ok (ret, s).


Lemma after_unlocked s s' f : unlocked s -> after s s' f (locked s) -> unlocked s'.
Proof. intros Hu [_ S _ L] j Hj. destruct S as (_ & _ & _ & _ & _ & Sr). rewrite Sr in Hj. rewrite L by done. by apply Hu. Qed.

(** The state after a search, in terms of the blocks of the managed memory. *)
Lemma found_frame s lo hi r s' :
  wf s -> unlocked s -> hi <= endAddress s / blockSize s -> entry s 0 <> 0 -> 0 <= lo -> found s lo hi r s' ->
  wf s' /\ unlocked s' /\ same s s' /\ grows s s' /\
  match r with
  | Some a => exists n, 0 < n /\ lo <= n <= hi /\ entry s n = 0 /\ a = n * blockSize s /\ a <> 0 /\
      (forall m, 0 <= m <= endAddress s / blockSize s -> entry s' m = if decide (m = n) then 2 else entry s m)
  | None => (forall m, lo <= m <= hi -> entry s m <> 0) /\
      (forall m, 0 <= m <= endAddress s / blockSize s -> entry s' m = entry s m)
  end.
Proof.
  intros Hwf Hu Hhi H0 Hlo. pose proof Hwf as [[G1 G2 G3 G4] _ _ _ _ C _ _ _ _ _].
  assert (Hcov : forall m, 0 <= m <= endAddress s / blockSize s -> m / allocationTableEntriesPerBlock s < referenceTableEntriesPerBlock s).
  { intros m Hm. eapply Z.le_lt_trans; [|exact C]. apply Z.div_le_mono; lia. }
  destruct r as [a|]; cbn [found].
  - intros (n & Hn & Hfree & _ & -> & A). assert (n <> 0) by (by intros ->).
    split; [apply A|]. split; [by eapply after_unlocked|]. split; [apply A|]. split; [apply A|]. exists n. split_and!; try done; try lia.
    intros m Hm. apply (after_entry _ _ _ _ A); [lia|]. apply Hcov. lia.
  - intros [Hnone A]. split; [apply A|]. split; [by eapply after_unlocked|]. split; [apply A|]. split; [apply A|]. split; [done|].
    intros m Hm. apply (after_entry _ _ _ _ A); [lia|]. apply Hcov. lia.
Qed.

(** Where [allocateBlock] of the page frame allocator finds its frame. *)
Lemma PageFrameAllocator_ok s KERNEL_DATA_END :
  wf s -> unlocked s -> startAddress s = 0 -> in_u 32 KERNEL_DATA_END -> entry s 0 <> 0 ->
  let last := endAddress s / blockSize s in
  exists a s', PageFrameAllocator_allocateBlock KERNEL_DATA_END s = Ok (a, s') /\ wf s' /\ unlocked s' /\ same s s' /\ grows s s' /\
    ((exists n, 0 < n <= last /\ entry s n = 0 /\ a = n * blockSize s /\
        (forall m, 0 <= m <= last -> entry s' m = if decide (m = n) then 2 else entry s m) /\
        (n < MAX_DMA_ADDRESS / blockSize s -> forall m, MAX_DMA_ADDRESS / blockSize s <= m <= last -> entry s m <> 0)) \/
     (a = 0 /\ forall m, 0 <= m <= last -> entry s m <> 0 /\ entry s' m = entry s m)).
Proof.
  intros Hwf Hu Hst HK H0 last. unfold PageFrameAllocator_allocateBlock.
  assert (Hnn : forall a, in_u 32 a -> forall s, wf s -> 0 <= a / blockSize s).
  { intros a Ha s1 [[] _ _ _ _ _ _ _ _ _ _]. unfold in_u in Ha. apply Z.div_pos; lia. }
  destruct (allocateBlockAfterAddress_ok s MAX_DMA_ADDRESS) as (r1 & s1 & -> & F1); [done|split; done|done|]. mcbn.
  apply found_frame in F1 as (W1 & U1 & S1 & Gr1 & F1); [|done|done|done|done|by apply Hnn].
  destruct r1 as [a1|]; cbn [from_option id].
  { destruct F1 as (n & Hn & Hn' & Hf & -> & Hnz & He). destruct (Z.eqb_spec (n * blockSize s) 0); [done|].
    eexists _, _. split; [done|]. split; [done|]. split; [done|]. split; [done|]. split; [done|]. left. exists n. split_and!; try done; try lia. }
  destruct F1 as [N1 E1]. rewrite Z.eqb_refl. pose proof S1 as (Sst & Sen & Sb & _).
  pose proof Hwf as [[G1 _ _ _] _ _ _ En _ _ _ _ _ _].
  assert (0 <= last) by (unfold in_u in En; apply Z.div_pos; lia).
  assert (H01 : entry s1 0 <> 0) by (rewrite E1 by lia; done).
  destruct (allocateBlockAfterAddress_ok s1 KERNEL_DATA_END) as (r2 & s2 & -> & F2); [done|done|done|]. mcbn.
  apply found_frame in F2 as (W2 & U2 & S2 & Gr2 & F2); [|done|done|done|done|by apply Hnn].
  rewrite Sen, Sb in F2. fold last in F2.
  destruct r2 as [a2|]; cbn [from_option id].
  { destruct F2 as (n & Hn & Hn' & Hf & -> & Hnz & He). destruct (Z.eqb_spec (n * blockSize s) 0); [done|].
    rewrite E1 in Hf by lia. eexists _, _. split; [done|]. split; [done|]. split; [done|]. split; [by apply (same_trans s s1)|]. split; [by apply (grows_trans s s1)|]. left. exists n.
    split_and!; try done; try lia. intros m Hm. rewrite He by done. case_decide; [done|]. by apply E1. }
  destruct F2 as [N2 E2]. rewrite Z.eqb_refl. pose proof S2 as (Sst2 & Sen2 & Sb2 & _).
  assert (H02 : entry s2 0 <> 0) by (rewrite E2 by lia; done).
  unfold allocateBlock. rewrite Sst2, Sst, Hst.
  destruct (allocateBlockAfterAddress_ok s2 0) as (r3 & s3 & -> & F3); [done|split; done|done|].
  apply found_frame in F3 as (W3 & U3 & S3 & Gr3 & F3); [|done|done|done|done|by apply Hnn].
  rewrite Sen2, Sb2, Sen, Sb in F3. fold last in F3. change (0 / blockSize s) with 0 in F3.
  assert (S12 : same s s2) by (by apply (same_trans s s1)).
  eexists _, _. split; [done|]. split; [done|]. split; [done|]. split; [by apply (same_trans s s2)|]. split; [apply (grows_trans s s2); [done|by apply (grows_trans s s1)|done]|]. destruct r3 as [a3|]; cbn [from_option id].
  - destruct F3 as (n & Hn & Hn' & Hf & -> & Hnz & He). left. exists n.
    rewrite E2, E1 in Hf by lia. split_and!; try done; try lia. intros m Hm. rewrite He by done. case_decide; [done|].
    by rewrite E2, E1.
  - destruct F3 as [N3 E3]. right. split; [done|]. intros m Hm. split.
    + rewrite <- E1, <- E2 by done. by apply N3.
    + by rewrite E3, E2, E1.
Qed.

(** C29: allocateBlock hands out a frame that was free (never frame 0 when that
    is reserved), sets its use count to one and changes no other entry,
    prefers frames above 16 MiB, and returns the null pointer only when
    every frame is in use. *)
Theorem PageFrameAllocator_spec s KERNEL_DATA_END :
  wf s -> unlocked s -> startAddress s = 0 -> in_u 32 KERNEL_DATA_END -> entry s 0 <> 0 ->
  let last := endAddress s / blockSize s in
  exists a s', PageFrameAllocator_allocateBlock KERNEL_DATA_END s = Ok (a, s') /\ wf s' /\ unlocked s' /\
    ((exists n, 0 < n <= last /\ entry s n = 0 /\ a = n * blockSize s /\
        (forall m, 0 <= m <= last -> entry s' m = if decide (m = n) then 2 else entry s m) /\
        (n < MAX_DMA_ADDRESS / blockSize s -> forall m, MAX_DMA_ADDRESS / blockSize s <= m <= last -> entry s m <> 0)) \/
     (a = 0 /\ forall m, 0 <= m <= last -> entry s m <> 0 /\ entry s' m = entry s m)).
Proof.
  intros Hwf Hu Hst HK H0 last. destruct (PageFrameAllocator_ok s KERNEL_DATA_END Hwf Hu Hst HK H0) as (a & s' & E & W & U & _ & _ & H). by exists a, s'.
Qed.

(** Allocating the frame of an address adds one to its use count and keeps
    its reserved flag, freeing it takes one away, and both together leave
    every entry as it was. *)
Theorem frame_use_count s a :
  wf s -> 0 <= a <= endAddress s -> entry s (a / blockSize s) < 2 ^ 16 - 2 ->
  let n := a / blockSize s in
  exists s' s'', allocateBlockAtAddress a s = Ok (n * blockSize s, s') /\ freeBlock a s' = Ok s'' /\ wf s'' /\
    getUseCount (entry s' n) = getUseCount (entry s n) + 1 /\ isReserved (entry s' n) = isReserved (entry s n) /\
    (forall m, 0 <= m <= endAddress s / blockSize s -> entry s'' m = entry s m /\ (m <> n -> entry s' m = entry s m)).
Proof.
  intros Hwf Ha Hmax n. pose proof Hwf as [[G1 G2 G3 G4] _ _ _ _ C _ _ _ _ _].
  assert (Hcov : forall m, 0 <= m <= endAddress s / blockSize s ->
     0 <= m /\ m / allocationTableEntriesPerBlock s < referenceTableEntriesPerBlock s).
  { intros m Hm. split; [lia|]. eapply Z.le_lt_trans; [|exact C]. apply Z.div_le_mono; lia. }
  assert (0 <= n <= endAddress s / blockSize s) as Hn by (split; [apply Z.div_pos|apply Z.div_le_mono]; lia).
  destruct (Hcov n Hn) as [Hn0 Hnr].
  pose proof (entry_range s Hwf n Hn0 Hnr) as Hr.
  pose proof (allocateBlockAtAddress_ok s Hwf a Ha) as H. fold n in H, Hmax. destruct (Z.ltb_spec (entry s n) (2 ^ 16 - 2)); [|lia].
  destruct H as (s1 & E1 & A1). pose proof A1 as [W1 S1 En1 L1]. pose proof S1 as (_ & Sen & Sb & Se & _ & Sr).
  pose proof (freeBlock_ok_table s1 W1 a) as H. rewrite Sen, Sb in H. fold n in H. specialize (H Ha).
  rewrite En1, decide_True in H by done. unfold in_u in Hr. destruct (Z.leb_spec 2 (entry s n + 2)); [|lia].
  destruct H as (s2 & E2 & A2); [lia|]. pose proof A2 as [W2 S2 En2 L2]. rewrite Se, Sr in En2.
  exists s1, s2. split; [done|]. split; [done|]. split; [done|]. rewrite (En1 n), decide_True by done.
  split_and!.
  - unfold getUseCount, get. rewrite !Z.shiftr_div_pow2 by done. change (2 ^ 1) with 2.
    replace (entry s n + 2) with (entry s n + 1 * 2) by lia. by rewrite Z.div_add.
  - rewrite !isReserved_ok by (unfold in_u; lia). f_equal. rewrite Z.odd_add. by destruct (Z.odd (entry s n)).
  - intros m Hm. destruct (Hcov m Hm) as [Hm0 Hmr]. rewrite En2, !En1 by done. split; [|intros Hne].
    + destruct (decide (m = n)) as [->|]; [lia|done].
    + by rewrite decide_False.
Qed.

(** SetMemory gives every block from that of start to that of end the use
    count and the reserved flag and leaves every other block alone. *)
Theorem setMemory_spec s start end_ useCount reserved :
  wf s -> unlocked s -> 0 <= start <= end_ -> end_ <= endAddress s -> 0 <= useCount < 2 ^ 15 ->
  exists s', setMemory start end_ useCount reserved s = Ok s' /\ wf s' /\ unlocked s' /\
    forall n, 0 <= n <= endAddress s / blockSize s ->
      if decide (start / blockSize s <= n <= end_ / blockSize s)
      then getUseCount (entry s' n) = useCount /\ isReserved (entry s' n) = Ok reserved
      else entry s' n = entry s n.
Proof.
  intros Hwf Hu Hse He Huc. destruct (setMemory_ok s start end_ useCount reserved Hwf Hse He Hu) as (s' & -> & A).
  exists s'. split; [done|]. split; [apply A|]. split; [by eapply after_unlocked|].
  pose proof Hwf as [[G1 G2 G3 G4] _ _ _ _ C _ _ _ _ _]. intros n Hn.
  assert (n / allocationTableEntriesPerBlock s < referenceTableEntriesPerBlock s).
  { eapply Z.le_lt_trans; [|exact C]. apply Z.div_le_mono; lia. }
  rewrite (after_entry _ _ _ _ A) by (done || lia). unfold marked. case_decide; [|done].
  split; [|rewrite isReserved_ok by apply mk_entry_range; f_equal].
  - unfold getUseCount, get, mk_entry. rewrite Z.mod_small by done. rewrite Z.shiftr_div_pow2 by done. change (2 ^ 1) with 2.
    rewrite (Z.mul_comm 2), Z.div_add_l by done. destruct reserved; cbn [Z.b2z]; [change (1 / 2) with 0|change (0 / 2) with 0]; lia.
  - unfold mk_entry. rewrite Z.odd_add, Z.odd_mul. by destruct reserved.
Qed.

End frames.

(** ** A concrete machine *)

(** 64 MiB of physical memory, tables in an area of 2048 blocks, the first page
    reserved. *)
Lemma machine :
  exists (s : TableMemoryManager (M := PagingAreaManager)),
    wf s /\ unlocked s /\ startAddress s = 0 /\ endAddress s = 0x3ffffff /\ blockSize s = 4096 /\
    entry s 0 <> 0 /\ (forall n, 1 <= n <= 0x3fff -> entry s n = 0) /\
    pts_end (bitmapMemoryManager s) = 0x2000000 /\ Z.of_nat (todo s) + 16 <= Z.of_nat (pts_available (bitmapMemoryManager s)).
Proof.
  destruct (PagingAreaManager_new_ok 0x1000000 96 8 (fun _ => 1)) as (p & mem & _ & Hinv & _ & Hm & _ & Hs & Hb & Hc & He); [unfold PAGING_AREA_SIZE, BLOCK_POOL_SIZE; lia..|].
  destruct (TableMemoryManager_new_ok p 0x3ffffff) as (s & _ & W & U & E & Es & Ee & Eb & Eown & Eav & Een & Eref & Etodo).
  - cbn. by rewrite Hs, Hb.
  - cbn [pts_available PagingAreaManager_PageTableSupply]. unfold missing, zlen in Hm. rewrite Hc in Hm. unfold BLOCK_POOL_SIZE in Hm.
    change (0x3ffffff / 4096 / 2048) with 7. lia.
  - lia.
  - assert (Havail : pts_available p = 88%nat).
    { cbn [pts_available PagingAreaManager_PageTableSupply]. unfold missing, zlen in Hm. rewrite Hc in Hm. unfold BLOCK_POOL_SIZE in Hm. lia. }
    destruct (setMemory_ok s 0 4095 0 true W) as (s1 & _ & A); [lia|rewrite Ee; lia|exact U|].
    pose proof A as [W1 S1 E1 _ (_ & Gav & Gend & _)]. pose proof S1 as (S2 & S3 & S4 & _).
    pose proof W as [[G1 G2 G3 G4] _ _ _ _ C _ _ _ _ _]. rewrite Ee, Eb in C.
    assert (Hcov : forall n, 0 <= n <= 0x3fff -> n / allocationTableEntriesPerBlock s < referenceTableEntriesPerBlock s).
    { intros n Hn. eapply Z.le_lt_trans; [|exact C]. apply Z.div_le_mono; [done|]. change (0x3ffffff / 4096) with 0x3fff. lia. }
    exists s1. split_and!; [done|by eapply after_unlocked|congruence|congruence|congruence| | | |].
    + rewrite E1 by (lia || (apply Hcov; lia)). rewrite Eb. done.
    + intros n Hn. rewrite E1 by (lia || (apply Hcov; lia)). rewrite Eb. unfold marked.
      change (0 / 4096) with 0. change (4095 / 4096) with 0. rewrite decide_False by lia. apply E.
    + rewrite Gend, Een. cbn [pts_end PagingAreaManager_PageTableSupply]. rewrite He. done.
    + change (0x3ffffff / 4096 / 2048) with 7 in Etodo. lia.
Qed.

Lemma PageFrameAllocator_spec_witness :
  exists (s : TableMemoryManager (M := PagingAreaManager)) a s',
    PageFrameAllocator_allocateBlock 0x400000 s = Ok (a, s') /\ 0x1000000 <= a.
Proof.
  destruct machine as (s & W & U & Es & Ee & Eb & E0 & En & _).
  destruct (PageFrameAllocator_spec s 0x400000 W U Es ltac:(split; done) E0) as (a & s' & Ha & _ & _ & Hc).
  exists s, a, s'. split; [exact Ha|]. rewrite Ee, Eb in Hc. change (0x3ffffff / 4096) with 0x3fff in Hc.
  destruct Hc as [(n & Hn & Hf & -> & _ & Hp)|[_ Hall]].
  - change (MAX_DMA_ADDRESS / 4096) with 4096 in Hp. destruct (decide (n < 4096)) as [Hl|Hl]; [|lia].
    exfalso. apply (Hp Hl 5000); [lia|]. apply En. lia.
  - exfalso. apply (proj1 (Hall 1 ltac:(lia))). apply En. lia.
Defined.

Lemma frame_use_count_witness :
  exists (s : TableMemoryManager (M := PagingAreaManager)) s' s'',
    allocateBlockAtAddress 0x2345 s = Ok (0x2000, s') /\ freeBlock 0x2345 s' = Ok s'' /\ getUseCount (entry s' 2) = 1.
Proof.
  destruct machine as (s & W & U & Es & Ee & Eb & E0 & En & _).
  destruct (frame_use_count s 0x2345 W ltac:(rewrite Ee; lia)) as (s' & s'' & H1 & H2 & _ & H3 & _).
  { rewrite Eb. change (0x2345 / 4096) with 2. rewrite En by lia. lia. }
  exists s, s', s''. rewrite Eb in *. change (0x2345 / 4096) with 2 in *. rewrite H3, En by lia. done.
Defined.

Lemma setMemory_spec_witness :
  exists (s : TableMemoryManager (M := PagingAreaManager)) s',
    setMemory 0x100000 0x2fffff 1 false s = Ok s' /\ getUseCount (entry s' 0x2ff) = 1 /\ entry s' 0x300 = 0.
Proof.
  destruct machine as (s & W & U & Es & Ee & Eb & E0 & En & _).
  destruct (setMemory_spec s 0x100000 0x2fffff 1 false W U) as (s' & H & _ & _ & Hn); [lia|rewrite Ee; lia|lia|].
  exists s, s'. split; [done|]. rewrite Ee, Eb in Hn. change (0x3ffffff / 4096) with 0x3fff in Hn.
  pose proof (Hn 0x2ff ltac:(lia)) as H1. pose proof (Hn 0x300 ltac:(lia)) as H2.
  rewrite decide_True in H1 by (vm_compute; split; discriminate). rewrite decide_False in H2 by (vm_compute; intros []; auto).
  split; [apply H1|]. rewrite H2. apply En. lia.
Defined.

Lemma table_index_roundtrip_witness :
  exists (s : TableMemoryManager (M := PagingAreaManager)) index,
    calculateIndex 0x123456 s = Ok index /\ calculateAddress index s = 0x123000.
Proof.
  destruct machine as (s & W & _ & _ & _ & Eb & _).
  destruct (table_index_roundtrip s 0x123456 (wf_geometry _ W) ltac:(split; done)) as [(index & H1 & H2) _].
  exists s, index. split; [exact H1|]. rewrite H2, Eb. reflexivity.
Defined.
