(* ===== verification/VirtualAddressSpace.v ===== *)
(** * VirtualAddressSpace.v: page tables and address spaces

    [kernel/memory/Paging], [kernel/memory/VirtualAddressSpace] and the functions of
    [kernel/service/MemoryService] that own page tables. Every address space has two
    page directories with the same structure, one with the virtual addresses of the page
    tables, which the code follows, and one with their physical addresses, which the
    processor follows. The page tables are the memory behind the addresses that the
    paging area manager hands out; [PageTableSupply] is what this file relies on. *)

From S2P Require Import Array ArrayList Address Atomic AtomicBitmap BlockMemoryManager BitmapMemoryManager Pool PagingAreaManager Prelude Bits.

(** ** Paging *)
Module Paging.

Definition ENTRIES_PER_TABLE : Z := 1024.

Definition PRESENT : Z := 0x01.
Definition WRITABLE : Z := 0x02.
Definition USER_ACCESSIBLE : Z := 0x04.
Definition CACHE_DISABLE : Z := 0x10.

(** Two bit fields of 12 and 20 bits. *)
Record Entry := mkEntry { flags : Z; address : Z }.

Definition set (addr fl : Z) : Entry := mkEntry (wrap 12 fl) (wrap 20 (Z.shiftr addr 12)).
Definition clear : Entry := set 0 0.
Definition isUnused (e : Entry) : bool := (address e =? 0) && (flags e =? 0).
Definition getAddress (e : Entry) : Z := u32 (Z.shiftl (address e) 12).
Definition getFlags (e : Entry) : Z := flags e.

Notation Table := (list Entry).

Definition table_clear : Table := replicate (Z.to_nat ENTRIES_PER_TABLE) clear.
Definition isEmpty (t : Table) : bool := forallb isUnused t.

Definition DIRECTORY_INDEX (virtualAddress : Z) : Z := Z.shiftr virtualAddress 22.
Definition TABLE_INDEX (virtualAddress : Z) : Z := Z.land (Z.shiftr virtualAddress 12) 0x3ff.

End Paging.

(** [MemoryLayout::KERNEL_AREA] *)
Definition KERNEL_START : Z := 0x00100000.
Definition KERNEL_END : Z := 0x8000000.

(** ** Address spaces *)
Module VirtualAddressSpace.
Import Paging.

(** [directoryAddress] is the address of the physical page directory itself. *)
Record VirtualAddressSpace := mkSpace {
  kernelAddressSpace : bool;
  directoryAddress : Z;
  physicalPageDirectory : Table;
  virtualPageDirectory : Table
}.

Section VirtualAddressSpace.
Context {P : Type} {HP : PageTableSupply P}.

(** The address space objects by their addresses, the list of them, the current one, the
    page tables by their virtual addresses and the paging area manager. *)
Record Spaces := mkSpaces {
  spaces : gmap Z VirtualAddressSpace;
  addressSpaces : ArrayList Z;
  currentAddressSpace : Z;
  tables : gmap Z Table;
  pagingAreaManager : P
}.

Definition with_spaces (m : gmap Z VirtualAddressSpace) (s : Spaces) : Spaces :=
  mkSpaces m (addressSpaces s) (currentAddressSpace s) (tables s) (pagingAreaManager s).
Definition with_page_tables (t : gmap Z Table) (s : Spaces) : Spaces :=
  mkSpaces (spaces s) (addressSpaces s) (currentAddressSpace s) t (pagingAreaManager s).
Definition with_supply (p : P) (s : Spaces) : Spaces :=
  mkSpaces (spaces s) (addressSpaces s) (currentAddressSpace s) (tables s) p.

Definition space (this : Z) (s : Spaces) : outcome VirtualAddressSpace := of_option (spaces s !! this).

(** Sets the entry [i] of both page directories of an address space. *)
Definition set_directory (this i : Z) (v p : Entry) (s : Spaces) : outcome Spaces :=
  sp ← space this s;
  vd ← aset (virtualPageDirectory sp) i v;
  pd ← aset (physicalPageDirectory sp) i p;
  Ok (with_spaces (<[this := mkSpace (kernelAddressSpace sp) (directoryAddress sp) pd vd]> (spaces s)) s).

(** The loop over all address spaces in [map] and [unmap]. *)
Fixpoint set_all_directories (n : nat) (k i : Z) (v p : Entry) (s : Spaces) : outcome Spaces :=
  match n with
  | O => Ok s
  | S n =>
    this ← ArrayList.get k (addressSpaces s);
    s ← set_directory this i v p s;
    set_all_directories n (k + 1) i v p s
  end.

Definition getPhysicalAddress (this virtualAddress : Z) (s : Spaces) : outcome Z :=
  let pageDirectoryIndex := DIRECTORY_INDEX virtualAddress in
  let pageTableIndex := TABLE_INDEX virtualAddress in
  sp ← space this s;
  d ← aget (virtualPageDirectory sp) pageDirectoryIndex;
  if isUnused d then Ok 0
  else
    pageTable ← of_option (tables s !! getAddress d);
    e ← aget pageTable pageTableIndex;
    if isUnused e then Ok 0
    else Ok (Z.lor (getAddress e) (Z.land virtualAddress 0xfff)).

(** [MemoryService::allocatePageTable] *)
Definition allocatePageTable (s : Spaces) : outcome (Z * Spaces) :=
  '(pageTable, p) ← pts_allocate (pagingAreaManager s);
  Ok (pageTable, with_page_tables (<[pageTable := table_clear]> (tables s)) (with_supply p s)).

Definition new_table (this virtualAddress : Z) (s : Spaces) : outcome Spaces :=
  let pageDirectoryIndex := DIRECTORY_INDEX virtualAddress in
  '(virtualPageTable, s) ← allocatePageTable s;
  physicalPageTable ← getPhysicalAddress this virtualPageTable s;
  let pageDirectoryFlags := Z.lor (Z.lor PRESENT WRITABLE) (if virtualAddress >=? KERNEL_END then USER_ACCESSIBLE else 0) in
  let v := set virtualPageTable pageDirectoryFlags in
  let p := set physicalPageTable pageDirectoryFlags in
  if virtualAddress <=? KERNEL_END
  then set_all_directories (Z.to_nat (ArrayList.size (addressSpaces s))) 0 pageDirectoryIndex v p s
  else set_directory this pageDirectoryIndex v p s.

Definition map (this physicalAddress virtualAddress fl : Z) (s : Spaces) : outcome Spaces :=
  let pageDirectoryIndex := DIRECTORY_INDEX virtualAddress in
  let pageTableIndex := TABLE_INDEX virtualAddress in
  sp ← space this s;
  d ← aget (virtualPageDirectory sp) pageDirectoryIndex;
  s ← (if isUnused d then new_table this virtualAddress s else Ok s);
  sp ← space this s;
  d ← aget (virtualPageDirectory sp) pageDirectoryIndex;
  pageTable ← of_option (tables s !! getAddress d);
  e ← aget pageTable pageTableIndex;
  if negb (isUnused e) then Throw PAGING_ERROR
  else
    pageTable ← aset pageTable pageTableIndex (set physicalAddress fl);
    Ok (with_page_tables (<[getAddress d := pageTable]> (tables s)) s).

(** [unmap], with [MemoryService::freePageTable], which unmaps the page of a page table
    that has become empty in the current address space. *)
Fixpoint unmap (fuel : nat) (this virtualAddress : Z) (s : Spaces) : outcome (Z * Spaces) :=
  match fuel with
  | O => Loops
  | S fuel =>
    let pageDirectoryIndex := DIRECTORY_INDEX virtualAddress in
    let pageTableIndex := TABLE_INDEX virtualAddress in
    sp ← space this s;
    d ← aget (virtualPageDirectory sp) pageDirectoryIndex;
    if isUnused d then Ok (0, s)
    else
      pageTable ← of_option (tables s !! getAddress d);
      e ← aget pageTable pageTableIndex;
      if isUnused e then Ok (0, s)
      else
        let physicalAddress := getAddress e in
        pageTable ← aset pageTable pageTableIndex clear;
        let s := with_page_tables (<[getAddress d := pageTable]> (tables s)) s in
        if isEmpty pageTable then
          s ← (if virtualAddress <=? KERNEL_END
               then set_all_directories (Z.to_nat (ArrayList.size (addressSpaces s))) 0 pageDirectoryIndex clear clear s
               else set_directory this pageDirectoryIndex clear clear s);
          '(tableAddress, s) ← unmap fuel (currentAddressSpace s) (getAddress d) s;
          if tableAddress =? 0 then Ok (physicalAddress, s)
          else
            p ← pts_free (getAddress d) (pagingAreaManager s);
            Ok (physicalAddress, with_supply p s)
        else Ok (physicalAddress, s)
  end.

Definition freePageTable (fuel : nat) (pageTable : Z) (s : Spaces) : outcome Spaces :=
  '(physicalAddress, s) ← unmap fuel (currentAddressSpace s) pageTable s;
  if physicalAddress =? 0 then Ok s
  else
    p ← pts_free pageTable (pagingAreaManager s);
    Ok (with_supply p s).

(** The loop of the constructor: the directory entries of the kernel area. *)
Fixpoint copy_kernel (n : nat) (addr : Z) (kernel : VirtualAddressSpace) (pd vd : Table) : outcome (Table * Table) :=
  match n with
  | O => Ok (pd, vd)
  | S n =>
    if addr <? KERNEL_END then
      let pageDirectoryIndex := DIRECTORY_INDEX addr in
      p ← aget (physicalPageDirectory kernel) pageDirectoryIndex;
      v ← aget (virtualPageDirectory kernel) pageDirectoryIndex;
      pd ← aset pd pageDirectoryIndex p;
      vd ← aset vd pageDirectoryIndex v;
      copy_kernel n (u32 (addr + 1024 * PAGESIZE)) kernel pd vd
    else Ok (pd, vd)
  end.

(** [MemoryService::createAddressSpace]: [this] is where [new] puts the object, [kernel]
    the address space of the kernel process. *)
Definition createAddressSpace (this kernel : Z) (s : Spaces) : outcome Spaces :=
  '(directory, s) ← allocatePageTable s;
  k ← space kernel s;
  '(pd, vd) ← copy_kernel 32 KERNEL_START k table_clear table_clear;
  '(_, l) ← ArrayList.add 0 this (addressSpaces s);
  Ok (mkSpaces (<[this := mkSpace false directory pd vd]> (spaces s)) l (currentAddressSpace s) (tables s) (pagingAreaManager s)).

Definition switchAddressSpace (this : Z) (s : Spaces) : outcome Spaces :=
  if currentAddressSpace s =? this then Ok s
  else
    sp ← space this s;
    getPhysicalAddress (currentAddressSpace s) (directoryAddress sp) s ≫= fun _ =>
    Ok (mkSpaces (spaces s) (addressSpaces s) this (tables s) (pagingAreaManager s)).

(** [MemoryService::removeAddressSpace] with the destructor. *)
Definition removeAddressSpace (fuel : nat) (this : Z) (s : Spaces) : outcome Spaces :=
  if currentAddressSpace s =? this then Throw INVALID_ARGUMENT
  else
    '(_, l) ← ArrayList.remove this (addressSpaces s);
    let s := mkSpaces (spaces s) l (currentAddressSpace s) (tables s) (pagingAreaManager s) in
    sp ← space this s;
    s ← (if negb (kernelAddressSpace sp) then freePageTable fuel (directoryAddress sp) s else Ok s);
    Ok (with_spaces (delete this (spaces s)) s).

(** ** Entries and indices *)

Lemma getAddress_set a f : 0 <= a < 2 ^ 32 -> a mod 4096 = 0 -> getAddress (set a f) = a.
Proof.
  intros Ha Hm. unfold getAddress, set. cbn [address]. rewrite Z.shiftr_div_pow2, Z.shiftl_mul_pow2 by lia. change (2 ^ 12) with 4096.
  pose proof (Z.div_mod a 4096 ltac:(lia)). assert (0 <= a / 4096 < 2 ^ 20) by (split; [apply Z.div_pos; lia|apply Z.div_lt_upper_bound; lia]).
  rewrite wrap_small by (unfold in_u; lia). unwrap. lia.
Qed.

Lemma getAddress_frame a f : 0 <= a < 2 ^ 32 -> getAddress (set a f) = a - a mod 4096.
Proof.
  intros Ha. unfold getAddress, set. cbn [address]. rewrite Z.shiftr_div_pow2, Z.shiftl_mul_pow2 by lia. change (2 ^ 12) with 4096.
  pose proof (Z.div_mod a 4096 ltac:(lia)). pose proof (Z.mod_pos_bound a 4096 ltac:(lia)). assert (0 <= a / 4096 < 2 ^ 20) by (split; [apply Z.div_pos; lia|apply Z.div_lt_upper_bound; lia]).
  rewrite wrap_small by (unfold in_u; lia). unwrap. lia.
Qed.

Lemma isUnused_set a f : wrap 12 f <> 0 -> isUnused (set a f) = false.
Proof. intros H. unfold isUnused, set. cbn. apply andb_false_iff. right. by apply Z.eqb_neq. Qed.

Definition dir (v : Z) : nat := Z.to_nat (DIRECTORY_INDEX v).
Definition tab (v : Z) : nat := Z.to_nat (TABLE_INDEX v).

Lemma indices v : 0 <= v < 2 ^ 32 ->
  DIRECTORY_INDEX v = v / 2 ^ 22 /\ TABLE_INDEX v = (v / 4096) mod 1024 /\ 0 <= DIRECTORY_INDEX v < 1024 /\ 0 <= TABLE_INDEX v < 1024.
Proof.
  intros Hv. unfold DIRECTORY_INDEX, TABLE_INDEX. rewrite !Z.shiftr_div_pow2 by lia. change 0x3ff with (Z.ones 10). rewrite Z.land_ones by lia.
  change (2 ^ 12) with 4096. change (2 ^ 10) with 1024. pose proof (Z.mod_pos_bound (v / 4096) 1024 ltac:(lia)).
  assert (0 <= v / 2 ^ 22 < 1024) by (split; [apply Z.div_pos; lia|apply Z.div_lt_upper_bound; lia]). lia.
Qed.

(** Two addresses are on one page exactly when both their indices agree. *)
Lemma same_page v w : 0 <= v < 2 ^ 32 -> 0 <= w < 2 ^ 32 -> v / 4096 = w / 4096 <-> dir v = dir w /\ tab v = tab w.
Proof.
  intros Hv Hw. destruct (indices v Hv) as (Dv & Tv & Rv & Rv'), (indices w Hw) as (Dw & Tw & Rw & Rw'). unfold dir, tab.
  assert (Hd : forall x, x / 2 ^ 22 = x / 4096 / 1024) by (intros x; rewrite Z.div_div by lia; done).
  rewrite Hd in Dv, Dw. pose proof (Z.div_mod (v / 4096) 1024 ltac:(lia)). pose proof (Z.div_mod (w / 4096) 1024 ltac:(lia)). split; [intros E|intros [E1 E2]].
  - by rewrite Dv, Dw, Tv, Tw, E.
  - lia.
Qed.

Lemma dir_kernel v : 0 <= v < 2 ^ 32 -> (dir v < 32)%nat <-> v < KERNEL_END.
Proof.
  intros Hv. destruct (indices v Hv) as (D & _ & R & _). unfold dir, KERNEL_END. rewrite D in *. change (2 ^ 22) with 4194304 in *.
  pose proof (Z.div_mod v 4194304 ltac:(lia)). pose proof (Z.mod_pos_bound v 4194304 ltac:(lia)). lia.
Qed.

(** ** The translation an address space stands for *)

(** The page table a directory entry points to. *)
Definition table_at (s : Spaces) (q : Z) (i : nat) : option Z :=
  sp ← spaces s !! q;
  d ← virtualPageDirectory sp !! i;
  if isUnused d then None else Some (getAddress d).

(** The entries with number [i] of both directories. *)
Definition directory_entries (s : Spaces) (q : Z) (i : nat) : option (Entry * Entry) :=
  sp ← spaces s !! q;
  v ← virtualPageDirectory sp !! i;
  p ← physicalPageDirectory sp !! i;
  Some (v, p).

(** The rights of the pages below entry [i] of a directory: user mode has access from the end of the kernel area on. *)
Definition directory_flags (i : nat) : Z := Z.lor (Z.lor PRESENT WRITABLE) (if decide (i < 32)%nat then 0 else USER_ACCESSIBLE).

(** Both entries are unused, or both are present with these rights. *)
Definition twins (i : nat) (v p : Entry) : Prop := v = clear /\ p = clear \/ flags v = directory_flags i /\ flags p = directory_flags i.

Definition used_entry (e : Entry) : option Entry := if isUnused e then None else Some e.

Definition translate (s : Spaces) (q v : Z) : option Entry :=
  a ← table_at s q (dir v);
  t ← tables s !! a;
  e ← (t : Table) !! tab v;
  used_entry e.

Record spaces_ok (s : Spaces) : Prop := {
  ok_directories q sp : spaces s !! q = Some sp -> length (virtualPageDirectory sp) = 1024%nat /\ length (physicalPageDirectory sp) = 1024%nat;
  ok_tables q i a : table_at s q i = Some a -> a ∈ pts_owned (pagingAreaManager s) /\ exists t : Table, tables s !! a = Some t /\ length t = 1024%nat;
  ok_private q r i j a : table_at s q i = Some a -> table_at s r j = Some a -> i = j /\ (q = r \/ (i < 32)%nat);
  ok_kernel q r i : (i < 32)%nat -> is_Some (spaces s !! q) -> is_Some (spaces s !! r) -> table_at s q i = table_at s r i;
  ok_list : ArrayList.wf (addressSpaces s) /\ forall q, q ∈ ArrayList.contents (addressSpaces s) <-> is_Some (spaces s !! q);
  ok_supply : pts_ok (pagingAreaManager s);
  ok_twins q i v p : directory_entries s q i = Some (v, p) -> twins i v p
}.

(** The processor, which follows the physical directory, finds the page tables that the code writes: the physical entry
    holds the frame of the page at the virtual address of the table. *)
Definition backed (s : Spaces) : Prop :=
  forall q i v p, directory_entries s q i = Some (v, p) -> isUnused v = false -> exists e, translate s q (getAddress v) = Some e /\ getAddress p = getAddress e.

(** ** Changing directory entries *)

Definition entry_table (e : Entry) : option Z := if isUnused e then None else Some (getAddress e).

(** The entries [i] of the directories of the address spaces [L] are now [v] and [p]; nothing else
    has changed. *)
Record updated (s s' : Spaces) (L : list Z) (i : nat) (v p : Entry) : Prop := {
  upd_list : addressSpaces s' = addressSpaces s;
  upd_current : currentAddressSpace s' = currentAddressSpace s;
  upd_tables : tables s' = tables s;
  upd_supply : pagingAreaManager s' = pagingAreaManager s;
  upd_dom q : is_Some (spaces s' !! q) <-> is_Some (spaces s !! q);
  upd_lengths q sp : spaces s' !! q = Some sp -> length (virtualPageDirectory sp) = 1024%nat /\ length (physicalPageDirectory sp) = 1024%nat;
  upd_table_at q j : table_at s' q j = if decide (q ∈ L /\ j = i) then entry_table v else table_at s q j;
  upd_entries q j : directory_entries s' q j = if decide (q ∈ L /\ j = i) then Some (v, p) else directory_entries s q j
}.

Lemma set_directory_spec this i v p s :
  (forall q sp, spaces s !! q = Some sp -> length (virtualPageDirectory sp) = 1024%nat /\ length (physicalPageDirectory sp) = 1024%nat) ->
  is_Some (spaces s !! this) -> 0 <= i < 1024 ->
  exists s', set_directory this i v p s = Ok s' /\ updated s s' [this] (Z.to_nat i) v p.
Proof.
  intros Hl [sp Hsp] Hi. destruct (Hl _ _ Hsp) as [Hv Hp]. unfold set_directory, space. rewrite Hsp. cbn [of_option]. mcbn.
  rewrite !aset_in by (unfold zlen; lia). mcbn. eexists. split; [done|]. split; try done.
  - intros q. cbn. rewrite lookup_insert_is_Some. split; [intros [<-|[_ ?]]; eauto|]. intros [x Hx]. destruct (decide (this = q)); eauto.
  - intros q sp'. cbn. intros [[<- <-]|[_ ?]]%lookup_insert_Some; [cbn; by rewrite !length_insert|eauto].
  - intros q j. unfold table_at. cbn [spaces with_spaces]. destruct (decide (q = this)) as [->|Hq].
    + rewrite lookup_insert_eq, Hsp. cbn [mbind option_bind virtualPageDirectory]. destruct (decide (j = Z.to_nat i)) as [->|Hj].
      * rewrite list_lookup_insert_eq by lia. rewrite decide_True by set_solver. done.
      * rewrite list_lookup_insert_ne by done. rewrite decide_False by naive_solver. done.
    + rewrite lookup_insert_ne by done. rewrite decide_False; [done|]. intros [?%list_elem_of_singleton _]. done.
  - intros q j. unfold directory_entries. cbn [spaces with_spaces]. destruct (decide (q = this)) as [->|Hq].
    + rewrite lookup_insert_eq, Hsp. cbn [mbind option_bind virtualPageDirectory physicalPageDirectory]. destruct (decide (j = Z.to_nat i)) as [->|Hj].
      * rewrite !list_lookup_insert_eq by lia. rewrite decide_True by set_solver. done.
      * rewrite !list_lookup_insert_ne by done. rewrite decide_False by naive_solver. done.
    + rewrite lookup_insert_ne by done. rewrite decide_False; [done|]. intros [?%list_elem_of_singleton _]. done.
Qed.

Lemma updated_trans s s1 s2 L1 L2 i v p : updated s s1 L1 i v p -> updated s1 s2 L2 i v p -> updated s s2 (L1 ++ L2) i v p.
Proof.
  intros [A1 A2 A3 A4 A5 A6 A7 A8] [B1 B2 B3 B4 B5 B6 B7 B8]. split; try congruence; [|done| |].
  - intros q. by rewrite B5.
  - intros q j. rewrite B7, A7. repeat case_decide; try done; set_solver.
  - intros q j. rewrite B8, A8. repeat case_decide; try done; set_solver.
Qed.

Lemma set_all_directories_spec i v p n : forall k s,
  ArrayList.wf (addressSpaces s) -> (forall q, q ∈ ArrayList.contents (addressSpaces s) -> is_Some (spaces s !! q)) ->
  (forall q sp, spaces s !! q = Some sp -> length (virtualPageDirectory sp) = 1024%nat /\ length (physicalPageDirectory sp) = 1024%nat) ->
  0 <= i < 1024 -> 0 <= k -> Z.of_nat n = ArrayList.len (addressSpaces s) - k ->
  exists s', set_all_directories n k i v p s = Ok s' /\
    updated s s' (drop (Z.to_nat k) (ArrayList.contents (addressSpaces s))) (Z.to_nat i) v p.
Proof.
  induction n as [|n IH]; intros k s Hw Hin Hl Hi Hk Hn; cbn [set_all_directories]; pose proof (ArrayList.al_contents_length _ Hw) as Hlen.
  - exists s. split; [done|]. rewrite drop_ge by (unfold zlen in *; lia). by split.
  - rewrite ArrayList.al_get_spec by done. destruct (lookup_lt_is_Some_2 (ArrayList.contents (addressSpaces s)) (Z.to_nat k)) as [q Hq]; [unfold zlen in *; lia|].
    rewrite Hq. mcbn. destruct (set_directory_spec q i v p s Hl) as (s1 & -> & H1); [apply Hin; by eapply list_elem_of_lookup_2|done|]. mcbn.
    pose proof H1 as [A1 A2 A3 A4 A5 A6 A7 A8]. destruct (IH (k + 1) s1) as (s2 & -> & H2); try (rewrite A1; try done; lia); try done.
    { intros r Hr. apply A5, Hin. by rewrite <- A1. }
    { lia. }
    exists s2. split; [done|]. rewrite (drop_S _ _ _ Hq). rewrite A1 in H2. replace (Z.to_nat (k + 1)) with (S (Z.to_nat k)) in H2 by lia.
    exact (updated_trans _ _ _ [q] _ _ _ _ H1 H2).
Qed.

(** ** Reading the tables *)

Lemma directory_read s q v sp :
  spaces_ok s -> spaces s !! q = Some sp -> 0 <= v < 2 ^ 32 ->
  exists d, aget (virtualPageDirectory sp) (DIRECTORY_INDEX v) = Ok d /\ table_at s q (dir v) = entry_table d.
Proof.
  intros Hok Hsp Hv. destruct (indices v Hv) as (_ & _ & Hd & _). destruct (ok_directories s Hok _ _ Hsp) as [Hl _].
  destruct (aget_in (virtualPageDirectory sp) (DIRECTORY_INDEX v)) as (d & E & Hlk); [unfold zlen; lia|]. exists d. split; [done|].
  unfold table_at. rewrite Hsp. cbn [mbind option_bind]. unfold dir. by rewrite Hlk.
Qed.

Lemma table_read s q v a :
  spaces_ok s -> table_at s q (dir v) = Some a -> 0 <= v < 2 ^ 32 ->
  exists t e, tables s !! a = Some t /\ length t = 1024%nat /\ aget t (TABLE_INDEX v) = Ok e /\ t !! tab v = Some e /\ translate s q v = used_entry e.
Proof.
  intros Hok Ha Hv. destruct (indices v Hv) as (_ & _ & _ & Ht). destruct (ok_tables s Hok _ _ _ Ha) as (_ & t & Hlk & Hl).
  destruct (aget_in t (TABLE_INDEX v)) as (e & E & He); [unfold zlen; lia|]. exists t, e. split_and!; try done.
  unfold translate. rewrite Ha. cbn [mbind option_bind]. rewrite Hlk. cbn [mbind option_bind]. unfold tab. by rewrite He.
Qed.

Lemma getPhysicalAddress_spec s q v :
  spaces_ok s -> is_Some (spaces s !! q) -> 0 <= v < 2 ^ 32 ->
  getPhysicalAddress q v s = Ok (match translate s q v with Some e => Z.lor (getAddress e) (Z.land v 0xfff) | None => 0 end).
Proof.
  intros Hok [sp Hsp] Hv. unfold getPhysicalAddress, space. rewrite Hsp. cbn [of_option]. mcbn.
  destruct (directory_read s q v sp Hok Hsp Hv) as (d & -> & Hd). mcbn. unfold entry_table in Hd. destruct (isUnused d) eqn:Eu.
  - unfold translate. by rewrite Hd.
  - destruct (table_read s q v _ Hok Hd Hv) as (t & e & -> & _ & He & _ & ->). cbn [of_option]. mcbn. rewrite He. mcbn.
    unfold used_entry. by destruct (isUnused e).
Qed.

(** ** A new page table *)

Lemma table_clear_lookup (i : nat) : (i < 1024)%nat -> table_clear !! i = Some clear.
Proof. intros H. unfold table_clear. apply lookup_replicate_2. unfold ENTRIES_PER_TABLE. lia. Qed.

(** A table that no directory refers to yet. *)
Lemma allocated_ok s a p :
  spaces_ok s -> pts_allocate (pagingAreaManager s) = Ok (a, p) ->
  let s1 := with_page_tables (<[a := table_clear]> (tables s)) (with_supply p s) in
  spaces_ok s1 /\ forall q v, translate s1 q v = translate s q v.
Proof.
  intros Hok Ha s1. destruct (pts_allocate_law _ _ _ (ok_supply s Hok) Ha) as (Hp & Hnew & Hown & _).
  assert (Hfresh : forall q j, table_at s q j <> Some a). { intros q j E. destruct (ok_tables s Hok _ _ _ E) as [? _]. done. }
  split.
  - destruct Hok as [H1 H2 H3 H4 H5 H6 H7]. split; try done. intros q i b Hb. destruct (H2 q i b Hb) as (? & t & ? & ?). cbn. split; [set_solver|].
    exists t. rewrite lookup_insert_ne; [done|]. intros <-. by apply (Hfresh q i).
  - intros q v. unfold translate. change (table_at s1 q (dir v)) with (table_at s q (dir v)). destruct (table_at s q (dir v)) as [b|] eqn:Eb; [|done].
    cbn [mbind option_bind tables s1 with_page_tables]. rewrite lookup_insert_ne; [done|]. intros <-. by apply (Hfresh q (dir v)).
Qed.

(** The state after a table at [a] has been put into the directories of [L]. *)
Lemma new_table_ok s s1 s' a p L i v0 p0 :
  spaces_ok s -> pts_allocate (pagingAreaManager s) = Ok (a, p) ->
  s1 = with_page_tables (<[a := table_clear]> (tables s)) (with_supply p s) -> updated s1 s' L i v0 p0 -> entry_table v0 = Some a -> twins i v0 p0 ->
  (L = ArrayList.contents (addressSpaces s) /\ (i < 32)%nat \/ exists this, L = [this] /\ (32 <= i)%nat) ->
  spaces_ok s' /\ forall q v, (i = dir v -> q ∈ L -> table_at s q i = None) -> 0 <= v < 2 ^ 32 -> translate s' q v = translate s q v.
Proof.
  intros Hok Ha -> [U1 U2 U3 U4 U5 U6 U7 U8] Het Htw HL. rewrite Het in U7. destruct (pts_allocate_law _ _ _ (ok_supply s Hok) Ha) as (Hp & Hnew & Hown & Hr & Hal & _).
  assert (Hat : forall q j, table_at s' q j = if decide (q ∈ L /\ j = i) then Some a else table_at s q j) by exact U7.
  assert (Hfresh : forall q j, table_at s q j <> Some a).
  { intros q j E. destruct (ok_tables s Hok _ _ _ E) as [? _]. done. }
  assert (Hdom : forall q, is_Some (spaces s' !! q) <-> is_Some (spaces s !! q)) by exact U5.
  split.
  - split.
    + exact U6.
    + intros q j b. rewrite Hat, U3, U4. cbn. intros E. case_decide as Hc.
      * injection E as <-. split; [set_solver|]. exists table_clear. by rewrite lookup_insert_eq.
      * destruct (ok_tables s Hok _ _ _ E) as (? & t & ? & ?). split; [set_solver|]. exists t. rewrite lookup_insert_ne; [done|]. intros <-. by apply (Hfresh q j).
    + intros q r j k b. rewrite !Hat. intros E1 E2. destruct (decide (q ∈ L /\ j = i)) as [[Hq ->]|H1], (decide (r ∈ L /\ k = i)) as [[Hr2 ->]|H2].
      * split; [done|]. destruct HL as [[-> ?]|(this & -> & ?)]; [by right|left; set_solver].
      * injection E1 as <-. by apply Hfresh in E2.
      * injection E2 as <-. by apply Hfresh in E1.
      * by apply (ok_private s Hok q r j k b).
    + intros q r j Hj Hq Hr2. rewrite !Hat. rewrite !Hdom in *. destruct HL as [[-> Hi]|(this & -> & Hi)].
      * destruct (ok_list s Hok) as [_ Hl]. destruct (decide (j = i)) as [->|Hji].
        -- rewrite !decide_True by (split; [by apply Hl|done]). done.
        -- rewrite !decide_False by (by intros [_ ?]). by apply (ok_kernel s Hok).
      * rewrite !decide_False by lia. by apply (ok_kernel s Hok).
    + rewrite U1. cbn. destruct (ok_list s Hok) as [Hw Hl]. split; [done|]. intros q. by rewrite Hdom, Hl.
    + by rewrite U4.
    + intros q j v p'. rewrite U8. case_decide as Hc; [|by apply (ok_twins s Hok)]. destruct Hc as [_ ->]. by intros [= <- <-].
  - intros q v Hnone Hv. unfold translate. rewrite Hat, U3. cbn [tables with_page_tables with_supply]. case_decide as Hc.
    + destruct Hc as [Hq <-]. rewrite Hnone by done. cbn [mbind option_bind]. rewrite lookup_insert_eq. cbn [mbind option_bind].
      destruct (indices v Hv) as (_ & _ & _ & Ht). rewrite table_clear_lookup by (unfold tab; lia). done.
    + destruct (table_at s q (dir v)) as [b|] eqn:Eb; [|done]. cbn [mbind option_bind]. rewrite lookup_insert_ne; [done|]. intros <-. by apply (Hfresh q (dir v)).
Qed.

Lemma dir_flags_used v : wrap 12 (Z.lor (Z.lor PRESENT WRITABLE) (if v >=? KERNEL_END then USER_ACCESSIBLE else 0)) <> 0.
Proof. destruct (v >=? KERNEL_END); vm_compute; done. Qed.

Lemma dir_flags va a x :
  0 <= va < 2 ^ 32 -> let fl := Z.lor (Z.lor PRESENT WRITABLE) (if va >=? KERNEL_END then USER_ACCESSIBLE else 0) in twins (dir va) (set a fl) (set x fl).
Proof.
  intros Hva fl. right. cbn [flags set]. unfold fl, directory_flags. destruct (dir_kernel va Hva). rewrite Z.geb_leb. destruct (Z.leb_spec KERNEL_END va).
  - by rewrite decide_False by lia.
  - by rewrite decide_True by lia.
Qed.

(** At most one page table has been added to some directories. *)
Record extended (s s' : Spaces) : Prop := {
  ex_dom q : is_Some (spaces s' !! q) <-> is_Some (spaces s !! q);
  ex_current : currentAddressSpace s' = currentAddressSpace s;
  ex_list : addressSpaces s' = addressSpaces s;
  ex_supply : pagingAreaManager s' = pagingAreaManager s \/ exists a, pts_allocate (pagingAreaManager s) = Ok (a, pagingAreaManager s');
  ex_tables q j b : table_at s' q j = Some b -> table_at s q j = Some b \/ pts_allocate (pagingAreaManager s) = Ok (b, pagingAreaManager s')
}.

Lemma extended_refl s : extended s s.
Proof. split; auto. Qed.

Lemma updated_extended s s1 s' a p L i v0 p0 :
  pts_allocate (pagingAreaManager s) = Ok (a, p) -> s1 = with_page_tables (<[a := table_clear]> (tables s)) (with_supply p s) ->
  updated s1 s' L i v0 p0 -> entry_table v0 = Some a -> extended s s'.
Proof.
  intros Ha -> [U1 U2 U3 U4 U5 U6 U7 U8] Het. rewrite Het in U7. cbn in U4. split; try done; [right; exists a; by rewrite U4|]. intros q j b. rewrite U7, U4. case_decide; [|by left].
  intros [= <-]. by right.
Qed.

(** A kernel page is the same in all address spaces. *)
Lemma kernel_translate s q r v :
  spaces_ok s -> is_Some (spaces s !! q) -> is_Some (spaces s !! r) -> 0 <= v < KERNEL_END -> translate s q v = translate s r v.
Proof. intros Hok Hq Hr Hv. unfold translate. rewrite (ok_kernel s Hok q r); [done|apply dir_kernel; unfold KERNEL_END in *; lia|done|done]. Qed.

Lemma entries_space s q i v p : directory_entries s q i = Some (v, p) -> is_Some (spaces s !! q).
Proof. unfold directory_entries. destruct (spaces s !! q); [eauto|done]. Qed.

Lemma getAddress_mod e : getAddress e mod 4096 = 0 /\ 0 <= getAddress e < 2 ^ 32.
Proof.
  unfold getAddress. rewrite Z.shiftl_mul_pow2 by lia. change (2 ^ 12) with 4096. split; [|unwrap; apply Z.mod_pos_bound; lia].
  unfold u32, wrap. change (2 ^ 32) with (4096 * 2 ^ 20). rewrite Z.mul_comm, Z.mul_mod_distr_l by lia. rewrite Z.mul_comm. apply Z.mod_mul. lia.
Qed.

(** The physical address of a page, as an entry holds it. *)
Lemma getAddress_frame_of e a fl : a mod 4096 = 0 -> 0 <= a < 2 ^ 32 -> getAddress (set (Z.lor (getAddress e) (Z.land a 0xfff)) fl) = getAddress e.
Proof.
  intros Ha Hr. change 0xfff with (Z.ones 12). rewrite Z.land_ones by lia. change (2 ^ 12) with 4096. rewrite Ha, Z.lor_0_r.
  destruct (getAddress_mod e). by rewrite getAddress_set.
Qed.

(** A page table whose page is mapped in the kernel area is found by the processor in all directories that get it. *)
Lemma new_table_backed s s' (L : list Z) i v0 p0 a e this :
  spaces_ok s -> backed s -> (forall q v, 0 <= v < 2 ^ 32 -> translate s' q v = translate s q v) ->
  (forall q j, directory_entries s' q j = if decide (q ∈ L /\ j = i) then Some (v0, p0) else directory_entries s q j) ->
  (forall q, is_Some (spaces s' !! q) <-> is_Some (spaces s !! q)) ->
  entry_table v0 = Some a -> 0 <= a < KERNEL_END -> is_Some (spaces s !! this) -> translate s this a = Some e -> getAddress p0 = getAddress e -> backed s'.
Proof.
  intros Hok Hb Htr Hent Hdom Het Ha Hthis He Hp q j v p Hq Hu. destruct (getAddress_mod v) as [_ Hr]. rewrite Htr by done.
  pose proof (entries_space _ _ _ _ _ Hq) as Hsp. rewrite Hent in Hq. case_decide as Hc; [|by apply (Hb q j)].
  injection Hq as <- <-. unfold entry_table in Het. rewrite Hu in Het. injection Het as Het. rewrite Het. exists e. split; [|done].
  rewrite (kernel_translate s q this); [done|done|by apply Hdom|done|done].
Qed.

(** Allocating the table of an address other than [KERNEL_END] changes no translation. *)
Lemma new_table_spec s this va a p :
  spaces_ok s -> is_Some (spaces s !! this) -> 0 <= va < 2 ^ 32 -> va <> KERNEL_END -> table_at s this (dir va) = None ->
  pts_allocate (pagingAreaManager s) = Ok (a, p) ->
  exists s', new_table this va s = Ok s' /\ spaces_ok s' /\ table_at s' this (dir va) = Some a /\
    extended s s' /\ (forall q v, 0 <= v < 2 ^ 32 -> translate s' q v = translate s q v) /\
    (backed s -> a < KERNEL_END -> is_Some (translate s this a) -> backed s').
Proof.
  intros Hok Hthis Hva Hne Hnone Ha. destruct (pts_allocate_law _ _ _ (ok_supply s Hok) Ha) as (Hp & Hnew & Hown & Hr & Hal & _).
  unfold new_table, allocatePageTable. rewrite Ha. mcbn. destruct (allocated_ok s a p Hok Ha) as [Hok1 Htr1]. set (s1 := with_page_tables _ _) in *. destruct (indices va Hva) as (_ & _ & Hdi & _).
  rewrite (getPhysicalAddress_spec s1 this a Hok1 Hthis), Htr1 by lia. mcbn. set (x := match translate s this a with Some _ => _ | None => 0 end). set (fl := Z.lor (Z.lor PRESENT WRITABLE) _).
  assert (Het : entry_table (set a fl) = Some a).
  { unfold entry_table. rewrite isUnused_set by apply dir_flags_used. rewrite getAddress_set by lia. done. }
  assert (Htw : twins (dir va) (set a fl) (set x fl)) by (by apply dir_flags).
  assert (Hx : forall e, translate s this a = Some e -> getAddress (set x fl) = getAddress e).
  { intros e He. unfold x. rewrite He. apply getAddress_frame_of; lia. }
  pose proof (ok_directories s Hok) as Hlen. destruct (ok_list s Hok) as [Hw Hl].
  destruct (Z.leb_spec va KERNEL_END) as [Hk|Hk].
  - assert (Hd32 : (dir va < 32)%nat) by (apply dir_kernel; lia).
    destruct (set_all_directories_spec (DIRECTORY_INDEX va) (set a fl) (set x fl) (Z.to_nat (ArrayList.size (addressSpaces s1))) 0 s1) as (s' & -> & Hu); try done.
    { intros q Hq. by apply Hl. }
    { unfold ArrayList.size. destruct Hw as (_ & ? & _). change (addressSpaces s1) with (addressSpaces s). lia. }
    change (Z.to_nat 0) with 0%nat in Hu. rewrite drop_0 in Hu. change (addressSpaces s1) with (addressSpaces s) in Hu. fold (dir va) in Hu.
    destruct (new_table_ok s s1 s' a p _ _ _ _ Hok Ha eq_refl Hu Het Htw) as [Hok' Htr]; [by left|].
    assert (Htr' : forall q v, 0 <= v < 2 ^ 32 -> translate s' q v = translate s q v).
    { intros q v Hv. apply Htr; [|done]. intros _ Hq. rewrite (ok_kernel s Hok q this); [done|done|by apply Hl|done]. }
    exists s'. split_and!; try done.
    + rewrite (upd_table_at _ _ _ _ _ _ Hu), decide_True; [done|]. split; [by apply Hl|done].
    + by eapply updated_extended.
    + intros Hb Hak [e He]. destruct Hu as [_ _ _ _ U5 _ _ U8]. apply (new_table_backed s s' (ArrayList.contents (addressSpaces s)) (dir va) (set a fl) (set x fl) a e this Hok Hb Htr' U8 U5 Het); [lia|done|done|by apply Hx].
  - destruct (set_directory_spec this (DIRECTORY_INDEX va) (set a fl) (set x fl) s1) as (s' & -> & Hu); [done|done|done|].
    fold (dir va) in Hu. destruct (new_table_ok s s1 s' a p _ _ _ _ Hok Ha eq_refl Hu Het Htw) as [Hok' Htr].
    { right. exists this. split; [done|]. destruct (dir_kernel va Hva). lia. }
    assert (Htr' : forall q v, 0 <= v < 2 ^ 32 -> translate s' q v = translate s q v).
    { intros q v Hv. apply Htr; [|done]. intros _ ->%list_elem_of_singleton. done. }
    exists s'. split_and!; try done.
    + rewrite (upd_table_at _ _ _ _ _ _ Hu), decide_True; [done|]. set_solver.
    + by eapply updated_extended.
    + intros Hb Hak [e He]. destruct Hu as [_ _ _ _ U5 _ _ U8]. apply (new_table_backed s s' [this] (dir va) (set a fl) (set x fl) a e this Hok Hb Htr' U8 U5 Het); [lia|done|done|by apply Hx].
Qed.

(** ** Writing an entry of a page table *)

(** The address spaces that see a change of the page of [va] made in [this]. *)
Definition sees (s : Spaces) (this va q v : Z) : Prop :=
  v / 4096 = va / 4096 /\ is_Some (spaces s !! q) /\ (q = this \/ va < KERNEL_END).

#[export] Instance sees_dec s this va q v : Decision (sees s this va q v).
Proof. unfold sees. apply _. Defined.

Lemma write_entry s this va a t e :
  spaces_ok s -> table_at s this (dir va) = Some a -> tables s !! a = Some t -> length t = 1024%nat -> 0 <= va < 2 ^ 32 ->
  let s' := with_page_tables (<[a := <[tab va := e]> t]> (tables s)) s in
  spaces_ok s' /\ forall q v, 0 <= v < 2 ^ 32 -> translate s' q v = if decide (sees s this va q v) then used_entry e else translate s q v.
Proof.
  intros Hok Ha Ht Hl Hva s'. destruct (indices va Hva) as (_ & _ & _ & Htab). split.
  - destruct Hok as [H1 H2 H3 H4 H5 H6 H7]. split; try done. intros q i b Hb. destruct (H2 q i b Hb) as (? & t' & Ht' & Hl'). split; [done|]. cbn.
    destruct (decide (b = a)) as [->|]; [rewrite lookup_insert_eq; eexists; split; [done|by rewrite length_insert]|]. rewrite lookup_insert_ne by done. eauto.
  - intros q v Hv. unfold translate. change (table_at s' q (dir v)) with (table_at s q (dir v)). change (tables s') with (<[a := <[tab va := e]> t]> (tables s)).
    assert (Hthis : is_Some (spaces s !! this)). { unfold table_at in Ha. destruct (spaces s !! this); [eauto|done]. }
    case_decide as Hs.
    + destruct Hs as (Hp & Hq & Hor). apply same_page in Hp as [Hd Htb]; [|done|done]. assert (table_at s q (dir v) = Some a) as ->.
      { rewrite Hd. destruct Hor as [->|Hk]; [done|]. rewrite (ok_kernel s Hok q this); [done|by apply dir_kernel|done|done]. }
      cbn [mbind option_bind]. rewrite lookup_insert_eq. cbn [mbind option_bind]. rewrite Htb, list_lookup_insert_eq by (unfold tab; lia). done.
    + destruct (table_at s q (dir v)) as [b|] eqn:Eb; [|done]. cbn [mbind option_bind]. destruct (decide (b = a)) as [->|]; [|by rewrite lookup_insert_ne].
      rewrite lookup_insert_eq, Ht. cbn [mbind option_bind]. destruct (ok_private s Hok _ _ _ _ _ Eb Ha) as [Hd Hor].
      rewrite list_lookup_insert_ne; [done|]. intros Htb. apply Hs. split; [apply same_page; done|]. split; [unfold table_at in Eb; destruct (spaces s !! q); [eauto|done]|].
      destruct Hor as [->|H32]; [by left|right]. apply dir_kernel; [done|]. by rewrite <- Hd.
Qed.

Lemma translate_page s q v w : 0 <= v < 2 ^ 32 -> 0 <= w < 2 ^ 32 -> v / 4096 = w / 4096 -> translate s q v = translate s q w.
Proof. intros Hv Hw H. apply same_page in H as [Hd Ht]; [|done|done]. unfold translate. by rewrite Hd, Ht. Qed.

Lemma sees_translate s this va q v :
  spaces_ok s -> is_Some (spaces s !! this) -> 0 <= va < 2 ^ 32 -> 0 <= v < 2 ^ 32 -> sees s this va q v -> translate s q v = translate s this va.
Proof.
  intros Hok Hthis Hva Hv (Hp & Hq & Hor). rewrite (translate_page s q v va) by done. destruct Hor as [->|Hk]; [done|]. apply kernel_translate; [done..|lia].
Qed.

(** The tables keep their frames as long as every translation that exists stays. *)
Lemma backed_mono s s' :
  backed s -> (forall q i, directory_entries s' q i = directory_entries s q i) ->
  (forall q v e, 0 <= v < 2 ^ 32 -> translate s q v = Some e -> translate s' q v = Some e) -> backed s'.
Proof.
  intros Hb Hent Htr q i v p Hq Hu. rewrite Hent in Hq. destruct (Hb q i v p Hq Hu) as (e & He & Hp). exists e. split; [|done].
  apply Htr; [apply getAddress_mod|done].
Qed.

(** Mapping a page. *)
Lemma map_ok s this pa va fl :
  spaces_ok s -> is_Some (spaces s !! this) -> 0 <= va < 2 ^ 32 -> va <> KERNEL_END -> wrap 12 fl <> 0 ->
  (exists a p, pts_allocate (pagingAreaManager s) = Ok (a, p)) ->
  match translate s this va with
  | Some _ => map this pa va fl s = Throw PAGING_ERROR
  | None => exists s', map this pa va fl s = Ok s' /\ spaces_ok s' /\ extended s s' /\
      (forall q v, 0 <= v < 2 ^ 32 -> translate s' q v = if decide (sees s this va q v) then Some (set pa fl) else translate s q v) /\
      (backed s -> (forall a p, pts_allocate (pagingAreaManager s) = Ok (a, p) -> a < KERNEL_END /\ is_Some (translate s this a)) -> backed s')
  end.
Proof.
  intros Hok Hthis Hva Hne Hfl (a & p & Hal). pose proof Hthis as [sp Hsp]. unfold map, space. rewrite Hsp. cbn [of_option]. mcbn.
  destruct (directory_read s this va sp Hok Hsp Hva) as (d & -> & Hd). mcbn. unfold entry_table in Hd.
  assert (exists s1 b, (if isUnused d then new_table this va s else Ok s) = Ok s1 /\ spaces_ok s1 /\ table_at s1 this (dir va) = Some b /\
    extended s s1 /\ (forall q v, 0 <= v < 2 ^ 32 -> translate s1 q v = translate s q v) /\
    (backed s -> (forall a p, pts_allocate (pagingAreaManager s) = Ok (a, p) -> a < KERNEL_END /\ is_Some (translate s this a)) -> backed s1)) as (s1 & b & -> & Hok1 & Hb & Hex & Htr & Hbk).
  { destruct (isUnused d).
    - destruct (new_table_spec s this va a p) as (s1 & ? & ? & ? & ? & ? & Hbk); [done..|]. exists s1, a. split_and!; try done. intros Hx Hy. destruct (Hy a p Hal). by apply Hbk.
    - exists s, (getAddress d). split_and!; try done. apply extended_refl. }
  pose proof (ex_dom _ _ Hex) as Hdom.
  mcbn. destruct (proj2 (Hdom this)) as [sp1 Hsp1]; [by eexists|]. rewrite Hsp1. cbn [of_option]. mcbn.
  destruct (directory_read s1 this va sp1 Hok1 Hsp1 Hva) as (d1 & -> & Hd1). mcbn. rewrite Hb in Hd1. unfold entry_table in Hd1. destruct (isUnused d1); [done|]. injection Hd1 as Hd1. rewrite <- Hd1.
  destruct (table_read s1 this va b Hok1 Hb Hva) as (t & e & Ht & Hl & Hget & He & Htre). rewrite Ht. cbn [of_option]. mcbn. rewrite Hget. mcbn.
  rewrite <- (Htr this va Hva), Htre. unfold used_entry at 1. destruct (isUnused e) eqn:Eu; mcbn; [|done].
  destruct (indices va Hva) as (_ & _ & _ & Htab). rewrite aset_in by (unfold zlen; lia). mcbn. eexists. split; [done|].
  destruct (write_entry s1 this va b t (set pa fl) Hok1 Hb Ht Hl Hva) as [Hok2 Htr2]. split; [exact Hok2|]. split; [by destruct Hex; split|]. split.
  2:{ intros Hx Hy. apply (backed_mono s1); [by apply Hbk|done|]. intros q v e' Hv He'. etransitivity; [exact (Htr2 q v Hv)|]. case_decide as Hc; [|done]. exfalso.
    rewrite (sees_translate s1 this va q v Hok1) in He'; [|by apply Hdom|done..]. rewrite Htre in He'. unfold used_entry in He'. by rewrite Eu in He'. }
  intros q v Hv. etransitivity; [exact (Htr2 q v Hv)|]. unfold used_entry. rewrite isUnused_set by done. rewrite Htr by done.
  destruct (decide (sees s1 this va q v)) as [H|H], (decide (sees s this va q v)) as [H'|H']; try done; exfalso.
  - apply H'. destruct H as (? & ? & ?). split_and!; [done|by apply Hdom|done].
  - apply H. destruct H' as (? & ? & ?). split_and!; [done|by apply Hdom|done].
Qed.

Lemma entries_table s q i v p : directory_entries s q i = Some (v, p) -> isUnused v = false -> table_at s q i = Some (getAddress v).
Proof.
  unfold directory_entries, table_at. destruct (spaces s !! q) as [sp|]; [|done]. cbn [mbind option_bind]. destruct (virtualPageDirectory sp !! i) as [d|]; [|done]. cbn [mbind option_bind].
  destruct (physicalPageDirectory sp !! i); [|done]. cbn [mbind option_bind]. intros [= -> ->] ->. done.
Qed.

Lemma translate_entries s q v e : spaces_ok s -> translate s q v = Some e -> exists d p, directory_entries s q (dir v) = Some (d, p) /\ isUnused d = false.
Proof.
  intros Hok He. unfold translate, table_at in He. destruct (spaces s !! q) as [sp|] eqn:Esp; [|done]. cbn [mbind option_bind] in He.
  destruct (virtualPageDirectory sp !! dir v) as [d|] eqn:Ed; [|done]. cbn [mbind option_bind] in He. destruct (isUnused d) eqn:Eud; [done|].
  destruct (ok_directories s Hok _ _ Esp) as [Hl1 Hl2]. destruct (lookup_lt_is_Some_2 (physicalPageDirectory sp) (dir v)) as [p Hp].
  { rewrite Hl2, <- Hl1. by eapply lookup_lt_Some. }
  exists d, p. split; [|done]. unfold directory_entries. rewrite Esp. cbn [mbind option_bind]. rewrite Ed. cbn [mbind option_bind]. by rewrite Hp.
Qed.

(** What the processor finds for an address: an entry of the table in the frame that the physical directory gives, if the
    directory entry is present. The table in a frame is the one whose page is mapped to it. *)
Definition processor_finds (s : Spaces) (q v : Z) (e : Entry) : Prop :=
  exists d p a m t, directory_entries s q (dir v) = Some (d, p) /\ Z.testbit (flags p) 0 = true /\ translate s q a = Some m /\ getAddress m = getAddress p /\
    tables s !! a = Some t /\ t !! tab v = Some e /\ isUnused e = false.

Lemma backed_finds s q v e : spaces_ok s -> backed s -> translate s q v = Some e -> processor_finds s q v e.
Proof.
  intros Hok Hb He. pose proof (translate_entries s q v e Hok He) as Hent. unfold translate in He. destruct (table_at s q (dir v)) as [a|] eqn:Ea; [|done]. cbn [mbind option_bind] in He.
  destruct (tables s !! a) as [t|] eqn:Et; [|done]. cbn [mbind option_bind] in He. destruct (t !! tab v) as [e'|] eqn:Ee; [|done]. cbn [mbind option_bind] in He.
  unfold used_entry in He. destruct (isUnused e') eqn:Eu; [done|]. injection He as ->. destruct Hent as (d & p & Hent & Eud).
  rewrite (entries_table _ _ _ _ _ Hent Eud) in Ea. injection Ea as <-.
  destruct (Hb _ _ _ _ Hent Eud) as (m & Hm & Hpm). exists d, p, (getAddress d), m, t. split_and!; try done.
  destruct (ok_twins s Hok _ _ _ _ Hent) as [[-> ->]|[_ ->]]; [done|]. unfold directory_flags. by destruct (decide _).
Qed.

(** Whether user mode may access an address: both the physical directory and the page table must allow it. *)
Definition user_access (s : Spaces) (q v : Z) : bool :=
  match directory_entries s q (dir v), translate s q v with
  | Some (_, p), Some e => Z.testbit (flags p) 2 && Z.testbit (flags e) 2
  | _, _ => false
  end.

Lemma user_access_ok s q v e : spaces_ok s -> 0 <= v < 2 ^ 32 -> translate s q v = Some e -> user_access s q v = bool_decide (KERNEL_END <= v) && Z.testbit (flags e) 2.
Proof.
  intros Hok Hv He. destruct (translate_entries s q v e Hok He) as (d & p & Hent & Hu). unfold user_access. rewrite Hent, He. f_equal.
  destruct (ok_twins s Hok _ _ _ _ Hent) as [[-> _]|[_ ->]]; [done|]. unfold directory_flags. destruct (dir_kernel v Hv).
  case_decide; [rewrite bool_decide_false by lia|rewrite bool_decide_true by lia]; done.
Qed.

(** C3: Mapping a page other than the one at KERNEL_END, with a block for a page
    table whose own page is mapped in the kernel area, gives exactly that
    translation: a user page appears in the one address space only, a kernel
    page in all of them, every other translation stays, and a page that is
    mapped throws PAGING_ERROR. Both directories stay twins, the physical
    one holds the frames of the page tables and the flags, and the
    processor, which follows it, finds every translation. *)
Theorem map_spec s this pa va fl :
  spaces_ok s -> backed s -> is_Some (spaces s !! this) -> 0 <= va < 2 ^ 32 -> va <> KERNEL_END -> wrap 12 fl <> 0 ->
  (exists a p, pts_allocate (pagingAreaManager s) = Ok (a, p) /\ a < KERNEL_END /\ is_Some (translate s this a)) ->
  match translate s this va with
  | Some _ => map this pa va fl s = Throw PAGING_ERROR
  | None => exists s', map this pa va fl s = Ok s' /\ spaces_ok s' /\ backed s' /\
      forall q v, 0 <= v < 2 ^ 32 ->
        translate s' q v = (if decide (sees s this va q v) then Some (set pa fl) else translate s q v) /\
        forall e, translate s' q v = Some e -> processor_finds s' q v e
  end.
Proof.
  intros Hok Hb Hthis Hva Hne Hfl (a & p & Hal & Hak & Ha). pose proof (map_ok s this pa va fl Hok Hthis Hva Hne Hfl (ex_intro _ a (ex_intro _ p Hal))) as H.
  destruct (translate s this va); [exact H|]. destruct H as (s' & E & Hok' & _ & Htr & Hb').
  assert (backed s') by (apply Hb'; [done|]; intros a' p' E'; rewrite Hal in E'; by injection E' as <- <-).
  exists s'. split_and!; try done. intros q v Hv. split; [by apply Htr|]. intros e. by apply backed_finds.
Qed.

(** The first page of user space is mapped like kernel memory: its page
    table, accessible from user mode, is put into every address space, and
    the page appears in all of them. *)
Theorem user_page_shared s this pa fl :
  spaces_ok s -> is_Some (spaces s !! this) -> (forall q, table_at s q (dir KERNEL_END) = None) -> wrap 12 fl <> 0 ->
  (exists a p, pts_allocate (pagingAreaManager s) = Ok (a, p)) ->
  exists s', map this pa KERNEL_END fl s = Ok s' /\ forall q, is_Some (spaces s !! q) -> translate s' q KERNEL_END = Some (set pa fl).
Proof.
  intros Hok [sp Hsp] Hnone Hfl (a & p & Ha). destruct (pts_allocate_law _ _ _ (ok_supply s Hok) Ha) as (Hp & Hnew & Hown & Hr & Hal & _).
  assert (Hva : 0 <= KERNEL_END < 2 ^ 32) by (unfold KERNEL_END; lia). destruct (ok_list s Hok) as [Hw Hl].
  unfold map, space. rewrite Hsp. cbn [of_option]. mcbn. destruct (directory_read s this KERNEL_END sp Hok Hsp Hva) as (d & -> & Hd). mcbn.
  rewrite Hnone in Hd. unfold entry_table in Hd. destruct (isUnused d); [|done]. unfold new_table, allocatePageTable. rewrite Ha. mcbn. destruct (allocated_ok s a p Hok Ha) as [Hok1 _]. set (s1 := with_page_tables _ _) in *.
  rewrite (getPhysicalAddress_spec s1 this a Hok1 ltac:(by exists sp)) by lia. set (x := match translate s1 this a with Some _ => _ | None => 0 end).
  mcbn. set (fl' := Z.lor (Z.lor PRESENT WRITABLE) _).
  destruct (set_all_directories_spec (DIRECTORY_INDEX KERNEL_END) (set a fl') (set x fl') (Z.to_nat (ArrayList.size (addressSpaces s1))) 0 s1) as (s' & -> & Hu); try done.
  { intros q Hq. by apply Hl. }
  { apply (ok_directories s Hok). }
  { unfold ArrayList.size. destruct Hw as (_ & ? & _). change (addressSpaces s1) with (addressSpaces s). lia. }
  assert (Het : entry_table (set a fl') = Some a).
  { unfold entry_table. rewrite isUnused_set by apply dir_flags_used. rewrite getAddress_set by lia. done. }
  change (Z.to_nat 0) with 0%nat in Hu. rewrite drop_0 in Hu. change (addressSpaces s1) with (addressSpaces s) in Hu. fold (dir KERNEL_END) in Hu.
  destruct Hu as [U1 U2 U3 U4 U5 U6 U7 _]. rewrite Het in U7. assert (Hat : forall q, is_Some (spaces s !! q) -> table_at s' q (dir KERNEL_END) = Some a).
  { intros q Hq. rewrite U7, decide_True; [done|]. split; [by apply Hl|done]. }
  rewrite Z.leb_refl. mcbn. destruct (proj2 (U5 this)) as [sp' Hsp']; [by exists sp|]. rewrite Hsp'. cbn [of_option]. mcbn.
  pose proof (Hat this ltac:(by eexists)) as Ht'. unfold table_at in Ht'. rewrite Hsp' in Ht'. cbn [mbind option_bind] in Ht'.
  destruct (virtualPageDirectory sp' !! dir KERNEL_END) as [d'|] eqn:Ed; [|done]. cbn [mbind option_bind] in Ht'.
  assert (aget (virtualPageDirectory sp') (DIRECTORY_INDEX KERNEL_END) = Ok d') as -> by (apply aget_ok; done). mcbn. destruct (isUnused d'); [done|]. injection Ht' as ->.
  rewrite U3. change (tables s1) with (<[a := table_clear]> (tables s)). rewrite lookup_insert_eq. cbn [of_option]. mcbn.
  change (TABLE_INDEX KERNEL_END) with 0. change (aget table_clear 0) with (Ok clear). mcbn. change (isUnused clear) with true. mcbn.
  change (aset table_clear 0 (set pa fl)) with (Ok (<[0%nat := set pa fl]> table_clear)). mcbn. eexists. split; [done|].
  intros q Hq. unfold translate. change (table_at (with_page_tables _ s') q (dir KERNEL_END)) with (table_at s' q (dir KERNEL_END)). rewrite Hat by done.
  cbn [mbind option_bind tables with_page_tables]. rewrite lookup_insert_eq. cbn [mbind option_bind]. change (tab KERNEL_END) with 0%nat.
  rewrite list_lookup_insert_eq by (unfold table_clear; rewrite length_replicate; unfold ENTRIES_PER_TABLE; lia). cbn [mbind option_bind]. unfold used_entry. by rewrite isUnused_set.
Qed.

(** ** Unmapping *)

Lemma unmap_unused fuel s this va :
  spaces_ok s -> is_Some (spaces s !! this) -> 0 <= va < 2 ^ 32 -> translate s this va = None -> unmap (S fuel) this va s = Ok (0, s).
Proof.
  intros Hok [sp Hsp] Hva Htr. cbn [unmap]. unfold space. rewrite Hsp. cbn [of_option]. mcbn.
  destruct (directory_read s this va sp Hok Hsp Hva) as (d & -> & Hd). mcbn. unfold entry_table in Hd. destruct (isUnused d); [done|].
  destruct (table_read s this va _ Hok Hd Hva) as (t & e & -> & _ & He & _ & Htre). cbn [of_option]. mcbn. rewrite He. mcbn. rewrite Htr in Htre. unfold used_entry in Htre. by destruct (isUnused e).
Qed.

(** Directory entries of an empty table can be taken away. *)
Lemma drop_table s s' L i a t :
  spaces_ok s -> updated s s' L i clear clear -> tables s !! a = Some t -> isEmpty t = true ->
  (exists q0, table_at s q0 i = Some a) -> (forall q, q ∈ L -> is_Some (spaces s !! q) -> table_at s q i = Some a) -> (forall q, table_at s q i = Some a -> q ∈ L) ->
  ((i < 32)%nat -> forall q, is_Some (spaces s !! q) -> q ∈ L) ->
  spaces_ok s' /\ (forall q j, table_at s' q j <> Some a) /\ (forall q j b, table_at s' q j = Some b -> table_at s q j = Some b) /\
  forall q v, translate s' q v = translate s q v.
Proof.
  intros Hok [U1 U2 U3 U4 U5 U6 U7 U8] Ht Hempty [q0 Hq0] HL HL2 Hker. change (entry_table clear) with (@None Z) in U7.
  assert (Hsub : forall q j b, table_at s' q j = Some b -> table_at s q j = Some b) by (intros q j b; rewrite U7; by case_decide).
  assert (Hspace : forall q j b, table_at s q j = Some b -> is_Some (spaces s !! q)).
  { intros q j b E. unfold table_at in E. destruct (spaces s !! q); [eauto|done]. }
  split_and!.
  - split; [exact U6| | | | |by rewrite U4; apply Hok|].
    + intros q j b Hb. rewrite U3, U4. apply Hsub in Hb. by apply (ok_tables s Hok q j).
    + intros q r j k b Hq Hr. apply Hsub in Hq, Hr. by apply (ok_private s Hok q r j k b).
    + intros q r j Hj Hq Hr. rewrite U5 in Hq, Hr. rewrite !U7. destruct (decide (j = i)) as [->|Hji].
      * rewrite !decide_True by (split; [by apply Hker|done]). done.
      * rewrite !decide_False by (by intros [_ ?]). by apply (ok_kernel s Hok).
    + rewrite U1. destruct (ok_list s Hok) as [Hw Hl]. split; [done|]. intros q. by rewrite Hl, U5.
    + intros q j v p. rewrite U8. case_decide; [|by apply (ok_twins s Hok)]. intros [= <- <-]. by left.
  - intros q j E. pose proof (Hsub _ _ _ E) as E'. rewrite U7 in E. case_decide as Hc; [done|].
    destruct (ok_private s Hok _ _ _ _ _ E' Hq0) as [-> _]. apply Hc. split; [by apply HL2|done].
  - exact Hsub.
  - intros q v. unfold translate. rewrite U7, U3. case_decide as Hc; [|done]. destruct Hc as [Hq <-].
    destruct (table_at s q (dir v)) as [b|] eqn:Eb; [|done]. rewrite (HL q Hq) in Eb by (by eapply Hspace). injection Eb as <-. cbn [mbind option_bind]. rewrite Ht. cbn [mbind option_bind].
    destruct (t !! tab v) as [e|] eqn:Ee; [|done]. cbn [mbind option_bind]. unfold used_entry. unfold isEmpty in Hempty. rewrite forallb_forall in Hempty.
    rewrite (Hempty e); [done|]. apply list_elem_of_In. by eapply list_elem_of_lookup_2.
Qed.

(** The page tables lie in the kernel's part of the address space. *)
Definition tables_in_kernel (s : Spaces) : Prop := forall a, a ∈ pts_owned (pagingAreaManager s) -> 0 <= a < KERNEL_END.

(** The address of a page table in use. *)
Definition table_address (s : Spaces) (a : Z) : Prop := exists q j, table_at s q j = Some a.

(** What [unmap] leaves behind. *)
Record unmapped (s s' : Spaces) (this va r : Z) : Prop := {
  um_ok : spaces_ok s';
  um_dom q : is_Some (spaces s' !! q) <-> is_Some (spaces s !! q);
  um_current : currentAddressSpace s' = currentAddressSpace s;
  um_owned a : a ∈ pts_owned (pagingAreaManager s') -> a ∈ pts_owned (pagingAreaManager s);
  um_freed a : a ∈ pts_owned (pagingAreaManager s) -> a ∈ pts_owned (pagingAreaManager s') \/ table_address s a;
  um_tables q j b : table_at s' q j = Some b -> table_at s q j = Some b;
  um_result : r = match translate s this va with Some e => getAddress e | None => 0 end;
  um_gone : translate s' this va = None;
  um_rest q v : 0 <= v < 2 ^ 32 -> translate s' q v = translate s q v \/
    translate s' q v = None /\ (sees s this va q v \/ exists a, table_address s a /\ ~ table_address s' a /\ v / 4096 = a / 4096);
  um_available : pts_available (pagingAreaManager s') = pts_available (pagingAreaManager s);
  um_end : pts_end (pagingAreaManager s') = pts_end (pagingAreaManager s);
  um_entries q j v p : directory_entries s' q j = Some (v, p) -> directory_entries s q j = Some (v, p) \/ v = clear /\ p = clear
}.

(** One entry is cleared; the page table goes with its last entry. *)
Lemma unmap_clear s this va d t e :
  spaces_ok s -> table_at s this (dir va) = Some d -> tables s !! d = Some t -> length t = 1024%nat -> t !! tab va = Some e -> 0 <= va < 2 ^ 32 -> va <> KERNEL_END ->
  let t' := <[tab va := clear]> t in
  let s1 := with_page_tables (<[d := t']> (tables s)) s in
  isEmpty t' = true ->
  exists s2, (if va <=? KERNEL_END
    then set_all_directories (Z.to_nat (ArrayList.size (addressSpaces s1))) 0 (DIRECTORY_INDEX va) clear clear s1
    else set_directory this (DIRECTORY_INDEX va) clear clear s1) = Ok s2 /\
    spaces_ok s2 /\ (forall q, is_Some (spaces s2 !! q) <-> is_Some (spaces s !! q)) /\ currentAddressSpace s2 = currentAddressSpace s /\
    pagingAreaManager s2 = pagingAreaManager s /\     (forall q j, table_at s2 q j <> Some d) /\ (forall q j b, table_at s2 q j = Some b -> table_at s q j = Some b) /\
    (forall q v, translate s2 q v = translate s1 q v) /\
    forall q j v p, directory_entries s2 q j = Some (v, p) -> directory_entries s q j = Some (v, p) \/ v = clear /\ p = clear.
Proof.
  intros Hok Ha Ht Hl He Hva Hne t' s1 Hempty. destruct (write_entry s this va d t clear Hok Ha Ht Hl Hva) as [Hok1 _]. fold t' s1 in Hok1.
  destruct (indices va Hva) as (_ & _ & Hdi & _). destruct (ok_list s1 Hok1) as [Hw Hls].
  assert (Hthis : is_Some (spaces s !! this)). { unfold table_at in Ha. destruct (spaces s !! this); [eauto|done]. }
  assert (Ht1 : tables s1 !! d = Some t') by (cbn; apply lookup_insert_eq).
  destruct (Z.leb_spec va KERNEL_END) as [Hk|Hk].
  - assert (Hd32 : (dir va < 32)%nat) by (apply dir_kernel; lia).
    destruct (set_all_directories_spec (DIRECTORY_INDEX va) clear clear (Z.to_nat (ArrayList.size (addressSpaces s1))) 0 s1) as (s2 & E2 & Hu); [done|intros q; apply Hls|apply Hok1|done|lia| |].
    { unfold ArrayList.size. destruct Hw as (_ & ? & _). lia. }
    change (Z.to_nat 0) with 0%nat in Hu. rewrite drop_0 in Hu. fold (dir va) in Hu.
    destruct (drop_table s1 s2 _ _ d t' Hok1 Hu Ht1 Hempty) as (H1 & H2 & H3 & H4).
    { by exists this. }
    { intros q _ Hq. rewrite <- Ha. by apply (ok_kernel s Hok). }
    { intros q Hq. apply Hls. unfold table_at in Hq. destruct (spaces s1 !! q); [eauto|done]. }
    { intros _ q Hq. by apply Hls. }
    exists s2. destruct Hu as [U1 U2 U3 U4 U5 U6 U7 U8]. split_and!; try done. intros q j v p. rewrite U8. case_decide; [|by left]. intros [= <- <-]. by right.
  - destruct (set_directory_spec this (DIRECTORY_INDEX va) clear clear s1) as (s2 & E2 & Hu); [apply Hok1|done|done|]. fold (dir va) in Hu.
    assert (Hd32 : (32 <= dir va)%nat) by (destruct (dir_kernel va Hva); lia).
    destruct (drop_table s1 s2 _ _ d t' Hok1 Hu Ht1 Hempty) as (H1 & H2 & H3 & H4).
    { by exists this. }
    { intros q ->%list_elem_of_singleton _. done. }
    { intros q Hq. destruct (ok_private s Hok _ _ _ _ _ Hq Ha) as [_ [->|?]]; [constructor|lia]. }
    { lia. }
    exists s2. destruct Hu as [U1 U2 U3 U4 U5 U6 U7 U8]. split_and!; try done. intros q j v p. rewrite U8. case_decide; [|by left]. intros [= <- <-]. by right.
Qed.

Lemma unmap_inv fuel : forall s this va r s',
  spaces_ok s -> tables_in_kernel s -> is_Some (spaces s !! this) -> is_Some (spaces s !! currentAddressSpace s) -> 0 <= va < 2 ^ 32 -> va <> KERNEL_END ->
  unmap fuel this va s = Ok (r, s') -> unmapped s s' this va r.
Proof.
  induction fuel as [|fuel IH]; intros s this va r s' Hok Hker Hthis Hcur Hva Hne Hu; [done|].
  destruct (translate s this va) as [e|] eqn:Htr.
  2:{ rewrite unmap_unused in Hu by done. injection Hu as <- <-. split; try done; [by left|by rewrite Htr|by left|by left]. }
  revert Hu. cbn [unmap]. pose proof Hthis as [sp Hsp]. unfold space at 1. rewrite Hsp. cbn [of_option]. mcbn.
  destruct (directory_read s this va sp Hok Hsp Hva) as (d & -> & Hd). mcbn. unfold entry_table in Hd. destruct (isUnused d); [unfold translate in Htr; by rewrite Hd in Htr|].
  destruct (table_read s this va _ Hok Hd Hva) as (t & e' & Ht & Hl & Hget & He & Htre). rewrite Ht. cbn [of_option]. mcbn. rewrite Hget. mcbn.
  rewrite Htr in Htre. unfold used_entry in Htre. destruct (isUnused e') eqn:Eu; [done|]. injection Htre as <-.
  destruct (indices va Hva) as (_ & _ & _ & Htab). rewrite aset_in by (unfold zlen; lia). mcbn. fold (tab va).
  destruct (write_entry s this va _ t clear Hok Hd Ht Hl Hva) as [Hok1 Htr1]. set (t' := <[tab va := clear]> t) in *. set (T := getAddress d) in *.
  set (s1 := with_page_tables (<[T := t']> (tables s)) s) in *. change (used_entry clear) with (@None Entry) in Htr1.
  assert (Hgone1 : translate s1 this va = None). { rewrite Htr1 by done. rewrite decide_True; [done|]. split_and!; [done|done|by left]. }
  destruct (isEmpty t') eqn:Hempty.
  2:{ intros [= <- <-]. split; try done; [by left|by rewrite Htr| |by left]. intros q v Hv. rewrite Htr1 by done. case_decide; [right; auto|by left]. }
  destruct (unmap_clear s this va T t e Hok Hd Ht Hl He Hva Hne Hempty) as (s2 & E2 & Hok2 & Hdom2 & Hcur2 & Hpam2 & Hno2 & Hsub2 & Htr2 & Hent2).
  fold t' in E2. fold s1 in E2, Htr2. rewrite E2. mcbn.
  destruct (unmap fuel (currentAddressSpace s2) T s2) as [[r2 s3]| | |] eqn:E3; mcbn; try done.
  destruct (ok_tables s Hok _ _ _ Hd) as [HT _]. pose proof (Hker T HT) as HTk.
  apply IH in E3; [|done|by unfold tables_in_kernel; rewrite Hpam2|by rewrite Hcur2, Hdom2|by rewrite Hcur2, Hdom2|unfold KERNEL_END in *; lia|unfold KERNEL_END in *; lia].
  destruct E3 as [I1 I2 I3 I4 I5 I6 I7 I8 I9 I10 I11 I12]. rewrite Hpam2 in I4, I5, I10, I11.
  assert (Hta : forall a, table_address s2 a -> table_address s a) by (intros a (q & j & H); exists q, j; auto).
  assert (Hno3 : forall q j, table_at s3 q j <> Some T) by (intros q j E; apply I6 in E; by apply Hno2 in E).
  assert (Hrest : forall q v, 0 <= v < 2 ^ 32 -> translate s3 q v = translate s q v \/
    translate s3 q v = None /\ (sees s this va q v \/ exists a, table_address s a /\ ~ table_address s3 a /\ v / 4096 = a / 4096)).
  { intros q v Hv. destruct (I9 q v Hv) as [E|[E [(Hp & _)|(a & Ha & Ha' & Hp)]]].
    - rewrite E, Htr2, Htr1 by done. case_decide; [right; auto|by left].
    - right. split; [done|]. right. exists T. split; [by exists this, (dir va)|]. split; [|done]. intros (q' & j & Hx). by apply Hno3 in Hx.
    - right. split; [done|]. right. exists a. auto. }
  assert (Hent3 : forall q j v p, directory_entries s3 q j = Some (v, p) -> directory_entries s q j = Some (v, p) \/ v = clear /\ p = clear).
  { intros q j v p Hx. destruct (I12 _ _ _ _ Hx) as [Hy|?]; [|by right]. by apply Hent2 in Hy. }
  assert (Hgone3 : translate s3 this va = None).
  { destruct (I9 this va Hva) as [->|[-> _]]; [by rewrite Htr2|done]. }
  assert (Hdom3 : forall q, is_Some (spaces s3 !! q) <-> is_Some (spaces s !! q)) by (intros q; by rewrite I2).
  destruct (r2 =? 0).
  - intros [= <- <-]. split; auto; [by rewrite I3, Hcur2| |by rewrite Htr]. intros a Ha. destruct (I5 a Ha) as [?|?]; auto.
  - assert (HT3 : T ∈ pts_owned (pagingAreaManager s3)).
    { destruct (I5 T HT) as [?|(q & j & ?)]; [done|]. exfalso. by eapply Hno2. }
    destruct (pts_free_law _ _ (ok_supply s3 I1) HT3) as (p & -> & Hp & Hown & Hav & Hend). mcbn. intros [= <- <-]. split; try done.
    + destruct I1 as [J1 J2 J3 J4 J5 J6 J7]. split; try done. intros q j b Hb. destruct (J2 q j b Hb) as [Hin ?]. split; [|done]. cbn. rewrite Hown.
      apply elem_of_difference. split; [done|]. rewrite elem_of_singleton. intros ->. by apply (Hno3 q j).
    + cbn. by rewrite I3, Hcur2.
    + cbn. intros a. rewrite Hown, elem_of_difference. intros [? _]. auto.
    + cbn. intros a Ha. rewrite Hown, elem_of_difference, elem_of_singleton. destruct (decide (a = T)) as [->|]; [right; by exists this, (dir va)|]. destruct (I5 a Ha) as [?|?]; auto.
    + intros q j b Hb. by apply Hsub2, I6.
    + by rewrite Htr.
    + cbn. by rewrite Hav.
    + cbn. by rewrite Hend.
Qed.

(** ** Termination *)

Definition tables_used (s : Spaces) : gset Z :=
  list_to_set (concat ((fun x => omap entry_table (virtualPageDirectory x.2)) <$> map_to_list (spaces s))).

Lemma elem_tables_used s a : a ∈ tables_used s <-> table_address s a.
Proof.
  unfold tables_used, table_address, table_at. rewrite elem_of_list_to_set, list_elem_of_In, in_concat. setoid_rewrite <- list_elem_of_In. setoid_rewrite list_elem_of_fmap.
  setoid_rewrite elem_of_map_to_list'. split.
  - intros (l & ([q sp] & -> & Hsp) & Ha). cbn in *. apply list_elem_of_omap in Ha as (d & Hd & He). apply list_elem_of_lookup_1 in Hd as [j Hj].
    exists q, j. rewrite Hsp. cbn [mbind option_bind]. by rewrite Hj.
  - intros (q & j & H). destruct (spaces s !! q) as [sp|] eqn:Hsp; [|done]. cbn [mbind option_bind] in H. destruct (virtualPageDirectory sp !! j) as [d|] eqn:Hd; [|done].
    eexists. split; [exists (q, sp); done|]. cbn. apply list_elem_of_omap. exists d. split; [by eapply list_elem_of_lookup_2|]. done.
Qed.

Lemma unmap_total fuel : forall s this va,
  spaces_ok s -> tables_in_kernel s -> is_Some (spaces s !! this) -> is_Some (spaces s !! currentAddressSpace s) -> 0 <= va < 2 ^ 32 -> va <> KERNEL_END ->
  (size (tables_used s) < fuel)%nat -> exists r s', unmap fuel this va s = Ok (r, s').
Proof.
  induction fuel as [|fuel IH]; intros s this va Hok Hker Hthis Hcur Hva Hne Hsz; [lia|].
  destruct (translate s this va) as [e|] eqn:Htr; [|rewrite unmap_unused by done; eauto].
  cbn [unmap]. pose proof Hthis as [sp Hsp]. unfold space at 1. rewrite Hsp. cbn [of_option]. mcbn.
  destruct (directory_read s this va sp Hok Hsp Hva) as (d & -> & Hd). mcbn. unfold entry_table in Hd. destruct (isUnused d); [eauto|].
  destruct (table_read s this va _ Hok Hd Hva) as (t & e' & Ht & Hl & Hget & He & Htre). rewrite Ht. cbn [of_option]. mcbn. rewrite Hget. mcbn.
  destruct (isUnused e'); [eauto|]. destruct (indices va Hva) as (_ & _ & _ & Htab). rewrite aset_in by (unfold zlen; lia). mcbn. fold (tab va).
  set (t' := <[tab va := clear]> t) in *. set (T := getAddress d) in *. set (s1 := with_page_tables (<[T := t']> (tables s)) s) in *.
  destruct (isEmpty t') eqn:Hempty; [|eauto].
  destruct (unmap_clear s this va T t e' Hok Hd Ht Hl He Hva Hne Hempty) as (s2 & E2 & Hok2 & Hdom2 & Hcur2 & Hpam2 & Hno2 & Hsub2 & _).
  fold t' in E2. fold s1 in E2. rewrite E2. mcbn. destruct (ok_tables s Hok _ _ _ Hd) as [HT _]. pose proof (Hker T HT) as HTk.
  assert (Hk2 : tables_in_kernel s2) by (unfold tables_in_kernel; by rewrite Hpam2).
  destruct (IH s2 (currentAddressSpace s2) T) as (r & s3 & E3); [done|done|by rewrite Hcur2, Hdom2|by rewrite Hcur2, Hdom2|unfold KERNEL_END in *; lia|unfold KERNEL_END in *; lia| |].
  { assert (Hlt : (size (tables_used s2) < size (tables_used s))%nat); [|lia]. apply subset_size. split.
    - intros a. rewrite !elem_tables_used. intros (q & j & H). exists q, j. auto.
    - intros Hsub. assert (HTu : T ∈ tables_used s) by (apply elem_tables_used; by exists this, (dir va)). apply Hsub, elem_tables_used in HTu as (q & j & H). by apply Hno2 in H. }
  rewrite E3. mcbn. destruct (r =? 0); [eauto|]. pose proof E3 as E3'. apply unmap_inv in E3'; [|done|done|by rewrite Hcur2, Hdom2|by rewrite Hcur2, Hdom2|unfold KERNEL_END in *; lia|unfold KERNEL_END in *; lia].
  destruct E3' as [I1 I2 I3 I4 I5 I6 I7 I8 I9]. rewrite Hpam2 in I5.
  destruct (pts_free_law _ T (ok_supply s3 I1)) as (p & -> & _). { destruct (I5 T HT) as [?|(q & j & H)]; [done|]. by apply Hno2 in H. }
  mcbn. eauto.
Qed.

Lemma table_address_mod s a : table_address s a -> a mod 4096 = 0.
Proof.
  intros (q & i & H). unfold table_at in H. destruct (spaces s !! q) as [sp|]; [|done]. cbn [mbind option_bind] in H. destruct (virtualPageDirectory sp !! i) as [d|]; [|done]. cbn [mbind option_bind] in H.
  destruct (isUnused d); [done|]. injection H as <-. apply getAddress_mod.
Qed.

(** The processor still finds the tables that are left, unless the page of a table itself was unmapped. *)
Lemma unmapped_backed s s' this va r :
  unmapped s s' this va r -> backed s -> (forall a, table_address s a -> a / 4096 <> va / 4096) -> backed s'.
Proof.
  intros H Hb Hva q i v p Hent Hu. destruct (um_entries _ _ _ _ _ H _ _ _ _ Hent) as [Hold|[-> _]]; [|done].
  destruct (Hb _ _ _ _ Hold Hu) as (e & He & Hp). exists e. split; [|done]. destruct (getAddress_mod v) as [Hm Hr].
  assert (Ht : table_address s (getAddress v)) by (exists q, i; by eapply entries_table).
  destruct (um_rest _ _ _ _ _ H q (getAddress v) Hr) as [E|[_ [(Hp' & _)|(a & Ha & Hna & Hp')]]]; [by rewrite E|by apply Hva in Hp'|].
  exfalso. apply Hna. assert (a = getAddress v) as ->; [|exists q, i; by eapply entries_table]. apply table_address_mod in Ha.
  pose proof (Z.div_mod a 4096). pose proof (Z.div_mod (getAddress v) 4096). lia.
Qed.

(** C30: For a page other than the one at KERNEL_END, unmap ends, also when page
    tables become empty and are unmapped themselves, gives the frame of the
    page, removes its translation and changes no other translation but those
    of the pages of page tables that were in use before and are not any
    more; the physical directory still holds the frames of the page tables,
    unless the page was one of a table. *)
Theorem unmap_spec s this va fuel :
  spaces_ok s -> tables_in_kernel s -> is_Some (spaces s !! this) -> is_Some (spaces s !! currentAddressSpace s) -> 0 <= va < 2 ^ 32 -> va <> KERNEL_END ->
  (size (tables_used s) < fuel)%nat ->
  exists r s', unmap fuel this va s = Ok (r, s') /\ spaces_ok s' /\
    r = match translate s this va with Some e => getAddress e | None => 0 end /\ translate s' this va = None /\
    (forall q v, 0 <= v < 2 ^ 32 -> translate s' q v = translate s q v \/
      translate s' q v = None /\ (sees s this va q v \/ exists a, table_address s a /\ ~ table_address s' a /\ v / 4096 = a / 4096)) /\
    (backed s -> (forall a, table_address s a -> a / 4096 <> va / 4096) -> backed s').
Proof.
  intros Hok Hker Hthis Hcur Hva Hne Hf. destruct (unmap_total fuel s this va) as (r & s' & E); [done..|]. exists r, s'. split; [done|].
  pose proof (unmap_inv fuel s this va r s' Hok Hker Hthis Hcur Hva Hne E) as H. split_and!; [apply H..|]. by eapply unmapped_backed.
Qed.

End VirtualAddressSpace.

(** ** A small system *)

(** The kernel's address space and those of two processes. The paging area starts at 0x1000000; its first page is the page
    table that maps it, the second one is a table of the second space, which has one page mapped, and 0x1008000 is the
    first block of the pool. *)
Definition demo_table : Table := <[0%nat := set 0x5000 7]> table_clear.
Definition demo_kernel_table : Table := <[0%nat := set 0x2000000 3]> (<[1%nat := set 0x2001000 3]> (<[8%nat := set 0x2008000 3]> table_clear)).
Definition demo_kernel (a : Z) : Table := <[4%nat := set a 3]> table_clear.
Definition demo_user (a b : Z) : Table := <[36%nat := set b 7]> (demo_kernel a).
Definition demo (p : PagingAreaManager) : Spaces (P := PagingAreaManager) :=
  mkSpaces {[ 1 := mkSpace true 0 (demo_kernel 0x2000000) (demo_kernel 0x1000000);
              2 := mkSpace false 0 (demo_user 0x2000000 0x2001000) (demo_user 0x1000000 0x1001000);
              3 := mkSpace false 0 (demo_kernel 0x2000000) (demo_kernel 0x1000000) ]}
    (mkArrayList [1; 2; 3] 3 3) 1 {[ 0x1000000 := demo_kernel_table; 0x1001000 := demo_table ]} p.

Lemma demo_paging :
  exists p, pts_ok p /\ 0x1000000 ∈ pts_owned p /\ 0x1001000 ∈ pts_owned p /\ (forall a, a ∈ pts_owned p -> 0 <= a < KERNEL_END) /\ exists p', pts_allocate p = Ok (0x1008000, p').
Proof.
  destruct (PagingAreaManager_new_ok 0x1000000 96 8 (fun _ => 1)) as (p & mem & E & Hinv & Ho & Hm & _ & Hs & Hb & Hc & He); [unfold PAGING_AREA_SIZE, BLOCK_POOL_SIZE; lia..|].
  assert (Ha : exists p', pts_allocate p = Ok (0x1008000, p')).
  { assert (Ha : match PagingAreaManager_new 0x1000000 96 8 (fun _ => 1) with Ok (p, _) => match pts_allocate p with Ok (a, _) => a | _ => 0 end | _ => 0 end = 0x1008000) by (vm_compute; reflexivity).
    rewrite E in Ha. clear E. destruct (pts_allocate p) as [[a p']| | |]; try done. subst a. by exists p'. }
  clear E. exists p. cbn [pts_ok pts_owned PagingAreaManager_PageTableSupply]. rewrite Hs, Hb. split; [done|]. rewrite Ho. split_and!; [vm_compute; done|vm_compute; done| |exact Ha].
  intros a. rewrite elem_of_list_to_set, list_elem_of_fmap. intros (k & -> & Hk%elem_of_seqZ). unfold KERNEL_END, PAGESIZE. lia.
Qed.

Lemma demo_space p q sp : spaces (demo p) !! q = Some sp ->
  q = 2 /\ sp = mkSpace false 0 (demo_user 0x2000000 0x2001000) (demo_user 0x1000000 0x1001000) \/
  q <> 2 /\ exists k, sp = mkSpace k 0 (demo_kernel 0x2000000) (demo_kernel 0x1000000).
Proof.
  unfold demo. cbn [spaces]. generalize (demo_user 0x2000000 0x2001000) (demo_user 0x1000000 0x1001000) (demo_kernel 0x2000000) (demo_kernel 0x1000000).
  intros u1 u2 k1 k2 [[<- <-]|[_ H]]%lookup_insert_Some; [right; split; [lia|by eexists]|].
  apply lookup_insert_Some in H as [[<- <-]|[_ H]]; [by left|]. apply lookup_singleton_Some in H as [<- <-]. right. split; [lia|]. by eexists.
Qed.

Lemma demo_length a b : length (demo_kernel a) = 1024%nat /\ length (demo_user a b) = 1024%nat.
Proof. unfold demo_user, demo_kernel, table_clear. by rewrite !length_insert, length_replicate. Qed.

Lemma demo_kernel_lookup a i v : demo_kernel a !! i = Some v -> v = if decide (i = 4%nat) then set a 3 else clear.
Proof.
  unfold demo_kernel. case_decide as E; [subst i; rewrite list_lookup_insert_eq by (unfold table_clear; rewrite length_replicate; unfold ENTRIES_PER_TABLE; lia); congruence|]. rewrite list_lookup_insert_ne by done. unfold table_clear. by intros [-> _]%lookup_replicate.
Qed.

Lemma demo_user_lookup a b i v : demo_user a b !! i = Some v -> v = if decide (i = 36%nat) then set b 7 else if decide (i = 4%nat) then set a 3 else clear.
Proof.
  destruct (demo_length a b) as [Hl _]. unfold demo_user. case_decide as E; [subst i; rewrite list_lookup_insert_eq by lia; congruence|]. rewrite list_lookup_insert_ne by done. apply demo_kernel_lookup.
Qed.

(** The entries of the directories. *)
Lemma demo_entries p q i v pe : directory_entries (demo p) q i = Some (v, pe) ->
  i = 4%nat /\ v = set 0x1000000 3 /\ pe = set 0x2000000 3 \/ q = 2 /\ i = 36%nat /\ v = set 0x1001000 7 /\ pe = set 0x2001000 7 \/ v = clear /\ pe = clear.
Proof.
  unfold directory_entries. destruct (spaces (demo p) !! q) as [sp|] eqn:E; [|done]. cbn [mbind option_bind].
  destruct (virtualPageDirectory sp !! i) as [v'|] eqn:Ev; [|done]. cbn [mbind option_bind]. destruct (physicalPageDirectory sp !! i) as [p'|] eqn:Ep; [|done]. cbn [mbind option_bind]. intros [= -> ->].
  apply demo_space in E as [[-> ->]|(_ & k & ->)]; cbn in Ev, Ep.
  - apply demo_user_lookup in Ev as ->, Ep as ->. repeat case_decide; auto 10.
  - apply demo_kernel_lookup in Ev as ->, Ep as ->. repeat case_decide; auto.
Qed.

Lemma demo_table_at p q i a : table_at (demo p) q i = Some a -> i = 4%nat /\ a = 0x1000000 \/ q = 2 /\ i = 36%nat /\ a = 0x1001000.
Proof.
  unfold table_at. destruct (spaces (demo p) !! q) as [sp|] eqn:E; [|done]. cbn [mbind option_bind]. destruct (virtualPageDirectory sp !! i) as [v|] eqn:Ev; [|done]. cbn [mbind option_bind].
  apply demo_space in E as [[-> ->]|(_ & k & ->)]; cbn in Ev.
  - apply demo_user_lookup in Ev as ->. repeat case_decide; try done; intros [= <-]; auto 10.
  - apply demo_kernel_lookup in Ev as ->. case_decide; try done; intros [= <-]; auto.
Qed.

Lemma demo_kernel_at p q : is_Some (spaces (demo p) !! q) -> table_at (demo p) q 4 = Some 0x1000000.
Proof. intros [sp E]. unfold table_at. rewrite E. by apply demo_space in E as [[-> ->]|(_ & k & ->)]. Qed.

Lemma demo_ok p : pts_ok p -> 0x1000000 ∈ pts_owned p -> 0x1001000 ∈ pts_owned p -> spaces_ok (demo p).
Proof.
  intros Hp Ho Ho'. split.
  - intros q sp E. by apply demo_space in E as [[-> ->]|(_ & k & ->)].
  - intros q i a [[-> ->]|(-> & -> & ->)]%demo_table_at; (split; [done|]); [exists demo_kernel_table|exists demo_table]; done.
  - intros q r i j a H1%demo_table_at H2%demo_table_at. split; [lia|]. destruct (decide (i < 32)%nat); [by right|left; lia].
  - intros q r i Hi Hq Hr. destruct (decide (i = 4%nat)) as [->|Hne]; [by rewrite !demo_kernel_at|].
    destruct (table_at (demo p) q i) eqn:E1; [apply demo_table_at in E1; lia|]. destruct (table_at (demo p) r i) eqn:E2; [apply demo_table_at in E2; lia|done].
  - split; [done|]. intros q. cbn [demo spaces addressSpaces]. rewrite !lookup_insert_is_Some', lookup_singleton_is_Some. vm_compute (ArrayList.contents _). set_solver.
  - done.
  - intros q i v pe [(-> & -> & ->)|[(_ & -> & -> & ->)|(-> & ->)]]%demo_entries; [right..|left]; done.
Qed.

Lemma demo_translate_kernel p q v : is_Some (spaces (demo p) !! q) -> dir v = 4%nat -> translate (demo p) q v = e ← demo_kernel_table !! tab v; used_entry e.
Proof. intros Hq Hv. unfold translate. by rewrite Hv, demo_kernel_at. Qed.

Lemma demo_backed p : backed (demo p).
Proof.
  intros q i v pe H Hu. pose proof (entries_space _ _ _ _ _ H) as Hq. apply demo_entries in H as [(-> & -> & ->)|[(-> & -> & -> & ->)|(-> & ->)]]; [| |done].
  - exists (set 0x2000000 3). split; [|done]. by rewrite demo_translate_kernel.
  - exists (set 0x2001000 3). split; [|done]. by rewrite demo_translate_kernel.
Qed.

(** A new page of the second space is not visible in the third; the processor finds it. *)
Lemma map_spec_witness :
  exists p s', map 2 0x6000 0x9001000 7 (demo p) = Ok s' /\ translate s' 2 0x9001234 = Some (set 0x6000 7) /\ processor_finds s' 2 0x9001234 (set 0x6000 7) /\
    translate s' 2 0x9000000 = Some (set 0x5000 7) /\ translate s' 3 0x9001234 = None.
Proof.
  destruct demo_paging as (p & Hp & Ho & Ho' & _ & p' & Ha). exists p.
  pose proof (map_spec (demo p) 2 0x6000 0x9001000 7 (demo_ok p Hp Ho Ho') (demo_backed p)) as H.
  destruct H as (s' & E & _ & _ & Htr); [eexists; reflexivity|lia|done|done| |].
  { exists 0x1008000, p'. split; [exact Ha|]. split; [done|]. eexists. reflexivity. }
  destruct (Htr 2 0x9001234) as [H1 H2]; [lia|]. destruct (Htr 2 0x9000000) as [H3 _]; [lia|]. destruct (Htr 3 0x9001234) as [H4 _]; [lia|].
  assert (E1 : translate s' 2 0x9001234 = Some (set 0x6000 7)) by (rewrite H1; vm_compute; reflexivity).
  exists s'. split; [exact E|]. split; [exact E1|]. split; [exact (H2 _ E1)|]. rewrite H3, H4. split; vm_compute; reflexivity.
Defined.

(** A page in a part of the address space that has no page table yet: the new table is the block 0x1008000. *)
Lemma map_new_table : exists p s', map 3 0x6000 0xa000000 7 (demo p) = Ok s' /\ processor_finds s' 3 0xa000000 (set 0x6000 7).
Proof.
  destruct demo_paging as (p & Hp & Ho & Ho' & _ & p' & Ha). exists p.
  pose proof (map_ok (demo p) 3 0x6000 0xa000000 7 (demo_ok p Hp Ho Ho')) as H.
  destruct H as (s' & E & Hok & _ & Htr & Hb); [eexists; reflexivity|lia|done|done|by eexists _, _|].
  exists s'. split; [exact E|]. apply backed_finds; [done| |rewrite Htr by lia; vm_compute; reflexivity].
  apply Hb; [apply demo_backed|]. intros a q E'. change (pagingAreaManager (demo p)) with p in E'. rewrite Ha in E'. injection E' as <- <-. split; [done|]. eexists. reflexivity.
Qed.

Lemma unmap_spec_witness :
  exists p s', unmap 3 2 0x9000abc (demo p) = Ok (0x5000, s') /\ translate s' 2 0x9000000 = None.
Proof.
  destruct demo_paging as (p & Hp & Ho & Ho' & Hk & _). exists p.
  destruct (unmap_spec (demo p) 2 0x9000abc 3 (demo_ok p Hp Ho Ho') Hk) as (r & s' & E & Hok & Hr & Hgone & _);
    [eexists; reflexivity|eexists; reflexivity|lia|done|vm_compute; lia|].
  exists s'. split; [rewrite E, Hr; reflexivity|]. exact Hgone.
Defined.

End VirtualAddressSpace.
