(* ===== verification/FreeListMemoryManager.v ===== *)
(** * FreeListMemoryManager.v: the heap

    [lib/util/base/FreeListMemoryManager]: first-fit allocation on a doubly
    linked list of free chunks, each with a header of three words in front of its
    data. The headers live in memory: [headers] maps an address to the header
    that was written there, and following a pointer to an address without a
    header is a fault. *)

From S2P Require Import Prelude Bits Atomic Spinlock Address.
Import Spinlock.Spinlock.

Record FreeListHeader := mkHeader { prev : Z; next : Z; hsize : Z }.

(** [unmapCalls] records the calls of [unmap] (start address, page count), which
    gives page frames of a large free chunk back; [lose_pages] is what they do to the
    headers. *)
Record FreeListMemoryManager := mkHeap {
  startAddress : Z;
  endAddress : Z;
  lock : Spinlock;
  firstChunk : Z;
  unmapFreedMemory : bool;
  headers : gmap Z FreeListHeader;
  unmapCalls : list (Z * Z)
}.

Definition MIN_BLOCK_SIZE : Z := 4.
Definition HEADER_SIZE : Z := 12.
Definition PAGESIZE : Z := 0x1000.

Notation alignUp := Address.alignUp.

(** ** Memory accesses *)

Definition with_headers (h : gmap Z FreeListHeader) (s : FreeListMemoryManager) : FreeListMemoryManager :=
  mkHeap (startAddress s) (endAddress s) (lock s) (firstChunk s) (unmapFreedMemory s) h (unmapCalls s).

Definition with_first (f : Z) (s : FreeListMemoryManager) : FreeListMemoryManager :=
  mkHeap (startAddress s) (endAddress s) (lock s) f (unmapFreedMemory s) (headers s) (unmapCalls s).

Definition with_lock (l : Spinlock) (s : FreeListMemoryManager) : FreeListMemoryManager :=
  mkHeap (startAddress s) (endAddress s) l (firstChunk s) (unmapFreedMemory s) (headers s) (unmapCalls s).

Definition header (a : Z) (s : FreeListMemoryManager) : outcome FreeListHeader := of_option (headers s !! a).

Definition store (a : Z) (h : FreeListHeader) (s : FreeListMemoryManager) : FreeListMemoryManager :=
  with_headers (<[a := h]> (headers s)) s.

Definition set_prev (a v : Z) (s : FreeListMemoryManager) : outcome FreeListMemoryManager :=
  h ← header a s; Ok (store a (mkHeader v (next h) (hsize h)) s).
Definition set_next (a v : Z) (s : FreeListMemoryManager) : outcome FreeListMemoryManager :=
  h ← header a s; Ok (store a (mkHeader (prev h) v (hsize h)) s).
Definition set_size (a v : Z) (s : FreeListMemoryManager) : outcome FreeListMemoryManager :=
  h ← header a s; Ok (store a (mkHeader (prev h) (next h) v) s).

(** ** Operations *)

Definition getStartAddress (s : FreeListMemoryManager) : Z := startAddress s.
Definition getEndAddress (s : FreeListMemoryManager) : Z := endAddress s.
Definition getTotalMemory (s : FreeListMemoryManager) : Z := u32 (endAddress s - startAddress s + 1).
Definition isLocked (s : FreeListMemoryManager) : bool := Spinlock.Spinlock.isLocked (lock s).
Definition disableAutomaticUnmapping (s : FreeListMemoryManager) : FreeListMemoryManager :=
  mkHeap (startAddress s) (endAddress s) (lock s) (firstChunk s) false (headers s) (unmapCalls s).

Definition initialize (startAddress endAddress : Z) (s : FreeListMemoryManager) : outcome FreeListMemoryManager :=
  let s := mkHeap startAddress endAddress (lock s) (firstChunk s) (unmapFreedMemory s) (headers s) (unmapCalls s) in
  if getTotalMemory s <? HEADER_SIZE then Throw ILLEGAL_STATE
  else
    let s := with_first startAddress s in
    Ok (store startAddress (mkHeader 0 0 (u32 (getTotalMemory s - HEADER_SIZE))) s).

(** [fuel] bounds the number of chunks visited. *)
Fixpoint findNext (fuel : nat) (current reqSize : Z) (s : FreeListMemoryManager) : outcome Z :=
  if current =? 0 then Ok 0
  else
    match fuel with
    | O => Loops
    | S fuel =>
      h ← header current s;
      if hsize h >=? reqSize then Ok current else findNext fuel (next h) reqSize s
    end.

(** [while (alignedData - HEADER_SIZE < data + MIN_BLOCK_SIZE) alignedData += alignment]:
    at most sixteen rounds make room for a header and the smallest block. *)
Fixpoint make_room (fuel : nat) (alignedData data alignment : Z) : outcome Z :=
  if u32 (alignedData - HEADER_SIZE) <? u32 (data + MIN_BLOCK_SIZE) then
    match fuel with
    | O => Loops
    | S fuel => make_room fuel (u32 (alignedData + alignment)) data alignment
    end
  else Ok alignedData.

(** Cutting the chunk [current] in two so that the second part, [aligned],
    carries the aligned data. The links of the new header are written below
    before they are read. *)
Definition split_aligned (current aligned : Z) (s : FreeListMemoryManager) : outcome FreeListMemoryManager :=
  h ← header current s;
  let s := store aligned (mkHeader 0 0 (u32 (current + hsize h - aligned))) s in
  s ← set_size current (u32 (aligned - u32 (current + HEADER_SIZE))) s;
  s ← set_prev aligned current s;
  h ← header current s;
  s ← set_next aligned (next h) s;
  a ← header aligned s;
  s ← (if negb (next a =? 0) then set_prev (next a) aligned s else Ok s);
  a ← header aligned s;
  set_next (prev a) aligned s.

(** One chunk of the search loop of [allocAlgorithm]; [size] is already rounded
    up. The result is the chunk to take, [0] when this one does not do. *)
Definition visit (size alignment current : Z) (s : FreeListMemoryManager) : outcome (Z * FreeListMemoryManager) :=
  h ← header current s;
  if hsize h >=? size then
    let data := u32 (current + HEADER_SIZE) in
    let alignedData := alignUp data alignment in
    if data =? alignedData then Ok (current, s)
    else
      alignedData ← make_room 16 alignedData data alignment;
      let aligned := u32 (alignedData - HEADER_SIZE) in
      if u32 (u32 (aligned + HEADER_SIZE) + size) <=? u32 (u32 (current + HEADER_SIZE) + hsize h) then
        s ← split_aligned current aligned s; Ok (aligned, s)
      else Ok (0, s)
  else Ok (0, s).

(** The search loop: the chunk to take, [0] when there is none. *)
Fixpoint search (fuel : nat) (size alignment current : Z) (s : FreeListMemoryManager) : outcome (Z * FreeListMemoryManager) :=
  if current =? 0 then Ok (0, s)
  else
    match fuel with
    | O => Loops
    | S fuel =>
      '(hit, s) ← visit size alignment current s;
      if negb (hit =? 0) then Ok (hit, s)
      else
        h ← header current s;
        current ← findNext fuel (next h) size s;
        search fuel size alignment current s
    end.

(** Taking the chunk [current] out of the list, with what is left of it put in
    its place. *)
Definition take_chunk (current size : Z) (s : FreeListMemoryManager) : outcome FreeListMemoryManager :=
  h ← header current s;
  s ← (
    if u32 (hsize h - size) >=? MIN_BLOCK_SIZE + HEADER_SIZE then
      let slice := u32 (u32 (current + HEADER_SIZE) + size) in
      let s := store slice (mkHeader (prev h) (next h) (u32 (u32 (hsize h - size) - HEADER_SIZE))) s in
      s ← (if negb (next h =? 0) then set_prev (next h) slice s else Ok s);
      s ← (if negb (prev h =? 0) then set_next (prev h) slice s else Ok (with_first slice s));
      set_size current size s
    else
      s ← (if negb (next h =? 0) then set_prev (next h) (prev h) s else Ok s);
      (if negb (prev h =? 0) then set_next (prev h) (next h) s else Ok (with_first (next h) s)));
  s ← set_next current 0 s;
  set_prev current 0 s.

Definition chunk_fuel (s : FreeListMemoryManager) : nat := size (headers s).

Definition allocAlgorithm (size alignment startChunk : Z) (s : FreeListMemoryManager) : outcome (Z * FreeListMemoryManager) :=
  if size =? 0 then Ok (0, s)
  else
    let startChunk := if startChunk =? 0 then firstChunk s else startChunk in
    let size := alignUp size 4 in
    '(current, s) ← search (chunk_fuel s) size alignment startChunk s;
    if current =? 0 then Ok (0, s)
    else
      s ← take_chunk current size s;
      Ok (u32 (current + HEADER_SIZE), s).

Definition allocateMemory (size alignment : Z) (s : FreeListMemoryManager) : outcome (Z * FreeListMemoryManager) :=
  l ← acquire 1 (lock s);
  '(ret, s) ← allocAlgorithm size alignment (firstChunk s) (with_lock l s);
  let s := with_lock (release (lock s)) s in
  if (size >? 0) && (ret =? 0) then Throw OUT_OF_MEMORY
  else if (size >? 0) && ((ret <? startAddress s) || (ret >? endAddress s)) then Throw ILLEGAL_STATE
  else Ok (ret, s).

(** The position of a freed block in the list: the chunk before it. *)
Fixpoint find_place (fuel : nat) (tmp hd : Z) (s : FreeListMemoryManager) : outcome Z :=
  if tmp =? 0 then Ok 0
  else
    match fuel with
    | O => Loops
    | S fuel =>
      h ← header tmp s;
      if (hd >? tmp) && ((hd <? next h) || (next h =? 0)) then Ok tmp
      else find_place fuel (next h) hd s
    end.

(** The chunk [tmp] takes in its successor. *)
Definition absorb (tmp : Z) (s : FreeListMemoryManager) : outcome FreeListMemoryManager :=
  t ← header tmp s;
  n ← header (next t) s;
  s ← set_size tmp (u32 (hsize t + u32 (hsize n + HEADER_SIZE))) s;
  s ← (if negb (next n =? 0) then set_prev (next n) tmp s else Ok s);
  set_next tmp (next n) s.

Definition merge (origin : Z) (s : FreeListMemoryManager) : outcome (Z * FreeListMemoryManager) :=
  if firstChunk s =? 0 then Ok (0, s)
  else
    o ← header origin s;
    s ← (if negb (next o =? 0) && (u32 (u32 (origin + HEADER_SIZE) + hsize o) =? next o) then absorb origin s else Ok s);
    o ← header origin s;
    let tmp := prev o in
    if tmp =? 0 then Ok (origin, s)
    else
      t ← header tmp s;
      if u32 (u32 (tmp + HEADER_SIZE) + hsize t) =? origin then s ← absorb tmp s; Ok (tmp, s)
      else Ok (origin, s).

(** Linking a freed block into the list at its place. *)
Definition insert_free (hd : Z) (s : FreeListMemoryManager) : outcome FreeListMemoryManager :=
  if firstChunk s =? 0 then Ok (with_first hd s)
  else if hd <? firstChunk s then
    s ← set_next hd (firstChunk s) s;
    s ← set_prev hd 0 s;
    s ← set_prev (firstChunk s) hd s;
    Ok (with_first hd s)
  else
    tmp ← find_place (chunk_fuel s) (firstChunk s) hd s;
    if tmp =? 0 then Ok s
    else
      t ← header tmp s;
      s ← set_next hd (next t) s;
      s ← set_prev hd tmp s;
      h ← header hd s;
      s ← (if negb (next h =? 0) then set_prev (next h) hd s else Ok s);
      h ← header hd s;
      set_next (prev h) hd s.

Section mm.
(** [isMemoryManagementInitialized()] *)
Context (mmInitialized : bool).
(** What memory without a header reads as: the bytes of the user's data, or those of a page that was unmapped and is
    mapped again, to another frame, at the next access. *)
Context (stale : Z -> FreeListHeader).

(** The addresses that [MemoryService::unmap] takes pages away from: the start is rounded up to a page, and then there is
    one page less. *)
Definition unmap_range (start pageCount : Z) : Z * Z :=
  let '(start, pageCount) := if negb (start mod PAGESIZE =? 0) then (alignUp start PAGESIZE, u32 (pageCount - 1)) else (start, pageCount) in
  (start, start + pageCount * PAGESIZE).

(** The headers after [unmap]: those that lie in its pages, or reach into them, are lost. *)
Definition lose_pages (start pageCount : Z) (h : gmap Z FreeListHeader) : gmap Z FreeListHeader :=
  let '(first, last) := unmap_range start pageCount in
  map_imap (fun a x => Some (if (first <? a + HEADER_SIZE) && (a <? last) then stale a else x)) h.

Definition freeAlgorithm (ptr : Z) (s : FreeListMemoryManager) : outcome FreeListMemoryManager :=
  if ptr =? 0 then Ok s
  else if (ptr <? startAddress s) || (ptr >? endAddress s) then Throw OUT_OF_BOUNDS
  else
    let hd := u32 (ptr - HEADER_SIZE) in
    s ← insert_free hd s;
    '(merged, s) ← merge hd s;
    h ← header merged s;
    if unmapFreedMemory s && (hsize h >=? PAGESIZE) && mmInitialized then
      let size := u32 (HEADER_SIZE + hsize h) in
      Ok (mkHeap (startAddress s) (endAddress s) (lock s) (firstChunk s) (unmapFreedMemory s)
            (lose_pages (u32 (merged + HEADER_SIZE)) (size / PAGESIZE) (headers s))
            ((u32 (merged + HEADER_SIZE), size / PAGESIZE) :: unmapCalls s))
    else Ok s.

(** An exception inside leaves the lock acquired. *)
Definition freeMemory (ptr : Z) (s : FreeListMemoryManager) : outcome FreeListMemoryManager :=
  l ← acquire 1 (lock s);
  s ← freeAlgorithm ptr (with_lock l s);
  Ok (with_lock (release (lock s)) s).

(** The loop of [reallocateMemory] over the chunks in front of [ptr]: the best
    fit so far and the chunk where the loop stopped. *)
Fixpoint realloc_scan (fuel : nat) (ptr size currentChunk returnChunk : Z) (s : FreeListMemoryManager) : outcome (Z * Z) :=
  match fuel with
  | O => Loops
  | S fuel =>
    c ← header currentChunk s;
    returnChunk ← (
      if hsize c >=? size then
        if returnChunk =? 0 then Ok currentChunk
        else r ← header returnChunk s; Ok (if hsize c <? hsize r then currentChunk else returnChunk)
      else Ok returnChunk);
    if negb (next c =? 0) && (next c <? ptr) then realloc_scan fuel ptr size (next c) returnChunk s
    else Ok (next c, returnChunk)
  end.

Definition aligned_ptr (ptr alignment : Z) : bool := (alignment =? 0) || (ptr mod alignment =? 0).

(** The copy of the data ([copyRange]) has no effect on the headers. The result
    is the new pointer, or [inl] when the block was kept in place. *)
Definition grow (ptr size alignment : Z) (s : FreeListMemoryManager) : outcome ((Z + Z) * FreeListMemoryManager) :=
  let oldHeader := u32 (ptr - HEADER_SIZE) in
  l ← acquire 1 (lock s);
  let s := with_lock l s in
  '(currentChunk, returnChunk) ← realloc_scan (chunk_fuel s) ptr size (firstChunk s) 0 s;
  o ← header oldHeader s;
  extend ← (
    if negb (currentChunk =? 0) then
      c ← header currentChunk s;
      Ok ((u32 (ptr + hsize o) =? currentChunk) && (u32 (u32 (hsize o + hsize c) + HEADER_SIZE) >=? size))
    else Ok false);
  if extend : bool then
    c ← header currentChunk s;
    s ← set_next (prev c) (next c) s;
    s ← (if negb (next c =? 0) then set_prev (next c) (prev c) s else Ok s);
    s ← set_size oldHeader (u32 (hsize o + u32 (hsize c + HEADER_SIZE))) s;
    o ← header oldHeader s;
    s ← (
      if u32 (hsize o - size) >? HEADER_SIZE + MIN_BLOCK_SIZE then
        let newHeader := u32 (ptr + size) in
        let n := stale newHeader in
        let s := store newHeader (mkHeader (prev n) (next n) (u32 (u32 (hsize o - size) - HEADER_SIZE))) s in
        s ← freeAlgorithm (u32 (newHeader + HEADER_SIZE)) s;
        set_size oldHeader size s
      else Ok s);
    Ok (inl ptr, with_lock (release (lock s)) s)
  else
    '(ret, s) ← allocAlgorithm size alignment returnChunk s;
    Ok (inr ret, with_lock (release (lock s)) s).

Definition reallocateMemory (ptr size alignment : Z) (s : FreeListMemoryManager) : outcome (Z * FreeListMemoryManager) :=
  if size =? 0 then s ← freeMemory ptr s; Ok (0, s)
  else
    let oldHeader := u32 (ptr - HEADER_SIZE) in
    o ← header oldHeader s;
    '(ret, s) ← (
      if hsize o =? size then
        if aligned_ptr ptr alignment then Ok (inl ptr, s)
        else '(ret, s) ← allocateMemory size alignment s; Ok (inr ret, s)
      else if size <? hsize o then
        if aligned_ptr ptr alignment then
          if u32 (hsize o - size) >? MIN_BLOCK_SIZE + HEADER_SIZE then
            let newHeader := u32 (ptr + size) in
            let n := stale newHeader in
            let s := store newHeader (mkHeader (prev n) (next n) (u32 (u32 (hsize o - size) - HEADER_SIZE))) s in
            s ← freeMemory (u32 (newHeader + HEADER_SIZE)) s;
            s ← set_size oldHeader size s;
            Ok (inl ptr, s)
          else Ok (inl ptr, s)
        else '(ret, s) ← allocateMemory size alignment s; Ok (inr ret, s)
      else if aligned_ptr ptr alignment then grow ptr size alignment s
      else '(ret, s) ← allocateMemory size alignment s; Ok (inr ret, s));
    match ret with
    | inl p => Ok (p, s)
    | inr ret =>
      if negb (ret =? 0) then
        if (ret <? startAddress s) || (ret >? endAddress s) then Throw OUT_OF_BOUNDS
        else s ← freeMemory ptr s; Ok (ret, s)
      else Ok (ret, s)
    end.

End mm.

Fixpoint getFreeMemory_loop (fuel : nat) (current freeMemory : Z) (s : FreeListMemoryManager) : outcome Z :=
  if current =? 0 then Ok freeMemory
  else
    match fuel with
    | O => Loops
    | S fuel => h ← header current s; getFreeMemory_loop fuel (next h) (u32 (freeMemory + hsize h)) s
    end.

Definition getFreeMemory (s : FreeListMemoryManager) : outcome Z :=
  getFreeMemory_loop (chunk_fuel s) (firstChunk s) 0 s.

(** * Linked segments

    [seg h p f l q n]: from [f] on, the headers in [h] link the chunks [l] (address
    and size) in both directions; [p] is the predecessor of the first one, [q] the
    last one ([p] when there is none) and [n] its successor. *)

Fixpoint seg (h : gmap Z FreeListHeader) (p f : Z) (l : list (Z * Z)) (q n : Z) : Prop :=
  match l with
  | [] => q = p /\ f = n
  | (a, sz) :: l => f = a /\ a <> 0 /\ exists x, h !! a = Some (mkHeader p x sz) /\ seg h a x l q n
  end.

Lemma seg_app h p f l1 l2 q n :
  seg h p f (l1 ++ l2) q n <-> exists q1 f2, seg h p f l1 q1 f2 /\ seg h q1 f2 l2 q n.
Proof.
  revert p f. induction l1 as [|[a sz] l1 IH]; intros p f; cbn.
  - split; [eauto|]. by intros (? & ? & [-> ->] & ?).
  - setoid_rewrite IH. split.
    + intros (-> & H0 & x & Hx & q1 & f2 & H1 & H2). exists q1, f2. eauto 10.
    + intros (q1 & f2 & (-> & H0 & x & Hx & H1) & H2). eauto 10.
Qed.

Lemma seg_frame h h' p f l q n :
  (forall a, a ∈ l.*1 -> h' !! a = h !! a) -> seg h p f l q n -> seg h' p f l q n.
Proof.
  revert p f. induction l as [|[a sz] l IH]; intros p f Hf; cbn; [done|].
  intros (-> & H0 & x & Hx & Hs). split; [done|]. split; [done|]. exists x. split.
  - rewrite Hf; [done|]. cbn. constructor.
  - apply IH; [|done]. intros b Hb. apply Hf. cbn. by constructor.
Qed.

Lemma seg_insert h p f l q n a hd :
  a ∉ l.*1 -> seg h p f l q n -> seg (<[a := hd]> h) p f l q n.
Proof. intros Ha. apply seg_frame. intros b Hb. apply lookup_insert_ne. by intros ->. Qed.

(** The end points: either the segment is empty, or they are the first and the
    last chunk. *)
Lemma seg_last h p f l q n :
  seg h p f l q n -> (l = [] /\ q = p /\ f = n) \/
  exists l' sz pq, l = l' ++ [(q, sz)] /\ q <> 0 /\ h !! q = Some (mkHeader pq n sz) /\ seg h p f l' pq q.
Proof.
  destruct (list_eq_nil_dec l) as [->|Hl]; [by left; cbn in *; destruct_and?|].
  destruct (exists_last Hl) as (l' & [a sz] & ->). rewrite seg_app. cbn.
  intros (q1 & f2 & H1 & -> & H0 & x & Hx & [-> ->]). right. eauto 10.
Qed.

Lemma seg_first h p f l q n :
  seg h p f l q n -> (l = [] /\ q = p /\ f = n) \/
  exists l' sz x, l = (f, sz) :: l' /\ f <> 0 /\ h !! f = Some (mkHeader p x sz) /\ seg h f x l' q n.
Proof. destruct l as [|[a sz] l]; cbn; [by left|]. intros (-> & H0 & x & Hx & Hs). right. eauto 10. Qed.

(** Redirecting the successor of the last chunk (or the list head), and the
    predecessor of the first chunk. *)
Definition upd_next (q n : Z) (h : gmap Z FreeListHeader) : gmap Z FreeListHeader :=
  if q =? 0 then h else match h !! q with Some hd => <[q := mkHeader (prev hd) n (hsize hd)]> h | None => h end.

Definition upd_prev (f p : Z) (h : gmap Z FreeListHeader) : gmap Z FreeListHeader :=
  if f =? 0 then h else match h !! f with Some hd => <[f := mkHeader p (next hd) (hsize hd)]> h | None => h end.

Lemma upd_next_ne q n h a : a <> q -> upd_next q n h !! a = h !! a.
Proof.
  intros Ha. unfold upd_next. destruct (q =? 0); [done|]. destruct (h !! q); [|done]. by rewrite lookup_insert_ne.
Qed.

Lemma upd_prev_ne f p h a : a <> f -> upd_prev f p h !! a = h !! a.
Proof.
  intros Ha. unfold upd_prev. destruct (f =? 0); [done|]. destruct (h !! f); [|done]. by rewrite lookup_insert_ne.
Qed.

Lemma seg_upd_next h f l q n n' :
  NoDup l.*1 -> seg h 0 f l q n -> seg (upd_next q n' h) 0 (if q =? 0 then n' else f) l q n'.
Proof.
  intros Hd Hs. destruct (seg_last _ _ _ _ _ _ Hs) as [(-> & -> & ->)|(l' & sz & pq & -> & H0 & Hq & Hs')]; [done|].
  unfold upd_next. destruct (Z.eqb_spec q 0); [done|]. rewrite Hq. cbn [prev hsize]. apply seg_app.
  rewrite fmap_app in Hd. apply NoDup_app in Hd as (_ & Hd & _).
  exists pq, q. split.
  - apply seg_insert; [|done]. intros Hin. apply (Hd q Hin). by left.
  - cbn. split; [done|]. split; [done|]. exists n'. by rewrite lookup_insert_eq.
Qed.

Lemma seg_upd_prev h p p' f l q :
  NoDup l.*1 -> seg h p f l q 0 -> seg (upd_prev f p' h) p' f l (if decide (l = []) then p' else q) 0.
Proof.
  intros Hd Hs. destruct (seg_first _ _ _ _ _ _ Hs) as [(-> & -> & ->)|(l' & sz & x & -> & H0 & Hf & Hs')]; [done|].
  unfold upd_prev. destruct (Z.eqb_spec f 0); [done|]. rewrite Hf. cbn [next hsize]. rewrite decide_False by done. cbn.
  split; [done|]. split; [done|]. exists x. rewrite lookup_insert_eq. split; [done|].
  cbn in Hd. apply NoDup_cons in Hd as [Hd _]. by apply seg_insert.
Qed.

(** Putting the segment [m] between [l1] and [l2]: the two neighbours are
    redirected, in the order the code does it. *)
Lemma relink h f l1 q1 x b m e r n2 l2 q :
  NoDup (l1 ++ m ++ l2).*1 ->
  seg h 0 f l1 q1 x -> seg h q1 b m e n2 -> seg h r n2 l2 q 0 ->
  exists q', seg (upd_next q1 b (upd_prev n2 e h)) 0 (if q1 =? 0 then b else f) (l1 ++ m ++ l2) q' 0.
Proof.
  rewrite !fmap_app. intros (D1 & D2 & (D3 & D4 & D5)%NoDup_app)%NoDup_app S1 Sm S2.
  assert (Hn2 : forall a, a ∈ l1.*1 ++ m.*1 -> a <> 0 -> a <> n2).
  { intros a Ha Hnz ->. destruct (seg_first _ _ _ _ _ _ S2) as [(-> & _ & ->)|(l' & sz & y & -> & _)]; [done|].
    apply elem_of_app in Ha as [Ha|Ha]; [apply (D2 n2 Ha); apply elem_of_app; right|apply (D4 n2 Ha)]; by left. }
  assert (Hq1 : forall a, a ∈ m.*1 ++ l2.*1 -> a <> 0 -> a <> q1).
  { intros a Ha Hnz ->. destruct (seg_last _ _ _ _ _ _ S1) as [(-> & -> & _)|(l' & sz & y & -> & _)]; [done|].
    apply (D2 q1); [|done]. rewrite fmap_app. apply elem_of_app. right. by left. }
  assert (Hnz : forall p f l q n a, seg h p f l q n -> a ∈ l.*1 -> a <> 0).
  { intros p' f' l. revert p' f'. induction l as [|[a' sz'] l IH]; intros p' f' q' n' a; cbn; [by intros _ ?%not_elem_of_nil|].
    intros (-> & H0 & y & _ & Hs) [->|Ha]%elem_of_cons; [done|]. eapply IH; eauto. }
  set (h1 := upd_prev n2 e h).
  assert (S1' : seg h1 0 f l1 q1 x).
  { eapply seg_frame; [|exact S1]. intros a Ha. apply upd_prev_ne. apply Hn2; [apply elem_of_app; by left|eauto]. }
  assert (Sm' : seg h1 q1 b m e n2).
  { eapply seg_frame; [|exact Sm]. intros a Ha. apply upd_prev_ne. apply Hn2; [apply elem_of_app; by right|eauto]. }
  pose proof (seg_upd_prev h r e n2 l2 q D5 S2) as S2'. fold h1 in S2'.
  eexists. apply seg_app. exists q1, b. split; [by apply (seg_upd_next _ _ _ _ x)|]. apply seg_app. exists e, n2.
  split; (eapply seg_frame; [|eassumption]); intros a Ha; apply upd_next_ne; (apply Hq1; [apply elem_of_app; by auto|eauto]).
Qed.

Definition chain (s : FreeListMemoryManager) (l : list (Z * Z)) : Prop :=
  exists q, seg (headers s) 0 (firstChunk s) l q 0.

(** The two guarded writes of the code, as updates of the links. *)
Lemma set_prev_upd f v s :
  f = 0 \/ is_Some (headers s !! f) ->
  (if negb (f =? 0) then set_prev f v s else Ok s) = Ok (with_headers (upd_prev f v (headers s)) s).
Proof.
  intros Hf. unfold upd_prev, set_prev, header. destruct (Z.eqb_spec f 0); cbn [negb]; [by destruct s|].
  destruct Hf as [|[hd ->]]; [done|]. done.
Qed.

Lemma set_next_upd q v s :
  q = 0 \/ is_Some (headers s !! q) ->
  (if negb (q =? 0) then set_next q v s else Ok (with_first v s)) =
  Ok (with_first (if q =? 0 then v else firstChunk s) (with_headers (upd_next q v (headers s)) s)).
Proof.
  intros Hq. unfold upd_next, set_next, header. destruct (Z.eqb_spec q 0); cbn [negb]; [by destruct s|].
  destruct Hq as [|[hd ->]]; [done|]. done.
Qed.

(** The neighbours of a chunk are [0] or members of their lists. *)
Definition neighbour (q : Z) (l : list (Z * Z)) (s : FreeListMemoryManager) : Prop :=
  q = 0 \/ (q ∈ l.*1 /\ is_Some (headers s !! q)).

(** A chunk of the list with its neighbours. *)
Lemma chain_middle s l1 c sz l2 :
  chain s (l1 ++ (c, sz) :: l2) ->
  exists q1 n2 q, seg (headers s) 0 (firstChunk s) l1 q1 c /\ c <> 0 /\
    headers s !! c = Some (mkHeader q1 n2 sz) /\ seg (headers s) c n2 l2 q 0 /\
    neighbour q1 l1 s /\ neighbour n2 l2 s.
Proof.
  intros [q H]. apply seg_app in H as (q1 & f2 & H1 & H2). cbn in H2. destruct H2 as (-> & H0 & n2 & Hc & H2).
  exists q1, n2, q. split_and!; try done.
  - destruct (seg_last _ _ _ _ _ _ H1) as [(-> & -> & _)|(l' & sz' & pq & -> & Hq & Hh & _)]; [by left|right].
    rewrite Hh. split; [|done]. rewrite fmap_app. apply elem_of_app. right. by left.
  - destruct (seg_first _ _ _ _ _ _ H2) as [(-> & _ & ->)|(l' & sz' & y & -> & Hn & Hh & _)]; [by left|right].
    rewrite Hh. split; [by left|done].
Qed.

(** What changes besides the headers of the chunks in a list. *)
Definition frame (l : list Z) (s s' : FreeListMemoryManager) : Prop :=
  (forall a, a ∉ l -> headers s' !! a = headers s !! a) /\
  startAddress s' = startAddress s /\ endAddress s' = endAddress s /\ lock s' = lock s /\
  unmapFreedMemory s' = unmapFreedMemory s.

(** ** Taking a chunk *)

(** What is left of a chunk of [sz] bytes at [c] after [size] bytes are taken. *)
Definition slice_of (c sz size : Z) : list (Z * Z) :=
  if sz - size >=? MIN_BLOCK_SIZE + HEADER_SIZE then [(c + HEADER_SIZE + size, sz - size - HEADER_SIZE)] else [].

Definition taken_size (sz size : Z) : Z := if sz - size >=? MIN_BLOCK_SIZE + HEADER_SIZE then size else sz.

Lemma set_size_ok a v s hd : headers s !! a = Some hd -> set_size a v s = Ok (store a (mkHeader (prev hd) (next hd) v) s).
Proof. intros H. unfold set_size, header. by rewrite H. Qed.
Lemma set_next_ok a v s hd : headers s !! a = Some hd -> set_next a v s = Ok (store a (mkHeader (prev hd) v (hsize hd)) s).
Proof. intros H. unfold set_next, header. by rewrite H. Qed.
Lemma set_prev_ok a v s hd : headers s !! a = Some hd -> set_prev a v s = Ok (store a (mkHeader v (next hd) (hsize hd)) s).
Proof. intros H. unfold set_prev, header. by rewrite H. Qed.

Lemma lookup_store a b hd s : headers (store a hd s) !! b = if decide (b = a) then Some hd else headers s !! b.
Proof. unfold store. cbn. destruct (decide (b = a)) as [->|]; [by rewrite lookup_insert_eq|by rewrite lookup_insert_ne]. Qed.

Lemma upd_next_out q n h l a s : neighbour q l s -> a ∉ l.*1 -> upd_next q n h !! a = h !! a.
Proof. intros [->|[Hq _]] Ha; [done|]. apply upd_next_ne. by intros ->. Qed.
Lemma upd_prev_out f p h l a s : neighbour f l s -> a ∉ l.*1 -> upd_prev f p h !! a = h !! a.
Proof. intros [->|[Hf _]] Ha; [done|]. apply upd_prev_ne. by intros ->. Qed.

(** Both guarded writes on a state in which the neighbours have headers. *)
Lemma redirect q1 n2 b e l1 l2 s :
  neighbour q1 l1 s -> neighbour n2 l2 s -> l1.*1 ## l2.*1 ->
  (s ← (if negb (n2 =? 0) then set_prev n2 e s else Ok s);
   (if negb (q1 =? 0) then set_next q1 b s else Ok (with_first b s))) =
  Ok (with_first (if q1 =? 0 then b else firstChunk s) (with_headers (upd_next q1 b (upd_prev n2 e (headers s))) s)).
Proof.
  intros Hq Hn Hd. rewrite set_prev_upd by (destruct Hn as [|[]]; auto). mcbn. rewrite set_next_upd; [done|].
  destruct Hq as [|[Hin Hs]]; [by left|right]. cbn [headers with_headers].
  rewrite (upd_prev_out n2 e (headers s) l2 q1 _ Hn); [done|]. intros Hin2. by apply (Hd q1).
Qed.

Lemma clear_links_ok c s hd :
  headers s !! c = Some hd ->
  (s ← set_next c 0 s; set_prev c 0 s) = Ok (with_headers (<[c := mkHeader 0 0 (hsize hd)]> (headers s)) s).
Proof.
  intros H. erewrite set_next_ok by exact H. mcbn. erewrite set_prev_ok by (rewrite lookup_store, decide_True by done; reflexivity).
  cbn [next hsize]. unfold store, with_headers. cbn. do 2 f_equal. by rewrite insert_insert_eq.
Qed.

Lemma frame_refl l s : frame l s s.
Proof. by split_and!. Qed.

Lemma frame_store a h l s : a ∈ l -> frame l s (store a h s).
Proof. intros Ha. split_and!; try done. intros b Hb. rewrite lookup_store, decide_False; [done|]. by intros ->. Qed.

Lemma frame_trans l1 l2 l s s1 s2 : frame l1 s s1 -> frame l2 s1 s2 -> l1 ⊆ l -> l2 ⊆ l -> frame l s s2.
Proof.
  intros (A1 & A2 & A3 & A4 & A5) (B1 & B2 & B3 & B4 & B5) H1 H2.
  split_and!; [|by rewrite B2|by rewrite B3|by rewrite B4|by rewrite B5].
  intros a Ha. rewrite B1, A1; [done|..]; intros Hin; apply Ha; auto.
Qed.

Lemma nodup_app3 (l1 m l2 : list (Z * Z)) :
  NoDup (l1 ++ m ++ l2).*1 <->
  NoDup l1.*1 /\ NoDup m.*1 /\ NoDup l2.*1 /\ l1.*1 ## m.*1 /\ l1.*1 ## l2.*1 /\ m.*1 ## l2.*1.
Proof.
  rewrite !fmap_app, !NoDup_app. setoid_rewrite elem_of_app. unfold disjoint, set_disjoint_instance.
  split; intros H; split_and?; try tauto; intros a; naive_solver.
Qed.

(** Replacing the chunk [c] of the list by the segment [m] (what is left of it):
    the neighbours are redirected. *)
Lemma replace_chunk_ok s s1 l1 c l2 m q1 n2 q b e :
  NoDup (l1 ++ m ++ l2).*1 -> firstChunk s1 = firstChunk s -> frame m.*1 s s1 ->
  seg (headers s) 0 (firstChunk s) l1 q1 c -> seg (headers s1) q1 b m e n2 -> seg (headers s) c n2 l2 q 0 ->
  neighbour q1 l1 s -> neighbour n2 l2 s ->
  let s2 := with_first (if q1 =? 0 then b else firstChunk s1)
    (with_headers (upd_next q1 b (upd_prev n2 e (headers s1))) s1) in
  (s ← (if negb (n2 =? 0) then set_prev n2 e s1 else Ok s1);
   (if negb (q1 =? 0) then set_next q1 b s else Ok (with_first b s))) = Ok s2 /\
  chain s2 (l1 ++ m ++ l2) /\ frame (l1 ++ m ++ l2).*1 s s2.
Proof.
  intros Hd Hf1 Hfr S1 Sm S2 Hq1 Hn2 s2. pose proof Hd as (D1 & D2 & D3 & D4 & D5 & D6)%nodup_app3.
  assert (Hk : forall a, a ∈ l1.*1 \/ a ∈ l2.*1 -> headers s1 !! a = headers s !! a).
  { intros a Ha. apply Hfr. intros Hm. destruct Ha as [Ha|Ha]; [apply (D4 a Ha Hm)|by apply (D6 a Hm)]. }
  assert (T1 : seg (headers s1) 0 (firstChunk s) l1 q1 c) by (eapply seg_frame; [|exact S1]; auto).
  assert (T2 : seg (headers s1) c n2 l2 q 0) by (eapply seg_frame; [|exact S2]; auto).
  split_and!.
  - apply (redirect _ _ _ _ l1 l2); [..|done].
    + destruct Hq1 as [->|[A B]]; [by left|right]. by rewrite Hk by auto.
    + destruct Hn2 as [->|[A B]]; [by left|right]. by rewrite Hk by auto.
  - destruct (relink _ _ _ _ _ _ _ _ _ _ _ _ Hd T1 Sm T2) as [q' Hq']. exists q'. unfold s2. rewrite Hf1. by cbn.
  - destruct Hfr as (Hfr & ? & ? & ? & ?). split; [|done]. intros a Ha.
    rewrite !fmap_app, !not_elem_of_app in Ha. destruct Ha as (A1 & A2 & A3). cbn.
    rewrite (upd_next_out _ _ _ _ _ _ Hq1 A1), (upd_prev_out _ _ _ _ _ _ Hn2 A3). auto.
Qed.

Lemma clear_chunk_ok s c hd l :
  headers s !! c = Some hd -> c ∉ l.*1 -> chain s l ->
  exists s', (s ← set_next c 0 s; set_prev c 0 s) = Ok s' /\ chain s' l /\
    headers s' !! c = Some (mkHeader 0 0 (hsize hd)) /\ frame [c] s s'.
Proof.
  intros Hh Hc [q Hl]. eexists. split; [by eapply clear_links_ok|]. split; [|split].
  - exists q. cbn. by apply seg_insert.
  - cbn. by rewrite lookup_insert_eq.
  - split_and!; try done. intros a Ha. cbn. rewrite lookup_insert_ne; [done|]. intros ->. apply Ha. by left.
Qed.

Lemma chain_store s a h l : a ∉ l.*1 -> chain s l -> chain (store a h s) l.
Proof. intros Ha [q Hq]. exists q. cbn. by apply seg_insert. Qed.

Lemma take_chunk_ok s l1 c sz l2 size :
  chain s (l1 ++ (c, sz) :: l2) -> NoDup (l1 ++ slice_of c sz size ++ l2).*1 -> c ∉ (l1 ++ slice_of c sz size ++ l2).*1 ->
  0 < c -> 0 <= size <= sz -> c + HEADER_SIZE + sz <= 2 ^ 32 ->
  exists s', take_chunk c size s = Ok s' /\ chain s' (l1 ++ slice_of c sz size ++ l2) /\
    headers s' !! c = Some (mkHeader 0 0 (taken_size sz size)) /\
    frame (c :: (l1 ++ slice_of c sz size ++ l2).*1) s s'.
Proof.
  intros Hch Hd Hcn Hc Hs Hmax. unfold HEADER_SIZE in Hmax.
  destruct (chain_middle _ _ _ _ _ Hch) as (q1 & n2 & q & S1 & _ & Hh & S2 & Hq1 & Hn2).
  unfold take_chunk, header. rewrite Hh. cbn [of_option]. mcbn. cbn [prev next hsize].
  replace (u32 (sz - size)) with (sz - size) by (unwrap; lia). unfold slice_of, taken_size, HEADER_SIZE, MIN_BLOCK_SIZE in *.
  destruct (sz - size >=? 4 + 12) eqn:E; cbv zeta.
  - apply Z.geb_le in E. replace (u32 (u32 (c + 12) + size)) with (c + 12 + size) by (unfold u32; rewrite wrap_add_l; unwrap; lia).
    replace (u32 (sz - size - 12)) with (sz - size - 12) by (unwrap; lia).
    set (sl := c + 12 + size) in *. set (m := [(sl, sz - size - 12)]) in *.
    destruct (replace_chunk_ok s (store sl (mkHeader q1 n2 (sz - size - 12)) s) l1 c l2 m q1 n2 q sl sl) as (E1 & C1 & F1); try done.
    { apply frame_store. by left. }
    { cbn. split; [done|]. split; [unfold sl; lia|]. exists n2. by rewrite lookup_insert_eq. }
    set (s2 := with_first _ _) in *.
    assert (Hc2 : headers s2 !! c = Some (mkHeader q1 n2 sz)) by (rewrite (proj1 F1 c Hcn); exact Hh).
    apply bind_ok in E1 as (s' & E1 & E1'). rewrite E1. mcbn. rewrite E1'. mcbn.
    rewrite (set_size_ok _ _ _ _ Hc2). mcbn. cbn [prev next].
    destruct (clear_chunk_ok (store c (mkHeader q1 n2 size) s2) c (mkHeader q1 n2 size) (l1 ++ m ++ l2)) as (s3 & E3 & C3 & H3 & F3);
      [by rewrite lookup_store, decide_True|done|by apply chain_store|].
    exists s3. split_and!; [done|done|done|].
    eapply (frame_trans _ [c]); [exact F1| |by right|by intros ? ->%list_elem_of_singleton; left].
    eapply (frame_trans [c] [c]); [by apply frame_store; left|exact F3|done|done].
  - destruct (replace_chunk_ok s s l1 c l2 [] q1 n2 q n2 q1) as (E1 & C1 & F1); try done.
    set (s2 := with_first _ _) in *.
    assert (Hc2 : headers s2 !! c = Some (mkHeader q1 n2 sz)) by (rewrite (proj1 F1 c Hcn); exact Hh).
    rewrite E1. mcbn. destruct (clear_chunk_ok s2 c _ (l1 ++ l2) Hc2 Hcn C1) as (s3 & E3 & C3 & H3 & F3).
    exists s3. split_and!; [done|done|done|].
    eapply (frame_trans _ [c]); [exact F1|exact F3|by right|by intros ? ->%list_elem_of_singleton; left].
Qed.

(** ** Splitting a chunk for alignment *)

Lemma neighbour_frame q l l' s s' : neighbour q l s -> frame l' s s' -> l.*1 ## l' -> neighbour q l s'.
Proof. intros [->|[Hq Hh]] Hf Hd; [by left|right]. split; [done|]. rewrite (proj1 Hf); [done|]. intros Hin. by apply (Hd q). Qed.

(** Putting the segment [m] behind the chunk [c] of the list, the second of the
    two writes. *)
Lemma link_after s l1 c z x m b e r n2 l2 q :
  NoDup ((l1 ++ [(c, z)]) ++ m ++ l2).*1 -> c <> 0 -> neighbour n2 l2 s ->
  seg (headers s) 0 (firstChunk s) (l1 ++ [(c, z)]) c x -> seg (headers s) c b m e n2 -> seg (headers s) r n2 l2 q 0 ->
  exists s', set_next c b (with_headers (upd_prev n2 e (headers s)) s) = Ok s' /\
    chain s' (l1 ++ [(c, z)] ++ m ++ l2) /\ frame (c :: l2.*1) s s'.
Proof.
  intros Hd Hc Hn T1 Tm T2.
  assert (Hc2 : c ∉ l2.*1).
  { apply nodup_app3 in Hd as (_ & _ & _ & _ & D & _). intros Hx. apply (D c); [|done].
    rewrite fmap_app. apply elem_of_app. right. left. }
  assert (Lc : is_Some (headers s !! c)).
  { apply seg_app in T1 as (? & ? & _ & -> & _ & y & -> & _). done. }
  pose proof (set_next_upd c b (with_headers (upd_prev n2 e (headers s)) s)) as Hset.
  assert (Hc0 : (c =? 0) = false) by (apply Z.eqb_neq; lia). rewrite Hc0 in Hset. cbn [negb] in Hset.
  cbn [headers with_headers firstChunk] in Hset. rewrite (upd_prev_out _ _ _ _ _ _ Hn Hc2) in Hset.
  eexists. split; [by apply Hset; right|]. split.
  - destruct (relink _ _ _ _ _ _ _ _ _ _ _ _ Hd T1 Tm T2) as [q' Hq'].
    rewrite Hc0, <- app_assoc in Hq'. exists q'. by cbn.
  - split_and!; try done. intros y Hy. cbn. apply not_elem_of_cons in Hy as [Y1 Y2].
    rewrite upd_next_ne by done. by rewrite (upd_prev_out _ _ _ _ _ _ Hn Y2).
Qed.

Lemma split_aligned_ok s l1 c sz l2 a :
  chain s (l1 ++ (c, sz) :: l2) -> NoDup (l1 ++ [(c, a - (c + HEADER_SIZE)); (a, c + sz - a)] ++ l2).*1 ->
  0 < c -> c + HEADER_SIZE <= a -> a <= c + sz -> c + HEADER_SIZE + sz <= 2 ^ 32 ->
  exists s', split_aligned c a s = Ok s' /\ chain s' (l1 ++ [(c, a - (c + HEADER_SIZE)); (a, c + sz - a)] ++ l2) /\
    frame (l1 ++ [(c, a - (c + HEADER_SIZE)); (a, c + sz - a)] ++ l2).*1 s s'.
Proof.
  unfold HEADER_SIZE. intros Hch Hd Hc Ha1 Ha2 Hmax.
  destruct (chain_middle _ _ _ _ _ Hch) as (q1 & n2 & q & S1 & _ & Hh & S2 & Hq1 & Hn2).
  pose proof Hd as (D1 & D2 & D3 & D4 & D5 & D6)%nodup_app3.
  assert (Hca : c <> a) by lia.
  unfold split_aligned, header. rewrite Hh. cbn [of_option]. mcbn. cbn [hsize].
  replace (u32 (c + sz - a)) with (c + sz - a) by (unwrap; lia).
  replace (u32 (a - u32 (c + HEADER_SIZE))) with (a - (c + 12)) by (unfold u32, HEADER_SIZE; rewrite wrap_sub_r; unwrap; lia).
  erewrite set_size_ok by (rewrite lookup_store, decide_False by done; exact Hh). mcbn. cbn [prev next hsize].
  erewrite set_prev_ok by (rewrite !lookup_store, decide_False, decide_True by done; reflexivity). mcbn. cbn [prev next hsize].
  rewrite !lookup_store, decide_False, decide_True by done. cbn [of_option]. mcbn. cbn [next].
  erewrite set_next_ok by (rewrite lookup_store, decide_True by done; reflexivity). mcbn. cbn [prev next hsize].
  set (s1 := store a (mkHeader c n2 (c + sz - a)) _).
  assert (La : headers s1 !! a = Some (mkHeader c n2 (c + sz - a))) by (unfold s1; by rewrite lookup_store, decide_True).
  assert (Lc : headers s1 !! c = Some (mkHeader q1 n2 (a - (c + 12)))).
  { unfold s1. by rewrite !lookup_store, !decide_False, decide_True by done. }
  assert (F1 : frame [c; a] s s1).
  { split_and!; try done. intros b Hb. unfold s1. rewrite !lookup_store.
    rewrite !decide_False by (intros ->; apply Hb; (left || (right; left))). done. }
  assert (Hfirst : firstChunk s1 = firstChunk s) by done.
  clearbody s1. rewrite La. cbn [of_option]. mcbn. cbn [next].
  assert (Hn2' : neighbour n2 l2 s1).
  { eapply neighbour_frame; [exact Hn2|exact F1|]. intros x Hx Hx'. apply (D6 x); [|done]. exact Hx'. }
  rewrite set_prev_upd by (destruct Hn2' as [|[]]; auto). mcbn. cbn [headers with_headers].
  assert (Hna : a ∉ l2.*1) by (intros Hx; apply (D6 a); [right; left|done]).
  assert (Hnc : c ∉ l2.*1) by (intros Hx; apply (D6 c); [left|done]).
  rewrite (upd_prev_out _ _ _ _ _ _ Hn2' Hna), La. cbn [of_option]. mcbn. cbn [prev].
  destruct (link_after s1 l1 c (a - (c + 12)) n2 [(a, c + sz - a)] a a c n2 l2 q) as (s2 & E2 & C2 & F2);
    [by rewrite <- app_assoc|lia|done|..].
  - apply seg_app. rewrite Hfirst. exists q1, c. split; [eapply seg_frame; [|exact S1]|].
    + intros x Hx. apply F1. intros Hx'. by apply (D4 x).
    + cbn. split; [done|]. split; [lia|]. eauto.
  - cbn. split; [done|]. split; [lia|]. eauto.
  - eapply seg_frame; [|exact S2]. intros x Hx. apply F1. intros Hx'. by apply (D6 x).
  - exists s2. split_and!; [done|done|]. rewrite !fmap_app. eapply frame_trans; [exact F1|exact F2|..].
    + intros x Hx. apply elem_of_app. right. apply elem_of_app. by left.
    + intros x [->|Hx]%elem_of_cons; apply elem_of_app; right; [left|]. apply elem_of_app. by right.
Qed.

(** ** The search *)

(** The least multiple of the alignment from an address on. *)
Definition next_aligned (alignment x : Z) : Z :=
  if alignment =? 0 then x else (x + alignment - 1) / alignment * alignment.

(** Where the header of a block goes when it is taken from the chunk [c]. *)
Definition fit_at (size alignment c sz : Z) : option Z :=
  let data := c + HEADER_SIZE in
  if sz <? size then None
  else if data =? next_aligned alignment data then Some c
  else
    let alignedData := next_aligned alignment (data + MIN_BLOCK_SIZE + HEADER_SIZE) in
    if alignedData + size <=? data + sz then Some (alignedData - HEADER_SIZE) else None.

Definition alignment_ok (alignment : Z) : Prop := alignment = 0 \/ exists k, 0 <= k < 32 /\ alignment = 2 ^ k.

Lemma next_aligned_spec alignment x :
  0 < alignment -> next_aligned alignment x mod alignment = 0 /\ x <= next_aligned alignment x < x + alignment.
Proof.
  intros Ha. unfold next_aligned. destruct (Z.eqb_spec alignment 0); [lia|]. split; [apply Z.mod_mul; lia|].
  pose proof (Z.div_mod (x + alignment - 1) alignment ltac:(lia)).
  pose proof (Z.mod_pos_bound (x + alignment - 1) alignment Ha). lia.
Qed.

Lemma multiples_apart al x y : 0 < al -> x mod al = 0 -> y mod al = 0 -> x < y -> x + al <= y.
Proof.
  intros Ha Hx Hy Hlt. apply Z.mod_divide in Hx as [i ->]; [|lia]. apply Z.mod_divide in Hy as [j ->]; [|lia].
  apply Z.mul_lt_mono_pos_r in Hlt; [nia|done].
Qed.

Lemma next_aligned_least al x y : 0 < al -> y mod al = 0 -> x <= y -> next_aligned al x <= y.
Proof.
  intros Ha Hy Hxy. destruct (next_aligned_spec al x Ha) as [Hm Hb].
  destruct (Z.le_gt_cases (next_aligned al x) y) as [|H]; [done|].
  pose proof (multiples_apart al y _ Ha Hy Hm ltac:(lia)). lia.
Qed.

Lemma alignUp_spec x alignment :
  alignment_ok alignment -> 0 <= x -> x + alignment <= 2 ^ 32 -> 0 < x + alignment -> x < 2 ^ 32 ->
  alignUp x alignment = next_aligned alignment x.
Proof.
  intros [->|(k & Hk & ->)] Hx Hmax H0 Hx2; [done|]. unfold Address.alignUp, Address.set, next_aligned.
  assert (0 < 2 ^ k) by (apply Z.pow_pos_nonneg; lia).
  assert (2 ^ k <= 2 ^ 31) by (apply Z.pow_le_mono_r; lia). 
  destruct (Z.eqb_spec (2 ^ k) 0); [lia|]. cbv zeta.
  replace (u32 (2 ^ k - 1)) with (2 ^ k - 1) by (unwrap; lia).
  replace (u32 (x + (2 ^ k - 1))) with (x + 2 ^ k - 1) by (unwrap; lia).
  replace (u32 (Z.lnot (2 ^ k - 1))) with (2 ^ 32 - 2 ^ k).
  2:{ unfold u32, wrap. unfold Z.lnot.
      replace (Z.pred (- (2 ^ k - 1))) with (2 ^ 32 - 2 ^ k + (-1) * 2 ^ 32) by lia.
      rewrite Z.mod_add, Z.mod_small by lia. done. }
  apply land_align; [lia|]. unfold in_u. lia.
Qed.

Lemma make_room_ok fuel x data al :
  0 < al -> x mod al = 0 -> 12 <= x -> 0 <= data -> x <= next_aligned al (data + 16) ->
  next_aligned al (data + 16) < 2 ^ 32 -> next_aligned al (data + 16) - x <= Z.of_nat fuel * al ->
  make_room fuel x data al = Ok (next_aligned al (data + 16)).
Proof.
  intros Ha. revert x. induction fuel as [|fuel IH]; intros x Hm H12 Hd Hle Hmax Hf;
    destruct (next_aligned_spec al (data + 16) Ha) as [Hn Hb]; cbn [make_room]; unfold HEADER_SIZE, MIN_BLOCK_SIZE;
    replace (u32 (x - 12)) with (x - 12) by (unwrap; lia); replace (u32 (data + 4)) with (data + 4) by (unwrap; lia);
    destruct (Z.ltb_spec (x - 12) (data + 4)).
  - lia.
  - f_equal. pose proof (next_aligned_least al (data + 16) x Ha Hm ltac:(lia)). lia.
  - pose proof (multiples_apart al x _ Ha Hm Hn ltac:(lia)).
    replace (u32 (x + al)) with (x + al) by (unwrap; lia). apply IH; try lia.
    rewrite <- Hm. replace (x + al) with (x + 1 * al) by lia. apply Z.mod_add. lia.
  - f_equal. pose proof (next_aligned_least al (data + 16) x Ha Hm ltac:(lia)). lia.
Qed.

Lemma findNext_ok s fuel p f l q req :
  seg (headers s) p f l q 0 -> (length l <= fuel)%nat ->
  exists l1 l2 p' f', findNext fuel f req s = Ok f' /\ l = l1 ++ l2 /\ Forall (fun cs => cs.2 < req) l1 /\
    seg (headers s) p f l1 p' f' /\ seg (headers s) p' f' l2 q 0.
Proof.
  revert p f l. induction fuel as [|fuel IH]; intros p f l Hs Hl.
  - destruct l; [|cbn in Hl; lia]. cbn in Hs. destruct Hs as [-> ->]. exists [], [], p, 0. by split_and!.
  - destruct l as [|[a sz] l].
    { cbn in Hs. destruct Hs as [-> ->]. exists [], [], p, 0. by split_and!. }
    destruct Hs as (-> & H0 & x & Hx & Hs). cbn [findNext]. destruct (Z.eqb_spec a 0); [done|].
    unfold header. rewrite Hx. cbn [of_option]. mcbn. cbn [hsize next].
    destruct (sz >=? req) eqn:E.
    { exists [], ((a, sz) :: l), p, a. split_and!; try done. cbn. eauto 10. }
    rewrite Z.geb_leb, Z.leb_gt in E.
    destruct (IH a x l Hs) as (l1 & l2 & p' & f' & Hf & -> & Hlt & S1 & S2); [cbn in Hl; lia|].
    exists ((a, sz) :: l1), l2, p', f'. split_and!; try done; [by constructor|]. cbn. eauto 10.
Qed.

(** A chunk whose end and the alignment leave room below the top of the address
    space. *)
Definition roomy (alignment : Z) (cs : Z * Z) : Prop :=
  0 < cs.1 /\ 0 <= cs.2 /\ cs.1 + HEADER_SIZE + cs.2 + 16 + alignment <= 2 ^ 32.

(** What the body of the loop does with a chunk. *)
Definition try_chunk (size alignment current csz : Z) (s : FreeListMemoryManager) : outcome (Z * FreeListMemoryManager) :=
  match fit_at size alignment current csz with
  | None => Ok (0, s)
  | Some a => if a =? current then Ok (current, s) else s ← split_aligned current a s; Ok (a, s)
  end.

Lemma visit_ok size alignment c sz s p n :
  alignment_ok alignment -> 0 < size -> roomy alignment (c, sz) -> header c s = Ok (mkHeader p n sz) ->
  visit size alignment c s = try_chunk size alignment c sz s.
Proof.
  unfold roomy, try_chunk, fit_at, visit. cbn [fst snd]. intros Hal Hsz (Hc & Hz & Hr) ->. mcbn. cbn [hsize]. rewrite Z.geb_leb.
  destruct (Z.leb_spec size sz), (Z.ltb_spec sz size); try lia; [|done]. cbv zeta. unfold HEADER_SIZE, MIN_BLOCK_SIZE in *.
  assert (Hal0 : 0 <= alignment) by (destruct Hal as [->|(k & Hk & ->)]; [done|apply Z.pow_nonneg; lia]).
  replace (u32 (c + 12)) with (c + 12) by (unwrap; lia). rewrite alignUp_spec by (done || lia).
  destruct (Z.eqb_spec (c + 12) (next_aligned alignment (c + 12))) as [E|E]; [by rewrite Z.eqb_refl|].
  destruct (decide (alignment = 0)) as [->|Hnz]; [done|]. assert (Hpos : 0 < alignment) by lia.
  destruct (next_aligned_spec alignment (c + 12) Hpos) as [Hm Hb].
  replace (c + 12 + 4 + 12) with (c + 12 + 16) by lia.
  destruct (next_aligned_spec alignment (c + 12 + 16) Hpos) as [Hm2 Hb2].
  rewrite make_room_ok by first
    [ done | lia | apply next_aligned_least; (done || lia) | destruct (decide (alignment = 1)) as [->|]; lia ].
  mcbn. set (ad := next_aligned alignment (c + 12 + 16)) in *.
  replace (u32 (ad - 12)) with (ad - 12) by (unwrap; lia).
  replace (u32 (ad - 12 + 12)) with ad by (unwrap; lia).
  replace (u32 (ad + size)) with (ad + size) by (unwrap; lia).
  replace (u32 (c + 12 + sz)) with (c + 12 + sz) by (unwrap; lia).
  destruct (Z.leb_spec (ad + size) (c + 12 + sz)); [|done]. by destruct (Z.eqb_spec (ad - 12) c); [lia|].
Qed.

(** The search is first fit: every chunk before the one it takes does not fit. *)
Lemma search_ok fuel size alignment s p f l q :
  alignment_ok alignment -> 0 < size -> seg (headers s) p f l q 0 -> (length l <= fuel)%nat -> Forall (roomy alignment) l ->
  (Forall (fun cs => fit_at size alignment cs.1 cs.2 = None) l /\ search fuel size alignment f s = Ok (0, s)) \/
  exists l1 c sz l2 a, l = l1 ++ (c, sz) :: l2 /\ Forall (fun cs => fit_at size alignment cs.1 cs.2 = None) l1 /\
    fit_at size alignment c sz = Some a /\
    (forall r s', try_chunk size alignment c sz s = Ok (r, s') -> r <> 0 -> search fuel size alignment f s = Ok (r, s')).
Proof.
  intros Hal Hsz. revert p f l. induction fuel as [|fuel IH]; intros p f l Hs Hl Hr.
  { destruct l; [|cbn in Hl; lia]. cbn in Hs. destruct Hs as [_ ->]. by left. }
  destruct l as [|[c sz] l]; [cbn in Hs; destruct Hs as [_ ->]; by left|].
  destruct Hs as (-> & H0 & x & Hx & Hs). apply Forall_cons in Hr as [Hr1 Hr].
  assert (Hc : (c =? 0) = false) by (by apply Z.eqb_neq).
  assert (Hhd : header c s = Ok (mkHeader p x sz)) by (unfold header; by rewrite Hx).
  assert (Hunf : search (S fuel) size alignment c s =
    ('(hit, s) ← try_chunk size alignment c sz s;
     if negb (hit =? 0) then Ok (hit, s)
     else h ← header c s; current ← findNext fuel (next h) size s; search fuel size alignment current s)).
  { cbn [search]. by rewrite Hc, (visit_ok size alignment c sz s p x Hal Hsz Hr1 Hhd). }
  destruct (fit_at size alignment c sz) as [a|] eqn:E.
  { right. exists [], c, sz, l, a. split_and!; try done. intros r s' Ht Hrn. rewrite Hunf, Ht. mcbn.
    by destruct (Z.eqb_spec r 0). }
  assert (Ht : try_chunk size alignment c sz s = Ok (0, s)) by (unfold try_chunk; by rewrite E).
  rewrite Ht in Hunf. cbn -[search findNext header] in Hunf. rewrite Hhd in Hunf. cbn -[search findNext] in Hunf.
  destruct (findNext_ok s fuel c x l q size Hs) as (l1 & l2 & p' & f' & Hf & -> & Hlt & S1 & S2); [cbn in Hl; lia|].
  rewrite Hf in Hunf. cbn -[search] in Hunf. apply Forall_app in Hr as [_ Hr2].
  assert (Hno : Forall (fun cs => fit_at size alignment cs.1 cs.2 = None) ((c, sz) :: l1)).
  { constructor; [done|]. eapply Forall_impl; [exact Hlt|]. intros [a z]. cbn. intros ?. unfold fit_at.
    by destruct (Z.ltb_spec z size); [|lia]. }
  destruct (IH p' f' l2 S2) as [[HF HS]|(m & c' & sz' & l2' & a & -> & HF & HA & HS)].
  - rewrite length_cons, length_app in Hl. lia.
  - done.
  - left. split; [|by rewrite Hunf]. by apply (Forall_app_2 _ ((c, sz) :: l1)).
  - right. exists (((c, sz) :: l1) ++ m), c', sz', l2', a. split_and!; [by rewrite <- app_assoc| |done|].
    + by apply Forall_app.
    + intros r s' Hr Hr'. rewrite Hunf. eauto.
Qed.

(** ** Giving a block back *)

Lemma absorb_ok s l1 t st n sn l2 :
  chain s (l1 ++ (t, st) :: (n, sn) :: l2) -> NoDup (l1 ++ (t, st) :: (n, sn) :: l2).*1 ->
  0 < t -> 0 <= st -> 0 <= sn -> st + sn + HEADER_SIZE < 2 ^ 32 ->
  exists s', absorb t s = Ok s' /\ chain s' (l1 ++ (t, st + sn + HEADER_SIZE) :: l2) /\
    frame (l1 ++ (t, st + sn + HEADER_SIZE) :: l2).*1 s s'.
Proof.
  unfold HEADER_SIZE. intros Hch Hd Ht Hst Hsn Hmax. set (z := st + sn + 12) in *.
  destruct (chain_middle _ _ _ _ _ Hch) as (q1 & f2 & q & S1 & _ & Hh & S2 & _ & _).
  destruct S2 as (-> & Hn0 & n2 & Hn & S2).
  assert (Hn2 : neighbour n2 l2 s).
  { destruct (seg_first _ _ _ _ _ _ S2) as [(-> & _ & ->)|(l' & sz' & y & -> & H0 & Hy & _)]; [by left|right].
    rewrite Hy. split; [by left|done]. }
  assert (Hd' : NoDup (l1 ++ [(t, z)] ++ l2).*1).
  { rewrite !fmap_app in *. cbn in *. eapply sublist_NoDup; [exact Hd|]. apply sublist_app; [done|].
    apply sublist_skip, sublist_cons. done. }
  pose proof Hd' as (D1 & D2 & D3 & D4 & D5 & D6)%nodup_app3.
  assert (Hnt : t ∉ l2.*1) by (intros Hx; by apply (D6 t); [left|]).
  unfold absorb, header. rewrite Hh. cbn [of_option]. mcbn. cbn [next]. rewrite Hn. cbn [of_option]. mcbn. cbn [hsize next].
  replace (u32 (st + u32 (sn + HEADER_SIZE))) with z by (unfold u32, HEADER_SIZE; rewrite wrap_add_r; unwrap; lia).
  rewrite (set_size_ok _ _ _ _ Hh). mcbn. cbn [prev next].
  set (s1 := store t _ s). assert (F1 : frame [t] s s1) by (apply frame_store; left).
  assert (Lt : headers s1 !! t = Some (mkHeader q1 n z)) by (unfold s1; by rewrite lookup_store, decide_True).
  assert (Hfirst : firstChunk s1 = firstChunk s) by done. clearbody s1.
  assert (Hn2' : neighbour n2 l2 s1).
  { eapply neighbour_frame; [exact Hn2|exact F1|]. intros x Hx ->%list_elem_of_singleton. done. }
  rewrite set_prev_upd by (destruct Hn2' as [|[]]; auto). mcbn.
  destruct (link_after s1 l1 t z n [] n2 t n n2 l2 q) as (s2 & E2 & C2 & F2);
    [by rewrite <- app_assoc|lia|done|..].
  - apply seg_app. rewrite Hfirst. exists q1, t. split; [eapply seg_frame; [|exact S1]|].
    + intros x Hx. apply F1. intros Hx'. by apply (D4 x).
    + cbn. split; [done|]. split; [lia|]. eauto.
  - done.
  - eapply seg_frame; [|exact S2]. intros x Hx. apply F1. by intros ->%list_elem_of_singleton.
  - exists s2. split_and!; [done|done|]. rewrite fmap_app. eapply frame_trans; [exact F1|exact F2|..];
      intros x Hx; apply elem_of_app; right; [|done]. apply list_elem_of_singleton in Hx as ->. left.
Qed.

Lemma find_place_ok s fuel p f l1 a z l2 q hd :
  seg (headers s) p f (l1 ++ (a, z) :: l2) q 0 -> (length (l1 ++ (a, z) :: l2) <= fuel)%nat ->
  Forall (fun cs => cs.1 < hd) (l1 ++ [(a, z)]) -> Forall (fun cs => hd < cs.1) l2 ->
  find_place fuel f hd s = Ok a.
Proof.
  revert p f l1. induction fuel as [|fuel IH]; intros p f l1 Hs Hl H1 H2; [rewrite length_app in Hl; cbn in Hl; lia|].
  destruct l1 as [|[b zb] l1]; cbn [app] in *; destruct Hs as (-> & H0 & x & Hx & Hs); cbn [find_place];
    apply Forall_cons in H1 as [Hb H1]; cbn [fst] in Hb.
  - destruct (Z.eqb_spec a 0); [done|]. unfold header. rewrite Hx. cbn [of_option]. mcbn. cbn [next].
    rewrite Z.gtb_ltb. destruct (Z.ltb_spec a hd); [|lia]. cbn [andb].
    destruct (seg_first _ _ _ _ _ _ Hs) as [(_ & _ & ->)|(l' & zx & y & -> & Hx0 & _)].
    + by rewrite Z.eqb_refl, orb_true_r.
    + apply Forall_cons in H2 as [Hlt _]. cbn in Hlt. by destruct (Z.ltb_spec hd x); [|lia].
  - destruct (Z.eqb_spec b 0); [done|]. unfold header. rewrite Hx. cbn [of_option]. mcbn. cbn [next].
    assert (E : (hd <? x) || (x =? 0) = false).
    { destruct (seg_first _ _ _ _ _ _ Hs) as [(El & _)|(l' & zx & y & El & Hx0 & _)]; [by destruct l1|].
      destruct (Z.eqb_spec x 0); [done|]. rewrite orb_false_r. apply Z.ltb_ge.
      destruct l1 as [|[b' z'] l1]; injection El as -> _ _; apply Forall_cons in H1 as [H1 _]; cbn in H1; lia. }
    rewrite E, andb_false_r. apply (IH b x l1); [done|cbn in Hl; lia|done|done].
Qed.

Lemma chain_fuel s l : chain s l -> NoDup l.*1 -> (length l <= chunk_fuel s)%nat.
Proof.
  intros [q Hs] Hd. unfold chunk_fuel. rewrite <- size_dom, <- (length_fmap fst), <- (size_list_to_set (C := gset Z)) by done.
  apply subseteq_size. intros a Ha. apply elem_of_list_to_set in Ha. apply elem_of_dom.
  revert Hs Ha. generalize 0 at 1. generalize (firstChunk s). clear Hd. induction l as [|[b z] l IH]; intros f p Hs Ha.
  - by apply not_elem_of_nil in Ha.
  - destruct Hs as (-> & _ & x & Hx & Hs). cbn in Ha. apply elem_of_cons in Ha as [->|Ha]; [by rewrite Hx|]. eauto.
Qed.

(** The writes that link a block in front of the list, and behind a chunk. *)
Lemma insert_front_ok s hd sz l2 q h :
  seg (headers s) 0 (firstChunk s) l2 q 0 -> NoDup ([(hd, sz)] ++ l2).*1 -> 0 < hd ->
  firstChunk s ∈ l2.*1 -> firstChunk s <> 0 ->
  exists s', (let s := store hd (mkHeader 0 (firstChunk s) sz) (store hd h s) in
    s ← set_prev (firstChunk s) hd s; Ok (with_first hd s)) = Ok s' /\
    chain s' ([(hd, sz)] ++ l2) /\ frame ([(hd, sz)] ++ l2).*1 s s'.
Proof.
  intros Hs Hd Hpos Hin Hf. cbv zeta. set (s1 := store hd _ _).
  assert (Hhd : hd ∉ l2.*1) by (cbn in Hd; by apply NoDup_cons in Hd as [? _]).
  assert (F1 : frame [hd] s s1).
  { eapply (frame_trans [hd] [hd]); [apply frame_store; left|apply frame_store; left|done|done]. }
  assert (Hfirst : firstChunk s1 = firstChunk s) by done. rewrite Hfirst.
  assert (Lh : headers s1 !! hd = Some (mkHeader 0 (firstChunk s) sz)) by (unfold s1; by rewrite lookup_store, decide_True).
  clearbody s1.
  assert (T2 : seg (headers s1) 0 (firstChunk s) l2 q 0).
  { eapply seg_frame; [|exact Hs]. intros y Hy. apply F1. by intros ->%list_elem_of_singleton. }
  assert (Hn : is_Some (headers s1 !! firstChunk s)).
  { destruct (seg_first _ _ _ _ _ _ T2) as [(-> & _)|(l' & z & y & -> & _ & -> & _)]; [by apply not_elem_of_nil in Hin|done]. }
  pose proof (set_prev_upd (firstChunk s) hd s1 (or_intror Hn)) as Hset.
  destruct (Z.eqb_spec (firstChunk s) 0); [done|]. cbn [negb] in Hset. rewrite Hset. mcbn.
  eexists. split; [done|]. split.
  - destruct (relink (headers s1) (firstChunk s) [] 0 (firstChunk s) hd [(hd, sz)] hd 0 (firstChunk s) l2 q)
      as [q' Hq']; [done|done| |done|by exists q'].
    cbn. split; [done|]. split; [lia|]. eauto.
  - destruct F1 as (F & ? & ? & ? & ?). split_and!; try done. intros y Hy. cbn in *.
    apply not_elem_of_cons in Hy as [Y1 Y2]. rewrite upd_prev_ne by congruence. apply F. by intros ->%list_elem_of_singleton.
Qed.

Lemma insert_after_ok s l1 a za q1 hd sz n2 l2 q h :
  seg (headers s) 0 (firstChunk s) l1 q1 a -> headers s !! a = Some (mkHeader q1 n2 za) -> seg (headers s) a n2 l2 q 0 ->
  NoDup ((l1 ++ [(a, za)]) ++ [(hd, sz)] ++ l2).*1 -> 0 < hd -> a <> 0 -> neighbour n2 l2 s ->
  exists s', (let s := store hd (mkHeader a n2 sz) (store hd h s) in
    h ← header hd s;
    s ← (if negb (next h =? 0) then set_prev (next h) hd s else Ok s);
    h ← header hd s;
    set_next (prev h) hd s) = Ok s' /\
    chain s' ((l1 ++ [(a, za)]) ++ [(hd, sz)] ++ l2) /\ frame ((l1 ++ [(a, za)]) ++ [(hd, sz)] ++ l2).*1 s s'.
Proof.
  intros S1 Ha S2 Hd Hpos Ha0 Hn. cbv zeta. set (s1 := store hd _ _).
  pose proof Hd as (D1 & D2 & D3 & D4 & D5 & D6)%nodup_app3.
  assert (F1 : frame [hd] s s1).
  { eapply (frame_trans [hd] [hd]); [apply frame_store; left|apply frame_store; left|done|done]. }
  assert (Hfirst : firstChunk s1 = firstChunk s) by done.
  assert (Lh : headers s1 !! hd = Some (mkHeader a n2 sz)) by (unfold s1; by rewrite lookup_store, decide_True).
  clearbody s1.
  assert (Hl2 : hd ∉ l2.*1) by (intros Hx; by apply (D6 hd); [left|]).
  assert (Hk : forall x, x ∈ (l1 ++ [(a, za)]).*1 -> headers s1 !! x = headers s !! x).
  { intros x Hx. apply F1. intros ->%list_elem_of_singleton. apply (D4 hd Hx). left. }
  assert (Hn' : neighbour n2 l2 s1).
  { eapply neighbour_frame; [exact Hn|exact F1|]. intros x Hx ->%list_elem_of_singleton. done. }
  unfold header. rewrite Lh. cbn [of_option]. mcbn. cbn [next].
  rewrite set_prev_upd by (destruct Hn' as [|[]]; auto). mcbn. cbn [headers with_headers].
  rewrite (upd_prev_out _ _ _ _ _ _ Hn' Hl2), Lh. cbn [of_option]. mcbn. cbn [prev].
  destruct (link_after s1 l1 a za n2 [(hd, sz)] hd hd a n2 l2 q) as (s2 & E2 & C2 & F2); try done.
  - eapply (seg_frame (headers s)); [exact Hk|]. rewrite Hfirst. apply seg_app. exists q1, a. split; [done|].
    cbn. split; [done|]. split; [done|]. eauto.
  - cbn. split; [done|]. split; [lia|]. eauto.
  - eapply seg_frame; [|exact S2]. intros x Hx. apply F1. by intros ->%list_elem_of_singleton.
  - exists s2. split_and!; [done|by rewrite <- app_assoc|]. eapply frame_trans; [exact F1|exact F2|..].
    + intros x ->%list_elem_of_singleton. rewrite !fmap_app. apply elem_of_app. right. left.
    + rewrite !fmap_app. intros x [->|Hx]%elem_of_cons; rewrite !elem_of_app; [left; right; left|by right; right].
Qed.

Lemma insert_free_ok s l1 hd sz l2 :
  chain s (l1 ++ l2) -> headers s !! hd = Some (mkHeader 0 0 sz) -> NoDup (l1 ++ [(hd, sz)] ++ l2).*1 -> 0 < hd ->
  Forall (fun cs => cs.1 < hd) l1 -> Forall (fun cs => hd < cs.1) l2 ->
  exists s', insert_free hd s = Ok s' /\ chain s' (l1 ++ [(hd, sz)] ++ l2) /\ frame (l1 ++ [(hd, sz)] ++ l2).*1 s s'.
Proof.
  intros [q Hs] Hh Hd Hpos H1 H2. pose proof Hd as (D1 & D2 & D3 & D4 & D5 & D6)%nodup_app3.
  assert (Hd12 : NoDup (l1 ++ l2).*1) by (rewrite fmap_app; apply NoDup_app; split_and!; [done|intros x Hx Hx'; by apply (D5 x)|done]).
  pose proof (chain_fuel s _ (ex_intro _ q Hs) Hd12) as Hfuel.
  assert (Hl1 : hd ∉ l1.*1) by (intros Hx; apply (D4 hd Hx); left).
  assert (Hl2 : hd ∉ l2.*1) by (intros Hx; by apply (D6 hd); [left|]).
  unfold insert_free. destruct (seg_first _ _ _ _ _ _ Hs) as [(El & -> & Hf)|(l' & zf & x & El & Hf & Hhf & Hs')].
  { apply app_nil in El as [-> ->]. rewrite Hf. cbn [Z.eqb]. eexists. split; [done|]. split; [|by split_and!].
    exists hd. cbn. split; [done|]. split; [lia|]. exists 0. by rewrite Hh. }
  destruct (Z.eqb_spec (firstChunk s) 0); [done|].
  destruct (list_eq_nil_dec l1) as [->|Hne].
  - cbn [app] in *. rewrite El in H2. apply Forall_cons in H2 as [Hlt _]. cbn in Hlt.
    destruct (Z.ltb_spec hd (firstChunk s)); [|lia].
    rewrite (set_next_ok _ _ _ _ Hh). mcbn. cbn [prev hsize].
    erewrite set_prev_ok by (rewrite lookup_store, decide_True by done; reflexivity). mcbn. cbn [next hsize].
    apply (insert_front_ok s hd sz l2 q); try done. by rewrite El; left.
  - destruct (exists_last Hne) as (l1' & [a za] & ->). rewrite <- app_assoc in Hs, Hfuel. cbn [app] in Hs, Hfuel.
    assert (Hlt : firstChunk s < hd).
    { destruct l1' as [|[f zf'] l1']; cbn [app] in El, H1; injection El as -> _ _; by apply Forall_cons in H1 as [? _]. }
    destruct (Z.ltb_spec hd (firstChunk s)); [lia|].
    rewrite (find_place_ok s _ _ _ _ _ _ _ _ _ Hs Hfuel H1 H2). mcbn.
    destruct (chain_middle s l1' a za l2 (ex_intro _ q Hs)) as (q1 & n2 & q' & S1 & Ha & Hha & S2 & _ & Hn2).
    destruct (Z.eqb_spec a 0); [done|]. assert (Hhd : header a s = Ok (mkHeader q1 n2 za)) by (unfold header; by rewrite Hha).
    rewrite Hhd. mcbn. cbn [next]. rewrite (set_next_ok _ _ _ _ Hh). mcbn. cbn [prev hsize].
    erewrite set_prev_ok by (rewrite lookup_store, decide_True by done; reflexivity). mcbn. cbn [next hsize].
    apply (insert_after_ok s l1' a za q1 hd sz n2 l2 q'); done.
Qed.
