(* ===== verification/FreeListHeap.v ===== *)
(** * FreeListHeap.v: the heap as a row of blocks

    The abstract heap is the sequence of blocks, free and used, that covers the
    heap from end to end. [heap_ok] relates it to the headers in memory: the free
    blocks, in address order, are the free list, and the header of every used block
    holds its size. Allocation carves a block out of the first free block that fits,
    freeing merges a block with its free neighbours. *)

From S2P Require Import Prelude Bits Atomic Spinlock Address FreeListMemoryManager.

(** A block: whether it is free, and its size without the header. *)
Notation tile := (bool * Z)%type.

Fixpoint extent (t : list tile) : Z :=
  match t with [] => 0 | (_, sz) :: t => HEADER_SIZE + sz + extent t end.

(** The free ([b = true]) or used blocks of a row that starts at [a], with the
    addresses of their headers. *)
Fixpoint blocks (b : bool) (a : Z) (t : list tile) : list (Z * Z) :=
  match t with
  | [] => []
  | (b', sz) :: t => (if eqb b b' then [(a, sz)] else []) ++ blocks b (a + HEADER_SIZE + sz) t
  end.

Definition sizes_ok (t : list tile) : Prop := Forall (fun x => 0 <= x.2) t.

Record heap_ok (s : FreeListMemoryManager) (t : list tile) : Prop := {
  ok_free : chain s (blocks true (startAddress s) t);
  ok_used : forall c sz, (c, sz) ∈ blocks false (startAddress s) t -> headers s !! c = Some (mkHeader 0 0 sz);
  ok_sizes : sizes_ok t;
  ok_extent : startAddress s + extent t = endAddress s + 1;
  ok_range : 0 < startAddress s /\ endAddress s < 2 ^ 32
}.

(** ** Rows of blocks *)

Lemma extent_app t1 t2 : extent (t1 ++ t2) = extent t1 + extent t2.
Proof. induction t1 as [|[b sz] t1 IH]; cbn; [done|]. rewrite IH. lia. Qed.

Lemma extent_nonneg t : sizes_ok t -> 0 <= extent t.
Proof. induction 1 as [|[b sz] t Hsz _ IH]; cbn in *; unfold HEADER_SIZE; lia. Qed.

Lemma blocks_app b a t1 t2 : blocks b a (t1 ++ t2) = blocks b a t1 ++ blocks b (a + extent t1) t2.
Proof.
  revert a. induction t1 as [|[b' sz] t1 IH]; intros a; cbn; [f_equal; lia|].
  rewrite IH, <- app_assoc. do 3 f_equal. lia.
Qed.

Lemma blocks_range b a t c sz :
  sizes_ok t -> (c, sz) ∈ blocks b a t -> 0 <= sz /\ a <= c /\ c + HEADER_SIZE + sz <= a + extent t.
Proof.
  intros Ht. revert a. induction Ht as [|[b' z] t Hz Ht IH]; intros a; cbn in *; [by intros ?%not_elem_of_nil|].
  pose proof (extent_nonneg t Ht). intros [H'|H']%elem_of_app.
  - destruct (eqb b b'); [|by apply not_elem_of_nil in H']. apply list_elem_of_singleton in H' as [= -> ->]. lia.
  - apply IH in H' as (? & ? & ?). unfold HEADER_SIZE in *. lia.
Qed.

Lemma blocks_addr b a t x : sizes_ok t -> x ∈ (blocks b a t).*1 -> a <= x < a + extent t.
Proof.
  intros Ht ([c sz] & -> & Hx)%list_elem_of_fmap. cbn. apply blocks_range in Hx as (? & ? & ?); [|done].
  unfold HEADER_SIZE in *. lia.
Qed.

Lemma blocks_nodup b a t : sizes_ok t -> NoDup (blocks b a t).*1.
Proof.
  intros Ht. revert a. induction Ht as [|[b' z] t Hz Ht IH]; intros a; cbn in *; [constructor|].
  destruct (eqb b b'); cbn; [|apply IH]. constructor; [|apply IH].
  intros Hx. apply blocks_addr in Hx; [|done]. unfold HEADER_SIZE in *. lia.
Qed.

Lemma blocks_disjoint a t : sizes_ok t -> (blocks true a t).*1 ## (blocks false a t).*1.
Proof.
  intros Ht. revert a. induction Ht as [|[b' z] t Hz Ht IH]; intros a x; cbn in *; [by intros ?%not_elem_of_nil|].
  specialize (IH (a + HEADER_SIZE + z) x).
  assert (Hlt : forall b, x ∈ (blocks b (a + HEADER_SIZE + z) t).*1 -> x <> a).
  { intros b Hx. apply blocks_addr in Hx; [|done]. unfold HEADER_SIZE in *. lia. }
  destruct b'; cbn; [intros [->|H1]%elem_of_cons H2|intros H1 [->|H2]%elem_of_cons]; eauto; by eapply Hlt.
Qed.

(** ** Steps *)

(** What an operation on the free list leaves alone. *)
Definition same_heap (s s' : FreeListMemoryManager) : Prop :=
  startAddress s' = startAddress s /\ endAddress s' = endAddress s /\ lock s' = lock s /\
  unmapFreedMemory s' = unmapFreedMemory s.

Lemma same_heap_trans s1 s2 s3 : same_heap s1 s2 -> same_heap s2 s3 -> same_heap s1 s3.
Proof. unfold same_heap. intros (-> & -> & -> & ->) (? & ? & ? & ?). done. Qed.

Lemma frame_same l s s' : frame l s s' -> same_heap s s'.
Proof. by intros (_ & ?). Qed.

Lemma heap_step s s' t t' A :
  heap_ok s t -> frame A s s' -> chain s' (blocks true (startAddress s) t') -> sizes_ok t' -> extent t' = extent t ->
  (forall c sz, (c, sz) ∈ blocks false (startAddress s) t' ->
     ((c, sz) ∈ blocks false (startAddress s) t /\ c ∉ A) \/ headers s' !! c = Some (mkHeader 0 0 sz)) ->
  heap_ok s' t' /\ same_heap s s'.
Proof.
  intros [H1 H2 H3 H4 H5] Hf Hc Hs He Hu. split; [|by eapply frame_same]. destruct Hf as (F & SA & EA & _).
  constructor; rewrite ?SA, ?EA, ?He; try done.
  intros c sz Hin. destruct (Hu c sz Hin) as [[Hin' HA]|]; [|done]. rewrite (F c HA). by apply H2.
Qed.

Lemma sizes_app t1 t2 : sizes_ok (t1 ++ t2) <-> sizes_ok t1 /\ sizes_ok t2.
Proof. apply Forall_app. Qed.
Lemma sizes_cons b sz t : sizes_ok ((b, sz) :: t) <-> 0 <= sz /\ sizes_ok t.
Proof. unfold sizes_ok. by rewrite Forall_cons. Qed.

Lemma block_bounds s t1 b sz t2 :
  heap_ok s (t1 ++ (b, sz) :: t2) ->
  0 < startAddress s + extent t1 /\ 0 <= sz /\ startAddress s + extent t1 + HEADER_SIZE + sz <= endAddress s + 1 /\
  endAddress s < 2 ^ 32.
Proof.
  intros [_ _ Hs He Hr]. rewrite extent_app in He. cbn [extent] in He.
  apply sizes_app in Hs as [Hs1 Hs2]. apply sizes_cons in Hs2 as [Hz Hs2].
  pose proof (extent_nonneg _ Hs1). pose proof (extent_nonneg _ Hs2). lia.
Qed.

Lemma split_tiles s t1 sz t2 a :
  let c := startAddress s + extent t1 in
  heap_ok s (t1 ++ (true, sz) :: t2) -> c + HEADER_SIZE <= a -> a <= c + sz ->
  exists s', split_aligned c a s = Ok s' /\
    heap_ok s' (t1 ++ (true, a - (c + HEADER_SIZE)) :: (true, c + sz - a) :: t2) /\ same_heap s s'.
Proof.
  intros c Hok Ha1 Ha2. destruct (block_bounds _ _ _ _ _ Hok) as (B1 & B2 & B3 & B4). fold c in B1, B3.
  set (t' := t1 ++ (true, a - (c + HEADER_SIZE)) :: (true, c + sz - a) :: t2).
  assert (Hs' : sizes_ok t').
  { pose proof (ok_sizes _ _ Hok) as H. unfold t'. rewrite sizes_app, !sizes_cons in *. intuition lia. }
  assert (Ef : blocks true (startAddress s) t' = blocks true (startAddress s) t1 ++
    [(c, a - (c + HEADER_SIZE)); (a, c + sz - a)] ++ blocks true (c + HEADER_SIZE + sz) t2).
  { unfold t'. rewrite blocks_app. cbn. fold c. replace (c + HEADER_SIZE + (a - (c + HEADER_SIZE))) with a by lia.
    by replace (a + HEADER_SIZE + (c + sz - a)) with (c + HEADER_SIZE + sz) by lia. }
  pose proof (blocks_nodup true (startAddress s) t' Hs') as Hd. rewrite Ef in Hd.
  pose proof (ok_free _ _ Hok) as Hch. rewrite blocks_app in Hch. cbn in Hch. fold c in Hch.
  destruct (split_aligned_ok _ _ _ _ _ a Hch Hd) as (s' & E & C & F); try done; [unfold HEADER_SIZE in *; lia|].
  exists s'. split; [done|]. rewrite <- Ef in C, F. eapply heap_step; try done.
  - unfold t'. rewrite !extent_app. cbn [extent]. unfold HEADER_SIZE. lia.
  - intros b z Hb. left. split.
    + unfold t' in Hb. rewrite blocks_app in *. cbn in Hb |- *. fold c in Hb |- *.
      replace (c + HEADER_SIZE + (a - (c + HEADER_SIZE)) + HEADER_SIZE + (c + sz - a)) with (c + HEADER_SIZE + sz) in Hb by lia. done.
    + intros Hin. apply (blocks_disjoint _ _ Hs' b Hin). by apply (list_elem_of_fmap_2 fst _ (b, z)).
Qed.

(** What is left of a free block of [sz] bytes when [size] bytes are taken. *)
Definition rest (sz size : Z) : list tile :=
  if sz - size >=? MIN_BLOCK_SIZE + HEADER_SIZE then [(true, sz - size - HEADER_SIZE)] else [].

Lemma sizes_rest sz size : 0 <= size <= sz -> sizes_ok (rest sz size).
Proof.
  intros H. unfold rest, MIN_BLOCK_SIZE, HEADER_SIZE. destruct (sz - size >=? 4 + 12) eqn:E; [|by constructor].
  apply Z.geb_le in E. apply sizes_cons. split; [lia|by constructor].
Qed.

Lemma take_tiles s t1 sz t2 size :
  let c := startAddress s + extent t1 in
  heap_ok s (t1 ++ (true, sz) :: t2) -> 0 <= size <= sz ->
  exists s', take_chunk c size s = Ok s' /\
    heap_ok s' (t1 ++ (false, taken_size sz size) :: rest sz size ++ t2) /\ same_heap s s'.
Proof.
  intros c Hok Hsz. destruct (block_bounds _ _ _ _ _ Hok) as (B1 & B2 & B3 & B4). fold c in B1, B3.
  set (t' := t1 ++ (false, taken_size sz size) :: rest sz size ++ t2).
  assert (Hs' : sizes_ok t').
  { pose proof (ok_sizes _ _ Hok) as H. unfold t'. rewrite sizes_app, !sizes_cons, sizes_app in *.
    destruct H as (? & ? & ?). pose proof (sizes_rest sz size). unfold taken_size in *. destruct (_ >=? _); intuition lia. }
  assert (Ee : c + HEADER_SIZE + taken_size sz size + extent (rest sz size) = c + HEADER_SIZE + sz).
  { unfold rest, taken_size. destruct (_ >=? _); cbn; lia. }
  assert (Ef : blocks true (startAddress s) t' = blocks true (startAddress s) t1 ++
    slice_of c sz size ++ blocks true (c + HEADER_SIZE + sz) t2).
  { unfold t'. rewrite blocks_app. cbn. fold c. rewrite blocks_app, Ee. f_equal. f_equal.
    unfold rest, slice_of, taken_size. destruct (_ >=? _); done. }
  pose proof (blocks_nodup true (startAddress s) t' Hs') as Hd. rewrite Ef in Hd.
  pose proof (blocks_disjoint (startAddress s) t' Hs') as Hdis.
  assert (Hu : forall b z, (b, z) ∈ blocks false (startAddress s) t' ->
    (b = c /\ z = taken_size sz size) \/ ((b, z) ∈ blocks false (startAddress s) (t1 ++ (true, sz) :: t2) /\ b <> c)).
  { unfold t'. intros b z. rewrite !blocks_app. cbn. fold c. rewrite blocks_app, Ee.
    assert (blocks false (c + HEADER_SIZE + taken_size sz size) (rest sz size) = []) as -> by (unfold rest; by destruct (_ >=? _)).
    pose proof (ok_sizes _ _ Hok) as [Hs1 [_ Hs2]%sizes_cons]%sizes_app.
    rewrite !elem_of_app, elem_of_cons. intros [H|[[= -> ->]|H]]; [right|by left|right]; (split; [tauto|]).
    - apply blocks_range in H as (? & ? & ?); [|done]. unfold c, HEADER_SIZE in *. lia.
    - apply blocks_range in H as (? & ? & ?); [|done]. unfold c, HEADER_SIZE in *. lia. }
  pose proof (ok_free _ _ Hok) as Hch. rewrite blocks_app in Hch. cbn in Hch. fold c in Hch.
  destruct (take_chunk_ok _ _ _ _ _ size Hch Hd) as (s' & E & C & Hh & F); try done; [|lia|].
  { rewrite <- Ef. intros Hin. apply (Hdis c Hin). unfold t'. rewrite blocks_app, fmap_app. apply elem_of_app. right. cbn. left. }
  exists s'. split; [done|]. rewrite <- Ef in C, F. eapply heap_step; try done.
  - unfold t'. rewrite !extent_app. cbn [extent]. rewrite extent_app. lia.
  - intros b z Hb. destruct (Hu b z Hb) as [[-> ->]|[Hb' Hne]]; [by right|left]. split; [done|].
    intros [->|Hin]%elem_of_cons; [done|]. apply (Hdis b Hin). by apply (list_elem_of_fmap_2 fst _ (b, z)).
Qed.

(** ** Allocation *)

Lemma blocks_split b a t l1 c sz l2 :
  blocks b a t = l1 ++ (c, sz) :: l2 ->
  exists t1 t2, t = t1 ++ (b, sz) :: t2 /\ l1 = blocks b a t1 /\ c = a + extent t1.
Proof.
  revert a l1. induction t as [|[b' z] t IH]; intros a l1; cbn; [by destruct l1|].
  destruct (Bool.eqb_spec b b') as [<-|Hne]; cbn.
  - destruct l1 as [|[c' z'] l1]; cbn; intros [= -> -> H]; [exists [], t; cbn; split_and!; (done || lia)|].
    apply IH in H as (t1 & t2 & -> & -> & ->). exists ((b, z') :: t1), t2. cbn. rewrite Bool.eqb_reflx. split_and!; (done || lia).
  - intros (t1 & t2 & -> & -> & ->)%IH. exists ((b', z) :: t1), t2. cbn. destruct (Bool.eqb_spec b b'); [done|]. split_and!; (done || lia).
Qed.

Lemma fit_at_bounds size alignment c sz a :
  fit_at size alignment c sz = Some a -> alignment_ok alignment ->
  ((a = c /\ size <= sz) \/ (c + HEADER_SIZE + MIN_BLOCK_SIZE <= a /\ a + size <= c + sz)) /\
  (alignment = 0 \/ (a + HEADER_SIZE) mod alignment = 0).
Proof.
  unfold fit_at, HEADER_SIZE, MIN_BLOCK_SIZE. intros H Hal.
  destruct (decide (alignment = 0)) as [->|Hnz].
  { unfold next_aligned in H. cbn [Z.eqb] in H. rewrite Z.eqb_refl in H. destruct (Z.ltb_spec sz size); [done|].
    injection H as <-. lia. }
  assert (Hpos : 0 < alignment) by (destruct Hal as [|(k & Hk & ->)]; [done|apply Z.pow_pos_nonneg; lia]).
  destruct (Z.ltb_spec sz size); [done|].
  destruct (Z.eqb_spec (c + 12) (next_aligned alignment (c + 12))) as [E|E].
  - injection H as <-. split; [lia|]. right. rewrite E. by apply next_aligned_spec.
  - destruct (Z.leb_spec (next_aligned alignment (c + 12 + 4 + 12) + size) (c + 12 + sz)); [|done]. injection H as <-.
    destruct (next_aligned_spec alignment (c + 12 + 4 + 12) Hpos) as [Hm Hb]. split; [lia|]. right.
    by replace (next_aligned alignment (c + 12 + 4 + 12) - 12 + 12) with (next_aligned alignment (c + 12 + 4 + 12)) by lia.
Qed.

(** The blocks that a free block at [c] becomes when [size] bytes are taken from
    [a] on. *)
Definition carve (c sz a size : Z) : list tile :=
  (if a =? c then [] else [(true, a - (c + HEADER_SIZE))]) ++
  (false, taken_size (c + sz - a) size) :: rest (c + sz - a) size.

Lemma carve_tiles s t1 sz t2 a size alignment :
  let c := startAddress s + extent t1 in
  heap_ok s (t1 ++ (true, sz) :: t2) -> alignment_ok alignment -> 0 < size -> fit_at size alignment c sz = Some a ->
  exists s1 s', try_chunk size alignment c sz s = Ok (a, s1) /\ take_chunk a size s1 = Ok s' /\
    heap_ok s' (t1 ++ carve c sz a size ++ t2) /\ same_heap s s'.
Proof.
  intros c Hok Hal Hsz Hfit. pose proof (fit_at_bounds _ _ _ _ _ Hfit Hal) as [Hb _].
  unfold try_chunk, carve. rewrite Hfit. destruct (Z.eqb_spec a c) as [->|Hne].
  - destruct (take_tiles s t1 sz t2 size) as (s' & E & Hok' & Hs); [done|lia|]. exists s, s'.
    replace (c + sz - c) with sz by lia. cbn [app]. by split_and!.
  - unfold HEADER_SIZE, MIN_BLOCK_SIZE in Hb.
    destruct (split_tiles s t1 sz t2 a) as (s1 & E1 & Hok1 & Hs1); [done|fold c; unfold HEADER_SIZE; lia|fold c; lia|].
    fold c in E1, Hok1. rewrite E1. mcbn.
    assert (Ea : startAddress s1 + extent (t1 ++ [(true, a - (c + HEADER_SIZE))]) = a).
    { rewrite (proj1 Hs1), extent_app. cbn. fold c. unfold c. lia. }
    destruct (take_tiles s1 (t1 ++ [(true, a - (c + HEADER_SIZE))]) (c + sz - a) t2 size) as (s' & E & Hok' & Hs).
    + by rewrite <- app_assoc.
    + lia.
    + rewrite Ea in E. exists s1, s'. rewrite <- !app_assoc in Hok' |- *. split_and!; try done. by eapply same_heap_trans.
Qed.

(** [allocAlgorithm] takes the first free block that fits, or finds that none does. *)
Lemma alloc_tiles s t size0 alignment :
  heap_ok s t -> alignment_ok alignment -> endAddress s + 1 + 16 + alignment <= 2 ^ 32 -> 0 < size0 <= 2 ^ 32 - 4 ->
  let size := next_aligned 4 size0 in
  (Forall (fun cs => fit_at size alignment cs.1 cs.2 = None) (blocks true (startAddress s) t) /\
   allocAlgorithm size0 alignment (firstChunk s) s = Ok (0, s)) \/
  exists t1 sz t2 a s', let c := startAddress s + extent t1 in
    t = t1 ++ (true, sz) :: t2 /\
    Forall (fun cs => fit_at size alignment cs.1 cs.2 = None) (blocks true (startAddress s) t1) /\
    fit_at size alignment c sz = Some a /\ allocAlgorithm size0 alignment (firstChunk s) s = Ok (a + HEADER_SIZE, s') /\
    heap_ok s' (t1 ++ carve c sz a size ++ t2) /\ same_heap s s'.
Proof.
  intros Hok Hal Hmax Hsz size. destruct (next_aligned_spec 4 size0 eq_refl) as [_ Hsize]. fold size in Hsize.
  pose proof (ok_free _ _ Hok) as [q Hch]. pose proof (ok_sizes _ _ Hok) as Hs.
  assert (Hroom : Forall (roomy alignment) (blocks true (startAddress s) t)).
  { apply Forall_forall. intros [c sz] Hin%blocks_range; [|done]. destruct Hok. unfold roomy. cbn. lia. }
  pose proof (chain_fuel s _ (ok_free _ _ Hok) (blocks_nodup true _ t Hs)) as Hfuel.
  assert (Hunf : allocAlgorithm size0 alignment (firstChunk s) s =
    ('(current, s) ← search (chunk_fuel s) size alignment (firstChunk s) s;
     if current =? 0 then Ok (0, s) else s ← take_chunk current size s; Ok (u32 (current + HEADER_SIZE), s))).
  { unfold allocAlgorithm. destruct (Z.eqb_spec size0 0); [lia|]. cbv zeta.
    replace (alignUp size0 4) with size. 2:{ symmetry. apply alignUp_spec; [right; by exists 2|lia..]. }
    by destruct (Z.eqb_spec (firstChunk s) 0) as [->|]. }
  destruct (search_ok (chunk_fuel s) size alignment s _ _ _ _ Hal ltac:(lia) Hch Hfuel Hroom)
    as [[HF HS]|(l1 & c & sz & l2 & a & El & HF & HA & HS)].
  - left. split; [done|]. rewrite Hunf, HS. done.
  - right. destruct (blocks_split _ _ _ _ _ _ _ El) as (t1 & t2 & -> & -> & ->).
    destruct (carve_tiles s t1 sz t2 a size alignment Hok Hal ltac:(lia) HA) as (s1 & s' & E1 & E2 & Hok' & Hsame).
    pose proof (fit_at_bounds _ _ _ _ _ HA Hal) as [Hb _]. pose proof (block_bounds _ _ _ _ _ Hok) as (B1 & B2 & B3 & B4).
    unfold HEADER_SIZE, MIN_BLOCK_SIZE in *.
    exists t1, sz, t2, a, s'. split_and!; try done. rewrite Hunf, (HS a s1 E1) by lia. mcbn.
    destruct (Z.eqb_spec a 0); [lia|]. rewrite E2. mcbn. do 2 f_equal. unfold HEADER_SIZE. unwrap. lia.
Qed.

(** ** Freeing *)

Lemma blocks_before b a t x : sizes_ok t -> Forall (fun cs => cs.1 < a + extent t) (blocks b a t) /\ 
  (x < a -> Forall (fun cs => x < cs.1) (blocks b a t)).
Proof.
  intros Ht. split; [|intros Hx]; apply Forall_forall; intros [c sz] Hin%blocks_range; (done || (cbn; unfold HEADER_SIZE in *; lia)).
Qed.

Lemma insert_tiles s t1 sz t2 :
  let c := startAddress s + extent t1 in
  heap_ok s (t1 ++ (false, sz) :: t2) ->
  exists s', insert_free c s = Ok s' /\ heap_ok s' (t1 ++ (true, sz) :: t2) /\ same_heap s s'.
Proof.
  intros c Hok. destruct (block_bounds _ _ _ _ _ Hok) as (B1 & B2 & B3 & B4). fold c in B1, B3.
  set (t' := t1 ++ (true, sz) :: t2).
  pose proof (ok_sizes _ _ Hok) as Hs. assert (Hs' : sizes_ok t') by (unfold t'; rewrite sizes_app, sizes_cons in *; done).
  apply sizes_app in Hs as [Hs1 [_ Hs2]%sizes_cons].
  assert (Ef : blocks true (startAddress s) t' = blocks true (startAddress s) t1 ++ [(c, sz)] ++ blocks true (c + HEADER_SIZE + sz) t2).
  { unfold t'. rewrite blocks_app. cbn. done. }
  pose proof (blocks_nodup true (startAddress s) t' Hs') as Hd. rewrite Ef in Hd.
  pose proof (ok_free _ _ Hok) as Hch. rewrite blocks_app in Hch. cbn in Hch. fold c in Hch.
  destruct (insert_free_ok s _ c sz _ Hch) as (s' & E & C & F); try done.
  - apply (ok_used _ _ Hok). rewrite blocks_app. apply elem_of_app. right. cbn. left.
  - by apply blocks_before.
  - apply blocks_before; [done|]. unfold HEADER_SIZE. lia.
  - exists s'. split; [done|]. rewrite <- Ef in C, F. eapply heap_step; try done.
    + unfold t'. by rewrite !extent_app.
    + intros b z Hb. left. split.
      * unfold t' in Hb. rewrite blocks_app in *. cbn in Hb |- *. fold c in Hb |- *. rewrite elem_of_app in Hb.
        apply elem_of_app. destruct Hb; [by left|right; by right].
      * intros Hin. apply (blocks_disjoint _ _ Hs' b Hin). by apply (list_elem_of_fmap_2 fst _ (b, z)).
Qed.

Lemma absorb_tiles s t1 x y t2 :
  let c := startAddress s + extent t1 in
  heap_ok s (t1 ++ (true, x) :: (true, y) :: t2) ->
  exists s', absorb c s = Ok s' /\ heap_ok s' (t1 ++ (true, x + y + HEADER_SIZE) :: t2) /\ same_heap s s'.
Proof.
  intros c Hok. set (t' := t1 ++ (true, x + y + HEADER_SIZE) :: t2).
  pose proof (ok_sizes _ _ Hok) as Hs. pose proof (ok_extent _ _ Hok) as He. pose proof (ok_range _ _ Hok) as Hr.
  pose proof Hs as [Hs1 [Hx [Hy Hs2]%sizes_cons]%sizes_cons]%sizes_app.
  assert (Hs' : sizes_ok t') by (unfold t'; rewrite sizes_app, sizes_cons; unfold HEADER_SIZE; split_and!; (done || lia)).
  assert (Eo : c + HEADER_SIZE + x + HEADER_SIZE + y = c + HEADER_SIZE + (x + y + HEADER_SIZE)) by lia.
  assert (Ef : blocks true (startAddress s) t' = blocks true (startAddress s) t1 ++
     (c, x + y + HEADER_SIZE) :: blocks true (c + HEADER_SIZE + (x + y + HEADER_SIZE)) t2).
  { unfold t'. rewrite blocks_app. cbn. done. }
  pose proof (blocks_nodup true (startAddress s) _ Hs) as Hd. pose proof (ok_free _ _ Hok) as Hch.
  rewrite blocks_app in Hch, Hd. cbn in Hch, Hd. fold c in Hch, Hd. rewrite Eo in Hch, Hd.
  rewrite extent_app in He. cbn in He. pose proof (extent_nonneg _ Hs1). pose proof (extent_nonneg _ Hs2).
  destruct (absorb_ok s _ c x _ y _ Hch Hd) as (s' & E & C & F); try (unfold c, HEADER_SIZE in *; lia).
  exists s'. split; [done|]. rewrite <- Ef in C, F. eapply heap_step; try done.
  - unfold t'. rewrite !extent_app. cbn. unfold HEADER_SIZE. lia.
  - intros b z Hb. left. split.
    + unfold t' in Hb. rewrite blocks_app in *. cbn in Hb |- *. fold c in Hb |- *. by rewrite Eo.
    + intros Hin. apply (blocks_disjoint _ _ Hs' b Hin). by apply (list_elem_of_fmap_2 fst _ (b, z)).
Qed.

(** Merging with the neighbours. *)
Definition merge_right (sz : Z) (t2 : list tile) : Z * list tile :=
  match t2 with (true, y) :: t2 => (sz + y + HEADER_SIZE, t2) | _ => (sz, t2) end.
Definition merge_left (t1 : list tile) (sz : Z) : list tile * Z :=
  match last t1 with Some (true, x) => (removelast t1, x + sz + HEADER_SIZE) | _ => (t1, sz) end.
Definition release_tile (t1 : list tile) (sz : Z) (t2 : list tile) : list tile :=
  let '(sz, t2) := merge_right sz t2 in let '(t1, sz) := merge_left t1 sz in t1 ++ (true, sz) :: t2.

(** The successor in the free list is adjacent exactly when the next block is free. *)
Lemma next_adjacent h p n e t q :
  sizes_ok t -> 0 < e -> seg h p n (blocks true e t) q 0 ->
  negb (n =? 0) && (e =? n) = match t with (true, _) :: _ => true | _ => false end.
Proof.
  intros Hs He Hseg. destruct t as [|[[|] y] t]; cbn in Hseg.
  - destruct Hseg as [_ ->]. done.
  - destruct Hseg as (-> & H0 & _). rewrite Z.eqb_refl. by destruct (Z.eqb_spec e 0).
  - apply sizes_cons in Hs as [Hy Hs]. destruct (seg_first _ _ _ _ _ _ Hseg) as [(_ & _ & ->)|(l' & z & x & El & _)]; [done|].
    assert (Hin : (n, z) ∈ blocks true (e + HEADER_SIZE + y) t) by (rewrite El; left).
    apply blocks_range in Hin as (_ & Hn & _); [|done]. unfold HEADER_SIZE in Hn.
    destruct (Z.eqb_spec e n); [lia|]. apply andb_false_r.
Qed.

(** The predecessor is adjacent exactly when the block before is free. *)
Lemma prev_adjacent h f a t q n :
  sizes_ok t -> 0 < a -> seg h 0 f (blocks true a t) q n ->
  match last t with
  | Some (true, x) => exists t' p, t = t' ++ [(true, x)] /\ q = a + extent t' /\ h !! q = Some (mkHeader p n x)
  | _ => q = 0 \/ exists x hd, h !! q = Some hd /\ hsize hd = x /\ 0 <= x /\ 0 < q /\ q + HEADER_SIZE + x < a + extent t
  end.
Proof.
  intros Hs Ha Hseg. destruct (seg_last _ _ _ _ _ _ Hseg) as [(El & -> & _)|(l' & x & p & El & Hq & Hh & _)].
  - destruct (list_eq_nil_dec t) as [->|Hne]; [by left|]. destruct (exists_last Hne) as (t' & [[|] x] & ->); rewrite last_snoc.
    + rewrite blocks_app in El. apply app_nil in El as [_ El]. done.
    + by left.
  - destruct (blocks_split _ _ _ _ _ _ _ El) as (ta & tb & -> & -> & ->).
    apply sizes_app in Hs as [Hs1 [Hx Hs2]%sizes_cons].
    rewrite blocks_app in El. cbn in El. apply app_inv_head in El. injection El as El.
    destruct (list_eq_nil_dec tb) as [->|Hne]; [rewrite last_snoc; eauto|].
    destruct (exists_last Hne) as (t' & [[|] y] & ->).
    + rewrite blocks_app in El. apply app_nil in El as [_ El]. done.
    + replace (ta ++ (true, x) :: t' ++ [(false, y)]) with ((ta ++ (true, x) :: t') ++ [(false, y)]) by (by rewrite <- app_assoc).
      rewrite last_snoc. right. exists x. eexists. split; [done|]. pose proof (extent_nonneg _ Hs1).
      apply sizes_app in Hs2 as [Hs2 [Hy _]%sizes_cons]. pose proof (extent_nonneg _ Hs2).
      rewrite !extent_app. cbn. unfold HEADER_SIZE. split_and!; (done || lia).
Qed.

(** The free block between [t1] and [t2] in the list. *)
Lemma free_middle s t1 sz t2 :
  let c := startAddress s + extent t1 in
  heap_ok s (t1 ++ (true, sz) :: t2) ->
  exists q1 n2 q, seg (headers s) 0 (firstChunk s) (blocks true (startAddress s) t1) q1 c /\
    header c s = Ok (mkHeader q1 n2 sz) /\ seg (headers s) c n2 (blocks true (c + HEADER_SIZE + sz) t2) q 0 /\ firstChunk s <> 0.
Proof.
  intros c Hok. pose proof (ok_free _ _ Hok) as Hch. rewrite blocks_app in Hch. cbn in Hch. fold c in Hch.
  destruct (chain_middle _ _ _ _ _ Hch) as (q1 & n2 & q & S1 & _ & Hh & S2 & _). exists q1, n2, q. split_and!; try done.
  - unfold header. by rewrite Hh.
  - destruct Hch as [q' Hch]. destruct (seg_first _ _ _ _ _ _ Hch) as [(El & _)|(? & ? & ? & _ & ? & _)]; [|done].
    by destruct (blocks true (startAddress s) t1).
Qed.

Lemma merge_right_tiles s t1 sz t2 :
  let c := startAddress s + extent t1 in
  heap_ok s (t1 ++ (true, sz) :: t2) ->
  exists s', (o ← header c s;
      if negb (next o =? 0) && (u32 (u32 (c + HEADER_SIZE) + hsize o) =? next o) then absorb c s else Ok s) = Ok s' /\
    heap_ok s' (t1 ++ (true, (merge_right sz t2).1) :: (merge_right sz t2).2) /\ same_heap s s'.
Proof.
  intros c Hok. destruct (block_bounds _ _ _ _ _ Hok) as (B1 & B2 & B3 & B4). fold c in B1, B3.
  destruct (free_middle _ _ _ _ Hok) as (q1 & n2 & q & S1 & Hh & S2 & _). fold c in S1, Hh, S2.
  rewrite Hh. mcbn. cbn [next hsize].
  pose proof (ok_sizes _ _ Hok) as [_ [_ Hs2]%sizes_cons]%sizes_app.
  assert (Hw : t2 <> [] -> u32 (u32 (c + HEADER_SIZE) + sz) = c + HEADER_SIZE + sz).
  { intros Hne. unfold u32. rewrite wrap_add_l, wrap_small; [done|]. unfold in_u. destruct t2 as [|[b y] t2]; [done|].
    pose proof (ok_extent _ _ Hok) as He. rewrite extent_app in He. cbn in He.
    apply sizes_cons in Hs2 as [? Hs2]. pose proof (extent_nonneg _ Hs2). unfold c, HEADER_SIZE in *. lia. }
  destruct t2 as [|[[|] y] t2']; cbn [merge_right fst snd].
  - cbn in S2. destruct S2 as [_ ->]. cbn [Z.eqb negb andb]. exists s. by split_and!.
  - destruct S2 as (-> & _ & _). rewrite Hw, Z.eqb_refl by done.
    destruct (Z.eqb_spec (c + HEADER_SIZE + sz) 0); [unfold HEADER_SIZE in *; lia|]. by apply absorb_tiles.
  - rewrite Hw by done. rewrite (next_adjacent (headers s) c n2 (c + HEADER_SIZE + sz) ((false, y) :: t2') q);
      [exists s; by split_and!|done|unfold HEADER_SIZE; lia|done].
Qed.

Lemma merge_left_tiles s t1 sz t2 :
  let c := startAddress s + extent t1 in
  heap_ok s (t1 ++ (true, sz) :: t2) ->
  exists c' s', (o ← header c s;
      let tmp := prev o in
      if tmp =? 0 then Ok (c, s)
      else
        t ← header tmp s;
        if u32 (u32 (tmp + HEADER_SIZE) + hsize t) =? c then s ← absorb tmp s; Ok (tmp, s) else Ok (c, s)) = Ok (c', s') /\
    heap_ok s' ((merge_left t1 sz).1 ++ (true, (merge_left t1 sz).2) :: t2) /\ same_heap s s' /\
    c' = startAddress s + extent (merge_left t1 sz).1.
Proof.
  intros c Hok. destruct (block_bounds _ _ _ _ _ Hok) as (B1 & B2 & B3 & B4). fold c in B1, B3.
  destruct (free_middle _ _ _ _ Hok) as (q1 & n2 & q & S1 & Hh & S2 & _). fold c in S1, Hh, S2.
  rewrite Hh. mcbn. cbn [prev]. cbv zeta.
  pose proof (ok_sizes _ _ Hok) as [Hs1 _]%sizes_app. destruct (ok_range _ _ Hok) as [Hst _].
  pose proof (prev_adjacent _ _ _ _ _ _ Hs1 Hst S1) as Hp. unfold merge_left.
  assert (Hno : (q1 = 0 \/ exists x hd, headers s !! q1 = Some hd /\ hsize hd = x /\ 0 <= x /\ 0 < q1 /\
      q1 + HEADER_SIZE + x < startAddress s + extent t1) ->
    (if q1 =? 0 then Ok (c, s) else t ← header q1 s;
       if u32 (u32 (q1 + HEADER_SIZE) + hsize t) =? c then s ← absorb q1 s; Ok (q1, s) else Ok (c, s)) = Ok (c, s)).
  { intros [->|(x & hd & Hq & <- & Hx & Hq0 & Hlt)]; [done|]. destruct (Z.eqb_spec q1 0); [done|]. unfold header. rewrite Hq.
    cbn [of_option]. mcbn. fold c in Hlt. unfold HEADER_SIZE in *.
    replace (u32 (u32 (q1 + 12) + hsize hd)) with (q1 + 12 + hsize hd) by (unfold u32; rewrite wrap_add_l; unwrap; lia).
    by destruct (Z.eqb_spec (q1 + 12 + hsize hd) c); [lia|]. }
  destruct (last t1) as [[[|] x]|]; [|exists c, s; rewrite (Hno Hp); by split_and!..].
  destruct Hp as (t' & p & -> & -> & Hq). rewrite removelast_last. cbn [fst snd].
  apply sizes_app in Hs1 as [Hs1 [Hx _]%sizes_cons]. pose proof (extent_nonneg _ Hs1).
  assert (Ec : c = startAddress s + extent t' + HEADER_SIZE + x) by (unfold c; rewrite extent_app; cbn; lia).
  destruct (Z.eqb_spec (startAddress s + extent t') 0); [lia|]. unfold header. rewrite Hq. cbn [of_option]. mcbn. cbn [hsize].
  replace (u32 (u32 (startAddress s + extent t' + HEADER_SIZE) + x)) with c.
  2:{ unfold u32. rewrite wrap_add_l, wrap_small; [done|]. rewrite <- Ec. unfold in_u, HEADER_SIZE in *. lia. }
  rewrite Z.eqb_refl. rewrite <- app_assoc in Hok.
  destruct (absorb_tiles _ _ _ _ _ Hok) as (s' & E & Hok' & Hsame). rewrite E. mcbn. eexists _, s'. by split_and!.
Qed.

Lemma merge_tiles s t1 sz t2 :
  heap_ok s (t1 ++ (true, sz) :: t2) ->
  exists c' s', merge (startAddress s + extent t1) s = Ok (c', s') /\ heap_ok s' (release_tile t1 sz t2) /\ same_heap s s' /\
    c' = startAddress s + extent (merge_left t1 (merge_right sz t2).1).1 /\ exists p n, headers s' !! c' = Some (mkHeader p n (merge_left t1 (merge_right sz t2).1).2).
Proof.
  intros Hok. destruct (free_middle _ _ _ _ Hok) as (q1 & n2 & q & _ & Hh & _ & H0).
  destruct (merge_right_tiles _ _ _ _ Hok) as (s1 & E1 & Hok1 & Hs1).
  destruct (merge_left_tiles _ _ _ _ Hok1) as (c' & s2 & E2 & Hok2 & Hs2 & Ec). rewrite (proj1 Hs1) in *.
  exists c', s2. unfold merge, release_tile. destruct (Z.eqb_spec (firstChunk s) 0); [done|].
  rewrite Hh in *. cbn [mbind outcome_bind] in E1 |- *. rewrite E1.
  destruct (merge_right sz t2) as [sz2 t2'], (merge_left t1 _) as [t1' sz1] eqn:El; cbn [fst snd] in *.
  cbn [fst snd] in *. split_and!; [exact E2|done|by eapply same_heap_trans|done|].
  destruct (free_middle _ _ _ _ Hok2) as (q1' & n2' & q' & _ & Hh' & _). unfold header in Hh'.
  rewrite (proj1 Hs2), (proj1 Hs1), <- Ec in Hh'. destruct (headers s2 !! c') as [hd|]; [|done]. injection Hh' as ->. eauto.
Qed.

(** ** The heap's contract *)

Lemma heap_ok_lock l s t : heap_ok s t -> heap_ok (with_lock l s) t.
Proof. by intros [? ? ? ? ?]. Qed.

(** The blocks only depend on the headers at their addresses. *)
Lemma heap_ok_headers s s' t :
  heap_ok s t -> startAddress s' = startAddress s -> endAddress s' = endAddress s -> firstChunk s' = firstChunk s ->
  (forall b a, a ∈ (blocks b (startAddress s) t).*1 -> headers s' !! a = headers s !! a) -> heap_ok s' t.
Proof.
  intros [H1 H2 H3 H4 H5] Ea Eb Ec Hh. constructor; rewrite ?Ea, ?Eb; try done.
  - destruct H1 as [q Hq]. exists q. rewrite Ec. eapply seg_frame; [|exact Hq]. intros a Ha. by apply (Hh true).
  - intros c sz Hc. rewrite (Hh false); [by apply H2|]. by apply (list_elem_of_fmap_2 fst _ (c, sz)).
Qed.

(** The headers around a block: before it, right behind it, or further behind. *)
Lemma blocks_around b a t1 b' z t2 x :
  let c := a + extent t1 in
  sizes_ok (t1 ++ (b', z) :: t2) -> x ∈ (blocks b a (t1 ++ (b', z) :: t2)).*1 -> x <= c \/ x = c + HEADER_SIZE + z \/ c + HEADER_SIZE + z + HEADER_SIZE <= x.
Proof.
  intros c [Hs1 [Hz Hs2]%sizes_cons]%sizes_app. rewrite blocks_app, fmap_app, elem_of_app. fold c. intros [Hx|Hx].
  - apply blocks_addr in Hx; [|done]. unfold c. lia.
  - cbn in Hx. rewrite fmap_app, elem_of_app in Hx. destruct Hx as [Hx|Hx].
    + destruct (eqb b b'); cbn in Hx; [apply list_elem_of_singleton in Hx; lia|by apply not_elem_of_nil in Hx].
    + destruct t2 as [|[b2 y] t2]; cbn in Hx; [by apply not_elem_of_nil in Hx|]. apply sizes_cons in Hs2 as [Hy Hs2]. rewrite fmap_app, elem_of_app in Hx. destruct Hx as [Hx|Hx].
      * destruct (eqb b b2); cbn in Hx; [apply list_elem_of_singleton in Hx; lia|by apply not_elem_of_nil in Hx].
      * apply blocks_addr in Hx; [|done]. lia.
Qed.

(** The size that is passed to [unmap] counts the header, the address does not: the pages end at most a header behind the
    end [e] of the chunk [c], and behind [e] only for a chunk whose data starts with a page and ends with one. *)
Lemma unmap_range_ok c z :
  0 < c -> PAGESIZE <= z -> c + HEADER_SIZE + z <= 2 ^ 32 ->
  let e := c + HEADER_SIZE + z in
  let '(first, last) := unmap_range (u32 (c + HEADER_SIZE)) (u32 (HEADER_SIZE + z) / PAGESIZE) in
  c + HEADER_SIZE <= first /\ last <= e + HEADER_SIZE /\
  (e < last -> (c + HEADER_SIZE) mod PAGESIZE < HEADER_SIZE /\ PAGESIZE - HEADER_SIZE <= e mod PAGESIZE).
Proof.
  unfold HEADER_SIZE. change PAGESIZE with 4096. intros Hc Hz He. replace (u32 (c + 12)) with (c + 12) by (unwrap; lia). replace (u32 (12 + z)) with (12 + z) by (unwrap; lia).
  unfold unmap_range. change PAGESIZE with 4096. destruct (Z.eqb_spec ((c + 12) mod 4096) 0) as [E|E]; cbn [negb].
  - Z.to_euclidean_division_equations; lia.
  - rewrite alignUp_spec; [|right; exists 12; lia|lia|lia|lia|lia]. unfold next_aligned. cbn [Z.eqb].
    assert (Hn : 1 <= (12 + z) / 4096 < 2 ^ 32) by (Z.to_euclidean_division_equations; lia). replace (u32 ((12 + z) / 4096 - 1)) with ((12 + z) / 4096 - 1) by (unwrap; lia).
    Z.to_euclidean_division_equations; lia.
Qed.

(** What is left of the row of blocks after a call of [unmap] for the free block at [c]: all of it, or all but the header
    right behind that block. *)
Definition behind_kept (s : FreeListMemoryManager) (t : list tile) (c z : Z) : Prop :=
  heap_ok s t \/
  PAGESIZE <= z /\ (c + HEADER_SIZE) mod PAGESIZE < HEADER_SIZE /\ PAGESIZE - HEADER_SIZE <= (c + HEADER_SIZE + z) mod PAGESIZE /\
  exists h, heap_ok (store (c + HEADER_SIZE + z) h s) t.

Lemma lose_pages_ok stale s t1 z t2 calls :
  let c := startAddress s + extent t1 in
  heap_ok s (t1 ++ (true, z) :: t2) -> PAGESIZE <= z ->
  behind_kept (mkHeap (startAddress s) (endAddress s) (lock s) (firstChunk s) (unmapFreedMemory s)
    (lose_pages stale (u32 (c + HEADER_SIZE)) (u32 (HEADER_SIZE + z) / PAGESIZE) (headers s)) calls) (t1 ++ (true, z) :: t2) c z.
Proof.
  intros c Hok Hz. destruct (block_bounds _ _ _ _ _ Hok) as (B1 & B2 & B3 & B4). fold c in B1, B3. set (s' := mkHeap _ _ _ _ _ _ _). set (e := c + HEADER_SIZE + z) in *.
  pose proof (unmap_range_ok c z B1 Hz ltac:(lia)) as Hr. cbv zeta in Hr. destruct (unmap_range _ _) as [first last] eqn:Er. destruct Hr as (R1 & R2 & R3). fold e in R2, R3.
  assert (Hl : forall a, headers s' !! a = (fun x => if (first <? a + HEADER_SIZE) && (a <? last) then stale a else x) <$> headers s !! a).
  { intros a. cbn [headers s']. unfold lose_pages. rewrite Er, map_lookup_imap. by destruct (headers s !! a). }
  assert (Hk : forall a, a <= c \/ e + HEADER_SIZE <= a \/ (a = e /\ last <= e) -> headers s' !! a = headers s !! a).
  { intros a Ha. rewrite Hl. destruct (headers s !! a) as [x|]; [|done]. cbn. do 2 f_equal. unfold HEADER_SIZE, e in *.
    destruct (Z.ltb_spec first (a + 12)), (Z.ltb_spec a last); cbn [andb]; (done || lia). }
  pose proof (ok_sizes _ _ Hok) as Hs. destruct (Z.le_gt_cases last e) as [Hle|Hgt].
  - left. apply (heap_ok_headers s); try done. intros b a Ha. apply blocks_around in Ha; [|done]. fold c e in Ha. apply Hk. lia.
  - destruct (headers s !! e) as [h|] eqn:Eh.
    + right. destruct (R3 ltac:(lia)). split_and!; try done. exists h. apply (heap_ok_headers s); try done. intros b a Ha. cbn [headers store with_headers].
      destruct (decide (a = e)) as [->|Hne]; [by rewrite lookup_insert_eq|]. rewrite lookup_insert_ne by done. apply blocks_around in Ha; [|done]. fold c e in Ha. apply Hk. lia.
    + left. apply (heap_ok_headers s); try done. intros b a Ha. destruct (decide (a = e)) as [->|Hne]; [by rewrite Hl, Eh|]. apply blocks_around in Ha; [|done]. fold c e in Ha. apply Hk. lia.
Qed.

Lemma carve_used c sz a size : a = c \/ c + HEADER_SIZE <= a ->
  blocks false c (carve c sz a size) = [(a, taken_size (c + sz - a) size)] /\
  (size <= c + sz - a -> size <= taken_size (c + sz - a) size) /\
  extent (carve c sz a size) = HEADER_SIZE + sz.
Proof.
  intros Ha. unfold carve, rest, taken_size. destruct (Z.eqb_spec a c) as [->|Hne].
  - replace (c + sz - c) with sz by lia. destruct (_ >=? _); cbn; (split_and!; [done|lia|lia]).
  - destruct (_ >=? _); cbn; replace (c + HEADER_SIZE + (a - (c + HEADER_SIZE))) with a by lia; (split_and!; [done|lia|lia]).
Qed.


(** No two adjacent free blocks. *)
Fixpoint coalesced (t : list tile) : Prop :=
  match t with
  | [] => True
  | (b, _) :: t => (b = true -> match t with (true, _) :: _ => False | _ => True end) /\ coalesced t
  end.


Lemma heap_ok_lock_kept l s t c z : behind_kept s t c z -> behind_kept (with_lock l s) t c z.
Proof. intros [H|(? & ? & ? & h & H)]; [left; by apply heap_ok_lock|right; split_and!; try done; exists h; by apply (heap_ok_lock l) in H]. Qed.

(** The block that a freed block becomes a part of: its header and its size. *)
Definition merged_at (a : Z) (t1 : list tile) (sz : Z) (t2 : list tile) : Z := a + extent (merge_left t1 (merge_right sz t2).1).1.
Definition merged_size (t1 : list tile) (sz : Z) (t2 : list tile) : Z := (merge_left t1 (merge_right sz t2).1).2.

Lemma free_tiles mm stale s t1 sz t2 :
  heap_ok s (t1 ++ (false, sz) :: t2) -> isLocked s = false -> 0 < sz ->
  exists s', freeMemory mm stale (startAddress s + extent t1 + HEADER_SIZE) s = Ok s' /\
    (if mm && unmapFreedMemory s then behind_kept s' (release_tile t1 sz t2) (merged_at (startAddress s) t1 sz t2) (merged_size t1 sz t2)
     else heap_ok s' (release_tile t1 sz t2)) /\
    isLocked s' = false /\ startAddress s' = startAddress s /\ endAddress s' = endAddress s.
Proof.
  intros Hok Hl Hsz. destruct (Spinlock.Spinlock.acquire_released 1 (lock s)) as (l & El & _); [lia|done|].
  unfold freeMemory. rewrite El. mcbn. destruct (block_bounds _ _ _ _ _ Hok) as (B1 & _ & B3 & B4).
  pose proof (ok_sizes _ _ Hok) as [H1%extent_nonneg _]%sizes_app. set (s0 := with_lock l s).
  destruct (insert_tiles s0 t1 sz t2 (heap_ok_lock l s _ Hok)) as (s1 & E1 & Hok1 & Hs1).
  destruct (merge_tiles _ _ _ _ Hok1) as (c' & s2 & E2 & Hok2 & Hs2 & Ec & pp & nn & Hhd). rewrite (proj1 Hs1) in E2, Ec.
  pose proof (same_heap_trans _ _ _ Hs1 Hs2) as (Sa & Ea & _ & Su). cbn [startAddress endAddress unmapFreedMemory s0 with_lock] in *. fold (merged_at (startAddress s) t1 sz t2) in Ec. fold (merged_size t1 sz t2) in Hhd.
  unfold freeAlgorithm. cbn [startAddress endAddress s0 with_lock]. unfold HEADER_SIZE in *.
  destruct (Z.eqb_spec (startAddress s + extent t1 + 12) 0); [lia|].
  destruct (Z.ltb_spec (startAddress s + extent t1 + 12) (startAddress s)); [lia|].
  destruct (Z.gtb_spec (startAddress s + extent t1 + 12) (endAddress s)); [lia|]. cbn [orb]. cbv zeta.
  replace (u32 (startAddress s + extent t1 + 12 - 12)) with (startAddress s + extent t1) by (unwrap; lia).
  change (mkHeap _ _ l _ _ _ _) with s0. rewrite E1. mcbn. rewrite E2. mcbn. unfold header. rewrite Hhd. cbn [of_option]. mcbn. cbn [hsize]. rewrite Su.
  destruct (unmapFreedMemory s) eqn:Eu; cbn [andb].
  2:{ rewrite andb_false_r. mcbn. eexists. split; [done|]. split_and!; try done. by apply heap_ok_lock. }
  rewrite andb_true_r. destruct mm; rewrite ?andb_false_r, ?andb_true_r; mcbn.
  2:{ eexists. split; [done|]. split_and!; try done. by apply heap_ok_lock. }
  destruct (merged_size t1 sz t2 >=? PAGESIZE) eqn:Ez; mcbn; (eexists; split; [done|]); (split_and!; [|done|done|done]); apply heap_ok_lock_kept; [|by left].
  rewrite Z.geb_leb in Ez. apply Z.leb_le in Ez. revert Hok2. unfold release_tile, merged_at, merged_size in *. destruct (merge_right sz t2) as [z2 t2']. cbn [fst snd] in *. destruct (merge_left t1 z2) as [t1' z1]. cbn [fst snd] in *. subst c'.
  intros Hok2. rewrite <- Sa. exact (eq_rect _ (fun u => behind_kept (mkHeap _ _ _ _ u _ _) _ _ _) (lose_pages_ok stale s2 t1' z1 t2' _ Hok2 Ez) _ Su).
Qed.

Lemma release_used a t1 sz t2 :
  blocks false a (release_tile t1 sz t2) = blocks false a t1 ++ blocks false (a + extent t1 + HEADER_SIZE + sz) t2.
Proof.
  unfold release_tile, merge_right, merge_left.
  assert (Hr : forall z t, blocks false a (t1 ++ (true, z) :: t) = blocks false a t1 ++ blocks false (a + extent t1 + HEADER_SIZE + z) t)
    by (intros; by rewrite blocks_app).
  assert (Hl : forall t' x z t, t1 = t' ++ [(true, x)] -> blocks false a (t' ++ (true, x + z + HEADER_SIZE) :: t) =
    blocks false a t1 ++ blocks false (a + extent t1 + HEADER_SIZE + z) t).
  { intros t' x z t ->. rewrite !blocks_app, extent_app. cbn. rewrite app_nil_r. do 2 f_equal. lia. }
  assert (Hc : forall z t, blocks false a (let '(t1, z) := match last t1 with Some (true, x) => (removelast t1, x + z + HEADER_SIZE) | _ => (t1, z) end
      in t1 ++ (true, z) :: t) = blocks false a t1 ++ blocks false (a + extent t1 + HEADER_SIZE + z) t).
  { intros z t. destruct (list_eq_nil_dec t1) as [->|Hne]; [apply Hr|]. destruct (exists_last Hne) as (t' & [[|] x] & E); rewrite E, last_snoc; [|by rewrite <- E].
    rewrite removelast_last, <- E. by apply Hl. }
  destruct t2 as [|[[|] y] t2]; rewrite Hc; try done. cbn. do 2 f_equal. lia.
Qed.

Definition starts_free (t : list tile) : Prop := match t with (true, _) :: _ => True | _ => False end.
Definition ends_free (t : list tile) : Prop := match last t with Some (true, _) => True | _ => False end.

Lemma coalesced_app t1 t2 : coalesced (t1 ++ t2) <-> coalesced t1 /\ coalesced t2 /\ ~ (ends_free t1 /\ starts_free t2).
Proof.
  unfold ends_free. induction t1 as [|[b z] [|[b' z'] t1] IH].
  - cbn. tauto.
  - cbn. destruct b, t2 as [|[[|] y] t2]; cbn; intuition done.
  - cbn [app coalesced] in *. rewrite IH. cbn [last]. cbn. tauto.
Qed.

Lemma coalesced_cons b z t : coalesced ((b, z) :: t) <-> coalesced t /\ ~ (b = true /\ starts_free t).
Proof. cbn. destruct b, t as [|[[|] y] t]; cbn; intuition done. Qed.

Lemma release_coalesced t1 sz t2 : coalesced (t1 ++ (false, sz) :: t2) -> coalesced (release_tile t1 sz t2).
Proof.
  rewrite coalesced_app, coalesced_cons. intros (H1 & (H2 & _) & _). unfold release_tile.
  assert (Hr : coalesced (merge_right sz t2).2 /\ ~ starts_free (merge_right sz t2).2).
  { destruct t2 as [|[[|] y] t2]; cbn [merge_right fst snd]; try (by split; [done|intros []]).
    apply coalesced_cons in H2 as [? H2]. split; [done|]. intros ?. by apply H2. }
  assert (Hl : forall z, coalesced (merge_left t1 z).1 /\ ~ ends_free (merge_left t1 z).1).
  { intros z. unfold merge_left. destruct (list_eq_nil_dec t1) as [->|Hne]; [by split; [|intros []]|].
    destruct (exists_last Hne) as (t' & [[|] x] & E); rewrite E, last_snoc in *; cbn [fst].
    - rewrite removelast_last. apply coalesced_app in H1 as (? & _ & H1). split; [done|]. intros ?. by apply H1.
    - split; [done|]. unfold ends_free. rewrite last_snoc. tauto. }
  destruct (merge_right sz t2) as [z t2'], (merge_left t1 z) as [t1' z'] eqn:E. specialize (Hl z). rewrite E in Hl. cbn [fst snd] in *.
  rewrite coalesced_app, coalesced_cons. tauto.
Qed.

Lemma initialize_ok s a e :
  0 < a -> a + 11 <= e < 2 ^ 32 ->
  exists s', initialize a e s = Ok s' /\ heap_ok s' [(true, e - a - 11)] /\ lock s' = lock s /\
    startAddress s' = a /\ endAddress s' = e.
Proof.
  intros Ha He. unfold initialize, getTotalMemory, HEADER_SIZE. cbn [startAddress endAddress with_first].
  replace (u32 (e - a + 1)) with (e - a + 1) by (unwrap; lia). destruct (Z.ltb_spec (e - a + 1) 12); [lia|].
  replace (u32 (e - a + 1 - 12)) with (e - a - 11) by (unwrap; lia). eexists. split; [done|]. split; [|done].
  constructor; cbn.
  - exists a. cbn. split; [done|]. split; [lia|]. exists 0. by rewrite lookup_insert_eq.
  - intros c sz H'. by apply not_elem_of_nil in H'.
  - apply sizes_cons. split; [lia|by constructor].
  - unfold HEADER_SIZE. lia.
  - lia.
Qed.

(** The bytes in free blocks. *)
Definition free_bytes (t : list tile) : Z := foldr (fun '(b, sz) n => if (b : bool) then sz + n else n) 0 t.

Lemma free_bytes_blocks a t : free_bytes t = foldr (fun cs n => cs.2 + n) 0 (blocks true a t).
Proof. revert a. induction t as [|[[|] z] t IH]; intros a; cbn; [done| |]; by rewrite <- IH. Qed.

Lemma free_bytes_bound t : sizes_ok t -> 0 <= free_bytes t <= extent t.
Proof. induction 1 as [|[[|] z] t Hz _ IH]; unfold free_bytes in *; cbn [foldr extent snd] in *; unfold HEADER_SIZE; lia. Qed.

Lemma getFreeMemory_loop_ok s fuel p f l q n :
  seg (headers s) p f l q 0 -> (length l <= fuel)%nat -> Forall (fun cs => 0 <= cs.2) l -> 0 <= n ->
  n + foldr (fun cs n => cs.2 + n) 0 l < 2 ^ 32 ->
  getFreeMemory_loop fuel f n s = Ok (n + foldr (fun cs n => cs.2 + n) 0 l).
Proof.
  revert p f l n. induction fuel as [|fuel IH]; intros p f l n Hs Hl Hp Hn Hmax; (destruct l as [|[a z] l];
    [cbn in Hs; destruct Hs as [_ ->]; cbn; f_equal; lia|]); [cbn in Hl; lia|].
  destruct Hs as (-> & H0 & x & Hx & Hs). cbn [getFreeMemory_loop]. destruct (Z.eqb_spec a 0); [done|].
  unfold header. rewrite Hx. cbn [of_option]. mcbn. cbn [hsize next]. apply Forall_cons in Hp as [Hz Hp]. cbn [foldr snd] in *.
  assert (0 <= foldr (fun (cs : Z * Z) n => cs.2 + n) 0 l) by (clear -Hp; induction Hp; cbn; lia).
  replace (u32 (n + z)) with (n + z) by (unwrap; lia).
  rewrite (IH a x l); [f_equal; lia|done|cbn in Hl; lia|done|lia|lia].
Qed.

Lemma free_memory_ok s t : heap_ok s t -> getFreeMemory s = Ok (free_bytes t).
Proof.
  intros Hok. pose proof (ok_sizes _ _ Hok) as Hs. pose proof (ok_extent _ _ Hok) as He. pose proof (ok_range _ _ Hok) as Hr.
  pose proof (free_bytes_bound t Hs). destruct (ok_free _ _ Hok) as [q Hq]. unfold getFreeMemory.
  rewrite (getFreeMemory_loop_ok s _ _ _ _ _ _ Hq); rewrite <- ?free_bytes_blocks; [done| | |done|lia].
  - by apply chain_fuel, blocks_nodup; [apply (ok_free _ _ Hok)|].
  - apply Forall_forall. intros [c sz] Hin%blocks_range; [cbn; lia|done].
Qed.

(** The merged block contains the freed one. *)
Lemma merged_around a t1 sz t2 :
  sizes_ok (t1 ++ (false, sz) :: t2) ->
  (merged_at a t1 sz t2, merged_size t1 sz t2) ∈ blocks true a (release_tile t1 sz t2) /\
  merged_at a t1 sz t2 <= a + extent t1 /\ a + extent t1 + sz <= merged_at a t1 sz t2 + merged_size t1 sz t2.
Proof.
  intros [Hs1 [Hz Hs2]%sizes_cons]%sizes_app. unfold merged_at, merged_size, release_tile.
  assert (Hr : sz <= (merge_right sz t2).1) by (destruct t2 as [|[[|] y] t2]; cbn [merge_right fst]; try lia; apply sizes_cons in Hs2 as [Hy _]; unfold HEADER_SIZE; lia).
  destruct (merge_right sz t2) as [z2 t2']. cbn [fst] in *.
  assert (Hl : extent (merge_left t1 z2).1 <= extent t1 /\ extent t1 + z2 <= extent (merge_left t1 z2).1 + (merge_left t1 z2).2).
  { unfold merge_left. destruct (list_eq_nil_dec t1) as [->|Hne]; [cbn; lia|]. destruct (exists_last Hne) as (t' & [[|] x] & ->); rewrite last_snoc; cbn [fst snd]; [|lia].
    apply sizes_app in Hs1 as [_ [Hx _]%sizes_cons]. rewrite removelast_last, extent_app. cbn [extent]. unfold HEADER_SIZE. lia. }
  destruct (merge_left t1 z2) as [t1' z1]. cbn [fst snd] in *. split; [|lia]. rewrite blocks_app, elem_of_app. right. cbn. left.
Qed.

(** C2: freeMemory gives back exactly the block it is given, as part of a free
    block that contains it, unlocks the heap and merges with the neighbours
    so that no two free blocks are adjacent when none were before. The heap
    is a row of blocks again if no pages are unmapped; if the pages of the
    free block are, the one header right behind it may be lost, which takes
    data that starts in the first 12 bytes of a page and an end in the last
    12 bytes of one, and all other headers are kept. *)
Theorem freeMemory_spec mm stale s t ptr sz :
  heap_ok s t -> isLocked s = false -> (ptr - HEADER_SIZE, sz) ∈ blocks false (startAddress s) t -> 0 < sz ->
  exists s' t' c z, freeMemory mm stale ptr s = Ok s' /\
    (c, z) ∈ blocks true (startAddress s) t' /\ c <= ptr - HEADER_SIZE /\ ptr + sz <= c + HEADER_SIZE + z /\
    (if mm && unmapFreedMemory s then behind_kept s' t' c z else heap_ok s' t') /\
    isLocked s' = false /\ startAddress s' = startAddress s /\ endAddress s' = endAddress s /\
    (forall c z, (c, z) ∈ blocks false (startAddress s) t' <->
       (c, z) ∈ blocks false (startAddress s) t /\ c <> ptr - HEADER_SIZE) /\
    (coalesced t -> coalesced t').
Proof.
  intros Hok Hl (l1 & l2 & El)%list_elem_of_split Hsz.
  destruct (blocks_split _ _ _ _ _ _ _ El) as (t1 & t2 & -> & _ & Ec).
  destruct (free_tiles mm stale s t1 sz t2 Hok Hl Hsz) as (s' & E & Hok' & Hl' & Sa & Ea).
  replace (startAddress s + extent t1 + HEADER_SIZE) with ptr in E by lia.
  destruct (merged_around (startAddress s) t1 sz t2 (ok_sizes _ _ Hok)) as (Hin & Hle & Hge).
  exists s', (release_tile t1 sz t2), (merged_at (startAddress s) t1 sz t2), (merged_size t1 sz t2).
  split_and!; try done; [lia|unfold HEADER_SIZE in *; lia| |apply release_coalesced].
  pose proof (ok_sizes _ _ Hok) as [Hs1 [_ Hs2]%sizes_cons]%sizes_app.
  intros c z. rewrite release_used, blocks_app. cbn. rewrite Ec, !elem_of_app, elem_of_cons. split.
  - intros [H|H]; (split; [tauto|]); apply blocks_range in H as (? & ? & ?); try done; unfold HEADER_SIZE in *; lia.
  - intros [[H|[[= -> ->]|H]] Hne]; [tauto|done|tauto].
Qed.

Lemma carve_release c t1 sz t2 a size :
  let n := taken_size (c + sz - a) size in
  coalesced (t1 ++ (true, sz) :: t2) ->
  release_tile (t1 ++ (if a =? c then [] else [(true, a - (c + HEADER_SIZE))])) n (rest (c + sz - a) size ++ t2) =
  t1 ++ (true, sz) :: t2.
Proof.
  intros n (_ & (_ & H2)%coalesced_cons & H1)%coalesced_app. unfold release_tile.
  assert (Er : merge_right n (rest (c + sz - a) size ++ t2) = (c + sz - a, t2)).
  { unfold n, rest, taken_size. destruct (_ >=? _); cbn [app merge_right].
    - f_equal. lia.
    - destruct t2 as [|[[|] y] t2]; try done. exfalso. by apply H2. }
  rewrite Er. unfold merge_left. destruct (Z.eqb_spec a c) as [->|Hne].
  - rewrite app_nil_r. replace (c + sz - c) with sz by lia. unfold ends_free in H1.
    destruct (last t1) as [[[|] x]|]; [|done..]. exfalso. by apply H1.
  - rewrite last_snoc, removelast_last. do 3 f_equal. lia.
Qed.

(** Freeing what was just allocated restores the row of blocks and the free
    memory, when no page with a header of another block is unmapped. *)
Theorem allocate_free_roundtrip mm stale s t size alignment ptr s1 :
  heap_ok s t -> coalesced t -> isLocked s = false -> alignment_ok alignment -> endAddress s + 1 + 16 + alignment <= 2 ^ 32 ->
  0 < size <= 2 ^ 32 - 4 -> allocateMemory size alignment s = Ok (ptr, s1) ->
  mm && unmapFreedMemory s1 = false \/ (forall c z, (c, z) ∈ blocks true (startAddress s) t -> (c + HEADER_SIZE + z) mod PAGESIZE < PAGESIZE - HEADER_SIZE) ->
  exists s2, freeMemory mm stale ptr s1 = Ok s2 /\ heap_ok s2 t /\ getFreeMemory s2 = getFreeMemory s.
Proof.
  intros Hok Hco Hl Hal Hmax Hsz Hall Hkept.
  destruct (Spinlock.Spinlock.acquire_released 1 (lock s)) as (l & El & _); [lia|done|].
  unfold allocateMemory in Hall. rewrite El in Hall. cbn [mbind outcome_bind] in Hall.
  destruct (alloc_tiles (with_lock l s) t size alignment (heap_ok_lock l s t Hok) Hal Hmax Hsz)
    as [[_ E]|(t1 & sz & t2 & a & s' & -> & _ & HA & E & Hok' & Hsame)];
    change (firstChunk (with_lock l s)) with (firstChunk s) in E; rewrite E in Hall; cbn [mbind outcome_bind] in Hall.
  { destruct (Z.gtb_spec size 0); [done|lia]. }
  destruct ((size >? 0) && (a + HEADER_SIZE =? 0)); [done|]. destruct (_ && _); [done|]. injection Hall as <- <-.
  cbn [startAddress with_lock] in *. set (c := startAddress s + extent t1) in *.
  destruct (next_aligned_spec 4 size eq_refl) as [_ Hn]. destruct (fit_at_bounds _ _ _ _ _ HA Hal) as [Hb _].
  set (pre := if a =? c then [] else [(true, a - (c + HEADER_SIZE))]).
  assert (Ea : startAddress s' + extent (t1 ++ pre) = a).
  { rewrite (proj1 Hsame), extent_app. unfold pre. cbn [startAddress with_lock]. fold c.
    destruct (Z.eqb_spec a c); cbn; unfold c in *; lia. }
  assert (Et : t1 ++ carve c sz a (next_aligned 4 size) ++ t2 = (t1 ++ pre) ++
    (false, taken_size (c + sz - a) (next_aligned 4 size)) :: rest (c + sz - a) (next_aligned 4 size) ++ t2).
  { unfold carve. fold pre. by rewrite <- !app_assoc. }
  rewrite Et in Hok'. destruct (free_tiles mm stale (with_lock (Spinlock.Spinlock.release (lock s')) s') _ _ _
    (heap_ok_lock _ _ _ Hok')) as (s2 & E2 & Hok2 & _ & Hsa & _); [done| |].
  { destruct (carve_used c sz a (next_aligned 4 size)) as (_ & Ct & _); unfold HEADER_SIZE, MIN_BLOCK_SIZE in *; lia. }
  cbn [startAddress with_lock] in E2, Hsa. rewrite Ea in E2.
  destruct (merged_around (startAddress s') _ _ _ (ok_sizes _ _ Hok')) as (Hin & _ & _). cbn [startAddress with_lock] in Hok2.
  unfold pre in Hok2, Hin. rewrite carve_release in Hok2, Hin by done.
  assert (Hok3 : heap_ok s2 (t1 ++ (true, sz) :: t2)).
  { destruct Hkept as [Hk|Hk]; [cbn [unmapFreedMemory with_lock] in Hk, Hok2; by rewrite Hk in Hok2|]. rewrite (proj1 Hsame) in Hin. specialize (Hk _ _ Hin).
    destruct (_ && _); [|done]. destruct Hok2 as [?|(_ & _ & Hx & _)]; [done|]. rewrite (proj1 Hsame) in Hx. cbn [startAddress with_lock] in Hx, Hk. lia. }
  exists s2. split_and!; [done|done|]. clear Hok2. rename Hok3 into Hok2. rewrite (free_memory_ok _ _ Hok2), (free_memory_ok _ _ Hok). done.
Qed.

(** ** Instances *)

Definition fresh : FreeListMemoryManager := mkHeap 0 0 Spinlock.Spinlock.Spinlock_new 0 true ∅ [].

Definition small_heap : outcome FreeListMemoryManager := initialize 0x1000 0x10ff fresh.

Lemma small_heap_ok : exists s, small_heap = Ok s /\ heap_ok s [(true, 0xf4)] /\ lock s = lock fresh /\
  startAddress s = 0x1000 /\ endAddress s = 0x10ff.
Proof. apply (initialize_ok fresh 0x1000 0x10ff); lia. Qed.


(** A heap with a used block of 16 bytes in front of a free one. *)
Definition used_heap : FreeListMemoryManager :=
  mkHeap 0x1000 0x10ff Spinlock.Spinlock.Spinlock_new 0x101c true
    (<[0x1000 := mkHeader 0 0 16]> (<[0x101c := mkHeader 0 0 0xd8]> ∅)) [].

Lemma used_heap_ok : heap_ok used_heap [(false, 16); (true, 0xd8)].
Proof.
  constructor; cbn.
  - exists 0x101c. cbn. split; [done|]. split; [done|]. by exists 0.
  - intros c sz [= -> ->]%list_elem_of_singleton. done.
  - repeat (apply sizes_cons; split; [lia|]). by constructor.
  - done.
  - lia.
Qed.

Lemma freeMemory_spec_witness : exists s' t', freeMemory true (fun a => mkHeader a a a) 0x100c used_heap = Ok s' /\ heap_ok s' t' /\ coalesced t' /\
  forall c z, (c, z) ∉ blocks false 0x1000 t'.
Proof.
  destruct (freeMemory_spec true (fun a => mkHeader a a a) used_heap [(false, 16); (true, 0xd8)] 0x100c 16)
    as (s' & t' & c0 & z0 & E & Hin & _ & _ & Hk & _ & Hs & He & Hu & Hc).
  - apply used_heap_ok.
  - done.
  - left.
  - lia.
  - assert (Hok : heap_ok s' t').
    { destruct Hk as [?|(Hz & _ & _ & h & Hk)]; [done|]. apply blocks_range in Hin as (_ & ? & ?); [|apply Hk]. pose proof (ok_extent _ _ Hk) as Hx.
      cbn [startAddress endAddress store with_headers] in Hx. rewrite Hs, He in Hx. change PAGESIZE with 4096 in Hz. unfold HEADER_SIZE in *. cbn in *. lia. }
    exists s', t'. split_and!; [done|done|apply Hc; cbn; split; [done|by split]|]. intros c z [H Hne]%Hu.
    apply list_elem_of_singleton in H as [= -> ->]. by apply Hne.
Defined.

(** Two used blocks; the data of the first one starts with a page, and the header of the second one ends with one. Freeing
    the first block unmaps the page with that header: the block reads as whatever the next frame holds. *)
Definition two_blocks : FreeListMemoryManager :=
  mkHeap 0x1ff4 0x400f Spinlock.Spinlock.Spinlock_new 0 true (<[0x1ff4 := mkHeader 0 0 8180]> (<[0x3ff4 := mkHeader 0 0 16]> ∅)) [].

Lemma two_blocks_ok : heap_ok two_blocks [(false, 8180); (false, 16)].
Proof.
  constructor; cbn.
  - by exists 0.
  - intros c sz [[= -> ->]|[= -> ->]%list_elem_of_singleton]%elem_of_cons; done.
  - repeat (apply sizes_cons; split; [lia|]). by constructor.
  - done.
  - lia.
Qed.

Definition result_of (o : outcome FreeListMemoryManager) : FreeListMemoryManager := match o with Ok s => s | _ => fresh end.

Lemma free_unmaps_header : let stale := fun a => mkHeader a a a in let s' := result_of (freeMemory true stale 0x2000 two_blocks) in
  freeMemory true stale 0x2000 two_blocks = Ok s' /\ unmapCalls s' = [(0x2000, 2)] /\ headers s' !! 0x3ff4 = Some (stale 0x3ff4).
Proof. by vm_compute. Qed.

(** With an empty page in its place, the second block is given back with no bytes: 16 bytes are lost for ever. *)
Lemma free_loses_memory : let free := freeMemory true (fun _ => mkHeader 0 0 0) in
  getFreeMemory (result_of (free 0x4000 (result_of (free 0x2000 two_blocks)))) = Ok (8180 + 12).
Proof. by vm_compute. Qed.

Lemma allocate_free_roundtrip_witness : exists ptr s1 s2, allocateMemory 100 64 used_heap = Ok (ptr, s1) /\
  freeMemory false (fun _ => mkHeader 0 0 0) ptr s1 = Ok s2 /\ heap_ok s2 [(false, 16); (true, 0xd8)] /\ getFreeMemory s2 = Ok 0xd8.
Proof.
  destruct (allocateMemory 100 64 used_heap) as [[ptr s1]| | |] eqn:E; try (vm_compute in E; done).
  destruct (allocate_free_roundtrip false (fun _ => mkHeader 0 0 0) used_heap [(false, 16); (true, 0xd8)] 100 64 ptr s1) as (s2 & E2 & Hok & Hf).
  - apply used_heap_ok.
  - cbn. split; [done|]. by split.
  - done.
  - right. by exists 6.
  - cbn. lia.
  - lia.
  - exact E.
  - by left.
  - exists ptr, s1, s2. split_and!; [done|done|done|]. rewrite Hf. vm_compute. reflexivity.
Defined.

(** A request for more than 2^32 - 4 bytes is rounded up to 0 and gets a
    block of no bytes instead of OUT_OF_MEMORY. *)
Theorem allocateMemory_overflow s t1 sz t2 size :
  heap_ok s (t1 ++ (true, sz) :: t2) -> blocks true (startAddress s) t1 = [] -> isLocked s = false ->
  MIN_BLOCK_SIZE + HEADER_SIZE <= sz -> 2 ^ 32 - 4 < size < 2 ^ 32 ->
  exists s', allocateMemory size 0 s = Ok (startAddress s + extent t1 + HEADER_SIZE, s') /\
    heap_ok s' (t1 ++ (false, 0) :: (true, sz - HEADER_SIZE) :: t2).
Proof.
  unfold MIN_BLOCK_SIZE, HEADER_SIZE. intros Hok Hb Hl Hsz Hsize.
  destruct (Spinlock.Spinlock.acquire_released 1 (lock s)) as (l & El & _); [lia|done|].
  destruct (block_bounds _ _ _ _ _ Hok) as (B1 & B2 & B3 & B4). unfold HEADER_SIZE in *.
  destruct (take_tiles (with_lock l s) t1 sz t2 0 (heap_ok_lock l s _ Hok)) as (s' & E & Hok' & Sa & Ea & _); [lia|].
  destruct (free_middle _ _ _ _ (heap_ok_lock l s _ Hok)) as (q1 & n2 & q & S1 & Hh & _ & H0).
  cbn [startAddress endAddress with_lock] in *. rewrite Hb in S1. destruct S1 as [-> Hf].
  pose proof (ok_sizes _ _ Hok) as [H1%extent_nonneg _]%sizes_app.
  assert (Hfuel : exists n, chunk_fuel (with_lock l s) = S n).
  { pose proof (chain_fuel _ _ (ok_free _ _ Hok) (blocks_nodup true _ _ (ok_sizes _ _ Hok))) as Hle.
    rewrite blocks_app, length_app in Hle. cbn in Hle. change (chunk_fuel (with_lock l s)) with (chunk_fuel s).
    destruct (chunk_fuel s); [lia|by eexists]. }
  destruct Hfuel as [n Hn]. unfold taken_size, rest, MIN_BLOCK_SIZE, HEADER_SIZE in Hok'.
  destruct (sz - 0 >=? 4 + 12) eqn:Ez; [|rewrite Z.geb_leb in Ez; apply Z.leb_gt in Ez; lia].
  replace (sz - 0 - 12) with (sz - 12) in Hok' by lia.
  exists (with_lock (Spinlock.Spinlock.release (lock s')) s'). split; [|by apply heap_ok_lock].
  unfold allocateMemory, allocAlgorithm. rewrite El. mcbn. rewrite Hn.
  change (firstChunk (with_lock l s)) with (firstChunk s) in *. destruct (Z.eqb_spec size 0); [lia|]. cbv zeta.
  destruct (Z.eqb_spec (firstChunk s) 0); [done|].
  replace (alignUp size 4) with 0.
  2:{ unfold Address.alignUp, Address.set. cbn [Z.eqb]. cbv zeta. replace (u32 (4 - 1)) with 3 by done. replace (u32 (Z.lnot 3)) with (2 ^ 32 - 2 ^ 2) by done.
      unfold u32. replace (size + 3) with (size + 3 - 2 ^ 32 + 1 * 2 ^ 32) by lia. unfold wrap. rewrite Z.mod_add, Z.mod_small by lia.
      rewrite land_align by (unfold in_u; lia). rewrite Z.div_small by lia. done. }
  cbn [search]. destruct (Z.eqb_spec (firstChunk s) 0); [done|]. unfold visit. rewrite Hf, Hh. mcbn. cbn [hsize].
  destruct (sz >=? 0) eqn:Eg; [|rewrite Z.geb_leb in Eg; apply Z.leb_gt in Eg; lia]. cbn [Address.alignUp Address.set Z.eqb]. rewrite Z.eqb_refl. mcbn.
  destruct (Z.eqb_spec (startAddress s + extent t1) 0); [lia|]. mcbn.
  destruct (Z.eqb_spec (startAddress s + extent t1) 0); [lia|]. rewrite E. mcbn. cbn [startAddress endAddress with_lock].
  unfold HEADER_SIZE. replace (u32 (startAddress s + extent t1 + 12)) with (startAddress s + extent t1 + 12) by (unwrap; lia).
  rewrite Sa, Ea. destruct (Z.eqb_spec (startAddress s + extent t1 + 12) 0); [lia|]. rewrite andb_false_r.
  destruct (Z.ltb_spec (startAddress s + extent t1 + 12) (startAddress s)); [lia|].
  destruct (Z.gtb_spec (startAddress s + extent t1 + 12) (endAddress s)); [lia|]. by rewrite andb_false_r.
Qed.

Lemma allocateMemory_overflow_witness : exists s s', small_heap = Ok s /\ allocateMemory 0xfffffffe 0 s = Ok (0x100c, s') /\
  heap_ok s' [(false, 0); (true, 0xe8)].
Proof.
  destruct small_heap_ok as (s & E & Hok & Hl & Hs & He). exists s.
  destruct (allocateMemory_overflow s [] 0xf4 [] 0xfffffffe) as (s' & Ha & Hok').
  - done.
  - done.
  - unfold isLocked. by rewrite Hl.
  - unfold MIN_BLOCK_SIZE, HEADER_SIZE. lia.
  - lia.
  - exists s'. rewrite Hs in Ha. by split_and!.
Defined.

(** ** Shrinking a block of a heap without free blocks *)

(** Shrinking a block of a heap without free blocks follows the link fields
    of a header that was laid over user data. *)
Theorem reallocate_reads_user_data mm stale s sz size :
  heap_ok s [(false, sz)] -> isLocked s = false -> 0 < size -> MIN_BLOCK_SIZE + HEADER_SIZE < sz - size ->
  let ptr := startAddress s + HEADER_SIZE in
  let link := prev (stale (ptr + size)) in
  headers s !! link = None -> link <> 0 -> link <> ptr + size -> next (stale (ptr + size)) <> ptr + sz ->
  reallocateMemory mm stale ptr size 0 s = Fault.
Proof.
  intros Hok Hl Hsize Hsz ptr link Hlink Hl0 Hln Hnx. unfold MIN_BLOCK_SIZE, HEADER_SIZE in Hsz.
  destruct (Spinlock.Spinlock.acquire_released 1 (lock s)) as (l & El & _); [lia|done|].
  pose proof (ok_extent _ _ Hok) as He. destruct (ok_range _ _ Hok) as [R1 R2]. cbn in He. unfold HEADER_SIZE in He.
  assert (Hf : firstChunk s = 0) by (destruct (ok_free _ _ Hok) as [q Hq]; cbn in Hq; by destruct Hq).
  assert (Hh : header (startAddress s) s = Ok (mkHeader 0 0 sz)).
  { unfold header. rewrite (ok_used _ _ Hok (startAddress s) sz); [done|]. cbn. left. }
  unfold reallocateMemory. destruct (Z.eqb_spec size 0); [lia|]. unfold ptr, HEADER_SIZE, MIN_BLOCK_SIZE in *.
  replace (u32 (startAddress s + 12 - 12)) with (startAddress s) by (unwrap; lia). rewrite Hh. mcbn. cbn [hsize]. cbv zeta.
  destruct (Z.eqb_spec sz size); [lia|]. destruct (Z.ltb_spec size sz); [|lia]. cbn [aligned_ptr Z.eqb orb].
  replace (u32 (sz - size)) with (sz - size) by (unwrap; lia). destruct (Z.gtb_spec (sz - size) (4 + 12)); [|lia].
  replace (u32 (startAddress s + 12 + size)) with (startAddress s + 12 + size) by (unwrap; lia).
  set (nh := startAddress s + 12 + size) in *. set (s1 := store nh _ s).
  assert (L1 : headers s1 !! nh = Some (mkHeader link (next (stale nh)) (sz - size - 12))).
  { unfold s1. rewrite lookup_store, decide_True by done. do 2 f_equal. unwrap. lia. }
  assert (L2 : headers s1 !! link = None) by (unfold s1; by rewrite lookup_store, decide_False).
  unfold freeMemory. change (lock s1) with (lock s). rewrite El. mcbn. unfold freeAlgorithm.
  cbn [startAddress endAddress with_lock firstChunk headers].
  change (startAddress s1) with (startAddress s). change (endAddress s1) with (endAddress s).
  replace (u32 (nh + 12)) with (nh + 12) by (unfold nh; unwrap; lia).
  destruct (Z.eqb_spec (nh + 12) 0); [lia|]. destruct (Z.ltb_spec (nh + 12) (startAddress s)); [lia|].
  destruct (Z.gtb_spec (nh + 12) (endAddress s)); [unfold nh in *; lia|]. cbn [orb]. cbv zeta. unfold HEADER_SIZE.
  replace (u32 (nh + 12 - 12)) with nh by (unfold nh; unwrap; lia).
  unfold insert_free. cbn [firstChunk with_lock]. change (firstChunk s1) with (firstChunk s). rewrite Hf. cbn [Z.eqb]. mcbn.
  unfold merge. cbn [firstChunk with_first with_lock]. destruct (Z.eqb_spec nh 0); [unfold nh in *; lia|].
  unfold header. cbn [headers with_first with_lock]. rewrite L1. cbn [of_option]. mcbn. cbn [next hsize prev]. unfold HEADER_SIZE.
  set (nx := next (stale nh)) in *.
  assert (E : negb (nx =? 0) && (u32 (u32 (nh + 12) + (sz - size - 12)) =? nx) = false).
  { unfold u32. rewrite wrap_add_l. replace (nh + 12 + (sz - size - 12)) with (startAddress s + 12 + sz) by (unfold nh; lia).
    destruct (Z.eqb_spec nx 0); [done|]. destruct (decide (startAddress s + 12 + sz = 2 ^ 32)) as [->|].
    - by destruct (Z.eqb_spec (wrap 32 (2 ^ 32)) nx).
    - rewrite wrap_small by (unfold in_u; lia). by destruct (Z.eqb_spec (startAddress s + 12 + sz) nx). }
  rewrite E. mcbn. cbn [headers with_first with_lock]. rewrite L1. cbn [of_option]. mcbn. cbn [prev].
  destruct (Z.eqb_spec link 0); [done|]. cbn [headers with_first with_lock]. by rewrite L2.
Qed.

(** A heap with one used block that fills it. *)
Definition full_heap : FreeListMemoryManager :=
  mkHeap 0x1000 0x10ff Spinlock.Spinlock.Spinlock_new 0 true (<[0x1000 := mkHeader 0 0 0xf4]> ∅) [].

Lemma reallocate_reads_user_data_witness :
  reallocateMemory true (fun _ => mkHeader 0x41414141 0x41414141 0x41414141) 0x100c 16 0 full_heap = Fault.
Proof.
  apply (reallocate_reads_user_data true _ full_heap 0xf4 16).
  - constructor; cbn.
    + exists 0. by cbn.
    + intros c sz [= -> ->]%list_elem_of_singleton. done.
    + apply sizes_cons. split; [lia|by constructor].
    + done.
    + lia.
  - done.
  - lia.
  - unfold MIN_BLOCK_SIZE, HEADER_SIZE. lia.
  - done.
  - done.
  - done.
  - done.
Defined.
