(* ===== verification/MemoryService.v ===== *)
(** * MemoryService.v: mapping pages to frames

    [kernel/service/MemoryService]: the service that owns the page frame allocator, the
    slab allocator, the paging area manager, the address spaces and their heaps. The
    page frame allocator and the address spaces take blocks from one paging area
    manager; the state has it once, in [spaces]. *)

From S2P Require Import Array ArrayList Address Atomic AtomicBitmap BitmapMemoryManager Pool PagingAreaManager SlabAllocator.
From S2P Require Import FreeListMemoryManager TableMemoryManager PageFrameAllocator VirtualAddressSpace Prelude Bits.

(** [Device::Bios::MAX_USABLE_ADDRESS] *)
Definition MAX_USABLE_ADDRESS : Z := 0xfffff.

Module MemoryService.
Import Paging VirtualAddressSpace.

Notation TMM := TableMemoryManager.
Notation PAGESIZE := PagingAreaManager.PAGESIZE.

Section MemoryService.
Context {P : Type} {HP : PageTableSupply P}.
(** The end of the kernel image, whether the memory management is initialised and what
    the user's data reads as when the heap lays a header over it. *)
Context (KERNEL_DATA_END : Z) (mmInitialized : bool) (stale : Z -> FreeListHeader).

(** [heaps] has the memory manager of every address space. The slab allocator is
    constructed last. *)
Record MemoryService := mkService {
  slabAllocatorEnabled : bool;
  pageFrameAllocator : TMM (M := P);
  pageFrameSlabAllocator : option SlabAllocator;
  spaces : Spaces (P := P);
  kernelAddressSpace : Z;
  heaps : gmap Z FreeListMemoryManager;
  memory : Memory
}.

(** ** Parts of the state *)

(** The page frame allocator with the manager it refers to. *)
Definition frames (s : MemoryService) : TMM :=
  with_tables (pagingAreaManager (spaces s)) (referenceTableArray (pageFrameAllocator s))
    (TableMemoryManager.tables (pageFrameAllocator s)) (pageFrameAllocator s).

Definition with_frames (f : TMM) (s : MemoryService) : MemoryService :=
  mkService (slabAllocatorEnabled s) f (pageFrameSlabAllocator s) (with_supply (bitmapMemoryManager f) (spaces s))
    (kernelAddressSpace s) (heaps s) (memory s).

Definition with_address_spaces (sp : Spaces) (s : MemoryService) : MemoryService :=
  mkService (slabAllocatorEnabled s) (pageFrameAllocator s) (pageFrameSlabAllocator s) sp (kernelAddressSpace s) (heaps s) (memory s).

Definition with_slab (a : SlabAllocator) (m : Memory) (s : MemoryService) : MemoryService :=
  mkService (slabAllocatorEnabled s) (pageFrameAllocator s) (Some a) (spaces s) (kernelAddressSpace s) (heaps s) m.

Definition with_heap (q : Z) (h : FreeListMemoryManager) (s : MemoryService) : MemoryService :=
  mkService (slabAllocatorEnabled s) (pageFrameAllocator s) (pageFrameSlabAllocator s) (spaces s) (kernelAddressSpace s)
    (<[q := h]> (heaps s)) (memory s).

Definition current (s : MemoryService) : Z := currentAddressSpace (spaces s).

Definition getKernelAddressSpace (s : MemoryService) : Z := kernelAddressSpace s.
Definition getCurrentAddressSpace (s : MemoryService) : Z := current s.

Definition enableSlabAllocator (s : MemoryService) : MemoryService :=
  mkService true (pageFrameAllocator s) (pageFrameSlabAllocator s) (spaces s) (kernelAddressSpace s) (heaps s) (memory s).

(** [currentAddressSpace->unmap]; every page table in use gives one round at most. *)
Definition unmap_page (virtualAddress : Z) (s : MemoryService) : outcome (Z * MemoryService) :=
  '(physicalAddress, sp) ← VirtualAddressSpace.unmap (S (size (tables_used (spaces s)))) (current s) virtualAddress (spaces s);
  Ok (physicalAddress, with_address_spaces sp s).

(** [currentAddressSpace->map] *)
Definition map_page (physicalAddress virtualAddress fl : Z) (s : MemoryService) : outcome MemoryService :=
  sp ← VirtualAddressSpace.map (current s) physicalAddress virtualAddress (u16 fl) (spaces s);
  Ok (with_address_spaces sp s).

(** [virtualAddress + i * Util::PAGESIZE] *)
Definition page (address i : Z) : Z := u32 (address + u32 (i * PAGESIZE)).

(** ** Physical memory *)

Definition free_in_slab (pointer : Z) (s : MemoryService) : outcome (bool * MemoryService) :=
  if slabAllocatorEnabled s then
    slabs ← of_option (pageFrameSlabAllocator s);
    '(done, slabs) ← SlabAllocator.freeBlock pointer slabs;
    Ok (done, with_slab slabs (memory s) s)
  else Ok (false, s).

Definition freePhysicalMemory (pointer frameCount : Z) (s : MemoryService) : outcome MemoryService :=
  '(done, s) ← free_in_slab pointer s;
  if done : bool then Ok s
  else for_up (Z.to_nat frameCount) 0 (fun i s => f ← TableMemoryManager.freeBlock (page pointer i) (frames s); Ok (with_frames f s)) s.

Definition allocate_after (address : Z) (s : MemoryService) : outcome (Z * MemoryService) :=
  '(a, f) ← allocateBlockAfterAddress address (frames s);
  Ok (a, with_frames f s).

(** The [for] loop: [n] more frames, the first of them the [i]-th of the block. The result
    is the frame that does not follow on the one before it, if there is one. *)
Fixpoint contiguous_frames (n : nat) (i physicalStartAddress currentPhysicalAddress : Z) (s : MemoryService) : outcome (option Z * MemoryService) :=
  match n with
  | O => Ok (None, s)
  | S n =>
    let lastPhysicalAddress := currentPhysicalAddress in
    '(currentPhysicalAddress, s) ← allocate_after physicalStartAddress s;
    if negb (u32 (currentPhysicalAddress - lastPhysicalAddress) =? PAGESIZE) then
      s ← freePhysicalMemory physicalStartAddress i s;
      Ok (Some currentPhysicalAddress, s)
    else contiguous_frames n (i + 1) physicalStartAddress currentPhysicalAddress s
  end.

(** The [do] loop. *)
Fixpoint search_frames (fuel : nat) (frameCount physicalStartAddress : Z) (s : MemoryService) : outcome (Z * MemoryService) :=
  match fuel with
  | O => Loops
  | S fuel =>
    '(r, s) ← contiguous_frames (Z.to_nat (frameCount - 1)) 1 physicalStartAddress physicalStartAddress s;
    match r with
    | Some next => search_frames fuel frameCount next s
    | None => Ok (physicalStartAddress, s)
    end
  end.

(** The search visits a frame at most once. *)
Definition frame_fuel (s : MemoryService) : nat :=
  let f := pageFrameAllocator s in S (S (Z.to_nat (TableMemoryManager.endAddress f / TableMemoryManager.blockSize f))).

Definition allocate_in_slab (frameCount : Z) (s : MemoryService) : outcome (Z * MemoryService) :=
  if slabAllocatorEnabled s then
    slabs ← of_option (pageFrameSlabAllocator s);
    '(physicalStartAddress, slabs, m) ← SlabAllocator.allocateBlock frameCount slabs (memory s);
    Ok (physicalStartAddress, with_slab slabs m s)
  else Ok (0, s).

Definition allocatePhysicalMemory (frameCount startAddress : Z) (s : MemoryService) : outcome (Z * MemoryService) :=
  '(physicalStartAddress, s) ← allocate_in_slab frameCount s;
  if negb (physicalStartAddress =? 0) then Ok (physicalStartAddress, s)
  else
    '(physicalStartAddress, s) ← allocate_after startAddress s;
    search_frames (frame_fuel s) frameCount physicalStartAddress s.

(** ** Mapping *)

Definition map (virtualAddress pageCount fl : Z) (s : MemoryService) : outcome MemoryService :=
  for_up (Z.to_nat pageCount) 0 (fun i s =>
    '(physicalAddress, f) ← PageFrameAllocator_allocateBlock KERNEL_DATA_END (frames s);
    map_page physicalAddress (page virtualAddress i) fl (with_frames f s)) s.

Fixpoint unmap_pages (n : nat) (i virtualAddress breakCount nonMappedCount physicalAddress : Z) (s : MemoryService) : outcome (Z * MemoryService) :=
  match n with
  | O => Ok (physicalAddress, s)
  | S n =>
    let currentVirtualAddress := page virtualAddress i in
    '(physicalAddress, s) ← unmap_page currentVirtualAddress s;
    '(nonMappedCount, s) ← (
      if physicalAddress =? 0 then Ok (u8 (nonMappedCount + 1), s)
      else s ← freePhysicalMemory physicalAddress 1 s; Ok (0, s));
    if (breakCount >? 0) && (nonMappedCount =? breakCount) then Ok (physicalAddress, s)
    else unmap_pages n (i + 1) virtualAddress breakCount nonMappedCount physicalAddress s
  end.

Definition unmap (virtualAddress pageCount breakCount : Z) (s : MemoryService) : outcome (Z * MemoryService) :=
  let '(virtualAddress, pageCount) :=
    if negb (virtualAddress mod PAGESIZE =? 0) then (Address.alignUp virtualAddress PAGESIZE, u32 (pageCount - 1))
    else (virtualAddress, pageCount) in
  unmap_pages (Z.to_nat pageCount) 0 virtualAddress breakCount 0 0 s.

(** The loop of [mapIO], [allocateBiosMemory] and [allocateIsaMemory]. *)
Definition map_frames (physicalAddress virtualAddress pageCount fl : Z) (s : MemoryService) : outcome MemoryService :=
  for_up (Z.to_nat pageCount) 0 (fun i s =>
    '(_, s) ← unmap (page virtualAddress i) 1 0 s;
    map_page (page physicalAddress i) (page virtualAddress i) fl s) s.

Definition mapPhysical (physicalAddress virtualAddress pageCount fl : Z) (s : MemoryService) : outcome MemoryService :=
  for_up (Z.to_nat pageCount) 0 (fun i s =>
    '(_, s) ← unmap (page virtualAddress i) 1 0 s;
    '(currentPhysicalAddress, f) ← allocateBlockAtAddress (page physicalAddress i) (frames s);
    map_page currentPhysicalAddress (page virtualAddress i) fl (with_frames f s)) s.

Definition getPhysicalAddress (virtualAddress : Z) (s : MemoryService) : outcome Z :=
  VirtualAddressSpace.getPhysicalAddress (current s) virtualAddress (spaces s).

(** [faultAddress] is the content of the register CR2. *)
Definition handlePageFault (faultAddress errorCode : Z) (s : MemoryService) : outcome MemoryService :=
  if faultAddress =? 0 then Throw NULL_POINTER
  else if Z.land errorCode 1 >? 0 then Throw ILLEGAL_PAGE_ACCESS
  else map faultAddress 1 (Z.lor (Z.lor PRESENT WRITABLE) (if faultAddress >=? KERNEL_END then USER_ACCESSIBLE else 0)) s.

(** ** Heaps *)

Definition heap (q : Z) (s : MemoryService) : outcome FreeListMemoryManager := of_option (heaps s !! q).

Definition allocate_in_heap (q size alignment : Z) (s : MemoryService) : outcome (Z * MemoryService) :=
  h ← heap q s;
  '(ret, h) ← allocateMemory size alignment h;
  Ok (ret, with_heap q h s).

(** The calls of [unmap] that the heap has made, the first one first. *)
Fixpoint run_unmaps (calls : list (Z * Z)) (s : MemoryService) : outcome MemoryService :=
  match calls with
  | [] => Ok s
  | (virtualAddress, pageCount) :: calls => '(_, s) ← unmap virtualAddress pageCount 8 s; run_unmaps calls s
  end.

Definition clear_calls (h : FreeListMemoryManager) : FreeListMemoryManager :=
  mkHeap (FreeListMemoryManager.startAddress h) (FreeListMemoryManager.endAddress h) (lock h) (firstChunk h) (unmapFreedMemory h) (headers h) [].

Definition free_in_heap (q pointer : Z) (s : MemoryService) : outcome MemoryService :=
  h ← heap q s;
  h ← freeMemory mmInitialized stale pointer h;
  run_unmaps (rev (unmapCalls h)) (with_heap q (clear_calls h) s).

Definition reallocate_in_heap (q pointer size alignment : Z) (s : MemoryService) : outcome (Z * MemoryService) :=
  h ← heap q s;
  '(ret, h) ← reallocateMemory mmInitialized stale pointer size alignment h;
  s ← run_unmaps (rev (unmapCalls h)) (with_heap q (clear_calls h) s);
  Ok (ret, s).

Definition allocateKernelMemory (size alignment : Z) (s : MemoryService) := allocate_in_heap (kernelAddressSpace s) size alignment s.
Definition reallocateKernelMemory (pointer size alignment : Z) (s : MemoryService) := reallocate_in_heap (kernelAddressSpace s) pointer size alignment s.
Definition freeKernelMemory (pointer : Z) (s : MemoryService) := free_in_heap (kernelAddressSpace s) pointer s.
Definition allocateUserMemory (size alignment : Z) (s : MemoryService) := allocate_in_heap (current s) size alignment s.
Definition reallocateUserMemory (pointer size alignment : Z) (s : MemoryService) := reallocate_in_heap (current s) pointer size alignment s.
Definition freeUserMemory (pointer : Z) (s : MemoryService) := free_in_heap (current s) pointer s.

(** ** Memory for devices *)

Definition mapIO_at (physicalAddress pageCount : Z) (mapToKernelHeap : bool) (s : MemoryService) : outcome (Z * MemoryService) :=
  let manager := if mapToKernelHeap then kernelAddressSpace s else current s in
  '(virtualAddress, s) ← allocate_in_heap manager (u32 (pageCount * PAGESIZE)) PAGESIZE s;
  let fl := Z.lor (Z.lor (Z.lor PRESENT WRITABLE) CACHE_DISABLE) (if virtualAddress >=? KERNEL_END then USER_ACCESSIBLE else 0) in
  s ← map_frames physicalAddress virtualAddress pageCount fl s;
  Ok (virtualAddress, s).

Definition mapIO (pageCount : Z) (mapToKernelHeap : bool) (s : MemoryService) : outcome (Z * MemoryService) :=
  '(physicalAddress, s) ← allocatePhysicalMemory pageCount MAX_DMA_ADDRESS s;
  mapIO_at physicalAddress pageCount mapToKernelHeap s.

Definition allocate_below (limit pageCount fl : Z) (s : MemoryService) : outcome (Z * MemoryService) :=
  '(physicalAddress, s) ← allocatePhysicalMemory pageCount 0 s;
  if physicalAddress >=? limit then
    s ← freePhysicalMemory physicalAddress pageCount s;
    Ok (0, s)
  else
    '(virtualAddress, s) ← allocate_in_heap (kernelAddressSpace s) (u32 (pageCount * PAGESIZE)) PAGESIZE s;
    s ← map_frames physicalAddress virtualAddress pageCount fl s;
    Ok (virtualAddress, s).

Definition allocateBiosMemory (pageCount : Z) (s : MemoryService) : outcome (Z * MemoryService) :=
  allocate_below MAX_USABLE_ADDRESS pageCount (Z.lor PRESENT WRITABLE) s.

Definition allocateIsaMemory (pageCount : Z) (s : MemoryService) : outcome (Z * MemoryService) :=
  allocate_below MAX_DMA_ADDRESS pageCount (Z.lor (Z.lor PRESENT WRITABLE) CACHE_DISABLE) s.

(** ** Construction and system calls *)

Definition MemoryService_new (f : TMM) (kernel : Z) (sp : Spaces) (hs : gmap Z FreeListMemoryManager) (mem : Memory) : outcome MemoryService :=
  let s := mkService false f None sp kernel hs mem in
  '(slabMemory, s) ← allocatePhysicalMemory (MAX_SLAB_SIZE / PAGESIZE) MAX_DMA_ADDRESS s;
  slabs ← SlabAllocator_new slabMemory;
  let s := with_slab slabs (memory s) s in
  '(_, l) ← ArrayList.add 0 kernel (addressSpaces (spaces s));
  let sp := spaces s in
  Ok (with_address_spaces (mkSpaces (VirtualAddressSpace.spaces sp) l (currentAddressSpace sp) (tables sp) (pagingAreaManager sp)) s).

Definition syscall_unmap (paramCount virtualAddress pageCount breakCount : Z) (s : MemoryService) : outcome (bool * MemoryService) :=
  if paramCount <? 2 then Ok (false, s)
  else if virtualAddress <? KERNEL_END then Ok (false, s)
  else
    '(physicalAddress, s) ← unmap virtualAddress pageCount breakCount s;
    Ok (negb (physicalAddress =? 0), s).

(** The mapped address is stored where the last argument points. *)
Definition syscall_mapIO (paramCount physicalAddress pageCount : Z) (s : MemoryService) : outcome (bool * option Z * MemoryService) :=
  if paramCount <? 3 then Ok (false, None, s)
  else
    '(mappedAddress, s) ← mapIO_at physicalAddress pageCount false s;
    Ok (true, Some mappedAddress, s).

End MemoryService.

(** * Behaviour *)

Section spec.
Context {P : Type} {HP : PageTableSupply P} (KERNEL_DATA_END : Z).
#[local] Notation MemoryService := (MemoryService (P := P)).
#[local] Notation map := (map KERNEL_DATA_END).
#[local] Notation handlePageFault := (handlePageFault KERNEL_DATA_END).

(** ** The invariant *)

Definition last_frame (s : MemoryService) : Z := TableMemoryManager.endAddress (pageFrameAllocator s) / 4096.

(** The entry of frame [n]: twice the use count, plus one when it is reserved. *)
Definition uses (s : MemoryService) (n : Z) : Z := entry (frames s) n.

(** The blocks of the paging area that can be had for page tables when every allocation
    table that is still missing gets one. *)
Definition slack (s : MemoryService) : Z := Z.of_nat (pts_available (pagingAreaManager (spaces s))) - Z.of_nat (todo (frames s)).

Definition translation (s : MemoryService) : Z -> Z -> option Entry := translate (spaces s).

Record service_ok (s : MemoryService) : Prop := {
  so_spaces : spaces_ok (spaces s);
  so_area : pts_end (pagingAreaManager (spaces s)) <= KERNEL_END;
  so_current : is_Some (VirtualAddressSpace.spaces (spaces s) !! current s);
  so_frames : TableMemoryManager.wf (frames s);
  so_unlocked : unlocked (frames s);
  so_start : TableMemoryManager.startAddress (pageFrameAllocator s) = 0;
  so_block : TableMemoryManager.blockSize (pageFrameAllocator s) = 4096;
  so_reserved : uses s 0 <> 0;
  so_disjoint j : 0 <= j < referenceTableEntriesPerBlock (pageFrameAllocator s) ->
    ReferenceTableEntry.getAddress (ref (frames s) j) <> 0 -> ~ table_address (spaces s) (ReferenceTableEntry.getAddress (ref (frames s) j))
}.

(** What no operation on pages and frames changes. *)
Record keeps (s s' : MemoryService) : Prop := {
  ke_frames : same (frames s) (frames s');
  ke_current : current s' = current s;
  ke_dom q : is_Some (VirtualAddressSpace.spaces (spaces s') !! q) <-> is_Some (VirtualAddressSpace.spaces (spaces s) !! q);
  ke_enabled : slabAllocatorEnabled s' = slabAllocatorEnabled s;
  ke_slabs : pageFrameSlabAllocator s' = pageFrameSlabAllocator s;
  ke_kernel : kernelAddressSpace s' = kernelAddressSpace s;
  ke_heaps : heaps s' = heaps s
}.

Lemma keeps_refl s : keeps s s.
Proof. by split. Qed.

Lemma keeps_trans s1 s2 s3 : keeps s1 s2 -> keeps s2 s3 -> keeps s1 s3.
Proof. intros [] []. split; try congruence; [by eapply same_trans|]. intros q. by rewrite ke_dom1. Qed.

Lemma keeps_last s s' : keeps s s' -> last_frame s' = last_frame s.
Proof. intros [(_ & E & _) _ _ _ _ _ _]. cbn in E. unfold last_frame. by rewrite E. Qed.

Lemma service_frames s : service_ok s -> TableMemoryManager.endAddress (frames s) / TableMemoryManager.blockSize (frames s) = last_frame s.
Proof. intros [_ _ _ _ _ _ B _ _]. unfold last_frame. by rewrite <- B. Qed.

Lemma frames_with_frames f (s : MemoryService) : frames (with_frames f s) = f.
Proof. by destruct f. Qed.

Lemma service_tables_in_kernel s : service_ok s -> tables_in_kernel (spaces s).
Proof. intros [Hs Ha _ _ _ _ _ _ _] a H. apply pts_owned_range in H; [lia|apply Hs]. Qed.

Lemma service_slack s : service_ok s -> 0 <= slack s.
Proof. intros H. pose proof (wf_budget _ (so_frames s H)) as B. unfold slack. cbn [bitmapMemoryManager frames with_tables] in B. lia. Qed.

(** ** Another state of the shared manager *)

Lemma spaces_ok_supply sp p :
  spaces_ok sp -> pts_ok p -> (forall a, table_address sp a -> a ∈ pts_owned p) -> spaces_ok (with_supply p sp).
Proof.
  intros [H1 H2 H3 H4 H5 H6 H7] Hp Hin. split; try done. intros q i a Ha. destruct (H2 q i a Ha) as [_ ?]. split; [|done]. apply Hin. by exists q, i.
Qed.

Lemma wf_supply (f : TMM) p :
  TableMemoryManager.wf f -> pts_ok p ->
  (forall j, 0 <= j < referenceTableEntriesPerBlock f -> ReferenceTableEntry.getAddress (ref f j) <> 0 -> ReferenceTableEntry.getAddress (ref f j) ∈ pts_owned p) ->
  (todo f <= pts_available p)%nat -> TableMemoryManager.wf (with_tables p (referenceTableArray f) (TableMemoryManager.tables f) f).
Proof. intros [[]] Hp Hin Hb. split; try done. Qed.

Lemma frames_changed s f :
  service_ok s -> TableMemoryManager.wf f -> unlocked f -> same (frames s) f -> grows (frames s) f -> entry f 0 <> 0 ->
  service_ok (with_frames f s) /\ keeps s (with_frames f s) /\ slack (with_frames f s) = slack s.
Proof.
  intros [S1 S2 S3 S4 S5 S6 S7 S8 S9] W U Sm (G1 & G2 & G3 & G4) H0. pose proof Sm as (M1 & M2 & M3 & _ & _ & M6).
  split_and!.
  - split; rewrite ?frames_with_frames; try done.
    + apply spaces_ok_supply; [done|apply W|]. intros a (q & i & Ha). destruct (ok_tables _ S1 _ _ _ Ha) as [Hin _]. by apply G1.
    + cbn. rewrite G3. done.
    + cbn in *. by rewrite M1.
    + cbn in *. by rewrite M3.
    + cbn. intros j Hj Hnz. rewrite M6 in Hj. destruct (G4 j Hj Hnz) as [E|E].
      * rewrite E in *. by apply S9.
      * intros (q & i & Ha). destruct (ok_tables _ S1 _ _ _ Ha) as [Hin _]. done.
  - split; rewrite ?frames_with_frames; done.
  - unfold slack. rewrite frames_with_frames. cbn in *. lia.
Qed.

(** ** One page *)

Lemma spaces_changed s sp :
  service_ok s -> spaces_ok sp ->
  (forall q, is_Some (VirtualAddressSpace.spaces sp !! q) <-> is_Some (VirtualAddressSpace.spaces (spaces s) !! q)) ->
  currentAddressSpace sp = current s -> pts_end (pagingAreaManager sp) = pts_end (pagingAreaManager (spaces s)) ->
  (forall a, a ∈ pts_owned (pagingAreaManager (spaces s)) -> a ∈ pts_owned (pagingAreaManager sp) \/ table_address (spaces s) a) ->
  (forall a, table_address sp a -> table_address (spaces s) a \/ a ∉ pts_owned (pagingAreaManager (spaces s))) ->
  (todo (frames s) <= pts_available (pagingAreaManager sp))%nat ->
  service_ok (with_address_spaces sp s) /\ keeps s (with_address_spaces sp s).
Proof.
  intros [S1 S2 S3 S4 S5 S6 S7 S8 S9] Hok Hdom Hcur Hend Hown Hta Hav. split; [|by split].
  assert (Hin : forall j, 0 <= j < referenceTableEntriesPerBlock (frames s) -> ReferenceTableEntry.getAddress (ref (frames s) j) <> 0 ->
    ReferenceTableEntry.getAddress (ref (frames s) j) ∈ pts_owned (pagingAreaManager sp)).
  { intros j Hj Hnz. destruct (Hown (ReferenceTableEntry.getAddress (ref (frames s) j))) as [?|Hx]; [by apply (wf_mm_used _ S4)|done|by apply S9 in Hx]. }
  split; try done.
  - by rewrite <- Hend in S2.
  - unfold current in *. cbn. rewrite Hcur. by apply Hdom.
  - apply (wf_supply (frames s)); [done|apply Hok|done|done].
  - intros j Hj Hnz Hx. destruct (Hta _ Hx) as [?|Hno]; [by apply (S9 j)|]. by apply Hno, (wf_mm_used _ S4).
Qed.

Lemma wrap12_u16 x : wrap 12 (u16 x) = wrap 12 x.
Proof. unfold u16, wrap. apply Z.mod_mod_divide. exists 16. done. Qed.

Lemma set_u16 a x : set a (u16 x) = set a x.
Proof. unfold set. by rewrite wrap12_u16. Qed.

Lemma map_page_ok s pa va fl :
  service_ok s -> 0 <= va < 2 ^ 32 -> va <> KERNEL_END -> wrap 12 fl <> 0 -> 1 <= slack s ->
  match translation s (current s) va with
  | Some _ => map_page pa va fl s = Throw PAGING_ERROR
  | None => exists s', map_page pa va fl s = Ok s' /\ service_ok s' /\ keeps s s' /\ slack s - 1 <= slack s' /\ (forall n, uses s' n = uses s n) /\
      forall q v, 0 <= v < 2 ^ 32 -> translation s' q v = if decide (sees (spaces s) (current s) va q v) then Some (set pa fl) else translation s q v
  end.
Proof.
  intros Hs Hva Hne Hfl Hsl. pose proof Hs as [S1 S2 S3 S4 S5 S6 S7 S8 S9]. pose proof (service_slack s Hs) as H0. unfold slack in Hsl.
  destruct (pts_allocate_total (pagingAreaManager (spaces s))) as (a & p & Ha); [apply S1|lia|].
  pose proof (map_ok (spaces s) (current s) pa va (u16 fl) S1 S3 Hva Hne) as H. rewrite wrap12_u16 in H. specialize (H Hfl (ex_intro _ a (ex_intro _ p Ha))).
  unfold translation, map_page. destruct (translate (spaces s) (current s) va); [by rewrite H|].
  destruct H as (sp & -> & Hok & [E1 E2 E3 E4 E5] & Htr & _). mcbn. rewrite set_u16 in Htr.
  destruct (pts_allocate_law _ _ _ (ok_supply _ S1) Ha) as (Hp & Hnew & Hown & Hr & Hal & Hav & Hend).
  assert (Hav' : Z.of_nat (pts_available (pagingAreaManager (spaces s))) - 1 <= Z.of_nat (pts_available (pagingAreaManager sp))).
  { destruct E4 as [->|(b & Eb)]; [lia|]. rewrite Ha in Eb. injection Eb as _ ->. lia. }
  destruct (spaces_changed s sp Hs Hok E1 E2) as [Hs' Hk].
  - destruct E4 as [->|(b & Eb)]; [done|]. rewrite Ha in Eb. by injection Eb as _ ->.
  - intros b Hb. left. destruct E4 as [->|(c & Eb)]; [done|]. rewrite Ha in Eb. injection Eb as _ <-. set_solver.
  - intros b (q & j & Hb). destruct (E5 q j b Hb) as [?|Eb]; [left; by exists q, j|]. rewrite Ha in Eb. injection Eb as <- _. by right.
  - lia.
  - eexists. split; [done|]. split_and!; try done. unfold slack. change (todo (frames (with_address_spaces sp s))) with (todo (frames s)). cbn. lia.
Qed.

(** The result of [unmap_page] is the frame the page was mapped to. *)
Lemma unmap_page_ok s va :
  service_ok s -> 0 <= va < 2 ^ 32 -> va <> KERNEL_END ->
  exists r s', unmap_page va s = Ok (r, s') /\ service_ok s' /\ keeps s s' /\ slack s' = slack s /\ (forall n, uses s' n = uses s n) /\
    r = match translation s (current s) va with Some e => getAddress e | None => 0 end /\ translation s' (current s) va = None /\
    forall q v, 0 <= v < 2 ^ 32 -> KERNEL_END <= v -> translation s' q v = if decide (sees (spaces s) (current s) va q v) then None else translation s q v.
Proof.
  intros Hs Hva Hne. pose proof Hs as [S1 S2 S3 S4 S5 S6 S7 S8 S9]. pose proof (service_tables_in_kernel s Hs) as Hker. unfold unmap_page.
  destruct (unmap_total (S (size (tables_used (spaces s)))) (spaces s) (current s) va S1 Hker S3 S3 Hva Hne) as (r & sp & E); [lia|].
  rewrite E. mcbn. apply unmap_inv in E; [|done..]. destruct E as [U1 U2 U3 U4 U5 U6 U7 U8 U9 U10 U11 _].
  destruct (spaces_changed s sp Hs U1 U2 U3 U11 U5) as [Hs' Hk].
  - intros a (q & j & Ha). left. exists q, j. auto.
  - rewrite U10. exact (wf_budget _ S4).
  - eexists _, _. split; [done|]. split_and!; try done.
    + unfold slack. change (todo (frames (with_address_spaces sp s))) with (todo (frames s)). cbn. by rewrite U10.
    + intros q v Hv Hkv. unfold translation. cbn [spaces with_address_spaces]. case_decide as Hsee.
      * destruct Hsee as (Hp & Hq & Hor). destruct (U9 q v Hv) as [Eq|[-> _]]; [|done]. rewrite Eq.
        assert (va < KERNEL_END \/ q = current s) as [Hlt| ->] by tauto.
        { exfalso. assert (v / 4096 <= va / 4096) by lia. change KERNEL_END with (0x8000 * 4096) in *. Z.to_euclidean_division_equations; lia. }
        rewrite <- Eq, (translate_page sp (current s) v va) by done. done.
      * destruct (U9 q v Hv) as [->|[-> [?|(a & (q' & j & Ha) & _ & Hp)]]]; try done. exfalso.
        destruct (ok_tables _ S1 _ _ _ Ha) as [Hin _]. apply Hker in Hin. change KERNEL_END with (0x8000 * 4096) in *. Z.to_euclidean_division_equations; lia.
Qed.

(** ** One frame *)

Lemma service_covered s n : service_ok s -> 0 <= n <= last_frame s -> n / allocationTableEntriesPerBlock (frames s) < referenceTableEntriesPerBlock (frames s).
Proof.
  intros Hs Hn. pose proof (service_frames s Hs) as Hl. destruct (so_frames s Hs) as [[] _ _ _ _ C _ _ _ _ _]. rewrite Hl in C.
  eapply Z.le_lt_trans; [|exact C]. apply Z.div_le_mono; lia.
Qed.

Lemma service_last s : service_ok s -> 0 <= last_frame s < 2 ^ 20.
Proof.
  intros Hs. destruct (so_frames s Hs) as [_ _ _ _ E _ _ _ _ _ _]. unfold in_u in E. cbn in E. unfold last_frame. Z.to_euclidean_division_equations; lia.
Qed.

(** A state of the frame allocator in which the entries of the frames are [g]. *)
Lemma frames_after s f g :
  service_ok s -> after (frames s) f g (locked (frames s)) -> g 0 <> 0 ->
  service_ok (with_frames f s) /\ keeps s (with_frames f s) /\ slack (with_frames f s) = slack s /\
  (forall n, 0 <= n <= last_frame s -> uses (with_frames f s) n = g n) /\ (forall q v, translation (with_frames f s) q v = translation s q v).
Proof.
  intros Hs A H0. pose proof A as [W Sm E L Gr]. pose proof (service_last s Hs) as Hl.
  assert (He : forall n, 0 <= n <= last_frame s -> entry f n = g n) by (intros n Hn; apply E; [lia|by apply service_covered]).
  destruct (frames_changed s f Hs W) as (H1 & H2 & H3); [by eapply after_unlocked; [apply Hs|]|done|done|rewrite He by lia; done|].
  split_and!; done.
Qed.

Definition used_at (n e : Z) (s : MemoryService) (m : Z) : Z := if decide (m = n) then e else uses s m.

Lemma frame_address s n : service_ok s -> 0 <= n <= last_frame s -> 0 <= n * 4096 <= TableMemoryManager.endAddress (frames s) /\ n * 4096 < 2 ^ 32 /\ n * 4096 / TableMemoryManager.blockSize (frames s) = n.
Proof.
  intros Hs Hn. pose proof (service_last s Hs). cbn [TableMemoryManager.endAddress TableMemoryManager.blockSize frames with_tables]. rewrite (so_block s Hs), Z.div_mul by done.
  unfold last_frame in *. Z.to_euclidean_division_equations; lia.
Qed.

Lemma free_frame_ok s n :
  service_ok s -> 0 <= n <= last_frame s -> 2 <= uses s n -> (n = 0 -> uses s 0 <> 2) ->
  exists f, TableMemoryManager.freeBlock (n * 4096) (frames s) = Ok f /\ service_ok (with_frames f s) /\ keeps s (with_frames f s) /\
    slack (with_frames f s) = slack s /\ (forall m, 0 <= m <= last_frame s -> uses (with_frames f s) m = used_at n (uses s n - 2) s m) /\
    (forall q v, translation (with_frames f s) q v = translation s q v).
Proof.
  intros Hs Hn Hu H0. destruct (frame_address s n Hs Hn) as (Ha & _ & Hdiv).
  pose proof (freeBlock_ok_table (frames s) (so_frames s Hs) (n * 4096) Ha) as H. rewrite Hdiv in H. fold (uses s n) in H.
  destruct (Z.leb_spec 2 (uses s n)); [|lia]. destruct H as (f & -> & A); [lia|]. exists f. split; [done|].
  apply frames_after; [done|exact A|]. pose proof (so_reserved s Hs). unfold used_at, uses in *. destruct (decide (0 = n)) as [<-|]; [specialize (H0 eq_refl); lia|done].
Qed.

(** [allocateBlock] of the page frame allocator. *)
Lemma allocate_frame_ok s :
  service_ok s -> in_u 32 KERNEL_DATA_END ->
  exists a f, PageFrameAllocator_allocateBlock KERNEL_DATA_END (frames s) = Ok (a, f) /\ service_ok (with_frames f s) /\ keeps s (with_frames f s) /\
    slack (with_frames f s) = slack s /\ (forall q v, translation (with_frames f s) q v = translation s q v) /\
    ((exists n, 0 < n <= last_frame s /\ a = n * 4096 /\ uses s n = 0 /\ forall m, 0 <= m <= last_frame s -> uses (with_frames f s) m = used_at n 2 s m) \/
     a = 0 /\ forall m, 0 <= m <= last_frame s -> uses s m <> 0 /\ uses (with_frames f s) m = uses s m).
Proof.
  intros Hs HK. pose proof (service_frames s Hs) as Hl. pose proof (service_last s Hs).
  destruct (PageFrameAllocator_ok (frames s) KERNEL_DATA_END (so_frames s Hs) (so_unlocked s Hs) (so_start s Hs) HK (so_reserved s Hs)) as (a & f & -> & W & U & Sm & Gr & Hc).
  rewrite Hl in Hc. exists a, f. split; [done|].
  assert (H0 : entry f 0 <> 0).
  { pose proof (so_reserved s Hs) as Hr. unfold uses in Hr. destruct Hc as [(n & Hn & _ & _ & He & _)|[_ He]].
    - rewrite He by lia. rewrite decide_False by lia. done.
    - destruct (He 0 ltac:(lia)) as [_ ->]. done. }
  destruct (frames_changed s f Hs W U Sm Gr H0) as (H1 & H2 & H3). split_and!; try done. unfold uses. rewrite frames_with_frames.
  change (TableMemoryManager.blockSize (frames s)) with (TableMemoryManager.blockSize (pageFrameAllocator s)) in Hc. rewrite (so_block s Hs) in Hc.
  destruct Hc as [(n & Hn & He0 & -> & He & _)|[-> He]]; [left; exists n; done|right]. split; [done|]. intros m Hm. by apply He.
Qed.

(** [allocateBlockAfterAddress]: the first free frame from [lo] on. *)
Lemma allocate_after_ok s addr :
  service_ok s -> in_u 32 addr ->
  let lo := addr / 4096 in
  exists a s', allocate_after addr s = Ok (a, s') /\ service_ok s' /\ keeps s s' /\ slack s' = slack s /\ (forall q v, translation s' q v = translation s q v) /\
    ((exists n, 0 < n /\ lo <= n <= last_frame s /\ a = n * 4096 /\ uses s n = 0 /\ (forall m, lo <= m < n -> uses s m <> 0) /\
        forall m, 0 <= m <= last_frame s -> uses s' m = used_at n 2 s m) \/
     a = 0 /\ (forall m, lo <= m <= last_frame s -> uses s m <> 0) /\ forall m, 0 <= m <= last_frame s -> uses s' m = uses s m).
Proof.
  intros Hs Ha lo. pose proof (service_frames s Hs) as Hl. pose proof (service_last s Hs).
  destruct (allocateBlockAfterAddress_ok (frames s) addr (so_frames s Hs) Ha (so_unlocked s Hs)) as (r & f & E & F). unfold allocate_after. rewrite E. mcbn.
  rewrite Hl in F. change (TableMemoryManager.blockSize (frames s)) with (TableMemoryManager.blockSize (pageFrameAllocator s)) in F. rewrite (so_block s Hs) in F. fold lo in F.
  assert (0 <= lo) by (unfold in_u in Ha; apply Z.div_pos; lia). pose proof (so_reserved s Hs) as Hr.
  destruct r as [a|]; cbn [found from_option id] in F |- *.
  - destruct F as (n & Hn & Hn0 & Hb & -> & A). change (TableMemoryManager.blockSize (frames s)) with (TableMemoryManager.blockSize (pageFrameAllocator s)). rewrite (so_block s Hs).
    assert (n <> 0) by (intros ->; done).
    destruct (frames_after s f _ Hs A) as (K1 & K2 & K3 & K4 & K5); [by rewrite decide_False by lia|].
    eexists _, _. split; [done|]. split_and!; try done. left. exists n. split_and!; try done; lia.
  - destruct F as [Hn A]. destruct (frames_after s f _ Hs A) as (K1 & K2 & K3 & K4 & K5); [done|].
    eexists _, _. split; [done|]. split_and!; try done. by right.
Qed.

(** ** Ranges of pages *)

Definition free_frames (s : MemoryService) : list Z := filter (fun n => uses s n = 0) (seqZ 0 (last_frame s + 1)).

Lemma elem_free_frames s n : n ∈ free_frames s <-> uses s n = 0 /\ 0 <= n <= last_frame s.
Proof. unfold free_frames. rewrite list_elem_of_filter, elem_of_seqZ. lia. Qed.

(** A frame is left when there are more free frames than those taken. *)
Lemma free_frame_left s (fs : list Z) : (length fs < length (free_frames s))%nat -> exists n, n ∈ free_frames s /\ n ∉ fs.
Proof.
  intros Hlen. destruct (decide (Forall (fun n => n ∈ fs) (free_frames s))) as [Hall|Hex].
  - exfalso. assert (free_frames s ⊆+ fs) as Hsub%submseteq_length; [|lia]. apply NoDup_submseteq; [apply NoDup_filter, NoDup_seqZ|]. by apply Forall_forall.
  - apply not_Forall_Exists in Hex; [|apply _]. by apply Exists_exists in Hex as (n & ? & ?); eauto.
Qed.

Lemma page_small va n i : 0 <= va -> va + n * 4096 <= 2 ^ 32 -> 0 <= i < n -> page va i = va + i * 4096 /\ 0 <= va + i * 4096 < 2 ^ 32.
Proof. intros H1 H2 H3. split; [|lia]. unfold page, u32. change PAGESIZE with 4096. assert (0 <= i * 4096 < 2 ^ 32) by lia. rewrite (wrap_small 32 (i * 4096)) by done. apply wrap_small. unfold in_u. lia. Qed.

(** What mapping the first [i] pages of a range has done, with the frames [fs]. *)
Record mapped (s s' : MemoryService) (va fl : Z) (fs : list Z) : Prop := {
  md_ok : service_ok s';
  md_keeps : keeps s s';
  md_slack : slack s - zlen fs <= slack s';
  md_nodup : NoDup fs;
  md_free f : f ∈ fs -> 0 < f <= last_frame s /\ uses s f = 0;
  md_uses m : 0 <= m <= last_frame s -> uses s' m = if decide (m ∈ fs) then 2 else uses s m;
  md_pages i f : fs !! i = Some f -> translation s' (current s) (va + Z.of_nat i * 4096) = Some (set (f * 4096) fl);
  md_rest q v : 0 <= v < 2 ^ 32 -> (forall i, 0 <= i < zlen fs -> ~ sees (spaces s) (current s) (va + i * 4096) q v) -> translation s' q v = translation s q v
}.

Lemma sees_keeps s s' va q v : keeps s s' -> sees (spaces s') (current s') va q v <-> sees (spaces s) (current s) va q v.
Proof. intros K. unfold sees. by rewrite (ke_dom _ _ K), (ke_current _ _ K). Qed.

Lemma map_step s s1 va n fl fs :
  service_ok s -> in_u 32 KERNEL_DATA_END -> 0 <= va -> va + n * 4096 <= 2 ^ 32 -> wrap 12 fl <> 0 -> n <= slack s -> n <= zlen (free_frames s) ->
  (forall i, 0 <= i < n -> va + i * 4096 <> KERNEL_END /\ translation s (current s) (va + i * 4096) = None) ->
  zlen fs < n -> mapped s s1 va fl fs ->
  exists f a s2, PageFrameAllocator_allocateBlock KERNEL_DATA_END (frames s1) = Ok (a * 4096, f) /\
    map_page (a * 4096) (page va (zlen fs)) fl (with_frames f s1) = Ok s2 /\ mapped s s2 va fl (fs ++ [a]).
Proof.
  intros Hs HK Hva Hrange Hfl Hsl Hfree Hpages Hlt [M1 M2 M3 M4 M5 M6 M7 M8]. pose proof (zlen_nonneg fs) as Hnn.
  pose proof (keeps_last _ _ M2) as Hlast. destruct (page_small va n (zlen fs) Hva Hrange) as [Hpg Hpr]; [lia|].
  destruct (Hpages (zlen fs)) as [Hke Hnone]; [lia|].
  destruct (allocate_frame_ok s1 M1 HK) as (a & f & Ea & A1 & A2 & A3 & A4 & Hc). rewrite Hlast in Hc.
  destruct Hc as [(b & Hb & -> & Hb0 & Hu)|[-> Hfull]].
  2:{ exfalso. destruct (free_frame_left s fs) as (m & Hm & Hno); [unfold zlen in *; lia|]. apply elem_free_frames in Hm as [Hm Hmr].
      destruct (Hfull m Hmr) as [Hbad _]. rewrite M6, decide_False in Hbad by done. done. }
  assert (Hbfs : b ∉ fs). { intros Hin. rewrite M6, decide_True in Hb0 by (done || lia). done. }
  rewrite M6, decide_False in Hb0 by (done || lia).
  exists f, b. set (s2 := with_frames f s1) in *. pose proof (map_page_ok s2 (b * 4096) (page va (zlen fs)) fl A1) as H. rewrite Hpg in *.
  specialize (H Hpr Hke Hfl ltac:(lia)). rewrite A4 in H. rewrite (ke_current _ _ A2), (ke_current _ _ M2) in H.
  rewrite M8 in H; [|done|].
  2:{ intros i Hi (Hp & _). Z.to_euclidean_division_equations; lia. }
  rewrite Hnone in H. destruct H as (s3 & E3 & B1 & B2 & B3 & B4 & B5). exists s3. split; [done|]. split; [done|].
  assert (K13 : keeps s1 s3) by (by apply (keeps_trans s1 s2)). assert (K3 : keeps s s3) by (by apply (keeps_trans s s1)).
  assert (Hsee : forall q v, sees (spaces s2) (current s) (va + zlen fs * 4096) q v <-> sees (spaces s) (current s) (va + zlen fs * 4096) q v).
  { intros q v. rewrite <- (ke_current _ _ M2), <- (ke_current _ _ A2). rewrite (sees_keeps s1 s2), (sees_keeps s s1) by done. by rewrite (ke_current _ _ A2), (ke_current _ _ M2). }
  split; try done.
  - rewrite zlen_app. change (zlen [b]) with 1. lia.
  - apply NoDup_app. split_and!; [done| |by apply NoDup_singleton]. intros x Hx ->%list_elem_of_singleton. done.
  - intros x [Hx| ->%list_elem_of_singleton]%elem_of_app; [by apply M5|]. done.
  - intros m Hm. rewrite B4, Hu by done. unfold used_at. destruct (decide (m = b)) as [->|Hmb].
    + rewrite decide_True by set_solver. done.
    + rewrite M6 by done. destruct (decide (m ∈ fs)) as [Hi|Hi]; [rewrite decide_True by set_solver; done|rewrite decide_False by set_solver; done].
  - intros i x Hi. assert (Hir : (i < length (fs ++ [b]))%nat) by (by eapply lookup_lt_Some). rewrite length_app in Hir. cbn in Hir.
    rewrite B5 by (unfold zlen in *; lia). apply lookup_app_Some in Hi as [Hi|[Hge Hi]].
    + pose proof (lookup_lt_Some _ _ _ Hi). rewrite decide_False; [rewrite A4; by apply M7|]. intros (Hp & _). unfold zlen in Hp. Z.to_euclidean_division_equations; lia.
    + replace (i - length fs)%nat with 0%nat in Hi by lia. injection Hi as <-. rewrite decide_True; [done|]. apply Hsee.
      assert (i = length fs) as -> by lia. split_and!; [done|apply (so_current s Hs)|by left].
  - intros q v Hv Hno. rewrite zlen_app in Hno. change (zlen [b]) with 1 in Hno. rewrite B5 by done. rewrite decide_False.
    + rewrite A4. apply M8; [done|]. intros i Hi. apply Hno. lia.
    + rewrite Hsee. apply Hno. lia.
Qed.

Lemma map_range s va n fl :
  service_ok s -> in_u 32 KERNEL_DATA_END -> 0 <= va -> 0 <= n -> va + n * 4096 <= 2 ^ 32 -> wrap 12 fl <> 0 -> n <= slack s -> n <= zlen (free_frames s) ->
  (forall i, 0 <= i < n -> va + i * 4096 <> KERNEL_END /\ translation s (current s) (va + i * 4096) = None) ->
  exists s' fs, map va n fl s = Ok s' /\ zlen fs = n /\ mapped s s' va fl fs.
Proof.
  intros Hs HK Hva Hn Hrange Hfl Hsl Hfree Hpages. unfold map.
  match goal with |- context [for_up ?k 0 ?body s] =>
    destruct (for_up_inv (fun i s1 => exists fs, zlen fs = i /\ mapped s s1 va fl fs) body k 0 s) as (s' & -> & fs & Hfs & H) end.
  - exists []. split; [done|]. split; try done; [change (zlen []) with 0; lia|by apply NoDup_nil|set_solver].
  - intros i s1 Hi (fs & <- & M). destruct (map_step s s1 va n fl fs) as (f & a & s2 & -> & E & M2); try done; [lia|]. mcbn. rewrite E.
    exists s2. split; [done|]. exists (fs ++ [a]). by rewrite zlen_app.
  - exists s', fs. split; [done|]. split; [lia|done].
Qed.

(** *** Unmapping *)

(** The slab allocator does not manage the address [a]. *)
Definition outside_slab (s : MemoryService) (a : Z) : Prop :=
  slabAllocatorEnabled s = false \/
  exists base slabs, pageFrameSlabAllocator s = Some slabs /\ SlabAllocator.wf base slabs /\ (a < base \/ base + 6 * POOL_SIZE <= a).

Lemma free_outside_slab s a : outside_slab s a -> free_in_slab a s = Ok (false, s).
Proof.
  unfold free_in_slab. intros [->|(base & slabs & Hsl & (Hb & He & Hp) & Hout)]; [done|]. destruct (slabAllocatorEnabled s) eqn:En; [|done]. rewrite Hsl. cbn [of_option]. mcbn.
  destruct (Hp S4K) as (_ & A0 & _), (Hp S128K) as (_ & _ & B5 & _). cbn [pool slab_index] in A0, B5.
  assert (SlabAllocator.freeBlock a slabs = Ok (false, slabs)) as ->.
  { unfold SlabAllocator.freeBlock, BitmapMemoryManager.getStartAddress, BitmapMemoryManager.getEndAddress. rewrite A0, B5.
    destruct (Z.ltb_spec a (base + 0 * POOL_SIZE)); [done|]. rewrite Z.gtb_ltb. destruct (Z.ltb_spec (base + (5 + 1) * POOL_SIZE - 1) a); [done|lia]. }
  mcbn. unfold with_slab. rewrite <- Hsl. by destruct s.
Qed.

Lemma outside_keeps s s' a : keeps s s' -> outside_slab s a -> outside_slab s' a.
Proof. intros K. unfold outside_slab. by rewrite (ke_enabled _ _ K), (ke_slabs _ _ K). Qed.

Lemma page_0 a : in_u 32 a -> page a 0 = a.
Proof. intros H. unfold page, u32. change (wrap 32 (0 * PAGESIZE)) with 0. rewrite Z.add_0_r. by apply wrap_small. Qed.

Lemma free_one_frame s n :
  service_ok s -> 0 < n <= last_frame s -> 2 <= uses s n -> outside_slab s (n * 4096) ->
  exists s', freePhysicalMemory (n * 4096) 1 s = Ok s' /\ service_ok s' /\ keeps s s' /\ slack s' = slack s /\
    (forall m, 0 <= m <= last_frame s -> uses s' m = used_at n (uses s n - 2) s m) /\ (forall q v, translation s' q v = translation s q v).
Proof.
  intros Hs Hn Hu Hout. unfold freePhysicalMemory. rewrite free_outside_slab by done. mcbn. change (Z.to_nat 1) with 1%nat. cbn [for_up].
  pose proof (service_last s Hs). rewrite page_0 by (unfold in_u; lia).
  destruct (free_frame_ok s n Hs ltac:(lia) Hu ltac:(lia)) as (f & -> & H1). mcbn. by exists (with_frames f s).
Qed.

Lemma user_sees s va q v : va mod 4096 = 0 -> KERNEL_END <= va -> service_ok s -> sees (spaces s) (current s) va q v <-> q = current s /\ va <= v < va + 4096.
Proof.
  intros Hal Hva Hs. unfold sees. split.
  - intros (Hp & _ & [->|?]); [|lia]. split; [done|]. Z.to_euclidean_division_equations; lia.
  - intros [-> Hv]. split_and!; [Z.to_euclidean_division_equations; lia|apply (so_current s Hs)|by left].
Qed.

Lemma unmap_pages_ok va b : va mod 4096 = 0 -> KERNEL_END < va -> forall (fs : list Z) i nm pa s,
  service_ok s -> 0 <= i -> va + (i + zlen fs) * 4096 <= 2 ^ 32 -> NoDup fs ->
  (forall f, f ∈ fs -> 0 < f <= last_frame s /\ 2 <= uses s f /\ outside_slab s (f * 4096)) ->
  (forall k f, fs !! k = Some f -> exists e, translation s (current s) (va + (i + Z.of_nat k) * 4096) = Some e /\ getAddress e = f * 4096) ->
  exists s', unmap_pages (length fs) i va b nm pa s = Ok (default pa ((fun f => f * 4096) <$> last fs), s') /\ service_ok s' /\ keeps s s' /\ slack s' = slack s /\
    (forall m, 0 <= m <= last_frame s -> uses s' m = if decide (m ∈ fs) then uses s m - 2 else uses s m) /\
    (forall q v, KERNEL_END <= v < 2 ^ 32 -> translation s' q v =
       if decide (q = current s /\ va + i * 4096 <= v < va + (i + zlen fs) * 4096) then None else translation s q v).
Proof.
  intros Hal Hva. pose proof Hva as Hva0. unfold KERNEL_END in Hva0. induction fs as [|f fs IH]; intros i nm pa s Hs Hi Hr Hnd Hfs Htr; cbn [length unmap_pages].
  - exists s. split_and!; try done. intros q v Hv. rewrite decide_False; [done|]. change (zlen []) with 0. lia.
  - rewrite zlen_cons in Hr. pose proof (zlen_nonneg fs) as Hnn. destruct (Hfs f) as (Hf & Hu & Hout); [constructor|].
    destruct (page_small va (i + 1) i) as [-> Hpr]; [lia|lia|lia|]. set (w := va + i * 4096) in *.
    destruct (unmap_page_ok s w Hs Hpr ltac:(unfold w; lia)) as (r & s1 & -> & O1 & K1 & L1 & U1 & R1 & G1 & T1). mcbn.
    destruct (Htr 0%nat f eq_refl) as (e & He & Hea). rewrite Z.add_0_r in He. fold w in He. rewrite He in R1. subst r. rewrite Hea.
    destruct (Z.eqb_spec (f * 4096) 0) as [|_]; [lia|].
    destruct (free_one_frame s1 f O1) as (s2 & -> & O2 & K2 & L2 & U2 & T2); [by rewrite (keeps_last _ _ K1)|by rewrite U1|by eapply outside_keeps|]. mcbn.
    assert ((b >? 0) && (0 =? b) = false) as -> by (rewrite Z.gtb_ltb; destruct (Z.ltb_spec 0 b), (Z.eqb_spec 0 b); try done; lia).
    apply NoDup_cons in Hnd as [Hno Hnd]. pose proof (keeps_trans _ _ _ K1 K2) as K12. pose proof (keeps_last _ _ K12) as Hl12. pose proof (keeps_last _ _ K1) as Hl1.
    assert (Hw : w mod 4096 = 0) by (unfold w; rewrite Z.mod_add by done; done).
    assert (Hs12 : forall q v, KERNEL_END <= v < 2 ^ 32 -> translation s2 q v = if decide (q = current s /\ w <= v < w + 4096) then None else translation s q v).
    { intros q v Hv. rewrite T2, T1 by (unfold KERNEL_END in *; lia). destruct (decide (sees (spaces s) (current s) w q v)) as [Hse|Hse]; rewrite user_sees in Hse by (done || (unfold w; lia)); repeat case_decide; tauto. }
    assert (Hus : forall m, 0 <= m <= last_frame s -> uses s2 m = used_at f (uses s f - 2) s m).
    { intros m Hm. rewrite U2 by (rewrite Hl1; done). unfold used_at. by rewrite !U1. }
    destruct (IH (i + 1) 0 (f * 4096) s2 O2) as (s' & E & O' & K' & L' & U' & T'); [lia|lia|done| | |].
    + intros g Hg. destruct (Hfs g) as (? & ? & ?); [by right|]. rewrite Hl12. split; [done|]. split; [|by eapply outside_keeps].
      rewrite Hus by lia. unfold used_at. rewrite decide_False; [done|]. by intros ->.
    + intros k g Hg. destruct (Htr (S k) g Hg) as (e' & He' & ?). exists e'. split; [|done]. pose proof (lookup_lt_Some _ _ _ Hg).
      rewrite (ke_current _ _ K12). replace (i + 1 + Z.of_nat k) with (i + Z.of_nat (S k)) by lia. rewrite Hs12 by (unfold zlen in *; lia). rewrite decide_False; [done|]. unfold w. lia.
    + exists s'. split_and!; try done; try congruence.
      * rewrite E, last_cons. by destruct (last fs).
      * by apply (keeps_trans s s2).
      * intros m Hm. rewrite U', Hus by (rewrite ?Hl12; done). unfold used_at.
        destruct (decide (m = f)) as [->|Hmf]; [rewrite decide_False, decide_True by (done || constructor); done|].
        destruct (decide (m ∈ fs)); [rewrite decide_True by (by right)|rewrite decide_False by (intros [?|?]%elem_of_cons; done)]; done.
      * intros q v Hv. rewrite T' by done. rewrite (ke_current _ _ K12), Hs12 by done. rewrite zlen_cons. unfold w. repeat case_decide; try done; lia.
Qed.

(** ** Mapping memory *)

(** C5: Mapping n unmapped pages, none of them the one at KERNEL_END, when n
    frames are free and the paging area has blocks for page tables, gives
    every page a frame of its own that was free, counts it as used once, and
    changes no other frame and no other translation. *)
Theorem map_pages_spec s va n fl :
  service_ok s -> in_u 32 KERNEL_DATA_END -> 0 <= va -> 0 <= n -> va + n * 4096 <= 2 ^ 32 -> wrap 12 fl <> 0 -> n <= slack s -> n <= zlen (free_frames s) ->
  (forall i, 0 <= i < n -> va + i * 4096 <> KERNEL_END /\ translation s (current s) (va + i * 4096) = None) ->
  exists s' fs, map va n fl s = Ok s' /\ service_ok s' /\ zlen fs = n /\ NoDup fs /\
    (forall f, f ∈ fs -> 0 < f <= last_frame s /\ uses s f = 0) /\
    (forall m, 0 <= m <= last_frame s -> uses s' m = if decide (m ∈ fs) then 2 else uses s m) /\
    (forall i f, fs !! i = Some f -> translation s' (current s) (va + Z.of_nat i * 4096) = Some (set (f * 4096) fl)) /\
    (forall q v, 0 <= v < 2 ^ 32 -> (forall i, 0 <= i < n -> ~ sees (spaces s) (current s) (va + i * 4096) q v) -> translation s' q v = translation s q v).
Proof.
  intros Hs HK Hva Hn Hrange Hfl Hsl Hfree Hpages. destruct (map_range s va n fl) as (s' & fs & E & Hlen & [M1 M2 M3 M4 M5 M6 M7 M8]); [done..|].
  rewrite Hlen in M8. exists s', fs. done.
Qed.

(** C6: When n frames are free, none of them in a slab, and the paging area has
    blocks for page tables, unmapping n unmapped pages above KERNEL_END
    right after mapping them ends and restores the use counts of all frames
    and all translations of user space. *)
Theorem map_unmap_roundtrip s va n fl b :
  service_ok s -> in_u 32 KERNEL_DATA_END -> va mod 4096 = 0 -> KERNEL_END < va -> 0 < n -> va + n * 4096 <= 2 ^ 32 -> wrap 12 fl <> 0 ->
  n <= slack s -> n <= zlen (free_frames s) -> (forall f, f ∈ free_frames s -> outside_slab s (f * 4096)) ->
  (forall i, 0 <= i < n -> translation s (current s) (va + i * 4096) = None) ->
  exists s1 r s2, map va n fl s = Ok s1 /\ unmap va n b s1 = Ok (r, s2) /\ r <> 0 /\ service_ok s2 /\
    (forall m, 0 <= m <= last_frame s -> uses s2 m = uses s m) /\
    (forall q v, KERNEL_END <= v < 2 ^ 32 -> translation s2 q v = translation s q v).
Proof.
  intros Hs HK Hal Hva Hn Hrange Hfl Hsl Hfree Hout Hnone. pose proof Hva as Hva0. unfold KERNEL_END in Hva0.
  destruct (map_range s va n fl) as (s1 & fs & E1 & Hlen & [M1 M2 M3 M4 M5 M6 M7 M8]); [done|done|lia|lia|done|done|done|done| |].
  { intros i Hi. split; [lia|by apply Hnone]. }
  pose proof (keeps_last _ _ M2) as Hl. pose proof (service_last s Hs) as Hls.
  destruct (unmap_pages_ok va b Hal Hva fs 0 0 0 s1) as (s2 & E2 & O2 & K2 & _ & U2 & T2); [done|lia|lia|done| | |].
  - intros f Hf. destruct (M5 f Hf) as [Hfr Hf0]. rewrite Hl, M6, decide_True by (done || lia). split_and!; [lia|lia|lia|]. eapply outside_keeps; [exact M2|]. apply Hout, elem_free_frames. lia.
  - intros k f Hf. destruct (M5 f) as [Hfr _]; [by eapply list_elem_of_lookup_2|]. eexists. rewrite (ke_current _ _ M2), Z.add_0_l. split; [by apply M7|]. apply getAddress_set; [lia|].
    by rewrite Z.mod_mul.
  - exists s1. eexists _, s2. split; [done|]. unfold unmap. change PAGESIZE with 4096. rewrite Hal. cbn [negb Z.eqb].
    replace (Z.to_nat n) with (length fs) by (unfold zlen in Hlen; lia). split; [exact E2|]. split_and!; [|done| |].
    + destruct (last fs) as [f|] eqn:Ef; [|apply last_None in Ef; subst fs; change (zlen []) with 0 in Hlen; lia]. cbn. apply last_Some_elem_of in Ef. destruct (M5 f Ef). lia.
    + intros m Hm. rewrite U2, M6 by (rewrite ?Hl; done). destruct (decide (m ∈ fs)) as [Hf|]; [|done]. by destruct (M5 m Hf) as [_ ->].
    + intros q v Hv. rewrite T2 by done. rewrite (ke_current _ _ M2), Hlen. case_decide as Hc.
      * destruct Hc as [-> Hr]. unfold translation at 1. rewrite (translate_page (spaces s) (current s) v (va + (v - va) / 4096 * 4096)); [|unfold KERNEL_END in *; Z.to_euclidean_division_equations; lia..].
        symmetry. apply Hnone. Z.to_euclidean_division_equations; lia.
      * apply M8; [unfold KERNEL_END in *; lia|]. rewrite Hlen. intros i Hi Hse. rewrite user_sees in Hse; [|by rewrite Z.mod_add|lia|done]. apply Hc. destruct Hse as [-> ?]. split; [done|lia].
Qed.

(** The flags of a page that the page fault handler maps. *)
Definition fault_flags (faultAddress : Z) : Z := Z.lor (Z.lor PRESENT WRITABLE) (if faultAddress >=? KERNEL_END then USER_ACCESSIBLE else 0).

Lemma fault_flags_used a : wrap 12 (fault_flags a) <> 0.
Proof. unfold fault_flags. by destruct (a >=? KERNEL_END). Qed.

(** C8: When a frame and a block of the paging area are free, the page fault
    handler, for an address other than KERNEL_END, throws for address zero,
    for a protection fault and for a page that is mapped; otherwise it maps
    the page to a free frame, and user mode may access it, by the flags of
    the directory and of the page table, exactly outside the kernel area. *)
Theorem handlePageFault_spec s faultAddress errorCode :
  service_ok s -> in_u 32 KERNEL_DATA_END -> in_u 32 faultAddress -> faultAddress <> KERNEL_END -> 1 <= slack s -> free_frames s <> [] ->
  if decide (faultAddress = 0) then handlePageFault faultAddress errorCode s = Throw NULL_POINTER
  else if Z.odd errorCode then handlePageFault faultAddress errorCode s = Throw ILLEGAL_PAGE_ACCESS
  else if translation s (current s) faultAddress then handlePageFault faultAddress errorCode s = Throw PAGING_ERROR
  else exists s' f, handlePageFault faultAddress errorCode s = Ok s' /\ service_ok s' /\ 0 < f <= last_frame s /\ uses s f = 0 /\
    (forall m, 0 <= m <= last_frame s -> uses s' m = used_at f 2 s m) /\
    (forall q v, 0 <= v < 2 ^ 32 -> translation s' q v =
      if decide (sees (spaces s) (current s) faultAddress q v) then Some (set (f * 4096) (fault_flags faultAddress)) else translation s q v) /\
    user_access (spaces s') (current s) faultAddress = bool_decide (KERNEL_END <= faultAddress).
Proof.
  intros Hs HK Hf Hne Hsl Hfree. unfold handlePageFault. case_decide as H0; [by subst|]. destruct (Z.eqb_spec faultAddress 0); [done|].
  assert (Z.land errorCode 1 = Z.b2z (Z.odd errorCode)) as ->.
  { change (Z.land errorCode (Z.ones 1) = Z.b2z (Z.odd errorCode)). rewrite Z.land_ones by lia. change (2 ^ 1) with 2. rewrite Zmod_odd. by destruct (Z.odd errorCode). }
  destruct (Z.odd errorCode); [done|]. cbn [Z.b2z Z.gtb Z.compare].
  fold (fault_flags faultAddress). unfold map. change (Z.to_nat 1) with 1%nat. cbn [for_up]. rewrite page_0 by done.
  destruct (allocate_frame_ok s Hs HK) as (a & f & -> & A1 & A2 & A3 & A4 & Hc). mcbn.
  destruct Hc as [(b & Hb & -> & Hb0 & Hu)|[-> Hfull]].
  2:{ exfalso. apply Hfree. destruct (free_frames s) as [|m l] eqn:E; [done|]. exfalso. assert (Hm : m ∈ free_frames s) by (rewrite E; constructor). apply elem_free_frames in Hm as [Hm Hr]. by destruct (Hfull m Hr). }
  pose proof (map_page_ok (with_frames f s) (b * 4096) faultAddress (fault_flags faultAddress) A1 Hf Hne (fault_flags_used _) ltac:(lia)) as H.
  rewrite A4, (ke_current _ _ A2) in H. destruct (translation s (current s) faultAddress); [by rewrite H|].
  destruct H as (s' & -> & O & K & _ & U & T). mcbn. exists s', b. split; [done|]. split; [done|]. split; [done|]. split; [done|]. split.
  - intros m Hm. rewrite U. by apply Hu.
  - assert (Htr : forall q v, 0 <= v < 2 ^ 32 -> translation s' q v = if decide (sees (spaces s) (current s) faultAddress q v) then Some (set (b * 4096) (fault_flags faultAddress)) else translation s q v).
    { intros q v Hv. rewrite T by done. rewrite A4. pose proof (sees_keeps s (with_frames f s) faultAddress q v A2) as Hse. rewrite (ke_current _ _ A2) in Hse.
      repeat case_decide; tauto. }
    split; [exact Htr|]. specialize (Htr (current s) faultAddress Hf). rewrite decide_True in Htr by (split; [done|split; [exact (so_current s Hs)|by left]]).
    rewrite (user_access_ok _ _ _ _ (so_spaces s' O) Hf Htr). cbn [flags set]. unfold fault_flags. rewrite Z.geb_leb. case_bool_decide; destruct (Z.leb_spec KERNEL_END faultAddress); (done || lia).
Qed.

(** When no frame is free, the page fault handler maps the page to the
    frame at physical address 0 and reports no error. *)
Theorem map_without_frames s faultAddress :
  service_ok s -> in_u 32 KERNEL_DATA_END -> in_u 32 faultAddress -> faultAddress <> KERNEL_END -> faultAddress <> 0 -> 1 <= slack s ->
  free_frames s = [] -> translation s (current s) faultAddress = None ->
  exists s', handlePageFault faultAddress 0 s = Ok s' /\ translation s' (current s) faultAddress = Some (set 0 (fault_flags faultAddress)).
Proof.
  intros Hs HK Hf Hne H0 Hsl Hfree Hnone. unfold handlePageFault. destruct (Z.eqb_spec faultAddress 0); [done|]. cbn [Z.land Z.gtb Z.compare].
  fold (fault_flags faultAddress). unfold map. change (Z.to_nat 1) with 1%nat. cbn [for_up]. rewrite page_0 by done.
  destruct (allocate_frame_ok s Hs HK) as (a & f & -> & A1 & A2 & A3 & A4 & Hc). mcbn.
  destruct Hc as [(b & Hb & -> & Hb0 & Hu)|[-> Hfull]].
  { exfalso. assert (Hin : b ∈ free_frames s) by (apply elem_free_frames; lia). rewrite Hfree in Hin. by apply not_elem_of_nil in Hin. }
  pose proof (map_page_ok (with_frames f s) 0 faultAddress (fault_flags faultAddress) A1 Hf Hne (fault_flags_used _) ltac:(lia)) as H.
  rewrite A4, (ke_current _ _ A2), Hnone in H. destruct H as (s' & -> & O & K & _ & U & T). mcbn. exists s'. split; [done|].
  rewrite T by done. rewrite decide_True; [done|]. split; [done|]. split; [|by left]. apply (ke_dom _ _ A2), (so_current s Hs).
Qed.

(** ** Contiguous frames *)

Definition free_run (s : MemoryService) (k n : Z) : Prop := k + n - 1 <= last_frame s /\ forall m, k <= m < k + n -> uses s m = 0.

(** In [s] the [i] frames from [k] on have been taken; the rest is as in [s0]. *)
Record taken (s0 s : MemoryService) (k i : Z) : Prop := {
  tk_ok : service_ok s;
  tk_keeps : keeps s0 s;
  tk_slack : slack s = slack s0;
  tk_range : 0 < k /\ 0 <= i /\ k + i - 1 <= last_frame s0;
  tk_free m : k <= m < k + i -> uses s0 m = 0;
  tk_uses m : 0 <= m <= last_frame s0 -> uses s m = if decide (k <= m < k + i) then 2 else uses s0 m;
  tk_translation q v : translation s q v = translation s0 q v
}.

(** One more frame behind those taken, [b], which need not follow on them. *)
Lemma take_more s0 s k i n :
  taken s0 s k i -> slabAllocatorEnabled s0 = false -> 1 <= i < n -> (exists r, k <= r /\ free_run s0 r n) ->
  exists b s1, allocate_after (k * 4096) s = Ok (b * 4096, s1) /\ k + i <= b <= last_frame s0 /\
    uses s0 b = 0 /\ (forall m, k + i <= m < b -> uses s0 m <> 0) /\
    service_ok s1 /\ keeps s0 s1 /\ slack s1 = slack s0 /\ (forall q v, translation s1 q v = translation s0 q v) /\
    (forall m, 0 <= m <= last_frame s0 -> uses s1 m = if decide (k <= m < k + i \/ m = b) then 2 else uses s0 m).
Proof.
  intros [O K L R F U T] Hen Hi (r & Hr & Hrl & Hrf). pose proof (keeps_last _ _ K) as Hl. pose proof (service_last s O) as Hls. rewrite Hl in Hls.
  destruct (allocate_after_ok s (k * 4096) O) as (a & s1 & E & O1 & K1 & L1 & T1 & Hc); [unfold in_u; lia|]. rewrite Z.div_mul, Hl in Hc by done.
  destruct Hc as [(b & Hb & Hbr & -> & Hb0 & Hbf & Hu)|(-> & Hno & _)].
  2:{ exfalso. apply (Hno (r + n - 1)); [lia|]. rewrite U, decide_False by lia. apply Hrf. lia. }
  rewrite U in Hb0 by lia. destruct (decide (k <= b < k + i)) as [|Hbk]; [done|].
  exists b, s1. split; [done|]. split; [lia|]. split; [done|]. split.
  { intros m Hm Hm0. apply (Hbf m); [lia|]. rewrite U, decide_False by lia. done. }
  split_and!; [done|by apply (keeps_trans s0 s)|congruence|intros; by rewrite T1|]. intros m Hm. rewrite Hu by done. unfold used_at.
  destruct (decide (m = b)) as [->|]; [by rewrite decide_True by (by right)|]. rewrite U by done. repeat case_decide; (done || lia).
Qed.

(** Giving frames back. *)
Lemma free_frames_back s0 s k i (u : Z -> Z) :
  service_ok s -> keeps s0 s -> slabAllocatorEnabled s0 = false -> 0 < k -> 0 <= i -> k + i - 1 <= last_frame s0 ->
  (forall m, 0 <= m <= last_frame s0 -> uses s m = if decide (k <= m < k + i) then 2 else u m) -> (forall m, k <= m < k + i -> u m = 0) ->
  exists s1, freePhysicalMemory (k * 4096) i s = Ok s1 /\ service_ok s1 /\ keeps s0 s1 /\ slack s1 = slack s /\ (forall q v, translation s1 q v = translation s q v) /\
    forall m, 0 <= m <= last_frame s0 -> uses s1 m = u m.
Proof.
  intros O K Hen Hk Hi Hr Hu Hf. pose proof (service_last s O) as Hls. rewrite (keeps_last _ _ K) in Hls.
  unfold freePhysicalMemory, free_in_slab. rewrite (ke_enabled _ _ K), Hen. mcbn.
  match goal with |- context [for_up ?n 0 ?body s] =>
    destruct (for_up_inv (fun j s1 => service_ok s1 /\ keeps s0 s1 /\ slack s1 = slack s /\ (forall q v, translation s1 q v = translation s q v) /\
      forall m, 0 <= m <= last_frame s0 -> uses s1 m = if decide (k + j <= m < k + i) then 2 else u m) body n 0 s) as (s1 & -> & H1 & H2 & H3 & H4 & H5) end.
  - split_and!; try done. intros m Hm. rewrite Hu by done. by rewrite Z.add_0_r.
  - intros j s1 Hj (O1 & K1 & L1 & T1 & U1). rewrite Z2Nat.id in Hj by lia.
    destruct (page_small (k * 4096) i j) as [-> _]; [lia|lia|lia|]. replace (k * 4096 + j * 4096) with ((k + j) * 4096) by lia.
    destruct (free_frame_ok s1 (k + j) O1) as (f & -> & O2 & K2 & L2 & U2 & T2).
    + rewrite (keeps_last _ _ K1). lia.
    + rewrite U1, decide_True by lia. done.
    + lia.
    + mcbn. eexists. split; [done|]. split_and!; [done|by apply (keeps_trans s0 s1)|congruence|intros; by rewrite T2|].
      intros m Hm. rewrite U2 by (rewrite (keeps_last _ _ K1); done). unfold used_at. rewrite !U1 by lia. rewrite (decide_True (P := k + j <= k + j < k + i)) by lia.
      destruct (decide (m = k + j)) as [->|]; [rewrite decide_False, Hf by lia; done|]. repeat case_decide; (done || lia).
  - exists s1. split; [done|]. split_and!; try done. intros m Hm. rewrite H5, decide_False by lia. done.
Qed.

(** The inner loop: either the block is complete or the search goes on behind a gap. *)
Lemma contiguous_ok s0 k N : slabAllocatorEnabled s0 = false -> 1 <= N -> (exists r, k <= r /\ free_run s0 r N) -> forall (n : nat) s i,
  taken s0 s k i -> 1 <= i -> i + Z.of_nat n = N ->
  (exists s', contiguous_frames n i (k * 4096) ((k + i - 1) * 4096) s = Ok (None, s') /\ taken s0 s' k N) \/
  (exists b s', contiguous_frames n i (k * 4096) ((k + i - 1) * 4096) s = Ok (Some (b * 4096), s') /\ k < b /\ taken s0 s' b 1 /\
     forall r, k <= r < b -> ~ free_run s0 r N).
Proof.
  intros Hen HN Hex. induction n as [|n IH]; intros s i Ht Hi Hsum; cbn [contiguous_frames].
  - left. exists s. split; [done|]. by replace N with i by lia.
  - destruct (take_more s0 s k i N Ht Hen) as (b & s1 & -> & Hb & Hb0 & Hgap & O1 & K1 & L1 & T1 & U1); [lia|done|]. mcbn.
    pose proof Ht as [O K L R F U T]. pose proof (service_last s O) as Hls. rewrite (keeps_last _ _ K) in Hls.
    change PAGESIZE with 4096.
    assert (Hdiff : u32 (b * 4096 - (k + i - 1) * 4096) = (b - (k + i - 1)) * 4096) by (unwrap; lia). rewrite Hdiff.
    destruct (Z.eqb_spec ((b - (k + i - 1)) * 4096) 4096) as [Eb|Eb]; cbn [negb].
    + assert (b = k + i) as -> by lia. replace ((k + i) * 4096) with ((k + (i + 1) - 1) * 4096) by lia. apply IH; [|lia|lia].
      split; try done; [lia| |].
      * intros m Hm. destruct (decide (m = k + i)) as [->|]; [done|]. apply F. lia.
      * intros m Hm. rewrite U1 by done. repeat case_decide; (done || lia).
    + right. destruct (free_frames_back s0 s1 k i (fun m => if decide (m = b) then 2 else uses s0 m)) as (s2 & -> & O2 & K2 & L2 & T2 & U2); try done; try lia.
      { intros m Hm. rewrite U1 by done. repeat case_decide; (done || lia). }
      { intros m Hm. rewrite decide_False by lia. by apply F. }
      mcbn. exists b, s2. split; [done|]. split; [lia|]. split.
      * split; try done; [congruence|lia| | |].
        -- intros m Hm. by replace m with b by lia.
        -- intros m Hm. rewrite U2 by done. repeat case_decide; (done || lia).
        -- intros q v. by rewrite T2.
      * intros r Hr [Hrl Hrf]. destruct (decide (r < k + i)).
        -- apply (Hgap (k + i)); [lia|]. apply Hrf. lia.
        -- apply (Hgap r); [lia|]. apply Hrf. lia.
Qed.

Lemma search_frames_ok s0 N : slabAllocatorEnabled s0 = false -> 1 <= N -> forall (fuel : nat) s k,
  taken s0 s k 1 -> (exists r, k <= r /\ free_run s0 r N) -> last_frame s0 - k < Z.of_nat fuel ->
  exists k' s', search_frames fuel N (k * 4096) s = Ok (k' * 4096, s') /\ k <= k' /\ taken s0 s' k' N /\ forall r, k <= r < k' -> ~ free_run s0 r N.
Proof.
  intros Hen HN. induction fuel as [|fuel IH]; intros s k Ht Hex Hfuel; cbn [search_frames].
  - destruct Ht as [_ _ _ R _ _ _]. lia.
  - destruct (contiguous_ok s0 k N Hen HN Hex (Z.to_nat (N - 1)) s 1 Ht) as [(s' & E & Ht')|(b & s' & E & Hb & Ht' & Hno)]; [lia|lia| |].
    + replace (k + 1 - 1) with k in E by lia. rewrite E. mcbn. exists k, s'. split; [done|]. split; [lia|]. split; [done|]. lia.
    + replace (k + 1 - 1) with k in E by lia. rewrite E. mcbn. destruct (IH s' b Ht') as (k' & s2 & E2 & Hk' & Ht2 & Hno2).
      * destruct Hex as (r & Hr & Hrun). exists r. split; [|done]. destruct (decide (r < b)); [|lia]. exfalso. by apply (Hno r).
      * destruct Ht' as [_ _ _ R _ _ _]. lia.
      * exists k', s2. split; [done|]. split; [lia|]. split; [done|]. intros r Hr. destruct (decide (r < b)); [apply Hno; lia|apply Hno2; lia].
Qed.

(** The whole search. *)
Lemma allocatePhysicalMemory_ok s n startAddress :
  service_ok s -> slabAllocatorEnabled s = false -> in_u 32 startAddress -> 1 <= n ->
  (exists r, startAddress / 4096 <= r /\ free_run s r n) ->
  exists k s', allocatePhysicalMemory n startAddress s = Ok (k * 4096, s') /\ service_ok s' /\ keeps s s' /\ 0 < k /\ startAddress / 4096 <= k /\ free_run s k n /\
    (forall r, startAddress / 4096 <= r < k -> ~ free_run s r n) /\
    (forall m, 0 <= m <= last_frame s -> uses s' m = if decide (k <= m < k + n) then 2 else uses s m) /\
    (forall q v, translation s' q v = translation s q v).
Proof.
  intros Hs Hen Hst Hn (r & Hr & Hrl & Hrf). pose proof (service_last s Hs) as Hls. unfold allocatePhysicalMemory, allocate_in_slab. rewrite Hen. mcbn.
  destruct (allocate_after_ok s startAddress Hs Hst) as (a & s1 & -> & O1 & K1 & L1 & T1 & Hc). mcbn.
  destruct Hc as [(b & Hb & Hbr & -> & Hb0 & Hbf & Hu)|(-> & Hno & _)]; [|exfalso; apply (Hno r); [lia|apply Hrf; lia]].
  assert (Ht : taken s s1 b 1).
  { split; try done; [lia| |].
    - intros m Hm. by replace m with b by lia.
    - intros m Hm. rewrite Hu by done. unfold used_at. repeat case_decide; (done || lia). }
  assert (Hbr' : forall r', startAddress / 4096 <= r' < b -> ~ free_run s r' n).
  { intros r' Hr' [_ Hf]. apply (Hbf r'); [lia|]. apply Hf. lia. }
  destruct (search_frames_ok s n Hen Hn (frame_fuel s1) s1 b Ht) as (k & s' & -> & Hk & [O K L R F U T] & Hmin).
  - exists r. split; [|done]. destruct (decide (r < b)); [|lia]. exfalso. by apply (Hbr' r).
  - unfold frame_fuel. rewrite (so_block s1 O1). fold (last_frame s1). rewrite (keeps_last _ _ K1). lia.
  - exists k, s'. split; [done|]. split; [done|]. split; [done|]. split; [lia|]. split; [lia|]. split; [by split; [lia|]|]. split; [|by split].
    intros r' Hr'. destruct (decide (r' < b)); [apply Hbr'; lia|apply Hmin; lia].
Qed.

(** C7: When there is a run of n free frames behind the start address, the
    search without slab allocator ends with the first such run, takes
    exactly its frames and gives back every frame it took on the way. *)
Theorem allocatePhysicalMemory_spec s n startAddress :
  service_ok s -> slabAllocatorEnabled s = false -> in_u 32 startAddress -> 1 <= n ->
  (exists r, startAddress / 4096 <= r /\ free_run s r n) ->
  exists k s', allocatePhysicalMemory n startAddress s = Ok (k * 4096, s') /\ service_ok s' /\ 0 < k /\ startAddress / 4096 <= k /\ free_run s k n /\
    (forall r, startAddress / 4096 <= r < k -> ~ free_run s r n) /\
    (forall m, 0 <= m <= last_frame s -> uses s' m = if decide (k <= m < k + n) then 2 else uses s m) /\
    (forall q v, translation s' q v = translation s q v).
Proof.
  intros Hs Hen Hst Hn Hex. destruct (allocatePhysicalMemory_ok s n startAddress Hs Hen Hst Hn Hex) as (k & s' & E & O & _ & H). by exists k, s'.
Qed.

(** ** The memory of the slab allocator *)

(** The list of address spaces plays no role for frames. *)
Definition with_list (l : ArrayList Z) (s : MemoryService) : MemoryService :=
  with_address_spaces (mkSpaces (VirtualAddressSpace.spaces (spaces s)) l (currentAddressSpace (spaces s)) (tables (spaces s)) (pagingAreaManager (spaces s))) s.

Definition list_independent {A} (op : MemoryService -> outcome (A * MemoryService)) : Prop :=
  forall l s, op (with_list l s) = (fun r => (r.1, with_list l r.2)) <$> op s.

Lemma allocate_after_list a : list_independent (allocate_after a).
Proof.
  intros l s. unfold allocate_after. change (frames (with_list l s)) with (frames s). by destruct (allocateBlockAfterAddress a (frames s)) as [[r f]| | |].
Qed.

Lemma freePhysicalMemory_list p n l s : freePhysicalMemory p n (with_list l s) = with_list l <$> freePhysicalMemory p n s.
Proof.
  unfold freePhysicalMemory.
  assert (Hfr : forall k j s, for_up k j (fun i s => f ← TableMemoryManager.freeBlock (page p i) (frames s); Ok (with_frames f s)) (with_list l s)
    = with_list l <$> for_up k j (fun i s => f ← TableMemoryManager.freeBlock (page p i) (frames s); Ok (with_frames f s)) s).
  { induction k as [|k IH]; intros j s1; [done|]. cbn [for_up]. change (frames (with_list l s1)) with (frames s1).
    destruct (TableMemoryManager.freeBlock (page p j) (frames s1)) as [f| | |]; mcbn; try done. rewrite <- (IH (j + 1)). done. }
  unfold free_in_slab. change (slabAllocatorEnabled (with_list l s)) with (slabAllocatorEnabled s). change (pageFrameSlabAllocator (with_list l s)) with (pageFrameSlabAllocator s).
  destruct (slabAllocatorEnabled s); mcbn; [|apply Hfr]. destruct (pageFrameSlabAllocator s) as [a|]; cbn [of_option]; mcbn; [|done].
  destruct (SlabAllocator.freeBlock p a) as [[[] b]| | |]; mcbn; try done. apply (Hfr _ _ (with_slab b (memory s) s)).
Qed.

Lemma contiguous_frames_list n : forall i a b, list_independent (contiguous_frames n i a b).
Proof.
  induction n as [|n IH]; intros i a b l s; cbn [contiguous_frames]; [done|]. rewrite allocate_after_list.
  destruct (allocate_after a s) as [[c s1]| | |]; mcbn; try done. destruct (negb _); [|apply IH].
  rewrite freePhysicalMemory_list. by destruct (freePhysicalMemory a i s1).
Qed.

Lemma search_frames_list fuel n : forall a, list_independent (search_frames fuel n a).
Proof.
  induction fuel as [|fuel IH]; intros a l s; cbn [search_frames]; [done|]. rewrite contiguous_frames_list.
  destruct (contiguous_frames _ _ _ _ s) as [[[b|] s1]| | |]; mcbn; try done. apply IH.
Qed.

Lemma allocatePhysicalMemory_list n a : list_independent (allocatePhysicalMemory n a).
Proof.
  intros l s. unfold allocatePhysicalMemory, allocate_in_slab. change (slabAllocatorEnabled (with_list l s)) with (slabAllocatorEnabled s).
  assert (Hrest : forall s1, ('(b, s2) ← allocate_after a (with_list l s1); search_frames (frame_fuel s2) n b s2)
    = (fun r => (r.1, with_list l r.2)) <$> ('(b, s2) ← allocate_after a s1; search_frames (frame_fuel s2) n b s2)).
  { intros s1. rewrite allocate_after_list. destruct (allocate_after a s1) as [[b s2]| | |]; mcbn; try done. change (frame_fuel (with_list l s2)) with (frame_fuel s2). apply search_frames_list. }
  destruct (slabAllocatorEnabled s); mcbn; [|apply Hrest]. change (pageFrameSlabAllocator (with_list l s)) with (pageFrameSlabAllocator s).
  destruct (pageFrameSlabAllocator s) as [sl|]; cbn [of_option]; mcbn; [|done]. change (memory (with_list l s)) with (memory s).
  destruct (SlabAllocator.allocateBlock n sl (memory s)) as [[[b sl'] m]| | |]; mcbn; try done. destruct (b =? 0); mcbn; [|done]. apply (Hrest (with_slab sl' m s)).
Qed.

Lemma service_with_slab s a m : service_ok s -> service_ok (with_slab a m s).
Proof. intros []. by split. Qed.

Lemma service_enable s : service_ok s -> service_ok (enableSlabAllocator s).
Proof. intros []. by split. Qed.

Lemma slab_second_pool m : exists a a', SlabAllocator_new 0x1000000 = Ok a /\ SlabAllocator.allocateBlock 2 a m = Ok (0x1100000, a', m).
Proof.
  destruct (SlabAllocator_new 0x1000000) as [a| | |] eqn:E; vm_compute in E; try done. injection E as <-. eexists _, _. split; [done|]. vm_compute. done.
Qed.

(** The constructor takes 32 frames for the slab allocator, which manages 6
    MiB: with the slab allocator enabled, a request for two frames gets
    memory that the page frame allocator still counts as free and hands out
    again. *)
Theorem slab_memory_overlap f kernel sp hs mem l :
  let s := mkService false f None sp kernel hs mem in
  ArrayList.add 0 kernel (addressSpaces sp) = Ok (true, l) -> service_ok (with_list l s) ->
  4096 + 256 <= last_frame s -> (forall m, 4096 <= m <= last_frame s -> uses s m = 0) ->
  exists s1 s2 s3, MemoryService_new f kernel sp hs mem = Ok s1 /\
    allocatePhysicalMemory 2 MAX_DMA_ADDRESS (enableSlabAllocator s1) = Ok (0x1100000, s2) /\
    allocate_after 0x1100000 s2 = Ok (0x1100000, s3).
Proof.
  intros s Hl Hs Hlast Hfree.
  destruct (allocatePhysicalMemory_ok (with_list l s) 32 MAX_DMA_ADDRESS) as (k & s1 & E & O1 & K1 & Hk0 & Hk & Hrun & Hmin & U1 & _); [done|done|split; done|lia| |].
  { exists 4096. change (MAX_DMA_ADDRESS / 4096) with 4096. split; [lia|]. split; [change (last_frame (with_list l s)) with (last_frame s); lia|]. intros m Hm. apply Hfree. lia. }
  change (MAX_DMA_ADDRESS / 4096) with 4096 in *. change (last_frame (with_list l s)) with (last_frame s) in *.
  assert (k = 4096) as ->.
  { destruct (decide (k = 4096)); [done|]. exfalso. apply (Hmin 4096); [lia|]. split; [change (last_frame (with_list l s)) with (last_frame s); lia|]. intros m Hm. apply Hfree. lia. }
  change (4096 * 4096) with 0x1000000 in E. rewrite allocatePhysicalMemory_list in E.
  destruct (allocatePhysicalMemory 32 MAX_DMA_ADDRESS s) as [[r s0]| | |] eqn:E0; mcbn; try done. injection E as -> <-.
  unfold MemoryService_new. fold s. change (MAX_SLAB_SIZE / PAGESIZE) with 32. rewrite E0. mcbn.
  destruct (slab_second_pool (memory s0)) as (slabs & slabs' & -> & Hsl). mcbn.
  assert (addressSpaces (spaces s0) = addressSpaces sp) as Hal.
  { pose proof (allocatePhysicalMemory_list 32 MAX_DMA_ADDRESS (addressSpaces sp) s) as H. assert (with_list (addressSpaces sp) s = s) as Hs0 by (by destruct sp).
    rewrite Hs0, E0 in H. injection H as H. by rewrite H. }
  cbn [spaces with_slab]. rewrite Hal, Hl. mcbn. change (with_address_spaces _ _) with (with_slab slabs (memory s0) (with_list l s0)).
  set (s1 := with_slab slabs (memory s0) (with_list l s0)). set (s2 := with_slab slabs' (memory s0) (enableSlabAllocator s1)).
  exists s1, s2. assert (O2 : service_ok s2) by (by apply service_with_slab, service_enable, service_with_slab).
  destruct (allocate_after_ok s2 0x1100000 O2) as (a & s3 & E3 & _ & _ & _ & _ & Hc); [split; done|]. exists s3. split; [done|]. split.
  - unfold allocatePhysicalMemory, allocate_in_slab. cbn [slabAllocatorEnabled pageFrameSlabAllocator memory enableSlabAllocator s1 with_slab of_option]. mcbn. rewrite Hsl. done.
  - change (0x1100000 / 4096) with 4352 in Hc. assert (Hla : last_frame s2 = last_frame s) by (exact (keeps_last _ _ K1)). rewrite Hla in Hc.
    assert (Hu : uses s2 4352 = 0).
    { change (uses s2 4352) with (uses (with_list l s0) 4352). rewrite U1 by lia. rewrite decide_False by lia. apply Hfree. lia. }
    destruct Hc as [(n & _ & Hn & -> & _ & Hb & _)|(_ & Hno & _)]; [|exfalso; apply (Hno 4352); [lia|done]].
    assert (n = 4352) as -> by (destruct (decide (n = 4352)); [done|]; exfalso; apply (Hb 4352); [lia|done]). exact E3.
Qed.

Lemma free_frames_count s n : (forall m, 1 <= m <= n -> uses s m = 0) -> 0 <= n <= last_frame s -> n <= zlen (free_frames s).
Proof.
  intros Hu Hn. assert (seqZ 1 n ⊆+ free_frames s) as Hlen%submseteq_length.
  { apply NoDup_submseteq; [apply NoDup_seqZ|]. intros m Hm%elem_of_seqZ. apply elem_free_frames. split; [apply Hu; lia|lia]. }
  rewrite length_seqZ in Hlen. unfold zlen. lia.
Qed.
End spec.

(** ** A small machine *)

(** 64 MiB of memory and only the kernel's address space, in which nothing is mapped. *)
Definition boot_list : ArrayList Z := match ArrayList.add 0 1 ArrayList_empty with Ok (_, l) => l | _ => ArrayList_empty end.

Definition boot_spaces (l : ArrayList Z) (p : PagingAreaManager) : Spaces (P := PagingAreaManager) :=
  mkSpaces {[ 1 := mkSpace true 0 table_clear table_clear ]} l 1 ∅ p.

Definition boot (l : ArrayList Z) (f : TMM (M := PagingAreaManager)) : MemoryService (P := PagingAreaManager) :=
  mkService false f None (boot_spaces l (bitmapMemoryManager f)) 1 ∅ (fun _ => 0).

Lemma clear_unused i d : table_clear !! i = Some d -> d = clear.
Proof. unfold table_clear. by intros [-> _]%lookup_replicate. Qed.

Lemma boot_table_at l p q i : table_at (boot_spaces l p) q i = None.
Proof.
  unfold table_at, boot_spaces. cbn [VirtualAddressSpace.spaces]. destruct (decide (q = 1)) as [->|]; [|by rewrite lookup_singleton_ne].
  rewrite lookup_singleton_eq. cbn [mbind option_bind virtualPageDirectory]. destruct (table_clear !! i) as [d|] eqn:E; [|done]. cbn [mbind option_bind]. by rewrite (clear_unused _ _ E).
Qed.

Lemma boot_translation l f q v : translation (boot l f) q v = None.
Proof. unfold translation, translate. cbn [spaces boot]. by rewrite boot_table_at. Qed.

Lemma boot_frames l f : frames (boot l f) = f.
Proof. by destruct f. Qed.

Lemma boot_ok f :
  TableMemoryManager.wf f -> unlocked f -> TableMemoryManager.startAddress f = 0 -> TableMemoryManager.endAddress f = 0x3ffffff -> TableMemoryManager.blockSize f = 4096 ->
  entry f 0 <> 0 -> pts_end (bitmapMemoryManager f) = 0x2000000 -> service_ok (boot boot_list f).
Proof.
  intros W U Hs He Hb H0 Hend. split; rewrite ?boot_frames; try done.
  - split.
    + intros q sp. cbn. intros [_ <-]%lookup_singleton_Some. done.
    + intros q i a. cbn [spaces boot]. by rewrite boot_table_at.
    + intros q r i j a. cbn [spaces boot]. by rewrite boot_table_at.
    + intros q r i _ _ _. cbn [spaces boot]. by rewrite !boot_table_at.
    + split; [done|]. intros q. cbn [spaces boot boot_spaces VirtualAddressSpace.spaces addressSpaces]. rewrite lookup_singleton_is_Some. vm_compute (ArrayList.contents _). set_solver.
    + apply W.
    + intros q i v p. unfold directory_entries. cbn [spaces boot boot_spaces VirtualAddressSpace.spaces]. destruct (decide (q = 1)) as [->|]; [|by rewrite lookup_singleton_ne].
      rewrite lookup_singleton_eq. cbn [mbind option_bind virtualPageDirectory physicalPageDirectory]. destruct (table_clear !! i) as [d|] eqn:E; [|done]. cbn [mbind option_bind].
      apply clear_unused in E as ->. intros [= <- <-]. by left.
  - cbn [spaces boot boot_spaces pagingAreaManager]. rewrite Hend. done.
  - intros j _ _ (q & i & H). cbn [spaces boot] in H. by rewrite boot_table_at in H.
Qed.

(** The machine after booting, and with every frame in use. *)
Lemma boot_machine :
  exists f, service_ok (boot boot_list f) /\ last_frame (boot boot_list f) = 0x3fff /\ (forall n, 1 <= n <= 0x3fff -> uses (boot boot_list f) n = 0) /\ 16 <= slack (boot boot_list f).
Proof.
  destruct machine as (f & W & U & Es & Ee & Eb & E0 & En & Eend & Etodo). exists f. split; [by apply boot_ok|]. split; [unfold last_frame; cbn; by rewrite Ee|].
  unfold uses, slack. rewrite boot_frames. split; [done|]. cbn [spaces boot boot_spaces pagingAreaManager]. lia.
Qed.

Lemma full_machine :
  exists f, service_ok (boot boot_list f) /\ free_frames (boot boot_list f) = [] /\ 1 <= slack (boot boot_list f).
Proof.
  destruct machine as (f & W & U & Es & Ee & Eb & E0 & En & Eend & Etodo).
  destruct (setMemory_ok f 0 0x3ffffff 1 false W) as (f1 & _ & A); [lia|rewrite Ee; lia|exact U|].
  pose proof A as [W1 S1 E1 _ (_ & Gav & Gend & _)]. pose proof S1 as (S2 & S3 & S4 & _).
  pose proof W as [[G1 G2 G3 G4] _ _ _ _ C _ _ _ _ _]. rewrite Ee, Eb in C.
  assert (He : forall n, 0 <= n <= 0x3fff -> entry f1 n = 2).
  { intros n Hn. rewrite E1; [|lia|eapply Z.le_lt_trans; [|exact C]; apply Z.div_le_mono; [done|]; change (0x3ffffff / 4096) with 0x3fff; lia].
    rewrite Eb. unfold marked. change (0 / 4096) with 0. change (0x3ffffff / 4096) with 0x3fff. rewrite decide_True by lia. done. }
  exists f1. split.
  - apply boot_ok; [done|by eapply after_unlocked|congruence|congruence|congruence|rewrite He by lia; done|congruence].
  - unfold slack. rewrite boot_frames. cbn [spaces boot boot_spaces pagingAreaManager]. split; [|lia].
    destruct (free_frames (boot boot_list f1)) as [|n l] eqn:E; [done|]. exfalso.
    assert (n ∈ free_frames (boot boot_list f1)) as [Hn Hr]%elem_free_frames by (rewrite E; constructor). unfold last_frame in Hr. cbn [pageFrameAllocator boot] in Hr. rewrite S3, Ee in Hr.
    change (0x3ffffff / 4096) with 0x3fff in Hr. unfold uses in Hn. rewrite boot_frames, He in Hn by lia. done.
Qed.

Lemma map_pages_witness :
  exists f s' fs, map 0x400000 0x9000000 3 7 (boot boot_list f) = Ok s' /\ zlen fs = 3 /\ NoDup fs /\
    forall i g, fs !! i = Some g -> translation s' 1 (0x9000000 + Z.of_nat i * 4096) = Some (set (g * 4096) 7).
Proof.
  destruct boot_machine as (f & Hs & Hl & Hu & Hsl).
  destruct (map_pages_spec 0x400000 (boot boot_list f) 0x9000000 3 7 Hs) as (s' & fs & E & _ & Hlen & Hnd & _ & _ & Hp & _);
    [split; done|lia|lia|lia|done|lia|apply free_frames_count; [intros; apply Hu; lia|lia]| |].
  - intros i Hi. rewrite boot_translation. split; [unfold KERNEL_END; lia|done].
  - exists f, s', fs. done.
Defined.

Lemma map_unmap_witness :
  exists f s1 r s2, map 0x400000 0x9000000 3 7 (boot boot_list f) = Ok s1 /\ unmap 0x9000000 3 8 s1 = Ok (r, s2) /\ translation s2 1 0x9001000 = None.
Proof.
  destruct boot_machine as (f & Hs & Hl & Hu & Hsl).
  destruct (map_unmap_roundtrip 0x400000 (boot boot_list f) 0x9000000 3 7 8 Hs) as (s1 & r & s2 & E1 & E2 & _ & _ & _ & Ht);
    [split; done|done|done|lia|lia|done|lia|apply free_frames_count; [intros; apply Hu; lia|lia]|by left|intros; apply boot_translation|].
  exists f, s1, r, s2. split; [done|]. split; [done|]. rewrite Ht by (unfold KERNEL_END; lia). apply boot_translation.
Defined.

Lemma handlePageFault_witness :
  exists f s' g, handlePageFault 0x400000 0x9000abc 2 (boot boot_list f) = Ok s' /\ translation s' 1 0x9000000 = Some (set (g * 4096) 7) /\ user_access (spaces s') 1 0x9000abc = true.
Proof.
  destruct boot_machine as (f & Hs & Hl & Hu & Hsl).
  pose proof (handlePageFault_spec 0x400000 (boot boot_list f) 0x9000abc 2 Hs) as H. rewrite boot_translation in H.
  destruct H as (s' & g & E & _ & _ & _ & _ & Ht & Hx); [split; done|split; done|done|lia| |].
  - intros E. assert (1 ∈ free_frames (boot boot_list f)) as Hin by (apply elem_free_frames; split; [apply Hu; lia|lia]). rewrite E in Hin. by apply not_elem_of_nil in Hin.
  - exists f, s', g. split; [done|]. split; [|exact Hx]. rewrite Ht by lia. rewrite decide_True; [done|]. split_and!; [done|eexists; reflexivity|by left].
Defined.

Lemma map_without_frames_witness :
  exists f s', handlePageFault 0x400000 0x9000abc 0 (boot boot_list f) = Ok s' /\ translation s' 1 0x9000abc = Some (set 0 7).
Proof.
  destruct full_machine as (f & Hs & Hfree & Hsl).
  destruct (map_without_frames 0x400000 (boot boot_list f) 0x9000abc Hs) as (s' & E & Ht); [split; done|split; done|done|done|done|done|apply boot_translation|].
  exists f, s'. done.
Defined.

Lemma allocatePhysicalMemory_witness :
  exists f s', allocatePhysicalMemory 40 0x1000000 (boot boot_list f) = Ok (0x1000000, s').
Proof.
  destruct boot_machine as (f & Hs & Hl & Hu & Hsl).
  assert (Hrun : free_run (boot boot_list f) 4096 40) by (split; [lia|intros; apply Hu; lia]).
  destruct (allocatePhysicalMemory_spec (boot boot_list f) 40 0x1000000 Hs) as (k & s' & E & _ & _ & Hk & _ & Hmin & _); [done|split; done|lia|by exists 4096|].
  change (0x1000000 / 4096) with 4096 in *. exists f, s'. assert (k = 4096) as ->; [|done]. destruct (decide (k = 4096)); [done|]. exfalso. by apply (Hmin 4096); [lia|].
Defined.

Lemma slab_memory_overlap_witness :
  exists f s1 s2 s3, MemoryService_new f 1 (boot_spaces ArrayList_empty (bitmapMemoryManager f)) ∅ (fun _ => 0) = Ok s1 /\
    allocatePhysicalMemory 2 MAX_DMA_ADDRESS (enableSlabAllocator s1) = Ok (0x1100000, s2) /\ allocate_after 0x1100000 s2 = Ok (0x1100000, s3).
Proof.
  destruct boot_machine as (f & Hs & Hl & Hu & Hsl). exists f.
  apply (slab_memory_overlap f 1 (boot_spaces ArrayList_empty (bitmapMemoryManager f)) ∅ (fun _ => 0) boot_list); [reflexivity|exact Hs| |].
  - change (last_frame _) with (last_frame (boot boot_list f)). lia.
  - intros m Hm. change (last_frame _) with (last_frame (boot boot_list f)) in Hm. apply Hu. lia.
Defined.
End MemoryService.
