(* ===== verification/Time.v ===== *)
(** * Time.v: time stamps and dates

    [lib/util/time/Timestamp] and [lib/util/time/Date]. A time stamp is a number of
    seconds and a fraction in nanoseconds, two 32-bit numbers; a date converts from
    and to the seconds since 1970. *)

From S2P Require Import Prelude Bits.

(** ** Timestamp *)
Module Timestamp.

Record Timestamp := mk { seconds : Z; fraction : Z }.

Definition NANOSECONDS_PER_SECOND : Z := 1000000000.

Definition ofSeconds (seconds : Z) : Timestamp := mk seconds 0.

Definition ofMilliseconds (milliseconds : Z) : Timestamp :=
  let seconds := milliseconds / 1000 in
  let fraction := u64 ((milliseconds mod 1000) * 1000000) in
  mk (u32 seconds) (u32 fraction).

Definition ofMicroseconds (microseconds : Z) : Timestamp :=
  let seconds := microseconds / 1000000 in
  let fraction := u64 ((microseconds mod 1000000) * 1000) in
  mk (u32 seconds) (u32 fraction).

Definition ofNanoseconds (nanoseconds : Z) : Timestamp :=
  let seconds := nanoseconds / 1000000000 in
  let fraction := nanoseconds mod 1000000000 in
  mk (u32 seconds) (u32 fraction).

Definition plus (t other : Timestamp) : Timestamp :=
  let ret :=
    if u32 (fraction t + fraction other) <? NANOSECONDS_PER_SECOND
    then mk (u32 (seconds t + seconds other)) (u32 (fraction t + fraction other))
    else mk (u32 (u32 (seconds t + seconds other) + 1)) (u32 (u32 (fraction t + fraction other) - NANOSECONDS_PER_SECOND)) in
  if seconds ret <? seconds t then mk UINT32_MAX UINT32_MAX else ret.

Definition minus (t other : Timestamp) : Timestamp :=
  let ret :=
    if u32 (fraction t - fraction other) <? fraction t
    then mk (u32 (seconds t - seconds other)) (u32 (fraction t - fraction other))
    else mk (u32 (u32 (seconds t - seconds other) - 1)) (u32 (NANOSECONDS_PER_SECOND - u32 (fraction other - fraction t))) in
  if seconds ret >? seconds t then mk 0 0 else ret.

Definition plus_assign (t other : Timestamp) : Timestamp :=
  let oldSeconds := seconds t in
  let t' :=
    if u32 (fraction t + fraction other) <? NANOSECONDS_PER_SECOND
    then mk (u32 (seconds t + seconds other)) (u32 (fraction t + fraction other))
    else mk (u32 (seconds t + u32 (seconds other + 1))) (u32 (u32 (fraction t + fraction other) - NANOSECONDS_PER_SECOND)) in
  if seconds t' <? oldSeconds then mk UINT32_MAX UINT32_MAX else t'.

Definition minus_assign (t other : Timestamp) : Timestamp :=
  let oldSeconds := seconds t in
  let t' :=
    if u32 (fraction t - fraction other) <? fraction t
    then mk (u32 (seconds t - seconds other)) (u32 (fraction t - fraction other))
    else mk (u32 (seconds t - u32 (seconds other - 1))) (u32 (NANOSECONDS_PER_SECOND - u32 (fraction other - fraction t))) in
  if seconds t' >? oldSeconds then mk 0 0 else t'.

Definition gt (t other : Timestamp) : bool :=
  if seconds t >? seconds other then true else (seconds t =? seconds other) && (fraction t >? fraction other).
Definition ge (t other : Timestamp) : bool :=
  if seconds t >? seconds other then true else (seconds t =? seconds other) && (fraction t >=? fraction other).
Definition lt (t other : Timestamp) : bool :=
  if seconds t <? seconds other then true else (seconds t =? seconds other) && (fraction t <? fraction other).
Definition le (t other : Timestamp) : bool :=
  if seconds t <? seconds other then true else (seconds t =? seconds other) && (fraction t <=? fraction other).

(** The multiplications are 32-bit: both operands are [uint32_t] or [int]. *)
Definition toNanoseconds (t : Timestamp) : Z := u32 (u32 (seconds t * 1000000000) + fraction t).
Definition toMicroseconds (t : Timestamp) : Z := u32 (u32 (seconds t * 1000000) + fraction t / 1000).
Definition toMilliseconds (t : Timestamp) : Z := u32 (u32 (seconds t * 1000) + fraction t / 1000000).
Definition toSeconds (t : Timestamp) : Z := seconds t.
Definition toMinutes (t : Timestamp) : Z := seconds t / 60.
Definition toHours (t : Timestamp) : Z := seconds t / 3600.
Definition toDays (t : Timestamp) : Z := seconds t / 86400.
Definition toYears (t : Timestamp) : Z := seconds t / 31536000.
Definition reset (t : Timestamp) : Timestamp := mk 0 0.

(** *** The time in nanoseconds *)

Definition wf (t : Timestamp) : Prop := in_u 32 (seconds t) /\ 0 <= fraction t < NANOSECONDS_PER_SECOND.
Definition nanos (t : Timestamp) : Z := seconds t * NANOSECONDS_PER_SECOND + fraction t.

Ltac ts := unfold wf, in_u, nanos, NANOSECONDS_PER_SECOND, UINT32_MAX in *; cbn [seconds fraction] in *.

(** The comparisons order time stamps by their time in nanoseconds. *)
Theorem timestamp_order t other :
  wf t -> wf other ->
  lt t other = (nanos t <? nanos other) /\ le t other = (nanos t <=? nanos other) /\
  gt t other = (nanos other <? nanos t) /\ ge t other = (nanos other <=? nanos t).
Proof.
  destruct t as [s f], other as [s' f']. unfold lt, le, gt, ge. ts. intros [Hs Hf] [Hs' Hf']. rewrite !Z.gtb_ltb, Z.geb_leb.
  split_and!; cmp_cases; done.
Qed.

Lemma timestamp_order_witness : lt (mk 3 999999999) (mk 4 0) = true.
Proof. rewrite (proj1 (timestamp_order (mk 3 999999999) (mk 4 0) ltac:(ts; lia) ltac:(ts; lia))). reflexivity. Defined.

(** Operator+ and operator+= add the times in nanoseconds when the sum fits
    and saturate when it does not. *)
Theorem timestamp_plus t other :
  wf t -> wf other ->
  plus_assign t other = plus t other /\
  (nanos t + nanos other < 2 ^ 32 * NANOSECONDS_PER_SECOND -> wf (plus t other) /\ nanos (plus t other) = nanos t + nanos other) /\
  (2 ^ 32 * NANOSECONDS_PER_SECOND <= nanos t + nanos other -> seconds other < UINT32_MAX -> plus t other = mk UINT32_MAX UINT32_MAX).
Proof.
  destruct t as [s f], other as [s' f']. unfold plus, plus_assign. ts. intros [Hs Hf] [Hs' Hf'].
  replace (u32 (f + f')) with (f + f') by (unwrap; lia).
  assert (E : u32 (s + u32 (s' + 1)) = u32 (u32 (s + s') + 1)).
  { unfold u32. rewrite wrap_add_l, wrap_add_r. f_equal. lia. }
  rewrite E. split; [done|].
  assert (Hw : forall x, 0 <= x < 2 ^ 33 -> (x < 2 ^ 32 /\ u32 x = x) \/ (2 ^ 32 <= x /\ u32 x = x - 2 ^ 32)).
  { intros x Hx. destruct (decide (x < 2 ^ 32)); [left; split; [done|]; unwrap; lia|right]. split; [lia|]. unfold u32, wrap.
    replace x with (x - 2 ^ 32 + 1 * 2 ^ 32) at 1 by lia. rewrite Z.mod_add, Z.mod_small by lia. done. }
  unfold u32 in *. rewrite wrap_add_l in *.
  split.
  - intros Hlt. destruct (Z.ltb_spec (f + f') 1000000000); cbn [seconds fraction].
    + rewrite wrap_small by (unfold in_u; lia). destruct (Z.ltb_spec (s + s') s); [lia|]. cbn [seconds fraction]. lia.
    + rewrite (wrap_small 32 (s + s' + 1)) by (unfold in_u; lia). rewrite (wrap_small 32 (f + f' - 1000000000)) by (unfold in_u; lia).
      destruct (Z.ltb_spec (s + s' + 1) s); [lia|]. cbn [seconds fraction]. lia.
  - intros Hge Hs2. destruct (Z.ltb_spec (f + f') 1000000000); cbn [seconds fraction].
    + destruct (Hw (s + s') ltac:(lia)) as [[? _]|[Hx ->]]; [lia|]. by destruct (Z.ltb_spec (s + s' - 2 ^ 32) s); [|lia].
    + destruct (Hw (s + s' + 1) ltac:(lia)) as [[? _]|[Hx ->]]; [lia|]. by destruct (Z.ltb_spec (s + s' + 1 - 2 ^ 32) s); [|lia].
Qed.

Lemma timestamp_plus_witness : plus (mk 1 600000000) (mk 2 700000000) = mk 4 300000000 /\
  nanos (plus (mk 1 600000000) (mk 2 700000000)) = 4300000000.
Proof.
  destruct (timestamp_plus (mk 1 600000000) (mk 2 700000000)) as (_ & H & _); [ts; lia|ts; lia|].
  split; [reflexivity|]. destruct H as [_ ->]; [ts; lia|]. reflexivity.
Defined.

(** Operator- subtracts the times in nanoseconds when the subtrahend has a
    fraction; with a zero fraction it gives a fraction of a second or more,
    or 0 for equal seconds, and operator-= is two seconds off when it
    borrows. *)
Theorem timestamp_minus t other :
  wf t -> wf other -> nanos other <= nanos t ->
  (0 < fraction other -> wf (minus t other) /\ nanos (minus t other) = nanos t - nanos other) /\
  (fraction other = 0 -> seconds other < seconds t ->
     nanos (minus t other) = nanos t - nanos other /\ fraction (minus t other) = NANOSECONDS_PER_SECOND + fraction t) /\
  (fraction other = 0 -> seconds other = seconds t -> seconds t < UINT32_MAX -> minus t other = mk 0 0) /\
  (0 < fraction other -> fraction t < fraction other -> 0 < seconds other ->
     nanos (minus_assign t other) = nanos t - nanos other + 2 * NANOSECONDS_PER_SECOND).
Proof.
  destruct t as [s f], other as [s' f']. unfold minus, minus_assign. ts. intros [Hs Hf] [Hs' Hf'] Hle.
  assert (Hd : 0 <= s - s') by lia. rewrite !Z.gtb_ltb. split_and!.
  - intros Hf0. destruct (decide (f' <= f)).
    + replace (u32 (f - f')) with (f - f') by (unwrap; lia). destruct (Z.ltb_spec (f - f') f); [|lia]. cbn [seconds fraction].
      replace (u32 (s - s')) with (s - s') by (unwrap; lia). destruct (Z.ltb_spec s (s - s')); [lia|]. cbn [seconds fraction]. lia.
    + assert (Hw : u32 (f - f') = f - f' + 2 ^ 32).
      { unfold u32, wrap. replace (f - f') with (f - f' + 2 ^ 32 + (-1) * 2 ^ 32) at 1 by lia. rewrite Z.mod_add, Z.mod_small by lia. done. }
      rewrite Hw. destruct (Z.ltb_spec (f - f' + 2 ^ 32) f); [lia|]. cbn [seconds fraction].
      replace (u32 (f' - f)) with (f' - f) by (unwrap; lia). replace (u32 (1000000000 - (f' - f))) with (1000000000 - (f' - f)) by (unwrap; lia).
      replace (u32 (s - s')) with (s - s') by (unwrap; lia). replace (u32 (s - s' - 1)) with (s - s' - 1) by (unwrap; lia).
      destruct (Z.ltb_spec s (s - s' - 1)); [lia|]. cbn [seconds fraction]. lia.
  - intros -> Hlt. replace (u32 (f - 0)) with f by (unwrap; lia). rewrite Z.ltb_irrefl. cbn [seconds fraction].
    assert (Hw : u32 (1000000000 - u32 (0 - f)) = 1000000000 + f).
    { unfold u32. rewrite wrap_sub_r. rewrite wrap_small; [lia|unfold in_u; lia]. }
    rewrite Hw. replace (u32 (s - s')) with (s - s') by (unwrap; lia). replace (u32 (s - s' - 1)) with (s - s' - 1) by (unwrap; lia).
    destruct (Z.ltb_spec s (s - s' - 1)); [lia|]. cbn [seconds fraction]. lia.
  - intros -> -> Hmax. replace (u32 (f - 0)) with f by (unwrap; lia). rewrite Z.ltb_irrefl. cbn [seconds fraction].
    rewrite Z.sub_diag. change (u32 (u32 0 - 1)) with 4294967295. by destruct (Z.ltb_spec s 4294967295); [|lia].
  - intros Hf0 Hlt Hs0. assert (Hw : u32 (f - f') = f - f' + 2 ^ 32).
    { unfold u32, wrap. replace (f - f') with (f - f' + 2 ^ 32 + (-1) * 2 ^ 32) at 1 by lia. rewrite Z.mod_add, Z.mod_small by lia. done. }
    rewrite Hw. destruct (Z.ltb_spec (f - f' + 2 ^ 32) f); [lia|]. cbn [seconds fraction].
    replace (u32 (f' - f)) with (f' - f) by (unwrap; lia). replace (u32 (1000000000 - (f' - f))) with (1000000000 - (f' - f)) by (unwrap; lia).
    replace (u32 (s' - 1)) with (s' - 1) by (unwrap; lia). replace (u32 (s - (s' - 1))) with (s - (s' - 1)) by (unwrap; lia).
    destruct (Z.ltb_spec s (s - (s' - 1))); [lia|]. cbn [seconds fraction]. lia.
Qed.

(** 5.3 s - 5.0 s gives 0, and 7.1 s -= 5.2 s gives 3.9 s. *)
Lemma timestamp_minus_witness : minus (mk 5 300000000) (mk 5 0) = mk 0 0 /\
  nanos (minus_assign (mk 7 100000000) (mk 5 200000000)) = 3900000000.
Proof.
  destruct (timestamp_minus (mk 5 300000000) (mk 5 0)) as (_ & _ & H & _); [ts; lia|ts; lia|ts; lia|].
  destruct (timestamp_minus (mk 7 100000000) (mk 5 200000000)) as (_ & _ & _ & H'); [ts; lia|ts; lia|ts; lia|].
  split; [by apply H|]. rewrite H'; [reflexivity|ts; lia|ts; lia|ts; lia].
Defined.

(** [ofNanoseconds] keeps the time; [toNanoseconds] gives it modulo [2^32] only, although
    its result has 64 bits, since both factors of its product have 32. *)
Theorem timestamp_conversions n :
  in_u 64 n -> n / 1000000000 < 2 ^ 32 ->
  wf (ofNanoseconds n) /\ nanos (ofNanoseconds n) = n /\ toNanoseconds (ofNanoseconds n) = u32 n.
Proof.
  unfold ofNanoseconds, toNanoseconds. ts. intros Hn Hmax. pose proof (Z.div_pos n 1000000000 ltac:(lia) ltac:(lia)).
  pose proof (Z.mod_pos_bound n 1000000000 eq_refl). pose proof (Z.div_mod n 1000000000 ltac:(lia)).
  replace (u32 (n / 1000000000)) with (n / 1000000000) by (unwrap; lia).
  replace (u32 (n mod 1000000000)) with (n mod 1000000000) by (unwrap; lia). split; [lia|]. split; [lia|].
  unfold u32. rewrite wrap_add_l. f_equal. lia.
Qed.

(** Five seconds are 5 000 000 000 ns; [toNanoseconds] gives that number modulo [2^32]. *)
Lemma timestamp_conversions_witness : nanos (ofNanoseconds 5000000000) = 5000000000 /\ toNanoseconds (ofNanoseconds 5000000000) = 705032704.
Proof.
  destruct (timestamp_conversions 5000000000) as (_ & H1 & H2); [ts; lia|reflexivity|]. split; [exact H1|]. rewrite H2. reflexivity.
Defined.

End Timestamp.

(** ** Date *)
Module Date.

Record Date := mk { seconds : Z; minutes : Z; hours : Z; dayOfMonth : Z; month : Z; year : Z }.

Definition op_eq (d date : Date) : bool :=
  (seconds d =? seconds date) && (minutes d =? minutes date) && (hours d =? hours date) &&
  (dayOfMonth d =? dayOfMonth date) && (month d =? month date) && (year d =? year date).

Definition op_ne (d date : Date) : bool :=
  negb (seconds d =? seconds date) || negb (minutes d =? minutes date) || negb (hours d =? hours date) ||
  negb (dayOfMonth d =? dayOfMonth date) || negb (month d =? month date) || negb (year d =? year date).

Definition setSeconds (d : Date) (v : Z) := mk v (minutes d) (hours d) (dayOfMonth d) (month d) (year d).
Definition setMinutes (d : Date) (v : Z) := mk (seconds d) v (hours d) (dayOfMonth d) (month d) (year d).
Definition setHours (d : Date) (v : Z) := mk (seconds d) (minutes d) v (dayOfMonth d) (month d) (year d).
Definition setDayOfMonth (d : Date) (v : Z) := mk (seconds d) (minutes d) (hours d) v (month d) (year d).
Definition setMonth (d : Date) (v : Z) := mk (seconds d) (minutes d) (hours d) (dayOfMonth d) v (year d).
Definition setYear (d : Date) (v : Z) := mk (seconds d) (minutes d) (hours d) (dayOfMonth d) (month d) v.

(** The parameter is an [int16_t]: the callers' years are converted to it. *)
Definition getLengthOfYear (year : Z) : Z :=
  let year := s16 year in
  if Z.rem year 4 =? 0 then
    if Z.rem year 100 =? 0 then
      if Z.rem year 400 =? 0 then 366 else 365
    else 366
  else 365.

Definition monthLength : list Z := [31; 0; 31; 30; 31; 30; 31; 31; 30; 31; 30; 31].

Definition getLengthOfMonth (month year : Z) : outcome Z :=
  let month := u8 month in
  if month =? 2 then Ok (if getLengthOfYear year =? 366 then 29 else 28)
  else aget monthLength (month - 1).

Definition secPerDay : Z := 86400.

(** The [while] loops of [Date(int64_t)], one per field. *)
Definition year_loop (unixTime : Z) : outcome (Z * Z) :=
  while (Z.to_nat (unixTime / 31536000)) (fun '(t, y) => getLengthOfYear y * secPerDay <=? t)
    (fun '(t, y) => Ok (t - getLengthOfYear y * secPerDay, u16 (y + 1))) (unixTime, 1970).

Fixpoint month_loop (fuel : nat) (t m year : Z) : outcome (Z * Z) :=
  l ← getLengthOfMonth m year;
  if l * secPerDay <=? t then
    match fuel with
    | O => Loops
    | S fuel => month_loop fuel (t - l * secPerDay) (u8 (m + 1)) year
    end
  else Ok (t, m).

(** [while (t >= unit) { t -= unit; f++; }] on a [uint8_t] field. *)
Definition field_loop (unit t start : Z) : outcome (Z * Z) :=
  while (Z.to_nat (t / unit)) (fun '(t, f) => unit <=? t) (fun '(t, f) => Ok (t - unit, u8 (f + 1))) (t, start).

Definition ofUnixTime (unixTime : Z) : outcome Date :=
  if 0 <? unixTime then
    '(t, y) ← year_loop unixTime;
    '(t, m) ← month_loop 256 t 1 y;
    '(t, d) ← field_loop secPerDay t 1;
    '(t, h) ← field_loop 3600 t 0;
    '(t, mi) ← field_loop 60 t 0;
    Ok (mk (u8 t) mi h d m y)
  else Ok (mk 0 0 0 1 1 1970).

Definition getUnixTime (d : Date) : outcome Z :=
  if year d <? 1970 then Ok 0
  else
    ret ← for_up (Z.to_nat (year d - 1970)) 1970 (fun i ret => Ok (s64 (ret + getLengthOfYear i * secPerDay))) 0;
    ret ← for_up (Z.to_nat (month d - 1)) 1 (fun i ret => l ← getLengthOfMonth i (year d); Ok (s64 (ret + l * secPerDay))) ret;
    let ret := s64 (ret + (dayOfMonth d - 1) * secPerDay) in
    let ret := s64 (ret + hours d * 3600) in
    let ret := s64 (ret + minutes d * 60) in
    Ok (s64 (ret + seconds d)).

Definition getDayOfYear (d : Date) : outcome Z :=
  ret ← for_up (Z.to_nat (month d)) 0 (fun i ret => l ← getLengthOfMonth i (year d); Ok (u16 (ret + l))) 0;
  Ok (u16 (ret + dayOfMonth d)).

Definition getWeekday (d : Date) : outcome Z :=
  t ← getUnixTime d;
  Ok (s8 (Z.rem (3 + Z.quot (s32 t) secPerDay) 7)).

Definition getWeekOfYear (d : Date) : outcome Z :=
  firstWeekday ← getWeekday (mk 0 0 0 1 1 (year d));
  day ← getDayOfYear d;
  Ok (u8 (Z.quot (day + firstWeekday) 7)).

Definition getWeekOfYearSunday (d : Date) : outcome Z :=
  firstWeekday ← getWeekday (mk 0 0 0 1 1 (year d));
  let firstWeekday := if firstWeekday =? 6 then 0 else s8 (firstWeekday + 1) in
  day ← getDayOfYear d;
  Ok (u8 (Z.quot (day + firstWeekday) 7)).

Example unix_example : ofUnixTime 951868799 = Ok (mk 59 59 23 29 2 2000).
Proof. vm_compute. reflexivity. Qed.


(** *** The calendar *)

(** [f i + f (i + 1) + ...], [n] summands *)
Fixpoint sum_from (f : Z -> Z) (n : nat) (i : Z) : Z :=
  match n with O => 0 | S n => f i + sum_from f n (i + 1) end.

Definition yearSecs (y : Z) : Z := getLengthOfYear y * secPerDay.
Definition monthSecs (y m : Z) : Z := match getLengthOfMonth m y with Ok l => l * secPerDay | _ => 0 end.

(** Seconds before the year [y], and before the month [m] of the year [y]. *)
Definition yearStart (y : Z) : Z := sum_from yearSecs (Z.to_nat (y - 1970)) 1970.
Definition monthStart (y m : Z) : Z := sum_from (monthSecs y) (Z.to_nat (m - 1)) 1.

Definition valid (d : Date) : Prop :=
  1970 <= year d < 65536 /\ 1 <= month d <= 12 /\
  1 <= dayOfMonth d /\ (dayOfMonth d - 1) * secPerDay < monthSecs (year d) (month d) /\
  0 <= hours d < 24 /\ 0 <= minutes d < 60 /\ 0 <= seconds d < 60.

Definition unix (d : Date) : Z :=
  yearStart (year d) + monthStart (year d) (month d) + (dayOfMonth d - 1) * secPerDay +
  hours d * 3600 + minutes d * 60 + seconds d.

Lemma sum_from_snoc f n i : sum_from f (S n) i = sum_from f n i + f (i + Z.of_nat n).
Proof.
  revert i. induction n as [|n IH]; intros i; [cbn [sum_from]; change (Z.of_nat 0) with 0; rewrite (Z.add_0_r i); lia|].
  change (sum_from f (S (S n)) i) with (f i + sum_from f (S n) (i + 1)). rewrite IH. cbn [sum_from].
  replace (i + 1 + Z.of_nat n) with (i + Z.of_nat (S n)) by lia. lia.
Qed.

Lemma yearStart_succ y : 1970 <= y -> yearStart (y + 1) = yearStart y + yearSecs y.
Proof.
  intros Hy. unfold yearStart. replace (Z.to_nat (y + 1 - 1970)) with (S (Z.to_nat (y - 1970))) by lia.
  rewrite sum_from_snoc. f_equal. f_equal. lia.
Qed.

Lemma monthStart_succ y m : 1 <= m -> monthStart y (m + 1) = monthStart y m + monthSecs y m.
Proof.
  intros Hy. unfold monthStart. replace (Z.to_nat (m + 1 - 1)) with (S (Z.to_nat (m - 1))) by lia.
  rewrite sum_from_snoc. f_equal. f_equal. lia.
Qed.

Lemma getLengthOfYear_cases y : getLengthOfYear y = 365 \/ getLengthOfYear y = 366.
Proof. unfold getLengthOfYear. repeat case_match; auto. Qed.

Lemma yearSecs_bound y : 31536000 <= yearSecs y <= 31622400.
Proof. unfold yearSecs, secPerDay. destruct (getLengthOfYear_cases y) as [-> | ->]; lia. Qed.

Lemma yearStart_mono y y' : 1970 <= y <= y' -> yearStart y + 31536000 * (y' - y) <= yearStart y' <= yearStart y + 31622400 * (y' - y).
Proof.
  intros [Hy Hle]. replace y' with (y + Z.of_nat (Z.to_nat (y' - y))) by lia. generalize (Z.to_nat (y' - y)) as n. induction n as [|n IH].
  - rewrite Z.add_0_r. lia.
  - replace (y + Z.of_nat (S n)) with (y + Z.of_nat n + 1) by lia. rewrite yearStart_succ by lia. pose proof (yearSecs_bound (y + Z.of_nat n)). lia.
Qed.

Lemma yearStart_bound y : 1970 <= y < 65536 -> 0 <= yearStart y < 2 ^ 41.
Proof. intros H. pose proof (yearStart_mono 1970 y ltac:(lia)). change (yearStart 1970) with 0 in *. lia. Qed.

(** The twelve months of a year make up the year. *)
Lemma months_of_year y : monthStart y 13 = yearSecs y.
Proof.
  unfold monthStart, yearSecs. cbn [Z.to_nat Z.sub sum_from]. unfold monthSecs, getLengthOfMonth.
  change (Z.to_nat (13 - 1)) with 12%nat. cbn -[getLengthOfYear Z.mul Z.add Z.eqb].
  destruct (getLengthOfYear_cases y) as [-> | ->]; reflexivity.
Qed.

Lemma month_cases (P : Z -> Prop) : Forall P [1;2;3;4;5;6;7;8;9;10;11;12] -> forall m, 1 <= m <= 12 -> P m.
Proof.
  rewrite Forall_forall. intros H m Hm. apply H. rewrite list_elem_of_In. cbn. lia.
Qed.

Lemma getLengthOfMonth_ok y m : 1 <= m <= 12 -> exists l, getLengthOfMonth m y = Ok l /\ 28 <= l <= 31.
Proof.
  revert m. apply month_cases. repeat constructor;
    unfold getLengthOfMonth; cbn -[getLengthOfYear]; try destruct (getLengthOfYear y =? 366); eexists; (split; [done|lia]).
Qed.

Lemma monthSecs_ok y m : 1 <= m <= 12 -> exists l, getLengthOfMonth m y = Ok l /\ monthSecs y m = l * secPerDay /\ 28 <= l <= 31.
Proof. intros Hm. destruct (getLengthOfMonth_ok y m Hm) as (l & Hl & Hb). exists l. unfold monthSecs. rewrite Hl. auto. Qed.

Lemma monthStart_mono y m m' : 1 <= m <= m' -> m' <= 13 -> monthStart y m + 2419200 * (m' - m) <= monthStart y m' <= monthStart y m + 2678400 * (m' - m).
Proof.
  intros [Hy Hle]. replace m' with (m + Z.of_nat (Z.to_nat (m' - m))) by lia. generalize (Z.to_nat (m' - m)) as n. induction n as [|n IH]; intros H13.
  - rewrite Z.add_0_r. lia.
  - replace (m + Z.of_nat (S n)) with (m + Z.of_nat n + 1) by lia. rewrite monthStart_succ by lia.
    destruct (monthSecs_ok y (m + Z.of_nat n)) as (l & _ & -> & ?); [lia|]. unfold secPerDay. lia.
Qed.

Lemma monthStart_bound y m : 1 <= m <= 12 -> 0 <= monthStart y m < 2 ^ 25.
Proof. intros H. pose proof (monthStart_mono y 1 m ltac:(lia) ltac:(lia)). change (monthStart y 1) with 0 in *. lia. Qed.

Lemma getUnixTime_unix d : valid d -> getUnixTime d = Ok (unix d).
Proof.
  intros (Hy & Hm & Hd & Hdm & Hh & Hmi & Hs). unfold getUnixTime, unix. destruct (Z.ltb_spec (year d) 1970); [lia|].
  destruct (for_up_inv (fun i r => r = yearStart i) (fun i ret => Ok (s64 (ret + getLengthOfYear i * secPerDay))) (Z.to_nat (year d - 1970)) 1970 0)
    as (r & -> & ->); [reflexivity| |].
  { intros k r Hk ->. eexists. split; [done|]. rewrite yearStart_succ by lia. pose proof (yearStart_bound k ltac:(lia)).
    pose proof (yearSecs_bound k). unfold yearSecs in *. unwrap. done. }
  mcbn. replace (1970 + Z.of_nat (Z.to_nat (year d - 1970))) with (year d) by lia. pose proof (yearStart_bound _ Hy).
  destruct (for_up_inv (fun i r => r = yearStart (year d) + monthStart (year d) i)
    (fun i ret => l ← getLengthOfMonth i (year d); Ok (s64 (ret + l * secPerDay))) (Z.to_nat (month d - 1)) 1 (yearStart (year d)))
    as (r & -> & ->); [change (monthStart (year d) 1) with 0; lia| |].
  { intros k r Hk ->. destruct (monthSecs_ok (year d) k) as (l & -> & Hl & Hb); [lia|]. mcbn. eexists. split; [done|].
    rewrite monthStart_succ, Hl by lia. pose proof (monthStart_bound (year d) k ltac:(lia)). unfold secPerDay in *. unwrap. lia. }
  mcbn. replace (1 + Z.of_nat (Z.to_nat (month d - 1))) with (month d) by lia. pose proof (monthStart_bound (year d) _ Hm).
  destruct (monthSecs_ok (year d) (month d) Hm) as (l & _ & Hl & Hb). rewrite Hl in Hdm. unfold secPerDay in *.
  f_equal. unfold s64. repeat first [rewrite swrap_add_l | rewrite <- Z.add_assoc]. unwrap. lia.
Qed.

(** A number lies between the starts of one year only, and of one month only. *)
Lemma interval_unique (f : Z -> Z) lo hi x y t :
  (forall a b, lo <= a <= b -> b <= hi + 1 -> f a <= f b) ->
  lo <= x <= hi -> lo <= y <= hi -> f x <= t < f (x + 1) -> f y <= t < f (y + 1) -> x = y.
Proof.
  intros Hmono Hx Hy Hft Hft'. destruct (Z.lt_trichotomy x y) as [?|[?|?]]; [|done|].
  - pose proof (Hmono (x + 1) y ltac:(lia) ltac:(lia)). lia.
  - pose proof (Hmono (y + 1) x ltac:(lia) ltac:(lia)). lia.
Qed.

Lemma unix_inj d d' : valid d -> valid d' -> unix d = unix d' -> d = d'.
Proof.
  unfold unix, valid. destruct d as [s mi h dd m y], d' as [s' mi' h' dd' m' y']. cbn [seconds minutes hours dayOfMonth month year].
  intros (Hy & Hm & Hd & Hdm & Hh & Hmi & Hs) (Hy' & Hm' & Hd' & Hdm' & Hh' & Hmi' & Hs') E.
  assert (Hday : forall y m x, 1 <= m <= 12 -> (x - 1) * secPerDay < monthSecs y m -> (x - 1) * secPerDay + 86400 <= monthSecs y m /\ monthStart y m + monthSecs y m <= yearSecs y).
  { intros y0 m0 x Hm0 Hx. destruct (monthSecs_ok y0 m0 Hm0) as (l & _ & Hl & _). unfold secPerDay in *. split; [lia|].
    rewrite <- months_of_year, <- monthStart_succ by lia. pose proof (monthStart_mono y0 (m0 + 1) 13 ltac:(lia) ltac:(lia)). lia. }
  destruct (Hday y m dd Hm Hdm) as [Ha Hb], (Hday y' m' dd' Hm' Hdm') as [Ha' Hb']. clear Hday.
  pose proof (monthStart_bound y m Hm). pose proof (monthStart_bound y' m' Hm'). unfold secPerDay in *.
  assert (y = y') as <-.
  { apply (interval_unique yearStart 1970 65535 y y' (yearStart y + monthStart y m + (dd - 1) * 86400 + h * 3600 + mi * 60 + s)); [|lia|lia|rewrite yearStart_succ; lia|rewrite yearStart_succ; lia].
    intros a b ? ?. pose proof (yearStart_mono a b ltac:(lia)). lia. }
  assert (m = m') as <-.
  { apply (interval_unique (monthStart y) 1 12 m m' (monthStart y m + (dd - 1) * 86400 + h * 3600 + mi * 60 + s)); [|lia|lia|rewrite monthStart_succ; lia|rewrite monthStart_succ; lia].
    intros a b ? ?. pose proof (monthStart_mono y a b ltac:(lia) ltac:(lia)). lia. }
  f_equal; lia.
Qed.

Lemma year_loop_spec n :
  0 < n < yearStart 65536 ->
  exists t y, year_loop n = Ok (t, y) /\ 1970 <= y < 65536 /\ n = yearStart y + t /\ 0 <= t < yearSecs y.
Proof.
  intros Hn. unfold year_loop.
  destruct (while_inv (fun '(t, y) => 1970 <= y < 65536 /\ n = yearStart y + t /\ 0 <= t) (fun '(t, y) => Z.to_nat (t / 31536000))
    (fun '(t, y) => getLengthOfYear y * secPerDay <=? t) (fun '(t, y) => Ok (t - getLengthOfYear y * secPerDay, u16 (y + 1)))
    (Z.to_nat (n / 31536000)) (n, 1970)) as ([t y] & -> & (Hy & -> & Ht) & Hc).
  - change (yearStart 1970) with 0. lia.
  - lia.
  - intros [t y] (Hy & -> & Ht) Hc. apply Z.leb_le in Hc. eexists. split; [done|].
    fold (yearSecs y) in *. pose proof (yearSecs_bound y).
    assert (y + 1 < 65536).
    { destruct (decide (y + 1 < 65536)); [done|]. replace 65536 with (y + 1) in Hn by lia. rewrite yearStart_succ in Hn; lia. }
    replace (u16 (y + 1)) with (y + 1) by (unwrap; lia). rewrite yearStart_succ by lia. split; [lia|].
    pose proof (Z.div_le_mono (t - yearSecs y) (t - 31536000) 31536000 eq_refl ltac:(lia)) as Hdv.
    replace (t - 31536000) with (t + (-1) * 31536000) in Hdv by lia. rewrite Z.div_add in Hdv by lia.
    pose proof (Z.div_le_lower_bound t 31536000 1 ltac:(lia) ltac:(lia)). lia.
  - apply Z.leb_gt in Hc. exists t, y. unfold yearSecs. auto.
Qed.

Lemma month_loop_spec y : forall fuel t m,
  1 <= m <= 12 -> 0 <= t -> monthStart y m + t < yearSecs y -> 12 <= m + Z.of_nat fuel ->
  exists t' m', month_loop fuel t m y = Ok (t', m') /\ 1 <= m' <= 12 /\
    monthStart y m' + t' = monthStart y m + t /\ 0 <= t' < monthSecs y m'.
Proof.
  induction fuel as [|fuel IH]; intros t m Hm Ht Hlt Hf; cbn [month_loop];
    destruct (monthSecs_ok y m Hm) as (l & -> & Hl & Hb); mcbn; destruct (Z.leb_spec (l * secPerDay) t).
  1,3: assert (m < 12) by (destruct (decide (m < 12)); [done|]; replace m with 12 in * by lia; rewrite <- months_of_year in Hlt;
         change 13 with (12 + 1) in Hlt; rewrite monthStart_succ in Hlt; lia).
  1: lia.
  - replace (u8 (m + 1)) with (m + 1) by (unwrap; lia).
    destruct (IH (t - l * secPerDay) (m + 1)) as (t' & m' & E & Hm' & Hs & Ht'); [lia|lia|rewrite monthStart_succ; lia|lia|].
    exists t', m'. rewrite monthStart_succ in Hs by lia. split_and!; try done; lia.
  - exists t, m. split_and!; try done; lia.
  - exists t, m. split_and!; try done; lia.
Qed.

Lemma field_loop_spec unit t start :
  0 < unit -> 0 <= t -> 0 <= start -> start + t / unit < 256 ->
  field_loop unit t start = Ok (t mod unit, start + t / unit).
Proof.
  intros Hu Ht Hst Hb. unfold field_loop.
  destruct (while_inv (fun '(x, f) => exists k, f = start + k /\ x = t - k * unit /\ 0 <= k /\ 0 <= x) (fun '(x, f) => Z.to_nat (x / unit))
    (fun '(x, f) => unit <=? x) (fun '(x, f) => Ok (x - unit, u8 (f + 1))) (Z.to_nat (t / unit)) (t, start)) as ([x f] & -> & (k & -> & -> & Hk & Hx) & Hc).
  - exists 0. lia.
  - lia.
  - intros [x f] (k & -> & -> & Hk & Hx) Hc. apply Z.leb_le in Hc. eexists. split; [done|].
    assert (k + 1 <= t / unit) by (apply Z.div_le_lower_bound; nia).
    split; [exists (k + 1); split_and!; [unwrap; lia|lia|lia|lia]|].
    replace (t - k * unit - unit) with (t - k * unit + (-1) * unit) by lia. rewrite Z.div_add by lia.
    pose proof (Z.div_le_lower_bound (t - k * unit) unit 1 ltac:(lia) ltac:(lia)). lia.
  - apply Z.leb_gt in Hc. assert (t / unit = k) as -> by (symmetry; apply (Z.div_unique_pos t unit k (t - k * unit)); lia).
    f_equal. f_equal. apply (Z.mod_unique_pos t unit k); lia.
Qed.

(** For every time before the year 65536 the constructor from a unix time
    ends and gives a valid calendar date whose getUnixTime is that time, and
    every valid date from 1970 on is the one the constructor makes of its
    getUnixTime. *)
Theorem date_roundtrip :
  (forall n, 0 < n < yearStart 65536 -> exists d, ofUnixTime n = Ok d /\ valid d /\ getUnixTime d = Ok n) /\
  (forall d, valid d -> exists n, getUnixTime d = Ok n /\ ofUnixTime n = Ok d).
Proof.
  assert (Hof : forall n, 0 < n < yearStart 65536 -> exists d, ofUnixTime n = Ok d /\ valid d /\ unix d = n).
  { intros n Hn. unfold ofUnixTime. destruct (Z.ltb_spec 0 n); [|lia].
    destruct (year_loop_spec n Hn) as (t & y & -> & Hy & -> & Ht). mcbn.
    destruct (month_loop_spec y 256 t 1) as (t' & m & -> & Hm & Hs & Ht'); [lia|lia|change (monthStart y 1) with 0; lia|lia|]. mcbn.
    change (monthStart y 1) with 0 in Hs. destruct (monthSecs_ok y m Hm) as (l & _ & Hl & Hlb). rewrite Hl in Ht'.
    unfold secPerDay in *. assert (Hd : 0 <= t' / 86400 < l) by (split; [apply Z.div_pos|apply Z.div_lt_upper_bound]; lia).
    rewrite field_loop_spec by lia. mcbn. pose proof (Z.mod_pos_bound t' 86400 eq_refl).
    assert (Hh : 0 <= t' mod 86400 / 3600 < 24) by (split; [apply Z.div_pos|apply Z.div_lt_upper_bound]; lia).
    rewrite field_loop_spec by lia. mcbn. pose proof (Z.mod_pos_bound (t' mod 86400) 3600 eq_refl).
    set (h := t' mod 86400) in *. set (mi := h mod 3600) in *.
    assert (Hmi : 0 <= mi / 60 < 60) by (split; [apply Z.div_pos|apply Z.div_lt_upper_bound]; lia).
    rewrite field_loop_spec by lia. mcbn. pose proof (Z.mod_pos_bound mi 60 eq_refl). eexists. split; [done|].
    unfold valid, unix. cbn [seconds minutes hours dayOfMonth month year]. rewrite Hl. unfold secPerDay.
    replace (u8 (mi mod 60)) with (mi mod 60) by (unwrap; lia).
    pose proof (Z.div_mod t' 86400). pose proof (Z.div_mod h 3600). pose proof (Z.div_mod mi 60). split; [lia|]. lia. }
  split.
  - intros n Hn. destruct (Hof n Hn) as (d & E & Hv & <-). exists d. split_and!; [done|done|]. by apply getUnixTime_unix.
  - intros d Hv. exists (unix d). split; [by apply getUnixTime_unix|].
    assert (Hb : 0 <= unix d < yearStart 65536).
    { destruct Hv as (Hy & Hm & Hd & Hdm & Hh & Hmi & Hs). unfold unix. pose proof (yearStart_bound _ Hy). pose proof (monthStart_bound (year d) _ Hm).
      destruct (monthSecs_ok (year d) (month d) Hm) as (l & _ & Hl & _). unfold secPerDay in *.
      pose proof (months_of_year (year d)). pose proof (monthStart_mono (year d) (month d + 1) 13 ltac:(lia) ltac:(lia)).
      rewrite (monthStart_succ (year d) (month d)) in * by lia. pose proof (yearStart_succ (year d) ltac:(lia)).
      pose proof (yearStart_mono (year d + 1) 65536 ltac:(lia)). lia. }
    destruct (decide (unix d = 0)) as [E|E].
    + rewrite E. cbn. f_equal. apply unix_inj; [|done|by rewrite E]. unfold valid. cbn [seconds minutes hours dayOfMonth month year]. change (monthSecs 1970 1) with 2678400. unfold secPerDay. lia.
    + destruct (Hof (unix d) ltac:(lia)) as (d' & -> & Hv' & E'). f_equal. by apply unix_inj.
Qed.

Lemma date_roundtrip_witness :
  ofUnixTime 1709210096 = Ok (mk 56 34 12 29 2 2024) /\
  (exists n, getUnixTime (mk 56 34 12 29 2 2024) = Ok n /\ ofUnixTime n = Ok (mk 56 34 12 29 2 2024)).
Proof.
  split; [vm_compute; reflexivity|]. destruct date_roundtrip as [_ H]. apply H.
  unfold valid. cbn [seconds minutes hours dayOfMonth month year]. change (monthSecs 2024 2) with 2505600. unfold secPerDay. lia.
Defined.

(** GetWeekday is the day of the week of a valid date up to January 2038;
    getDayOfYear, and the week numbers that use it, read the entry before
    the table of month lengths. *)
Theorem date_weekday d :
  valid d ->
  (unix d < 2 ^ 31 -> getWeekday d = Ok ((unix d / secPerDay + 3) mod 7)) /\
  getDayOfYear d = Fault /\ getWeekOfYear d = Fault /\ getWeekOfYearSunday d = Fault.
Proof.
  intros Hv. pose proof Hv as (Hy & Hm & Hd & Hdm & Hh & Hmi & Hs).
  assert (Hf : getDayOfYear d = Fault).
  { unfold getDayOfYear. replace (Z.to_nat (month d)) with (S (Z.to_nat (month d - 1))) by lia. reflexivity. }
  assert (H1 : valid (mk 0 0 0 1 1 (year d))).
  { unfold valid. cbn [seconds minutes hours dayOfMonth month year]. destruct (monthSecs_ok (year d) 1) as (l & _ & -> & ?); [lia|]. unfold secPerDay. lia. }
  split_and!; [|done| |].
  - intros Hlt. unfold getWeekday. rewrite getUnixTime_unix by done. mcbn.
    assert (0 <= unix d).
    { unfold unix. pose proof (yearStart_bound _ Hy). pose proof (monthStart_bound (year d) _ Hm). unfold secPerDay. lia. }
    replace (s32 (unix d)) with (unix d) by (unwrap; lia). unfold secPerDay. rewrite Z.quot_div_nonneg by lia.
    pose proof (Z.div_pos (unix d) 86400). rewrite Z.rem_mod_nonneg by lia. rewrite Z.add_comm.
    pose proof (Z.mod_pos_bound (unix d / 86400 + 3) 7 eq_refl). f_equal. unwrap. done.
  - unfold getWeekOfYear, getWeekday. by rewrite (getUnixTime_unix _ H1), Hf.
  - unfold getWeekOfYearSunday, getWeekday. by rewrite (getUnixTime_unix _ H1), Hf.
Qed.

(** 29 February 2024 was a Thursday; its day of the year is read from [_monthLength[-1]];
    for 19 January 2038, 12:00, the conversion to [int32_t] makes the weekday negative. *)
Lemma date_weekday_witness :
  getWeekday (mk 56 34 12 29 2 2024) = Ok 3 /\ getDayOfYear (mk 56 34 12 29 2 2024) = Fault /\
  getWeekday (mk 0 0 12 19 1 2038) = Ok (-1).
Proof.
  destruct (date_weekday (mk 56 34 12 29 2 2024)) as (H1 & H2 & _).
  { unfold valid. cbn [seconds minutes hours dayOfMonth month year]. change (monthSecs 2024 2) with 2505600. unfold secPerDay. lia. }
  split_and!; [|exact H2|vm_compute; reflexivity]. rewrite H1; [vm_compute; reflexivity|vm_compute; reflexivity].
Defined.

End Date.
