(* ===== verification/Scheduler.v ===== *)
(** * Scheduler.v: threads, processes and the scheduler

    Model of [kernel/process/Scheduler], of what the scheduler uses of
    [kernel/process/Thread] and [kernel/process/Process], and of the lazy switch of
    the FPU context ([device/cpu/Fpu.cpp]).

    A [Thread*] or [Process*] is an address; the objects are in the tables [threads]
    and [processes] of the state, and reading through a pointer to a deleted object
    is a [Fault]. The join lists are the values of [joinMap]: the only pointer to such
    a list is the one in the map.

    A call runs in the current thread until it returns or switches to another thread,
    which releases the ready queue lock ([release_scheduler_lock] in [thread.asm]).
    A call that waits for a lock, or for the kernel heap to be unlocked, yields in a
    loop and is stuck until another thread runs: its outcome is [Loops]. *)

From S2P Require Import Prelude Bits Atomic Spinlock Array ArrayList Queue ArrayListBlockingQueue ArrayBlockingQueue HashMap Time.

(** ** Data *)
Module Scheduler.
Import Time.

(** What the scheduler uses of a thread; [fpuContext] stands for the 512 bytes of saved
    FPU registers. *)
Record Thread := mkThread { id : Z; parent : Z; fpuContext : Z }.

Record Process := mkProcess { pid : Z; pthreads : ArrayList Z; finished : bool; exitCode : Z; mainThread : Z }.

Record SleepEntry := mkEntry { thread : Z; wakeupTime : Timestamp.Timestamp }.

(** The fields of [Scheduler], the FPU, the thread and process objects, the two queues of
    [SchedulerCleaner], the fields of [ProcessService], the address space in use, whether
    the kernel heap is locked, and how often the time has been read. *)
Record Kernel := mkKernel {
  initialized : bool;
  currentThread : Z;
  fpu : bool;
  fpuMonitor : bool;
  fpuRegisters : Z;
  lastFpuThread : Z;
  readyQueue : ArrayListBlockingQueue Z;
  readyQueueLock : Spinlock.Spinlock;
  sleepList : ArrayList SleepEntry;
  sleepQueueLock : Spinlock.Spinlock;
  joinMap : HashMap Z (ArrayList Z);
  joinLock : Spinlock.Spinlock;
  threads : gmap Z Thread;
  processes : gmap Z Process;
  threadQueue : ArrayBlockingQueue Z;
  processQueue : ArrayBlockingQueue Z;
  kernelProcess : Z;
  processList : ArrayList Z;
  processLock : Spinlock.Spinlock;
  addressSpace : Z;
  memoryLocked : bool;
  queries : nat
}.

Definition set_initialized (v : bool) (k : Kernel) : Kernel :=
  mkKernel v (currentThread k) (fpu k) (fpuMonitor k) (fpuRegisters k) (lastFpuThread k) (readyQueue k) (readyQueueLock k) (sleepList k) (sleepQueueLock k) (joinMap k) (joinLock k) (threads k) (processes k) (threadQueue k) (processQueue k) (kernelProcess k) (processList k) (processLock k) (addressSpace k) (memoryLocked k) (queries k).
Definition set_currentThread (v : Z) (k : Kernel) : Kernel :=
  mkKernel (initialized k) v (fpu k) (fpuMonitor k) (fpuRegisters k) (lastFpuThread k) (readyQueue k) (readyQueueLock k) (sleepList k) (sleepQueueLock k) (joinMap k) (joinLock k) (threads k) (processes k) (threadQueue k) (processQueue k) (kernelProcess k) (processList k) (processLock k) (addressSpace k) (memoryLocked k) (queries k).
Definition set_fpu (v : bool) (k : Kernel) : Kernel :=
  mkKernel (initialized k) (currentThread k) v (fpuMonitor k) (fpuRegisters k) (lastFpuThread k) (readyQueue k) (readyQueueLock k) (sleepList k) (sleepQueueLock k) (joinMap k) (joinLock k) (threads k) (processes k) (threadQueue k) (processQueue k) (kernelProcess k) (processList k) (processLock k) (addressSpace k) (memoryLocked k) (queries k).
Definition set_fpuMonitor (v : bool) (k : Kernel) : Kernel :=
  mkKernel (initialized k) (currentThread k) (fpu k) v (fpuRegisters k) (lastFpuThread k) (readyQueue k) (readyQueueLock k) (sleepList k) (sleepQueueLock k) (joinMap k) (joinLock k) (threads k) (processes k) (threadQueue k) (processQueue k) (kernelProcess k) (processList k) (processLock k) (addressSpace k) (memoryLocked k) (queries k).
Definition set_fpuRegisters (v : Z) (k : Kernel) : Kernel :=
  mkKernel (initialized k) (currentThread k) (fpu k) (fpuMonitor k) v (lastFpuThread k) (readyQueue k) (readyQueueLock k) (sleepList k) (sleepQueueLock k) (joinMap k) (joinLock k) (threads k) (processes k) (threadQueue k) (processQueue k) (kernelProcess k) (processList k) (processLock k) (addressSpace k) (memoryLocked k) (queries k).
Definition set_lastFpuThread (v : Z) (k : Kernel) : Kernel :=
  mkKernel (initialized k) (currentThread k) (fpu k) (fpuMonitor k) (fpuRegisters k) v (readyQueue k) (readyQueueLock k) (sleepList k) (sleepQueueLock k) (joinMap k) (joinLock k) (threads k) (processes k) (threadQueue k) (processQueue k) (kernelProcess k) (processList k) (processLock k) (addressSpace k) (memoryLocked k) (queries k).
Definition set_readyQueue (v : ArrayListBlockingQueue Z) (k : Kernel) : Kernel :=
  mkKernel (initialized k) (currentThread k) (fpu k) (fpuMonitor k) (fpuRegisters k) (lastFpuThread k) v (readyQueueLock k) (sleepList k) (sleepQueueLock k) (joinMap k) (joinLock k) (threads k) (processes k) (threadQueue k) (processQueue k) (kernelProcess k) (processList k) (processLock k) (addressSpace k) (memoryLocked k) (queries k).
Definition set_readyQueueLock (v : Spinlock.Spinlock) (k : Kernel) : Kernel :=
  mkKernel (initialized k) (currentThread k) (fpu k) (fpuMonitor k) (fpuRegisters k) (lastFpuThread k) (readyQueue k) v (sleepList k) (sleepQueueLock k) (joinMap k) (joinLock k) (threads k) (processes k) (threadQueue k) (processQueue k) (kernelProcess k) (processList k) (processLock k) (addressSpace k) (memoryLocked k) (queries k).
Definition set_sleepList (v : ArrayList SleepEntry) (k : Kernel) : Kernel :=
  mkKernel (initialized k) (currentThread k) (fpu k) (fpuMonitor k) (fpuRegisters k) (lastFpuThread k) (readyQueue k) (readyQueueLock k) v (sleepQueueLock k) (joinMap k) (joinLock k) (threads k) (processes k) (threadQueue k) (processQueue k) (kernelProcess k) (processList k) (processLock k) (addressSpace k) (memoryLocked k) (queries k).
Definition set_sleepQueueLock (v : Spinlock.Spinlock) (k : Kernel) : Kernel :=
  mkKernel (initialized k) (currentThread k) (fpu k) (fpuMonitor k) (fpuRegisters k) (lastFpuThread k) (readyQueue k) (readyQueueLock k) (sleepList k) v (joinMap k) (joinLock k) (threads k) (processes k) (threadQueue k) (processQueue k) (kernelProcess k) (processList k) (processLock k) (addressSpace k) (memoryLocked k) (queries k).
Definition set_joinMap (v : HashMap Z (ArrayList Z)) (k : Kernel) : Kernel :=
  mkKernel (initialized k) (currentThread k) (fpu k) (fpuMonitor k) (fpuRegisters k) (lastFpuThread k) (readyQueue k) (readyQueueLock k) (sleepList k) (sleepQueueLock k) v (joinLock k) (threads k) (processes k) (threadQueue k) (processQueue k) (kernelProcess k) (processList k) (processLock k) (addressSpace k) (memoryLocked k) (queries k).
Definition set_joinLock (v : Spinlock.Spinlock) (k : Kernel) : Kernel :=
  mkKernel (initialized k) (currentThread k) (fpu k) (fpuMonitor k) (fpuRegisters k) (lastFpuThread k) (readyQueue k) (readyQueueLock k) (sleepList k) (sleepQueueLock k) (joinMap k) v (threads k) (processes k) (threadQueue k) (processQueue k) (kernelProcess k) (processList k) (processLock k) (addressSpace k) (memoryLocked k) (queries k).
Definition set_threads (v : gmap Z Thread) (k : Kernel) : Kernel :=
  mkKernel (initialized k) (currentThread k) (fpu k) (fpuMonitor k) (fpuRegisters k) (lastFpuThread k) (readyQueue k) (readyQueueLock k) (sleepList k) (sleepQueueLock k) (joinMap k) (joinLock k) v (processes k) (threadQueue k) (processQueue k) (kernelProcess k) (processList k) (processLock k) (addressSpace k) (memoryLocked k) (queries k).
Definition set_processes (v : gmap Z Process) (k : Kernel) : Kernel :=
  mkKernel (initialized k) (currentThread k) (fpu k) (fpuMonitor k) (fpuRegisters k) (lastFpuThread k) (readyQueue k) (readyQueueLock k) (sleepList k) (sleepQueueLock k) (joinMap k) (joinLock k) (threads k) v (threadQueue k) (processQueue k) (kernelProcess k) (processList k) (processLock k) (addressSpace k) (memoryLocked k) (queries k).
Definition set_threadQueue (v : ArrayBlockingQueue Z) (k : Kernel) : Kernel :=
  mkKernel (initialized k) (currentThread k) (fpu k) (fpuMonitor k) (fpuRegisters k) (lastFpuThread k) (readyQueue k) (readyQueueLock k) (sleepList k) (sleepQueueLock k) (joinMap k) (joinLock k) (threads k) (processes k) v (processQueue k) (kernelProcess k) (processList k) (processLock k) (addressSpace k) (memoryLocked k) (queries k).
Definition set_processQueue (v : ArrayBlockingQueue Z) (k : Kernel) : Kernel :=
  mkKernel (initialized k) (currentThread k) (fpu k) (fpuMonitor k) (fpuRegisters k) (lastFpuThread k) (readyQueue k) (readyQueueLock k) (sleepList k) (sleepQueueLock k) (joinMap k) (joinLock k) (threads k) (processes k) (threadQueue k) v (kernelProcess k) (processList k) (processLock k) (addressSpace k) (memoryLocked k) (queries k).
Definition set_kernelProcess (v : Z) (k : Kernel) : Kernel :=
  mkKernel (initialized k) (currentThread k) (fpu k) (fpuMonitor k) (fpuRegisters k) (lastFpuThread k) (readyQueue k) (readyQueueLock k) (sleepList k) (sleepQueueLock k) (joinMap k) (joinLock k) (threads k) (processes k) (threadQueue k) (processQueue k) v (processList k) (processLock k) (addressSpace k) (memoryLocked k) (queries k).
Definition set_processList (v : ArrayList Z) (k : Kernel) : Kernel :=
  mkKernel (initialized k) (currentThread k) (fpu k) (fpuMonitor k) (fpuRegisters k) (lastFpuThread k) (readyQueue k) (readyQueueLock k) (sleepList k) (sleepQueueLock k) (joinMap k) (joinLock k) (threads k) (processes k) (threadQueue k) (processQueue k) (kernelProcess k) v (processLock k) (addressSpace k) (memoryLocked k) (queries k).
Definition set_processLock (v : Spinlock.Spinlock) (k : Kernel) : Kernel :=
  mkKernel (initialized k) (currentThread k) (fpu k) (fpuMonitor k) (fpuRegisters k) (lastFpuThread k) (readyQueue k) (readyQueueLock k) (sleepList k) (sleepQueueLock k) (joinMap k) (joinLock k) (threads k) (processes k) (threadQueue k) (processQueue k) (kernelProcess k) (processList k) v (addressSpace k) (memoryLocked k) (queries k).
Definition set_addressSpace (v : Z) (k : Kernel) : Kernel :=
  mkKernel (initialized k) (currentThread k) (fpu k) (fpuMonitor k) (fpuRegisters k) (lastFpuThread k) (readyQueue k) (readyQueueLock k) (sleepList k) (sleepQueueLock k) (joinMap k) (joinLock k) (threads k) (processes k) (threadQueue k) (processQueue k) (kernelProcess k) (processList k) (processLock k) v (memoryLocked k) (queries k).
Definition set_memoryLocked (v : bool) (k : Kernel) : Kernel :=
  mkKernel (initialized k) (currentThread k) (fpu k) (fpuMonitor k) (fpuRegisters k) (lastFpuThread k) (readyQueue k) (readyQueueLock k) (sleepList k) (sleepQueueLock k) (joinMap k) (joinLock k) (threads k) (processes k) (threadQueue k) (processQueue k) (kernelProcess k) (processList k) (processLock k) (addressSpace k) v (queries k).
Definition set_queries (v : nat) (k : Kernel) : Kernel :=
  mkKernel (initialized k) (currentThread k) (fpu k) (fpuMonitor k) (fpuRegisters k) (lastFpuThread k) (readyQueue k) (readyQueueLock k) (sleepList k) (sleepQueueLock k) (joinMap k) (joinLock k) (threads k) (processes k) (threadQueue k) (processQueue k) (kernelProcess k) (processList k) (processLock k) (addressSpace k) (memoryLocked k) v.

(** ** Calls that change the state *)

Definition M (A : Type) : Type := Kernel -> outcome (A * Kernel).
#[export] Instance M_ret : MRet M := fun A a k => Ok (a, k).
#[export] Instance M_bind : MBind M := fun A B f m k => '(a, k) ← m k; f a k.

Definition gets {A} (f : Kernel -> A) : M A := fun k => Ok (f k, k).
Definition modify (f : Kernel -> Kernel) : M unit := fun k => Ok (tt, f k).
Definition lift {A} (o : outcome A) : M A := fun k => a ← o; Ok (a, k).
Definition throwException {A} (e : Error) : M A := fun _ => Throw e.
Definition wait {A} : M A := fun _ => Loops.

(** [Spinlock::tryAcquire], [acquire] and [release] on a lock of the state. *)
Definition tryAcquire (get : Kernel -> Spinlock.Spinlock) (set : Spinlock.Spinlock -> Kernel -> Kernel) : M bool :=
  fun k => let '(b, l) := Spinlock.tryAcquire (get k) in Ok (b, set l k).
Definition acquire (get : Kernel -> Spinlock.Spinlock) (set : Spinlock.Spinlock -> Kernel -> Kernel) : M unit :=
  b ← tryAcquire get set; if (b : bool) then mret tt else wait.
Definition release (get : Kernel -> Spinlock.Spinlock) (set : Spinlock.Spinlock -> Kernel -> Kernel) : M unit :=
  modify (fun k => set (Spinlock.release (get k)) k).

Definition deref_thread (p : Z) : M Thread := t ← gets (fun k => threads k !! p); lift (of_option t).
Definition deref_process (p : Z) : M Process := t ← gets (fun k => processes k !! p); lift (of_option t).

(** ** [Process] *)

Definition addThread (process thread : Z) : M unit :=
  p ← deref_process process;
  '(_, l) ← lift (ArrayList.add 0 thread (pthreads p));
  modify (fun k => set_processes (<[process := mkProcess (pid p) l (finished p) (exitCode p) (mainThread p)]> (processes k)) k).

Definition removeThread (process thread : Z) : M unit :=
  p ← deref_process process;
  '(_, l) ← lift (ArrayList.remove thread (pthreads p));
  modify (fun k => set_processes (<[process := mkProcess (pid p) l (finished p) (exitCode p) (mainThread p)]> (processes k)) k).

(** ** [SchedulerCleaner]: the queue of terminated threads *)

Definition cleanup (thread : Z) : M unit :=
  q ← gets threadQueue;
  '(b, q) ← lift (ArrayBlockingQueue.offer thread q);
  modify (set_threadQueue q);;
  if (b : bool) then mret tt else throwException OUT_OF_BOUNDS.

(** ** [Scheduler] *)

Section Scheduler.
(** The system time at every query. *)
Context (clock : nat -> Timestamp.Timestamp).

Definition getSystemTime : M Timestamp.Timestamp :=
  n ← gets queries; modify (set_queries (S n));; mret (clock n).

Definition setInitialized : M unit := modify (set_initialized true).
Definition isInitialized : M bool := gets initialized.

Definition getCurrentThread : M Z :=
  b ← gets initialized;
  if negb b then
    release readyQueueLock set_readyQueueLock;;
    throwException ILLEGAL_STATE
  else gets currentThread.

Definition getLastFpuThread : M Z := gets lastFpuThread.
Definition getThreadCount : M Z := gets (fun k => ArrayListBlockingQueue.size (readyQueue k)).
Definition unlockReadyQueue : M unit := release readyQueueLock set_readyQueueLock.

Definition offer (thread : Z) : M unit :=
  q ← gets readyQueue;
  '(_, q) ← lift (ArrayListBlockingQueue.offer 0 thread q);
  modify (set_readyQueue q).

Definition poll : M Z :=
  q ← gets readyQueue;
  '(t, q) ← lift (ArrayListBlockingQueue.poll q);
  modify (set_readyQueue q);; mret t.

(** [Thread::startFirstThread] jumps to [start_kernel_thread], which releases the lock. *)
Definition start : M unit :=
  acquire readyQueueLock set_readyQueueLock;;
  q ← gets readyQueue;
  if ArrayListBlockingQueue.isEmpty q then
    release readyQueueLock set_readyQueueLock;;
    throwException ILLEGAL_STATE
  else
    thread ← poll;
    modify (set_currentThread thread);;
    deref_thread thread;;
    unlockReadyQueue.

(** The lock is taken again until the heap is not locked; nothing else runs on the way. *)
Definition lockReadyQueue : M unit :=
  acquire readyQueueLock set_readyQueueLock;;
  b ← gets memoryLocked;
  if (b : bool) then wait else mret tt.

(** [while (!joinLock.tryAcquire()) { ... yield(); ... }] *)
Definition waitForJoinLock : M unit :=
  b ← tryAcquire joinLock set_joinLock;
  if (b : bool) then mret tt else wait.

Definition ready (thread : Z) : M unit :=
  lockReadyQueue;;
  waitForJoinLock;;
  q ← gets readyQueue;
  b ← lift (ArrayListBlockingQueue.contains thread q);
  if (b : bool) then throwException INVALID_ARGUMENT
  else
    offer thread;;
    t ← deref_thread thread;
    addThread (parent t) thread;;
    m ← gets joinMap;
    m ← lift (HashMap.put (id t) ArrayList_empty m);
    modify (set_joinMap m);;
    release joinLock set_joinLock;;
    release readyQueueLock set_readyQueueLock.

(** [for (i = 0; i < joinList->size(); i++) readyQueue.offer(joinList->get(i))] *)
Fixpoint offer_joiners (n : nat) (i : Z) (joinList : ArrayList Z) : M unit :=
  match n with
  | O => mret tt
  | S n =>
    t ← lift (ArrayList.get i joinList);
    offer t;;
    offer_joiners n (i + 1) joinList
  end.

(** The lines of [exit] and [kill] that wake the threads that wait for [t] and delete its
    join list. *)
Definition wake_joiners (t : Thread) : M unit :=
  m ← gets joinMap;
  '(joinList, m) ← lift (HashMap.get (id t) m);
  modify (set_joinMap m);;
  offer_joiners (Z.to_nat (ArrayList.size joinList)) 0 joinList;;
  m ← gets joinMap;
  '(_, m) ← lift (HashMap.remove (id t) m);
  modify (set_joinMap m);;
  release joinLock set_joinLock.

(** [wrapper.compareAndSet(&terminatedThread, 0)] *)
Definition resetLastFpuThread (terminatedThread : Z) : M unit :=
  v ← gets lastFpuThread;
  let '(_, v) := compareAndSet v terminatedThread 0 in
  modify (set_lastFpuThread v).

(** Comparing sleep entries reads the ids of their threads: the entries up to the
    first one with the id [i] must not belong to deleted threads. *)
Fixpoint entries_read (tbl : gmap Z Thread) (i : Z) (l : list SleepEntry) : bool :=
  match l with
  | [] => true
  | e :: l =>
    match tbl !! thread e with
    | None => false
    | Some t => if id t =? i then true else entries_read tbl i l
    end
  end.

(** [SleepEntry::operator!=] *)
Definition entry_ne (tbl : gmap Z Thread) : NotEq SleepEntry :=
  fun e other => bool_decide (id <$> tbl !! thread e <> id <$> tbl !! thread other).

Definition remove_entry (e : SleepEntry) : M unit :=
  tbl ← gets threads;
  t ← deref_thread (thread e);
  l ← gets sleepList;
  if entries_read tbl (id t) (ArrayList.contents l) then
    '(_, l) ← lift (ArrayList.remove (NE := entry_ne tbl) e l);
    modify (set_sleepList l)
  else lift Fault.

Fixpoint sleep_loop (fuel : nat) (systemTime : Timestamp.Timestamp) (i : Z) : M unit :=
  l ← gets sleepList;
  if i <? ArrayList.size l then
    match fuel with
    | O => wait
    | S fuel =>
      entry ← lift (ArrayList.get i l);
      (if Timestamp.ge systemTime (wakeupTime entry) then
        offer (thread entry);; remove_entry entry
      else mret tt);;
      sleep_loop fuel systemTime (i + 1)
    end
  else mret tt.

Definition checkSleepList : M unit :=
  b ← tryAcquire sleepQueueLock set_sleepQueueLock;
  if (b : bool) then
    systemTime ← getSystemTime;
    l ← gets sleepList;
    sleep_loop (Z.to_nat (ArrayList.size l)) systemTime 0;;
    release sleepQueueLock set_sleepQueueLock
  else mret tt.

(** [Device::Fpu::armFpuMonitor] and [disarmFpuMonitor]: the next FPU instruction raises
    an exception, or does not. *)
Definition armFpuMonitor : M unit :=
  b ← gets fpu; if (b : bool) then modify (set_fpuMonitor true) else mret tt.

(** [Thread::switchThread]: switches to the address space of the next thread and to its
    stack, where [switch_thread] releases the lock. *)
Definition switchThread (next : Z) : M unit :=
  t ← deref_thread next;
  deref_process (parent t);;
  modify (set_addressSpace (parent t));;
  unlockReadyQueue.

(** The end-of-interrupt signal of a timer interrupt goes to the interrupt controller. *)
Definition yield : M unit :=
  b ← gets initialized;
  if negb b then mret tt
  else
    b ← tryAcquire readyQueueLock set_readyQueueLock;
    if negb b then mret tt
    else
      checkSleepList;;
      current ← gets currentThread;
      next ← poll;
      modify (set_currentThread next);;
      offer current;;
      armFpuMonitor;;
      switchThread next.

(** [do { checkSleepList(); } while (readyQueue.isEmpty())] *)
Fixpoint idle_loop (fuel : nat) : M unit :=
  match fuel with
  | O => wait
  | S fuel =>
    checkSleepList;;
    q ← gets readyQueue;
    if ArrayListBlockingQueue.isEmpty q then idle_loop fuel else mret tt
  end.

Definition block (fuel : nat) : M unit :=
  acquire readyQueueLock set_readyQueueLock;;
  idle_loop fuel;;
  current ← gets currentThread;
  next ← poll;
  modify (set_currentThread next);;
  if current =? next then mret tt
  else
    armFpuMonitor;;
    switchThread next.

Definition unblock (thread : Z) : M unit :=
  acquire readyQueueLock set_readyQueueLock;;
  offer thread;;
  release readyQueueLock set_readyQueueLock.

Definition sleep (fuel : nat) (time : Timestamp.Timestamp) : M unit :=
  acquire sleepQueueLock set_sleepQueueLock;;
  now ← getSystemTime;
  let wakeup := Timestamp.plus now time in
  current ← gets currentThread;
  l ← gets sleepList;
  '(_, l) ← lift (ArrayList.add (mkEntry 0 (Timestamp.mk 0 0)) (mkEntry current wakeup) l);
  modify (set_sleepList l);;
  release sleepQueueLock set_sleepQueueLock;;
  block fuel.

Definition join (fuel : nat) (thread : Z) : M unit :=
  acquire joinLock set_joinLock;;
  t ← deref_thread thread;
  m ← gets joinMap;
  b ← lift (HashMap.containsKey (id t) m);
  if negb b then mret tt
  else
    '(joinList, m) ← lift (HashMap.get (id t) m);
    current ← gets currentThread;
    '(_, joinList) ← lift (ArrayList.add 0 current joinList);
    m ← lift (HashMap.put (id t) joinList m);
    modify (set_joinMap m);;
    release joinLock set_joinLock;;
    block fuel.

Definition exit (fuel : nat) : M unit :=
  lockReadyQueue;;
  waitForJoinLock;;
  current ← gets currentThread;
  t ← deref_thread current;
  wake_joiners t;;
  removeThread (parent t) current;;
  resetLastFpuThread current;;
  cleanup current;;
  release readyQueueLock set_readyQueueLock;;
  block fuel.

Definition kill (thread : Z) : M unit :=
  t ← deref_thread thread;
  current ← gets currentThread;
  c ← deref_thread current;
  if id t =? id c then throwException INVALID_ARGUMENT
  else
    lockReadyQueue;;
    waitForJoinLock;;
    acquire sleepQueueLock set_sleepQueueLock;;
    remove_entry (mkEntry thread (Timestamp.mk 0 0));;
    release sleepQueueLock set_sleepQueueLock;;
    wake_joiners t;;
    q ← gets readyQueue;
    '(_, q) ← lift (ArrayListBlockingQueue.remove thread q);
    modify (set_readyQueue q);;
    removeThread (parent t) thread;;
    resetLastFpuThread thread;;
    cleanup thread;;
    release readyQueueLock set_readyQueueLock.

(** [Fpu::switchContext] saves the registers to the context of the last FPU thread and
    loads those of the current one. *)
Definition switchContext : M unit :=
  current ← getCurrentThread;
  last ← gets lastFpuThread;
  (if last =? 0 then mret tt
   else
     t ← deref_thread last;
     regs ← gets fpuRegisters;
     modify (fun k => set_threads (<[last := mkThread (id t) (parent t) regs]> (threads k)) k));;
  t ← deref_thread current;
  modify (set_fpuRegisters (fpuContext t)).

(** The handler of the device-not-available exception. *)
Definition switchFpuContext : M unit :=
  b ← gets fpu;
  if negb b then throwException DEVICE_NOT_AVAILABLE
  else
    acquire readyQueueLock set_readyQueueLock;;
    modify (set_fpuMonitor false);;
    current ← gets currentThread;
    last ← gets lastFpuThread;
    if current =? last then release readyQueueLock set_readyQueueLock
    else
      switchContext;;
      modify (set_lastFpuThread current);;
      release readyQueueLock set_readyQueueLock.

(** The two searches of [getThread]; the address of the thread or the null pointer. *)
Fixpoint find_thread (tbl : gmap Z Thread) (i : Z) (l : list Z) : outcome Z :=
  match l with
  | [] => Ok 0
  | p :: l => t ← of_option (tbl !! p); if id t =? i then Ok p else find_thread tbl i l
  end.

Definition getThread (i : Z) : M Z :=
  acquire readyQueueLock set_readyQueueLock;;
  tbl ← gets threads;
  q ← gets readyQueue;
  p ← lift (find_thread tbl i (ArrayListBlockingQueue.contents q));
  release readyQueueLock set_readyQueueLock;;
  if negb (p =? 0) then mret p
  else
    acquire sleepQueueLock set_sleepQueueLock;;
    l ← gets sleepList;
    p ← lift (find_thread tbl i (thread <$> ArrayList.contents l));
    release sleepQueueLock set_sleepQueueLock;;
    mret p.

Definition removeFromJoinMap (threadId : Z) : M unit :=
  acquire joinLock set_joinLock;;
  m ← gets joinMap;
  '(_, m) ← lift (HashMap.remove threadId m);
  modify (set_joinMap m);;
  release joinLock set_joinLock.

End Scheduler.

End Scheduler.
