(* ===== verification/SchedulerSpec.v ===== *)
(** * SchedulerSpec.v: what the scheduler guarantees

    The state seen as a current thread, a queue of ready threads, a list of sleeping
    threads and the lists of threads that wait for another to end; an invariant that
    every thread is at one of these places; the effect of every call of [Scheduler.v]
    on them. *)

From S2P Require Import Prelude Bits Atomic Spinlock Array ArrayList Queue ArrayListBlockingQueue ArrayBlockingQueue HashMap Time Scheduler.
Import Time Scheduler.

Module SchedulerSpec.

(** Runs the calls whose results are known and reads the fields of states. *)
Lemma bind_run {A B} (m : M A) (f : A -> M B) k : (m ≫= f) k = (m k ≫= fun '(a, k) => f a k).
Proof. reflexivity. Qed.

Ltac reads :=
  cbn [mbind mret M_ret outcome_bind outcome_ret gets modify lift of_option fst snd negb
    initialized currentThread fpu fpuMonitor fpuRegisters lastFpuThread readyQueue readyQueueLock sleepList sleepQueueLock joinMap joinLock threads processes threadQueue processQueue kernelProcess processList processLock addressSpace memoryLocked queries
    set_initialized set_currentThread set_fpu set_fpuMonitor set_fpuRegisters set_lastFpuThread set_readyQueue set_readyQueueLock set_sleepList set_sleepQueueLock set_joinMap set_joinLock set_threads set_processes set_threadQueue set_processQueue set_kernelProcess set_processList set_processLock set_addressSpace set_memoryLocked set_queries].
Ltac run := reads; repeat (rewrite bind_run; reads).

Notation unlocked := Spinlock.Spinlock_new.
Notation locked := (Spinlock.mk SPINLOCK_LOCK).

(** ** Places *)

Definition ready_threads (k : Kernel) : list Z := ArrayListBlockingQueue.contents (readyQueue k).
Definition sleeping (k : Kernel) : list SleepEntry := ArrayList.contents (sleepList k).
Definition joining (k : Kernel) : gmap Z (list Z) := ArrayList.contents <$> HashMap.to_map (joinMap k).

(** The threads that wait for some other thread. *)
Definition joiners (g : gmap Z (list Z)) : list Z := concat (map_to_list g).*2.

Definition blocked (k : Kernel) : list Z := (thread <$> sleeping k) ++ joiners (joining k).
Definition places (k : Kernel) : list Z := currentThread k :: ready_threads k ++ blocked k.

(** The data structures of the scheduler are well formed, and no lock is held. *)
Definition structures_ok (k : Kernel) : Prop :=
  ArrayListBlockingQueue.wf (readyQueue k) /\ ArrayList.wf (sleepList k) /\ HashMap.wf (joinMap k) /\
  map_Forall (fun _ l => ArrayList.wf l) (HashMap.to_map (joinMap k)).

Definition locks_free (k : Kernel) : Prop :=
  readyQueueLock k = unlocked /\ sleepQueueLock k = unlocked /\ joinLock k = unlocked /\ memoryLocked k = false.

(** A thread object with its process, and an entry in the join map as long as it has not
    terminated. *)
Definition alive (k : Kernel) (p : Z) : Prop :=
  p <> 0 /\ exists t proc, threads k !! p = Some t /\ processes k !! parent t = Some proc /\
    ArrayList.wf (pthreads proc) /\ ArrayList.len (pthreads proc) < 2 ^ 31 /\ is_Some (joining k !! id t).

Definition ids_unique (k : Kernel) : Prop :=
  forall p q t u, threads k !! p = Some t -> threads k !! q = Some u -> id t = id u -> p = q.

Record inv (k : Kernel) : Prop := {
  inv_structures : structures_ok k;
  inv_locks : locks_free k;
  inv_initialized : initialized k = true;
  inv_once : NoDup (places k);
  inv_alive : Forall (alive k) (places k);
  inv_ids : ids_unique k;
  inv_size : zlen (places k) < 2 ^ 31
}.

(** ** Locks *)

Lemma lock_tryAcquire_free get set k : get k = unlocked -> tryAcquire get set k = Ok (true, set locked k).
Proof. intros E. unfold tryAcquire. rewrite E. reflexivity. Qed.

Lemma lock_tryAcquire_held get set k : get k = locked -> tryAcquire get set k = Ok (false, set locked k).
Proof. intros E. unfold tryAcquire. rewrite E. reflexivity. Qed.

Lemma acquire_free get set k : get k = unlocked -> acquire get set k = Ok (tt, set locked k).
Proof. intros E. unfold acquire. run. by rewrite lock_tryAcquire_free. Qed.

Lemma acquire_held get set k : get k = locked -> acquire get set k = Loops.
Proof. intros E. unfold acquire. run. by rewrite lock_tryAcquire_held. Qed.

Lemma release_any get set k : release get set k = Ok (tt, set unlocked k).
Proof. reflexivity. Qed.

Lemma offer_spec t k :
  ArrayListBlockingQueue.wf (readyQueue k) -> zlen (ready_threads k) < 2 ^ 31 ->
  exists q, offer t k = Ok (tt, set_readyQueue q k) /\ ArrayListBlockingQueue.wf q /\
    ArrayListBlockingQueue.contents q = ready_threads k ++ [t].
Proof.
  intros Hwf Hl. destruct (alq_offer_spec 0 t (readyQueue k) Hwf Hl) as (q & E & Hq & Hc).
  exists q. unfold offer. run. rewrite E. done.
Qed.

Lemma poll_spec k :
  ArrayListBlockingQueue.wf (readyQueue k) ->
  match ready_threads k with
  | t :: rest => exists q, poll k = Ok (t, set_readyQueue q k) /\ ArrayListBlockingQueue.wf q /\
      ArrayListBlockingQueue.contents q = rest
  | [] => poll k = Loops
  end.
Proof.
  intros Hwf. pose proof (alq_poll_spec _ Hwf) as H. unfold ready_threads, poll.
  destruct (ArrayListBlockingQueue.contents (readyQueue k)).
  - run. by rewrite H.
  - destruct H as (q & E & Hq & Hc). exists q. run. rewrite E. done.
Qed.

(** ** Sleeping threads *)

(** [checkSleepList] does not look at the entry that moves to the place of one it
    removes. *)
Fixpoint wake (now : Timestamp.Timestamp) (l : list SleepEntry) : list Z * list SleepEntry :=
  match l with
  | [] => ([], [])
  | e :: l =>
    if Timestamp.ge now (wakeupTime e) then
      match l with
      | [] => ([thread e], [])
      | e' :: l => let '(w, r) := wake now l in (thread e :: w, e' :: r)
      end
    else let '(w, r) := wake now l in (w, e :: r)
  end.

(** The entries of the sleep list belong to distinct threads that exist. *)
Definition sleepers_ok (tbl : gmap Z Thread) (l : list SleepEntry) : Prop :=
  NoDup (thread <$> l) /\ Forall (fun e => is_Some (tbl !! thread e)) l.

Lemma entries_read_ok tbl i l : Forall (fun e => is_Some (tbl !! thread e)) l -> entries_read tbl i l = true.
Proof.
  induction 1 as [|e l [t Ht] _ IH]; [done|]. cbn [entries_read]. rewrite Ht. by destruct (id t =? i).
Qed.

Lemma first_index_entry tbl pre e0 e suf :
  thread e0 = thread e ->
  (forall p q t u, tbl !! p = Some t -> tbl !! q = Some u -> id t = id u -> p = q) ->
  is_Some (tbl !! thread e) -> (forall e', e' ∈ pre -> is_Some (tbl !! thread e') /\ thread e' <> thread e) ->
  first_index (NE := entry_ne tbl) e0 (pre ++ e :: suf) = Some (length pre).
Proof.
  intros He Hids [t Ht] Hpre. unfold first_index.
  rewrite (proj2 (list_find_Some _ _ (length pre) e)); [done|]. split_and!.
  - by rewrite list_lookup_middle.
  - unfold op_ne, entry_ne. apply bool_decide_eq_false. rewrite He. by intros [].
  - intros j y Hj Hlt. rewrite lookup_app_l in Hj by done. unfold op_ne, entry_ne. apply not_false_iff_true, bool_decide_eq_true.
    destruct (Hpre y) as [[u Hu] Hne]; [by eapply list_elem_of_lookup_2|]. rewrite He, Hu, Ht. cbn. intros [= E].
    by apply Hne, (Hids _ _ _ _ Hu Ht).
Qed.

Lemma remove_entry_spec pre e0 e suf k :
  thread e0 = thread e ->
  ArrayList.wf (sleepList k) -> ArrayList.len (sleepList k) < UINT32_MAX -> ids_unique k ->
  sleeping k = pre ++ e :: suf -> sleepers_ok (threads k) (sleeping k) ->
  exists l, remove_entry e0 k = Ok (tt, set_sleepList l k) /\ ArrayList.wf l /\ ArrayList.contents l = pre ++ suf.
Proof.
  intros He Hwf Hmax Hids Hs [Hnd Hex]. rewrite Hs in Hnd, Hex. unfold remove_entry. run.
  assert (is_Some (threads k !! thread e)) as [t Ht].
  { rewrite Forall_forall in Hex. apply Hex, elem_of_app. right. constructor. }
  unfold deref_thread. run. rewrite He, Ht. run. change (ArrayList.contents (sleepList k)) with (sleeping k). rewrite Hs, entries_read_ok by done.
  destruct (ArrayList.al_remove_spec (NE := entry_ne (threads k)) e0 (sleepList k)) as (l & E & Hl & Hc); [done|done|].
  run. rewrite E. run. exists l. split_and!; [done|done|]. rewrite Hc. change (ArrayList.contents (sleepList k)) with (sleeping k). rewrite Hs.
  unfold list_remove. rewrite first_index_entry; [|done|done|by eauto|].
  - cbn [snd]. by rewrite delete_middle.
  - intros e' He'. rewrite fmap_app, fmap_cons in Hnd. apply NoDup_app in Hnd as (_ & Hd & _). rewrite Forall_app in Hex. destruct Hex as [Hex _].
    rewrite Forall_forall in Hex. split; [by apply Hex|]. intros E'. apply (Hd (thread e')); [by apply list_elem_of_fmap_2|]. rewrite E'. constructor.
Qed.

Lemma same_queues k : set_sleepList (sleepList k) (set_readyQueue (readyQueue k) k) = k.
Proof. by destruct k. Qed.

Lemma sleeping_len k : ArrayList.wf (sleepList k) -> ArrayList.size (sleepList k) = zlen (sleeping k).
Proof. intros H. symmetry. by apply ArrayList.al_contents_length. Qed.

Lemma sleep_loop_spec now fuel : forall pre suf k,
  ArrayListBlockingQueue.wf (readyQueue k) -> ArrayList.wf (sleepList k) -> ids_unique k ->
  sleeping k = pre ++ suf -> sleepers_ok (threads k) (sleeping k) ->
  zlen (ready_threads k) + zlen (sleeping k) < 2 ^ 31 -> (length suf <= fuel)%nat ->
  exists q l, sleep_loop fuel now (zlen pre) k = Ok (tt, set_sleepList l (set_readyQueue q k)) /\
    ArrayListBlockingQueue.wf q /\ ArrayList.wf l /\
    ArrayListBlockingQueue.contents q = ready_threads k ++ (wake now suf).1 /\
    ArrayList.contents l = pre ++ (wake now suf).2.
Proof.
  induction fuel as [|fuel IH]; intros pre suf k Hq Hl Hids Hs Hok Hsize Hf; cbn [sleep_loop]; run; rewrite sleeping_len, Hs by done.
  { destruct suf; [|cbn in Hf; lia]. rewrite app_nil_r, Z.ltb_irrefl. exists (readyQueue k), (sleepList k).
    rewrite same_queues. cbn [wake fst snd]. rewrite !app_nil_r in *. done. }
  destruct suf as [|e suf].
  { rewrite app_nil_r, Z.ltb_irrefl. exists (readyQueue k), (sleepList k).
    rewrite same_queues. cbn [wake fst snd]. rewrite !app_nil_r in *. done. }
  assert (zlen pre <? zlen (pre ++ e :: suf) = true) as ->. { apply Z.ltb_lt. unfold zlen. rewrite length_app. cbn. lia. }
  run. rewrite ArrayList.al_get_spec by (done || unfold zlen; lia). change (ArrayList.contents (sleepList k)) with (sleeping k).
  rewrite Hs. replace (Z.to_nat (zlen pre)) with (length pre) by (unfold zlen; lia). rewrite list_lookup_middle by done. run. cbn [wake].
  assert (Hlen : ArrayList.len (sleepList k) < 2 ^ 31).
  { change (ArrayList.len (sleepList k)) with (ArrayList.size (sleepList k)). rewrite sleeping_len by done. unfold zlen in *. lia. }
  destruct (Timestamp.ge now (wakeupTime e)).
  - run. destruct (offer_spec (thread e) k) as (q1 & -> & Hq1 & Hc1); [done|unfold zlen in *; lia|]. run.
    destruct (remove_entry_spec pre e e suf (set_readyQueue q1 k)) as (l1 & -> & Hl1 & Hcl1); [done|done|unfold UINT32_MAX; cbn [sleepList set_readyQueue]; lia|done|done|done|]. run.
    set (k1 := set_sleepList l1 (set_readyQueue q1 k)). rewrite Hs in Hok, Hsize. destruct Hok as [Hnd Hex].
    assert (Hok1 : sleepers_ok (threads k1) (sleeping k1)).
    { unfold sleepers_ok, sleeping. cbn. rewrite Hcl1. rewrite fmap_app, fmap_cons in Hnd. split.
      - rewrite fmap_app. rewrite <- Permutation_middle in Hnd. by apply NoDup_cons in Hnd as [_ ?].
      - apply Forall_app in Hex as [? Hex']. apply Forall_cons in Hex' as [_ ?]. by apply Forall_app. }
    unfold zlen in Hsize. rewrite length_app in Hsize. cbn [length] in Hsize, Hf.
    assert (Hsz1 : zlen (ready_threads k1) + zlen (sleeping k1) < 2 ^ 31).
    { unfold zlen, ready_threads, sleeping. cbn. rewrite Hc1, Hcl1, !length_app. cbn. unfold ready_threads in *. lia. }
    destruct suf as [|e' suf].
    + assert (E : zlen pre + 1 = zlen (pre ++ [e])) by (unfold zlen; rewrite length_app; cbn; lia).
      destruct fuel as [|fuel]; cbn [sleep_loop]; run; rewrite sleeping_len by done; unfold sleeping; cbn; rewrite Hcl1, app_nil_r;
        (destruct (Z.ltb_spec (zlen pre + 1) (zlen pre)); [lia|]); exists q1, l1; rewrite Hcl1, Hc1, app_nil_r; done.
    + destruct (IH (pre ++ [e']) suf k1) as (q & l & E & Hq' & Hl' & Hcq & Hcl); try done.
      { unfold sleeping. cbn. by rewrite Hcl1, <- app_assoc. }
      { cbn [length] in Hf. lia. }
      replace (zlen pre + 1) with (zlen (pre ++ [e'])) by (unfold zlen; rewrite length_app; cbn; lia). rewrite E.
      exists q, l. destruct (wake now suf) as [w r]. cbn [fst snd] in *. rewrite Hcq, Hcl. unfold ready_threads at 1. cbn [readyQueue k1 set_sleepList set_readyQueue].
      rewrite Hc1, <- !app_assoc. done.
  - run. destruct (IH (pre ++ [e]) suf k) as (q & l & E & Hq' & Hl' & Hcq & Hcl); try done.
    { by rewrite <- app_assoc. }
    { cbn [length] in Hf. lia. }
    replace (zlen pre + 1) with (zlen (pre ++ [e])) by (unfold zlen; rewrite length_app; cbn; lia). rewrite E.
    exists q, l. destruct (wake now suf) as [w r]. cbn [fst snd] in *. rewrite Hcq, Hcl, <- !app_assoc. done.
Qed.

Lemma wake_two (P : list SleepEntry -> Prop) : P [] -> (forall e, P [e]) -> (forall e e' l, P l -> P (e' :: l) -> P (e :: e' :: l)) -> forall l, P l.
Proof.
  intros H0 H1 H2 l. enough (P l /\ forall e, P (e :: l)) as [? _] by done. induction l as [|e l [IH1 IH2]]; [auto|]. split; [done|]. intros e0. apply H2; auto.
Qed.

(** No sleeping thread is lost, and none is woken before its time. *)
Lemma wake_perm now l : (wake now l).1 ++ (thread <$> (wake now l).2) ≡ₚ thread <$> l.
Proof.
  induction l as [|e|e e' l IH IH'] using wake_two; [done|cbn; by case_match|].
  cbn [wake]. fold (wake now). destruct (Timestamp.ge now (wakeupTime e)).
  - destruct (wake now l) as [w r]. cbn in *. rewrite <- IH. by rewrite <- Permutation_middle.
  - change (if Timestamp.ge now (wakeupTime e') then _ else _) with (wake now (e' :: l)). destruct (wake now (e' :: l)) as [w r]. cbn in *. rewrite <- IH'. by rewrite <- Permutation_middle.
Qed.

Lemma wake_sound now l p : p ∈ (wake now l).1 -> exists e, e ∈ l /\ thread e = p /\ Timestamp.ge now (wakeupTime e) = true.
Proof.
  induction l as [|e|e e' l IH IH'] using wake_two.
  - by intros ?%elem_of_nil.
  - cbn. destruct (Timestamp.ge now (wakeupTime e)) eqn:E; cbn; [|by intros ?%elem_of_nil]. intros ->%list_elem_of_singleton. exists e. set_solver.
  - cbn [wake]. destruct (Timestamp.ge now (wakeupTime e)) eqn:E.
    + destruct (wake now l) as [w r]. cbn in *. intros [->|Hp]%elem_of_cons; [exists e; set_solver|]. destruct (IH Hp) as (x & ? & ?). exists x. set_solver.
    + change (if Timestamp.ge now (wakeupTime e') then _ else _) with (wake now (e' :: l)). destruct (wake now (e' :: l)) as [w r]. cbn in *. intros Hp.
      destruct (IH' Hp) as (x & ? & ?). exists x. set_solver.
Qed.

(** A pass wakes some thread if the time of any has come; otherwise it changes nothing. *)
Lemma wake_progress now l :
  ((wake now l).1 = [] -> (wake now l).2 = l /\ forall e, e ∈ l -> Timestamp.ge now (wakeupTime e) = false).
Proof.
  induction l as [|e l IH]; [intros _; split; [done|by intros e ?%elem_of_nil]|]. cbn [wake].
  destruct (Timestamp.ge now (wakeupTime e)) eqn:E; [destruct l as [|e' l]; [done|by destruct (wake now l)]|].
  destruct (wake now l) as [w r]. cbn in *. intros ->. destruct IH as [-> H]; [done|]. split; [done|]. intros x [->|?]%elem_of_cons; auto.
Qed.

(** What the queues need for [checkSleepList]. *)
Definition quiet (k : Kernel) : Prop :=
  ArrayListBlockingQueue.wf (readyQueue k) /\ ArrayList.wf (sleepList k) /\ ids_unique k /\
  sleepers_ok (threads k) (sleeping k) /\ zlen (ready_threads k) + zlen (sleeping k) < 2 ^ 31 /\
  sleepQueueLock k = unlocked.

Definition woken (q : ArrayListBlockingQueue Z) (l : ArrayList SleepEntry) (n : nat) (k : Kernel) : Kernel :=
  set_queries n (set_sleepList l (set_readyQueue q k)).

Section Clock.
Context (clock : nat -> Timestamp.Timestamp).

Lemma sleepers_wake tbl now l : sleepers_ok tbl l -> sleepers_ok tbl (wake now l).2.
Proof.
  assert (Hf : forall l, Forall (fun e => is_Some (tbl !! thread e)) l <-> Forall (fun p => is_Some (tbl !! p)) (thread <$> l)) by (intros; by rewrite Forall_fmap).
  unfold sleepers_ok. rewrite !Hf. rewrite <- (wake_perm now l). clear Hf.
  intros [Hn Hf]. apply NoDup_app in Hn as (_ & _ & ?). by apply Forall_app in Hf as [_ ?].
Qed.

Lemma checkSleepList_spec k :
  quiet k ->
  exists q l, let k' := woken q l (S (queries k)) k in checkSleepList clock k = Ok (tt, k') /\ quiet k' /\
    ready_threads k' = ready_threads k ++ (wake (clock (queries k)) (sleeping k)).1 /\
    sleeping k' = (wake (clock (queries k)) (sleeping k)).2.
Proof.
  intros (Hq & Hl & Hids & Hok & Hsz & Hlock). unfold checkSleepList. run. rewrite lock_tryAcquire_free by done. run. unfold getSystemTime. run.
  set (k1 := set_queries (S (queries k)) (set_sleepQueueLock locked k)).
  destruct (sleep_loop_spec (clock (queries k)) (Z.to_nat (ArrayList.size (sleepList k))) [] (sleeping k) k1) as (q & l & E & Hq' & Hl' & Hcq & Hcl); try done.
  { rewrite sleeping_len by done. unfold zlen. lia. }
  change (zlen []) with 0 in E. change (sleep_loop _ _ _ _) with (sleep_loop (Z.to_nat (ArrayList.size (sleepList k))) (clock (queries k)) 0 k1). rewrite E. run.
  exists q, l. cbv zeta. split.
  { destruct k. cbn [sleepQueueLock] in Hlock. subst. reflexivity. }
  assert (Hr : ready_threads (woken q l (S (queries k)) k) = ready_threads k ++ (wake (clock (queries k)) (sleeping k)).1) by exact Hcq.
  assert (Hs : sleeping (woken q l (S (queries k)) k) = (wake (clock (queries k)) (sleeping k)).2) by exact Hcl.
  split_and!; [|done|done]. unfold quiet. rewrite Hr, Hs. split_and!; try done.
  - by apply sleepers_wake.
  - pose proof (Permutation_length (wake_perm (clock (queries k)) (sleeping k))) as Hp. rewrite length_app, !length_fmap in Hp.
    unfold zlen in *. rewrite length_app. lia.
Qed.

(** ** Switching threads *)

(** The thread [next] runs in its address space, the lock is free, and the next use of
    the FPU is noticed. *)
Definition dispatch (next : Z) (k : Kernel) : Kernel :=
  set_readyQueueLock unlocked
    (set_addressSpace (match threads k !! next with Some t => parent t | None => 0 end)
      (set_fpuMonitor (fpu k || fpuMonitor k) (set_currentThread next k))).

(** The thread and its process exist. *)
Definition runnable (k : Kernel) (p : Z) : Prop :=
  exists t, threads k !! p = Some t /\ is_Some (processes k !! parent t).

Lemma switch_spec next k :
  runnable k next ->
  (armFpuMonitor;; switchThread next) (set_currentThread next k) = Ok (tt, dispatch next k).
Proof.
  intros (t & Ht & proc & Hp). unfold armFpuMonitor, switchThread, deref_thread, deref_process, dispatch. run. rewrite Ht.
  destruct (fpu k) eqn:Hf; run; rewrite Ht; run; rewrite Hp; run; unfold unlockReadyQueue; rewrite release_any; done.
Qed.

(** The spinning of [block] as a function of the two lists: the number of queries of the
    clock, the ready threads and the threads that still sleep. *)
Fixpoint idle (fuel n : nat) (r : list Z) (s : list SleepEntry) : option (nat * list Z * list SleepEntry) :=
  match fuel with
  | O => None
  | S fuel =>
    let '(w, s') := wake (clock n) s in
    match r ++ w with [] => idle fuel (S n) [] s' | r' => Some (S n, r', s') end
  end.

Lemma idle_loop_spec fuel : forall k,
  quiet k ->
  match idle fuel (queries k) (ready_threads k) (sleeping k) with
  | Some (n, r, s) => exists q l, idle_loop clock fuel k = Ok (tt, woken q l n k) /\ quiet (woken q l n k) /\
      ready_threads (woken q l n k) = r /\ sleeping (woken q l n k) = s /\ r <> []
  | None => idle_loop clock fuel k = Loops
  end.
Proof.
  induction fuel as [|fuel IH]; intros k Hk; [done|]. cbn [idle idle_loop]. run.
  destruct (checkSleepList_spec k Hk) as (q & l & E & Hq & Hr & Hs). rewrite E. run.
  set (k' := woken q l (S (queries k)) k) in *. destruct (wake (clock (queries k)) (sleeping k)) as [w s'] eqn:Hw. cbn [fst snd] in *.
  rewrite isEmpty_spec by apply Hq. change (ArrayListBlockingQueue.contents (readyQueue k')) with (ready_threads k'). rewrite <- Hr.
  destruct (ready_threads k') as [|x r] eqn:Er.
  - rewrite bool_decide_true by done. specialize (IH k' Hq). rewrite Hs in IH. rewrite Er in IH. change (queries k') with (S (queries k)) in IH.
    destruct (idle fuel (S (queries k)) [] s') as [[[n r] s]|]; [|done]. destruct IH as (q2 & l2 & E2 & H2). exists q2, l2. done.
  - rewrite bool_decide_false by done. exists q, l. split_and!; done.
Qed.

(** [block] waits until some thread is ready and switches to it; it returns with the
    lock held when that is the thread that called it. *)
Lemma block_spec fuel k n next rest s :
  quiet k -> readyQueueLock k = unlocked ->
  idle fuel (queries k) (ready_threads k) (sleeping k) = Some (n, next :: rest, s) -> runnable k next ->
  exists q l, let k' := woken q l n k in
    block clock fuel k = Ok (tt, if currentThread k =? next then set_readyQueueLock locked (set_currentThread next k') else dispatch next k') /\
    ArrayListBlockingQueue.wf q /\ ArrayList.wf l /\ ready_threads k' = rest /\ sleeping k' = s.
Proof.
  intros Hk Hlock Hidle Hrun. unfold block. run. rewrite acquire_free by done. run.
  assert (Hk1 : quiet (set_readyQueueLock locked k)) by done.
  pose proof (idle_loop_spec fuel _ Hk1) as H. change (queries (set_readyQueueLock locked k)) with (queries k) in H.
  change (ready_threads (set_readyQueueLock locked k)) with (ready_threads k) in H. change (sleeping (set_readyQueueLock locked k)) with (sleeping k) in H.
  rewrite Hidle in H. destruct H as (q & l & E & Hq & Hr & Hs & _). rewrite E. run. set (k1 := woken q l n (set_readyQueueLock locked k)) in *.
  pose proof (poll_spec k1 (proj1 Hq)) as Hp. rewrite Hr in Hp. destruct Hp as (q2 & E2 & Hq2 & Hc2). rewrite E2. run. exists q2, l. cbv zeta.
  split; [|split_and!; [done|apply Hq|done|done]].
  change (currentThread k1) with (currentThread k). destruct (Z.eqb_spec (currentThread k) next); [done|].
  pose proof (switch_spec next (set_readyQueue q2 k1) Hrun) as Hsw. etransitivity; [exact Hsw|]. done.
Qed.

(** [yield] lets the first ready thread run and queues the caller behind the others. *)
Lemma yield_spec k :
  quiet k -> readyQueueLock k = unlocked -> initialized k = true -> zlen (ready_threads k) + zlen (sleeping k) < 2 ^ 31 - 1 ->
  let '(w, s) := wake (clock (queries k)) (sleeping k) in
  match ready_threads k ++ w with
  | [] => yield clock k = Loops
  | next :: rest => runnable k next ->
      exists q l, let k' := dispatch next (woken q l (S (queries k)) k) in
        yield clock k = Ok (tt, k') /\ ArrayListBlockingQueue.wf q /\ ArrayList.wf l /\
        ready_threads k' = rest ++ [currentThread k] /\ sleeping k' = s
  end.
Proof.
  intros Hk Hlock Hinit Hsz. destruct (checkSleepList_spec (set_readyQueueLock locked k) Hk) as (q & l & E & Hq & Hr & Hs).
  change (sleeping (set_readyQueueLock locked k)) with (sleeping k) in *. change (queries (set_readyQueueLock locked k)) with (queries k) in *.
  change (ready_threads (set_readyQueueLock locked k)) with (ready_threads k) in *.
  set (k1 := woken q l (S (queries k)) (set_readyQueueLock locked k)) in *.
  pose proof (Permutation_length (wake_perm (clock (queries k)) (sleeping k))) as Hp. rewrite length_app, !length_fmap in Hp.
  destruct (wake (clock (queries k)) (sleeping k)) as [w s] eqn:Hw. cbn [fst snd] in *.
  unfold yield. run. rewrite Hinit. run. rewrite lock_tryAcquire_free by done. run. rewrite E. run.
  pose proof (poll_spec k1 (proj1 Hq)) as Hpoll. rewrite Hr in Hpoll. apply (f_equal (@length Z)) in Hr. rewrite length_app in Hr.
  destruct (ready_threads k ++ w) as [|next rest] eqn:Er.
  { by rewrite Hpoll. }
  intros Hrun. destruct Hpoll as (q2 & E2 & Hq2 & Hc2). rewrite E2. run. apply (f_equal (@length Z)) in Er. rewrite length_app in Er. cbn [length] in Er.
  destruct (offer_spec (currentThread k1) (set_currentThread next (set_readyQueue q2 k1))) as (q3 & E3 & Hq3 & Hc3);
    [done|unfold ready_threads; cbn [readyQueue set_currentThread set_readyQueue]; rewrite Hc2; unfold zlen in *; lia|].
  change (currentThread k1) with (currentThread k) in *. rewrite E3. run. exists q3, l. cbv zeta.
  split; [|split_and!; [done|apply Hq|rewrite <- Hc2; exact Hc3|done]].
  pose proof (switch_spec next (set_readyQueue q3 k1) Hrun) as Hsw. etransitivity; [exact Hsw|]. done.
Qed.

(** ** Moving threads between places *)

Lemma joiners_insert (g : gmap Z (list Z)) i l x : g !! i = Some l -> joiners (<[i := l ++ [x]]> g) ≡ₚ x :: joiners g.
Proof.
  intros Hi. unfold joiners. rewrite <- (insert_id g i l Hi) at 2. rewrite <- !(insert_delete_eq g).
  rewrite !map_to_list_insert by apply lookup_delete_eq. cbn. rewrite <- app_assoc. cbn. by rewrite <- Permutation_middle.
Qed.

Lemma joiners_empty (g : gmap Z (list Z)) i : g !! i = None -> joiners (<[i := []]> g) ≡ₚ joiners g.
Proof. intros Hi. unfold joiners. by rewrite map_to_list_insert. Qed.

Lemma joiners_delete (g : gmap Z (list Z)) i l : g !! i = Some l -> joiners g ≡ₚ l ++ joiners (delete i g).
Proof.
  intros Hi. unfold joiners. rewrite <- (insert_id g i l Hi) at 1. rewrite <- (insert_delete_eq g).
  by rewrite map_to_list_insert by apply lookup_delete_eq.
Qed.

Lemma inv_quiet k : inv k -> quiet k /\ zlen (ready_threads k) + zlen (sleeping k) < 2 ^ 31 - 1 /\ (forall l i, joining k !! i = Some l -> zlen l < 2 ^ 31 - 1).
Proof.
  intros [(Hq & Hl & Hm & Hw) (L1 & L2 & L3 & L4) Hi Hn Ha Hu Hz]. unfold places, blocked in *.
  apply NoDup_cons in Hn as [_ Hn]. apply NoDup_app in Hn as (_ & _ & Hn). apply NoDup_app in Hn as (Hn & _ & _).
  assert (Hz' : zlen (ready_threads k) + zlen (sleeping k) + zlen (joiners (joining k)) < 2 ^ 31 - 1).
  { unfold zlen in *. cbn in Hz. rewrite !length_app, length_fmap in Hz. lia. }
  split; [|split; [unfold zlen in *; lia|]].
  - split_and!; try done; [|unfold zlen in *; lia]. split; [done|]. apply Forall_cons in Ha as [_ Ha]. apply Forall_app in Ha as [_ Ha].
    apply Forall_app in Ha as [Ha _]. rewrite Forall_fmap in Ha. eapply Forall_impl; [exact Ha|]. intros e (_ & t & proc & Ht & _). cbn in Ht. rewrite Ht. by eexists.
  - intros l i Hl'. rewrite (joiners_delete _ _ _ Hl') in Hz'. unfold zlen in *. rewrite length_app in Hz'. lia.
Qed.

Lemma inv_perm k k' :
  inv k -> structures_ok k' -> locks_free k' -> initialized k' = true ->
  threads k' = threads k -> processes k' = processes k -> (forall i, is_Some (joining k !! i) -> is_Some (joining k' !! i)) ->
  places k' ≡ₚ places k -> inv k'.
Proof.
  intros [Hs Hl Hi Hn Ha Hu Hz] Hs' Hl' Hi' Ht Hpr Hj Hp. split; [done|done|done|by rewrite Hp| | |].
  - rewrite Hp. eapply Forall_impl; [exact Ha|]. intros p (H0 & t & proc & H1 & H2 & H3 & H4 & H5). split; [done|]. exists t, proc.
    rewrite Ht, Hpr. split_and!; auto.
  - unfold ids_unique. by rewrite Ht.
  - unfold zlen. by rewrite Hp.
Qed.

Lemma inv_runnable k p : inv k -> p ∈ places k -> runnable k p.
Proof.
  intros [_ _ _ _ Ha _ _] Hp. rewrite Forall_forall in Ha. destruct (Ha p Hp) as (_ & t & proc & Ht & Hproc & _). exists t. eauto.
Qed.

Lemma idle_perm fuel : forall n r s n' r' s', idle fuel n r s = Some (n', r', s') -> r' ++ (thread <$> s') ≡ₚ r ++ (thread <$> s).
Proof.
  induction fuel as [|fuel IH]; intros n r s n' r' s'; cbn [idle]; [done|].
  pose proof (wake_perm (clock n) s) as Hp. destruct (wake (clock n) s) as [w s1]. cbn [fst snd] in *.
  destruct (r ++ w) as [|x r1] eqn:E.
  - apply app_nil in E as [-> ->]. intros H. apply IH in H. rewrite H. by rewrite <- Hp.
  - intros [= <- <- <-]. rewrite <- E, <- app_assoc. by rewrite Hp.
Qed.

Lemma yield_inv k k' : inv k -> yield clock k = Ok (tt, k') -> inv k' /\ places k' ≡ₚ places k.
Proof.
  intros Hinv Hy. destruct (inv_quiet k Hinv) as (Hq & Hz & _). pose proof Hinv as [(_ & _ & Hm & Hw) (L1 & L2 & L3 & L4) Hi Hn _ _ _].
  pose proof (yield_spec k Hq L1 Hi Hz) as H. pose proof (wake_perm (clock (queries k)) (sleeping k)) as Hp.
  destruct (wake (clock (queries k)) (sleeping k)) as [w s]. cbn [fst snd] in Hp. destruct (ready_threads k ++ w) as [|next rest] eqn:E; [congruence|].
  assert (Hpl : next :: rest ++ (currentThread k :: (thread <$> s) ++ joiners (joining k)) ≡ₚ places k).
  { unfold places, blocked. rewrite app_comm_cons, <- E, <- Permutation_middle, <- !app_assoc. by rewrite (app_assoc w), Hp. }
  destruct H as (q & l & E' & Hq' & Hl' & Hr & Hs); [apply inv_runnable; [done|]; rewrite <- Hpl; constructor|].
  rewrite E' in Hy. injection Hy as <-. cbv zeta in *. set (k' := dispatch next (woken q l (S (queries k)) k)) in *.
  assert (Hpl' : places k' ≡ₚ places k).
  { rewrite <- Hpl. unfold places, blocked. rewrite Hr, Hs, <- app_assoc. done. }
  split; [|done]. eapply inv_perm; try done; split_and!; done.
Qed.

Lemma block_loops fuel k :
  quiet k -> readyQueueLock k = unlocked -> idle fuel (queries k) (ready_threads k) (sleeping k) = None -> block clock fuel k = Loops.
Proof.
  intros Hk Hlock Hidle. unfold block. run. rewrite acquire_free by done. run.
  assert (Hk1 : quiet (set_readyQueueLock locked k)) by done.
  pose proof (idle_loop_spec fuel _ Hk1) as H. change (queries (set_readyQueueLock locked k)) with (queries k) in H.
  change (ready_threads (set_readyQueueLock locked k)) with (ready_threads k) in H. change (sleeping (set_readyQueueLock locked k)) with (sleeping k) in H.
  rewrite Hidle in H. by rewrite H.
Qed.

Lemma idle_nonempty fuel : forall n r s n' r' s', idle fuel n r s = Some (n', r', s') -> r' <> [].
Proof.
  induction fuel as [|fuel IH]; intros n r s n' r' s'; cbn [idle]; [done|].
  destruct (wake (clock n) s) as [w s1]. destruct (r ++ w); [apply IH|]. by intros [= _ <- _].
Qed.

(** A [block] that gives up the lock has switched to another thread; the threads are at
    the places where they were, but for the one that runs now. *)
Lemma block_moves fuel k k' :
  quiet k -> structures_ok k -> locks_free k -> Forall (runnable k) (ready_threads k ++ (thread <$> sleeping k)) ->
  block clock fuel k = Ok (tt, k') -> readyQueueLock k' = unlocked ->
  structures_ok k' /\ locks_free k' /\ initialized k' = initialized k /\ threads k' = threads k /\ processes k' = processes k /\
  joining k' = joining k /\ places k' ≡ₚ ready_threads k ++ blocked k.
Proof.
  intros Hq (S1 & S2 & S3 & S4) (L1 & L2 & L3 & L4) Hrun Hb Hl.
  destruct (idle fuel (queries k) (ready_threads k) (sleeping k)) as [[[n r] s]|] eqn:Hi; [|rewrite block_loops in Hb; done].
  pose proof (idle_perm _ _ _ _ _ _ _ Hi) as Hp. destruct r as [|next rest]; [by apply idle_nonempty in Hi|].
  assert (Hnext : runnable k next). { rewrite Forall_forall in Hrun. apply Hrun. rewrite <- Hp. cbn. constructor. }
  destruct (block_spec _ _ _ _ _ _ Hq L1 Hi Hnext) as (q & l & E & Hwq & Hwl & Hr & Hs). cbv zeta in *. rewrite E in Hb. injection Hb as <-.
  destruct (currentThread k =? next); [done|]. split_and!; try done.
  unfold places, blocked. change (currentThread (dispatch next (woken q l n k))) with next.
  change (ready_threads (dispatch next (woken q l n k))) with (ready_threads (woken q l n k)). rewrite Hr.
  change (sleeping (dispatch next (woken q l n k))) with (sleeping (woken q l n k)). rewrite Hs.
  rewrite !app_assoc, app_comm_cons, app_comm_cons. rewrite Hp. done.
Qed.

(** With a ready thread, [block] switches to the first one. *)
Lemma block_ready fuel k next r :
  quiet k -> readyQueueLock k = unlocked -> Forall (runnable k) (ready_threads k ++ (thread <$> sleeping k)) ->
  ready_threads k = next :: r -> currentThread k <> next ->
  exists k', block clock (S fuel) k = Ok (tt, k') /\ readyQueueLock k' = unlocked /\ currentThread k' = next /\
    threadQueue k' = threadQueue k /\ processList k' = processList k /\ processLock k' = processLock k.
Proof.
  intros Hq Hl Hrun Hr Hne. destruct (wake (clock (queries k)) (sleeping k)) as [w s] eqn:Hw.
  assert (Hi : idle (S fuel) (queries k) (ready_threads k) (sleeping k) = Some (S (queries k), next :: r ++ w, s)) by (cbn [idle]; by rewrite Hw, Hr).
  assert (Hn : runnable k next). { rewrite Hr in Hrun. by apply Forall_cons in Hrun as [? _]. }
  destruct (block_spec _ _ _ _ _ _ Hq Hl Hi Hn) as (q & l & E & _). cbv zeta in E. rewrite (proj2 (Z.eqb_neq _ _) Hne) in E. eauto 10.
Qed.

Lemma inv_places_runnable k : inv k -> Forall (runnable k) (ready_threads k ++ (thread <$> sleeping k)).
Proof.
  intros Hinv. apply Forall_forall. intros p Hp. apply inv_runnable; [done|]. unfold places, blocked. set_solver.
Qed.

(** *** [sleep] *)

Definition asleep (l : ArrayList SleepEntry) (k : Kernel) : Kernel := set_sleepList l (set_queries (S (queries k)) k).

Lemma sleep_run fuel time k :
  inv k ->
  let e := mkEntry (currentThread k) (Timestamp.plus (clock (queries k)) time) in
  exists l, let k1 := asleep l k in
    sleep clock fuel time k = block clock fuel k1 /\ quiet k1 /\ structures_ok k1 /\ locks_free k1 /\ sleeping k1 = sleeping k ++ [e].
Proof.
  intros Hinv e. destruct (inv_quiet k Hinv) as ((Hq & Hl & Hu & [Hd He] & _ & _) & Hz & _). pose proof Hinv as [(S1 & S2 & S3 & S4) (L1 & L2 & L3 & L4) Hi Hn Ha _ _].
  unfold sleep. run. rewrite acquire_free by done. run. unfold getSystemTime. run.
  destruct (ArrayList.add_spec (mkEntry 0 (Timestamp.mk 0 0)) e (sleepList k)) as (l & E & Hwl & Hc); [done| |].
  { change (ArrayList.len (sleepList k)) with (ArrayList.size (sleepList k)). rewrite sleeping_len by done. unfold zlen in *. lia. }
  fold e. rewrite E. run. exists l. cbv zeta. set (k1 := asleep l k).
  assert (Hs1 : sleeping k1 = sleeping k ++ [e]) by exact Hc. split.
  - rewrite release_any. run. f_equal. unfold k1, asleep. destruct k. cbn in L2. by subst.
  - split; [|done]. unfold quiet. split_and!; try done.
    + unfold sleepers_ok. rewrite Hs1. change (threads k1) with (threads k). split.
      * rewrite fmap_app. apply NoDup_app. split_and!; [done| |apply NoDup_singleton].
        intros x Hx ->%list_elem_of_singleton. unfold places, blocked in Hn. apply NoDup_cons in Hn as [Hn _]. apply Hn. set_solver.
      * apply Forall_app. split; [done|]. apply Forall_cons. split; [|constructor].
        unfold places in Ha. apply Forall_cons in Ha as [(_ & t & _ & Ht & _) _]. cbn [thread e]. eauto.
    + rewrite Hs1, zlen_app. change (ready_threads k1) with (ready_threads k). change (zlen [e]) with 1. lia.
Qed.

Lemma sleep_inv fuel time k k' :
  inv k -> sleep clock fuel time k = Ok (tt, k') -> readyQueueLock k' = unlocked -> inv k' /\ places k' ≡ₚ places k.
Proof.
  intros Hinv Hs Hl. destruct (sleep_run fuel time k Hinv) as (l & E & Hq & Hst & Hlk & Hsl). cbv zeta in *. rewrite E in Hs.
  destruct (block_moves fuel (asleep l k) k' Hq Hst Hlk) as (H1 & H2 & H3 & H4 & H5 & H6 & H7); [|done|done|].
  { rewrite Hsl, fmap_app, app_assoc. apply Forall_app. split; [exact (inv_places_runnable k Hinv)|].
    apply Forall_cons. split; [|constructor]. refine (inv_runnable k _ Hinv _). constructor. }
  assert (Hp : places k' ≡ₚ places k).
  { rewrite H7. unfold blocked. rewrite Hsl, fmap_app. change (ready_threads (asleep l k)) with (ready_threads k).
    change (joining (asleep l k)) with (joining k). unfold places, blocked. cbn. rewrite <- !app_assoc. cbn. by rewrite <- !Permutation_middle. }
  split; [|done]. eapply inv_perm; try done. rewrite H3. apply Hinv. by rewrite H6.
Qed.

(** *** [join] *)

Lemma joining_lookup k i l : joining k !! i = Some l <-> exists a, HashMap.to_map (joinMap k) !! i = Some a /\ ArrayList.contents a = l.
Proof. unfold joining. rewrite lookup_fmap. destruct (HashMap.to_map (joinMap k) !! i); cbn; naive_solver. Qed.

Lemma joining_none k i : joining k !! i = None <-> HashMap.to_map (joinMap k) !! i = None.
Proof. unfold joining. rewrite lookup_fmap. by destruct (HashMap.to_map (joinMap k) !! i). Qed.

Lemma join_run fuel p t l k :
  inv k -> threads k !! p = Some t -> joining k !! id t = Some l ->
  exists m, let k1 := set_joinMap m k in
    join clock fuel p k = block clock fuel k1 /\ structures_ok k1 /\ joining k1 = <[id t := l ++ [currentThread k]]> (joining k).
Proof.
  intros Hinv Ht Hl. destruct (inv_quiet k Hinv) as (_ & _ & Hz). specialize (Hz _ _ Hl). pose proof Hinv as [(S1 & S2 & S3 & S4) (L1 & L2 & L3 & L4) _ _ _ _ _].
  apply joining_lookup in Hl as (a & Ha & <-). unfold join. run. rewrite acquire_free by done. run. unfold deref_thread. run. rewrite Ht. run.
  rewrite containsKey_spec by done. rewrite Ha, bool_decide_true by eauto. run.
  pose proof (hm_get_spec (id t) (joinMap k) S3) as Hg. rewrite Ha in Hg. destruct Hg as (m1 & -> & Hm1 & Hmap1 & _). run.
  pose proof (S4 _ _ Ha) as Hwa. destruct (ArrayList.add_spec 0 (currentThread k) a Hwa) as (a' & -> & Hwa' & Hca').
  { rewrite <- ArrayList.al_contents_length by done. lia. }
  run. destruct (put_spec (id t) a' m1 Hm1) as (m2 & -> & Hm2 & _ & Hmap2 & _). run. exists m2. cbv zeta. rewrite Hmap1 in Hmap2. split_and!.
  - rewrite release_any. run. f_equal. destruct k. cbn in L3. by subst.
  - split_and!; [done|done|done|]. change (map_Forall (fun _ l => ArrayList.wf l) (HashMap.to_map m2)). rewrite Hmap2. by apply map_Forall_insert_2.
  - change (ArrayList.contents <$> HashMap.to_map m2 = <[id t := ArrayList.contents a ++ [currentThread k]]> (joining k)).
    by rewrite Hmap2, fmap_insert, Hca'.
Qed.

Lemma join_inv fuel p k k' :
  inv k -> join clock fuel p k = Ok (tt, k') -> readyQueueLock k' = unlocked -> joinLock k' = unlocked -> inv k' /\ places k' ≡ₚ places k.
Proof.
  intros Hinv Hj Hl1 Hl2. destruct (threads k !! p) as [t|] eqn:Ht.
  2:{ unfold join in Hj. run. rewrite bind_run, acquire_free in Hj by apply Hinv. revert Hj. run. unfold deref_thread. run. by rewrite Ht. }
  destruct (joining k !! id t) as [l|] eqn:Hl.
  2:{ unfold join in Hj. rewrite bind_run, acquire_free in Hj by apply Hinv. revert Hj. run. unfold deref_thread. run. rewrite Ht. run.
      rewrite containsKey_spec by apply Hinv. apply joining_none in Hl. rewrite Hl, bool_decide_false by (by intros [? ?]). run. intros [= <-]. done. }
  destruct (join_run fuel p t l k Hinv Ht Hl) as (m & E & Hst & Hjm). cbv zeta in *. rewrite E in Hj.
  destruct (inv_quiet k Hinv) as (Hq & _ & _). pose proof Hinv as [_ Hlk Hi _ _ _ _].
  destruct (block_moves fuel (set_joinMap m k) k' Hq Hst Hlk) as (H1 & H2 & H3 & H4 & H5 & H6 & H7); [exact (inv_places_runnable k Hinv)|done|done|].
  assert (Hp : places k' ≡ₚ places k).
  { rewrite H7. unfold blocked. rewrite Hjm, joiners_insert by done. unfold places, blocked. rewrite <- !Permutation_middle. done. }
  split; [|done]. eapply inv_perm; try done. { by rewrite H3. } rewrite H6, Hjm. intros i Hs. rewrite lookup_insert_is_Some'. auto.
Qed.

(** Joining a thread that has terminated returns with the lock of the join map held. *)
Lemma join_terminated fuel p t k :
  inv k -> threads k !! p = Some t -> joining k !! id t = None -> join clock fuel p k = Ok (tt, set_joinLock locked k).
Proof.
  intros Hinv Ht Hl. unfold join. run. rewrite acquire_free by apply Hinv. run. unfold deref_thread. run. rewrite Ht. run.
  rewrite containsKey_spec by apply Hinv. apply joining_none in Hl. rewrite Hl, bool_decide_false by (by intros [? ?]). done.
Qed.

(** *** [ready] and [unblock] *)

(** The list of threads of a process changes. *)
Definition with_threads (pr : Z) (proc : Process) (l : ArrayList Z) (k : Kernel) : Kernel :=
  set_processes (<[pr := mkProcess (pid proc) l (finished proc) (exitCode proc) (mainThread proc)]> (processes k)) k.

Lemma addThread_spec pr p proc k :
  processes k !! pr = Some proc -> ArrayList.wf (pthreads proc) -> ArrayList.len (pthreads proc) < 2 ^ 31 ->
  exists l, addThread pr p k = Ok (tt, with_threads pr proc l k) /\ ArrayList.wf l /\
    ArrayList.contents l = ArrayList.contents (pthreads proc) ++ [p].
Proof.
  intros Hp Hw Hl. unfold addThread, deref_process. run. rewrite Hp. run.
  destruct (ArrayList.add_spec 0 p _ Hw Hl) as (l & -> & ? & ?). run. eauto.
Qed.

Lemma removeThread_spec pr p proc k :
  processes k !! pr = Some proc -> ArrayList.wf (pthreads proc) -> ArrayList.len (pthreads proc) < 2 ^ 31 ->
  exists l, removeThread pr p k = Ok (tt, with_threads pr proc l k) /\ ArrayList.wf l /\
    ArrayList.contents l = (list_remove p (ArrayList.contents (pthreads proc))).2.
Proof.
  intros Hp Hw Hl. unfold removeThread, deref_process. run. rewrite Hp. run.
  destruct (ArrayList.al_remove_spec p _ Hw) as (l & -> & ? & ?); [unfold UINT32_MAX; lia|]. run. eauto.
Qed.

(** Taking away or adding the entries of one thread keeps the others alive. *)
Lemma alive_mono k k' p :
  (forall t, threads k !! p = Some t -> threads k' !! p = Some t) ->
  (forall pr proc, processes k !! pr = Some proc -> ArrayList.wf (pthreads proc) -> ArrayList.len (pthreads proc) < 2 ^ 31 ->
     exists proc', processes k' !! pr = Some proc' /\ ArrayList.wf (pthreads proc') /\ ArrayList.len (pthreads proc') < 2 ^ 31) ->
  (forall t, threads k !! p = Some t -> is_Some (joining k !! id t) -> is_Some (joining k' !! id t)) ->
  alive k p -> alive k' p.
Proof.
  intros Ht Hp Hj (H0 & t & proc & H1 & H2 & H3 & H4 & H5). split; [done|]. destruct (Hp _ _ H2 H3 H4) as (proc' & ? & ? & ?).
  exists t, proc'. split_and!; auto.
Qed.

Lemma with_threads_ok pr proc l k :
  ArrayList.wf l -> ArrayList.len l < 2 ^ 31 ->
  forall pr' proc0, processes k !! pr' = Some proc0 -> ArrayList.wf (pthreads proc0) -> ArrayList.len (pthreads proc0) < 2 ^ 31 ->
    exists proc', processes (with_threads pr proc l k) !! pr' = Some proc' /\ ArrayList.wf (pthreads proc') /\ ArrayList.len (pthreads proc') < 2 ^ 31.
Proof.
  intros Hw Hl pr' proc0 H1 H2 H3. cbn. destruct (decide (pr = pr')) as [->|].
  - rewrite lookup_insert_eq. eauto.
  - rewrite lookup_insert_ne by done. eauto.
Qed.

Lemma lockReadyQueue_free k : readyQueueLock k = unlocked -> memoryLocked k = false -> lockReadyQueue k = Ok (tt, set_readyQueueLock locked k).
Proof. intros H1 H2. unfold lockReadyQueue. run. rewrite acquire_free by done. run. by rewrite H2. Qed.

Lemma waitForJoinLock_free k : joinLock k = unlocked -> waitForJoinLock k = Ok (tt, set_joinLock locked k).
Proof. intros H. unfold waitForJoinLock. run. by rewrite lock_tryAcquire_free. Qed.

(** What makes a thread new: an object with its process and an id that is not in use. *)
Definition fresh_thread (k : Kernel) (p : Z) : Prop :=
  p <> 0 /\ p ∉ places k /\ zlen (places k) < 2 ^ 31 - 1 /\
  exists t proc, threads k !! p = Some t /\ processes k !! parent t = Some proc /\ ArrayList.wf (pthreads proc) /\
    ArrayList.len (pthreads proc) < 2 ^ 31 - 1 /\ joining k !! id t = None.

Lemma ready_not_contained k p : ArrayListBlockingQueue.wf (readyQueue k) -> zlen (ready_threads k) < 2 ^ 31 -> p ∉ ready_threads k ->
  ArrayListBlockingQueue.contains p (readyQueue k) = Ok false.
Proof.
  intros Hq Hz Hp. rewrite alq_contains_spec by (done || unfold ready_threads, UINT32_MAX in *; lia). f_equal.
  apply bool_decide_eq_false. intros [j Hj]. unfold first_index in Hj. apply fmap_Some in Hj as ([j' y] & Hf & _).
  apply list_find_Some in Hf as (Hl & Hne & _). apply bool_decide_eq_false in Hne. apply Hp.
  replace p with y by (destruct (decide (y = p)); [done|]; exfalso; auto). by eapply list_elem_of_lookup_2.
Qed.

Definition readied (p : Z) (t : Thread) (proc : Process) (a : ArrayList Z) (k k' : Kernel) : Prop :=
  (currentThread k' = currentThread k /\ threads k' = threads k /\ threadQueue k' = threadQueue k /\ processList k' = processList k /\ processLock k' = processLock k /\ sleeping k' = sleeping k) /\
  processes k' = processes (with_threads (parent t) proc a k) /\ ArrayList.wf a /\ ArrayList.contents a = ArrayList.contents (pthreads proc) ++ [p] /\
  joining k' = <[id t := []]> (joining k) /\ places k' ≡ₚ p :: places k /\ ready_threads k' = ready_threads k ++ [p].

Lemma ready_run k p :
  inv k -> fresh_thread k p ->
  exists k' t proc a, ready p k = Ok (tt, k') /\ inv k' /\ threads k !! p = Some t /\ processes k !! parent t = Some proc /\ readied p t proc a k k'.
Proof.
  intros Hinv (H0 & Hnew & Hz & t & proc & Ht & Hp & Hw & Hlen & Hj). pose proof Hinv as [(S1 & S2 & S3 & S4) (L1 & L2 & L3 & L4) Hi Hn Ha Hu _].
  destruct (inv_quiet k Hinv) as (_ & Hz' & _). unfold ready. run. rewrite lockReadyQueue_free by done. run. rewrite waitForJoinLock_free by done. run.
  rewrite ready_not_contained; [|done|unfold zlen in *; lia|unfold places in Hnew; set_solver]. run.
  set (k1 := set_joinLock locked (set_readyQueueLock locked k)).
  destruct (offer_spec p k1) as (q & -> & Hq & Hc); [done|change (ready_threads k1) with (ready_threads k); unfold zlen in *; lia|]. run.
  unfold deref_thread. run. change (threads k1) with (threads k). rewrite Ht. run.
  destruct (addThread_spec (parent t) p proc (set_readyQueue q k1)) as (l & -> & Hwl & Hcl); [done|done|lia|]. run.
  destruct (put_spec (id t) ArrayList_empty (joinMap k) S3) as (m & E & Hm & _ & Hmap & _). change (joinMap (with_threads _ _ _ _)) with (joinMap k). rewrite E. run. rewrite !release_any. run. eexists _, t, proc, l. split; [done|].
  match goal with |- inv ?k2 /\ _ => set (k' := k2) end.
  assert (Hj' : joining k' = <[id t := []]> (joining k)).
  { unfold joining. change (joinMap k') with m. by rewrite Hmap, fmap_insert. }
  assert (Hpl : places k' ≡ₚ p :: places k).
  { unfold places, blocked. change (ready_threads k') with (ArrayListBlockingQueue.contents q). rewrite Hc, Hj', joiners_empty by done.
    change (currentThread k') with (currentThread k). change (sleeping k') with (sleeping k). change (ready_threads k1) with (ready_threads k).
    rewrite <- app_assoc. cbn. rewrite <- Permutation_middle. apply perm_swap. }
  assert (Hlen' : ArrayList.len l < 2 ^ 31).
  { rewrite <- ArrayList.al_contents_length, Hcl, zlen_app, ArrayList.al_contents_length by done. change (zlen [p]) with 1. lia. }
  split; [|split_and!; [done|done|]; unfold readied; split_and!; try done; exact Hc]. split.
  - split_and!; [done|done|done|]. change (joinMap k') with m. rewrite Hmap. apply map_Forall_insert_2; [apply wf_empty|done].
  - done.
  - done.
  - rewrite Hpl. by apply NoDup_cons.
  - rewrite Hpl. apply Forall_cons. split.
    + split; [done|]. exists t. eexists. split_and!; [done|apply lookup_insert_eq|done|done|]. rewrite Hj', lookup_insert_eq. by eexists.
    + eapply Forall_impl; [exact Ha|]. intros x. apply alive_mono; [done|exact (with_threads_ok (parent t) proc l k Hwl Hlen')|]. intros u _. rewrite Hj'. rewrite lookup_insert_is_Some'. auto.
  - done.
  - rewrite Hpl. unfold zlen in *. cbn [length]. lia.
Qed.

Lemma ready_inv k p :
  inv k -> fresh_thread k p -> exists k', ready p k = Ok (tt, k') /\ inv k' /\ places k' ≡ₚ p :: places k /\ ready_threads k' = ready_threads k ++ [p].
Proof. intros Hinv Hf. destruct (ready_run k p Hinv Hf) as (k' & t & proc & a & ? & ? & _ & _ & (_ & _ & _ & _ & _ & ? & ?)). eauto. Qed.

(** *** [exit] and [kill] *)

Lemma offer_joiners_spec a : ArrayList.wf a -> forall n i k,
  0 <= i -> Z.of_nat n = ArrayList.len a - i ->
  ArrayListBlockingQueue.wf (readyQueue k) -> zlen (ready_threads k) + Z.of_nat n < 2 ^ 31 ->
  exists q, offer_joiners n i a k = Ok (tt, set_readyQueue q k) /\ ArrayListBlockingQueue.wf q /\
    ArrayListBlockingQueue.contents q = ready_threads k ++ drop (Z.to_nat i) (ArrayList.contents a).
Proof.
  intros Ha. pose proof (ArrayList.al_contents_length a Ha) as Hl. induction n as [|n IH]; intros i k Hi Hn Hq Hz; cbn [offer_joiners].
  - exists (readyQueue k). split; [by destruct k|]. split; [done|]. rewrite drop_ge by (unfold zlen in *; lia). by rewrite app_nil_r.
  - run. rewrite ArrayList.al_get_spec by done. destruct (lookup_lt_is_Some_2 (ArrayList.contents a) (Z.to_nat i)) as [x Hx]; [unfold zlen in *; lia|].
    rewrite Hx. run. destruct (offer_spec x k) as (q & -> & Hq' & Hc); [done|lia|]. run.
    destruct (IH (i + 1) (set_readyQueue q k)) as (q2 & -> & Hq2 & Hc2); [lia|lia|done| |].
    { change (ready_threads (set_readyQueue q k)) with (ArrayListBlockingQueue.contents q). rewrite Hc, zlen_app. change (zlen [x]) with 1. lia. }
    exists q2. split_and!; [done|done|]. rewrite Hc2. change (ready_threads (set_readyQueue q k)) with (ArrayListBlockingQueue.contents q). rewrite Hc, <- app_assoc.
    rewrite (drop_S _ _ _ Hx). by replace (Z.to_nat (i + 1)) with (S (Z.to_nat i)) by lia.
Qed.

Lemma wake_joiners_spec t l k :
  structures_ok k -> joining k !! id t = Some l -> zlen (ready_threads k) + zlen l < 2 ^ 31 ->
  exists q m, let k' := set_joinLock unlocked (set_joinMap m (set_readyQueue q k)) in
    wake_joiners t k = Ok (tt, k') /\ structures_ok k' /\ ready_threads k' = ready_threads k ++ l /\ joining k' = delete (id t) (joining k).
Proof.
  intros (S1 & S2 & S3 & S4) Hl Hz. apply joining_lookup in Hl as (a & Ha & <-). unfold wake_joiners. run.
  pose proof (hm_get_spec (id t) (joinMap k) S3) as Hg. rewrite Ha in Hg. destruct Hg as (m1 & -> & Hm1 & Hmap1 & _). run.
  pose proof (S4 _ _ Ha) as Hwa. pose proof (ArrayList.al_contents_length a Hwa) as Hla. unfold ArrayList.size.
  destruct (offer_joiners_spec a Hwa (Z.to_nat (ArrayList.len a)) 0 (set_joinMap m1 k)) as (q & -> & Hq & Hc); [lia|unfold zlen in *; lia|done| |].
  { change (ready_threads (set_joinMap m1 k)) with (ready_threads k). rewrite Hla in Hz. unfold zlen in *. lia. }
  run. pose proof (hm_remove_spec (id t) m1 Hm1) as Hr. rewrite Hmap1, Ha in Hr. destruct Hr as (m2 & -> & Hm2 & _ & Hmap2 & _). run. rewrite release_any.
  exists q, m2. cbv zeta. split; [done|]. split; [|split; [exact Hc|]].
  - split_and!; [done|done|done|]. change (map_Forall (fun _ l => ArrayList.wf l) (HashMap.to_map m2)). rewrite Hmap2. by apply map_Forall_delete.
  - change (ArrayList.contents <$> HashMap.to_map m2 = delete (id t) (joining k)). by rewrite Hmap2, fmap_delete.
Qed.

(** The invariant after the thread [p] has gone. *)
Lemma inv_remove k k' p t proc a :
  inv k -> threads k !! p = Some t -> processes k !! parent t = Some proc -> ArrayList.wf a -> ArrayList.len a < 2 ^ 31 ->
  places k ≡ₚ p :: places k' -> structures_ok k' -> locks_free k' -> initialized k' = true ->
  threads k' = threads k -> processes k' = processes (with_threads (parent t) proc a k) -> joining k' = delete (id t) (joining k) -> inv k'.
Proof.
  intros [_ _ _ Hn Ha Hu Hz] Ht Hp Hw Hl Hpl Hst Hlk Hi Eth Epr Ej. rewrite Hpl in Hn, Ha. apply NoDup_cons in Hn as [Hnp Hn]. apply Forall_cons in Ha as [_ Ha].
  split; [done|done|done|done| |by unfold ids_unique; rewrite Eth|rewrite Hpl in Hz; unfold zlen in *; cbn [length] in Hz; lia].
  rewrite Forall_forall in Ha |- *. intros x Hx. eapply alive_mono; [| | |by apply Ha].
  - by rewrite Eth.
  - rewrite Epr. by apply with_threads_ok.
  - intros u Hu' Hs. rewrite Ej, lookup_delete_ne; [done|]. intros E. apply Hnp. by rewrite (Hu _ _ _ _ Ht Hu' E).
Qed.

(** What [exit] has done when it hands the thread to the cleaner and blocks. *)
Definition exited (t : Thread) (proc : Process) (a : ArrayList Z) (k k1 : Kernel) : Prop :=
  structures_ok k1 /\ quiet k1 /\ (sleepQueueLock k1 = unlocked /\ joinLock k1 = unlocked /\ memoryLocked k1 = false) /\
  (initialized k1 = true /\ currentThread k1 = currentThread k /\ threads k1 = threads k /\ threadQueue k1 = threadQueue k /\ processList k1 = processList k /\ processLock k1 = processLock k) /\
  processes k1 = processes (with_threads (parent t) proc a k) /\ joining k1 = delete (id t) (joining k) /\
  (exists l, ready_threads k1 = ready_threads k ++ l) /\ Forall (runnable k1) (ready_threads k1 ++ (thread <$> sleeping k1)) /\
  places k ≡ₚ currentThread k :: ready_threads k1 ++ blocked k1.

Lemma exit_run fuel k :
  inv k ->
  exists t proc a k1, threads k !! currentThread k = Some t /\ processes k !! parent t = Some proc /\ ArrayList.wf a /\ ArrayList.len a < 2 ^ 31 /\
    ArrayList.contents a = (list_remove (currentThread k) (ArrayList.contents (pthreads proc))).2 /\
    exit clock fuel k = (cleanup (currentThread k);; release readyQueueLock set_readyQueueLock;; block clock fuel) k1 /\ exited t proc a k k1.
Proof.
  intros Hinv. pose proof Hinv as [(S1 & S2 & S3 & S4) (L1 & L2 & L3 & L4) Hi Hn Ha Hu Hz]. destruct (inv_quiet k Hinv) as (Hquiet & Hz1 & _).
  pose proof (Forall_inv Ha) as (_ & t & proc & Ht & Hproc & Hw & Hlen & [l Hl]).
  assert (Hzl : zlen (ready_threads k) + zlen (sleeping k) + zlen l < 2 ^ 31 - 1).
  { unfold places, blocked in Hz. rewrite (joiners_delete _ _ _ Hl) in Hz. unfold zlen in *. cbn [length] in Hz. rewrite !length_app, length_fmap in Hz. lia. }
  unfold exit. run. rewrite lockReadyQueue_free by done. run. rewrite waitForJoinLock_free by done. run. unfold deref_thread. run. rewrite Ht. run.
  destruct (wake_joiners_spec t l (set_joinLock locked (set_readyQueueLock locked k))) as (q & m & E & Hst & Hr & Hj); [done|done|change (zlen (ready_threads k) + zlen l < 2 ^ 31); unfold zlen in *; lia|].
  cbv zeta in *. rewrite E. run. set (k1 := set_joinLock unlocked _) in *.
  change (ready_threads (set_joinLock locked (set_readyQueueLock locked k))) with (ready_threads k) in Hr. change (joining (set_joinLock locked (set_readyQueueLock locked k))) with (joining k) in Hj.
  destruct (removeThread_spec (parent t) (currentThread k) proc k1) as (a & -> & Hwa & Hca); [done|done|done|]. run.
  unfold resetLastFpuThread. run. destruct (compareAndSet _ _ _) as [b v]. run.
  exists t, proc, a. eexists. split_and!; [done|done|done| |done|reflexivity|].
  { rewrite <- ArrayList.al_contents_length, Hca by done. pose proof (list_remove_length (currentThread k) (ArrayList.contents (pthreads proc))).
    rewrite <- ArrayList.al_contents_length in Hlen by done. unfold zlen in *. lia. }
  match goal with |- exited _ _ _ _ ?k2 => set (k' := k2) end.
  assert (Hp2 : places k ≡ₚ currentThread k :: ready_threads k' ++ blocked k').
  { unfold places, blocked. change (ready_threads k') with (ready_threads k1). change (sleeping k') with (sleeping k). change (joining k') with (joining k1). rewrite Hr, Hj.
    rewrite (joiners_delete _ _ _ Hl), <- app_assoc. apply perm_skip, Permutation_app_head. by rewrite !app_assoc, (Permutation_app_comm l). }
  unfold exited. split_and!; try done.
  - destruct Hquiet as (_ & Q2 & Q3 & Q4 & _ & Q6). split_and!; try done; [apply Hst|].
    change (ready_threads k') with (ready_threads k1). change (sleeping k') with (sleeping k). rewrite Hr, zlen_app. lia.
  - exists l. exact Hr.
  - apply Forall_forall. intros x Hx. destruct (inv_runnable k x Hinv) as (u & Hu1 & pr & Hu2).
    { rewrite Hp2. unfold blocked. set_solver. }
    exists u. split; [done|]. change (is_Some (processes (with_threads (parent t) proc a k) !! parent u)). cbn. rewrite lookup_insert_is_Some'. right. by eexists.
Qed.

(** The invariant after [block] has switched to another thread. *)
Lemma exited_inv fuel t proc a tq k k1 k' :
  inv k -> threads k !! currentThread k = Some t -> processes k !! parent t = Some proc -> ArrayList.wf a -> ArrayList.len a < 2 ^ 31 -> exited t proc a k k1 ->
  block clock fuel (set_readyQueueLock unlocked (set_threadQueue tq k1)) = Ok (tt, k') -> readyQueueLock k' = unlocked ->
  inv k' /\ places k ≡ₚ currentThread k :: places k' /\ threads k' = threads k /\ processes k' = processes (with_threads (parent t) proc a k) /\ joining k' = delete (id t) (joining k).
Proof.
  intros Hinv Ht Hp Hw Hl (Hst & Hq & (L2 & L3 & L4) & (Hi & _ & Hth & _) & Hpr & Hj & _ & Hrun & Hpl) Hb Hlk'.
  destruct (block_moves fuel (set_readyQueueLock unlocked (set_threadQueue tq k1)) k' Hq) as (H1 & H2 & H3 & H4 & H5 & H6 & H7); [done|done|done|done|done|].
  cbn [threads processes initialized set_readyQueueLock set_threadQueue] in *. change (joining (set_readyQueueLock unlocked (set_threadQueue tq k1))) with (joining k1) in H6.
  assert (Hpl' : places k ≡ₚ currentThread k :: places k') by (by rewrite H7).
  split; [|split_and!; congruence || done]. apply (inv_remove k k' (currentThread k) t proc a); congruence || done.
Qed.

Lemma exit_inv fuel k k' :
  inv k -> exit clock fuel k = Ok (tt, k') -> readyQueueLock k' = unlocked ->
  inv k' /\ places k ≡ₚ currentThread k :: places k'.
Proof.
  intros Hinv. destruct (exit_run fuel k Hinv) as (t & proc & a & k1 & Ht & Hp & Hw & Hl & _ & -> & He). run. unfold cleanup. run.
  destruct (ArrayBlockingQueue.offer _ _) as [[[] tq]| | |]; run; try done. rewrite release_any. run. intros Hb Hlk.
  destruct (exited_inv fuel t proc a tq k k1 k') as (? & ? & _); done.
Qed.

Lemma filter_ne_absent (p : Z) (l : list Z) : p ∉ l -> filter (fun x => x <> p) l = l.
Proof.
  induction l as [|x l IH]; intros H; [done|]. apply not_elem_of_cons in H as [? ?]. rewrite filter_cons_True by done. by rewrite IH.
Qed.

Lemma filter_ne_perm (p : Z) (l : list Z) : NoDup l -> p ∈ l -> l ≡ₚ p :: filter (fun x => x <> p) l.
Proof.
  intros Hn (l1 & l2 & ->)%list_elem_of_split. apply NoDup_app in Hn as (_ & Hd & Hn). apply NoDup_cons in Hn as [Hp _].
  rewrite filter_app, filter_cons_False, filter_ne_absent, filter_ne_absent by (done || (intros ?; naive_solver) || (intros Hx; apply (Hd p Hx); constructor)). by rewrite <- Permutation_middle.
Qed.

Lemma list_remove_filter (p : Z) (l : list Z) : NoDup l -> (list_remove p l).2 = filter (fun x => x <> p) l.
Proof.
  intros Hn. unfold list_remove, first_index. destruct (list_find (fun y => op_ne y p = false) l) as [[j y]|] eqn:E; cbn.
  - apply list_find_Some in E as (Hl & Hne & _). apply bool_decide_eq_false in Hne. assert (y = p) as -> by (destruct (decide (y = p)); [done|]; exfalso; auto).
    apply take_drop_middle in Hl. rewrite <- Hl in Hn |- *. set (a := take j l) in *. set (b := drop (S j) l) in *.
    assert (Hj : delete j (a ++ p :: b) = a ++ b).
    { rewrite Hl, delete_take_drop. done. }
    rewrite Hj. apply NoDup_app in Hn as (_ & Hd & Hn). apply NoDup_cons in Hn as [Hp _].
    rewrite filter_app, filter_cons_False, filter_ne_absent, filter_ne_absent by (done || (intros ?; naive_solver) || (intros Hx; apply (Hd p Hx); constructor)). done.
  - rewrite filter_ne_absent; [done|]. intros Hp. apply list_find_None in E. rewrite Forall_forall in E. apply (E p Hp). apply bool_decide_eq_false. naive_solver.
Qed.

Lemma remove_sleeper p ts k :
  quiet k -> is_Some (threads k !! p) ->
  exists l, remove_entry (mkEntry p ts) k = Ok (tt, set_sleepList l k) /\ ArrayList.wf l /\
    thread <$> ArrayList.contents l = filter (fun x => x <> p) (thread <$> sleeping k).
Proof.
  intros (_ & Hl & Hu & Hok & Hsz & _) [t Ht]. assert (Hlen : ArrayList.len (sleepList k) < UINT32_MAX).
  { change (ArrayList.len (sleepList k)) with (ArrayList.size (sleepList k)). rewrite sleeping_len by done. unfold zlen, UINT32_MAX in *. lia. }
  destruct (decide (p ∈ thread <$> sleeping k)) as [Hin|Hout].
  - apply list_elem_of_fmap in Hin as (e & -> & He).
    apply list_elem_of_split in He as (pre & suf & Hs).
    destruct (remove_entry_spec pre (mkEntry (thread e) ts) e suf k) as (l & E & Hw & Hc); try done.
    exists l. split_and!; [done|done|]. rewrite Hc, Hs. destruct Hok as [Hn' _]. rewrite Hs, fmap_app, fmap_cons in Hn'.
    rewrite !fmap_app, fmap_cons. apply NoDup_app in Hn' as (_ & Hd & Hn'). apply NoDup_cons in Hn' as [Hp _].
    rewrite filter_app, filter_cons_False, filter_ne_absent, filter_ne_absent by (done || (intros ?; naive_solver) || (intros Hx; apply (Hd _ Hx); constructor)). done.
  - unfold remove_entry, deref_thread. run. cbn [thread]. rewrite Ht. run. change (ArrayList.contents (sleepList k)) with (sleeping k). rewrite entries_read_ok by apply Hok.
    destruct (ArrayList.al_remove_spec (NE := entry_ne (threads k)) (mkEntry p ts) (sleepList k)) as (l & E & Hw & Hc); [done|done|]. run. rewrite E. run.
    exists l. split_and!; [done|done|]. rewrite filter_ne_absent by done. rewrite Hc. change (ArrayList.contents (sleepList k)) with (sleeping k).
    unfold list_remove. destruct (first_index _ _) as [j|] eqn:Ef; [|done]. exfalso. unfold first_index in Ef. apply fmap_Some in Ef as ([j' e] & Hf & _).
    apply list_find_Some in Hf as (Hlk & Hne & _). apply bool_decide_eq_false in Hne. apply list_elem_of_lookup_2 in Hlk.
    destruct Hok as [_ Hex]. rewrite Forall_forall in Hex. destruct (Hex e Hlk) as [u Hu']. cbn [thread] in Hne. rewrite Hu', Ht in Hne. cbn in Hne.
    apply Hout. apply list_elem_of_fmap. exists e. split; [|done]. symmetry. apply (Hu _ _ _ _ Hu' Ht). destruct (decide (id u = id t)); [done|]. exfalso. apply Hne. congruence.
Qed.

(** The arithmetic of killing a thread that is ready or asleep. *)
Lemma killed_perm (p c : Z) (r s l j : list Z) :
  NoDup (c :: r ++ s ++ l ++ j) -> p ∈ r ++ s ->
  c :: r ++ s ++ l ++ j ≡ₚ p :: c :: filter (fun x => x <> p) (r ++ l) ++ filter (fun x => x <> p) s ++ j.
Proof.
  intros Hn Hp. apply NoDup_cons in Hn as [_ Hn]. rewrite app_assoc in Hn. apply NoDup_app in Hn as (Hn & Hd & _).
  rewrite filter_app, (filter_ne_absent p l). 2:{ intros Hl. apply (Hd p Hp). set_solver. }
  rewrite perm_swap. apply perm_skip. transitivity ((r ++ s) ++ l ++ j); [by rewrite <- app_assoc|].
  rewrite (filter_ne_perm p (r ++ s)) by done. rewrite filter_app. cbn. apply perm_skip. rewrite <- !app_assoc. apply Permutation_app_head.
  rewrite !app_assoc. apply Permutation_app_tail, Permutation_app_comm.
Qed.

(** What [kill] has done to the thread [p] when it hands the thread to the cleaner. *)
Definition killed (p : Z) (t : Thread) (proc : Process) (a : ArrayList Z) (k k1 : Kernel) : Prop :=
  structures_ok k1 /\ (sleepQueueLock k1 = unlocked /\ joinLock k1 = unlocked /\ memoryLocked k1 = false) /\
  (initialized k1 = true /\ currentThread k1 = currentThread k /\ threads k1 = threads k /\ threadQueue k1 = threadQueue k /\ processList k1 = processList k /\ processLock k1 = processLock k) /\
  processes k1 = processes (with_threads (parent t) proc a k) /\ joining k1 = delete (id t) (joining k) /\
  (forall x, x ∈ ready_threads k ++ (thread <$> sleeping k) -> x <> p -> x ∈ ready_threads k1 ++ (thread <$> sleeping k1)) /\
  places k ≡ₚ p :: places k1.

Lemma not_current p t k : inv k -> p ∈ ready_threads k ++ blocked k -> threads k !! p = Some t -> exists c, threads k !! currentThread k = Some c /\ (id t =? id c) = false.
Proof.
  intros [_ _ _ Hn Ha Hu _] Hp Ht. destruct (Forall_inv Ha) as (_ & c & _ & Hc & _). exists c. split; [done|]. apply Z.eqb_neq. intros E.
  apply NoDup_cons in Hn as [Hn _]. apply Hn. by rewrite <- (Hu _ _ _ _ Ht Hc E).
Qed.

Lemma kill_run p k :
  inv k -> p ∈ ready_threads k ++ (thread <$> sleeping k) ->
  exists t proc a k1, threads k !! p = Some t /\ processes k !! parent t = Some proc /\ ArrayList.wf a /\ ArrayList.len a < 2 ^ 31 /\
    ArrayList.contents a = (list_remove p (ArrayList.contents (pthreads proc))).2 /\
    kill p k = (cleanup p;; release readyQueueLock set_readyQueueLock) k1 /\ killed p t proc a k k1.
Proof.
  intros Hinv Hin. pose proof Hinv as [(S1 & S2 & S3 & S4) (L1 & L2 & L3 & L4) Hi Hn Ha Hu Hz]. destruct (inv_quiet k Hinv) as (Hquiet & Hz1 & _).
  assert (Hb : p ∈ ready_threads k ++ blocked k) by (unfold blocked; set_solver).
  pose proof Ha as Ha'. rewrite Forall_forall in Ha'. destruct (Ha' p) as (_ & t & proc & Ht & Hproc & Hw & Hlen & [l Hl]); [by apply list_elem_of_further|].
  destruct (not_current p t k Hinv Hb Ht) as (c & Hc & Hne).
  assert (Hpl : places k ≡ₚ currentThread k :: ready_threads k ++ (thread <$> sleeping k) ++ l ++ joiners (delete (id t) (joining k))).
  { unfold places, blocked. by rewrite (joiners_delete _ _ _ Hl). }
  rewrite Hpl in Hz. pose proof Hn as Hn'. rewrite Hpl in Hn'.
  unfold kill. run. unfold deref_thread. run. rewrite Ht. run. rewrite Hc. run. rewrite Hne. run. rewrite lockReadyQueue_free by done. run. rewrite waitForJoinLock_free by done. run. rewrite acquire_free by done. run.
  set (k0 := set_sleepQueueLock _ _).
  assert (exists sl, remove_entry (mkEntry p (Timestamp.mk 0 0)) k0 = Ok (tt, set_sleepList sl k0) /\ ArrayList.wf sl /\
    thread <$> ArrayList.contents sl = filter (fun x => x <> p) (thread <$> sleeping k)) as (sl & E & Hsl & Hcsl).
  { destruct (remove_sleeper p (Timestamp.mk 0 0) (set_joinLock locked (set_readyQueueLock locked k)) Hquiet) as (sl & E & ? & ?); [by eexists|].
    exists sl. split_and!; [|done|done]. revert E. unfold k0, remove_entry, deref_thread. run. cbn [thread]. rewrite Ht. run.
    destruct (entries_read _ _ _); [|done]. run. destruct (ArrayList.remove _ _) as [[b x]| | |]; run; try done.
    intros E0. apply (f_equal (fun o => match o with Ok (_, k) => Some (sleepList k) | _ => None end)) in E0. cbn in E0. injection E0 as ->. done. }
  rewrite E. run. rewrite release_any. run.
  destruct (wake_joiners_spec t l (set_sleepQueueLock unlocked (set_sleepList sl k0))) as (q & m & E2 & Hst & Hr & Hj); [done|done| |].
  { change (zlen (ready_threads k) + zlen l < 2 ^ 31). unfold zlen in *. cbn [length] in Hz. rewrite !length_app in Hz. lia. }
  cbv zeta in *. rewrite E2. run. set (k1 := set_joinLock unlocked _) in *.
  change (ready_threads (set_sleepQueueLock unlocked (set_sleepList sl k0))) with (ready_threads k) in Hr.
  destruct (alq_remove_spec p q) as (q2 & E3 & Hq2 & Hcq2); [apply Hst| |].
  { change (zlen (ready_threads k1) < UINT32_MAX). rewrite Hr. unfold zlen, UINT32_MAX in *. cbn [length] in Hz. rewrite !length_app. rewrite !length_app in Hz. lia. }
  rewrite E3. run. destruct (removeThread_spec (parent t) p proc (set_readyQueue q2 k1)) as (a & -> & Hwa & Hca); [done|done|done|]. run.
  unfold resetLastFpuThread. run. destruct (compareAndSet _ _ _) as [b v]. run.
  exists t, proc, a. eexists. split_and!; [done|done|done| |done|reflexivity|].
  { rewrite <- ArrayList.al_contents_length, Hca by done. pose proof (list_remove_length p (ArrayList.contents (pthreads proc))).
    rewrite <- ArrayList.al_contents_length in Hlen by done. unfold zlen in *. lia. }
  match goal with |- killed _ _ _ _ _ ?k2 => set (k' := k2) end.
  change (ArrayListBlockingQueue.contents q) with (ready_threads k1) in Hcq2. rewrite list_remove_filter, Hr in Hcq2.
  2:{ rewrite Hr. apply NoDup_cons in Hn' as [_ Hn']. rewrite app_assoc in Hn'. rewrite (Permutation_app_comm (ready_threads k)) in Hn'.
      rewrite <- app_assoc in Hn'. apply NoDup_app in Hn' as (_ & _ & Hn'). rewrite app_assoc in Hn'. by apply NoDup_app in Hn' as (? & _ & _). }
  unfold killed. split_and!; try done; [split_and!; [done|done|apply Hst|apply Hst]| |].
  - intros x Hx Hxp. change (ready_threads k') with (ArrayListBlockingQueue.contents q2). change (sleeping k') with (ArrayList.contents sl). rewrite Hcq2, Hcsl.
    rewrite elem_of_app, !list_elem_of_filter. set_solver.
  - rewrite Hpl, (killed_perm p) by done. unfold places, blocked. change (ready_threads k') with (ArrayListBlockingQueue.contents q2).
    change (sleeping k') with (ArrayList.contents sl). change (joining k') with (joining k1). rewrite Hcq2, Hcsl, Hj. done.
Qed.

(** The state after [kill], when the queue of the cleaner has become [tq]. *)
Lemma killed_inv p t proc a tq k k1 :
  inv k -> threads k !! p = Some t -> processes k !! parent t = Some proc -> ArrayList.wf a -> ArrayList.len a < 2 ^ 31 -> killed p t proc a k k1 ->
  inv (set_readyQueueLock unlocked (set_threadQueue tq k1)).
Proof.
  intros Hinv Ht Hp Hw Hl (Hst & (? & ? & ?) & (? & Hcur & Hth & _ & _ & _) & Hpr & Hj & _ & Hpl). by apply (inv_remove k _ p t proc a).
Qed.

Lemma kill_inv p k k' :
  inv k -> p ∈ ready_threads k ++ (thread <$> sleeping k) -> kill p k = Ok (tt, k') -> inv k' /\ places k ≡ₚ p :: places k'.
Proof.
  intros Hinv Hin. destruct (kill_run p k Hinv Hin) as (t & proc & a & k1 & Ht & Hp & Hw & Hl & _ & -> & Hk). run. unfold cleanup. run.
  destruct (ArrayBlockingQueue.offer _ _) as [[[] tq]| | |]; run; try done. rewrite release_any. intros [= <-].
  split; [by eapply killed_inv|apply Hk].
Qed.

Lemma unblock_inv p k :
  inv k -> p ∉ places k -> alive k p -> zlen (places k) < 2 ^ 31 - 1 ->
  exists k', unblock p k = Ok (tt, k') /\ inv k' /\ places k' ≡ₚ p :: places k.
Proof.
  intros Hinv Hp Hal Hz. pose proof Hinv as [(S1 & S2 & S3 & S4) (L1 & L2 & L3 & L4) Hi Hn Ha Hu _]. destruct (inv_quiet k Hinv) as (_ & Hz1 & _).
  unfold unblock. run. rewrite acquire_free by done. run.
  destruct (offer_spec p (set_readyQueueLock locked k)) as (q & -> & Hq & Hc); [done|change (zlen (ready_threads k) < 2 ^ 31); unfold zlen in *; lia|].
  run. rewrite release_any. eexists. split; [done|]. match goal with |- inv ?k2 /\ _ => set (k' := k2) end.
  assert (Hpl : places k' ≡ₚ p :: places k).
  { unfold places. change (ready_threads k') with (ArrayListBlockingQueue.contents q). rewrite Hc. change (blocked k') with (blocked k).
    change (ready_threads (set_readyQueueLock locked k)) with (ready_threads k). rewrite <- app_assoc. cbn. rewrite <- Permutation_middle. apply perm_swap. }
  split; [|done]. split; [done|done|done|rewrite Hpl; by apply NoDup_cons| |done|rewrite Hpl; unfold zlen in *; cbn [length]; lia].
  rewrite Hpl. apply Forall_cons. split; [done|]. exact Ha.
Qed.

(** ** The calls of a running thread *)

Inductive call :=
| Yield | Sleep (time : Timestamp.Timestamp) | Join (p : Z) | Exit | Kill (p : Z) | Ready (p : Z) | Unblock (p : Z).

Definition exec (fuel : nat) (c : call) : M unit :=
  match c with
  | Yield => yield clock
  | Sleep time => sleep clock fuel time
  | Join p => join clock fuel p
  | Exit => exit clock fuel
  | Kill p => kill p
  | Ready p => ready p
  | Unblock p => unblock p
  end.

(** Threads are killed while they are ready or asleep, made ready once, and unblocked
    when they wait for something else than a time or a thread. *)
Definition allowed (k : Kernel) (c : call) : Prop :=
  match c with
  | Kill p => p ∈ ready_threads k ++ (thread <$> sleeping k)
  | Ready p => fresh_thread k p
  | Unblock p => p ∉ places k /\ alive k p /\ zlen (places k) < 2 ^ 31 - 1
  | _ => True
  end.

Definition moved (c : call) (k k' : Kernel) : Prop :=
  match c with
  | Yield | Sleep _ | Join _ => places k' ≡ₚ places k
  | Exit => places k ≡ₚ currentThread k :: places k'
  | Kill p => places k ≡ₚ p :: places k'
  | Ready p | Unblock p => places k' ≡ₚ p :: places k
  end.

(** C4: Every call of a running thread that leaves the locks free (yield, sleep,
    join, exit; kill of a thread that is ready or asleep; ready of a thread
    that was not started yet; unblock of a thread that is at no place) keeps
    every thread at exactly one place (running, ready, asleep or waiting for
    a thread) and moves only the threads it should: none is lost or queued
    twice. *)
Theorem scheduler_invariant fuel c k k' :
  inv k -> allowed k c -> exec fuel c k = Ok (tt, k') -> readyQueueLock k' = unlocked -> joinLock k' = unlocked ->
  inv k' /\ moved c k k'.
Proof.
  intros Hinv Hal He L1 L2. destruct c; cbn [exec allowed moved] in *.
  - by apply yield_inv.
  - by eapply sleep_inv.
  - by eapply join_inv.
  - by eapply exit_inv.
  - by apply kill_inv.
  - destruct (ready_inv k p Hinv Hal) as (k2 & E & ? & ? & _). rewrite E in He. by injection He as <-.
  - destruct Hal as (? & ? & ?). destruct (unblock_inv p k) as (k2 & E & ? & ?); [done..|]. rewrite E in He. by injection He as <-.
Qed.

(** ** Fairness *)

Fixpoint yields (n : nat) : M unit := match n with O => mret tt | S n => yield clock;; yields n end.

(** What [n] calls of [yield] add to the end of the ready queue: each looks at the clock,
    adds the threads it wakes and then its caller. *)
Fixpoint rounds (q : nat) (s : list SleepEntry) (callers : list Z) : list Z * list SleepEntry :=
  match callers with
  | [] => ([], s)
  | c :: callers =>
    let '(w, s) := wake (clock q) s in
    let '(l, s) := rounds (S q) s callers in
    (w ++ c :: l, s)
  end.

(** C38: A ready thread with n threads before it runs, in its own address space,
    after n + 1 calls of yield. Each call queues the sleeping threads it
    wakes, by the clock it reads, and then its caller behind all others; the
    threads keep their order, and the sleep list holds those that were not
    woken. *)
Theorem round_robin r1 p r2 k :
  inv k -> ready_threads k = r1 ++ p :: r2 ->
  let '(queued, sleepers) := rounds (queries k) (sleeping k) (currentThread k :: r1) in
  exists k', yields (S (length r1)) k = Ok (tt, k') /\ inv k' /\ currentThread k' = p /\
    addressSpace k' = match threads k !! p with Some t => parent t | None => 0 end /\
    ready_threads k' = r2 ++ queued /\ sleeping k' = sleepers.
Proof.
  revert k r2. induction r1 as [|x r1 IH]; intros k r2 Hinv Hr; destruct (inv_quiet k Hinv) as (Hq & Hz & _); pose proof Hinv as [_ (L1 & _) Hi _ _ _ _];
    pose proof (yield_spec k Hq L1 Hi Hz) as H; rewrite Hr in H; cbn [app] in H; cbn [rounds]; fold rounds;
    destruct (wake (clock (queries k)) (sleeping k)) as [w s].
  - destruct H as (q & l & E & _ & _ & Hr' & Hs'); [apply inv_runnable; [done|]; unfold places; rewrite Hr; set_solver|].
    cbn [length yields]. run. rewrite E. run. eexists. split; [done|]. split; [by apply (yield_inv k)|]. split_and!; [done|done|by rewrite Hr', app_assoc|done].
  - destruct H as (q & l & E & _ & _ & Hr' & Hs'); [apply inv_runnable; [done|]; unfold places; rewrite Hr; set_solver|]. cbv zeta in *.
    cbn [length]. change (yields (S (S (length r1)))) with (yield clock;; yields (S (length r1))).
    set (k1 := dispatch x (woken q l (S (queries k)) k)) in *. destruct (yield_inv k k1 Hinv E) as [Hinv1 _].
    specialize (IH k1 (r2 ++ w ++ [currentThread k]) Hinv1). rewrite Hs' in IH. change (queries k1) with (S (queries k)) in IH. change (currentThread k1) with x in IH.
    cbn [rounds] in IH. fold rounds in IH. destruct (wake (clock (S (queries k))) s) as [w' s']. destruct (rounds (S (S (queries k))) s' r1) as [l' s''].
    destruct IH as (k' & E' & Hi' & Hc' & Ha' & Hr2 & Hs2); [rewrite Hr', <- !app_assoc; done|].
    exists k'. split; [run; rewrite E; run; exact E'|]. split_and!; try done. rewrite Hr2, <- !app_assoc. done.
Qed.

Lemma idle_live n : forall q s e, e ∈ s -> Timestamp.ge (clock (q + n)) (wakeupTime e) = true -> is_Some (idle (S n) q [] s).
Proof.
  induction n as [|n IH]; intros q s e He Hge.
  - rewrite Nat.add_0_r in Hge. cbn [idle]. pose proof (wake_progress (clock q) s) as H. destruct (wake (clock q) s) as [[|w ws] s']; cbn; [|by eexists].
    destruct H as [_ H]; [done|]. rewrite (H e He) in Hge. done.
  - change (idle (S (S n)) q [] s) with (let '(w, s') := wake (clock q) s in match [] ++ w with [] => idle (S n) (S q) [] s' | r' => Some (S q, r', s') end).
    pose proof (wake_progress (clock q) s) as H. destruct (wake (clock q) s) as [[|w ws] s']; cbn [app]; [|by eexists].
    destruct H as [E _]; [done|]. cbn [snd] in E. subst s'. apply (IH (S q) s e He). by replace (S q + n)%nat with (q + S n)%nat by lia.
Qed.

(** When the wakeup time of a thread that calls sleep comes, the scheduler
    has found a thread to run. *)
Theorem sleep_returns n time k :
  inv k -> Timestamp.ge (clock (S (queries k) + n)) (Timestamp.plus (clock (queries k)) time) = true ->
  exists k', sleep clock (S n) time k = Ok (tt, k') /\
    (currentThread k' = currentThread k /\ readyQueueLock k' = locked \/ inv k' /\ places k' ≡ₚ places k).
Proof.
  intros Hinv Hge. destruct (sleep_run (S n) time k Hinv) as (l & E & Hq & Hst & Hlk & Hs). cbv zeta in *. set (k1 := asleep l k) in *.
  assert (Hsome : is_Some (idle (S n) (queries k1) (ready_threads k1) (sleeping k1))).
  { destruct (ready_threads k1) as [|x r] eqn:Er.
    - eapply idle_live; [rewrite Hs; apply elem_of_app; right; constructor|]. exact Hge.
    - cbn [idle]. destruct (wake _ _) as [w s]. cbn [app]. by eexists. }
  destruct Hsome as [[[n' r] s] Hidle]. destruct r as [|next rest]; [by apply idle_nonempty in Hidle|].
  assert (Hrun : runnable k1 next).
  { pose proof (idle_perm _ _ _ _ _ _ _ Hidle) as Hp. refine (inv_runnable k _ Hinv _).
    assert (Hin : next ∈ ready_threads k1 ++ (thread <$> sleeping k1)) by (rewrite <- Hp; cbn; constructor).
    rewrite Hs in Hin. change (ready_threads k1) with (ready_threads k) in Hin. unfold places, blocked. cbn. set_solver. }
  destruct (block_spec (S n) k1 _ _ _ _ Hq (proj1 Hlk) Hidle Hrun) as (q & l2 & E2 & _). cbv zeta in *. rewrite <- E in E2.
  change (currentThread k1) with (currentThread k) in *. destruct (Z.eqb_spec (currentThread k) next) as [->|Hne].
  - eexists. split; [exact E2|]. left. done.
  - eexists. split; [exact E2|]. right. by apply (sleep_inv (S n) time k).
Qed.

(** ** Locks that are never released *)

(** With the lock of the ready queue held, no call does anything but wait, and [yield]
    returns at once: no thread is switched any more. *)
Lemma ready_queue_held k :
  readyQueueLock k = locked ->
  yield clock k = Ok (tt, k) /\
  forall fuel p, block clock fuel k = Loops /\ unblock p k = Loops /\ ready p k = Loops /\ exit clock fuel k = Loops.
Proof.
  intros L. split.
  - unfold yield. run. destruct (initialized k); [|done]. run. rewrite lock_tryAcquire_held by done. run. destruct k. cbn in L. by subst.
  - intros fuel p. unfold block, unblock, ready, exit, lockReadyQueue. run. rewrite acquire_held by done. done.
Qed.

(** When the running thread is the only one that can run, yield waits for
    ever with the lock of the ready queue held, and sleep returns with that
    lock held, after which no thread is ever switched. *)
Theorem lone_thread_hangs k :
  inv k -> ready_threads k = [] -> sleeping k = [] ->
  yield clock k = Loops /\
  forall n time, Timestamp.ge (clock (S (queries k) + n)) (Timestamp.plus (clock (queries k)) time) = true ->
    exists k', sleep clock (S n) time k = Ok (tt, k') /\ readyQueueLock k' = locked /\ yield clock k' = Ok (tt, k') /\
      forall fuel p, block clock fuel k' = Loops /\ unblock p k' = Loops /\ ready p k' = Loops /\ exit clock fuel k' = Loops.
Proof.
  intros Hinv Hr Hs. destruct (inv_quiet k Hinv) as (Hq & Hz & _). pose proof Hinv as [_ (L1 & _) Hi _ _ _ _]. split.
  - pose proof (yield_spec k Hq L1 Hi Hz) as H. rewrite Hr, Hs in H. exact H.
  - intros n time Hge. destruct (sleep_run (S n) time k Hinv) as (l & E & Hq1 & Hst & Hlk & Hs1). cbv zeta in *. set (k1 := asleep l k) in *.
    assert (Hidle : is_Some (idle (S n) (queries k1) [] (sleeping k1))).
    { eapply idle_live; [rewrite Hs1, Hs; constructor|]. exact Hge. }
    change (@nil Z) with (ready_threads k) in Hidle || rewrite <- Hr in Hidle. destruct Hidle as [[[n' r] s] Hidle]. destruct r as [|next rest]; [by apply idle_nonempty in Hidle|].
    assert (next = currentThread k) as ->.
    { pose proof (idle_perm _ _ _ _ _ _ _ Hidle) as Hp. rewrite Hr, Hs1, Hs in Hp. cbn in Hp. assert (Hin : next ∈ [currentThread k]) by (rewrite <- Hp; constructor).
      by apply list_elem_of_singleton in Hin. }
    destruct (block_spec (S n) k1 _ _ _ _ Hq1 (proj1 Hlk) Hidle) as (q & l2 & E2 & _).
    { refine (inv_runnable k _ Hinv _). constructor. }
    cbv zeta in *. rewrite <- E in E2. change (currentThread k1) with (currentThread k) in *. rewrite Z.eqb_refl in E2.
    eexists. split; [exact E2|]. split; [done|]. by apply ready_queue_held.
Qed.

(** Joining a thread that has terminated returns with the lock of the join
    map held: every later join, ready and exit waits for ever. *)
Theorem join_keeps_lock fuel p t k :
  inv k -> threads k !! p = Some t -> joining k !! id t = None ->
  exists k', join clock fuel p k = Ok (tt, k') /\ joinLock k' = locked /\ currentThread k' = currentThread k /\
    forall fuel q, join clock fuel q k' = Loops /\ ready q k' = Loops /\ exit clock fuel k' = Loops /\ removeFromJoinMap q k' = Loops.
Proof.
  intros Hinv Ht Hj. exists (set_joinLock locked k). pose proof Hinv as [_ (L1 & _ & _ & L4) _ _ _ _ _]. split; [by eapply join_terminated|]. split_and!; [done|done|].
  intros fuel' q. unfold join, ready, exit, removeFromJoinMap. run. rewrite acquire_held, lockReadyQueue_free by done. run.
  unfold waitForJoinLock. run. rewrite lock_tryAcquire_held by done. done.
Qed.

(** ** The FPU *)

(** The FPU state of a thread is in the registers or in its context. *)
Definition fpu_state (k : Kernel) (p : Z) : option Z :=
  if p =? lastFpuThread k then Some (fpuRegisters k) else fpuContext <$> threads k !! p.

(** The lazy FPU switch loads the FPU state of the running thread and keeps
    the FPU state of every thread, whether it is in the registers or in its
    saved context. *)
Theorem fpu_switch k :
  fpu k = true -> initialized k = true -> readyQueueLock k = unlocked -> is_Some (threads k !! currentThread k) ->
  lastFpuThread k = 0 \/ is_Some (threads k !! lastFpuThread k) -> threads k !! 0 = None -> 
  exists k', switchFpuContext k = Ok (tt, k') /\ lastFpuThread k' = currentThread k /\ currentThread k' = currentThread k /\
    Some (fpuRegisters k') = fpu_state k (currentThread k) /\ fpuMonitor k' = false /\ readyQueueLock k' = unlocked /\
    forall p, p <> 0 -> fpu_state k' p = fpu_state k p.
Proof.
  intros Hf Hi L [t Ht] Hlast H0. assert (Hc0 : currentThread k <> 0) by congruence. unfold switchFpuContext. run. rewrite Hf. run. rewrite acquire_free by done. run. unfold fpu_state.
  destruct (Z.eqb_spec (currentThread k) (lastFpuThread k)) as [E|E].
  { run. rewrite release_any. eexists. split; [done|]. cbn. split_and!; try done. }
  run. unfold switchContext, getCurrentThread. run. rewrite Hi. run. destruct (Z.eqb_spec (lastFpuThread k) 0) as [E0|E0].
  - run. unfold deref_thread. run. rewrite Ht. run. rewrite release_any. eexists. split; [done|]. reads. rewrite ?Ht. split_and!; try done.
    intros p Hp. destruct (Z.eqb_spec p (currentThread k)), (Z.eqb_spec p (lastFpuThread k)); subst; try congruence. by rewrite Ht.
  - destruct Hlast as [?|[u Hu]]; [done|]. run. unfold deref_thread. run. rewrite Hu. run. rewrite lookup_insert_ne, Ht by done. run. rewrite release_any.
    eexists. split; [done|]. reads. rewrite ?Ht. split_and!; try done. intros p Hp. destruct (Z.eqb_spec p (currentThread k)), (Z.eqb_spec p (lastFpuThread k)); subst; try congruence.
    + by rewrite Ht.
    + by rewrite lookup_insert_eq.
    + by rewrite lookup_insert_ne by done.
Qed.

End Clock.

(** ** A small system *)

(** Three threads of the kernel process; the first one runs. *)
Definition demo0 : Kernel :=
  let m := match HashMap.put 1 (ArrayList_empty : ArrayList Z) HashMap_new with Ok m => m | _ => HashMap_new end in
  mkKernel true 11 true false 7 0 (Queue_new 0) unlocked ArrayList_empty unlocked m unlocked
    {[ 11 := mkThread 1 100 21; 12 := mkThread 2 100 22; 13 := mkThread 3 100 23 ]}
    {[ 100 := mkProcess 1 ArrayList_empty false 0 11 ]} (Ring_new 0 16) (Ring_new 0 16) 100 ArrayList_empty unlocked 100 false 0.
Definition next_state (o : outcome (unit * Kernel)) : Kernel := match o with Ok (_, k) => k | _ => demo0 end.
Definition demo1 : Kernel := next_state (ready 12 demo0).
Definition demo2 : Kernel := next_state (ready 13 demo1).
Definition seconds_clock (n : nat) : Timestamp.Timestamp := Timestamp.ofSeconds (Z.of_nat n).

Lemma demo0_inv : inv demo0.
Proof.
  assert (Hm0 : HashMap.wf (HashMap_new : HashMap Z (ArrayList Z))) by done.
  destruct (put_spec 1 (ArrayList_empty : ArrayList Z) HashMap_new Hm0) as (m & E & Hm & _ & Hmap & _).
  assert (Ej : joinMap demo0 = m) by (unfold demo0; cbv zeta; cbn [joinMap]; by rewrite E).
  assert (Hj : joining demo0 = {[1 := []]}) by (unfold joining; rewrite Ej, Hmap; done).
  split.
  - split_and!; [apply wf_capacity; cbn; unfold ArrayListBlockingQueue.DEFAULT_CAPACITY; lia|apply wf_empty|by rewrite Ej|]. rewrite Ej, Hmap.
    apply map_Forall_insert_2; [apply wf_empty|]. apply map_Forall_empty.
  - done.
  - done.
  - unfold places, blocked. rewrite Hj. vm_compute. apply NoDup_singleton.
  - unfold places, blocked. rewrite Hj. change (Forall (alive demo0) [11]). apply Forall_cons. split; [|constructor]. split; [done|].
    exists (mkThread 1 100 21), (mkProcess 1 ArrayList_empty false 0 11). split_and!; done.
  - intros p q t u Hp Hq E'. cbn in Hp, Hq.
    repeat (apply lookup_insert_Some in Hp as [[<- <-]|[_ Hp]] || apply lookup_singleton_Some in Hp as [<- <-]);
    repeat (apply lookup_insert_Some in Hq as [[<- <-]|[_ Hq]] || apply lookup_singleton_Some in Hq as [<- <-]); done.
  - unfold places, blocked. rewrite Hj. vm_compute. done.
Qed.

Lemma demo1_fresh : fresh_thread demo0 12.
Proof.
  split_and!; [done|vm_compute; set_solver|vm_compute; done|]. exists (mkThread 2 100 22), (mkProcess 1 ArrayList_empty false 0 11). split_and!; try done.
Qed.

Lemma demo1_inv : inv demo1.
Proof. destruct (ready_inv demo0 12 demo0_inv demo1_fresh) as (k & E & H & _). unfold demo1. by rewrite E. Qed.

Lemma demo2_fresh : fresh_thread demo1 13.
Proof.
  split_and!; [done|vm_compute; set_solver|vm_compute; done|]. exists (mkThread 3 100 23). eexists. split; [done|]. split; [vm_compute; done|].
  split_and!; done.
Qed.

Lemma demo2_inv : inv demo2.
Proof. destruct (ready_inv demo1 13 demo1_inv demo2_fresh) as (k & E & H & _). unfold demo2. by rewrite E. Qed.

Lemma scheduler_invariant_witness :
  exists k', exec seconds_clock 3 (Join 12) demo2 = Ok (tt, k') /\ inv k' /\ moved (Join 12) demo2 k' /\ currentThread k' = 12.
Proof.
  exists (next_state (join seconds_clock 3 12 demo2)). split; [vm_compute; reflexivity|].
  destruct (scheduler_invariant seconds_clock 3 (Join 12) demo2 (next_state (join seconds_clock 3 12 demo2)) demo2_inv I) as [H1 H2];
    [vm_compute; reflexivity|vm_compute; reflexivity|vm_compute; reflexivity|].
  split_and!; [exact H1|exact H2|vm_compute; reflexivity].
Defined.

(** Thread 11 goes to sleep for two seconds, and 12 runs. *)
Definition demo3 : Kernel := next_state (sleep seconds_clock 1 (Timestamp.mk 2 0) demo2).

Lemma demo3_inv : inv demo3.
Proof.
  destruct (sleep_inv seconds_clock 1 (Timestamp.mk 2 0) demo2 demo3 demo2_inv) as [H _]; [vm_compute; reflexivity..|]. exact H.
Qed.

Lemma round_robin_witness :
  thread <$> sleeping demo3 = [11] /\
  exists k', yields seconds_clock 1 demo3 = Ok (tt, k') /\ currentThread k' = 13 /\ ready_threads k' = [11; 12] /\ sleeping k' = [].
Proof.
  split; [vm_compute; reflexivity|].
  pose proof (round_robin seconds_clock [] 13 [] demo3 demo3_inv) as H.
  assert (E : rounds seconds_clock (queries demo3) (sleeping demo3) [currentThread demo3] = ([11; 12], [])) by (vm_compute; reflexivity).
  rewrite E in H. destruct H as (k' & Ey & _ & H1 & _ & H2 & H3); [vm_compute; reflexivity|].
  exists k'. split_and!; [exact Ey|exact H1|exact H2|exact H3].
Defined.

Lemma sleep_returns_witness : exists k', sleep seconds_clock 6 (Timestamp.mk 5 0) demo2 = Ok (tt, k').
Proof.
  destruct (sleep_returns seconds_clock 5 (Timestamp.mk 5 0) demo2 demo2_inv) as (k' & E & _); [vm_compute; reflexivity|]. exists k'. exact E.
Defined.

Lemma lone_thread_hangs_witness : yield seconds_clock demo0 = Loops /\
  exists k', sleep seconds_clock 6 (Timestamp.mk 5 0) demo0 = Ok (tt, k') /\ readyQueueLock k' = locked.
Proof.
  destruct (lone_thread_hangs seconds_clock demo0 demo0_inv) as [H1 H2]; [reflexivity|reflexivity|]. split; [exact H1|].
  destruct (H2 5%nat (Timestamp.mk 5 0)) as (k' & E & L & _); [vm_compute; reflexivity|]. exists k'. split; [exact E|exact L].
Defined.

(** The thread 13 has not been made ready in [demo1]; it is joined like one that has
    terminated. *)
Lemma join_keeps_lock_witness : exists k', join seconds_clock 3 13 demo1 = Ok (tt, k') /\ joinLock k' = locked.
Proof.
  destruct (join_keeps_lock seconds_clock 3 13 (mkThread 3 100 23) demo1 demo1_inv) as (k' & E & L & _); [vm_compute; reflexivity|vm_compute; reflexivity|].
  exists k'. split; [exact E|exact L].
Defined.

Lemma fpu_switch_witness : exists k', switchFpuContext demo0 = Ok (tt, k') /\ fpuRegisters k' = 21 /\ lastFpuThread k' = 11.
Proof.
  destruct (fpu_switch demo0) as (k' & E & H1 & _ & H2 & _); try reflexivity; [eexists; vm_compute; reflexivity|left; reflexivity|].
  exists k'. split_and!; [exact E|injection H2 as H2; exact H2|exact H1].
Defined.

(** Two threads whose time has come: a pass wakes the first one only. *)
Example wake_skips_entry : wake (Timestamp.mk 9 0) [mkEntry 11 (Timestamp.mk 3 0); mkEntry 12 (Timestamp.mk 4 0)] = ([11], [mkEntry 12 (Timestamp.mk 4 0)]).
Proof. reflexivity. Qed.

(** A thread that is killed while it waits for another one stays in the
    join list of that one and is made ready again after it has been handed
    to the cleaner. *)
Theorem kill_joining_thread :
  exists k1 k2, (join seconds_clock 3 12;; kill 11) demo2 = Ok (tt, k1) /\
    joining k1 !! 1 = None /\ ArrayBlockingQueue.contents (threadQueue k1) = [11] /\ joining k1 !! 2 = Some [11] /\
    exit seconds_clock 3 k1 = Ok (tt, k2) /\ currentThread k2 = 13 /\ ready_threads k2 = [11].
Proof.
  exists (next_state ((join seconds_clock 3 12;; kill 11) demo2)), (next_state ((join seconds_clock 3 12;; kill 11;; exit seconds_clock 3) demo2)).
  split_and!; vm_compute; reflexivity.
Qed.

End SchedulerSpec.
