(* ===== verification/ProcessService.v ===== *)
(** * ProcessService.v: processes

    [kernel/service/ProcessService], the rest of [kernel/process/Process],
    [kernel/process/SchedulerCleaner] and [AddressSpaceCleaner], on top of the scheduler
    of [Scheduler.v]. Stacks, address spaces, names and the files that a new process opens
    are left out.

    A call runs until it returns or switches to another thread. The loops that yield while
    they wait are modelled up to the first switch; they keep no state of their own, so that
    what follows is the same call again. *)

From S2P Require Import Prelude Bits Atomic Spinlock Array ArrayList Queue ArrayListBlockingQueue ArrayBlockingQueue HashMap Time Scheduler SchedulerSpec.
Import Time Scheduler SchedulerSpec.

Module ProcessService.

(** The state of the scheduler and the counters of the two id generators *)
Record Service := mkService { kernel : Kernel; threadIds : Z; processIds : Z }.

Definition PM (A : Type) : Type := Service -> outcome (A * Service).
#[global] Instance PM_ret : MRet PM := fun A a s => Ok (a, s).
#[global] Instance PM_bind : MBind PM := fun A B f m s => '(a, s) ← m s; f a s.

Definition call {A} (m : M A) : PM A := fun s => '(a, k) ← m (kernel s); Ok (a, mkService k (threadIds s) (processIds s)).

(** ** Operations on the state of the scheduler *)

(** [Process] *)
Definition set_process (process : Z) (p : Process) : M unit := modify (fun k => set_processes (<[process := p]> (processes k)) k).

Definition setExitCode (process code : Z) : M unit :=
  p ← deref_process process;
  set_process process (mkProcess (pid p) (pthreads p) true code (mainThread p)).

Definition setMainThread (process thread : Z) : M unit :=
  p ← deref_process process;
  set_process process (mkProcess (pid p) (pthreads p) (finished p) (exitCode p) thread).

Definition getThreads (process : Z) : M (list Z) := p ← deref_process process; lift (ArrayList.toArray 0 (pthreads p)).
Definition process_threads (process : Z) : M Z := p ← deref_process process; mret (ArrayList.size (pthreads p)).

(** [for (auto *thread : process.getThreads()) scheduler.kill( *thread)] *)
Fixpoint kill_all (l : list Z) : M unit :=
  match l with
  | [] => mret tt
  | p :: l => kill p;; kill_all l
  end.

(** The loop of [killAllThreadsButCurrent], whose iterators hold a copy of the list *)
Fixpoint kill_but (current : Z) (l : list Z) : M unit :=
  match l with
  | [] => mret tt
  | p :: l =>
    t ← deref_thread p;
    (if id t =? current then mret tt else kill p);;
    kill_but current l
  end.

Definition killAllThreadsButCurrent (process : Z) : M unit :=
  current ← getCurrentThread;
  c ← deref_thread current;
  l ← getThreads process;
  kill_but (id c) l.

(** [ProcessService] *)
Definition getCurrentProcess : M Z :=
  b ← gets initialized;
  if negb b then gets kernelProcess
  else current ← getCurrentThread; t ← deref_thread current; mret (parent t).

Fixpoint find_process (tbl : gmap Z Process) (i : Z) (l : list Z) : outcome Z :=
  match l with
  | [] => Ok 0
  | p :: l => pr ← of_option (tbl !! p); if pid pr =? i then Ok p else find_process tbl i l
  end.

(** The address of the process or the null pointer *)
Definition getProcess (i : Z) : M Z :=
  l ← gets processList; l ← lift (ArrayList.toArray 0 l); tbl ← gets processes; lift (find_process tbl i l).
Definition isProcessActive (i : Z) : M bool := p ← getProcess i; mret (negb (p =? 0)).

Fixpoint process_ids (tbl : gmap Z Process) (l : list Z) : outcome (list Z) :=
  match l with
  | [] => Ok []
  | p :: l => pr ← of_option (tbl !! p); ids ← process_ids tbl l; Ok (pid pr :: ids)
  end.
Definition getActiveProcessIds : M (list Z) :=
  l ← gets processList; l ← lift (ArrayList.toArray 0 l); tbl ← gets processes; lift (process_ids tbl l).

Definition add_process (process : Z) : M unit :=
  acquire processLock set_processLock;;
  l ← gets processList;
  '(_, l) ← lift (ArrayList.add 0 process l);
  modify (set_processList l);;
  release processLock set_processLock.

Definition remove_process (process : Z) : M unit :=
  acquire processLock set_processLock;;
  l ← gets processList;
  '(_, l) ← lift (ArrayList.remove process l);
  modify (set_processList l);;
  release processLock set_processLock.

(** [SchedulerCleaner] *)
Definition cleanup_process (process : Z) : M unit :=
  q ← gets processQueue;
  '(b, q) ← lift (ArrayBlockingQueue.offer process q);
  modify (set_processQueue q);;
  if (b : bool) then mret tt else throwException OUT_OF_BOUNDS.

Definition delete_thread (thread : Z) : M unit := modify (fun k => set_threads (delete thread (threads k)) k).
Definition delete_process (process : Z) : M unit := deref_process process;; modify (fun k => set_processes (delete process (processes k)) k).

Fixpoint cleanupProcesses_loop (fuel : nat) : M unit :=
  q ← gets processQueue;
  if ArrayBlockingQueue.size q >? 0 then
    match fuel with
    | O => wait
    | S fuel =>
      '(p, q) ← lift (ArrayBlockingQueue.poll q);
      modify (set_processQueue q);;
      delete_process p;;
      cleanupProcesses_loop fuel
    end
  else mret tt.
Definition cleanupProcesses : M unit := q ← gets processQueue; cleanupProcesses_loop (Z.to_nat (ArrayBlockingQueue.size q)).

Section Clock.
Context (clock : nat -> Timestamp.Timestamp).

(** [false] if the loop has yielded because a thread is still queued. *)
Fixpoint cleanupThreads_loop (fuel : nat) : M bool :=
  q ← gets threadQueue;
  if ArrayBlockingQueue.size q >? 0 then
    match fuel with
    | O => wait
    | S fuel =>
      '(p, q) ← lift (ArrayBlockingQueue.poll q);
      modify (set_threadQueue q);;
      t ← deref_thread p;
      found ← getThread (id t);
      if negb (found =? 0) then
        q ← gets threadQueue;
        '(_, q) ← lift (ArrayBlockingQueue.add p q);
        modify (set_threadQueue q);;
        yield clock;;
        mret false
      else
        delete_thread p;;
        cleanupThreads_loop fuel
    end
  else mret true.
Definition cleanupThreads : M bool := q ← gets threadQueue; cleanupThreads_loop (Z.to_nat (ArrayBlockingQueue.size q)).

(** [AddressSpaceCleaner::run] without the removal of the pages; [false] if it has yielded. *)
Definition AddressSpaceCleaner_run : M bool :=
  process ← getCurrentProcess;
  n ← process_threads process;
  if n >? 1 then yield clock;; mret false
  else cleanup_process process;; mret true.

(** [Process::join]; [false] if it has yielded. *)
Definition Process_join (fuel : nat) (process : Z) : M bool :=
  p ← deref_process process;
  if mainThread p =? 0 then
    if finished p then mret true else yield clock;; mret false
  else join clock fuel (mainThread p);; mret true.

(** ** System calls *)

Definition joinThread (fuel : nat) (threadId : Z) : M bool :=
  p ← getThread threadId;
  (if negb (p =? 0) then join clock fuel p else mret tt);;
  mret true.

(** [None] if [Process::join] has yielded *)
Definition joinProcess (fuel : nat) (processId : Z) : M (option bool) :=
  p ← getProcess processId;
  if p =? 0 then mret (Some false)
  else b ← Process_join fuel p; mret (if (b : bool) then Some true else None).

(** ** Operations that create threads and processes *)

(** The address that [new] returns when the objects at the given addresses exist, and the
    registers that a new thread starts with *)
Context (new : gset Z -> Z) (defaultFpuContext : Z).

Definition createKernelThread (process : Z) : PM Z := fun s =>
  let p := new (dom (threads (kernel s))) in
  let '(i, threadIds) := Atomic.next uint32_t (threadIds s) in
  Ok (p, mkService (set_threads (<[p := mkThread i process defaultFpuContext]> (threads (kernel s))) (kernel s)) threadIds (processIds s)).

Definition Process_new : PM Z := fun s =>
  let p := new (dom (processes (kernel s))) in
  let '(i, processIds) := Atomic.next uint32_t (processIds s) in
  Ok (p, mkService (set_processes (<[p := mkProcess i ArrayList_empty false (-1) 0]> (processes (kernel s))) (kernel s)) (threadIds s) processIds).

Definition createProcess : PM Z := process ← Process_new; call (add_process process);; mret process.

(** The loader thread, which runs [BinaryLoader::run], starts the program. *)
Definition loadBinary : PM Z :=
  process ← createProcess;
  thread ← createKernelThread process;
  call (ready thread);;
  mret process.

Definition killProcess (process : Z) : PM unit :=
  current ← call getCurrentProcess;
  p ← call (deref_process process);
  c ← call (deref_process current);
  if pid p =? pid c then call (throwException INVALID_ARGUMENT)
  else
    l ← call (getThreads process);
    call (kill_all l);;
    cleanerThread ← createKernelThread process;
    call (ready cleanerThread);;
    call (setExitCode process (-1));;
    call (remove_process process).

Definition exitCurrentProcess (fuel : nat) (exitCode : Z) : PM unit :=
  process ← call getCurrentProcess;
  cleanerThread ← createKernelThread process;
  call (killAllThreadsButCurrent process);;
  call (ready cleanerThread);;
  call (setExitCode process exitCode);;
  call (remove_process process);;
  call (exit clock fuel).

Definition killProcess_call (processId : Z) : PM bool :=
  p ← call (getProcess processId);
  if p =? 0 then mret false else killProcess p;; mret true.

Definition startScheduler : PM unit :=
  k ← call (gets kernelProcess);
  thread ← createKernelThread k;
  call (ready thread);;
  call start.

End Clock.

(** ** Killing the threads of a process *)

Definition ring (k : Kernel) : list Z := ArrayBlockingQueue.contents (threadQueue k).

(** What killing the threads [l] of the process [pr] does; [a] is the list of threads that the process is left with. *)
Definition kills (l : list Z) (pr : Z) (proc : Process) (a : ArrayList Z) (k k' : Kernel) : Prop :=
  inv k' /\ places k ≡ₚ l ++ places k' /\
  (threads k' = threads k /\ processList k' = processList k /\ processLock k' = processLock k) /\
  processes k' = processes (with_threads pr proc a k) /\ ArrayList.wf a /\ ArrayList.contents a = filter (fun x => x ∉ l) (ArrayList.contents (pthreads proc)) /\
  (ArrayBlockingQueue.wf (threadQueue k') /\ ring k' = ring k ++ l /\ ArrayBlockingQueue.capacity (threadQueue k') = ArrayBlockingQueue.capacity (threadQueue k)) /\
  (forall i, is_Some (joining k' !! i) -> is_Some (joining k !! i)) /\ Forall (fun p => exists t, threads k !! p = Some t /\ parent t = pr) l.

(** A thread of the process [pr] that can be killed *)
Definition killable (pr : Z) (k : Kernel) (p : Z) : Prop :=
  p ∈ ready_threads k ++ (thread <$> sleeping k) /\ exists t, threads k !! p = Some t /\ parent t = pr.

Lemma cleanup_ok p k :
  ArrayBlockingQueue.wf (threadQueue k) -> zlen (ring k) < ArrayBlockingQueue.capacity (threadQueue k) ->
  exists q, cleanup p k = Ok (tt, set_threadQueue q k) /\ ArrayBlockingQueue.wf q /\ ArrayBlockingQueue.contents q = ring k ++ [p] /\
    ArrayBlockingQueue.capacity q = ArrayBlockingQueue.capacity (threadQueue k).
Proof.
  intros Hw Hl. unfold ring in Hl. rewrite ArrayBlockingQueue.ring_contents_length in Hl by done.
  destruct (ArrayBlockingQueue.ring_offer_spec p (threadQueue k) Hw Hl) as (q & E & ? & ? & ?). unfold cleanup. run. rewrite E. run. eauto.
Qed.

Lemma with_threads_id pr proc k : processes k !! pr = Some proc -> processes (with_threads pr proc (pthreads proc) k) = processes k.
Proof. intros H. cbn. apply insert_id. by destruct proc. Qed.

Lemma kill_one p pr proc k :
  inv k -> killable pr k p -> processes k !! pr = Some proc -> NoDup (ArrayList.contents (pthreads proc)) ->
  ArrayBlockingQueue.wf (threadQueue k) -> zlen (ring k) < ArrayBlockingQueue.capacity (threadQueue k) ->
  exists k' a, kill p k = Ok (tt, k') /\ kills [p] pr proc a k k' /\ currentThread k' = currentThread k /\ forall x, killable pr k x -> x <> p -> killable pr k' x.
Proof.
  intros Hinv [Hin (t & Ht & Hpar)] Hpr Hnd Hq Hroom. destruct (kill_run p k Hinv Hin) as (t' & proc' & a & k1 & Ht' & Hp & Hw & Hl & Hc & E & Hk).
  rewrite Ht in Ht'. injection Ht' as <-. rewrite Hpar in Hp. rewrite Hpr in Hp. injection Hp as <-.
  assert (Hinv' := fun tq => killed_inv p t proc a tq k k1 Hinv Ht ltac:(by rewrite Hpar) Hw Hl Hk).
  destruct Hk as (Hst & _ & (_ & Hcur & Hth & Htq & Hpl & Hlock) & Hprs & Hj & Hx & Hplc).
  destruct (cleanup_ok p k1) as (q & Eq & Hqw & Hqc & Hcap); [by rewrite Htq|unfold ring; by rewrite Htq|].
  eexists _, a. split; [rewrite E, bind_run, Eq; apply release_any|]. unfold ring in Hqc. rewrite Htq in Hqc, Hcap. rewrite Hpar in Hprs. split; [|split; [done|]].
  - unfold kills. split_and!; try done.
    + rewrite Hc, list_remove_filter by done. apply list_filter_iff. set_solver.
    + intros i [x Hi]. change (joining _) with (joining k1) in Hi. rewrite Hj in Hi. apply lookup_delete_Some in Hi as [_ Hi]. by eexists.
    + constructor; [eauto|constructor].
  - intros x [Hxin (u & Hu & Hup)] Hne. split; [by apply Hx|]. exists u. change (threads _) with (threads k1). by rewrite Hth.
Qed.

Lemma kills_trans l1 l2 pr proc a b k k1 k2 :
  processes k !! pr = Some proc ->
  kills l1 pr proc a k k1 -> kills l2 pr (mkProcess (pid proc) a (finished proc) (exitCode proc) (mainThread proc)) b k1 k2 -> kills (l1 ++ l2) pr proc b k k2.
Proof.
  intros Hp (H1 & H2 & (H4 & H5 & H6) & H7 & H8 & H9 & (H10 & H11 & H12) & H13 & H14) (G1 & G2 & (G4 & G5 & G6) & G7 & G8 & G9 & (G10 & G11 & G12) & G13 & G14).
  unfold kills. split_and!; try congruence; try done.
  - by rewrite H2, G2, app_assoc.
  - rewrite G7. cbn [processes with_threads set_processes pid finished exitCode mainThread pthreads]. rewrite H7. cbn. by rewrite insert_insert_eq.
  - rewrite G9. cbn [pthreads]. rewrite H9, list_filter_filter. apply list_filter_iff. set_solver.
  - rewrite G11, H11. by rewrite app_assoc.
  - auto.
  - apply Forall_app. split; [done|]. by rewrite H4 in G14.
Qed.

Lemma kill_all_ok pr l : forall k proc,
  inv k -> NoDup l -> Forall (killable pr k) l -> processes k !! pr = Some proc -> ArrayList.wf (pthreads proc) -> NoDup (ArrayList.contents (pthreads proc)) ->
  ArrayBlockingQueue.wf (threadQueue k) -> zlen (ring k) + zlen l <= ArrayBlockingQueue.capacity (threadQueue k) ->
  exists k' a, kill_all l k = Ok (tt, k') /\ kills l pr proc a k k' /\ currentThread k' = currentThread k.
Proof.
  induction l as [|p l IH]; intros k proc Hinv Hnd Hall Hp Hw Hn Hq Hroom; cbn [kill_all].
  - exists k, (pthreads proc). split; [done|]. split; [|done]. unfold kills. split_and!; try done; [by rewrite with_threads_id| |by rewrite app_nil_r].
    clear. induction (ArrayList.contents (pthreads proc)) as [|x l IH]; [done|]. rewrite filter_cons_True by set_solver. by f_equal.
  - apply NoDup_cons in Hnd as [Hpl Hnd]. apply Forall_cons in Hall as [Hk Hall]. rewrite zlen_cons in Hroom. pose proof (zlen_nonneg l).
    destruct (kill_one p pr proc k Hinv Hk Hp Hn Hq ltac:(lia)) as (k1 & a & E & Hks & Hc1 & Hrest). rewrite bind_run, E. cbn [mbind outcome_bind].
    pose proof Hks as (G1 & _ & _ & G7 & G8 & G9 & (G10 & G11 & G12) & _ & _).
    destruct (IH k1 (mkProcess (pid proc) a (finished proc) (exitCode proc) (mainThread proc))) as (k2 & b & E2 & Hks2 & Hc2); try done.
    + rewrite Forall_forall in Hall |- *. intros x Hx. apply Hrest; [by apply Hall|]. by intros ->.
    + rewrite G7. cbn. apply lookup_insert_eq.
    + cbn [pthreads]. rewrite G9. by apply NoDup_filter.
    + rewrite G11, G12, zlen_app. change (zlen [p]) with 1. lia.
    + exists k2, b. split; [done|]. split; [|congruence]. change (p :: l) with ([p] ++ l). by eapply kills_trans.
Qed.

(** ** The invariant of the service *)

Definition members (k : Kernel) (pr : Z) (a : ArrayList Z) : Prop :=
  ArrayList.wf a /\ NoDup (ArrayList.contents a) /\ Forall (fun p => exists t, threads k !! p = Some t /\ parent t = pr) (ArrayList.contents a).

Definition active (k : Kernel) : list Z := ArrayList.contents (processList k).

(** A thread that has terminated and waits for the cleaner *)
Definition dead (k : Kernel) (p : Z) : Prop :=
  is_Some (threads k !! p) /\ p ∉ places k /\ map_Forall (fun _ proc => p ∉ ArrayList.contents (pthreads proc)) (processes k).

(** Ids are below the counters, a process lists its own threads and every thread at a place is listed by its process,
    the active processes exist and have distinct ids, and the threads
    in the queue of the cleaner exist and are used nowhere else. *)
Record sinv (s : Service) : Prop := {
  si_kernel : inv (kernel s);
  si_lock : processLock (kernel s) = unlocked;
  si_counter : 0 <= threadIds s /\ 0 <= processIds s;
  si_threads : map_Forall (fun _ t => id t < threadIds s) (threads (kernel s));
  si_joins : map_Forall (fun i _ => i < threadIds s) (joining (kernel s));
  si_members : map_Forall (fun pr proc => members (kernel s) pr (pthreads proc)) (processes (kernel s));
  si_home : forall p t proc, p ∈ places (kernel s) -> threads (kernel s) !! p = Some t -> processes (kernel s) !! parent t = Some proc -> p ∈ ArrayList.contents (pthreads proc);
  si_list : ArrayList.wf (processList (kernel s)) /\ NoDup (active (kernel s)) /\ Forall (fun pr => is_Some (processes (kernel s) !! pr)) (active (kernel s));
  si_pids : map_Forall (fun _ p => pid p < processIds s) (processes (kernel s));
  si_unique : forall p q x y, processes (kernel s) !! p = Some x -> processes (kernel s) !! q = Some y -> pid x = pid y -> p = q;
  si_queue : ArrayBlockingQueue.wf (threadQueue (kernel s));
  si_length : ArrayList.len (processList (kernel s)) < 2 ^ 31;
  si_dead : NoDup (ring (kernel s)) /\ Forall (dead (kernel s)) (ring (kernel s))
}.

Definition with_kernel (k : Kernel) (s : Service) : Service := mkService k (threadIds s) (processIds s).

Lemma call_bind {A B} (m : M A) (f : A -> PM B) s a k : m (kernel s) = Ok (a, k) -> (call m ≫= f) s = f a (with_kernel k s).
Proof. intros E. unfold mbind, PM_bind, call. by rewrite E. Qed.

(** Processes whose thread lists change, one by one *)
Lemma with_threads_lookup pr proc a k q x : processes k !! pr = Some proc ->
  processes (with_threads pr proc a k) !! q = Some x ->
  exists y, processes k !! q = Some y /\ pid x = pid y /\ pthreads x = (if decide (q = pr) then a else pthreads y).
Proof.
  intros Hp. cbn. destruct (decide (q = pr)) as [->|]; [rewrite lookup_insert_eq|rewrite lookup_insert_ne by done].
  - intros [= <-]. eauto.
  - eauto.
Qed.

Lemma members_mono k k' pr a : (forall p t, threads k !! p = Some t -> threads k' !! p = Some t) -> members k pr a -> members k' pr a.
Proof. intros H (? & ? & Hf). split_and!; [done|done|]. eapply Forall_impl; [exact Hf|]. intros p (t & ? & ?). eauto. Qed.

Lemma sinv_kills l pr proc a s k' :
  sinv s -> processes (kernel s) !! pr = Some proc -> kills l pr proc a (kernel s) k' -> sinv (with_kernel k' s).
Proof.
  intros [H1 H2 Hc H3 H4 H5 H6 H7 H8 H9 H10 H11 [H12 H13]] Hp (G1 & G2 & (G4 & G5 & G6) & G7 & G8 & G9 & (G10 & G11 & _) & G13 & G14).
  assert (Hd : forall x, x ∈ places k' -> x ∉ l). { pose proof (inv_once _ H1) as Hn. rewrite G2 in Hn. apply NoDup_app in Hn as (_ & Hn & _). intros x Hx Hl. by apply (Hn x Hl). }
  split; cbn [kernel with_kernel threadIds processIds]; try done; try congruence.
  - by rewrite G4.
  - intros i x Hx. destruct (G13 i) as [y Hy]; [by eexists|]. by eapply H4.
  - intros q x Hx. rewrite G7 in Hx. destruct (with_threads_lookup _ _ _ _ _ _ Hp Hx) as (y & Hy & _ & ->). unfold members. rewrite G4. pose proof (H5 _ _ Hy) as Hm. case_decide as Hq; [|done]. subst q. rewrite Hp in Hy. injection Hy as <-.
    destruct Hm as (_ & Hn & Hf). split_and!; [done|rewrite G9; by apply NoDup_filter|]. rewrite G9, Forall_forall. intros z Hz. apply list_elem_of_filter in Hz as [_ Hz]. rewrite Forall_forall in Hf. auto.
  - intros p t x Hpl Ht Hx. rewrite G4 in Ht. rewrite G7 in Hx. destruct (with_threads_lookup _ _ _ _ _ _ Hp Hx) as (y & Hy & _ & ->).
    assert (Hin : p ∈ ArrayList.contents (pthreads y)) by (eapply H6; [rewrite G2; set_solver|done|done]). case_decide as Hq; [|done]. rewrite G9. apply list_elem_of_filter. split; [by apply Hd|]. rewrite Hq, Hp in Hy. by injection Hy as <-.
  - unfold active. rewrite G5. destruct H7 as (? & ? & Hf). split_and!; [done|done|]. eapply Forall_impl; [exact Hf|]. intros q [y Hy]. rewrite G7. cbn. rewrite lookup_insert_is_Some'. right. by eexists.
  - intros q x Hx. rewrite G7 in Hx. destruct (with_threads_lookup _ _ _ _ _ _ Hp Hx) as (y & Hy & -> & _). by eapply H8.
  - intros q1 q2 x y Hx Hy. rewrite G7 in Hx, Hy. destruct (with_threads_lookup _ _ _ _ _ _ Hp Hx) as (x' & Hx' & -> & _). destruct (with_threads_lookup _ _ _ _ _ _ Hp Hy) as (y' & Hy' & -> & _). by eapply H9.
  - rewrite G11. rewrite Forall_forall in H13, G14. assert (Hl : forall x, x ∈ l -> x ∈ places (kernel s)) by (intros x Hx; rewrite G2; set_solver). split.
    + pose proof (inv_once _ H1) as Hn. rewrite G2 in Hn. apply NoDup_app in Hn as (Hn & _ & _). apply NoDup_app. split_and!; [done| |done]. intros x Hx Hxl. destruct (H13 x Hx) as (_ & Hx' & _). by apply Hx', Hl.
    + apply Forall_forall. intros x Hx. unfold dead. rewrite G4. apply elem_of_app in Hx as [Hx|Hx].
      * destruct (H13 x Hx) as (D1 & D2 & D3). split_and!; [done|intros Hy; apply D2; rewrite G2; set_solver|]. intros q y Hy. rewrite G7 in Hy. destruct (with_threads_lookup _ _ _ _ _ _ Hp Hy) as (z & Hz & _ & ->).
        case_decide as Hq; [|by apply (D3 _ _ Hz)]. rewrite G9. intros [_ Hy']%list_elem_of_filter. by apply (D3 _ _ Hp).
      * destruct (G14 x Hx) as (t & Ht & Hpar). split_and!; [by eexists|intros Hy; by apply (Hd x)|]. intros q y Hy. rewrite G7 in Hy. destruct (with_threads_lookup _ _ _ _ _ _ Hp Hy) as (z & Hz & _ & ->).
        case_decide as Hq; [rewrite G9; intros [Hy' _]%list_elem_of_filter; by apply Hy'|]. intros Hy'. destruct (H5 _ _ Hz) as (_ & _ & Hf). rewrite Forall_forall in Hf. destruct (Hf x Hy') as (t' & Ht' & Hpar'). apply Hq. congruence.
Qed.

(** ** Creating threads *)

Section create.
Context (new : gset Z -> Z) (defaultFpuContext : Z) (new_fresh : forall X, new X ∉ X /\ new X <> 0).

(** The objects of the threads with a new one *)
Definition with_thread (p : Z) (t : Thread) (k : Kernel) : Kernel := set_threads (<[p := t]> (threads k)) k.

Lemma with_thread_inv p t k :
  inv k -> threads k !! p = None -> (forall q u, threads k !! q = Some u -> id u <> id t) -> inv (with_thread p t k).
Proof.
  intros [H1 H2 H3 H4 H5 H6 H7] Hp Hi. split; try done.
  - eapply Forall_impl; [exact H5|]. intros q. apply alive_mono; [|eauto|eauto]. intros u Hu. cbn. rewrite lookup_insert_ne; [done|]. intros ->. congruence.
  - intros q1 q2 u v. cbn. intros [[<- <-]|[_ Hu]]%lookup_insert_Some [[<- <-]|[_ Hv]]%lookup_insert_Some E; [done| | |by eapply H6].
    + by destruct (Hi _ _ Hv).
    + by destruct (Hi _ _ Hu).
Qed.

Lemma places_threads k p : inv k -> p ∈ places k -> is_Some (threads k !! p).
Proof. intros Hinv Hp. destruct (inv_runnable k p Hinv Hp) as (t & Ht & _). by eexists. Qed.

(** A new thread of a process has an object and an id of its own. *)
Lemma create_ok pr proc s :
  sinv s -> threadIds s < UINT32_MAX -> processes (kernel s) !! pr = Some proc ->
  exists p, let t := mkThread (threadIds s) pr defaultFpuContext in let k := with_thread p t (kernel s) in
    createKernelThread new defaultFpuContext pr s = Ok (p, mkService k (threadIds s + 1) (processIds s)) /\
    threads (kernel s) !! p = None /\ p <> 0 /\ p ∉ places k /\ p ∉ ring k /\ joining k !! id t = None /\ sinv (mkService k (threadIds s + 1) (processIds s)).
Proof.
  intros Hs Hid Hp. pose proof Hs as [H1 H2 [Hc Hc'] H3 H4 H5 H6 H7 H8 H9 H10 H11 [H12 H13]]. exists (new (dom (threads (kernel s)))). cbv zeta.
  destruct (new_fresh (dom (threads (kernel s)))) as [Hn H0]. set (p := new _) in *. apply not_elem_of_dom in Hn. unfold UINT32_MAX in Hid.
  assert (Hlt : forall i x, joining (kernel s) !! i = Some x -> i < threadIds s) by (intros; by eapply H4).
  split_and!; [|done|done| | | |].
  - unfold createKernelThread. fold p. cbn [Atomic.next]. unfold Atomic.next, fetchAndInc, fetchAndAdd. by rewrite conv_id by (unfold in_type, in_u; cbn; lia).
  - intros Hpl. by destruct (places_threads _ _ H1 Hpl) as [? ?]; congruence.
  - intros Hr. rewrite Forall_forall in H13. destruct (H13 p Hr) as ([? ?] & _). congruence.
  - apply eq_None_not_Some. intros [x Hx]. specialize (Hlt _ _ Hx). cbn in Hlt. lia.
  - split; cbn [kernel threadIds processIds]; try done; [|lia| | | | |].
    + apply with_thread_inv; [done|done|]. intros q u Hu. specialize (H3 _ _ Hu). cbn in *. lia.
    + apply map_Forall_insert_2; [cbn; lia|]. intros q u Hu. specialize (H3 _ _ Hu). cbn in *. lia.
    + intros i x Hx. specialize (Hlt _ _ Hx). lia.
    + intros q x Hx. eapply members_mono; [|by apply H5]. intros p' t Ht. cbn. rewrite lookup_insert_ne; [done|]. intros ->. congruence.
    + intros p' t x Hpl Ht Hx. cbn in Ht. eapply H6; [done| |done]. rewrite lookup_insert_ne in Ht; [done|]. intros ->. by destruct (places_threads _ _ H1 Hpl) as [? ?]; congruence.
    + split; [done|]. eapply Forall_impl; [exact H13|]. intros q (D1 & D2 & D3). split_and!; [|done|done]. cbn. rewrite lookup_insert_is_Some'. by right.
Qed.

(** Making it ready adds it to the list of its process. *)
Lemma sinv_ready p t proc s :
  sinv s -> threads (kernel s) !! p = Some t -> processes (kernel s) !! parent t = Some proc -> p <> 0 -> p ∉ places (kernel s) -> p ∉ ring (kernel s) -> p ∉ ArrayList.contents (pthreads proc) -> joining (kernel s) !! id t = None ->
  zlen (places (kernel s)) < 2 ^ 31 - 1 -> ArrayList.len (pthreads proc) < 2 ^ 31 - 1 ->
  exists k' a, ready p (kernel s) = Ok (tt, k') /\ readied p t proc a (kernel s) k' /\ sinv (with_kernel k' s).
Proof.
  clear dependent new. intros Hs Ht Hp H0 Hpl Hdr Hnl Hj Hz Hl. pose proof Hs as [H1 H2 Hc H3 H4 H5 H6 H7 H8 H9 H10 H11 [H12 H13]].
  destruct (ready_run (kernel s) p H1) as (k' & t' & proc' & a & E & Hinv & Ht' & Hp' & Hr).
  { split_and!; [done|done|done|]. exists t, proc. split_and!; try done. by apply (H5 _ _ Hp). }
  rewrite Ht in Ht'. injection Ht' as <-. rewrite Hp in Hp'. injection Hp' as <-. exists k', a. split_and!; [done|done|].
  destruct Hr as ((G1 & G2 & G3 & G4 & G5 & _) & G6 & G7 & G8 & G9 & G10 & G11).
  split; cbn [kernel with_kernel threadIds processIds]; try done; try congruence.
  - by rewrite G2.
  - rewrite G9. apply map_Forall_insert_2; [by apply (H3 _ _ Ht)|done].
  - intros q x Hx. rewrite G6 in Hx. destruct (with_threads_lookup _ _ _ _ _ _ Hp Hx) as (y & Hy & _ & ->). unfold members. rewrite G2. pose proof (H5 _ _ Hy) as Hm. case_decide as Hq; [|done]. subst q. rewrite Hp in Hy. injection Hy as <-.
    destruct Hm as (_ & Hn & Hf). rewrite G8. split_and!; [done| |apply Forall_app; split; [done|constructor; eauto]]. apply NoDup_app. split_and!; [done| |by apply NoDup_singleton]. intros z Hz' ->%list_elem_of_singleton. done.
  - intros q u x Hq Hu Hx. rewrite G2 in Hu. rewrite G6 in Hx. destruct (with_threads_lookup _ _ _ _ _ _ Hp Hx) as (y & Hy & _ & ->). rewrite G10 in Hq. apply elem_of_cons in Hq as [->|Hq].
    + rewrite Ht in Hu. injection Hu as <-. rewrite decide_True, G8 by done. set_solver.
    + assert (Hin : q ∈ ArrayList.contents (pthreads y)) by by eapply H6. case_decide as Hqq; [|done]. rewrite Hqq, Hp in Hy. injection Hy as <-. rewrite G8. set_solver.
  - unfold active. rewrite G4. destruct H7 as (? & ? & Hf). split_and!; [done|done|]. eapply Forall_impl; [exact Hf|]. intros q [y Hy]. rewrite G6. cbn. rewrite lookup_insert_is_Some'. right. by eexists.
  - intros q x Hx. rewrite G6 in Hx. destruct (with_threads_lookup _ _ _ _ _ _ Hp Hx) as (y & Hy & -> & _). by eapply H8.
  - intros q1 q2 x y Hx Hy. rewrite G6 in Hx, Hy. destruct (with_threads_lookup _ _ _ _ _ _ Hp Hx) as (x' & Hx' & -> & _). destruct (with_threads_lookup _ _ _ _ _ _ Hp Hy) as (y' & Hy' & -> & _). by eapply H9.
  - assert (ring k' = ring (kernel s)) as -> by (unfold ring; by rewrite G3). split; [done|]. rewrite Forall_forall in H13 |- *. intros x Hx. assert (Hxp : x <> p) by (by intros ->). destruct (H13 x Hx) as (D1 & D2 & D3). unfold dead. rewrite G2, G10.
    split_and!; [done|set_solver|]. intros q y Hy. rewrite G6 in Hy. destruct (with_threads_lookup _ _ _ _ _ _ Hp Hy) as (z & Hz' & _ & ->). case_decide as Hq; [|by apply (D3 _ _ Hz')]. rewrite G8. pose proof (D3 _ _ Hp). set_solver.
Qed.

(** ** The end of a process *)

(** [setExitCode] and the removal from the list of active processes *)
Definition finish (pr : Z) (proc : Process) (code : Z) (l : ArrayList Z) (k : Kernel) : Kernel :=
  set_processLock unlocked (set_processList l (set_processes (<[pr := mkProcess (pid proc) (pthreads proc) true code (mainThread proc)]> (processes k)) k)).

Lemma finish_inv pr proc code l k : inv k -> processes k !! pr = Some proc -> inv (finish pr proc code l k).
Proof.
  intros [H1 H2 H3 H4 H5 H6 H7] Hp. split; try done. eapply Forall_impl; [exact H5|]. intros q. apply alive_mono; [done| |done].
  intros q' x Hx ? ?. cbn. destruct (decide (pr = q')) as [->|]; [rewrite lookup_insert_eq|rewrite lookup_insert_ne by done; eauto]. rewrite Hp in Hx. injection Hx as <-. eauto.
Qed.

Lemma finish_lookup pr proc code l k q x : processes k !! pr = Some proc ->
  processes (finish pr proc code l k) !! q = Some x -> exists y, processes k !! q = Some y /\ pid x = pid y /\ pthreads x = pthreads y.
Proof. intros Hp. cbn. intros [[<- <-]|[_ Hx]]%lookup_insert_Some; eauto. Qed.

Lemma finish_ok pr proc code s :
  sinv s -> processes (kernel s) !! pr = Some proc ->
  exists l k1, setExitCode pr code (kernel s) = Ok (tt, k1) /\ remove_process pr k1 = Ok (tt, finish pr proc code l (kernel s)) /\
    ArrayList.contents l = filter (fun x => x <> pr) (active (kernel s)) /\ sinv (with_kernel (finish pr proc code l (kernel s)) s).
Proof.
  intros [H1 H2 Hc H3 H4 H5 H6 (W1 & W2 & W3) H8 H9 H10 H11 [H12 H13]] Hp.
  destruct (ArrayList.al_remove_spec pr (processList (kernel s)) W1) as (l & E & Hw & Hl); [unfold UINT32_MAX; lia|].
  assert (Hlf : ArrayList.contents l = filter (fun x => x <> pr) (active (kernel s))) by (by rewrite Hl, list_remove_filter).
  eexists l, _. split; [unfold setExitCode, set_process, deref_process; run; rewrite Hp; run; reflexivity|]. split; [|split; [done|]].
  { unfold remove_process. run. rewrite acquire_free by done. run. rewrite E. run. by rewrite release_any. }
  split; cbn [kernel with_kernel threadIds processIds]; try done.
  - by apply finish_inv.
  - intros q x Hx. destruct (finish_lookup _ _ _ _ _ _ _ Hp Hx) as (y & Hy & _ & ->). by apply (H5 _ _ Hy).
  - intros p t x Hpl Ht Hx. destruct (finish_lookup _ _ _ _ _ _ _ Hp Hx) as (y & Hy & _ & ->). by eapply H6.
  - unfold active. cbn [processList finish set_processLock set_processList]. rewrite Hlf. split_and!; [done|by apply NoDup_filter|]. apply Forall_forall. intros q Hq. apply list_elem_of_filter in Hq as [_ Hq].
    rewrite Forall_forall in W3. destruct (W3 q Hq) as [y Hy]. cbn. rewrite lookup_insert_is_Some'. right. by eexists.
  - intros q x Hx. destruct (finish_lookup _ _ _ _ _ _ _ Hp Hx) as (y & Hy & -> & _). by eapply H8.
  - intros q1 q2 x y Hx Hy. destruct (finish_lookup _ _ _ _ _ _ _ Hp Hx) as (x' & Hx' & -> & _). destruct (finish_lookup _ _ _ _ _ _ _ Hp Hy) as (y' & Hy' & -> & _). by eapply H9.
  - cbn. rewrite <- ArrayList.al_contents_length, Hl by done. pose proof (list_remove_length pr (ArrayList.contents (processList (kernel s)))) as Hn. rewrite <- ArrayList.al_contents_length in H11 by done. unfold zlen in *. lia.
  - split; [done|]. eapply Forall_impl; [exact H13|]. intros x (D1 & D2 & D3). split_and!; [done|done|]. intros q y Hy. destruct (finish_lookup _ _ _ _ _ _ _ Hp Hy) as (z & Hz & _ & ->). by apply (D3 _ _ Hz).
Qed.

Lemma getCurrentProcess_ok k t : inv k -> threads k !! currentThread k = Some t -> getCurrentProcess k = Ok (parent t, k).
Proof.
  intros Hinv Ht. unfold getCurrentProcess. run. rewrite (inv_initialized k Hinv). run. unfold getCurrentThread. run. rewrite (inv_initialized k Hinv). run.
  unfold deref_thread. run. by rewrite Ht.
Qed.

Lemma deref_process_ok k pr proc : processes k !! pr = Some proc -> deref_process pr k = Ok (proc, k).
Proof. intros H. unfold deref_process. run. by rewrite H. Qed.

Lemma getThreads_ok k pr proc : processes k !! pr = Some proc -> ArrayList.wf (pthreads proc) -> getThreads pr k = Ok (ArrayList.contents (pthreads proc), k).
Proof. intros H Hw. unfold getThreads. rewrite bind_run, (deref_process_ok k pr proc H). run. rewrite ArrayList.toArray_spec by done. done. Qed.

(** What is left of a process whose threads were killed: a thread that frees its memory *)
Definition ended (pr : Z) (proc : Process) (code c : Z) (k : Kernel) : Prop :=
  exists a, processes k !! pr = Some (mkProcess (pid proc) a true code (mainThread proc)) /\ ArrayList.contents a = [c].

(** The last steps of [killProcess] and [exitCurrentProcess]: the cleaner thread [c] starts, the process is finished. *)
Lemma retire_ok c t proc code s :
  sinv s -> threads (kernel s) !! c = Some t -> processes (kernel s) !! parent t = Some proc -> c <> 0 -> c ∉ places (kernel s) -> c ∉ ring (kernel s) -> c ∉ ArrayList.contents (pthreads proc) ->
  joining (kernel s) !! id t = None -> zlen (places (kernel s)) < 2 ^ 31 - 1 -> ArrayList.len (pthreads proc) < 2 ^ 31 - 1 ->
  exists k1 k2 k3 a, ready c (kernel s) = Ok (tt, k1) /\ setExitCode (parent t) code k1 = Ok (tt, k2) /\ remove_process (parent t) k2 = Ok (tt, k3) /\ sinv (with_kernel k3 s) /\
    (currentThread k3 = currentThread (kernel s) /\ threads k3 = threads (kernel s) /\ threadQueue k3 = threadQueue (kernel s) /\ active k3 = filter (fun x => x <> parent t) (active (kernel s))) /\
    processes k3 = <[parent t := mkProcess (pid proc) a true code (mainThread proc)]> (processes (kernel s)) /\ ArrayList.wf a /\ ArrayList.contents a = ArrayList.contents (pthreads proc) ++ [c] /\
    places k3 ≡ₚ c :: places (kernel s) /\ ready_threads k3 = ready_threads (kernel s) ++ [c].
Proof.
  intros Hs Ht Hp H0 Hpl Hdr Hnl Hj Hz Hl. destruct (sinv_ready c t proc s Hs Ht Hp H0 Hpl Hdr Hnl Hj Hz Hl) as (k1 & a & E1 & Hr & Hs1).
  destruct Hr as ((Hcur & Hth & Htq & Hls & _ & _) & Hpr & Hw & Hc & _ & Hpl1 & Hr1).
  set (proc1 := mkProcess (pid proc) a (finished proc) (exitCode proc) (mainThread proc)).
  assert (Hp1 : processes k1 !! parent t = Some proc1) by (rewrite Hpr; apply lookup_insert_eq).
  destruct (finish_ok (parent t) proc1 code (with_kernel k1 s) Hs1 Hp1) as (l & k2 & E2 & E3 & Hl3 & Hs3). cbn [kernel with_kernel] in *.
  exists k1, k2. eexists _, a. split_and!; try done.
  - etransitivity; [exact Hl3|]. unfold active. by rewrite Hls.
  - cbn. rewrite Hpr. cbn. by rewrite insert_insert_eq.
Qed.

(** C10: When the threads of another process are ready or sleeping and fit into
    the queue of the cleaner, killProcess succeeds: none of them runs or
    waits any more, they are in the queue of the cleaner, the process is
    finished with code -1 and off the list of processes, only a fresh thread
    that frees its memory is left in it, no other process changes, and the
    invariant of the service holds. *)
Theorem kill_process pr proc s :
  sinv s -> processes (kernel s) !! pr = Some proc -> parent <$> threads (kernel s) !! currentThread (kernel s) <> Some pr ->
  let ts := ArrayList.contents (pthreads proc) in
  Forall (fun p => p ∈ ready_threads (kernel s) ++ (thread <$> sleeping (kernel s))) ts ->
  zlen (ring (kernel s)) + zlen ts <= ArrayBlockingQueue.capacity (threadQueue (kernel s)) ->
  threadIds s < UINT32_MAX -> zlen (places (kernel s)) < 2 ^ 31 - 1 ->
  exists s' c, killProcess new defaultFpuContext pr s = Ok (tt, s') /\ sinv s' /\
    c ∉ places (kernel s) /\ (forall p, p ∈ places (kernel s') <-> p = c \/ p ∈ places (kernel s) /\ p ∉ ts) /\ currentThread (kernel s') = currentThread (kernel s) /\
    ring (kernel s') = ring (kernel s) ++ ts /\ active (kernel s') = filter (fun x => x <> pr) (active (kernel s)) /\
    ended pr proc (-1) c (kernel s') /\ forall q, q <> pr -> processes (kernel s') !! q = processes (kernel s) !! q.
Proof.
  intros Hs Hp Hcur ts Hts Hroom Hid Hz. pose proof (si_kernel s Hs) as Hinv. destruct (si_members s Hs _ _ Hp) as (Hw & Hnd & Hpar). fold ts in Hnd, Hpar.
  destruct (Forall_inv (inv_alive _ Hinv)) as (_ & c & cproc & Hc & Hcp & _). rewrite Hc in Hcur. cbn in Hcur.
  assert (Hpid : (pid proc =? pid cproc) = false). { apply Z.eqb_neq. intros E. apply Hcur. by rewrite (si_unique s Hs _ _ _ _ Hp Hcp E). }
  unfold killProcess. rewrite (call_bind _ _ s _ _ (getCurrentProcess_ok _ c Hinv Hc)). destruct s as [k tid pids]. unfold with_kernel. cbn [kernel threadIds processIds] in *.
  erewrite call_bind by exact (deref_process_ok k pr proc Hp). erewrite call_bind by exact (deref_process_ok k (parent c) cproc Hcp). rewrite Hpid.
  erewrite call_bind by exact (getThreads_ok k pr proc Hp Hw). fold ts.
  destruct (kill_all_ok pr ts k proc Hinv Hnd) as (k1 & a & E1 & Hk1 & Hcur1); [|done|done|done|apply Hs|done|].
  { rewrite Forall_forall in Hts, Hpar |- *. split; auto. }
  erewrite call_bind by exact E1. assert (Hs1 := sinv_kills ts pr proc a _ k1 Hs Hp Hk1). unfold with_kernel in Hs1 |- *. cbn [kernel threadIds processIds] in *.
  destruct Hk1 as (Hinv1 & Hpl1 & (Hth1 & Hl1 & _) & Hpr1 & Hwa & Hca & (_ & Hr1 & _) & _ & _).
  assert (Ha : ArrayList.contents a = []). { rewrite Hca. apply elem_of_nil_inv. intros x [Hx1 Hx2]%list_elem_of_filter. by apply Hx1. }
  set (proc1 := mkProcess (pid proc) a (finished proc) (exitCode proc) (mainThread proc)) in *.
  assert (Hp1 : processes k1 !! pr = Some proc1) by (rewrite Hpr1; apply lookup_insert_eq).
  destruct (create_ok pr proc1 _ Hs1 Hid Hp1) as (p & Ep & Hpn & Hp0 & Hpp & Hpr & Hpj & Hs2). cbn [kernel threadIds processIds] in *. set (t := mkThread tid pr defaultFpuContext) in *.
  unfold mbind at 1, PM_bind at 1. rewrite Ep. cbn [mbind outcome_bind].
  destruct (retire_ok p t proc1 (-1) _ Hs2) as (k2 & k3 & k4 & b & E2 & E3 & E4 & Hs4 & (Hcur4 & Hth4 & Htq4 & Hl4) & Hpr4 & Hwb & Hcb & Hpl4 & _); cbn [kernel threadIds processIds with_kernel] in *.
  { apply lookup_insert_eq. } { done. } { done. } { done. } { done. } { cbn [pthreads proc1]. rewrite Ha. apply not_elem_of_nil. } { done. }
  { change (places (with_thread p t k1)) with (places k1). rewrite Hpl1, zlen_app in Hz. pose proof (zlen_nonneg ts). lia. }
  { cbn [pthreads proc1]. rewrite <- ArrayList.al_contents_length, Ha by done. done. }
  erewrite call_bind by exact E2. erewrite call_bind by exact E3. unfold call. cbn [kernel with_kernel threadIds processIds]. change (parent t) with pr in *. rewrite E4.
  eexists _, p. split; [reflexivity|]. cbn [kernel]. cbn [pthreads proc1] in Hcb. rewrite Ha in Hcb. split_and!; [done| | | | | | | ].
  - intros Hx. destruct (places_threads _ _ Hinv Hx) as [u Hu]. rewrite <- Hth1 in Hu. congruence.
  - intros x. rewrite Hpl4. change (places (with_thread p t k1)) with (places k1). rewrite elem_of_cons, Hpl1, elem_of_app.
    pose proof (inv_once _ Hinv) as Hn. rewrite Hpl1 in Hn. apply NoDup_app in Hn as (_ & Hn & _). naive_solver.
  - by etransitivity.
  - unfold ring. rewrite Htq4. exact Hr1.
  - etransitivity; [exact Hl4|]. unfold active. cbn. by rewrite Hl1.
  - exists b. split; [|done]. rewrite Hpr4. apply lookup_insert_eq.
  - intros q Hq. rewrite Hpr4, lookup_insert_ne by done. cbn. rewrite Hpr1. cbn. by rewrite lookup_insert_ne by done.
Qed.

Lemma kill_but_ok pr cur c l : forall k proc,
  inv k -> NoDup l -> threads k !! cur = Some c -> Forall (fun p => is_Some (threads k !! p) /\ (p <> cur -> killable pr k p)) l ->
  processes k !! pr = Some proc -> ArrayList.wf (pthreads proc) -> NoDup (ArrayList.contents (pthreads proc)) ->
  ArrayBlockingQueue.wf (threadQueue k) -> zlen (ring k) + zlen l <= ArrayBlockingQueue.capacity (threadQueue k) ->
  exists k' a, kill_but (id c) l k = Ok (tt, k') /\ kills (filter (fun x => x <> cur) l) pr proc a k k' /\ currentThread k' = currentThread k.
Proof.
  induction l as [|p l IH]; intros k proc Hinv Hnd Hc Hall Hp Hw Hn Hq Hroom.
  - by apply (kill_all_ok pr []).
  - apply NoDup_cons in Hnd as [Hpl Hnd]. apply Forall_cons in Hall as [[[t Ht] Hk] Hall]. rewrite zlen_cons in Hroom. pose proof (zlen_nonneg l).
    cbn [kill_but]. unfold deref_thread. run. rewrite Ht. run. destruct (decide (p = cur)) as [->|Hne].
    + rewrite Hc in Ht. injection Ht as <-. rewrite Z.eqb_refl. run. rewrite filter_cons_False by naive_solver. apply IH; try done. lia.
    + assert ((id t =? id c) = false) as ->. { apply Z.eqb_neq. intros E. apply Hne. by apply (inv_ids k Hinv _ _ _ _ Ht Hc). }
      destruct (kill_one p pr proc k Hinv (Hk Hne) Hp Hn Hq ltac:(lia)) as (k1 & a & E & Hks & Hc1 & Hrest). rewrite E. run.
      pose proof Hks as (G1 & _ & (G4 & _ & _) & G7 & G8 & G9 & (G10 & G11 & G12) & _). rewrite filter_cons_True by done.
      destruct (IH k1 (mkProcess (pid proc) a (finished proc) (exitCode proc) (mainThread proc))) as (k2 & b & E2 & Hks2 & Hc2); try done.
      * by rewrite G4.
      * rewrite Forall_forall in Hall |- *. intros x Hx. destruct (Hall x Hx) as [Hx1 Hx2]. split; [by rewrite G4|]. intros Hxc. apply Hrest; [auto|]. by intros ->.
      * rewrite G7. cbn. apply lookup_insert_eq.
      * cbn [pthreads]. rewrite G9. by apply NoDup_filter.
      * rewrite G11, G12, zlen_app. change (zlen [p]) with 1. lia.
      * exists k2, b. split; [done|]. split; [|congruence]. change (p :: filter (fun x => x <> cur) l) with ([p] ++ filter (fun x => x <> cur) l). by eapply kills_trans.
Qed.

Lemma killAllThreadsButCurrent_run pr proc c k : inv k -> threads k !! currentThread k = Some c -> processes k !! pr = Some proc -> ArrayList.wf (pthreads proc) ->
  killAllThreadsButCurrent pr k = kill_but (id c) (ArrayList.contents (pthreads proc)) k.
Proof.
  intros Hinv Hc Hp Hw. unfold killAllThreadsButCurrent, getCurrentThread. run. rewrite (inv_initialized k Hinv). run. unfold deref_thread. run. rewrite Hc. run.
  by rewrite (getThreads_ok k pr proc).
Qed.

(** [exit] ends and removes the current thread when another one is ready. *)
Lemma exit_ok clock fuel next r t proc s :
  sinv s -> threads (kernel s) !! currentThread (kernel s) = Some t -> processes (kernel s) !! parent t = Some proc ->
  ready_threads (kernel s) = next :: r -> zlen (ring (kernel s)) < ArrayBlockingQueue.capacity (threadQueue (kernel s)) ->
  exists k' a, exit clock (S fuel) (kernel s) = Ok (tt, k') /\ currentThread k' = next /\ kills [currentThread (kernel s)] (parent t) proc a (kernel s) k'.
Proof.
  intros Hs Ht Hp Hr Hroom. pose proof (si_kernel s Hs) as Hinv. destruct (exit_run clock (S fuel) (kernel s) Hinv) as (t' & proc' & a & k1 & Ht' & Hp' & Hw & Hl & Hc & E & He).
  rewrite Ht in Ht'. injection Ht' as <-. rewrite Hp in Hp'. injection Hp' as <-. pose proof He as (Hst & Hq & (L2 & L3 & L4) & (_ & Hcur & Hth & Htq & Hls & Hlk) & Hpr & Hj & (l & Hl1) & Hrun & Hpl).
  destruct (cleanup_ok (currentThread (kernel s)) k1) as (q & Eq & Hqw & Hqc & Hcap); [rewrite Htq; apply Hs|unfold ring; by rewrite Htq|].
  set (k2 := set_readyQueueLock unlocked (set_threadQueue q k1)).
  assert (Hne : currentThread (kernel s) <> next). { intros Hx. pose proof (inv_once _ Hinv) as Hn. apply NoDup_cons in Hn as [Hn _]. apply Hn. rewrite Hx, Hr. set_solver. }
  destruct (block_ready clock fuel k2 next (r ++ l)) as (k' & Eb & Hb1 & Hb2 & Hb3 & Hb4 & Hb5); [done|done|done|change (ready_threads k2) with (ready_threads k1); by rewrite Hl1, Hr|by rewrite <- Hcur in Hne|].
  destruct (exited_inv clock (S fuel) t proc a q (kernel s) k1 k' Hinv Ht Hp Hw Hl He Eb Hb1) as (Hinv' & Hpl' & Hth' & Hpr' & Hj').
  exists k', a. split; [rewrite E, bind_run, Eq; cbn [mbind outcome_bind]; rewrite bind_run, release_any; exact Eb|]. split; [done|]. unfold ring in *. rewrite Htq in *.
  unfold kills. split_and!; try done.
  - by rewrite Hb4, <- Hls.
  - by rewrite Hb5, <- Hlk.
  - rewrite Hc, list_remove_filter by (by apply (si_members s Hs _ _ Hp)). apply list_filter_iff. set_solver.
  - by rewrite Hb3.
  - unfold ring. rewrite Hb3. exact Hqc.
  - by rewrite Hb3.
  - intros i [x Hi]. rewrite Hj' in Hi. apply lookup_delete_Some in Hi as [_ Hi]. by eexists.
  - constructor; [eauto|constructor].
Qed.

Lemma filter_killed (cur : Z) (l : list Z) : NoDup l -> cur ∈ l -> filter (fun x => x ∉ filter (fun x => x <> cur) l) l = [cur].
Proof.
  intros Hn (l1 & l2 & ->)%list_elem_of_split. apply NoDup_app in Hn as (_ & Hd & Hn). apply NoDup_cons in Hn as [H2 _].
  assert (H1 : cur ∉ l1) by (intros H; apply (Hd cur H); set_solver). rewrite filter_app, filter_cons_True by (rewrite list_elem_of_filter; naive_solver).
  assert (Hz : forall l, (forall x, x ∈ l -> x ∈ l1 ++ cur :: l2 /\ x <> cur) -> filter (fun x => x ∉ filter (fun x => x <> cur) (l1 ++ cur :: l2)) l = []).
  { intros l Hl. apply elem_of_nil_inv. intros x [Hx Hxl]%list_elem_of_filter. apply Hx. apply list_elem_of_filter. destruct (Hl x Hxl). done. }
  rewrite !Hz; [done| |]; intros x Hx; (split; [set_solver|by intros ->]).
Qed.

(** The first steps of [exitCurrentProcess]: the cleaner thread [p] is created, the other threads of the process are killed. *)
Lemma spare_current t proc s :
  sinv s -> threads (kernel s) !! currentThread (kernel s) = Some t -> processes (kernel s) !! parent t = Some proc ->
  let cur := currentThread (kernel s) in let ts := ArrayList.contents (pthreads proc) in
  Forall (fun p => p <> cur -> p ∈ ready_threads (kernel s) ++ (thread <$> sleeping (kernel s))) ts ->
  zlen (ring (kernel s)) + zlen ts <= ArrayBlockingQueue.capacity (threadQueue (kernel s)) -> threadIds s < UINT32_MAX ->
  exists p a k2, let u := mkThread (threadIds s) (parent t) defaultFpuContext in let s1 := mkService (with_thread p u (kernel s)) (threadIds s + 1) (processIds s) in
    createKernelThread new defaultFpuContext (parent t) s = Ok (p, s1) /\ killAllThreadsButCurrent (parent t) (kernel s1) = Ok (tt, k2) /\ sinv (with_kernel k2 s1) /\
    threads (kernel s) !! p = None /\ p <> 0 /\ p ∉ places (kernel s) /\ p ∉ ring k2 /\ joining k2 !! threadIds s = None /\ threads k2 !! p = Some u /\ currentThread k2 = cur /\ threads k2 !! cur = Some t /\
    kills (filter (fun x => x <> cur) ts) (parent t) proc a (kernel s1) k2 /\ ArrayList.contents a = [cur].
Proof.
  intros Hs Ht Hp cur ts Hts Hroom Hid. pose proof (si_kernel s Hs) as Hinv. destruct (si_members s Hs _ _ Hp) as (Hw & Hnd & Hpar). fold ts in Hnd, Hpar.
  assert (Hcur : cur ∈ ts) by (eapply (si_home s Hs); [apply list_elem_of_here|done|done]).
  destruct s as [k tid pids]. cbn [kernel threadIds processIds] in *.
  destruct (create_ok (parent t) proc _ Hs Hid Hp) as (p & Ep & Hpn & Hp0 & Hpp & Hpr & Hpj & Hs1). cbn [kernel threadIds processIds] in *. set (u := mkThread tid (parent t) defaultFpuContext) in *. set (k1 := with_thread p u k) in *.
  assert (Hold : forall q, is_Some (threads k !! q) -> threads k1 !! q = threads k !! q) by (intros q [x Hx]; cbn; rewrite lookup_insert_ne; [done|intros ->; congruence]).
  assert (Hc1 : threads k1 !! cur = Some t) by (rewrite Hold; [done|by eexists]).
  destruct (kill_but_ok (parent t) cur t ts k1 proc (si_kernel _ Hs1) Hnd Hc1) as (k2 & a & E2 & Hk2 & Hcur2); [|done|done|done|apply Hs1|done|].
  { rewrite Forall_forall in Hts, Hpar |- *. intros x Hx. destruct (Hpar x Hx) as (v & Hv & Hvp). rewrite Hold by (by eexists). split; [by eexists|]. intros Hne. split; [by apply Hts|]. exists v. rewrite Hold by (by eexists). done. }
  exists p, a, k2. cbv zeta. fold u k1. assert (Hs2 := sinv_kills _ (parent t) proc a _ k2 Hs1 Hp Hk2). pose proof Hk2 as (_ & _ & (Hth2 & _ & _) & _ & _ & Hca & (_ & Hr2 & _) & Hj2 & Hpar2).
  split_and!; try done.
  - etransitivity; [exact (killAllThreadsButCurrent_run (parent t) proc t k1 (si_kernel _ Hs1) Hc1 Hp Hw)|exact E2].
  - rewrite Hr2. intros [Hx|Hx]%elem_of_app; [done|]. apply list_elem_of_filter in Hx as [_ Hx]. rewrite Forall_forall in Hpar. destruct (Hpar p Hx) as (v & Hv & _). congruence.
  - apply eq_None_not_Some. intros Hx. apply Hj2 in Hx as [x Hx]. cbn in Hx. change (id u) with tid in Hpj. congruence.
  - rewrite Hth2. apply lookup_insert_eq.
  - by rewrite Hth2.
  - rewrite Hca. by apply filter_killed.
Qed.

(** C9: When the other threads of the process are ready or asleep and all of its
    threads fit into the queue of the cleaner (16 entries),
    exitCurrentProcess ends the other threads and then the current one,
    hands all of them to the cleaner, switches to another thread, takes the
    process off the list with its exit code, leaves a fresh thread that
    frees its memory, changes no other process and keeps the invariant of
    the service. *)
Theorem exit_process clock fuel code t proc s :
  sinv s -> threads (kernel s) !! currentThread (kernel s) = Some t -> processes (kernel s) !! parent t = Some proc ->
  let cur := currentThread (kernel s) in let ts := ArrayList.contents (pthreads proc) in
  Forall (fun p => p <> cur -> p ∈ ready_threads (kernel s) ++ (thread <$> sleeping (kernel s))) ts ->
  zlen (ring (kernel s)) + zlen ts <= ArrayBlockingQueue.capacity (threadQueue (kernel s)) ->
  threadIds s < UINT32_MAX -> zlen (places (kernel s)) < 2 ^ 31 - 1 ->
  exists s' c, exitCurrentProcess clock new defaultFpuContext (S fuel) code s = Ok (tt, s') /\ sinv s' /\
    c ∉ places (kernel s) /\ (forall p, p ∈ places (kernel s') <-> p = c \/ p ∈ places (kernel s) /\ p ∉ ts) /\
    ring (kernel s') = ring (kernel s) ++ filter (fun x => x <> cur) ts ++ [cur] /\ active (kernel s') = filter (fun x => x <> parent t) (active (kernel s)) /\
    ended (parent t) proc code c (kernel s') /\ forall q, q <> parent t -> processes (kernel s') !! q = processes (kernel s) !! q.
Proof.
  intros Hs Ht Hp cur ts Hts Hroom Hid Hz. pose proof (si_kernel s Hs) as Hinv. destruct (si_members s Hs _ _ Hp) as (Hw & Hnd & Hpar). fold ts in Hnd, Hpar.
  assert (Hcur : cur ∈ ts) by (eapply (si_home s Hs); [apply list_elem_of_here|done|done]).
  destruct (spare_current t proc s Hs Ht Hp Hts Hroom Hid) as (p & a & k2 & Ep & E2 & Hs2 & Hpn & Hp0 & Hpp & Hpr & Hj2 & Htp & Hcur2 & Hc2 & Hk2 & Ha). cbv zeta in *. fold cur ts in Hk2, Hcur2, Hc2, Ha.
  unfold exitCurrentProcess. rewrite (call_bind _ _ s _ _ (getCurrentProcess_ok _ t Hinv Ht)). destruct s as [k tid pids]. unfold with_kernel in *. cbn [kernel threadIds processIds] in *. set (u := mkThread tid (parent t) defaultFpuContext) in *.
  unfold mbind at 1, PM_bind at 1. rewrite Ep. cbn [mbind outcome_bind]. set (k1 := with_thread p u k) in *. erewrite call_bind by exact E2. unfold with_kernel. cbn [kernel threadIds processIds].
  destruct Hk2 as (Hinv2 & Hpl2 & (Hth2 & Hl2 & _) & Hpr2 & Hwa & Hca & (_ & Hr2 & Hcap2) & _ & _).
  set (proc2 := mkProcess (pid proc) a (finished proc) (exitCode proc) (mainThread proc)) in *.
  assert (Hp2 : processes k2 !! parent u = Some proc2) by (rewrite Hpr2; apply lookup_insert_eq).
  assert (Hpc : p <> cur) by (intros Hx; rewrite Hx in Hpn; unfold cur in Hpn; congruence).
  destruct (retire_ok p u proc2 code _ Hs2) as (k3 & k4 & k5 & b & E3 & E4 & E5 & Hs5 & (Hcur5 & Hth5 & Htq5 & Hl5) & Hpr5 & Hwb & Hcb & Hpl5 & Hr5); cbn [kernel threadIds processIds with_kernel] in *.
  { done. } { done. } { done. } { intros Hx. apply Hpp. change (places k) with (places k1). rewrite Hpl2. set_solver. } { done. } { cbn [pthreads proc2]. rewrite Ha. set_solver. }
  { done. }
  { change (places k) with (places k1) in Hz. rewrite Hpl2, zlen_app in Hz. pose proof (zlen_nonneg (filter (fun x => x <> cur) ts)). lia. }
  { cbn [pthreads proc2]. rewrite <- ArrayList.al_contents_length, Ha by done. done. }
  erewrite call_bind by exact E3. erewrite call_bind by exact E4. erewrite call_bind by exact E5. unfold with_kernel. cbn [kernel threadIds processIds].
  change (parent u) with (parent t) in *. set (proc5 := mkProcess (pid proc) b true code (mainThread proc)).
  assert (Hfl : zlen (filter (fun x => x <> cur) ts) + 1 = zlen ts). { pose proof (filter_ne_perm cur ts Hnd Hcur) as Hfp. apply Permutation_length in Hfp. unfold zlen. cbn in Hfp. lia. }
  assert (Hc5 : currentThread k5 = cur) by (by rewrite Hcur5). assert (Hr : ring k5 = ring k ++ filter (fun x => x <> cur) ts) by (unfold ring; by rewrite Htq5).
  destruct (ready_threads k5) as [|next r] eqn:Hrq; [by destruct (ready_threads k2)|].
  destruct (exit_ok clock fuel next r t proc5 _ Hs5) as (k6 & d & E6 & _ & Hk6); cbn [kernel with_kernel threadIds processIds].
  { by rewrite Hc5, Hth5. } { rewrite Hpr5. apply lookup_insert_eq. } { done. } { rewrite Hr, Htq5, Hcap2, zlen_app. change (threadQueue k1) with (threadQueue k). lia. }
  assert (Hs6 := sinv_kills _ (parent t) proc5 d _ k6 Hs5 ltac:(cbn; rewrite Hpr5; apply lookup_insert_eq) Hk6). cbn [kernel with_kernel threadIds processIds] in *.
  unfold call. cbn [kernel]. rewrite E6. eexists _, p. split; [reflexivity|]. cbn [kernel]. rewrite Hc5 in Hk6. destruct Hk6 as (_ & Hpl6 & (_ & Hl6 & _) & Hpr6 & _ & Hc6 & (_ & Hr6 & _) & _ & _).
  split_and!; [done| | | | | |].
  - exact Hpp.
  - assert (Hall : p :: places k ≡ₚ ts ++ places k6).
    { change (places k) with (places k1). rewrite Hpl2, Permutation_middle, <- Hpl5, Hpl6, app_assoc. apply Permutation_app_tail. rewrite (filter_ne_perm cur ts Hnd Hcur) at 2. by rewrite (Permutation_app_comm _ [cur]). }
    assert (Hn : NoDup (p :: places k)) by (apply NoDup_cons; split; [done|apply Hinv]). rewrite Hall in Hn. apply NoDup_app in Hn as (_ & Hn & _).
    assert (Hel : forall x, x = p \/ x ∈ places k <-> x ∈ ts \/ x ∈ places k6) by (intros x; by rewrite <- elem_of_cons, Hall, elem_of_app).
    intros x. specialize (Hel x). specialize (Hn x). assert (p ∉ ts). { intros Hx. rewrite Forall_forall in Hpar. destruct (Hpar p Hx) as (v & Hv & _). congruence. } naive_solver.
  - by rewrite Hr6, Hr, <- app_assoc.
  - unfold active at 1. rewrite Hl6. etransitivity; [exact Hl5|]. unfold active. by rewrite Hl2.
  - exists d. rewrite Hpr6. split; [apply lookup_insert_eq|]. rewrite Hc6. cbn [pthreads proc5]. rewrite Hcb. cbn [pthreads proc2]. rewrite Ha. cbn [app].
    rewrite filter_cons_False by set_solver. rewrite filter_cons_True by set_solver. done.
  - intros q Hq. rewrite Hpr6. cbn. rewrite lookup_insert_ne by done. rewrite Hpr5, lookup_insert_ne by done. rewrite Hpr2. cbn. by rewrite lookup_insert_ne by done.
Qed.
End create.

(** ** Searching and deleting threads *)

Lemma find_thread_ok tbl p t l :
  (forall x y u v, tbl !! x = Some u -> tbl !! y = Some v -> id u = id v -> x = y) -> Forall (fun x => is_Some (tbl !! x)) l -> tbl !! p = Some t ->
  find_thread tbl (id t) l = Ok (if decide (p ∈ l) then p else 0).
Proof.
  intros Hu Hf Ht. induction Hf as [|q l [u Hq] _ IH]; [done|]. cbn [find_thread]. rewrite Hq. cbn [of_option mbind outcome_bind]. destruct (Z.eqb_spec (id u) (id t)) as [E|E].
  - rewrite (Hu _ _ _ _ Hq Ht E). by rewrite decide_True by set_solver.
  - rewrite IH. assert (p <> q) by congruence. repeat case_decide; set_solver.
Qed.

(** The threads that are ready or asleep *)
Definition queued (k : Kernel) : list Z := ready_threads k ++ (thread <$> sleeping k).

(** What the cleaner relies on: the threads that are ready or asleep exist, with their processes, and so do those
    in its queue, which may be ready or asleep still. *)
Record cleanable (k : Kernel) : Prop := {
  cl_quiet : quiet k;
  cl_lock : readyQueueLock k = unlocked;
  cl_initialized : initialized k = true;
  cl_size : zlen (ready_threads k) + zlen (sleeping k) < 2 ^ 31 - 1;
  cl_queued : Forall (fun p => p <> 0 /\ runnable k p) (queued k);
  cl_ring : ArrayBlockingQueue.wf (threadQueue k) /\ NoDup (ring k) /\ Forall (fun p => is_Some (threads k !! p)) (ring k)
}.

(** [getThread] knows the threads that are ready or asleep. *)
Lemma getThread_spec p t k :
  quiet k -> readyQueueLock k = unlocked -> Forall (fun p => p <> 0 /\ runnable k p) (queued k) -> threads k !! p = Some t ->
  getThread (id t) k = Ok (if decide (p ∈ queued k) then p else 0, k).
Proof.
  intros (_ & _ & Hids & _ & _ & L2) L1 Hf Ht.
  assert (He : Forall (fun x => is_Some (threads k !! x)) (queued k)) by (eapply Forall_impl; [exact Hf|]; intros x (_ & u & Hx & _); by exists u).
  assert (H0 : 0 ∉ queued k) by (intros H; rewrite Forall_forall in Hf; by destruct (Hf 0 H)).
  unfold queued in *. apply Forall_app in He as [He1 He2].
  unfold getThread. run. rewrite acquire_free by done. run. change (ArrayListBlockingQueue.contents (readyQueue k)) with (ready_threads k). rewrite (find_thread_ok _ p t) by done. run. rewrite release_any. run.
  assert (Hk : set_readyQueueLock unlocked (set_readyQueueLock locked k) = k) by (destruct k; cbn in *; by subst).
  destruct (decide (p ∈ ready_threads k)) as [Hp|Hp].
  - rewrite decide_True by set_solver. destruct (Z.eqb_spec p 0) as [->|_]; [set_solver|]. run. by rewrite Hk.
  - change (0 =? 0) with true. run. rewrite Hk. rewrite acquire_free by done. run. change (ArrayList.contents (sleepList k)) with (sleeping k). rewrite (find_thread_ok _ p t) by done. run. rewrite release_any. run.
    assert (Hk2 : set_sleepQueueLock unlocked (set_sleepQueueLock locked k) = k) by (destruct k; cbn in *; by subst). rewrite Hk2.
    do 2 f_equal. repeat case_decide; set_solver.
Qed.

Lemma inv_queued k : inv k -> Forall (fun p => p <> 0 /\ runnable k p) (queued k).
Proof.
  intros Hinv. apply Forall_forall. intros p Hp. assert (Hpl : p ∈ places k) by (unfold places, blocked, queued in *; set_solver).
  split; [|by apply inv_runnable]. pose proof (inv_alive k Hinv) as H. rewrite Forall_forall in H. by destruct (H p Hpl).
Qed.

Lemma getThread_ok p t k : inv k -> threads k !! p = Some t -> p ∉ queued k -> getThread (id t) k = Ok (0, k).
Proof.
  intros Hinv Ht Hp. destruct (inv_quiet k Hinv) as (Hq & _). destruct (inv_locks k Hinv) as (L1 & _).
  rewrite (getThread_spec p t) by (done || by apply inv_queued). by rewrite decide_False.
Qed.

(** The system call that joins a thread misses a thread that itself waits in [join]: it returns at once. *)
Theorem join_misses_joining clock fuel p t k :
  inv k -> threads k !! p = Some t -> p ∈ joiners (joining k) -> joinThread clock fuel (id t) k = Ok (true, k).
Proof.
  intros Hinv Ht Hp. unfold joinThread. run. rewrite (getThread_ok p t k Hinv Ht); [done|].
  pose proof (inv_once k Hinv) as Hn. unfold places, blocked in Hn. apply NoDup_cons in Hn as [_ Hn]. rewrite app_assoc in Hn. apply NoDup_app in Hn as (_ & Hd & _). intros Hx. by apply (Hd p).
Qed.

(** Deleting the object of a terminated thread *)
Lemma sinv_delete p q s :
  sinv s -> ArrayBlockingQueue.wf q -> ring (kernel s) = p :: ArrayBlockingQueue.contents q ->
  sinv (with_kernel (set_threads (delete p (threads (kernel s))) (set_threadQueue q (kernel s))) s).
Proof.
  intros [H1 H2 Hc H3 H4 H5 H6 H7 H8 H9 H10 H11 [H12 H13]] Hq Hr. rewrite Hr in H12, H13. apply NoDup_cons in H12 as [Hpr H12]. apply Forall_cons in H13 as [(D1 & D2 & D3) H13].
  assert (Hold : forall x, x <> p -> threads (kernel s) !! x = delete p (threads (kernel s)) !! x) by (intros; by rewrite lookup_delete_ne).
  split; cbn [kernel with_kernel threadIds processIds]; try done.
  - pose proof H1 as [I1 I2 I3 I4 I5 I6 I7]. split; try done.
    + rewrite Forall_forall in I5 |- *. intros x Hx. apply (alive_mono (kernel s)); [|by eauto|done|by apply I5]. cbn. intros u Hu. rewrite <- Hold; [done|]. by intros ->.
    + intros x y u v Hu Hv. cbn in Hu, Hv. apply lookup_delete_Some in Hu as [_ Hu]. apply lookup_delete_Some in Hv as [_ Hv]. by eapply I6.
  - by apply map_Forall_delete.
  - intros pr proc Hp. destruct (H5 _ _ Hp) as (M1 & M2 & M3). split_and!; [done|done|]. rewrite Forall_forall in M3 |- *. intros x Hx. destruct (M3 x Hx) as (u & Hu & Hpar). exists u. split; [|done]. cbn. rewrite <- Hold; [done|]. intros ->. by apply (D3 _ _ Hp).
  - intros x u proc Hx Hu Hp. cbn in Hu. apply lookup_delete_Some in Hu as [_ Hu]. by eapply H6.
  - split; [done|]. change (ring _) with (ArrayBlockingQueue.contents q). rewrite Forall_forall in H13 |- *. intros x Hx. destruct (H13 x Hx) as (E1 & E2 & E3). split_and!; [|done|done]. cbn. rewrite <- Hold; [done|]. by intros ->.
Qed.

Lemma cleanupThreads_loop_ok clock l : forall s fuel,
  sinv s -> ring (kernel s) = l -> (length l <= fuel)%nat ->
  exists k', cleanupThreads_loop clock fuel (kernel s) = Ok (true, k') /\ sinv (with_kernel k' s) /\ ring k' = [] /\
    (forall p, threads k' !! p = if decide (p ∈ l) then None else threads (kernel s) !! p) /\ places k' = places (kernel s) /\ processes k' = processes (kernel s) /\ active k' = active (kernel s).
Proof.
  induction l as [|p l IH]; intros s fuel Hs Hr Hf; pose proof (si_queue s Hs) as Hq; pose proof (ArrayBlockingQueue.ring_contents_length _ Hq) as Hl; fold (ring (kernel s)) in Hl; rewrite Hr in Hl.
  - exists (kernel s). split; [|split_and!; done || by destruct s]. destruct fuel; cbn [cleanupThreads_loop]; run; unfold ArrayBlockingQueue.size; by rewrite <- Hl.
  - destruct fuel as [|fuel]; [cbn in Hf; lia|]. cbn [cleanupThreads_loop]. run. unfold ArrayBlockingQueue.size. rewrite <- Hl, zlen_cons. pose proof (zlen_nonneg l). destruct (Z.gtb_spec (zlen l + 1) 0); [|lia]. run.
    destruct (ArrayBlockingQueue.ring_poll_spec p l (threadQueue (kernel s)) Hq Hr) as (q & -> & Hwq & Hcq & _). run.
    pose proof (si_dead s Hs) as [_ Hd]. rewrite Hr in Hd. apply Forall_cons in Hd as [([t Ht] & Hpl & _) _].
    unfold deref_thread. run. rewrite Ht. run. rewrite (getThread_ok p t (set_threadQueue q (kernel s))).
    + run. change (0 =? 0) with true. run. unfold delete_thread. run. set (k1 := set_threads _ _).
      assert (Hs1 : sinv (with_kernel k1 s)) by (apply sinv_delete; [done|done|by rewrite Hcq]).
      destruct (IH (with_kernel k1 s) fuel Hs1) as (k' & E & Hs' & Hr' & Ht' & Hpl' & Hpr' & Ha'); [done|cbn in Hf; lia|]. exists k'. split_and!; try done.
      intros x. rewrite Ht'. cbn. rewrite lookup_delete. repeat case_decide; set_solver.
    + destruct (si_kernel s Hs) as [I1 I2 I3 I4 I5 I6 I7]. by split.
    + done.
    + intros Hx. apply Hpl. unfold places, blocked. change (ready_threads (set_threadQueue q (kernel s))) with (ready_threads (kernel s)) in Hx. change (sleeping (set_threadQueue q (kernel s))) with (sleeping (kernel s)) in Hx. set_solver.
Qed.

Lemma cleanupThreads_ok clock s :
  sinv s ->
  exists k', cleanupThreads clock (kernel s) = Ok (true, k') /\ sinv (with_kernel k' s) /\ ring k' = [] /\
    (forall p, threads k' !! p = if decide (p ∈ ring (kernel s)) then None else threads (kernel s) !! p) /\ places k' = places (kernel s) /\ processes k' = processes (kernel s) /\ active k' = active (kernel s).
Proof.
  intros Hs. pose proof (ArrayBlockingQueue.ring_contents_length _ (si_queue s Hs)) as Hl. unfold cleanupThreads. run. apply cleanupThreads_loop_ok; [done|done|]. unfold ArrayBlockingQueue.size, ring, zlen in *. lia.
Qed.

(** The kernel after the cleaner has deleted the threads [gone]. *)
Definition deleted (gone : list Z) (k k' : Kernel) : Prop :=
  (forall x, threads k' !! x = if decide (x ∈ gone) then None else threads k !! x) /\
  currentThread k' = currentThread k /\ ready_threads k' = ready_threads k /\ sleeping k' = sleeping k /\ joining k' = joining k /\
  processes k' = processes k /\ queries k' = queries k.

Lemma cleanable_delete p q k :
  cleanable k -> p ∉ queued k -> ring k = p :: ArrayBlockingQueue.contents q -> ArrayBlockingQueue.wf q ->
  cleanable (set_threads (delete p (threads k)) (set_threadQueue q k)).
Proof.
  intros [(Q1 & Q2 & Q3 & (Q4 & Q5) & Q6 & Q7) H2 H3 H4 H5 (R1 & R2 & R3)] Hp Hr Hq. rewrite Hr in R2, R3. apply NoDup_cons in R2 as [Hpr R2]. apply Forall_cons in R3 as [_ R3].
  assert (Hold : forall x, x <> p -> delete p (threads k) !! x = threads k !! x) by (intros; by rewrite lookup_delete_ne).
  split; try done.
  - split_and!; try done.
    + intros x y u v Hu Hv. cbn in Hu, Hv. apply lookup_delete_Some in Hu as [_ Hu]. apply lookup_delete_Some in Hv as [_ Hv]. by eapply Q3.
    + split; [done|]. rewrite Forall_forall in Q5 |- *. intros e He. cbn. rewrite Hold; [by apply Q5|]. intros E. apply Hp. unfold queued. apply elem_of_app. right. rewrite <- E. by apply list_elem_of_fmap_2.
  - rewrite Forall_forall in H5 |- *. intros x Hx. destruct (H5 x Hx) as (E0 & t & Ht & Hpar). split; [done|]. exists t. split; [|done]. cbn. rewrite Hold; [done|]. by intros ->.
  - split_and!; [done|done|]. change (ring _) with (ArrayBlockingQueue.contents q). rewrite Forall_forall in R3 |- *. intros x Hx. cbn. rewrite Hold; [by apply R3|]. by intros ->.
Qed.

Lemma cleanable_queue q k :
  cleanable k -> ArrayBlockingQueue.wf q -> NoDup (ArrayBlockingQueue.contents q) -> Forall (fun p => is_Some (threads k !! p)) (ArrayBlockingQueue.contents q) -> cleanable (set_threadQueue q k).
Proof. intros [K1 K2 K3 K4 K5 K6] Hq Hn Hf. by split. Qed.

(** One round: a thread that is ready or asleep goes to the end of the queue, any other one is deleted. *)
Lemma cleanup_round clock fuel p l k :
  cleanable k -> ring k = p :: l ->
  if decide (p ∈ queued k) then
    exists q, ArrayBlockingQueue.wf q /\ ArrayBlockingQueue.contents q = l ++ [p] /\ cleanupThreads_loop clock (S fuel) k = (yield clock;; mret false) (set_threadQueue q k)
  else
    exists q, ArrayBlockingQueue.wf q /\ ArrayBlockingQueue.contents q = l /\
      cleanupThreads_loop clock (S fuel) k = cleanupThreads_loop clock fuel (set_threads (delete p (threads k)) (set_threadQueue q k)).
Proof.
  intros [Hquiet Hlock Hi Hz Hf (Hq & _ & Hex)] Hr. pose proof (ArrayBlockingQueue.ring_contents_length _ Hq) as Hl. fold (ring k) in Hl. rewrite Hr in Hl, Hex. apply Forall_cons in Hex as [[t Ht] _].
  destruct (ArrayBlockingQueue.ring_poll_spec p l (threadQueue k) Hq Hr) as (q & Ep & Hwq & Hcq & Hcap).
  cbn [cleanupThreads_loop]. run. unfold ArrayBlockingQueue.size. rewrite <- Hl, zlen_cons. pose proof (zlen_nonneg l). destruct (Z.gtb_spec (zlen l + 1) 0); [|lia]. run. rewrite Ep. run.
  unfold deref_thread. run. rewrite Ht. run. rewrite (getThread_spec p t (set_threadQueue q k)) by done. run. change (queued (set_threadQueue q k)) with (queued k).
  destruct (decide (p ∈ queued k)) as [Hp|Hp].
  - assert (p <> 0) by (rewrite Forall_forall in Hf; by apply Hf). rewrite (proj2 (Z.eqb_neq p 0)) by done. run.
    destruct (ArrayBlockingQueue.ring_offer_spec p q Hwq) as (q' & E & ? & Hc & _).
    { pose proof (ArrayBlockingQueue.ring_contents_length _ Hwq) as Hl2. rewrite Hcq in Hl2. rewrite zlen_cons in Hl. destruct Hq as (_ & _ & _ & Hn & _). lia. }
    unfold ArrayBlockingQueue.add. rewrite E. run. exists q'. by rewrite Hc, Hcq.
  - change (0 =? 0) with true. run. unfold delete_thread. run. by exists q.
Qed.

Lemma cleanupThreads_loop_spec clock gone : forall rest k fuel,
  cleanable k -> ring k = gone ++ rest -> Forall (fun p => p ∉ queued k) gone -> (length (gone ++ rest) <= fuel)%nat ->
  exists k1, cleanable k1 /\ deleted gone k k1 /\
  match rest with
  | [] => cleanupThreads_loop clock fuel k = Ok (true, k1) /\ ring k1 = []
  | p :: rest => p ∈ queued k -> cleanupThreads_loop clock fuel k = (yield clock;; mret false) k1 /\ ring k1 = rest ++ [p]
  end.
Proof.
  induction gone as [|p gone IH]; intros rest k fuel Hk Hr Hg Hf.
  - destruct rest as [|p rest].
    + exists k. split_and!; try done. destruct (cl_ring k Hk) as (Hq & _ & _). pose proof (ArrayBlockingQueue.ring_contents_length _ Hq) as Hl. fold (ring k) in Hl. rewrite Hr in Hl.
      destruct fuel; cbn [cleanupThreads_loop]; run; unfold ArrayBlockingQueue.size; by rewrite <- Hl.
    + destruct fuel as [|fuel]; [cbn in Hf; lia|]. pose proof (cleanup_round clock fuel p rest k Hk Hr) as H. destruct (decide (p ∈ queued k)) as [Hp|Hp]; [|by exists k].
      destruct H as (q & Hq & Hc & E). exists (set_threadQueue q k). split; [|by split].
      destruct (cl_ring k Hk) as (_ & K7 & K8). rewrite Hr in K7, K8. assert (Hperm : ArrayBlockingQueue.contents q ≡ₚ p :: rest) by (by rewrite Hc, Permutation_app_comm).
      by apply cleanable_queue; rewrite ?Hperm.
  - destruct fuel as [|fuel]; [cbn in Hf; lia|]. apply Forall_cons in Hg as [Hp Hg]. pose proof (cleanup_round clock fuel p (gone ++ rest) k Hk Hr) as H. rewrite decide_False in H by done.
    destruct H as (q & Hq & Hc & ->). set (k1 := set_threads _ _).
    destruct (IH rest k1 fuel) as (k2 & Hk2 & (D1 & D2) & H); [apply cleanable_delete; try done; by rewrite Hc|done|done|cbn in Hf; lia|].
    exists k2. split_and!; [done| |exact H]. split; [|exact D2]. intros x. rewrite D1. cbn. rewrite lookup_delete. repeat case_decide; set_solver.
Qed.

(** The running thread is not in the queue of the cleaner in these states, and a thread that is waits for nothing. *)
Lemma sinv_cleanable s : sinv s -> cleanable (kernel s).
Proof.
  intros Hs. pose proof (si_kernel s Hs) as Hinv. destruct (inv_quiet _ Hinv) as (Hq & Hz & _). destruct (inv_locks _ Hinv) as (L & _). destruct (si_dead s Hs) as [Hn Hd].
  split; [done|done|apply Hinv|done|by apply inv_queued|split_and!; [apply Hs|done|]]. eapply Forall_impl; [exact Hd|]. by intros x (? & _).
Qed.

(** C16: When the threads in its queue and those that are ready or asleep exist,
    cleanupThreads deletes the threads of its queue up to the first one that
    getThread still finds, that is, that is ready or asleep; this one it
    puts at the end of its queue and calls yield. If none is ready or
    asleep, it deletes all and returns with an empty queue. No other thread
    is deleted, and nothing is moved between the queues of the scheduler
    before the call of yield. *)
Theorem cleanup_deletes clock gone rest k :
  cleanable k -> ring k = gone ++ rest -> Forall (fun p => p ∉ queued k) gone ->
  exists k1, cleanable k1 /\ deleted gone k k1 /\
  match rest with
  | [] => cleanupThreads clock k = Ok (true, k1) /\ ring k1 = []
  | p :: rest =>
    p ∈ queued k ->
    ring k1 = rest ++ [p] /\ cleanupThreads clock k = (yield clock;; mret false) k1 /\
    (p ∈ ready_threads k -> exists k', cleanupThreads clock k = Ok (false, k') /\ threads k' = threads k1 /\ ring k' = ring k1)
  end.
Proof.
  intros Hk Hr Hg. destruct (cl_ring k Hk) as (Hq & _ & _). pose proof (ArrayBlockingQueue.ring_contents_length _ Hq) as Hl. fold (ring k) in Hl.
  destruct (cleanupThreads_loop_spec clock gone rest k (Z.to_nat (ArrayBlockingQueue.size (threadQueue k))) Hk Hr Hg) as (k1 & Hk1 & Hd & H); [rewrite <- Hr; unfold ArrayBlockingQueue.size, zlen in *; lia|].
  assert (E : cleanupThreads clock k = cleanupThreads_loop clock (Z.to_nat (ArrayBlockingQueue.size (threadQueue k))) k) by done. rewrite E.
  exists k1. split_and!; [done|done|]. destruct rest as [|p rest]; [done|]. intros Hp. destruct (H Hp) as [-> Hring]. split_and!; [done|done|]. intros Hp'.
  pose proof (yield_spec clock k1 (cl_quiet k1 Hk1) (cl_lock k1 Hk1) (cl_initialized k1 Hk1) (cl_size k1 Hk1)) as Hy. destruct Hd as (_ & _ & Hrt & _).
  destruct (wake _ _) as [w s]. rewrite Hrt in Hy. destruct (ready_threads k) as [|next r] eqn:Er; [by apply elem_of_nil in Hp'|]. cbn [app] in Hy.
  destruct Hy as (q & l & Ey & _).
  { pose proof (cl_queued k1 Hk1) as Hf. rewrite Forall_forall in Hf. apply Hf. unfold queued. rewrite Hrt. set_solver. }
  cbv zeta in Ey. run. rewrite Ey. run. eexists. by split_and!.
Qed.

(** ** Starting programs *)

Lemma find_process_ok tbl i pr proc l :
  (forall p q x y, tbl !! p = Some x -> tbl !! q = Some y -> pid x = pid y -> p = q) -> Forall (fun p => is_Some (tbl !! p)) l -> tbl !! pr = Some proc -> pid proc = i ->
  find_process tbl i l = Ok (if decide (pr ∈ l) then pr else 0).
Proof.
  intros Hu Hf Hp Hi. induction Hf as [|q l [x Hx] _ IH]; [done|]. cbn [find_process]. rewrite Hx. cbn [of_option mbind outcome_bind]. destruct (Z.eqb_spec (pid x) i) as [E|E].
  - rewrite (Hu _ _ _ _ Hx Hp) by congruence. by rewrite decide_True by set_solver.
  - rewrite IH. assert (q <> pr) by (intros ->; congruence). repeat case_decide; set_solver.
Qed.

(** [getProcess] finds the active processes. *)
Lemma getProcess_ok pr proc s : sinv s -> processes (kernel s) !! pr = Some proc -> getProcess (pid proc) (kernel s) = Ok (if decide (pr ∈ active (kernel s)) then pr else 0, kernel s).
Proof.
  intros Hs Hp. destruct (si_list s Hs) as (Hw & _ & Hf). unfold getProcess. run. rewrite ArrayList.toArray_spec by done. run.
  rewrite (find_process_ok _ _ pr proc); [done|apply Hs|done|done|done].
Qed.

Section load.
Context (new : gset Z -> Z) (defaultFpuContext : Z) (new_fresh : forall X, new X ∉ X /\ new X <> 0).

(** A new process with an id of its own and no threads *)
Definition new_process (i : Z) : Process := mkProcess i ArrayList_empty false (-1) 0.

Lemma createProcess_ok s :
  sinv s -> processIds s < UINT32_MAX -> zlen (active (kernel s)) < 2 ^ 31 - 1 ->
  exists pr k', createProcess new s = Ok (pr, mkService k' (threadIds s) (processIds s + 1)) /\ processes (kernel s) !! pr = None /\ pr <> 0 /\
    processes k' = <[pr := new_process (processIds s)]> (processes (kernel s)) /\ threads k' = threads (kernel s) /\ places k' = places (kernel s) /\ ready_threads k' = ready_threads (kernel s) /\ ring k' = ring (kernel s) /\ joining k' = joining (kernel s) /\ currentThread k' = currentThread (kernel s) /\
    active k' = active (kernel s) ++ [pr] /\ sinv (mkService k' (threadIds s) (processIds s + 1)).
Proof.
  intros [H1 H2 [Hc Hc'] H3 H4 H5 H6 (W1 & W2 & W3) H8 H9 H10 H11 [H12 H13]] Hid Hlen. unfold UINT32_MAX in Hid. exists (new (dom (processes (kernel s)))).
  destruct (new_fresh (dom (processes (kernel s)))) as [Hn H0]. set (pr := new _) in *. apply not_elem_of_dom in Hn.
  destruct (ArrayList.add_spec 0 pr (processList (kernel s)) W1 H11) as (l & E & Hw & Hl). fold (active (kernel s)) in Hl. set (k0 := set_processes (<[pr := new_process (processIds s)]> (processes (kernel s))) (kernel s)).
  exists (set_processLock unlocked (set_processList l k0)).
  assert (Hold : forall q x, processes k0 !! q = Some x -> q = pr /\ x = new_process (processIds s) \/ q <> pr /\ processes (kernel s) !! q = Some x) by (intros q x; unfold k0; cbn; intros [[<- <-]|[? ?]]%lookup_insert_Some; auto).
  assert (Hi : inv k0). { destruct H1 as [I1 I2 I3 I4 I5 I6 I7]. split; try done. eapply Forall_impl; [exact I5|]. intros q. apply alive_mono; [done| |done]. intros q' x Hx ? ?. cbn. rewrite lookup_insert_ne by (intros ->; congruence). eauto. }
  split_and!; try done.
  - unfold createProcess, Process_new, mbind at 1, PM_bind at 1. fold pr. unfold Atomic.next, fetchAndInc, fetchAndAdd. rewrite conv_id by (unfold in_type, in_u; cbn; lia). cbn [mbind outcome_bind].
    erewrite call_bind; [reflexivity|]. cbn [kernel]. unfold add_process. run. rewrite acquire_free by done. run. rewrite E. run. by rewrite release_any.
  - split; cbn [kernel threadIds processIds]; try done; [destruct Hi as [I1 I2 I3 I4 I5 I6 I7]; by split|lia| | | | | | | ].
    + intros q x [[-> ->]|[_ Hx]]%Hold; [|by apply (H5 _ _ Hx)]. split_and!; [apply wf_empty|apply NoDup_nil_2|constructor].
    + intros p t x Hpl Ht [[Hq _]|[_ Hx]]%Hold; [|by eapply H6]. destruct (inv_runnable _ p H1 Hpl) as (t' & Ht' & [y Hy]). cbn in Ht. rewrite Ht in Ht'. injection Ht' as <-. congruence.
    + unfold active. cbn. rewrite Hl. split_and!; [done| |].
      * apply NoDup_app. split_and!; [done| |by apply NoDup_singleton]. intros x Hx ->%list_elem_of_singleton. rewrite Forall_forall in W3. destruct (W3 _ Hx). congruence.
      * apply Forall_app. split; [|constructor; [by rewrite lookup_insert_eq|constructor]]. eapply Forall_impl; [exact W3|]. intros q Hq. rewrite lookup_insert_is_Some'. by right.
    + intros q x [[-> ->]|[_ Hx]]%Hold; [cbn; lia|]. specialize (H8 _ _ Hx). cbn in H8. lia.
    + intros p q x y [[-> ->]|[_ Hx]]%Hold [[-> ->]|[_ Hy]]%Hold; [done| | |by apply H9]; cbn [pid new_process]; intros Ep; [specialize (H8 _ _ Hy)|specialize (H8 _ _ Hx)]; cbn in H8; lia.
    + cbn. rewrite <- ArrayList.al_contents_length, Hl, zlen_app by done. change (zlen [pr]) with 1. lia.
    + split; [done|]. eapply Forall_impl; [exact H13|]. intros x (D1 & D2 & D3). split_and!; [done|done|]. intros q y [[_ ->]|[_ Hy]]%Hold; [apply not_elem_of_nil|by apply (D3 _ _ Hy)].
Qed.

(** The effect of [loadBinary] *)
Lemma loadBinary_ok s :
  sinv s -> processIds s < UINT32_MAX -> threadIds s < UINT32_MAX -> zlen (active (kernel s)) < 2 ^ 31 - 1 -> zlen (places (kernel s)) < 2 ^ 31 - 1 ->
  exists pr c s', loadBinary new defaultFpuContext s = Ok (pr, s') /\ sinv s' /\ processes (kernel s) !! pr = None /\
    active (kernel s') = active (kernel s) ++ [pr] /\
    c ∉ places (kernel s) /\ ready_threads (kernel s') = ready_threads (kernel s) ++ [c] /\ places (kernel s') ≡ₚ c :: places (kernel s) /\
    (exists a, processes (kernel s') !! pr = Some (mkProcess (processIds s) a false (-1) 0) /\ ArrayList.contents a = [c]) /\
    forall q, q <> pr -> processes (kernel s') !! q = processes (kernel s) !! q.
Proof.
  intros Hs Hpid Htid Hl Hz. destruct (createProcess_ok s Hs Hpid Hl) as (pr & k1 & E1 & Hn & H0 & Hpr1 & Hth1 & Hpl1 & Hr1 & Hq1 & Hj1 & Hc1 & Ha1 & Hs1).
  unfold loadBinary, mbind at 1, PM_bind at 1. rewrite E1. cbn [mbind outcome_bind].
  assert (Hp1 : processes k1 !! pr = Some (new_process (processIds s))) by (rewrite Hpr1; apply lookup_insert_eq).
  destruct (create_ok new defaultFpuContext new_fresh pr _ _ Hs1 Htid Hp1) as (c & E2 & Hcn & Hc0 & Hcp & Hcr & Hcj & Hs2). cbn [kernel threadIds processIds] in *. set (t := mkThread (threadIds s) pr defaultFpuContext) in *.
  unfold mbind at 1, PM_bind at 1. rewrite E2. cbn [mbind outcome_bind].
  destruct (sinv_ready c t (new_process (processIds s)) _ Hs2) as (k3 & a & E3 & Hr & Hs3); cbn [kernel threadIds processIds] in *.
  { apply lookup_insert_eq. } { done. } { done. } { done. } { done. } { apply not_elem_of_nil. } { done. } { change (places (with_thread c t k1)) with (places k1). by rewrite Hpl1. } { done. }
  erewrite call_bind by exact E3. exists pr, c. eexists. split; [reflexivity|]. destruct Hr as ((Hcur & Hth & Htq & Hls & _ & _) & Hpr & Hw & Hca & _ & Hpl & Hrt). unfold with_kernel in *. cbn [kernel threadIds processIds] in *. change (parent t) with pr in *.
  assert (Hp3 : processes k3 !! pr = Some (mkProcess (processIds s) a false (-1) 0)) by (rewrite Hpr; apply lookup_insert_eq).
  assert (Hact : active k3 = active (kernel s) ++ [pr]) by (unfold active; rewrite Hls; exact Ha1).
  split_and!; try done.
  - change (places (with_thread c t k1)) with (places k1) in Hcp. by rewrite Hpl1 in Hcp.
  - rewrite Hrt. by rewrite <- Hr1.
  - rewrite Hpl. by rewrite <- Hpl1.
  - exists a. split; [done|]. by rewrite Hca.
  - intros q Hq. rewrite Hpr. cbn. rewrite lookup_insert_ne by done. by rewrite Hpr1, lookup_insert_ne by done.
Qed.

(** C15: loadBinary adds a process with a fresh id to the list, which getProcess
    then finds, with one fresh thread at the end of the ready queue; nothing
    else changes and the invariant of the service holds. *)
Theorem load_binary s :
  sinv s -> processIds s < UINT32_MAX -> threadIds s < UINT32_MAX -> zlen (active (kernel s)) < 2 ^ 31 - 1 -> zlen (places (kernel s)) < 2 ^ 31 - 1 ->
  exists pr c s', loadBinary new defaultFpuContext s = Ok (pr, s') /\ sinv s' /\ pr ∉ active (kernel s) /\
    active (kernel s') = active (kernel s) ++ [pr] /\ getProcess (processIds s) (kernel s') = Ok (pr, kernel s') /\
    c ∉ places (kernel s) /\ ready_threads (kernel s') = ready_threads (kernel s) ++ [c] /\ places (kernel s') ≡ₚ c :: places (kernel s) /\
    (exists a, processes (kernel s') !! pr = Some (mkProcess (processIds s) a false (-1) 0) /\ ArrayList.contents a = [c]) /\
    forall q, q <> pr -> processes (kernel s') !! q = processes (kernel s) !! q.
Proof.
  intros Hs Hpid Htid Hl Hz. destruct (loadBinary_ok s Hs Hpid Htid Hl Hz) as (pr & c & s' & E & Hs' & Hn & Ha & Hc & Hr & Hp & (a & Hpr & Hca) & Ho). exists pr, c, s'. split_and!; try done.
  - intros Hx. destruct (si_list s Hs) as (_ & _ & Hf). rewrite Forall_forall in Hf. destruct (Hf pr Hx). congruence.
  - pose proof (getProcess_ok pr _ s' Hs' Hpr) as Hg. cbn [pid] in Hg. by rewrite Ha, decide_True in Hg by set_solver.
  - eauto.
Qed.
End load.

(** C39: After the cleaner has deleted the main thread of a process that is
    still on the list, joining the process uses the deleted thread. *)
Theorem join_deleted_main_thread clock fuel pr proc s :
  sinv s -> processes (kernel s) !! pr = Some proc -> pr <> 0 -> pr ∈ active (kernel s) -> mainThread proc <> 0 -> mainThread proc ∈ ring (kernel s) ->
  exists k', cleanupThreads clock (kernel s) = Ok (true, k') /\ joinProcess clock fuel (pid proc) k' = Fault.
Proof.
  intros Hs Hp H0 Ha Hm Hr. destruct (cleanupThreads_ok clock s Hs) as (k' & E & Hs' & _ & Ht & _ & Hpr & Ha'). exists k'. split; [done|].
  rewrite <- Hpr in Hp. rewrite <- Ha' in Ha. pose proof (getProcess_ok pr proc (with_kernel k' s) Hs' Hp) as Hg. cbn [kernel with_kernel] in Hg. rewrite decide_True in Hg by done.
  unfold joinProcess. rewrite bind_run, Hg. cbn [mbind outcome_bind]. rewrite (proj2 (Z.eqb_neq _ _) H0), bind_run. unfold Process_join. rewrite bind_run, (deref_process_ok k' pr proc Hp). cbn [mbind outcome_bind]. rewrite (proj2 (Z.eqb_neq _ _) Hm), bind_run.
  unfold join. rewrite bind_run, acquire_free by apply (si_kernel _ Hs'). cbn [mbind outcome_bind]. unfold deref_thread. run. by rewrite Ht, decide_True.
Qed.

(** ** A small system *)

(** An allocator that returns the address behind all others *)
Definition next_address (X : gset Z) : Z := 1 + foldr Z.max 0 (base.elements X).

Lemma next_address_fresh X : next_address X ∉ X /\ next_address X <> 0.
Proof.
  unfold next_address. rewrite <- (elem_of_elements X). induction (base.elements X) as [|x l [IH1 IH2]]; [split; [apply not_elem_of_nil|done]|]. cbn [foldr].
  assert (H : forall l x, x ∈ l -> x <= foldr Z.max 0 l). { clear. induction l as [|y l IH]; intros x Hx; [by apply elem_of_nil in Hx|]. apply elem_of_cons in Hx as [->|Hx]; cbn [foldr]; [lia|]. specialize (IH x Hx). lia. }
  split; [intros Hx; specialize (H (x :: l) _ Hx); cbn [foldr] in H; lia|]. assert (0 <= foldr Z.max 0 l) by (clear; induction l; cbn; lia). lia.
Qed.

Definition list_of (p : Z) : ArrayList Z := match ArrayList.add 0 p ArrayList_empty with Ok (_, l) => l | _ => ArrayList_empty end.

Lemma list_of_ok p : ArrayList.wf (list_of p) /\ ArrayList.contents (list_of p) = [p].
Proof. unfold list_of. destruct (ArrayList.add_spec 0 p ArrayList_empty) as (l & -> & ? & ?); [apply wf_empty|done|done]. Qed.

(** The kernel with a running thread, and a process whose main thread is not ready yet *)
Definition small0 : Service :=
  let m := match HashMap.put 1 (ArrayList_empty : ArrayList Z) HashMap_new with Ok m => m | _ => HashMap_new end in
  mkService (mkKernel true 11 true false 7 0 (Queue_new 0) unlocked ArrayList_empty unlocked m unlocked
    {[ 11 := mkThread 1 100 21; 12 := mkThread 2 200 22 ]}
    {[ 100 := mkProcess 1 (list_of 11) false (-1) 11; 200 := mkProcess 2 ArrayList_empty false (-1) 12 ]} (Ring_new 0 16) (Ring_new 0 16) 100 (list_of 200) unlocked 100 false 0) 3 3.

Lemma small0_sinv : sinv small0.
Proof.
  assert (Hm0 : HashMap.wf (HashMap_new : HashMap Z (ArrayList Z))) by done.
  destruct (put_spec 1 (ArrayList_empty : ArrayList Z) HashMap_new Hm0) as (m & E & Hm & _ & Hmap & _).
  assert (Ej : joinMap (kernel small0) = m) by (unfold small0; cbv zeta; cbn [joinMap kernel]; by rewrite E).
  assert (Hj : joining (kernel small0) = {[1 := []]}) by (unfold joining; rewrite Ej, Hmap; done).
  assert (Hpl : places (kernel small0) = [11]) by (unfold places, blocked; rewrite Hj; vm_compute; reflexivity).
  destruct (list_of_ok 11) as [W1 W2]. destruct (list_of_ok 200) as [W3 W4].
  assert (Ht : forall p t, threads (kernel small0) !! p = Some t -> p = 11 /\ t = mkThread 1 100 21 \/ p = 12 /\ t = mkThread 2 200 22).
  { intros p t Hp. cbn in Hp. apply lookup_insert_Some in Hp as [[<- <-]|[_ Hp]]; [auto|]. apply lookup_singleton_Some in Hp as [<- <-]. auto. }
  assert (Hp : forall p t, processes (kernel small0) !! p = Some t -> p = 100 /\ t = mkProcess 1 (list_of 11) false (-1) 11 \/ p = 200 /\ t = mkProcess 2 ArrayList_empty false (-1) 12).
  { intros p t Hp. cbn in Hp. apply lookup_insert_Some in Hp as [[<- <-]|[_ Hp]]; [auto|]. apply lookup_singleton_Some in Hp as [<- <-]. auto. }
  split.
  - split.
    + split_and!; [apply wf_capacity; cbn; unfold ArrayListBlockingQueue.DEFAULT_CAPACITY; lia|apply wf_empty|by rewrite Ej|]. rewrite Ej, Hmap. apply map_Forall_insert_2; [apply wf_empty|apply map_Forall_empty].
    + done.
    + done.
    + rewrite Hpl. apply NoDup_singleton.
    + rewrite Hpl. apply Forall_cons. split; [|constructor]. split; [done|]. exists (mkThread 1 100 21), (mkProcess 1 (list_of 11) false (-1) 11). split_and!; done.
    + intros p q t u [[-> ->]|[-> ->]]%Ht [[-> ->]|[-> ->]]%Ht; done.
    + by rewrite Hpl.
  - done.
  - done.
  - intros p t [[-> ->]|[-> ->]]%Ht; done.
  - rewrite Hj. intros i l Hl. apply lookup_singleton_Some in Hl as [<- <-]. done.
  - intros p t [[-> ->]|[-> ->]]%Hp; cbn [pthreads].
    + split_and!; [done|rewrite W2; apply NoDup_singleton|]. rewrite W2. constructor; [|constructor]. exists (mkThread 1 100 21). done.
    + split_and!; [apply wf_empty|apply NoDup_nil_2|constructor].
  - rewrite Hpl. intros p t proc ->%list_elem_of_singleton [[_ ->]|[? _]]%Ht; [|done]. intros [[_ ->]|[? _]]%Hp; [|done]. cbn [pthreads]. rewrite W2. set_solver.
  - unfold active. change (processList (kernel small0)) with (list_of 200). rewrite W4. split_and!; [done|apply NoDup_singleton|]. constructor; [by eexists|constructor].
  - intros p t [[-> ->]|[-> ->]]%Hp; done.
  - intros p q t u [[-> ->]|[-> ->]]%Hp [[-> ->]|[-> ->]]%Hp; done.
  - by apply Ring_new_wf.
  - change (processList (kernel small0)) with (list_of 200). rewrite <- ArrayList.al_contents_length, W4 by done. done.
  - split; [apply NoDup_nil_2|constructor].
Qed.

Definition after (o : outcome (unit * Kernel)) (s : Service) : Service := match o with Ok (_, k) => with_kernel k s | _ => s end.

(** The main thread becomes ready, and is killed. *)
Definition small1 : Service := after (ready 12 (kernel small0)) small0.
Definition small2 : Service := after (kill 12 (kernel small1)) small1.

Lemma small1_sinv : sinv small1.
Proof.
  destruct (sinv_ready 12 (mkThread 2 200 22) (mkProcess 2 ArrayList_empty false (-1) 12) small0 small0_sinv) as (k' & a & E & _ & Hs); [done|done|done| | |apply not_elem_of_nil| | |done|unfold small1; by rewrite E].
  - assert (places (kernel small0) = [11]) as -> by (vm_compute; reflexivity). set_solver.
  - apply not_elem_of_nil.
  - done.
  - vm_compute. done.
Qed.

Lemma small1_process : exists proc, processes (kernel small1) !! 200 = Some proc /\ ArrayList.contents (pthreads proc) = [12].
Proof. eexists. split; vm_compute; reflexivity. Qed.

Lemma small2_sinv : sinv small2.
Proof.
  destruct small1_process as (proc & Hp & Hc). pose proof small1_sinv as Hs.
  destruct (kill_one 12 200 proc (kernel small1)) as (k' & a & E & Hk & _); [apply Hs| |done|rewrite Hc; apply NoDup_singleton|apply Hs|vm_compute; done|].
  - split; [vm_compute; by left|]. eexists. split; [vm_compute; reflexivity|done].
  - unfold small2. rewrite E. by apply (sinv_kills [12] 200 proc a).
Qed.

Lemma kill_process_witness :
  exists s' c, killProcess next_address 5 200 small1 = Ok (tt, s') /\ sinv s' /\ c ∉ places (kernel small1) /\
    (forall p, p ∈ places (kernel s') <-> p = c \/ p ∈ places (kernel small1) /\ p ∉ [12]).
Proof.
  destruct small1_process as (proc & Hp & Hc).
  destruct (kill_process next_address 5 next_address_fresh 200 proc small1 small1_sinv Hp) as (s' & c & H1 & H2 & H3 & H4 & _).
  - vm_compute. discriminate.
  - rewrite Hc. constructor; [vm_compute; left|constructor].
  - rewrite Hc. vm_compute. discriminate.
  - vm_compute. reflexivity.
  - vm_compute. reflexivity.
  - rewrite Hc in H4. exists s', c. split; [exact H1|]. split; [exact H2|]. split; [exact H3|exact H4].
Defined.

Lemma small1_current : exists t proc, threads (kernel small1) !! currentThread (kernel small1) = Some t /\ processes (kernel small1) !! parent t = Some proc /\ parent t = 100 /\ ArrayList.contents (pthreads proc) = [11].
Proof. eexists _, _. split_and!; vm_compute; reflexivity. Qed.

Lemma exit_process_witness :
  exists s' c, exitCurrentProcess SchedulerSpec.seconds_clock next_address 5 3 0 small1 = Ok (tt, s') /\ sinv s' /\ c ∉ places (kernel small1) /\
    (forall p, p ∈ places (kernel s') <-> p = c \/ p ∈ places (kernel small1) /\ p ∉ [11]).
Proof.
  destruct small1_current as (t & proc & Ht & Hp & _ & Hc).
  destruct (exit_process next_address 5 next_address_fresh SchedulerSpec.seconds_clock 2 0 t proc small1 small1_sinv Ht Hp) as (s' & c & H1 & H2 & H3 & H4 & _).
  - rewrite Hc. constructor; [intros H; destruct (H eq_refl)|constructor].
  - rewrite Hc. vm_compute. discriminate.
  - vm_compute. reflexivity.
  - vm_compute. reflexivity.
  - rewrite Hc in H4. exists s', c. split; [exact H1|]. split; [exact H2|]. split; [exact H3|exact H4].
Defined.

Lemma load_binary_witness :
  exists pr c s', loadBinary next_address 5 small1 = Ok (pr, s') /\ sinv s' /\ pr ∉ active (kernel small1) /\ active (kernel s') = active (kernel small1) ++ [pr] /\ getProcess 3 (kernel s') = Ok (pr, kernel s') /\
    c ∉ places (kernel small1).
Proof.
  destruct (load_binary next_address 5 next_address_fresh small1 small1_sinv) as (pr & c & s' & H1 & H2 & H3 & H4 & H5 & H6 & _); [vm_compute; reflexivity..|].
  exists pr, c, s'. split_and!; assumption.
Defined.

(** A thread that is handed to the cleaner while it is ready still, as one that a timer interrupt takes from the processor
    before it has blocked itself in [exit] *)
Definition small3 : Kernel := kernel (after (cleanup 12 (kernel small1)) small1).

Lemma small3_cleanable : cleanable small3.
Proof.
  destruct (cleanup_ok 12 (kernel small1)) as (q & E & Hq & Hc & _); [apply small1_sinv|vm_compute; done|].
  assert (Hr : ring (kernel small1) = []) by (vm_compute; reflexivity). rewrite Hr in Hc.
  unfold small3. rewrite E. apply cleanable_queue; [apply sinv_cleanable, small1_sinv|exact Hq|rewrite Hc; apply NoDup_singleton|].
  rewrite Hc. apply Forall_singleton. eexists. vm_compute. reflexivity.
Qed.

Lemma cleanup_deletes_witness :
  (exists k', ring (kernel small2) = [12] /\ cleanupThreads SchedulerSpec.seconds_clock (kernel small2) = Ok (true, k') /\ ring k' = [] /\ threads k' !! 12 = None) /\
  (exists k', ring small3 = [12] /\ cleanupThreads SchedulerSpec.seconds_clock small3 = Ok (false, k') /\ ring k' = [12] /\ is_Some (threads k' !! 12)).
Proof.
  split.
  - destruct (cleanup_deletes SchedulerSpec.seconds_clock [12] [] (kernel small2) (sinv_cleanable _ small2_sinv)) as (k1 & _ & (D & _) & E & R).
    + vm_compute. reflexivity.
    + apply Forall_singleton. assert (queued (kernel small2) = []) as -> by (vm_compute; reflexivity). apply not_elem_of_nil.
    + exists k1. split; [vm_compute; reflexivity|]. split; [exact E|]. split; [exact R|]. rewrite D. vm_compute. reflexivity.
  - destruct (cleanup_deletes SchedulerSpec.seconds_clock [] [12] small3 small3_cleanable) as (k1 & _ & (D & _) & H).
    + vm_compute. reflexivity.
    + constructor.
    + destruct H as (R & _ & H); [vm_compute; left|]. destruct H as (k' & E & Ht & R'); [vm_compute; left|].
      exists k'. split; [vm_compute; reflexivity|]. split; [exact E|]. split; [rewrite R', R; reflexivity|]. rewrite Ht, D. eexists. vm_compute. reflexivity.
Defined.

Lemma join_deleted_main_thread_witness :
  exists k', cleanupThreads SchedulerSpec.seconds_clock (kernel small2) = Ok (true, k') /\ joinProcess SchedulerSpec.seconds_clock 3 2 k' = Fault.
Proof.
  assert (exists proc, processes (kernel small2) !! 200 = Some proc /\ pid proc = 2 /\ mainThread proc = 12) as (proc & Hp & Hi & Hm) by (eexists; split_and!; vm_compute; reflexivity).
  rewrite <- Hi. apply (join_deleted_main_thread SchedulerSpec.seconds_clock 3 200 proc small2 small2_sinv Hp).
  - discriminate.
  - vm_compute. left.
  - rewrite Hm. discriminate.
  - rewrite Hm. vm_compute. left.
Defined.

Lemma join_misses_joining_witness :
  let k := SchedulerSpec.next_state (join SchedulerSpec.seconds_clock 3 12 SchedulerSpec.demo2) in joinThread SchedulerSpec.seconds_clock 3 1 k = Ok (true, k).
Proof.
  intros k. assert (Hk : inv k).
  { destruct (join_inv SchedulerSpec.seconds_clock 3 12 SchedulerSpec.demo2 k) as [H _]; [apply SchedulerSpec.demo2_inv|vm_compute; reflexivity..|exact H]. }
  apply (join_misses_joining SchedulerSpec.seconds_clock 3 11 (mkThread 1 100 21) k Hk); vm_compute; [reflexivity|left].
Defined.
End ProcessService.
